(* ===== verification/_CoqProject ===== *)
-Q . S2P
Prelude.v
Tokio.v
Numbers.v
Messages.v
AtomicValue.v
Senders.v
RequestCancellation.v
Requests.v
AgentIssues.v
TokenThroughput.v
SlotStatus.v
AgentController.v
AgentPool.v
AgentPoolSystem.v
DesiredState.v
StateDatabase.v
BufferedRequests.v
RequestFromAgent.v
ToolCalls.v
Llama.v
Scheduler.v
SchedulerCommands.v
SchedulerBatch.v
SchedulerStreams.v
SchedulerLifecycle.v
Bytes.v
Images.v
Conversation.v
SchedulerSystem.v
SchedulerProgress.v
EmbeddingBatches.v
OpenAI.v
ChatCompletions.v
ChatCompletionsFacts.v
Responses.v
ResponsesStream.v
OpenAIRequests.v
ClientStreams.v
ClientDecoding.v
InferenceSocket.v
InferenceSocketFacts.v
InferencePool.v
Downloads.v
ModelSources.v
AgentStartup.v
AgentStartupFacts.v
AgentArbiter.v
AgentArbiterFacts.v
AgentSocket.v
AgentSocketFacts.v
AgentService.v
WebSocketEndpoint.v
BalancerSocket.v
BalancerSocketFacts.v
StatusReporting.v
RequestTask.v
InferenceEndpoint.v
InferenceEndpointFacts.v
InferenceRoutes.v
EndToEnd.v
Normalization.v
EmbeddingProcessor.v
EmbeddingProcessorFacts.v
SchedulerLoop.v
SchedulerLoopFacts.v
GuiForms.v
GuiApp.v
GuiAppFacts.v
GuiViews.v
ClientHttp.v
SnapshotsStream.v
ManagementRoutes.v
ManagementRoutesFacts.v
Services.v
Bootstrap.v
CommandLine.v
ServicesFacts.v
ResponseFormat.v
ResponseFormatFacts.v
DesiredStateJourney.v
