(* ===== verification/Prelude.v ===== *)
(** * Paddler: a verification development of the load balancer and its agents

    Paddler is a load balancer for language models.  A _balancer_
    ([paddler_balancer/]) accepts inference requests, keeps the _agents_
    ([paddler_agent/]) that connected to it in a pool, waits for one with a
    free slot, forwards the request to it over a websocket and streams its
    responses back.  An agent runs one model: its _continuous batch scheduler_
    serves all its requests from one context of llama.cpp.  A _desired state_
    (model, inference parameters, chat template) flows from the balancer to
    every agent; the status of every agent flows back.  [paddler_messaging/]
    has the data both sides share, [paddler_client/] talks to a balancer from
    outside, [paddler_bootstrap/] starts the services, [paddler_gui/] is a
    window on both programs.

    The development is a shallow embedding: records for the structs, inductive
    types for the enums, one definition for each operation, and step relations
    where several tasks or clients interleave.  Integers keep their width
    ([wrap_i32], [wrap_u64], [try_i32]); [f64] and [f32] are the computational
    binary64 and binary32 of the Standard Library.

    ** The files, and what they model

    Shared:
    - [Prelude]: results and [let?], machine integers, [f64], tactics, hints,
      generic lemmas.
    - [Tokio]: the runtime the program runs on, as classes with the documented
      laws the code relies on: unbounded channels, watch channels, cancellation
      tokens.  Each has a concrete instance, which the witnesses run.
    - [Messages], [Requests]: [paddler_messaging/src/], with the validation of
      tools, image markers and the chunking of embedding batches.
    - [AtomicValue]: [atomic_value.rs], a cell as its contents.
    - [Bytes]: UTF-8, trimming and lines of byte strings.
    - [Numbers]: socket addresses as a class, and the integers the standard
      library reads from text.

    The request path of the balancer:
    - [Senders]: [manages_senders.rs] and [manages_senders_controller.rs], the
      registry of requests that wait for responses of an agent.
    - [RequestCancellation]: [request_cancellation_tokens.rs] and its guards,
      the abstract connection the inference socket implements.
    - [AgentController]: what the balancer knows of an agent and how it asks it
      ([agent_controller.rs]).
    - [AgentPool]: [agent_controller_pool.rs] with the selection and claiming
      of [dispatch_candidate.rs] and the guards; [AgentPoolSystem]: the pool
      under concurrent claims, releases and registrations.
    - [BufferedRequests]: [buffered_request_manager.rs], the phases of waiting
      for an agent as a system over [AgentPool]: the search visits one
      controller at a time, and a change of the pool and its announcement are
      two steps, with the changes nothing announces among them.
    - [RequestFromAgent]: [request_from_agent.rs], one turn of the forwarding
      loop for each [select!], with its priorities; [RequestTask]: the future
      as the endpoints spawn it.
    - [WebSocketEndpoint]: [controls_websocket_endpoint.rs], the session of an
      endpoint.  [InferenceEndpoint], [InferenceEndpointFacts]:
      [ws_inference_socket/] over it.  [InferenceRoutes]: the routes of
      [inference_service/http_route/].
    - [BalancerSocket], [BalancerSocketFacts]: [ws_agent_socket/], the
      connections of agents.
    - [OpenAI], [ChatCompletions], [ChatCompletionsFacts], [Responses],
      [ResponsesStream], [OpenAIRequests]: [compatibility/openai_service/] and
      [chunk_forwarding_session_controller/].  [ChatCompletionsFacts] reads the
      rendered JSON as a client does, without the code's builders.

    State and management of the balancer:
    - [DesiredState]: conversion, the holder of the applied state (its write
      and its announcement), the reconciliation service event by event, and its
      race with registration.
    - [StateDatabase]: [state_database/], in memory and in a file, whose tasks
      interleave between emptying, writing and reading.
    - [SnapshotsStream]: [snapshots_stream.rs] over any producer (a class),
      with the changes it announces and those it does not; the pool and the
      buffered requests are instances.
    - [ManagementRoutes], [ManagementRoutesFacts]: the routes of
      [management_service/], the questions of
      [controls_manages_senders_endpoint.rs], and the reported metrics.
    - [Services], [ServicesFacts]: what the inference, the management, the
      OpenAI and the admin panel service register, allow and bind, the pages
      of the panel, and serving until told to stop.

    The agent:
    - [AgentIssues], [TokenThroughput], [SlotStatus]: the status of an agent
      ([slot_aggregated_status.rs], [slot_guard.rs], [agent_issue_fix.rs],
      [token_throughput_meter.rs]); [StatusReporting] composes it with
      [AgentController] as [BalancerSocket] registers it.
    - [ToolCalls]: [tool_call_pipeline.rs], [tool_call_validator.rs] and the
      pass over classified tokens.
    - [Llama]: the interface of the llama.cpp bindings, a class with the laws
      of batches and of decoding, and a concrete backend.
    - [Scheduler]: the operations of [continuous_batch_scheduler/]: sampling,
      classifying, emitting, assembling, decoding, committing, stopping,
      removing, evicting.  [SchedulerCommands]: accepting text, raw and
      multimodal prompts, harvesting, grammars.  [SchedulerBatch],
      [SchedulerStreams], [SchedulerLifecycle]: what these operations do to
      batches, to the streams of the clients and to the requests.
    - [Images], [Conversation]: [decoded_image.rs] and
      [prepare_conversation_history_request.rs].
    - [EmbeddingBatches], [Normalization], [EmbeddingProcessor],
      [EmbeddingProcessorFacts]: [plan_embedding_batches.rs],
      [normalization/] and [continuous_batch_embedding_processor.rs].
    - [SchedulerSystem]: the scheduler as a transition system;
      [SchedulerProgress]: termination, removal, eviction, limits;
      [SchedulerLoop], [SchedulerLoopFacts]: the loop of its thread as a
      machine, which refines the system.
    - [Downloads], [ModelSources]: [paddler_download_manager/],
      [paddler_cache_dir/] and [model_source/].
    - [AgentStartup], [AgentStartupFacts]: [continuous_batch_arbiter.rs], a
      start of the scheduler as its thread and the task that waits for it.
    - [AgentArbiter], [AgentArbiterFacts]: the reconciliation and the arbiter
      service ([llamacpp_arbiter_service.rs]), one handler per step.
    - [AgentSocket], [AgentSocketFacts]:
      [management_socket_client_service.rs], one connection; [AgentService]:
      one connection after the other.

    Around them:
    - [ClientStreams], [ClientDecoding]: [paddler_client/src/stream/].
      [InferenceSocket], [InferenceSocketFacts], [InferencePool]:
      [paddler_client/src/inference_socket/].  [ClientHttp]: the rest of the
      client, over any network.
    - [Bootstrap]: [paddler_bootstrap/].  [CommandLine]: [paddler_cli/], the
      arguments, what they configure and which command runs.
    - [EndToEnd]: both ends of the management socket, the forwarding loop and
      the inference socket, composed over links that keep the order.
    - [DesiredStateJourney]: the management routes, the database, the
      reconciliation service, the connections of agents and the process of an
      agent, composed over the state they share.
    - [GuiForms], [GuiApp], [GuiAppFacts]: [paddler_gui/], its screens, forms,
      messages and runners.  [GuiViews]: what each screen offers and shows,
      the snapshot of the running balancer and the suggested address.
    - [ResponseFormat], [ResponseFormatFacts]:
      [paddler_openai_response_format_validator/].

    ** What the theorems show

    - End to end: the answer a client of the inference socket is sent is the
      tokens the agent's scheduler sent for its request, in order, with
      nothing missing in between ([tokens_reach_client]).
    - The request path: a client sees the responses of its agent in order and
      at most one last message ([client_stream_well_formed]), always gets one
      unless it left ([request_always_answered]), and its agent is never left
      generating for nobody ([generation_never_abandoned]); a waiting request
      cannot miss the announcement it waits for, and what it can miss is only
      what the pool does not announce ([no_lost_wakeup]); slots are
      never claimed twice ([dispatch_never_overcommits]); the inference socket
      refines its abstract connection ([socket_refines_connection]).
    - The two sockets between balancer and agent: answers stay in order on
      both ends, and the pool is the agents that are connected
      ([responses_forwarded_in_order], [tokens_delivered_in_order],
      [pool_follows_connections]); [late_drop_forgets_agent] is the way they
      can part.
    - The scheduler: whatever the order of submissions, disconnections, stop
      signals and phases, active requests never share a sequence of the cache
      ([sequence_ids_never_shared]), every token is sampled from the logits of
      its own sequence ([sampling_reads_own_logits]), a stream ends at most
      once ([generation_stream_well_formed]) and every iteration terminates
      ([iteration_terminates]); the loop of the thread is an implementation of
      that system and stops when told to ([loop_refines_system],
      [scheduler_loop_stops]).
    - Batches and embeddings: no batch is overfilled ([batch_assembled]), the
      results of an embedding request come in order and it completes
      ([embedding_results_in_order], [embedding_batch_completes],
      [embedding_batch_ends_once]).
    - State: a state that a client put is the one the agents run, whatever
      else happens on the way ([put_state_reaches_scheduler]); the balancer
      shows the last status of an agent, with the load it counts itself
      ([agent_status_converges]), a
      settled agent runs what is desired ([settled_agent_runs_desired],
      [desired_state_takes_effect]), a start reports its failure
      ([startup_reports_failure]), a download is whole ([download_integrity]);
      the balancer starts from its database ([balancer_starts_from_database])
      and a client gets the state it put while the database works and nobody
      reads the file in the middle ([desired_state_round_trip]).
    - What clients read: decoding does not depend on how the network cuts a
      body ([stream_decodes_body], [ndjson_roundtrip]), a stream of snapshots
      is never left behind ([idle_stream_is_current]), the OpenAI streams are
      those of their specification and agree with the collected answers
      ([responses_stream_refines], [chat_streaming_equivalent]); what an agent
      prepares from a conversation shows the model its texts and images
      ([conversation_prepared]).
    - The ends: the clients ask for what the services register
      ([endpoints_agree]), the command line configures what it says
      ([balancer_command_configures]), an agent always connects again
      ([agent_service_reconnects]), services report once how they ended
      ([completion_reported_once]), each message does to the interface what it is
      for, and the screens offer exactly the operations that are possible
      ([screens_follow_transitions], [views_offer_operations]), and quitting
      cancels what it started ([quit_cancels_every_runner]).
    Some theorems and lemmas state what the code does where it differs from
    its intent: [registration_can_miss_state], [oneshot_answer_can_be_lost],
    [drain_waits_for_queued_request], [late_drop_forgets_agent],
    [reader_discards_stored_state], [chat_tool_call_indexes_restart],
    [invalid_request_ends_all], [stale_messages_orphan_runners].

    ** Interleavings, fuel and bounds

    Tasks that run concurrently are steps of one relation, or functions over a
    list of events: an event names the task that moves and what the runtime or
    a library answers it, so a theorem over all events is one over all
    schedules.  A handler of a service that nothing can interrupt is one step;
    where a value is read, changed and announced in separate moments, so are
    the steps.

    [AgentPool.take_least_busy_agent_controller] retries as often as its fuel,
    which bounds the claims lost to others; [Scheduler.remove_completed_requests]
    takes one turn more than there are requests, and
    [Scheduler.execute_one_iteration] too; [ClientStreams.next_item] one more
    than there are bytes and turns to read; [ResponseFormat.closure_fuel] one
    for the root and one for every reference.  All but the first are proved
    never to run out.  [ClientHttp.wait_until_healthy] and [AgentSocket.flush_messages] take
    the number of attempts and of messages.  The rest recurses on its data.
    A batch size is assumed to fit in an [i32], as the bindings need it to.

    ** What is not modelled

    Serialization is derived code of serde; parsers of chat messages, JSON
    Schema, YAML, URLs, image formats, tokenizers, sampling and decoding, the
    websocket and HTTP frameworks belong to packages and are parameters: a
    class where the code relies on laws of theirs, an argument otherwise.  A
    channel of a client keeps everything that was sent: reading from it does
    not concern the sender.  Log messages are left out, and the texts of errors
    where nothing but a log shows them, and the warm-up decode of a scheduler,
    which does nothing but log.  Of the graphical interface the sizes, fonts,
    colours and icons and the start of the window are left out, of the services
    the templates, the embedded files and the internals of the web framework,
    of the command line the parser of arguments, the resolver and the manager
    of services.  The engine of chat templates is a parameter.  The tests and
    their harness, and the clients in other languages, are out of scope. *)

From Stdlib Require Export ZArith Lia.
From Stdlib Require Import Floats.SpecFloat.
From stdpp Require Export base tactics option numbers gmap sets strings relations list.

(** ** Results

    [Result<A, E>] of the source; [?] is the notation [let?]. *)

Declare Scope paddler_scope.
Delimit Scope paddler_scope with paddler.
Open Scope paddler_scope.

Inductive result (A E : Type) : Type :=
| Ok (a : A)
| Err (e : E).
Arguments Ok {A E} a.
Arguments Err {A E} e.

Definition result_bind {A B E : Type} (r : result A E) (k : A -> result B E) : result B E :=
  match r with
  | Ok a => k a
  | Err e => Err e
  end.

Definition is_ok {A E : Type} (r : result A E) : bool :=
  match r with
  | Ok _ => true
  | Err _ => false
  end.

Notation "'let?' x ':=' r 'in' k" :=
  (result_bind r (fun x => k))
    (at level 10, x name, r at level 100, k at level 200)
  : paddler_scope.

(** ** Machine integers

    An [i32] or a [u64] is a [Z] in range; the operations of the atomics wrap
    around, as [fetch_add] and [fetch_sub] do. *)

Definition i32_min : Z := - 2 ^ 31.
Definition i32_max : Z := 2 ^ 31 - 1.
Definition in_i32 (z : Z) : Prop := (i32_min <= z <= i32_max)%Z.
Definition wrap_i32 (z : Z) : Z := ((z + 2 ^ 31) mod 2 ^ 32 - 2 ^ 31)%Z.

Definition u64_max : Z := 2 ^ 64 - 1.
Definition in_u64 (z : Z) : Prop := (0 <= z <= u64_max)%Z.
Definition wrap_u64 (z : Z) : Z := (z mod 2 ^ 64)%Z.

(** [i32::try_from] of a [usize] and [u64::try_from] of an [i32]. *)
Definition try_i32 (z : Z) : option Z :=
  if decide (i32_min <= z <= i32_max)%Z then Some z else None.
Definition try_u32 (z : Z) : option Z :=
  if decide (0 <= z <= 2 ^ 32 - 1)%Z then Some z else None.
Definition try_u64 (z : Z) : option Z :=
  if decide (0 <= z <= u64_max)%Z then Some z else None.

(** ** Binary64 floating point

    [f64] is the computational IEEE-754 model of the Standard Library
    ([SpecFloat]), which has no axiom: 53 bits of precision, [emax] 1024. *)

Definition f64 : Type := spec_float.
Definition f64_sub : f64 -> f64 -> f64 := SFsub 53 1024.
Definition f64_add : f64 -> f64 -> f64 := SFadd 53 1024.
Definition f64_abs : f64 -> f64 := SFabs.
Definition f64_gtb (x y : f64) : bool := SFltb y x.
Definition f64_zero : f64 := S754_zero false.

(** ** Tactics *)

(** Case analysis on the scrutinee of a [match] of the goal, or of a
    hypothesis, keeping the equation. *)
Ltac split_match :=
  match goal with
  | |- context [match ?x with _ => _ end] => destruct x eqn:?
  | H : context [match ?x with _ => _ end] |- _ => destruct x eqn:?
  end.

(** Unfold the machine-integer definitions and call [lia]. *)
Ltac int_lia :=
  unfold in_i32, in_u64, i32_min, i32_max, u64_max in *; simpl in *; lia.

(** ** Hint database *)

Create HintDb paddler discriminated.
Create Rewrite HintDb paddler.
#[export] Hint Constants Opaque : paddler.

(** ** Generic lemmas *)

Lemma wrap_i32_id (z : Z) : in_i32 z -> wrap_i32 z = z.
Proof.
  unfold in_i32, i32_min, i32_max, wrap_i32. intros H.
  rewrite Z.mod_small; lia.
Qed.

Lemma wrap_i32_range (z : Z) : in_i32 (wrap_i32 z).
Proof.
  unfold in_i32, i32_min, i32_max, wrap_i32.
  pose proof (Z.mod_pos_bound (z + 2 ^ 31) (2 ^ 32) ltac:(lia)). lia.
Qed.

Lemma wrap_i32_add (a b : Z) : wrap_i32 (wrap_i32 a + b) = wrap_i32 (a + b).
Proof.
  unfold wrap_i32. f_equal.
  replace ((a + 2 ^ 31) mod 2 ^ 32 - 2 ^ 31 + b + 2 ^ 31)%Z
    with ((a + 2 ^ 31) mod 2 ^ 32 + b)%Z by lia.
  rewrite Z.add_mod_idemp_l by lia. f_equal. lia.
Qed.

Lemma wrap_i32_sub (a b : Z) : wrap_i32 (wrap_i32 a - b) = wrap_i32 (a - b).
Proof. rewrite <- !Z.add_opp_r. apply wrap_i32_add. Qed.

Lemma wrap_u64_id (z : Z) : in_u64 z -> wrap_u64 z = z.
Proof. unfold in_u64, u64_max, wrap_u64. intros H. apply Z.mod_small. lia. Qed.

Lemma wrap_u64_range (z : Z) : in_u64 (wrap_u64 z).
Proof.
  unfold in_u64, u64_max, wrap_u64.
  pose proof (Z.mod_pos_bound z (2 ^ 64) ltac:(lia)). lia.
Qed.

#[export] Hint Resolve wrap_i32_range wrap_u64_range : paddler.

Lemma list_filter_all {A : Type} (P : A -> Prop) `{!forall x, Decision (P x)} (l : list A) :
  Forall P l -> filter P l = l.
Proof.
  induction 1 as [|x l Hx Hl IH]; [done|]. by rewrite filter_cons_True, IH.
Qed.

Lemma list_filter_none {A : Type} (P : A -> Prop) `{!forall x, Decision (P x)} (l : list A) :
  Forall (fun x => ~ P x) l -> filter P l = [].
Proof.
  induction 1 as [|x l Hx Hl IH]; [done|]. by rewrite filter_cons_False.
Qed.

Lemma omap_none {A B : Type} (f : A -> option B) (l : list A) (Hnone : Forall (fun x => f x = None) l) :
  omap f l = [].
Proof. induction Hnone as [|x l Hx _ IH]; [done|]. cbn. by rewrite Hx. Qed.

(** Appended strings. *)

Lemma string_app_nil_r (s : string) : s +:+ "" = s.
Proof.
  induction s as [|a s IH]; [done|]. change (String a (s +:+ "") = String a s). by rewrite IH.
Qed.

Lemma string_app_assoc (a b c : string) : (a +:+ b) +:+ c = a +:+ (b +:+ c).
Proof.
  induction a as [|x a IH]; [done|].
  change (String x ((a +:+ b) +:+ c) = String x (a +:+ (b +:+ c))). by rewrite IH.
Qed.

(** Reachability: an invariant of the initial state that every step keeps
    holds in every reachable state. *)
Lemma rtc_invariant {S : Type} (R : relation S) (I : S -> Prop) (s0 s : S) :
  rtc R s0 s -> I s0 -> (forall x y, I x -> R x y -> I y) -> I s.
Proof. intros Hr. induction Hr; eauto. Qed.

