(* ===== verification/Tokio.v ===== *)
(** * Interfaces of the asynchronous runtime

    The program talks to [tokio]'s unbounded channels, watch channels and
    cancellation tokens, which are not part of the repository.  Each of them
    is a class here: its operations, the observations a client can make, and
    the documented laws that relate them.  The components of the development
    are proved against the classes; the instances at the end give each class
    one concrete implementation, used to run the definitions. *)

From S2P Require Import Prelude.

(** ** [tokio::sync::mpsc::unbounded_channel]

    [chan_pending] lists the messages sent and not yet received, oldest
    first; [chan_receiver_alive] says whether the receiving half still
    exists.  Sending fails exactly when the receiver is gone. *)
Class UnboundedChannel (chan : Type -> Type) := {
  chan_new {V : Type} : chan V;
  chan_send {V : Type} : chan V -> V -> option (chan V);
  chan_try_recv {V : Type} : chan V -> option (V * chan V);
  chan_drop_receiver {V : Type} : chan V -> chan V;
  chan_pending {V : Type} : chan V -> list V;
  chan_receiver_alive {V : Type} : chan V -> bool;
  chan_new_pending {V : Type} : chan_pending (chan_new (V := V)) = [];
  chan_new_alive {V : Type} : chan_receiver_alive (chan_new (V := V)) = true;
  chan_send_none {V : Type} (c : chan V) (v : V) :
    chan_send c v = None <-> chan_receiver_alive c = false;
  chan_send_some {V : Type} (c c' : chan V) (v : V) :
    chan_send c v = Some c' ->
    chan_pending c' = chan_pending c ++ [v] /\ chan_receiver_alive c' = true;
  chan_recv_none {V : Type} (c : chan V) :
    chan_try_recv c = None <-> chan_pending c = [];
  chan_recv_some {V : Type} (c c' : chan V) (v : V) :
    chan_try_recv c = Some (v, c') ->
    chan_pending c = v :: chan_pending c' /\
    chan_receiver_alive c' = chan_receiver_alive c;
  chan_drop_alive {V : Type} (c : chan V) :
    chan_receiver_alive (chan_drop_receiver c) = false;
}.

(** ** [tokio::sync::watch] with the unit value

    The channel only carries "something changed": after [watch_send_replace]
    every receiver of that sender has a change to see, and [watch_mark_seen]
    is what [changed().await] does when it returns.  [watch_valid s r] says
    that [r] was obtained from [s]. *)
Class WatchChannel (sender receiver : Type) := {
  watch_new : sender;
  watch_send_replace : sender -> sender;
  watch_subscribe : sender -> receiver;
  watch_mark_seen : sender -> receiver -> receiver;
  watch_has_changed : sender -> receiver -> bool;
  watch_valid : sender -> receiver -> Prop;
  watch_subscribe_valid (s : sender) : watch_valid s (watch_subscribe s);
  watch_mark_seen_valid (s : sender) (r : receiver) :
    watch_valid s r -> watch_valid s (watch_mark_seen s r);
  watch_send_valid (s : sender) (r : receiver) :
    watch_valid s r -> watch_valid (watch_send_replace s) r;
  watch_subscribe_seen (s : sender) : watch_has_changed s (watch_subscribe s) = false;
  watch_mark_seen_seen (s : sender) (r : receiver) :
    watch_valid s r -> watch_has_changed s (watch_mark_seen s r) = false;
  watch_send_changed (s : sender) (r : receiver) :
    watch_valid s r -> watch_has_changed (watch_send_replace s) r = true;
}.

(** ** [tokio::sync::watch] with a value

    The channel keeps the last value sent; [send] fails, and keeps the value
    it had, exactly when there is no receiver.  A receiver that subscribes has
    seen the value of that moment, [watched_borrow_and_update] shows the last
    value and marks it seen. *)
Class ValueWatch (V sender receiver : Type) := {
  watched_new : V -> sender;
  watched_value : sender -> V;
  watched_has_receivers : sender -> bool;
  watched_send : V -> sender -> option sender;
  watched_subscribe : sender -> sender * receiver;
  watched_borrow_and_update : sender -> receiver -> receiver * V;
  watched_changed : sender -> receiver -> bool;
  watched_valid : sender -> receiver -> Prop;
  watched_new_value (v : V) : watched_value (watched_new v) = v;
  watched_new_alone (v : V) : watched_has_receivers (watched_new v) = false;
  watched_send_none (v : V) (s : sender) :
    watched_send v s = None <-> watched_has_receivers s = false;
  watched_send_some (v : V) (s s' : sender) :
    watched_send v s = Some s' -> watched_value s' = v /\ watched_has_receivers s' = true;
  watched_send_changed (v : V) (s s' : sender) (r : receiver) :
    watched_send v s = Some s' -> watched_valid s r ->
    watched_valid s' r /\ watched_changed s' r = true;
  watched_subscribe_new (s s' : sender) (r : receiver) :
    watched_subscribe s = (s', r) ->
    watched_value s' = watched_value s /\ watched_has_receivers s' = true /\
    watched_valid s' r /\ watched_changed s' r = false;
  watched_update_seen (s : sender) (r r' : receiver) (v : V) :
    watched_borrow_and_update s r = (r', v) -> watched_valid s r ->
    v = watched_value s /\ watched_valid s r' /\ watched_changed s r' = false;
}.

(** ** [tokio_util::sync::CancellationToken]

    Tokens form a forest.  [token_below g t u] says that [u] is [t] or
    descends from it; cancelling [t] cancels exactly the tokens below it, and
    a fresh child is cancelled exactly when its parent is. *)
Class CancellationTokens (registry token : Type) := {
  token_child : registry -> token -> registry * token;
  token_cancel : registry -> token -> registry;
  token_cancelled : registry -> token -> bool;
  token_below : token -> token -> bool;
  token_known : registry -> token -> bool;
  token_below_refl (t : token) : token_below t t = true;
  token_child_fresh (g g' : registry) (p c : token) :
    token_known g p = true -> token_child g p = (g', c) ->
    token_known g c = false /\ token_known g' c = true;
  token_child_known (g g' : registry) (p c t : token) :
    token_child g p = (g', c) -> token_known g t = true -> token_known g' t = true;
  token_child_state (g g' : registry) (p c : token) :
    token_known g p = true -> token_child g p = (g', c) ->
    token_cancelled g' c = token_cancelled g p;
  token_child_others (g g' : registry) (p c t : token) :
    token_child g p = (g', c) -> token_known g t = true ->
    token_cancelled g' t = token_cancelled g t;
  token_child_above (g g' : registry) (p c t : token) :
    token_child g p = (g', c) -> token_known g t = true -> token_known g p = true ->
    token_below t c = token_below t p;
  token_child_leaf (g g' : registry) (p c t : token) :
    token_child g p = (g', c) -> token_known g t = true -> token_below c t = false;
  token_cancel_known (g : registry) (t u : token) :
    token_known (token_cancel g t) u = token_known g u;
  token_cancel_state (g : registry) (t u : token) :
    token_known g t = true ->
    token_cancelled (token_cancel g t) u = token_cancelled g u || token_below t u;
}.

(** ** Instances *)

#[local] Obligation Tactic := idtac.

Record QueueChannel (V : Type) : Type := {
  queue_pending : list V;
  queue_alive : bool;
}.
Arguments queue_pending {V} _.
Arguments queue_alive {V} _.

#[export] Program Instance QueueChannel_unbounded : UnboundedChannel QueueChannel := {
  chan_new V := {| queue_pending := []; queue_alive := true |};
  chan_send V c v :=
    if queue_alive c
    then Some {| queue_pending := queue_pending c ++ [v]; queue_alive := true |}
    else None;
  chan_try_recv V c :=
    match queue_pending c with
    | [] => None
    | v :: rest => Some (v, {| queue_pending := rest; queue_alive := queue_alive c |})
    end;
  chan_drop_receiver V c := {| queue_pending := queue_pending c; queue_alive := false |};
  chan_pending V c := queue_pending c;
  chan_receiver_alive V c := queue_alive c;
}.
Next Obligation. reflexivity. Qed.
Next Obligation. reflexivity. Qed.
Next Obligation. intros V [p [|]] v; simpl; split; congruence. Qed.
Next Obligation. intros V [p [|]] c' v; simpl; intros H; inversion H; done. Qed.
Next Obligation. intros V [[|x l] b]; simpl; split; congruence. Qed.
Next Obligation. intros V [[|x l] b] c' v; simpl; intros H; inversion H; done. Qed.
Next Obligation. reflexivity. Qed.

(** A version counter: a receiver remembers the version it saw last. *)
#[export] Program Instance version_watch : WatchChannel nat nat := {
  watch_new := 0%nat;
  watch_send_replace s := S s;
  watch_subscribe s := s;
  watch_mark_seen s _ := s;
  watch_has_changed s r := Nat.ltb r s;
  watch_valid s r := (r <= s)%nat;
}.
Solve Obligations with
  (simpl; intros; first [lia | apply Nat.ltb_irrefl | apply Nat.ltb_lt; lia]).

(** A version counter beside the value and the number of receivers. *)
Record WatchedValue (V : Type) : Type := {
  value_version : nat;
  value_receivers : nat;
  value_last : V;
}.
Arguments Build_WatchedValue {V} _ _ _.
Arguments value_version {V} _.
Arguments value_receivers {V} _.
Arguments value_last {V} _.

#[export] Program Instance version_value_watch (V : Type) : ValueWatch V (WatchedValue V) nat := {
  watched_new v := Build_WatchedValue 0 0 v;
  watched_value := value_last;
  watched_has_receivers s := negb (Nat.eqb (value_receivers s) 0);
  watched_send v s :=
    match value_receivers s with
    | O => None
    | S n => Some (Build_WatchedValue (S (value_version s)) (S n) v)
    end;
  watched_subscribe s :=
    (Build_WatchedValue (value_version s) (S (value_receivers s)) (value_last s), value_version s);
  watched_borrow_and_update s _ := (value_version s, value_last s);
  watched_changed s r := Nat.ltb r (value_version s);
  watched_valid s r := (r <= value_version s)%nat;
}.
Next Obligation. reflexivity. Qed.
Next Obligation. reflexivity. Qed.
Next Obligation. intros V v [n [|k] x]; simpl; split; congruence. Qed.
Next Obligation. intros V v [n [|k] x] s' [= <-]. done. Qed.
Next Obligation.
  intros V v [n [|k] x] s' r [= <-] Hr. simpl in *. split; [lia|]. apply Nat.ltb_lt. lia.
Qed.
Next Obligation.
  intros V [n k x] s' r [= <- <-]. simpl. split_and!; try done. apply Nat.ltb_irrefl.
Qed.
Next Obligation.
  intros V [n k x] r r' v [= <- <-] _. simpl. split_and!; try done. apply Nat.ltb_irrefl.
Qed.

(** A token is the path from its root; a registry remembers the next fresh
    label and the tokens cancelled so far, all of them known. *)
Definition path_known (next : nat) (t : list nat) : bool :=
  forallb (fun label => Nat.ltb label next) t.

Fixpoint path_prefix (t u : list nat) : bool :=
  match t, u with
  | [], _ => true
  | _ :: _, [] => false
  | x :: t', y :: u' => Nat.eqb x y && path_prefix t' u'
  end.

Record TokenForest : Type := {
  next_label : nat;
  cancelled_paths : list (list nat);
  cancelled_known : forallb (path_known next_label) cancelled_paths = true;
}.

Lemma path_known_weaken (n : nat) (t : list nat) :
  path_known n t = true -> path_known (S n) t = true.
Proof.
  unfold path_known. rewrite !forallb_forall. intros H x Hx.
  specialize (H x Hx). apply Nat.ltb_lt in H. apply Nat.ltb_lt. lia.
Qed.

Lemma paths_known_weaken (n : nat) (l : list (list nat)) :
  forallb (path_known n) l = true -> forallb (path_known (S n)) l = true.
Proof.
  rewrite !forallb_forall. intros H x Hx. apply path_known_weaken. by apply H.
Qed.

Lemma path_prefix_refl (t : list nat) : path_prefix t t = true.
Proof. induction t; simpl; [done | by rewrite Nat.eqb_refl]. Qed.

Lemma path_prefix_fresh (n : nat) (t p : list nat) :
  path_known n t = true -> path_prefix t (p ++ [n]) = path_prefix t p.
Proof.
  revert p. induction t as [|x t IH]; intros p Ht; [done|]. simpl in Ht.
  apply andb_prop in Ht as [Hx Ht]. apply Nat.ltb_lt in Hx.
  destruct p as [|y p]; simpl.
  - destruct (Nat.eqb_spec x n); [lia | done].
  - by rewrite IH.
Qed.

Lemma path_prefix_leaf (n : nat) (p t : list nat) :
  path_known n t = true -> path_prefix (p ++ [n]) t = false.
Proof.
  revert t. induction p as [|y p IH]; intros [|x t] Ht; simpl; [done| |done|].
  - simpl in Ht. apply andb_prop in Ht as [Hx _]. apply Nat.ltb_lt in Hx.
    destruct (Nat.eqb_spec n x); [lia | done].
  - simpl in Ht. apply andb_prop in Ht as [_ Ht]. rewrite (IH t Ht). apply andb_false_r.
Qed.

Lemma existsb_ext_known (n : nat) (f g : list nat -> bool) (l : list (list nat)) :
  forallb (path_known n) l = true ->
  (forall c, path_known n c = true -> f c = g c) -> existsb f l = existsb g l.
Proof.
  intros Hl Hfg. induction l as [|c l IH]; [done|]. simpl in *.
  apply andb_prop in Hl as [Hc Hl]. by rewrite Hfg, IH.
Qed.

Definition forest_child (g : TokenForest) (p : list nat) : TokenForest * list nat :=
  ({| next_label := S (next_label g);
      cancelled_paths := cancelled_paths g;
      cancelled_known := paths_known_weaken _ _ (cancelled_known g) |},
   p ++ [next_label g]).

Definition forest_cancel (g : TokenForest) (t : list nat) : TokenForest :=
  match bool_dec (path_known (next_label g) t) true with
  | left H =>
      {| next_label := next_label g;
         cancelled_paths := t :: cancelled_paths g;
         cancelled_known := andb_true_intro (conj H (cancelled_known g)) |}
  | right _ => g
  end.

Definition forest_cancelled (g : TokenForest) (t : list nat) : bool :=
  existsb (fun c => path_prefix c t) (cancelled_paths g).

Lemma forest_cancel_spec (g : TokenForest) (t : list nat) :
  next_label (forest_cancel g t) = next_label g /\
  cancelled_paths (forest_cancel g t)
  = if path_known (next_label g) t then t :: cancelled_paths g else cancelled_paths g.
Proof.
  unfold forest_cancel. destruct (bool_dec _ _) as [H|H]; simpl.
  - by rewrite H.
  - by apply not_true_is_false in H as ->.
Qed.

#[export] Program Instance forest_tokens : CancellationTokens TokenForest (list nat) := {
  token_child := forest_child;
  token_cancel := forest_cancel;
  token_cancelled := forest_cancelled;
  token_below := path_prefix;
  token_known g t := path_known (next_label g) t;
}.
Next Obligation. apply path_prefix_refl. Qed.
Next Obligation.
  intros g g' p c Hp H. inversion H; subst; clear H. simpl. split.
  - unfold path_known. rewrite forallb_app. simpl. rewrite Nat.ltb_irrefl.
    apply andb_false_r.
  - unfold path_known in *. rewrite forallb_app. simpl.
    pose proof (path_known_weaken _ _ Hp) as Hw. unfold path_known in Hw. rewrite Hw.
    replace (next_label g <? S (next_label g))%nat with true; [done|].
    symmetry. apply Nat.ltb_lt. lia.
Qed.
Next Obligation.
  intros g g' p c t H Ht. inversion H; subst. by apply path_known_weaken.
Qed.
Next Obligation.
  intros g g' p c Hp H. inversion H; subst; clear H. unfold forest_cancelled. simpl.
  apply (existsb_ext_known (next_label g)); [apply cancelled_known|].
  intros c Hc. by apply path_prefix_fresh.
Qed.
Next Obligation. intros g g' p c t H _. inversion H; subst. reflexivity. Qed.
Next Obligation.
  intros g g' p c t H Ht _. inversion H; subst. by apply path_prefix_fresh.
Qed.
Next Obligation.
  intros g g' p c t H Ht. inversion H; subst. by apply path_prefix_leaf.
Qed.
Next Obligation.
  intros g t u. simpl. by rewrite (proj1 (forest_cancel_spec g t)).
Qed.
Next Obligation.
  intros g t u Ht. unfold forest_cancelled.
  rewrite (proj2 (forest_cancel_spec g t)). simpl in Ht. rewrite Ht. simpl.
  apply orb_comm.
Qed.
