(* ===== verification/Numbers.v ===== *)
(** * Addresses and numbers

    [std::net::SocketAddr] as the programs use it: they parse addresses, print
    them and hand them to the network; what an address is inside is left to
    the class.  Then the integers, as the standard library parses them:
    [i32::from_str] and [u64::from_str] with a sign, the digits one by one,
    and the overflow of the type. *)

From Stdlib Require Import Strings.Ascii.
From S2P Require Import Prelude.

Class Network : Type := {
  SocketAddr : Type;
  parse_socket_addr : string -> result SocketAddr string;
  display_addr : SocketAddr -> string;
  display_port : SocketAddr -> string;
}.

(** [resolved_socket_addr.rs]: an address with the text it was given as. *)
Record ResolvedSocketAddr `{Network} : Type := {
  input_addr : string;
  socket_addr : SocketAddr;
}.

Local Open Scope Z_scope.

(** ** Numbers *)

Inductive IntErrorKind : Type :=
| IntEmpty
| InvalidDigit
| PosOverflow
| NegOverflow.

(** [to_digit(10)] *)
Definition digit_value (a : ascii) : option Z :=
  let n := Z.of_nat (nat_of_ascii a) in
  if (48 <=? n) && (n <=? 57) then Some (n - 48) else None.

Definition is_ascii_digit (a : ascii) : bool :=
  match digit_value a with Some _ => true | None => false end.

Fixpoint all_digits (s : string) : bool :=
  match s with
  | EmptyString => true
  | String a rest => is_ascii_digit a && all_digits rest
  end.

(** Digit by digit, in the direction of the sign, up to the last number of the
    type. *)
Fixpoint parse_positive (max : Z) (s : string) (acc : Z) : result Z IntErrorKind :=
  match s with
  | EmptyString => Ok acc
  | String a rest =>
      match digit_value a with
      | None => Err InvalidDigit
      | Some d =>
          if max <? acc * 10 + d then Err PosOverflow else parse_positive max rest (acc * 10 + d)
      end
  end.

Fixpoint parse_negative (min : Z) (s : string) (acc : Z) : result Z IntErrorKind :=
  match s with
  | EmptyString => Ok acc
  | String a rest =>
      match digit_value a with
      | None => Err InvalidDigit
      | Some d =>
          if acc * 10 - d <? min then Err NegOverflow else parse_negative min rest (acc * 10 - d)
      end
  end.

(** [i32::from_str]: a sign alone is an invalid digit. *)
Definition parse_i32 (s : string) : result Z IntErrorKind :=
  match s with
  | EmptyString => Err IntEmpty
  | String a EmptyString => parse_positive i32_max s 0
  | String a rest =>
      if Ascii.eqb a "+" then parse_positive i32_max rest 0
      else if Ascii.eqb a "-" then parse_negative i32_min rest 0
      else parse_positive i32_max s 0
  end.

(** [u64::from_str], which knows no minus. *)
Definition parse_u64 (s : string) : result Z IntErrorKind :=
  match s with
  | EmptyString => Err IntEmpty
  | String a EmptyString => parse_positive u64_max s 0
  | String a rest =>
      if Ascii.eqb a "+" then parse_positive u64_max rest 0 else parse_positive u64_max s 0
  end.

(** The number some digits stand for. *)
Fixpoint decimal_value (s : string) (acc : Z) : Z :=
  match s with
  | EmptyString => acc
  | String a rest => decimal_value rest (acc * 10 + default 0 (digit_value a))
  end.

(** ** Facts *)

Lemma digit_value_range (a : ascii) (d : Z) : digit_value a = Some d -> 0 <= d <= 9.
Proof.
  unfold digit_value. destruct (_ && _) eqn:Hrange; [|done]. intros [= <-].
  apply andb_prop in Hrange as [Hlow Hhigh]. apply Z.leb_le in Hlow, Hhigh. lia.
Qed.

Lemma decimal_value_grows (s : string) (acc : Z) : 0 <= acc -> acc <= decimal_value s acc.
Proof.
  revert acc. induction s as [|a s IH]; intros acc Hacc; simpl; [lia|].
  assert (Hd : 0 <= default 0 (digit_value a)).
  { destruct (digit_value a) as [d|] eqn:Ha; simpl; [apply digit_value_range in Ha|]; lia. }
  specialize (IH (acc * 10 + default 0 (digit_value a)) ltac:(lia)). lia.
Qed.

(** Digits alone are parsed, unless their number is too large. *)
Lemma parse_positive_digits (max : Z) (s : string) (acc : Z) :
  all_digits s = true -> 0 <= acc <= max ->
  parse_positive max s acc
  = if decimal_value s acc <=? max then Ok (decimal_value s acc) else Err PosOverflow.
Proof.
  revert acc. induction s as [|a s IH]; intros acc Hdigits Hacc; simpl in *.
  { by rewrite (proj2 (Z.leb_le _ _)) by lia. }
  apply andb_prop in Hdigits as [Ha Hs]. unfold is_ascii_digit in Ha.
  destruct (digit_value a) as [d|] eqn:Hd; [|done]. simpl. apply digit_value_range in Hd.
  destruct (Z.ltb_spec max (acc * 10 + d)) as [Hover|Hin].
  - pose proof (decimal_value_grows s (acc * 10 + d) ltac:(lia)).
    by rewrite (proj2 (Z.leb_gt _ _)) by lia.
  - apply IH; [done|lia].
Qed.

Lemma digit_not_sign (a : ascii) :
  is_ascii_digit a = true -> Ascii.eqb a "+" = false /\ Ascii.eqb a "-" = false.
Proof.
  intros Ha. split; apply Ascii.eqb_neq; intros ->; vm_compute in Ha; discriminate Ha.
Qed.

Lemma parse_i32_digits (s : string) :
  all_digits s = true -> s <> ""%string ->
  parse_i32 s = if decimal_value s 0 <=? i32_max then Ok (decimal_value s 0) else Err PosOverflow.
Proof.
  intros Hdigits Hs. rewrite <- parse_positive_digits by (done || (unfold i32_max; lia)).
  destruct s as [|a s]; [done|]. unfold parse_i32. simpl in Hdigits.
  apply andb_prop in Hdigits as [Ha _]. apply digit_not_sign in Ha as [-> ->]. by destruct s.
Qed.

Lemma parse_u64_digits (s : string) :
  all_digits s = true -> s <> ""%string ->
  parse_u64 s = if decimal_value s 0 <=? u64_max then Ok (decimal_value s 0) else Err PosOverflow.
Proof.
  intros Hdigits Hs. rewrite <- parse_positive_digits by (done || (unfold u64_max; lia)).
  destruct s as [|a s]; [done|]. unfold parse_u64. simpl in Hdigits.
  apply andb_prop in Hdigits as [Ha _]. apply digit_not_sign in Ha as [-> _]. by destruct s.
Qed.

Lemma parse_positive_range (max : Z) (s : string) (acc n : Z) :
  0 <= acc <= max -> parse_positive max s acc = Ok n -> 0 <= n <= max.
Proof.
  revert acc. induction s as [|a s IH]; intros acc Hacc; simpl; [by intros [= <-]|].
  destruct (digit_value a) as [d|] eqn:Hd; [|done]. apply digit_value_range in Hd.
  destruct (Z.ltb_spec max (acc * 10 + d)); [done|]. apply IH. lia.
Qed.

Lemma parse_u64_range (s : string) (n : Z) : parse_u64 s = Ok n -> in_u64 n.
Proof.
  assert (Hzero : 0 <= 0 <= u64_max) by (unfold u64_max; lia).
  unfold parse_u64. destruct s as [|a [|b s]]; [done|by apply parse_positive_range|].
  destruct (Ascii.eqb a "+"); by apply parse_positive_range.
Qed.

Lemma parse_negative_range (min : Z) (s : string) (acc n : Z) :
  min <= acc <= 0 -> parse_negative min s acc = Ok n -> min <= n <= 0.
Proof.
  revert acc. induction s as [|a s IH]; intros acc Hacc; simpl; [by intros [= <-]|].
  destruct (digit_value a) as [d|] eqn:Hd; [|done]. apply digit_value_range in Hd.
  destruct (Z.ltb_spec (acc * 10 - d) min); [done|]. apply IH. lia.
Qed.

Lemma parse_i32_range (s : string) (n : Z) : parse_i32 s = Ok n -> in_i32 n.
Proof.
  assert (Hpos : forall s' n', parse_positive i32_max s' 0 = Ok n' -> in_i32 n').
  { intros s' n' Hp%parse_positive_range; int_lia. }
  assert (Hneg : forall s' n', parse_negative i32_min s' 0 = Ok n' -> in_i32 n').
  { intros s' n' Hp%parse_negative_range; int_lia. }
  unfold parse_i32. destruct s as [|a [|b s]]; [done|apply Hpos|].
  destruct (Ascii.eqb a "+"); [apply Hpos|]. destruct (Ascii.eqb a "-"); [apply Hneg|apply Hpos].
Qed.
