(* ===== verification/Messages.v ===== *)
(** * Messages: the data of [paddler_messaging]

    The enums and structs the balancer and its agents exchange, with the
    predicates the program computes on them.  The types of the llama.cpp
    bindings ([TokenUsage], [ParsedToolCall]) are not part of the repository:
    they are the fields of the class [LlamaTypes]. *)

From S2P Require Import Prelude.
From Stdlib Require Import Floats.SpecFloat.
Local Open Scope Z_scope.

Definition f32 : Type := spec_float.

(** ** JSON-RPC envelopes *)

Record JsonRpcError : Type := { code : Z; description : string }.

Record ErrorEnvelope (E : Type) : Type := {
  error_request_id : string;
  error : E;
}.
Arguments Build_ErrorEnvelope {E} _ _.
Arguments error_request_id {E} _.
Arguments error {E} _.

Record RequestEnvelope (R : Type) : Type := {
  request_envelope_id : string;
  request : R;
}.
Arguments Build_RequestEnvelope {R} _ _.
Arguments request_envelope_id {R} _.
Arguments request {R} _.

Record ResponseEnvelope (R : Type) : Type := {
  generated_by : option string;
  response_request_id : string;
  response : R;
}.
Arguments Build_ResponseEnvelope {R} _ _ _.
Arguments generated_by {R} _.
Arguments response_request_id {R} _.
Arguments response {R} _.

(** ** Agent state application status *)

Inductive AgentStateApplicationStatus : Type :=
| Applied
| AttemptedAndNotAppliable
| AttemptedAndRetrying
| Fresh
| Stuck.

#[export] Instance AgentStateApplicationStatus_eq_dec : EqDecision AgentStateApplicationStatus.
Proof. solve_decision. Defined.

(** [status as i32] *)
Definition status_code (status : AgentStateApplicationStatus) : Z :=
  match status with
  | Applied => 0
  | AttemptedAndNotAppliable => 1
  | AttemptedAndRetrying => 2
  | Fresh => 3
  | Stuck => 4
  end.

Definition should_try_to_apply (status : AgentStateApplicationStatus) : bool :=
  match status with
  | Applied | AttemptedAndNotAppliable => false
  | AttemptedAndRetrying | Fresh | Stuck => true
  end.

(** [TryFrom<i32>] *)
Definition status_try_from (value : Z) : result AgentStateApplicationStatus string :=
  if value =? 0 then Ok Applied
  else if value =? 1 then Ok AttemptedAndNotAppliable
  else if value =? 2 then Ok AttemptedAndRetrying
  else if value =? 3 then Ok Fresh
  else if value =? 4 then Ok Stuck
  else Err "Invalid value for AgentStateApplicationStatus"%string.

(** ** Desired state *)

Record ChatTemplate : Type := { content : string }.

Record HuggingFaceModelReference : Type := {
  filename : string;
  repo_id : string;
  revision : string;
}.

Record UrlModelReference : Type := { url : string }.

Inductive AgentDesiredModel : Type :=
| HuggingFace (reference : HuggingFaceModelReference)
| LocalToAgent (path : string)
| Url (reference : UrlModelReference)
| NoModel.

Inductive KvCacheDtype : Type :=
| F32 | F16 | Bf16 | Q80 | Q40 | Q41 | Iq4Nl | Q50 | Q51.

Inductive PoolingType : Type :=
| PoolingUnspecified | PoolingNone | PoolingMean | PoolingCls | PoolingLast | PoolingRank.

Record InferenceParameters : Type := {
  n_batch : Z;
  context_size : Z;
  embedding_batch_size : Z;
  enable_embeddings : bool;
  image_resize_to_fit : Z;
  k_cache_dtype : KvCacheDtype;
  v_cache_dtype : KvCacheDtype;
  min_p : f32;
  n_gpu_layers : Z;
  penalty_frequency : f32;
  penalty_last_n : Z;
  penalty_presence : f32;
  penalty_repeat : f32;
  inference_pooling_type : PoolingType;
  temperature : f32;
  top_k : Z;
  top_p : f32;
}.

(** [Validates<Self> for InferenceParameters] *)
Definition validate_inference_parameters (p : InferenceParameters)
    : result InferenceParameters string :=
  if image_resize_to_fit p =? 0
  then Err "image_resize_to_fit must be greater than zero"%string
  else if embedding_batch_size p =? 0
  then Err "embedding_batch_size must be greater than zero"%string
  else Ok p.

(** [Default]; 0.05, 0.8 and 1.1 are their nearest binary32 numbers. *)
Definition inference_parameters_default : InferenceParameters :=
  {| n_batch := 2048;
     context_size := 8192;
     embedding_batch_size := 256;
     enable_embeddings := false;
     image_resize_to_fit := 1024;
     k_cache_dtype := Q80;
     v_cache_dtype := Q80;
     min_p := S754_finite false 13421773 (-28);
     n_gpu_layers := 0;
     penalty_frequency := S754_zero false;
     penalty_last_n := -1;
     penalty_presence := S754_finite false 13421773 (-24);
     penalty_repeat := S754_finite false 9227469 (-23);
     inference_pooling_type := PoolingLast;
     temperature := S754_finite false 13421773 (-24);
     top_k := 80;
     top_p := S754_finite false 13421773 (-24) |}.

Record BalancerDesiredState : Type := {
  balancer_chat_template_override : option ChatTemplate;
  balancer_inference_parameters : InferenceParameters;
  balancer_model : AgentDesiredModel;
  balancer_multimodal_projection : AgentDesiredModel;
  use_chat_template_override : bool;
}.

(** [#[derive(Default)]] *)
Definition balancer_desired_state_default : BalancerDesiredState :=
  {| balancer_chat_template_override := None;
     balancer_inference_parameters := inference_parameters_default;
     balancer_model := NoModel;
     balancer_multimodal_projection := NoModel;
     use_chat_template_override := false |}.

Record AgentDesiredState : Type := {
  chat_template_override : option ChatTemplate;
  inference_parameters : InferenceParameters;
  model : AgentDesiredModel;
  multimodal_projection : AgentDesiredModel;
}.

(** ** Streams of results *)

(** The trait [StreamableResult]. *)
Class StreamableResult (R : Type) := is_done : R -> bool.

Inductive EmbeddingNormalizationMethod : Type :=
| NormalizeL2
| NormalizeNone
| NormalizeRmsNorm (epsilon : f32).

Record Embedding : Type := {
  embedding : list f32;
  normalization_method : EmbeddingNormalizationMethod;
  pooling_type : PoolingType;
  source_document_id : string;
}.

Record EmbeddingInputDocument : Type := {
  document_content : string;
  document_id : string;
}.

Record OversizedEmbeddingDocumentDetails : Type := {
  document_tokens : Z;
  oversized_document_n_batch : Z;
  oversized_document_id : string;
}.

Inductive EmbeddingResult : Type :=
| DocumentExceedsBatchSize (details : OversizedEmbeddingDocumentDetails)
| EmbeddingDone
| EmbeddingProduced (produced : Embedding)
| EmbeddingsDisabled
| EmbeddingError (message : string)
| EmbeddingRejectedDueToActiveTokenGeneration
| NoEmbeddingsProduced.

#[export] Instance EmbeddingResult_is_done : StreamableResult EmbeddingResult :=
  fun embedding_result =>
    match embedding_result with
    | EmbeddingDone | EmbeddingsDisabled | EmbeddingError _
    | EmbeddingRejectedDueToActiveTokenGeneration | NoEmbeddingsProduced => true
    | DocumentExceedsBatchSize _ | EmbeddingProduced _ => false
    end.

(** The types of the llama.cpp bindings that messages carry. *)
Class LlamaTypes : Type := {
  TokenUsage : Type;
  ParsedToolCall : Type;
}.

Section GeneratedTokens.
Context `{LlamaTypes}.

Record GenerationSummary : Type := { usage : TokenUsage }.

Record OversizedImageDetails : Type := {
  image_tokens : Z;
  oversized_image_n_batch : Z;
}.

Record RawToolCallTokens : Type := {
  raw_text : string;
  ffi_error_message : string;
}.

Inductive GeneratedTokenResult : Type :=
| ChatTemplateError (message : string)
| ContentToken (text : string)
| DetokenizationFailed (message : string)
| Done (summary : GenerationSummary)
| GrammarIncompatibleWithThinking (message : string)
| GrammarInitializationFailed (message : string)
| GrammarRejectedModelOutput (message : string)
| GrammarSyntaxError (message : string)
| ImageDecodingFailed (message : string)
| ImageExceedsBatchSize (image_details : OversizedImageDetails)
| MultimodalNotSupported (message : string)
| ReasoningToken (text : string)
| SamplerError (message : string)
| TokenGenerationDisabled (message : string)
| ToolCallParseFailed (message : string)
| ToolCallParsed (calls : list ParsedToolCall)
| ToolCallToken (text : string)
| ToolCallValidationFailed (messages : list string)
| ToolSchemaInvalid (message : string)
| UndeterminableToken (text : string)
| UnrecognizedToolCallFormat (raw : RawToolCallTokens).

Definition is_token (r : GeneratedTokenResult) : bool :=
  match r with
  | ContentToken _ | ReasoningToken _ | ToolCallToken _ | UndeterminableToken _ => true
  | _ => false
  end.

Definition token_text (r : GeneratedTokenResult) : option string :=
  match r with
  | ContentToken text | ReasoningToken text | ToolCallToken text
  | UndeterminableToken text => Some text
  | _ => None
  end.

Definition is_tool_call_parsed (r : GeneratedTokenResult) : bool :=
  match r with
  | ToolCallParsed _ => true
  | _ => false
  end.

Definition is_tool_call_failure (r : GeneratedTokenResult) : bool :=
  match r with
  | ToolCallParseFailed _ | ToolCallValidationFailed _ => true
  | _ => false
  end.

#[export] Instance GeneratedTokenResult_is_done : StreamableResult GeneratedTokenResult :=
  fun r =>
    match r with
    | ChatTemplateError _ | DetokenizationFailed _ | Done _
    | GrammarIncompatibleWithThinking _ | GrammarInitializationFailed _
    | GrammarRejectedModelOutput _ | GrammarSyntaxError _ | ImageDecodingFailed _
    | ImageExceedsBatchSize _ | MultimodalNotSupported _ | SamplerError _
    | TokenGenerationDisabled _ | ToolSchemaInvalid _ => true
    | ContentToken _ | ReasoningToken _ | ToolCallParseFailed _ | ToolCallParsed _
    | ToolCallToken _ | ToolCallValidationFailed _ | UndeterminableToken _
    | UnrecognizedToolCallFormat _ => false
    end.

(** ** What the balancer sends to an inference client *)

Inductive InferenceClientNotification : Type :=
| NotifyTokenGenerationDisabled
| NotifyTokenGenerationEnabled.

Inductive OutgoingResponse : Type :=
| OutgoingEmbedding (result : EmbeddingResult)
| OutgoingGeneratedToken (result : GeneratedTokenResult)
| OutgoingTimeout
| OutgoingTooManyBufferedRequests.

Inductive OutgoingMessage : Type :=
| OutgoingMessageError (envelope : ErrorEnvelope JsonRpcError)
| OutgoingMessageNotification (notification : InferenceClientNotification)
| OutgoingMessageResponse (envelope : ResponseEnvelope OutgoingResponse).

End GeneratedTokens.

(** The conversions [Into<OutgoingResponse>] of the two streams. *)
Class IntoOutgoingResponse `{LlamaTypes} (R : Type) := into_response : R -> OutgoingResponse.

#[export] Instance embedding_into_response `{LlamaTypes} : IntoOutgoingResponse EmbeddingResult :=
  OutgoingEmbedding.
#[export] Instance token_into_response `{LlamaTypes} : IntoOutgoingResponse GeneratedTokenResult :=
  OutgoingGeneratedToken.

(** ** Facts *)

(** The status an agent reports survives the trip through the [i32] cell
    the balancer keeps it in, and [try_from] accepts no other code: it succeeds
    exactly on the codes of the five statuses. *)
Theorem status_code_roundtrip (value : Z) (status : AgentStateApplicationStatus) :
  status_try_from value = Ok status <-> value = status_code status.
Proof.
  unfold status_try_from. split.
  - repeat case_match; intros [=]; subst status; simpl; lia.
  - intros ->. by destruct status.
Qed.

(** Token usage and tool calls as plain data, to run the definitions. *)
#[export] Instance plain_llama : LlamaTypes := {| TokenUsage := Z; ParsedToolCall := string |}.
