(* ===== verification/AtomicValue.v ===== *)
(** * [AtomicValue]: the atomic cells of [paddler_messaging]

    A cell holds a [bool], an [i32], a [u64] or a [usize].  Each operation of
    [atomic_value.rs] is a function from the contents of the cell to its new
    contents and, where it has one, its result; the sequentially consistent
    interleaving of operations by several threads is modelled by the step
    relations of the components that use the cells. *)

From S2P Require Import Prelude.
Local Open Scope Z_scope.

(** ** Operations *)

(** [set_check]: store, and say whether the contents changed. *)
Definition set_check {A : Type} `{EqDecision A} (cell value : A) : bool * A :=
  if decide (cell = value) then (false, cell) else (true, value).

Definition compare_and_swap (cell current new : Z) : bool * Z :=
  if cell =? current then (true, new) else (false, cell).

Definition i32_increment (cell : Z) : Z := wrap_i32 (cell + 1).
Definition i32_decrement (cell : Z) : Z := wrap_i32 (cell - 1).
Definition i32_reset (cell : Z) : Z := 0.

Definition u64_increment_by (cell increment : Z) : Z := wrap_u64 (cell + increment).

(** ** Facts *)

Lemma set_check_snd {A : Type} `{EqDecision A} (cell value : A) :
  snd (set_check cell value) = value.
Proof. unfold set_check. by case_decide. Qed.

Lemma set_check_fst {A : Type} `{EqDecision A} (cell value : A) :
  fst (set_check cell value) = false <-> cell = value.
Proof. unfold set_check. case_decide; simpl; naive_solver. Qed.

Lemma set_check_same {A : Type} `{EqDecision A} (value : A) :
  set_check value value = (false, value).
Proof. unfold set_check. by rewrite decide_True. Qed.

Lemma compare_and_swap_true (cell current new cell' : Z) :
  compare_and_swap cell current new = (true, cell') -> cell = current /\ cell' = new.
Proof.
  unfold compare_and_swap. destruct (Z.eqb_spec cell current); naive_solver.
Qed.

Lemma compare_and_swap_false (cell current new cell' : Z) :
  compare_and_swap cell current new = (false, cell') -> cell <> current /\ cell' = cell.
Proof.
  unfold compare_and_swap. destruct (Z.eqb_spec cell current); naive_solver.
Qed.

Lemma compare_and_swap_same (cell new : Z) :
  compare_and_swap cell cell new = (true, new).
Proof. unfold compare_and_swap. by rewrite Z.eqb_refl. Qed.

Lemma i32_increment_small (cell : Z) :
  i32_min <= cell < i32_max -> i32_increment cell = cell + 1.
Proof. intros H. apply wrap_i32_id. unfold in_i32. lia. Qed.

Lemma i32_decrement_small (cell : Z) :
  i32_min < cell <= i32_max -> i32_decrement cell = cell - 1.
Proof. intros H. apply wrap_i32_id. unfold in_i32. lia. Qed.

#[export] Hint Rewrite @set_check_snd @set_check_same compare_and_swap_same : paddler.
