(* ===== verification/Senders.v ===== *)
(** * Senders: routing agent responses to the requests that wait for them

    [manages_senders.rs] keeps, per kind of response, a concurrent map from
    request ids to the sending halves of channels;
    [manages_senders_controller.rs] owns the receiving half and removes the
    map entry when it is dropped.  The channels live in a store, because the
    map holds one end and the controller the other. *)

From S2P Require Import Prelude Tokio.
Local Open Scope Z_scope.

Section Senders.
Context {chan : Type -> Type} `{!UnboundedChannel chan} {V : Type}.

(** ** State *)

(** The [DashMap] of a collection and the store its channels live in. *)
Record SenderCollection : Type := {
  senders : gmap string nat;
  channels : gmap nat (chan V);
  next_channel : nat;
}.

Record ManagesSendersController : Type := {
  request_id : string;
  response_rx : nat;
}.

Definition empty_collection : SenderCollection :=
  {| senders := ∅; channels := ∅; next_channel := 0 |}.

(** ** Operations *)

Definition set_senders (m : gmap string nat) (s : SenderCollection) : SenderCollection :=
  {| senders := m; channels := channels s; next_channel := next_channel s |}.

Definition set_channels (m : gmap nat (chan V)) (s : SenderCollection) : SenderCollection :=
  {| senders := senders s; channels := m; next_channel := next_channel s |}.

(** [mpsc::unbounded_channel()] *)
Definition unbounded_channel (s : SenderCollection) : SenderCollection * nat :=
  ({| senders := senders s;
      channels := <[next_channel s := chan_new]> (channels s);
      next_channel := S (next_channel s) |}, next_channel s).

Definition deregister_sender (id : string) (s : SenderCollection)
    : result SenderCollection string :=
  match senders s !! id with
  | None => Err ("No sender found for request_id " +:+ id)
  | Some _ => Ok (set_senders (delete id (senders s)) s)
  end.

Definition forward_response (id : string) (value : V) (s : SenderCollection)
    : result SenderCollection string :=
  match senders s !! id with
  | Some ch =>
      match channels s !! ch ≫= fun c => chan_send c value with
      | Some c' => Ok (set_channels (<[ch := c']> (channels s)) s)
      | None => Err "channel closed"%string
      end
  | None => Err ("No sender found for request_id " +:+ id)
  end.

Definition forward_response_safe (id : string) (value : V) (s : SenderCollection)
    : SenderCollection :=
  match forward_response id value s with
  | Ok s' => s'
  | Err _ => s
  end.

Definition register_sender (id : string) (ch : nat) (s : SenderCollection)
    : result SenderCollection string :=
  match senders s !! id with
  | Some _ => Err ("Sender for request_id " +:+ id +:+ " already exists")
  | None => Ok (set_senders (<[id := ch]> (senders s)) s)
  end.

(** When the id is taken both halves of the new channel are dropped, and the
    collection is as before. *)
Definition from_request_id (id : string) (s : SenderCollection)
    : result (SenderCollection * ManagesSendersController) string :=
  let '(s1, ch) := unbounded_channel s in
  let? s2 := register_sender id ch s1 in
  Ok (s2, {| request_id := id; response_rx := ch |}).

(** [Drop]: deregister (a failure is only logged), then the receiver goes. *)
Definition drop_controller (c : ManagesSendersController) (s : SenderCollection)
    : SenderCollection :=
  let s1 := match deregister_sender (request_id c) s with
            | Ok s' => s'
            | Err _ => s
            end in
  set_channels (alter chan_drop_receiver (response_rx c) (channels s1)) s1.

(** [response_rx.recv()] when a message is ready. *)
Definition recv_response (c : ManagesSendersController) (s : SenderCollection)
    : option (V * SenderCollection) :=
  match channels s !! response_rx c ≫= chan_try_recv with
  | Some (v, c') => Some (v, set_channels (<[response_rx c := c']> (channels s)) s)
  | None => None
  end.

Definition pending_responses (c : ManagesSendersController) (s : SenderCollection) : list V :=
  match channels s !! response_rx c with
  | Some ch => chan_pending ch
  | None => []
  end.

(** ** The collection in use

    [live] is the set of controllers that exist, one per request id: a
    controller is created by [from_request_id] and disappears when dropped. *)

Record SendersSystem : Type := {
  collection : SenderCollection;
  live : gmap string nat;
}.

Inductive senders_step : relation SendersSystem :=
| step_open s l id s' c :
    from_request_id id s = Ok (s', c) ->
    senders_step {| collection := s; live := l |}
                 {| collection := s'; live := <[id := response_rx c]> l |}
| step_drop s l id rx :
    l !! id = Some rx ->
    senders_step {| collection := s; live := l |}
                 {| collection := drop_controller {| request_id := id; response_rx := rx |} s;
                    live := delete id l |}
| step_forward s l id v :
    senders_step {| collection := s; live := l |}
                 {| collection := forward_response_safe id v s; live := l |}
| step_recv s l id rx v s' :
    l !! id = Some rx ->
    recv_response {| request_id := id; response_rx := rx |} s = Some (v, s') ->
    senders_step {| collection := s; live := l |} {| collection := s'; live := l |}.

Definition senders_initial : SendersSystem := {| collection := empty_collection; live := ∅ |}.

(** ** Invariant *)

Record senders_wf (y : SendersSystem) : Prop := {
  wf_registered : senders (collection y) = live y;
  wf_alive id rx :
    live y !! id = Some rx ->
    exists c, channels (collection y) !! rx = Some c /\ chan_receiver_alive c = true;
  wf_inj id1 id2 rx : live y !! id1 = Some rx -> live y !! id2 = Some rx -> id1 = id2;
  wf_fresh ch : (next_channel (collection y) <= ch)%nat -> channels (collection y) !! ch = None;
}.

(** ** Facts *)

Lemma from_request_id_ok (id : string) (s s' : SenderCollection) (c : ManagesSendersController) :
  from_request_id id s = Ok (s', c) <->
  senders s !! id = None /\
  c = {| request_id := id; response_rx := next_channel s |} /\
  s' = {| senders := <[id := next_channel s]> (senders s);
          channels := <[next_channel s := chan_new]> (channels s);
          next_channel := S (next_channel s) |}.
Proof.
  unfold from_request_id, register_sender. simpl.
  destruct (senders s !! id) eqn:E; simpl; unfold set_senders; simpl; split.
  - done.
  - by intros (? & _).
  - by intros [= <- <-].
  - by intros (_ & -> & ->).
Qed.

Lemma forward_response_ok (id : string) (v : V) (s : SenderCollection) (ch : nat) (c : chan V) :
  senders s !! id = Some ch -> channels s !! ch = Some c -> chan_receiver_alive c = true ->
  exists c', chan_send c v = Some c' /\
    forward_response id v s = Ok (set_channels (<[ch := c']> (channels s)) s).
Proof.
  intros Hid Hch Halive. unfold forward_response. rewrite Hid, Hch. simpl.
  destruct (chan_send c v) as [c'|] eqn:E; [eauto|].
  apply chan_send_none in E. congruence.
Qed.

Lemma forward_response_safe_cases (id : string) (v : V) (s : SenderCollection) :
  forward_response_safe id v s = s \/
  exists ch c c', senders s !! id = Some ch /\ channels s !! ch = Some c /\
    chan_send c v = Some c' /\
    forward_response_safe id v s = set_channels (<[ch := c']> (channels s)) s.
Proof.
  unfold forward_response_safe, forward_response.
  destruct (senders s !! id) as [ch|] eqn:Hid; [|by left].
  destruct (channels s !! ch) as [c|] eqn:Hc; simpl; [|by left].
  destruct (chan_send c v) as [c'|] eqn:Hs; [|by left].
  right. exists ch, c, c'. auto.
Qed.

(** Replacing a registered channel by one whose receiver is alive keeps the
    invariant: what forwarding and receiving do. *)
Lemma senders_wf_update (s : SenderCollection) (l : gmap string nat) (ch : nat) (c c' : chan V) :
  senders_wf {| collection := s; live := l |} ->
  channels s !! ch = Some c -> (chan_receiver_alive c = true -> chan_receiver_alive c' = true) ->
  senders_wf {| collection := set_channels (<[ch := c']> (channels s)) s; live := l |}.
Proof.
  intros [Hr Ha Hi Hf] Hc Hal. simpl in *. constructor; simpl; [done| |done|].
  - intros id rx Hid. destruct (Ha id rx Hid) as (c0 & Hc0 & Hal0).
    destruct (decide (ch = rx)) as [->|Hne].
    + exists c'. rewrite lookup_insert_eq. naive_solver.
    + exists c0. by rewrite lookup_insert_ne.
  - intros n Hn. destruct (decide (ch = n)) as [->|Hne].
    + rewrite Hf in Hc by done. done.
    + rewrite lookup_insert_ne by done. by apply Hf.
Qed.

Lemma senders_wf_open (s s' : SenderCollection) (l : gmap string nat) (id : string)
    (c : ManagesSendersController) :
  senders_wf {| collection := s; live := l |} -> from_request_id id s = Ok (s', c) ->
  senders_wf {| collection := s'; live := <[id := response_rx c]> l |}.
Proof.
  intros [Hr Ha Hi Hf] Hopen. simpl in *.
  apply from_request_id_ok in Hopen as (Hid & -> & ->). simpl.
  assert (Hnew : forall id' rx, l !! id' = Some rx -> rx <> next_channel s).
  { intros id' rx Hl ->. destruct (Ha _ _ Hl) as (c0 & Hc0 & _). by rewrite Hf in Hc0. }
  constructor; simpl.
  - by rewrite Hr.
  - intros id' rx. destruct (decide (id = id')) as [->|Hne].
    + rewrite lookup_insert_eq. intros [= <-]. exists chan_new.
      rewrite lookup_insert_eq. split; [done | apply chan_new_alive].
    + rewrite lookup_insert_ne by done. intros Hl.
      rewrite lookup_insert_ne by (intros E; by apply (Hnew _ _ Hl)). by apply Ha in Hl.
  - intros id1 id2 rx. rewrite !lookup_insert.
    repeat case_decide; naive_solver.
  - intros n Hn. rewrite lookup_insert_ne by lia. apply Hf. lia.
Qed.

Lemma senders_wf_drop (s : SenderCollection) (l : gmap string nat) (id : string) (rx : nat) :
  senders_wf {| collection := s; live := l |} -> l !! id = Some rx ->
  senders_wf {| collection := drop_controller {| request_id := id; response_rx := rx |} s;
                live := delete id l |}.
Proof.
  intros [Hr Ha Hi Hf] Hid. simpl in *. unfold drop_controller, deregister_sender. simpl.
  rewrite Hr, Hid. simpl. constructor; simpl.
  - done.
  - intros id' rx' [Hne Hl]%lookup_delete_Some. destruct (Ha _ _ Hl) as (c0 & Hc0 & Hal).
    exists c0. rewrite lookup_alter_ne; [done|]. intros ->. apply Hne. by eapply Hi.
  - intros id1 id2 rx' [_ H1]%lookup_delete_Some [_ H2]%lookup_delete_Some. by eapply Hi.
  - intros n Hn. destruct (decide (rx = n)) as [->|Hne].
    + by rewrite lookup_alter_eq, Hf.
    + rewrite lookup_alter_ne by done. by apply Hf.
Qed.

Lemma senders_wf_step (x y : SendersSystem) : senders_wf x -> senders_step x y -> senders_wf y.
Proof.
  intros Hwf Hstep. destruct Hstep.
  - by eapply senders_wf_open.
  - by apply senders_wf_drop.
  - destruct (forward_response_safe_cases id v s) as [->|(ch & c & c1 & _ & Hc & Hsend & ->)];
      [done|].
    eapply senders_wf_update; [done|done|]. intros _. by apply (chan_send_some c c1 v) in Hsend as [_ ?].
  - unfold recv_response in *. simpl in *.
    destruct (channels s !! rx) as [c|] eqn:Hc; simpl in *; [|done].
    destruct (chan_try_recv c) as [[v' c']|] eqn:Hrecv; simplify_eq.
    eapply senders_wf_update; [done|done|]. apply chan_recv_some in Hrecv as [_ ->]. done.
Qed.

Lemma senders_initial_wf : senders_wf senders_initial.
Proof. constructor; simpl; intros; try done; set_solver. Qed.

Lemma senders_reachable_wf (y : SendersSystem) : rtc senders_step senders_initial y -> senders_wf y.
Proof.
  intros Hr. eapply rtc_invariant; [done|apply senders_initial_wf|apply senders_wf_step].
Qed.

(** C14. In every reachable state of a sender collection a response is
    delivered exactly to the request that waits for it: forwarding for a live
    request succeeds, appends the value to that request's channel and touches
    no other waiting request; forwarding for any other id fails and changes
    nothing. *)
Theorem forward_response_delivers (y : SendersSystem) (id : string) (v : V) :
  rtc senders_step senders_initial y ->
  match live y !! id with
  | Some rx =>
      exists s', forward_response id v (collection y) = Ok s' /\
        pending_responses {| request_id := id; response_rx := rx |} s'
        = pending_responses {| request_id := id; response_rx := rx |} (collection y) ++ [v] /\
        forall id' rx', id' <> id -> live y !! id' = Some rx' ->
          pending_responses {| request_id := id'; response_rx := rx' |} s'
          = pending_responses {| request_id := id'; response_rx := rx' |} (collection y)
  | None =>
      is_ok (forward_response id v (collection y)) = false /\
      forward_response_safe id v (collection y) = collection y
  end.
Proof.
  intros Hr%senders_reachable_wf. destruct Hr as [Hreg Ha Hi Hf].
  destruct (live y !! id) as [rx|] eqn:Hid.
  - destruct (Ha _ _ Hid) as (c & Hc & Hal). rewrite <- Hreg in Hid.
    destruct (forward_response_ok id v _ _ _ Hid Hc Hal) as (c' & Hsend & ->).
    eexists. split; [done|]. unfold pending_responses. simpl.
    apply chan_send_some in Hsend as [Hp _].
    rewrite lookup_insert_eq, Hc. split; [done|].
    intros id' rx' Hne Hl. rewrite lookup_insert_ne; [done|].
    intros ->. apply Hne. rewrite Hreg in Hid. by eapply Hi.
  - unfold forward_response_safe, forward_response. rewrite Hreg, Hid. done.
Qed.

End Senders.
Arguments SenderCollection chan V : clear implicits.
Arguments SendersSystem chan V : clear implicits.

(** One open request: the response for it is delivered. *)
Lemma forward_response_delivers_witness :
  let y := {| collection := {| senders := {["r" := 0%nat]};
                               channels := {[0%nat := chan_new]};
                               next_channel := 1 |};
              live := {["r" := 0%nat]} |} : SendersSystem QueueChannel Z in
  exists s', forward_response "r" 7 (collection y) = Ok s' /\
    pending_responses {| request_id := "r"; response_rx := 0 |} s' = [7].
Proof.
  intros y.
  assert (Hr : rtc senders_step senders_initial y).
  { apply rtc_once. by apply (step_open empty_collection ∅ "r" (collection y)
      {| request_id := "r"; response_rx := 0 |}). }
  pose proof (forward_response_delivers y "r" 7 Hr) as H. simpl in H.
  destruct H as (s' & Hs & Hp & _). exists s'. split; [exact Hs | exact Hp].
Defined.
