(* ===== verification/RequestCancellation.v ===== *)
(** * Request cancellation: stopping one request of an inference socket

    [request_cancellation_tokens.rs] keeps one cancellation token per request
    in flight on a connection, each a child of the token that closes the
    connection; [request_cancellation_token_guard.rs] removes the entry when
    the request ends. *)

From S2P Require Import Prelude Tokio.

Section RequestCancellation.
Context {registry token : Type} `{!CancellationTokens registry token}.

(** ** State *)

(** The [DashMap] of tokens, with the registry the tokens belong to. *)
Record RequestCancellationTokens : Type := {
  cancellation_tokens : gmap string token;
  token_registry : registry;
}.

Inductive RequestRegistration : Type :=
| DuplicateRequestId
| Registered (request_close : token).

(** The guard owns the token and the id; the map is shared. *)
Record RequestCancellationTokenGuard : Type := {
  cancellation_token : token;
  guard_request_id : string;
}.

Inductive RequestCancellationRegistration : Type :=
| DuplicateRequest
| RegisteredGuard (guard : RequestCancellationTokenGuard).

(** ** Operations *)

Definition register_token (id : string) (connection_close : token)
    (s : RequestCancellationTokens) : RequestRegistration * RequestCancellationTokens :=
  match cancellation_tokens s !! id with
  | Some _ => (DuplicateRequestId, s)
  | None =>
      let '(g, request_close) := token_child (token_registry s) connection_close in
      (Registered request_close,
       {| cancellation_tokens := <[id := request_close]> (cancellation_tokens s);
          token_registry := g |})
  end.

Definition cancel_token (id : string) (s : RequestCancellationTokens)
    : RequestCancellationTokens :=
  match cancellation_tokens s !! id with
  | Some t =>
      {| cancellation_tokens := cancellation_tokens s;
         token_registry := token_cancel (token_registry s) t |}
  | None => s
  end.

Definition deregister_token (id : string) (s : RequestCancellationTokens)
    : RequestCancellationTokens :=
  {| cancellation_tokens := delete id (cancellation_tokens s);
     token_registry := token_registry s |}.

Definition register_guard (connection_close : token) (id : string)
    (s : RequestCancellationTokens)
    : RequestCancellationRegistration * RequestCancellationTokens :=
  match register_token id connection_close s with
  | (DuplicateRequestId, s') => (DuplicateRequest, s')
  | (Registered t, s') =>
      (RegisteredGuard {| cancellation_token := t; guard_request_id := id |}, s')
  end.

(** [Drop] of the guard. *)
Definition drop_guard (guard : RequestCancellationTokenGuard) (s : RequestCancellationTokens)
    : RequestCancellationTokens :=
  deregister_token (guard_request_id guard) s.

(** Closing the connection cancels its token. *)
Definition close_connection (connection_close : token) (s : RequestCancellationTokens)
    : RequestCancellationTokens :=
  {| cancellation_tokens := cancellation_tokens s;
     token_registry := token_cancel (token_registry s) connection_close |}.

Definition request_cancelled (t : token) (s : RequestCancellationTokens) : bool :=
  token_cancelled (token_registry s) t.

(** ** A connection at work

    [guards] is the set of guards that exist, by request id. *)

Record Connection : Type := {
  tokens : RequestCancellationTokens;
  guards : gmap string token;
}.

Inductive connection_step (connection_close : token) : relation Connection :=
| step_register s gs id g s' :
    register_guard connection_close id s = (RegisteredGuard g, s') ->
    connection_step connection_close {| tokens := s; guards := gs |}
      {| tokens := s'; guards := <[id := cancellation_token g]> gs |}
| step_duplicate s gs id s' :
    register_guard connection_close id s = (DuplicateRequest, s') ->
    connection_step connection_close {| tokens := s; guards := gs |}
      {| tokens := s'; guards := gs |}
| step_cancel s gs id :
    connection_step connection_close {| tokens := s; guards := gs |}
      {| tokens := cancel_token id s; guards := gs |}
| step_finish s gs id t :
    gs !! id = Some t ->
    connection_step connection_close {| tokens := s; guards := gs |}
      {| tokens := drop_guard {| cancellation_token := t; guard_request_id := id |} s;
         guards := delete id gs |}
| step_close s gs :
    connection_step connection_close {| tokens := s; guards := gs |}
      {| tokens := close_connection connection_close s; guards := gs |}.

Definition connection_initial (g : registry) : Connection :=
  {| tokens := {| cancellation_tokens := ∅; token_registry := g |}; guards := ∅ |}.

(** ** Invariant *)

Record connection_wf (cc : token) (y : Connection) : Prop := {
  cwf_map : cancellation_tokens (tokens y) = guards y;
  cwf_root : token_known (token_registry (tokens y)) cc = true;
  cwf_known id t : guards y !! id = Some t -> token_known (token_registry (tokens y)) t = true;
  cwf_above id t : guards y !! id = Some t -> token_below cc t = true /\ token_below t cc = false;
  cwf_apart id1 id2 t1 t2 :
    guards y !! id1 = Some t1 -> guards y !! id2 = Some t2 -> id1 <> id2 ->
    token_below t1 t2 = false;
}.

(** ** Facts *)

Lemma connection_wf_cancel (cc : token) (s : RequestCancellationTokens) (gs : gmap string token)
    (t : token) :
  connection_wf cc {| tokens := s; guards := gs |} ->
  connection_wf cc
    {| tokens := {| cancellation_tokens := cancellation_tokens s;
                    token_registry := token_cancel (token_registry s) t |};
       guards := gs |}.
Proof.
  intros [Hm Hroot Hk Ha Hp]. simpl in *.
  constructor; simpl; intros; rewrite ?token_cancel_known; eauto.
Qed.

Lemma connection_wf_register (cc : token) (s s' : RequestCancellationTokens)
    (gs : gmap string token) (id : string) (g : RequestCancellationTokenGuard) :
  connection_wf cc {| tokens := s; guards := gs |} ->
  register_guard cc id s = (RegisteredGuard g, s') ->
  connection_wf cc {| tokens := s'; guards := <[id := cancellation_token g]> gs |}.
Proof.
  intros [Hm Hroot Hk Ha Hp]. simpl in *. unfold register_guard, register_token.
  destruct (cancellation_tokens s !! id) eqn:Hid; [done|].
  destruct (token_child (token_registry s) cc) as [r t] eqn:Hc. intros [= <- <-]. simpl.
  destruct (token_child_fresh _ _ _ _ Hroot Hc) as [_ Hkt].
  constructor; simpl.
  - by rewrite Hm.
  - by eapply token_child_known.
  - intros id' t' [[<- <-]|[_ Hl]]%lookup_insert_Some; [done|].
    eapply token_child_known; eauto.
  - intros id' t' [[<- <-]|[_ Hl]]%lookup_insert_Some; [|eauto]. split.
    + rewrite (token_child_above _ _ _ _ _ Hc Hroot Hroot). apply token_below_refl.
    + by eapply token_child_leaf.
  - intros id1 id2 t1 t2 [[<- <-]|[N1 H1]]%lookup_insert_Some
      [[<- <-]|[N2 H2]]%lookup_insert_Some Hne; [done| | |eauto].
    + eapply token_child_leaf; eauto.
    + rewrite (token_child_above _ _ _ _ _ Hc (Hk _ _ H1) Hroot). by eapply Ha.
Qed.

Lemma register_duplicate (cc : token) (s s' : RequestCancellationTokens) (id : string) :
  register_guard cc id s = (DuplicateRequest, s') -> s' = s.
Proof.
  unfold register_guard, register_token.
  destruct (cancellation_tokens s !! id); [congruence|].
  by destruct (token_child (token_registry s) cc).
Qed.

Lemma connection_wf_step (cc : token) (x y : Connection) :
  connection_wf cc x -> connection_step cc x y -> connection_wf cc y.
Proof.
  intros Hwf Hstep. destruct Hstep as [s gs id g s' Hreg|s gs id s' Hdup|s gs id|s gs id t Hid|s gs].
  - by eapply connection_wf_register.
  - by apply register_duplicate in Hdup as ->.
  - unfold cancel_token. destruct (cancellation_tokens s !! id); [|done].
    by apply connection_wf_cancel.
  - destruct Hwf as [Hm Hroot Hk Ha Hp]. simpl in *.
    constructor; simpl; [by rewrite Hm|done| | |].
    + intros id' t' [_ Hl]%lookup_delete_Some. eauto.
    + intros id' t' [_ Hl]%lookup_delete_Some. eauto.
    + intros id1 id2 t1 t2 [_ H1]%lookup_delete_Some [_ H2]%lookup_delete_Some. eauto.
  - by apply connection_wf_cancel.
Qed.

Lemma connection_reachable_wf (cc : token) (g : registry) (y : Connection) :
  token_known g cc = true ->
  rtc (connection_step cc) (connection_initial g) y -> connection_wf cc y.
Proof.
  intros Hk Hr. eapply rtc_invariant; [done| |apply connection_wf_step].
  constructor; simpl; done || set_solver.
Qed.

(** On a connection in any reachable state, a stop notification cancels
    exactly the request it names: the named request's token becomes cancelled,
    and neither another request in flight nor the connection changes.  A stop
    for an id that is not in flight changes nothing, and closing the
    connection cancels every request in flight. *)
Theorem cancel_is_targeted (cc : token) (g : registry) (y : Connection) (id : string) :
  token_known g cc = true ->
  rtc (connection_step cc) (connection_initial g) y ->
  request_cancelled cc (cancel_token id (tokens y)) = request_cancelled cc (tokens y) /\
  (forall id' t, guards y !! id' = Some t ->
     request_cancelled t (cancel_token id (tokens y))
     = if decide (id' = id) then true else request_cancelled t (tokens y)) /\
  (guards y !! id = None -> cancel_token id (tokens y) = tokens y) /\
  (forall id' t, guards y !! id' = Some t ->
     request_cancelled t (close_connection cc (tokens y)) = true).
Proof.
  intros Hk Hr. destruct (connection_reachable_wf cc g y Hk Hr) as [Hm Hroot Hkn Ha Hp].
  unfold request_cancelled, cancel_token, close_connection. rewrite Hm. simpl.
  repeat split.
  - destruct (guards y !! id) as [t|] eqn:Hid; [|done]. simpl.
    rewrite token_cancel_state by eauto. destruct (Ha _ _ Hid) as [_ ->]. apply orb_false_r.
  - intros id' t Hid'. case_decide as Hd.
    + subst id'. rewrite Hid'. simpl. rewrite token_cancel_state by eauto.
      rewrite token_below_refl. apply orb_true_r.
    + destruct (guards y !! id) as [t0|] eqn:Hid; [|done]. simpl.
      rewrite token_cancel_state by eauto. rewrite (Hp id id' t0 t) by auto. apply orb_false_r.
  - by intros ->.
  - intros id' t Hid'. rewrite token_cancel_state by eauto.
    destruct (Ha _ _ Hid') as [-> _]. apply orb_true_r.
Qed.

End RequestCancellation.
Arguments RequestCancellationTokens registry token : clear implicits.
Arguments Connection registry token : clear implicits.

(** ** A concrete connection *)

(** The root token of the empty forest is the path []. *)
Definition sample_forest : TokenForest :=
  {| next_label := 0; cancelled_paths := []; cancelled_known := eq_refl |}.

Definition sample_connection : Connection TokenForest (list nat) :=
  let '(r1, s1) := register_guard [] "a" (tokens (connection_initial sample_forest)) in
  {| tokens := s1; guards := {[ "a"%string := [0%nat] ]} |}.

Lemma cancel_is_targeted_witness :
  token_known sample_forest ([] : list nat) = true /\
  request_cancelled [0%nat] (cancel_token "a" (tokens sample_connection)) = true.
Proof.
  split; [reflexivity|].
  assert (Hr : rtc (connection_step []) (connection_initial sample_forest) sample_connection).
  { apply rtc_once.
    exact (step_register [] (tokens (connection_initial sample_forest)) ∅ "a"
             {| cancellation_token := [0%nat]; guard_request_id := "a" |}
             (tokens sample_connection) eq_refl). }
  pose proof (cancel_is_targeted [] sample_forest sample_connection "a") as Htargeted.
  destruct (Htargeted eq_refl Hr) as (_ & H & _).
  exact (H "a"%string [0%nat] eq_refl).
Defined.
