(* ===== verification/Requests.v ===== *)
(** * Requests: what clients ask for, and how the balancer asks its agents

    The request parameters of [paddler_messaging], their validation, the
    splitting of an embedding batch among agents, and the messages of the
    management socket.  JSON values are those of a library, a parameter. *)

From S2P Require Import Prelude Messages.

Class JsonTypes : Type := { JsonValue : Type }.

Section Requests.
Context `{JsonTypes}.

(** ** Tools *)

Record RawParametersSchema : Type := {
  raw_schema_type : string;
  raw_properties : option (gmap string JsonValue);
  raw_required : option (list string);
  raw_additional_properties : option JsonValue;
}.

Record ValidatedParametersSchema : Type := {
  schema_type : string;
  properties : option (gmap string JsonValue);
  required : option (list string);
  additional_properties : option JsonValue;
}.

Inductive Parameters (Schema : Type) : Type :=
| EmptyParameters
| SchemaParameters (schema : Schema).
Arguments EmptyParameters {Schema}.
Arguments SchemaParameters {Schema} schema.

Record ToolFunction (Schema : Type) : Type := {
  function_name : string;
  function_description : string;
  function_parameters : Parameters Schema;
}.
Arguments Build_ToolFunction {Schema} _ _ _.
Arguments function_name {Schema} _.
Arguments function_description {Schema} _.
Arguments function_parameters {Schema} _.

Record FunctionCall (Schema : Type) : Type := { function : ToolFunction Schema }.
Arguments Build_FunctionCall {Schema} _.
Arguments function {Schema} _.

Inductive Tool (Schema : Type) : Type :=
| FunctionTool (call : FunctionCall Schema).
Arguments FunctionTool {Schema} call.

(** The loop over the required fields: the first one missing is reported. *)
Fixpoint check_required (required_fields : list string) (props : gmap string JsonValue)
    : result unit string :=
  match required_fields with
  | [] => Ok tt
  | field :: rest =>
      match props !! field with
      | None => Err ("Required field '" +:+ field +:+ "' not found in properties")
      | Some _ => check_required rest props
      end
  end.

Definition validate_schema (raw : RawParametersSchema)
    : result ValidatedParametersSchema string :=
  let? _ := match raw_required raw, raw_properties raw with
            | Some required_fields, Some props => check_required required_fields props
            | _, _ => Ok tt
            end in
  Ok {| schema_type := raw_schema_type raw;
        properties := raw_properties raw;
        required := raw_required raw;
        additional_properties := raw_additional_properties raw |}.

Definition validate_parameters (p : Parameters RawParametersSchema)
    : result (Parameters ValidatedParametersSchema) string :=
  match p with
  | EmptyParameters => Ok EmptyParameters
  | SchemaParameters schema =>
      let? validated := validate_schema schema in Ok (SchemaParameters validated)
  end.

Definition validate_function (f : ToolFunction RawParametersSchema)
    : result (ToolFunction ValidatedParametersSchema) string :=
  let? validated := validate_parameters (function_parameters f) in
  Ok {| function_name := function_name f;
        function_description := function_description f;
        function_parameters := validated |}.

Definition validate_function_call (c : FunctionCall RawParametersSchema)
    : result (FunctionCall ValidatedParametersSchema) string :=
  let? validated := validate_function (function c) in
  Ok {| function := validated |}.

Definition validate_tool (t : Tool RawParametersSchema)
    : result (Tool ValidatedParametersSchema) string :=
  match t with
  | FunctionTool call =>
      let? validated := validate_function_call call in Ok (FunctionTool validated)
  end.

(** [.map(Validates::validate).collect::<Result<Vec<_>>>()] *)
Fixpoint validate_tools (tools : list (Tool RawParametersSchema))
    : result (list (Tool ValidatedParametersSchema)) string :=
  match tools with
  | [] => Ok []
  | t :: rest =>
      let? v := validate_tool t in
      let? vs := validate_tools rest in
      Ok (v :: vs)
  end.

(** ** Conversations *)

Record ImageUrl : Type := { image_url : string }.

Inductive ConversationMessageContentPart : Type :=
| TextPart (text : string)
| ImageUrlPart (image : ImageUrl).

Inductive ConversationMessageContent : Type :=
| TextContent (text : string)
| PartsContent (parts : list ConversationMessageContentPart).

Record ConversationMessage : Type := {
  message_content : ConversationMessageContent;
  role : string;
}.

Record ConversationHistory : Type := { messages : list ConversationMessage }.

Record MediaMarker : Type := { marker : string }.

Record ChatTemplateMessageContentPart : Type := {
  content_type : string;
  template_text : string;
}.

Inductive ChatTemplateMessageContent : Type :=
| TemplateText (text : string)
| TemplateParts (parts : list ChatTemplateMessageContentPart).

Record ChatTemplateMessage : Type := {
  template_content : ChatTemplateMessageContent;
  template_role : string;
}.

Record ChatTemplateMessages : Type := { template_messages : list ChatTemplateMessage }.

Definition text_content (c : ConversationMessageContent) : string :=
  match c with
  | TextContent text => text
  | PartsContent parts =>
      foldr String.app ""%string
        (omap (fun part => match part with
                           | TextPart text => Some text
                           | ImageUrlPart _ => None
                           end) parts)
  end.

Definition image_urls (c : ConversationMessageContent) : list ImageUrl :=
  match c with
  | TextContent _ => []
  | PartsContent parts =>
      omap (fun part => match part with
                        | ImageUrlPart image => Some image
                        | TextPart _ => None
                        end) parts
  end.

Definition extract_image_urls (h : ConversationHistory) : list ImageUrl :=
  flat_map (fun m => image_urls (message_content m)) (messages h).

Definition replace_images_with_marker (h : ConversationHistory) (media_marker : MediaMarker)
    : ChatTemplateMessages :=
  {| template_messages :=
       map (fun m =>
         {| template_content :=
              match message_content m with
              | TextContent text => TemplateText text
              | PartsContent parts =>
                  TemplateParts
                    (map (fun part =>
                       match part with
                       | TextPart text =>
                           {| content_type := "text"; template_text := text |}
                       | ImageUrlPart _ =>
                           {| content_type := "text"; template_text := marker media_marker |}
                       end) parts)
              end;
            template_role := role m |}) (messages h) |}.

(** ** Request parameters *)

Inductive GrammarConstraint : Type :=
| Gbnf (grammar root : string)
| JsonSchema (schema : string).

Record ContinueFromConversationHistoryParams (Schema : Type) : Type := {
  add_generation_prompt : bool;
  conversation_history : ConversationHistory;
  enable_thinking : bool;
  history_grammar : option GrammarConstraint;
  history_max_tokens : Z;
  parse_tool_calls : bool;
  tools : list (Tool Schema);
}.
Arguments Build_ContinueFromConversationHistoryParams {Schema} _ _ _ _ _ _ _.
Arguments add_generation_prompt {Schema} _.
Arguments conversation_history {Schema} _.
Arguments enable_thinking {Schema} _.
Arguments history_grammar {Schema} _.
Arguments history_max_tokens {Schema} _.
Arguments parse_tool_calls {Schema} _.
Arguments tools {Schema} _.

Definition validate_conversation_params
    (p : ContinueFromConversationHistoryParams RawParametersSchema)
    : result (ContinueFromConversationHistoryParams ValidatedParametersSchema) string :=
  let? validated_tools := validate_tools (tools p) in
  Ok {| add_generation_prompt := add_generation_prompt p;
        conversation_history := conversation_history p;
        enable_thinking := enable_thinking p;
        history_grammar := history_grammar p;
        history_max_tokens := history_max_tokens p;
        parse_tool_calls := parse_tool_calls p;
        tools := validated_tools |}.

Record ContinueFromRawPromptParams : Type := {
  raw_grammar : option GrammarConstraint;
  raw_max_tokens : Z;
  raw_prompt : string;
}.

Record GenerateEmbeddingBatchParams : Type := {
  input_batch : list EmbeddingInputDocument;
  batch_normalization_method : EmbeddingNormalizationMethod;
}.

Inductive ChunkEvenlyWithCapError : Type :=
| ZeroAgentCount
| ZeroMaxDocumentsPerChunk.

(** [usize::div_ceil], for a non-zero divisor. *)
Definition div_ceil (n d : nat) : nat :=
  if (n mod d =? 0)%nat then (n / d)%nat else S (n / d).

(** The loop of [chunk_evenly_with_cap]: the chunks from [chunk_index] on,
    [count] of them, cut off the documents from [start_index] on. *)
Fixpoint chunk_loop (p : GenerateEmbeddingBatchParams) (quotient remainder : nat)
    (count chunk_index start_index : nat) : list GenerateEmbeddingBatchParams :=
  match count with
  | O => []
  | S count' =>
      let chunk_size := if (chunk_index <? remainder)%nat then S quotient else quotient in
      let end_index := (start_index + chunk_size)%nat in
      {| input_batch := take (end_index - start_index) (drop start_index (input_batch p));
         batch_normalization_method := batch_normalization_method p |}
      :: chunk_loop p quotient remainder count' (S chunk_index) end_index
  end.

Definition chunk_evenly_with_cap (p : GenerateEmbeddingBatchParams)
    (agent_count max_documents_per_chunk : nat)
    : result (list GenerateEmbeddingBatchParams) ChunkEvenlyWithCapError :=
  if (agent_count =? 0)%nat then Err ZeroAgentCount
  else if (max_documents_per_chunk =? 0)%nat then Err ZeroMaxDocumentsPerChunk
  else
    let document_count := length (input_batch p) in
    if (document_count =? 0)%nat then Ok []
    else
      let chunks_to_honor_cap := div_ceil document_count max_documents_per_chunk in
      let chunk_count := (document_count `min` (agent_count `max` chunks_to_honor_cap))%nat in
      let quotient := (document_count / chunk_count)%nat in
      let remainder := (document_count mod chunk_count)%nat in
      Ok (chunk_loop p quotient remainder chunk_count 0 0).

(** ** The management socket, balancer to agent *)

Inductive AgentRequest : Type :=
| RequestContinueFromConversationHistory
    (params : ContinueFromConversationHistoryParams ValidatedParametersSchema)
| RequestContinueFromRawPrompt (params : ContinueFromRawPromptParams)
| RequestGenerateEmbeddingBatch (params : GenerateEmbeddingBatchParams)
| RequestGetChatTemplateOverride
| RequestGetModelMetadata.

Inductive AgentNotification : Type :=
| SetState (desired_state : AgentDesiredState)
| StopRespondingTo (id : string)
| Version (version : string).

Inductive AgentMessage : Type :=
| AgentMessageError (envelope : ErrorEnvelope JsonRpcError)
| AgentMessageNotification (notification : AgentNotification)
| AgentMessageRequest (envelope : RequestEnvelope AgentRequest).

(** The trait [Into<AgentRequest>] of the three kinds of parameters. *)
Class IntoAgentRequest (Params : Type) := into_request : Params -> AgentRequest.
#[export] Instance history_into_request :
    IntoAgentRequest (ContinueFromConversationHistoryParams ValidatedParametersSchema) :=
  RequestContinueFromConversationHistory.
#[export] Instance raw_prompt_into_request : IntoAgentRequest ContinueFromRawPromptParams :=
  RequestContinueFromRawPrompt.
#[export] Instance embedding_batch_into_request : IntoAgentRequest GenerateEmbeddingBatchParams :=
  RequestGenerateEmbeddingBatch.

(** ** Facts: splitting a batch *)

Lemma div_ceil_spec (n d : nat) :
  (0 < d)%nat -> (n <= div_ceil n d * d)%nat /\ (0 < n -> 0 < div_ceil n d)%nat.
Proof.
  intros Hd. unfold div_ceil.
  pose proof (Nat.div_mod_eq n d). pose proof (Nat.mod_upper_bound n d).
  destruct (Nat.eqb_spec (n mod d) 0); split; nia.
Qed.

(** The size of the chunk of index [i], and where it starts. *)
Definition chunk_size_at (q r i : nat) : nat := if (i <? r)%nat then S q else q.
Definition chunk_start_at (q r i : nat) : nat := (i * q + i `min` r)%nat.

Lemma chunk_start_next (q r i : nat) :
  (chunk_start_at q r i + chunk_size_at q r i)%nat = chunk_start_at q r (S i).
Proof. unfold chunk_start_at, chunk_size_at. destruct (Nat.ltb_spec i r); lia. Qed.

Lemma chunk_loop_partition (p : GenerateEmbeddingBatchParams) (q r count i : nat) :
  (r <= i + count)%nat ->
  length (input_batch p) = ((i + count) * q + r)%nat ->
  concat (map input_batch (chunk_loop p q r count i (chunk_start_at q r i)))
  = drop (chunk_start_at q r i) (input_batch p).
Proof.
  revert i. induction count as [|count IH]; intros i Hr Hlen; simpl.
  - symmetry. apply drop_ge. unfold chunk_start_at. lia.
  - fold (chunk_size_at q r i). rewrite chunk_start_next, IH by lia.
    replace (chunk_start_at q r (S i) - chunk_start_at q r i)%nat with (chunk_size_at q r i)
      by (rewrite <- chunk_start_next; lia).
    rewrite <- chunk_start_next, <- drop_drop. apply take_drop.
Qed.

Lemma chunk_loop_chunks (p : GenerateEmbeddingBatchParams) (q r count i : nat) :
  (r <= i + count)%nat ->
  length (input_batch p) = ((i + count) * q + r)%nat ->
  length (chunk_loop p q r count i (chunk_start_at q r i)) = count /\
  Forall (fun c => exists j, (i <= j < i + count)%nat /\
                     length (input_batch c) = chunk_size_at q r j /\
                     batch_normalization_method c = batch_normalization_method p)
    (chunk_loop p q r count i (chunk_start_at q r i)).
Proof.
  revert i. induction count as [|count IH]; intros i Hr Hlen; simpl; [split; constructor|].
  fold (chunk_size_at q r i). rewrite chunk_start_next.
  destruct (IH (S i)) as [IHl IHf]; [lia|lia|]. rewrite IHl. split; [done|]. constructor.
  - exists i. split; [lia|]. split; [|done]. simpl.
    pose proof (chunk_start_next q r i) as Hn.
    rewrite length_take, length_drop, Hlen. unfold chunk_size_at, chunk_start_at in *.
    destruct (Nat.ltb_spec i r); nia.
  - apply (Forall_impl _ _ _ IHf). intros c (j & Hj & ?). exists j. split; [lia|done].
Qed.

(** An embedding batch is cut into consecutive chunks that put together
    are the batch: none is empty, none is larger than the cap, any two differ
    by at most one document, all keep the normalization method, and there are
    as many as there are agents unless the cap asks for more or the documents
    are fewer.  The only errors are a zero agent count and a zero cap. *)
Theorem chunk_evenly_partition (p : GenerateEmbeddingBatchParams) (agent_count cap : nat) :
  match chunk_evenly_with_cap p agent_count cap with
  | Ok chunks =>
      concat (map input_batch chunks) = input_batch p /\
      Forall (fun c => (1 <= length (input_batch c) <= cap)%nat /\
                batch_normalization_method c = batch_normalization_method p) chunks /\
      (forall c1 c2, c1 ∈ chunks -> c2 ∈ chunks ->
         (length (input_batch c1) <= S (length (input_batch c2)))%nat) /\
      length chunks
      = (length (input_batch p) `min`
           (agent_count `max` div_ceil (length (input_batch p)) cap))%nat
  | Err ZeroAgentCount => agent_count = 0%nat
  | Err ZeroMaxDocumentsPerChunk => agent_count <> 0%nat /\ cap = 0%nat
  end.
Proof.
  unfold chunk_evenly_with_cap.
  destruct (Nat.eqb_spec agent_count 0) as [->|Ha]; [done|].
  destruct (Nat.eqb_spec cap 0) as [->|Hc]; [done|].
  destruct (Nat.eqb_spec (length (input_batch p)) 0) as [Hz|Hz].
  { apply nil_length_inv in Hz as ->. split_and!; [done|constructor| |done].
    intros c1 c2 H1. by apply elem_of_nil in H1. }
  set (n := length (input_batch p)) in *.
  destruct (div_ceil_spec n cap) as [Hceil Hpos]; [lia|].
  set (k := (n `min` (agent_count `max` div_ceil n cap))%nat).
  assert (Hk : (0 < k <= n)%nat) by lia.
  assert (Hcap : (k = n \/ n <= k * cap)%nat).
  { destruct (decide (k = n)) as [?|?]; [by left | right; nia]. }
  clearbody k.
  pose proof (Nat.div_mod_eq n k) as Hdm. pose proof (Nat.mod_upper_bound n k) as Hmod.
  set (q := (n / k)%nat) in *. set (r := (n mod k)%nat) in *.
  assert (Hlen : length (input_batch p) = ((0 + k) * q + r)%nat) by (fold n; lia).
  assert (H0 : chunk_start_at q r 0 = 0%nat) by reflexivity.
  assert (Hsize : forall j, (1 <= chunk_size_at q r j <= cap)%nat).
  { intros j. assert (1 <= q)%nat by nia. unfold chunk_size_at.
    destruct (Nat.ltb_spec j r); split; try lia; nia. }
  pose proof (chunk_loop_partition p q r k 0 ltac:(lia) Hlen) as Hpart.
  destruct (chunk_loop_chunks p q r k 0 ltac:(lia) Hlen) as [Hcount Hall].
  rewrite H0 in *. split_and!; [done| | |done].
  - apply (Forall_impl _ _ _ Hall). intros c (j & _ & -> & ?). split; [apply Hsize | done].
  - rewrite Forall_forall in Hall. intros c1 c2 H1 H2.
    destruct (Hall _ H1) as (i & _ & -> & _). destruct (Hall _ H2) as (j & _ & -> & _).
    unfold chunk_size_at. do 2 destruct (_ <? _)%nat; lia.
Qed.

(** ** Facts: validation *)

Definition schema_valid (raw : RawParametersSchema) : Prop :=
  forall fields props, raw_required raw = Some fields -> raw_properties raw = Some props ->
    Forall (fun field => is_Some (props !! field)) fields.

Definition tool_schema {Schema} (t : Tool Schema) : option Schema :=
  match t with
  | FunctionTool call =>
      match function_parameters (function call) with
      | EmptyParameters => None
      | SchemaParameters schema => Some schema
      end
  end.

Definition raw_of_validated (v : ValidatedParametersSchema) : RawParametersSchema :=
  {| raw_schema_type := schema_type v; raw_properties := properties v;
     raw_required := required v; raw_additional_properties := additional_properties v |}.

Lemma check_required_ok (fields : list string) (props : gmap string JsonValue) :
  is_ok (check_required fields props) = true <->
  Forall (fun field => is_Some (props !! field)) fields.
Proof.
  induction fields as [|f fields IH]; simpl; [split; [constructor|done]|].
  rewrite Forall_cons, <- IH. destruct (props !! f); simpl.
  - split; [intros Hr; split; [by eexists | done] | by intros [_ ?]].
  - split; [done | by intros [[? ?] _]].
Qed.

Lemma validate_schema_ok (raw : RawParametersSchema) :
  match validate_schema raw with
  | Ok v => schema_valid raw /\ raw_of_validated v = raw
  | Err _ => ~ schema_valid raw
  end.
Proof.
  unfold validate_schema, schema_valid.
  destruct raw as [ty props req add]; simpl.
  destruct req as [req|], props as [props|]; simpl; try (split; [naive_solver | done]).
  pose proof (check_required_ok req props) as Hc.
  destruct (check_required req props); simpl in *.
  - split; [|done]. intros fs ps [= <-] [= <-]. by apply Hc.
  - intros Hv. specialize (Hv req props eq_refl eq_refl). apply Hc in Hv. done.
Qed.

Lemma validate_tool_ok (t : Tool RawParametersSchema) :
  match validate_tool t with
  | Ok v => (forall s, tool_schema t = Some s -> schema_valid s) /\
            tool_schema t = raw_of_validated <$> tool_schema v
  | Err _ => exists s, tool_schema t = Some s /\ ~ schema_valid s
  end.
Proof.
  destruct t as [[[name desc [|schema]]]]; simpl; [split; done|].
  unfold validate_function_call, validate_function. simpl.
  pose proof (validate_schema_ok schema) as Hs.
  destruct (validate_schema schema); simpl in *.
  - destruct Hs as [Hs <-]. split; [|done]. by intros ? [= <-].
  - eauto.
Qed.

Lemma validate_tools_ok (ts : list (Tool RawParametersSchema)) :
  match validate_tools ts with
  | Ok vs => Forall (fun t => forall s, tool_schema t = Some s -> schema_valid s) ts /\
             map tool_schema ts = map (fun t => raw_of_validated <$> tool_schema t) vs
  | Err _ => Exists (fun t => exists s, tool_schema t = Some s /\ ~ schema_valid s) ts
  end.
Proof.
  induction ts as [|t ts IH]; simpl; [split; constructor|].
  pose proof (validate_tool_ok t) as Hv. destruct (validate_tool t) as [v|e]; simpl;
    [|by constructor].
  destruct (validate_tools ts) as [vs|e]; simpl; [|by apply Exists_cons_tl].
  destruct Hv as [Hv Heq], IH as [IH IHeq]. split; [by constructor|].
  by rewrite Heq, IHeq.
Qed.

(** The parameters of a conversation are accepted exactly when every tool
    declares all its required fields among its properties; the validated
    tools are the raw ones in order, and nothing else of the request
    changes. *)
Theorem validate_conversation_params_ok
    (p : ContinueFromConversationHistoryParams RawParametersSchema) :
  match validate_conversation_params p with
  | Ok v =>
      Forall (fun t => forall s, tool_schema t = Some s -> schema_valid s) (tools p) /\
      map tool_schema (tools p)
      = map (fun t => raw_of_validated <$> tool_schema t) (tools v) /\
      conversation_history v = conversation_history p /\
      history_grammar v = history_grammar p /\
      history_max_tokens v = history_max_tokens p /\
      parse_tool_calls v = parse_tool_calls p /\
      add_generation_prompt v = add_generation_prompt p /\
      enable_thinking v = enable_thinking p
  | Err _ => Exists (fun t => exists s, tool_schema t = Some s /\ ~ schema_valid s) (tools p)
  end.
Proof.
  unfold validate_conversation_params.
  pose proof (validate_tools_ok (tools p)) as Ht.
  destruct (validate_tools (tools p)); simpl; [|done]. naive_solver.
Qed.

(** ** Facts: images in a conversation *)

Definition parts_of (c : ChatTemplateMessageContent) : list ChatTemplateMessageContentPart :=
  match c with
  | TemplateText _ => []
  | TemplateParts parts => parts
  end.

(** The parts of a conversation after the replacement, each with the original. *)
Definition original_parts (c : ConversationMessageContent) : list ConversationMessageContentPart :=
  match c with
  | TextContent _ => []
  | PartsContent parts => parts
  end.

Definition is_image (part : ConversationMessageContentPart) : bool :=
  match part with
  | ImageUrlPart _ => true
  | TextPart _ => false
  end.

Lemma image_urls_length (c : ConversationMessageContent) :
  length (image_urls c) = length (filter (fun part => is_image part = true) (original_parts c)).
Proof.
  destruct c as [|parts]; simpl; [done|]. induction parts as [|[] parts IH]; simpl; [done| |].
  - exact IH.
  - by rewrite <- IH.
Qed.

(** The template sees one marker per image of the conversation, in
    order: when no text of the conversation is the marker itself, the number
    of marker parts is the number of images extracted for the multimodal
    projector, and everything else of the conversation is kept. *)
Theorem image_markers_match_images (h : ConversationHistory) (m : MediaMarker)
    (Hfree : Forall (fun msg => TextPart (marker m) ∉ original_parts (message_content msg))
               (messages h)) :
  length (filter (fun part => template_text part = marker m)
            (flat_map (fun msg => parts_of (template_content msg))
               (template_messages (replace_images_with_marker h m))))
  = length (extract_image_urls h) /\
  map template_role (template_messages (replace_images_with_marker h m))
  = map role (messages h).
Proof.
  destruct h as [msgs]. unfold extract_image_urls. simpl in *. split.
  - induction Hfree as [|msg msgs Hm _ IH]; simpl; [done|].
    rewrite filter_app, !length_app, IH. f_equal. clear IH.
    rewrite image_urls_length. destruct (message_content msg) as [|parts]; simpl in *; [done|].
    induction parts as [|part parts IH]; simpl; [done|].
    apply not_elem_of_cons in Hm as [Hne Hm]. specialize (IH Hm).
    destruct part as [text|image]; simpl.
    + rewrite !filter_cons. simpl. rewrite !decide_False by (simpl; congruence). exact IH.
    + rewrite !filter_cons. simpl. rewrite !decide_True by done. simpl. by rewrite IH.
  - rewrite map_map. by apply map_ext.
Qed.

(** ** How a conversation is shown to a template

    Written without the code: message by message and part by part, texts as
    they are, a part with the marker in the place of every image, and the
    images met on the way, in order. *)

Inductive shown_parts (mark : string) :
    list ConversationMessageContentPart -> list ChatTemplateMessageContentPart ->
    list ImageUrl -> Prop :=
| shown_nothing : shown_parts mark [] [] []
| shown_text text parts shown urls :
    shown_parts mark parts shown urls ->
    shown_parts mark (TextPart text :: parts)
      ({| content_type := "text"; template_text := text |} :: shown) urls
| shown_image url parts shown urls :
    shown_parts mark parts shown urls ->
    shown_parts mark (ImageUrlPart url :: parts)
      ({| content_type := "text"; template_text := mark |} :: shown) (url :: urls).

Inductive shown_content (mark : string) :
    ConversationMessageContent -> ChatTemplateMessageContent -> list ImageUrl -> Prop :=
| shown_plain text : shown_content mark (TextContent text) (TemplateText text) []
| shown_mixed parts shown urls :
    shown_parts mark parts shown urls ->
    shown_content mark (PartsContent parts) (TemplateParts shown) urls.

Inductive shown_messages (mark : string) :
    list ConversationMessage -> list ChatTemplateMessage -> list ImageUrl -> Prop :=
| shown_no_message : shown_messages mark [] [] []
| shown_message content shown urls role_ messages_ rest more :
    shown_content mark content shown urls -> shown_messages mark messages_ rest more ->
    shown_messages mark ({| message_content := content; role := role_ |} :: messages_)
      ({| template_content := shown; template_role := role_ |} :: rest) (urls ++ more).

Lemma replace_images_shows (h : ConversationHistory) (m : MediaMarker) :
  shown_messages (marker m) (messages h) (template_messages (replace_images_with_marker h m))
    (extract_image_urls h).
Proof.
  destruct h as [msgs]. unfold extract_image_urls. simpl.
  induction msgs as [|[content role_] msgs IH]; [constructor|]. simpl. constructor; [|exact IH].
  destruct content as [text|parts]; simpl; constructor.
  induction parts as [|[text|url] parts IHparts]; simpl; by constructor.
Qed.

End Requests.
Arguments EmptyParameters {Schema}.
Arguments SchemaParameters {Schema} schema.
Arguments function_name {Schema} _.
Arguments function_description {Schema} _.
Arguments function_parameters {Schema} _.
Arguments function {Schema} _.
Arguments FunctionTool {Schema} call.
Arguments add_generation_prompt {Schema} _.
Arguments conversation_history {Schema} _.
Arguments enable_thinking {Schema} _.
Arguments history_grammar {Schema} _.
Arguments history_max_tokens {Schema} _.
Arguments parse_tool_calls {Schema} _.
Arguments tools {Schema} _.

#[export] Instance string_json : JsonTypes := {| JsonValue := string |}.

Lemma image_markers_match_images_witness :
  let h := {| messages :=
    [{| message_content := PartsContent [TextPart "look"; ImageUrlPart {| image_url := "u" |}];
        role := "user" |}] |} in
  length (filter (fun part => template_text part = "<m>")
            (flat_map (fun msg => parts_of (template_content msg))
               (template_messages (replace_images_with_marker h {| marker := "<m>" |})))) = 1%nat.
Proof.
  intros h. apply (proj1 (image_markers_match_images h {| marker := "<m>" |}
    ltac:(repeat constructor; set_solver))).
Defined.
