(* ===== verification/AgentIssues.v ===== *)
(** * Agent issues: what can go wrong on an agent, and what fixes it

    [agent_issue.rs] with its parameters, and [agent_issue_fix.rs]. *)

From S2P Require Import Prelude.
Local Open Scope Z_scope.

(** ** Issues *)

Record ModelPath : Type := { model_path : string }.

Record ChatTemplateDoesNotCompileParams : Type := {
  compile_error : string;
  compile_model_path : ModelPath;
  template_content : string;
}.

Record HuggingFaceDownloadLock : Type := {
  lock_path : string;
  lock_model_path : ModelPath;
}.

(** [slot_index] is a [u32]. *)
Record SlotCannotStartParams : Type := {
  start_error : string;
  slot_index : Z;
}.

Inductive AgentIssue : Type :=
| CacheCannotAcquireLock (path : ModelPath)
| CacheDirectoryIsNotWritable (path : ModelPath)
| CacheStorageIsFull (path : ModelPath)
| ChatTemplateDoesNotCompile (params : ChatTemplateDoesNotCompileParams)
| DownloadInterrupted (path : ModelPath)
| DownloadServerDeniedAccess (path : ModelPath)
| DownloadServerErrored (path : ModelPath)
| DownloadServerIsUnreachable (path : ModelPath)
| DownloadServerRejectedRequest (path : ModelPath)
| DownloadUrlIsMalformed (path : ModelPath)
| HuggingFaceCannotAcquireLock (lock : HuggingFaceDownloadLock)
| HuggingFaceModelDoesNotExist (path : ModelPath)
| HuggingFacePermissions (path : ModelPath)
| ModelCacheIsCorrupted (path : ModelPath)
| ModelCannotBeLoaded (path : ModelPath)
| ModelDoesNotExistAtUrl (path : ModelPath)
| ModelFileDoesNotExist (path : ModelPath)
| MultimodalProjectionCannotBeLoaded (path : ModelPath)
| SlotCannotStart (params : SlotCannotStartParams)
| UnableToFindChatTemplate (path : ModelPath).

#[export] Instance ModelPath_eq_dec : EqDecision ModelPath.
Proof. solve_decision. Defined.
#[export] Instance ChatTemplateDoesNotCompileParams_eq_dec :
  EqDecision ChatTemplateDoesNotCompileParams.
Proof. solve_decision. Defined.
#[export] Instance HuggingFaceDownloadLock_eq_dec : EqDecision HuggingFaceDownloadLock.
Proof. solve_decision. Defined.
#[export] Instance SlotCannotStartParams_eq_dec : EqDecision SlotCannotStartParams.
Proof. solve_decision. Defined.
#[export] Instance AgentIssue_eq_dec : EqDecision AgentIssue.
Proof. solve_decision. Defined.

(** Sets of issues are [gset]s: an issue is a tag, its strings and its index. *)
Definition encode_issue (issue : AgentIssue) : nat * list string * Z :=
  match issue with
  | CacheCannotAcquireLock p => (0%nat, [model_path p], 0)
  | CacheDirectoryIsNotWritable p => (1%nat, [model_path p], 0)
  | CacheStorageIsFull p => (2%nat, [model_path p], 0)
  | ChatTemplateDoesNotCompile p =>
      (3%nat, [compile_error p; model_path (compile_model_path p); template_content p], 0)
  | DownloadInterrupted p => (4%nat, [model_path p], 0)
  | DownloadServerDeniedAccess p => (5%nat, [model_path p], 0)
  | DownloadServerErrored p => (6%nat, [model_path p], 0)
  | DownloadServerIsUnreachable p => (7%nat, [model_path p], 0)
  | DownloadServerRejectedRequest p => (8%nat, [model_path p], 0)
  | DownloadUrlIsMalformed p => (9%nat, [model_path p], 0)
  | HuggingFaceCannotAcquireLock l => (10%nat, [lock_path l; model_path (lock_model_path l)], 0)
  | HuggingFaceModelDoesNotExist p => (11%nat, [model_path p], 0)
  | HuggingFacePermissions p => (12%nat, [model_path p], 0)
  | ModelCacheIsCorrupted p => (13%nat, [model_path p], 0)
  | ModelCannotBeLoaded p => (14%nat, [model_path p], 0)
  | ModelDoesNotExistAtUrl p => (15%nat, [model_path p], 0)
  | ModelFileDoesNotExist p => (16%nat, [model_path p], 0)
  | MultimodalProjectionCannotBeLoaded p => (17%nat, [model_path p], 0)
  | SlotCannotStart p => (18%nat, [start_error p], slot_index p)
  | UnableToFindChatTemplate p => (19%nat, [model_path p], 0)
  end.

Definition decode_issue (code : nat * list string * Z) : option AgentIssue :=
  match code with
  | (0, [m], _) => Some (CacheCannotAcquireLock {| model_path := m |})
  | (1, [m], _) => Some (CacheDirectoryIsNotWritable {| model_path := m |})
  | (2, [m], _) => Some (CacheStorageIsFull {| model_path := m |})
  | (3, [e; m; t], _) => Some (ChatTemplateDoesNotCompile
      {| compile_error := e; compile_model_path := {| model_path := m |}; template_content := t |})
  | (4, [m], _) => Some (DownloadInterrupted {| model_path := m |})
  | (5, [m], _) => Some (DownloadServerDeniedAccess {| model_path := m |})
  | (6, [m], _) => Some (DownloadServerErrored {| model_path := m |})
  | (7, [m], _) => Some (DownloadServerIsUnreachable {| model_path := m |})
  | (8, [m], _) => Some (DownloadServerRejectedRequest {| model_path := m |})
  | (9, [m], _) => Some (DownloadUrlIsMalformed {| model_path := m |})
  | (10, [l; m], _) =>
      Some (HuggingFaceCannotAcquireLock {| lock_path := l; lock_model_path := {| model_path := m |} |})
  | (11, [m], _) => Some (HuggingFaceModelDoesNotExist {| model_path := m |})
  | (12, [m], _) => Some (HuggingFacePermissions {| model_path := m |})
  | (13, [m], _) => Some (ModelCacheIsCorrupted {| model_path := m |})
  | (14, [m], _) => Some (ModelCannotBeLoaded {| model_path := m |})
  | (15, [m], _) => Some (ModelDoesNotExistAtUrl {| model_path := m |})
  | (16, [m], _) => Some (ModelFileDoesNotExist {| model_path := m |})
  | (17, [m], _) => Some (MultimodalProjectionCannotBeLoaded {| model_path := m |})
  | (18, [e], k) => Some (SlotCannotStart {| start_error := e; slot_index := k |})
  | (19, [m], _) => Some (UnableToFindChatTemplate {| model_path := m |})
  | _ => None
  end%nat.

Lemma decode_encode_issue (issue : AgentIssue) : decode_issue (encode_issue issue) = Some issue.
Proof. by destruct issue as [[?]|[?]|[?]|[? [?] ?]|[?]|[?]|[?]|[?]|[?]|[?]|[? [?]]|[?]|[?]|[?]|[?]|[?]|[?]|[?]|[? ?]|[?]]. Qed.

#[export] Instance AgentIssue_countable : Countable AgentIssue :=
  inj_countable encode_issue decode_issue decode_encode_issue.

(** ** Fixes *)

Inductive AgentIssueFix : Type :=
| ChatTemplateIsCompiled (path : ModelPath)
| HuggingFaceDownloadedModel (path : ModelPath)
| HuggingFaceStartedDownloading (path : ModelPath)
| ModelChatTemplateIsLoaded (path : ModelPath)
| ModelFileExists (path : ModelPath)
| ModelIsLoaded (path : ModelPath)
| ModelDownloadCompleted (path : ModelPath)
| ModelDownloadStarted (path : ModelPath)
| ModelStateIsReconciled
| MultimodalProjectionIsLoaded (path : ModelPath)
| SlotStarted (index : Z).

Definition can_fix (fix_ : AgentIssueFix) (issue : AgentIssue) : bool :=
  match issue with
  | ChatTemplateDoesNotCompile issue_params =>
      match fix_ with
      | ChatTemplateIsCompiled fix_path => bool_decide (compile_model_path issue_params = fix_path)
      | ModelStateIsReconciled => true
      | _ => false
      end
  | HuggingFaceCannotAcquireLock download_lock =>
      match fix_ with
      | HuggingFaceDownloadedModel fix_path
      | HuggingFaceStartedDownloading fix_path =>
          bool_decide (lock_model_path download_lock = fix_path)
      | ModelStateIsReconciled => true
      | _ => false
      end
  | HuggingFaceModelDoesNotExist issue_path
  | HuggingFacePermissions issue_path =>
      match fix_ with
      | HuggingFaceDownloadedModel fix_path
      | HuggingFaceStartedDownloading fix_path
      | MultimodalProjectionIsLoaded fix_path => bool_decide (issue_path = fix_path)
      | ModelStateIsReconciled => true
      | _ => false
      end
  | ModelCannotBeLoaded issue_path =>
      match fix_ with
      | ModelIsLoaded fix_path => bool_decide (issue_path = fix_path)
      | _ => false
      end
  | ModelFileDoesNotExist issue_path =>
      match fix_ with
      | ModelFileExists fix_path
      | MultimodalProjectionIsLoaded fix_path => bool_decide (issue_path = fix_path)
      | _ => false
      end
  | MultimodalProjectionCannotBeLoaded _ =>
      match fix_ with
      | MultimodalProjectionIsLoaded _ => true
      | _ => false
      end
  | SlotCannotStart params =>
      match fix_ with
      | SlotStarted started_slot_index => slot_index params =? started_slot_index
      | _ => false
      end
  | UnableToFindChatTemplate issue_path =>
      match fix_ with
      | ModelChatTemplateIsLoaded fix_path => bool_decide (issue_path = fix_path)
      | ModelStateIsReconciled => true
      | _ => false
      end
  | CacheCannotAcquireLock issue_path
  | CacheDirectoryIsNotWritable issue_path
  | CacheStorageIsFull issue_path
  | DownloadInterrupted issue_path
  | DownloadServerDeniedAccess issue_path
  | DownloadServerErrored issue_path
  | DownloadServerIsUnreachable issue_path
  | DownloadServerRejectedRequest issue_path
  | DownloadUrlIsMalformed issue_path
  | ModelCacheIsCorrupted issue_path
  | ModelDoesNotExistAtUrl issue_path =>
      match fix_ with
      | ModelDownloadCompleted fix_path
      | ModelDownloadStarted fix_path => bool_decide (issue_path = fix_path)
      | ModelStateIsReconciled => true
      | _ => false
      end
  end.

(** ** Facts *)

(** The model an issue is about, and the model a fix is about. *)
Definition issue_model (issue : AgentIssue) : option ModelPath :=
  match issue with
  | ChatTemplateDoesNotCompile p => Some (compile_model_path p)
  | HuggingFaceCannotAcquireLock l => Some (lock_model_path l)
  | SlotCannotStart _ => None
  | CacheCannotAcquireLock p
  | CacheDirectoryIsNotWritable p
  | CacheStorageIsFull p
  | DownloadInterrupted p
  | DownloadServerDeniedAccess p
  | DownloadServerErrored p
  | DownloadServerIsUnreachable p
  | DownloadServerRejectedRequest p
  | DownloadUrlIsMalformed p
  | HuggingFaceModelDoesNotExist p
  | HuggingFacePermissions p
  | ModelCacheIsCorrupted p
  | ModelCannotBeLoaded p
  | ModelDoesNotExistAtUrl p
  | ModelFileDoesNotExist p
  | MultimodalProjectionCannotBeLoaded p
  | UnableToFindChatTemplate p => Some p
  end.

Definition fix_model (fix_ : AgentIssueFix) : option ModelPath :=
  match fix_ with
  | ModelStateIsReconciled | SlotStarted _ => None
  | ChatTemplateIsCompiled p | HuggingFaceDownloadedModel p | HuggingFaceStartedDownloading p
  | ModelChatTemplateIsLoaded p | ModelFileExists p | ModelIsLoaded p | ModelDownloadCompleted p
  | ModelDownloadStarted p | MultimodalProjectionIsLoaded p => Some p
  end.

(** A fix that names a model only fixes issues of that model; the one
    exception is a projection that could not be loaded, which any loaded
    projection fixes. *)
Lemma can_fix_same_model (fix_ : AgentIssueFix) (issue : AgentIssue) (p : ModelPath) :
  fix_model fix_ = Some p -> can_fix fix_ issue = true ->
  issue_model issue = Some p \/
  exists q, issue = MultimodalProjectionCannotBeLoaded q.
Proof.
  destruct fix_; simpl; intros [= ->]; destruct issue; simpl; try done;
    try (intros ->%bool_decide_eq_true; by left); intros _; right; by eexists.
Qed.

(** Reconciling the model state settles everything except a model or a
    projection that failed to load, a missing model file and a slot that did
    not start: those need their own fix. *)
Lemma can_fix_reconciled (issue : AgentIssue) :
  can_fix ModelStateIsReconciled issue = false <->
  (exists p, issue = ModelCannotBeLoaded p) \/
  (exists p, issue = ModelFileDoesNotExist p) \/
  (exists p, issue = MultimodalProjectionCannotBeLoaded p) \/
  (exists p, issue = SlotCannotStart p).
Proof. destruct issue; simpl; naive_solver. Qed.
