(* ===== verification/TokenThroughput.v ===== *)
(** * The token throughput meter of an agent

    [token_throughput_meter.rs].  An [Instant] is a number of nanoseconds on
    a clock that never goes back; a call that reads the clock takes the
    reading as an argument. *)

From S2P Require Import Prelude.
From Stdlib Require Import Floats.SpecFloat.
Local Open Scope Z_scope.

Definition NANOS_PER_SEC : Z := 1000000000.
Definition WINDOW_DURATION : Z := 1 * NANOS_PER_SEC.
Definition STALE_AFTER : Z := 2 * NANOS_PER_SEC.

Record ThroughputWindow : Type := {
  rate : f64;
  window_started_at : Z;
  window_token_count : Z;
}.

Definition meter_new (now : Z) : ThroughputWindow :=
  {| rate := f64_zero; window_started_at := now; window_token_count := 0 |}.

(** [Instant::elapsed], which saturates at zero. *)
Definition elapsed (w : ThroughputWindow) (now : Z) : Z := Z.max 0 (now - window_started_at w).

(** [n as f64] and [Duration::as_secs_f64]. *)
Definition f64_of_Z (n : Z) : f64 := binary_normalize 53 1024 n 0 false.
Definition f64_div : f64 -> f64 -> f64 := SFdiv 53 1024.
Definition as_secs_f64 (duration : Z) : f64 :=
  f64_add (f64_of_Z (duration / NANOS_PER_SEC))
          (f64_div (f64_of_Z (duration mod NANOS_PER_SEC)) (f64_of_Z NANOS_PER_SEC)).

(** [now] is read by [elapsed], [restart] by the second [Instant::now]. *)
Definition record_token (now restart : Z) (w : ThroughputWindow) : ThroughputWindow :=
  let count := wrap_u64 (window_token_count w + 1) in
  if WINDOW_DURATION <=? elapsed w now
  then {| rate := f64_div (f64_of_Z count) (as_secs_f64 (elapsed w now));
          window_started_at := restart;
          window_token_count := 0 |}
  else {| rate := rate w;
          window_started_at := window_started_at w;
          window_token_count := count |}.

Definition tokens_per_second (now : Z) (w : ThroughputWindow) : f64 :=
  if (STALE_AFTER <? elapsed w now) && (window_token_count w =? 0)
  then f64_zero
  else rate w.

(** ** Facts *)

(** The tokens recorded at the given readings, in order. *)
Definition record_tokens (times : list (Z * Z)) (w : ThroughputWindow) : ThroughputWindow :=
  fold_left (fun w t => record_token (fst t) (snd t) w) times w.

Lemma record_token_open (now restart : Z) (w : ThroughputWindow) :
  elapsed w now < WINDOW_DURATION ->
  record_token now restart w
  = {| rate := rate w; window_started_at := window_started_at w;
       window_token_count := wrap_u64 (window_token_count w + 1) |}.
Proof. intros H. unfold record_token. by destruct (Z.leb_spec WINDOW_DURATION (elapsed w now)); [lia|]. Qed.

Lemma record_tokens_open (times : list (Z * Z)) (w : ThroughputWindow) :
  Forall (fun t => elapsed w (fst t) < WINDOW_DURATION) times ->
  0 <= window_token_count w -> window_token_count w + Z.of_nat (length times) <= u64_max ->
  record_tokens times w
  = {| rate := rate w; window_started_at := window_started_at w;
       window_token_count := window_token_count w + Z.of_nat (length times) |}.
Proof.
  revert w. induction times as [|t times IH]; intros w Hall H0 Hmax; simpl.
  - destruct w. simpl. f_equal. lia.
  - apply Forall_cons in Hall as [Ht Hall].
    simpl in Hmax. rewrite record_token_open by done.
    assert (Hid : wrap_u64 (window_token_count w + 1) = window_token_count w + 1)
      by (apply wrap_u64_id; unfold in_u64; lia).
    rewrite Hid. unfold record_tokens in IH. rewrite IH; simpl.
    + f_equal. lia.
    + exact Hall.
    + lia.
    + lia.
Qed.

(** A window counts every token once: when tokens arrive while a fresh
    window is open, and then one more after it closed, the reported rate is
    their number divided by the time since the window opened, and the next
    window starts empty. *)
Theorem throughput_counts_window (times : list (Z * Z)) (last : Z * Z) (w : ThroughputWindow)
    (Hempty : window_token_count w = 0)
    (Hopen : Forall (fun t => elapsed w (fst t) < WINDOW_DURATION) times)
    (Hclosed : WINDOW_DURATION <= elapsed w (fst last))
    (Hmany : Z.of_nat (length times) < u64_max) :
  record_tokens (times ++ [last]) w
  = {| rate := f64_div (f64_of_Z (Z.of_nat (length times) + 1)) (as_secs_f64 (elapsed w (fst last)));
       window_started_at := snd last;
       window_token_count := 0 |}.
Proof.
  unfold record_tokens. rewrite fold_left_app.
  fold (record_tokens times w).
  rewrite (record_tokens_open times w); [|exact Hopen|rewrite Hempty; lia|rewrite Hempty; lia].
  rewrite Hempty. simpl. unfold record_token, elapsed in *. simpl.
  rewrite (proj2 (Z.leb_le _ _) Hclosed).
  rewrite wrap_u64_id by (unfold in_u64, u64_max in *; lia). done.
Qed.

(** Two tokens in the first half second, one at two seconds: 1.5 per second. *)
Lemma throughput_counts_window_witness :
  tokens_per_second 2000000001
    (record_tokens ([(100, 100); (500, 500)] ++ [(2000000000, 2000000000)]) (meter_new 0))
  = f64_div (f64_of_Z 3) (f64_of_Z 2).
Proof.
  rewrite (throughput_counts_window [(100, 100); (500, 500)] (2000000000, 2000000000));
    [vm_compute; reflexivity | reflexivity | | vm_compute; discriminate | reflexivity].
  repeat constructor.
Defined.

(** An idle meter reports zero only when its last token closed a window:
    after a token that did not, the old rate is reported however long the
    agent stays idle. *)
Theorem idle_meter_keeps_rate (w : ThroughputWindow) (now restart later : Z)
    (Hcount : 0 <= window_token_count w < u64_max) :
  (WINDOW_DURATION <= elapsed w now ->
   restart + STALE_AFTER < later ->
   tokens_per_second later (record_token now restart w) = f64_zero) /\
  (elapsed w now < WINDOW_DURATION ->
   tokens_per_second later (record_token now restart w) = rate w).
Proof.
  split; intros Helapsed.
  - intros Hlater. unfold record_token. rewrite (proj2 (Z.leb_le _ _) Helapsed).
    unfold tokens_per_second, elapsed. simpl.
    assert (Hs : (STALE_AFTER <? Z.max 0 (later - restart)) = true) by (apply Z.ltb_lt; lia).
    by rewrite Hs.
  - rewrite record_token_open by done. unfold tokens_per_second. simpl.
    rewrite wrap_u64_id by (unfold in_u64; lia).
    destruct (Z.eqb_spec (window_token_count w + 1) 0); [lia|]. by rewrite andb_false_r.
Qed.

(** One token 0.5 s after a window of rate 8 closed: an hour later the meter
    still reports 8. *)
Lemma idle_meter_keeps_rate_witness :
  let w := {| rate := f64_of_Z 8; window_started_at := 0; window_token_count := 0 |} in
  tokens_per_second 3600000000000 (record_token 500000000 500000000 w) = f64_of_Z 8.
Proof.
  intros w. apply (idle_meter_keeps_rate w 500000000 500000000 3600000000000).
  - unfold u64_max; simpl; lia.
  - reflexivity.
Defined.
