(* ===== verification/SlotStatus.v ===== *)
(** * The aggregated status of an agent

    [slot_aggregated_status.rs], [slot_guard.rs],
    [slot_aggregated_status_manager.rs] and the download progress.  The
    atomics and locks of the struct are the fields of a record; an operation
    is the sequence of its stores, one state to the next.  The watch channel
    that announces changes is an argument. *)

From S2P Require Import Prelude Tokio Messages AtomicValue AgentIssues TokenThroughput.
Local Open Scope Z_scope.

(** ** The snapshot sent to the balancer *)

Module Snapshot.
Record SlotAggregatedStatusSnapshot : Type := {
  desired_slots_total : Z;
  download_current : Z;
  download_filename : option string;
  download_indeterminate : bool;
  download_total : Z;
  issues : gset AgentIssue;
  model_path : option string;
  slots_processing : Z;
  slots_total : Z;
  state_application_status : AgentStateApplicationStatus;
  tokens_per_second : f64;
  uses_chat_template_override : bool;
  version : Z;
}.
End Snapshot.

Section Status.
Context {sender receiver : Type} `{!WatchChannel sender receiver}.

(** ** State *)

Record SlotAggregatedStatus : Type := {
  desired_slots_total : Z;
  download_current : Z;
  download_filename : option string;
  download_indeterminate : bool;
  download_total : Z;
  issues : gset AgentIssue;
  model_path : option string;
  slots_processing : Z;
  slots_total : Z;
  state_application_status_code : Z;
  token_throughput_meter : ThroughputWindow;
  update_tx : sender;
  uses_chat_template_override : bool;
  version : Z;
}.

Definition store_download_current (x : Z) (s : SlotAggregatedStatus)
    : SlotAggregatedStatus :=
  Build_SlotAggregatedStatus (desired_slots_total s) x (download_filename s)
    (download_indeterminate s) (download_total s) (issues s) (model_path s) (slots_processing s)
    (slots_total s) (state_application_status_code s) (token_throughput_meter s) (update_tx s)
    (uses_chat_template_override s) (version s).
Definition store_download_filename (x : option string) (s : SlotAggregatedStatus)
    : SlotAggregatedStatus :=
  Build_SlotAggregatedStatus (desired_slots_total s) (download_current s) x
    (download_indeterminate s) (download_total s) (issues s) (model_path s) (slots_processing s)
    (slots_total s) (state_application_status_code s) (token_throughput_meter s) (update_tx s)
    (uses_chat_template_override s) (version s).
Definition store_download_indeterminate (x : bool) (s : SlotAggregatedStatus)
    : SlotAggregatedStatus :=
  Build_SlotAggregatedStatus (desired_slots_total s) (download_current s) (download_filename s)
    x (download_total s) (issues s) (model_path s) (slots_processing s) (slots_total s)
    (state_application_status_code s) (token_throughput_meter s) (update_tx s)
    (uses_chat_template_override s) (version s).
Definition store_download_total (x : Z) (s : SlotAggregatedStatus)
    : SlotAggregatedStatus :=
  Build_SlotAggregatedStatus (desired_slots_total s) (download_current s) (download_filename s)
    (download_indeterminate s) x (issues s) (model_path s) (slots_processing s) (slots_total s)
    (state_application_status_code s) (token_throughput_meter s) (update_tx s)
    (uses_chat_template_override s) (version s).
Definition store_issues (x : gset AgentIssue) (s : SlotAggregatedStatus)
    : SlotAggregatedStatus :=
  Build_SlotAggregatedStatus (desired_slots_total s) (download_current s) (download_filename s)
    (download_indeterminate s) (download_total s) x (model_path s) (slots_processing s)
    (slots_total s) (state_application_status_code s) (token_throughput_meter s) (update_tx s)
    (uses_chat_template_override s) (version s).
Definition store_model_path (x : option string) (s : SlotAggregatedStatus)
    : SlotAggregatedStatus :=
  Build_SlotAggregatedStatus (desired_slots_total s) (download_current s) (download_filename s)
    (download_indeterminate s) (download_total s) (issues s) x (slots_processing s)
    (slots_total s) (state_application_status_code s) (token_throughput_meter s) (update_tx s)
    (uses_chat_template_override s) (version s).
Definition store_slots_processing (x : Z) (s : SlotAggregatedStatus)
    : SlotAggregatedStatus :=
  Build_SlotAggregatedStatus (desired_slots_total s) (download_current s) (download_filename s)
    (download_indeterminate s) (download_total s) (issues s) (model_path s) x (slots_total s)
    (state_application_status_code s) (token_throughput_meter s) (update_tx s)
    (uses_chat_template_override s) (version s).
Definition store_slots_total (x : Z) (s : SlotAggregatedStatus)
    : SlotAggregatedStatus :=
  Build_SlotAggregatedStatus (desired_slots_total s) (download_current s) (download_filename s)
    (download_indeterminate s) (download_total s) (issues s) (model_path s) (slots_processing s)
    x (state_application_status_code s) (token_throughput_meter s) (update_tx s)
    (uses_chat_template_override s) (version s).
Definition store_state_application_status_code (x : Z) (s : SlotAggregatedStatus)
    : SlotAggregatedStatus :=
  Build_SlotAggregatedStatus (desired_slots_total s) (download_current s) (download_filename s)
    (download_indeterminate s) (download_total s) (issues s) (model_path s) (slots_processing s)
    (slots_total s) x (token_throughput_meter s) (update_tx s) (uses_chat_template_override s)
    (version s).
Definition store_token_throughput_meter (x : ThroughputWindow) (s : SlotAggregatedStatus)
    : SlotAggregatedStatus :=
  Build_SlotAggregatedStatus (desired_slots_total s) (download_current s) (download_filename s)
    (download_indeterminate s) (download_total s) (issues s) (model_path s) (slots_processing s)
    (slots_total s) (state_application_status_code s) x (update_tx s)
    (uses_chat_template_override s) (version s).
Definition store_update_tx (x : sender) (s : SlotAggregatedStatus)
    : SlotAggregatedStatus :=
  Build_SlotAggregatedStatus (desired_slots_total s) (download_current s) (download_filename s)
    (download_indeterminate s) (download_total s) (issues s) (model_path s) (slots_processing s)
    (slots_total s) (state_application_status_code s) (token_throughput_meter s) x
    (uses_chat_template_override s) (version s).
Definition store_uses_chat_template_override (x : bool) (s : SlotAggregatedStatus)
    : SlotAggregatedStatus :=
  Build_SlotAggregatedStatus (desired_slots_total s) (download_current s) (download_filename s)
    (download_indeterminate s) (download_total s) (issues s) (model_path s) (slots_processing s)
    (slots_total s) (state_application_status_code s) (token_throughput_meter s) (update_tx s) x
    (version s).
Definition store_version (x : Z) (s : SlotAggregatedStatus)
    : SlotAggregatedStatus :=
  Build_SlotAggregatedStatus (desired_slots_total s) (download_current s) (download_filename s)
    (download_indeterminate s) (download_total s) (issues s) (model_path s) (slots_processing s)
    (slots_total s) (state_application_status_code s) (token_throughput_meter s) (update_tx s)
    (uses_chat_template_override s) x.

(** [SlotAggregatedStatus::new]; the meter reads the clock. *)
Definition status_new (now desired : Z) : SlotAggregatedStatus :=
  {| desired_slots_total := desired;
     download_current := 0;
     download_filename := None;
     download_indeterminate := true;
     download_total := 0;
     issues := ∅;
     model_path := None;
     slots_processing := 0;
     slots_total := 0;
     state_application_status_code := status_code Fresh;
     token_throughput_meter := meter_new now;
     update_tx := watch_new;
     uses_chat_template_override := false;
     version := 0 |}.

(** ** Operations *)

(** [self.update_tx.send_replace(())] *)
Definition announce (s : SlotAggregatedStatus) : SlotAggregatedStatus :=
  store_update_tx (watch_send_replace (update_tx s)) s.

(** [self.version.increment(); self.update_tx.send_replace(())] *)
Definition publish (s : SlotAggregatedStatus) : SlotAggregatedStatus :=
  announce (store_version (i32_increment (version s)) s).

Definition decrement_total_slots (s : SlotAggregatedStatus) : SlotAggregatedStatus :=
  publish (store_slots_total (i32_decrement (slots_total s)) s).

Definition get_state_application_status (s : SlotAggregatedStatus)
    : result AgentStateApplicationStatus string :=
  status_try_from (state_application_status_code s).

Definition has_issue (issue : AgentIssue) (s : SlotAggregatedStatus) : bool :=
  bool_decide (issue ∈ issues s).

Definition has_issue_like (issue_like : AgentIssue -> bool) (s : SlotAggregatedStatus) : bool :=
  existsb issue_like (elements (issues s)).

Definition increment_download_current (size : Z) (s : SlotAggregatedStatus)
    : SlotAggregatedStatus :=
  publish (store_download_current (u64_increment_by (download_current s) size) s).

Definition increment_total_slots (s : SlotAggregatedStatus) : SlotAggregatedStatus :=
  publish (store_slots_total (i32_increment (slots_total s)) s).

Definition register_issue (issue : AgentIssue) (s : SlotAggregatedStatus)
    : SlotAggregatedStatus :=
  if decide (issue ∈ issues s) then s
  else announce (store_issues ({[issue]} ∪ issues s) s).

Definition register_fix (fix_ : AgentIssueFix) (s : SlotAggregatedStatus)
    : SlotAggregatedStatus :=
  let size_before := size (issues s) in
  let s := store_issues (filter (fun issue => negb (can_fix fix_ issue) = true) (issues s)) s in
  if (size (issues s) <? size_before)%nat then announce s else s.

Definition set_download_filename (filename : option string) (s : SlotAggregatedStatus)
    : SlotAggregatedStatus :=
  publish (store_download_filename filename s).

Definition set_model_path (path : option string) (s : SlotAggregatedStatus)
    : SlotAggregatedStatus :=
  publish (store_model_path path s).

Definition reset (s : SlotAggregatedStatus) : SlotAggregatedStatus :=
  let s := store_issues ∅ s in
  let s := set_model_path None s in
  let s := store_slots_processing (i32_reset (slots_processing s)) s in
  let s := store_slots_total (i32_reset (slots_total s)) s in
  publish s.

Definition reset_download (s : SlotAggregatedStatus) : SlotAggregatedStatus :=
  let s := store_download_current 0 s in
  let s := store_download_total 0 s in
  let s := store_download_indeterminate true s in
  let s := set_download_filename None s in
  publish s.

Definition set_download_status (current : Z) (total : option Z) (filename : option string)
    (s : SlotAggregatedStatus) : SlotAggregatedStatus :=
  let s := store_download_current current s in
  let s := match total with
           | Some value => store_download_indeterminate false (store_download_total value s)
           | None => store_download_indeterminate true (store_download_total 0 s)
           end in
  set_download_filename filename s.

Definition set_state_application_status (status : AgentStateApplicationStatus)
    (s : SlotAggregatedStatus) : SlotAggregatedStatus :=
  publish (store_state_application_status_code (status_code status) s).

Definition set_uses_chat_template_override (uses : bool) (s : SlotAggregatedStatus)
    : SlotAggregatedStatus :=
  publish (store_uses_chat_template_override uses s).

Definition slots_processing_count (s : SlotAggregatedStatus) : Z := slots_processing s.

Definition record_generated_token (now restart : Z) (s : SlotAggregatedStatus)
    : SlotAggregatedStatus :=
  store_token_throughput_meter (record_token now restart (token_throughput_meter s)) s.

Definition release_slot (s : SlotAggregatedStatus) : SlotAggregatedStatus :=
  publish (store_slots_processing (i32_decrement (slots_processing s)) s).

Definition take_slot (s : SlotAggregatedStatus) : SlotAggregatedStatus :=
  publish (store_slots_processing (i32_increment (slots_processing s)) s).

(** [SlotGuard::new] and its [Drop]. *)
Definition slot_guard_new (s : SlotAggregatedStatus) : SlotAggregatedStatus := take_slot s.
Definition slot_guard_drop (s : SlotAggregatedStatus) : SlotAggregatedStatus := release_slot s.

(** [ProducesSnapshot]; [now] is read by the meter. *)
Definition status_make_snapshot (now : Z) (s : SlotAggregatedStatus)
    : result Snapshot.SlotAggregatedStatusSnapshot string :=
  let? status := status_try_from (state_application_status_code s) in
  Ok {| Snapshot.issues := issues s;
        Snapshot.desired_slots_total := desired_slots_total s;
        Snapshot.download_current := download_current s;
        Snapshot.download_filename := download_filename s;
        Snapshot.download_indeterminate := download_indeterminate s;
        Snapshot.download_total := download_total s;
        Snapshot.model_path := model_path s;
        Snapshot.slots_processing := slots_processing s;
        Snapshot.slots_total := slots_total s;
        Snapshot.state_application_status := status;
        Snapshot.tokens_per_second := tokens_per_second now (token_throughput_meter s);
        Snapshot.uses_chat_template_override := uses_chat_template_override s;
        Snapshot.version := version s |}.

(** [SlotAggregatedStatusDownloadProgress] *)
Definition progress_init (size_ : Z) (filename : string) (s : SlotAggregatedStatus)
    : SlotAggregatedStatus :=
  set_download_status 0 (Some size_) (Some filename)
    (register_fix (HuggingFaceStartedDownloading {| AgentIssues.model_path := filename |}) s).
Definition progress_update (size_ : Z) (s : SlotAggregatedStatus) : SlotAggregatedStatus :=
  increment_download_current size_ s.
Definition progress_finish (s : SlotAggregatedStatus) : SlotAggregatedStatus := reset_download s.

(** ** Runs *)

(** The mutating operations the rest of the agent calls. *)
Inductive StatusOp : Type :=
| OpDecrementTotalSlots
| OpIncrementDownloadCurrent (size_ : Z)
| OpIncrementTotalSlots
| OpRegisterIssue (issue : AgentIssue)
| OpRegisterFix (fix_ : AgentIssueFix)
| OpReset
| OpResetDownload
| OpSetDownloadStatus (current : Z) (total : option Z) (filename : option string)
| OpSetModelPath (path : option string)
| OpSetStateApplicationStatus (status : AgentStateApplicationStatus)
| OpSetUsesChatTemplateOverride (uses : bool)
| OpRecordGeneratedToken (now restart : Z)
| OpReleaseSlot
| OpTakeSlot.

Definition run_status_op (op : StatusOp) : SlotAggregatedStatus -> SlotAggregatedStatus :=
  match op with
  | OpDecrementTotalSlots => decrement_total_slots
  | OpIncrementDownloadCurrent size_ => increment_download_current size_
  | OpIncrementTotalSlots => increment_total_slots
  | OpRegisterIssue issue => register_issue issue
  | OpRegisterFix fix_ => register_fix fix_
  | OpReset => reset
  | OpResetDownload => reset_download
  | OpSetDownloadStatus current total filename => set_download_status current total filename
  | OpSetModelPath path => set_model_path path
  | OpSetStateApplicationStatus status => set_state_application_status status
  | OpSetUsesChatTemplateOverride uses => set_uses_chat_template_override uses
  | OpRecordGeneratedToken now restart => record_generated_token now restart
  | OpReleaseSlot => release_slot
  | OpTakeSlot => take_slot
  end.

Definition run_status_ops (ops : list StatusOp) (s : SlotAggregatedStatus)
    : SlotAggregatedStatus :=
  fold_left (fun s op => run_status_op op s) ops s.

(** How far an operation moves the version. *)
Definition version_steps (op : StatusOp) : Z :=
  match op with
  | OpRegisterIssue _ | OpRegisterFix _ | OpRecordGeneratedToken _ _ => 0
  | OpReset | OpResetDownload => 2
  | _ => 1
  end.

(** ** Facts *)

(** Everything of the state a snapshot shows, but the rate and the version. *)
Definition visible (s : SlotAggregatedStatus) :=
  (download_current s, download_filename s, download_indeterminate s, download_total s,
   issues s, model_path s, slots_processing s, slots_total s,
   state_application_status_code s, uses_chat_template_override s).

(** After at least one announcement a receiver of the channel has a change to
    see. *)
Inductive announced_since (tx : sender) : sender -> Prop :=
| announced_once : announced_since tx (watch_send_replace tx)
| announced_again tx' : announced_since tx tx' -> announced_since tx (watch_send_replace tx').

Lemma announced_since_changed (tx tx' : sender) (rx : receiver) :
  announced_since tx tx' -> watch_valid tx rx ->
  watch_valid tx' rx /\ watch_has_changed tx' rx = true.
Proof.
  intros Ha Hv. induction Ha as [|tx' _ [IHv _]].
  - split; [by apply watch_send_valid | by apply watch_send_changed].
  - split; [by apply watch_send_valid | by apply watch_send_changed].
Qed.

Lemma filter_size_eq (P : AgentIssue -> Prop) `{!forall x, Decision (P x)} (X : gset AgentIssue) :
  (size X <= size (filter P X))%nat -> filter P X = X.
Proof.
  intros Hs. apply set_eq. intros x. rewrite elem_of_filter. split; [by intros [_ ?]|].
  intros Hx. split; [|done]. destruct (decide (P x)) as [|Hn]; [done|]. exfalso.
  assert (Hsub : filter P X ⊂ X) by set_solver.
  apply subset_size in Hsub. lia.
Qed.

Lemma run_status_op_announced (op : StatusOp) (s : SlotAggregatedStatus) :
  announced_since (update_tx s) (update_tx (run_status_op op s)) \/
  update_tx (run_status_op op s) = update_tx s /\ visible (run_status_op op s) = visible s.
Proof.
  destruct op as [| | |issue|fix_| | |c t f| | | | | |];
    try (left; simpl; do 2 constructor; done); try (right; done).
  - simpl. unfold register_issue. case_decide; [by right | left; constructor].
  - simpl. unfold register_fix. simpl.
    destruct (Nat.ltb_spec (size (filter (fun issue => negb (can_fix fix_ issue) = true) (issues s)))
                (size (issues s))) as [_|Hge]; [left; constructor|].
    right. split; [done|]. unfold visible. simpl. by rewrite filter_size_eq.
  - left. simpl. destruct t; simpl; constructor.
Qed.

(** No status change goes unannounced: whenever an operation changes
    something a snapshot shows, every subscriber of the status has a change to
    see, and sends the next snapshot. *)
Theorem status_changes_announced (op : StatusOp) (s : SlotAggregatedStatus) (rx : receiver)
    (Hvalid : watch_valid (update_tx s) rx)
    (Hchanged : visible (run_status_op op s) <> visible s) :
  watch_valid (update_tx (run_status_op op s)) rx /\
  watch_has_changed (update_tx (run_status_op op s)) rx = true.
Proof.
  destruct (run_status_op_announced op s) as [Ha|[_ Heq]]; [|done].
  by eapply announced_since_changed.
Qed.

Lemma run_status_op_version (op : StatusOp) (s : SlotAggregatedStatus) :
  0 <= version s -> version s + version_steps op <= i32_max ->
  version (run_status_op op s) = version s + version_steps op.
Proof.
  intros H0 Hmax.
  assert (Hinc : forall z, 0 <= z < i32_max -> i32_increment z = z + 1).
  { intros z Hz. apply i32_increment_small. unfold i32_min, i32_max in *. lia. }
  destruct op as [| | |issue|fix_| | |c t f| | | | | |]; simpl in *;
    try (rewrite Hinc; lia).
  - unfold register_issue. case_decide; simpl; lia.
  - unfold register_fix. case_match; simpl; lia.
  - rewrite !Hinc; rewrite ?Hinc; lia.
  - rewrite !Hinc; rewrite ?Hinc; lia.
  - destruct t; simpl; rewrite Hinc; lia.
  - lia.
Qed.

Definition total_version_steps (ops : list StatusOp) : Z :=
  foldr (fun op acc => version_steps op + acc) 0 ops.

Lemma total_version_steps_nonneg (ops : list StatusOp) : 0 <= total_version_steps ops.
Proof. induction ops as [|[] ops IH]; simpl; lia. Qed.

Lemma run_status_ops_version (ops : list StatusOp) (s : SlotAggregatedStatus) :
  0 <= version s -> version s + total_version_steps ops <= i32_max ->
  version (run_status_ops ops s) = version s + total_version_steps ops.
Proof.
  revert s. induction ops as [|op ops IH]; intros s H0 Hmax; simpl in *; [lia|].
  pose proof (total_version_steps_nonneg ops).
  assert (Hop : 0 <= version_steps op) by (destruct op; simpl; lia).
  unfold run_status_ops in *. rewrite IH; rewrite run_status_op_version; lia.
Qed.

(** ** Slot accounting *)

(** The status with its live guards: guards come and go, and any operation
    that is not the guards' own and not a [reset] may run in between. *)
Record SlotSystem : Type := {
  slot_status : SlotAggregatedStatus;
  slot_guards : nat;
}.

Definition touches_slots (op : StatusOp) : bool :=
  match op with
  | OpReset | OpReleaseSlot | OpTakeSlot => true
  | _ => false
  end.

Inductive slot_step : relation SlotSystem :=
| slot_step_guard s n :
    (Z.of_nat n < i32_max) ->
    slot_step {| slot_status := s; slot_guards := n |}
              {| slot_status := slot_guard_new s; slot_guards := S n |}
| slot_step_drop s n :
    slot_step {| slot_status := s; slot_guards := S n |}
              {| slot_status := slot_guard_drop s; slot_guards := n |}
| slot_step_other s n op :
    touches_slots op = false ->
    slot_step {| slot_status := s; slot_guards := n |}
              {| slot_status := run_status_op op s; slot_guards := n |}
| slot_step_reset s :
    slot_step {| slot_status := s; slot_guards := 0 |}
              {| slot_status := reset s; slot_guards := 0 |}.

Definition slots_accounted (y : SlotSystem) : Prop :=
  slots_processing (slot_status y) = Z.of_nat (slot_guards y) /\
  Z.of_nat (slot_guards y) <= i32_max.

Lemma run_status_op_slots (op : StatusOp) (s : SlotAggregatedStatus) :
  touches_slots op = false -> slots_processing (run_status_op op s) = slots_processing s.
Proof.
  destruct op as [| | |issue|fix_| | |c t f| | | | | |]; simpl; try done; intros _.
  - unfold register_issue. by case_decide.
  - unfold register_fix. by case_match.
  - by destruct t.
Qed.

Lemma slots_accounted_step (x y : SlotSystem) :
  slots_accounted x -> slot_step x y -> slots_accounted y.
Proof.
  unfold slots_accounted. intros [Hp Hb] Hstep. destruct Hstep as [s n Hn|s n|s n op Hop|s];
    simpl in *.
  - rewrite Hp, i32_increment_small by (unfold i32_min, i32_max in *; lia). lia.
  - rewrite Hp, i32_decrement_small by (unfold i32_min, i32_max in *; lia). lia.
  - by rewrite run_status_op_slots.
  - done.
Qed.

(** The slots an agent reports as processing are exactly the requests
    that hold a slot guard, whatever else happens to the status, as long as
    the status is only reset when no guard is held. *)
Theorem slots_processing_counts_guards (now desired : Z) (y : SlotSystem)
    (Hreach : rtc slot_step {| slot_status := status_new now desired; slot_guards := 0 |} y) :
  slots_processing_count (slot_status y) = Z.of_nat (slot_guards y).
Proof.
  assert (Ha : slots_accounted y).
  { eapply rtc_invariant; [exact Hreach | | apply slots_accounted_step].
    unfold slots_accounted. simpl. by compute. }
  apply Ha.
Qed.

End Status.
Arguments SlotAggregatedStatus sender : clear implicits.
Arguments SlotSystem sender : clear implicits.

(** ** Witnesses *)

Lemma status_changes_announced_witness :
  let s : SlotAggregatedStatus nat := status_new 0 4 in
  watch_has_changed (update_tx (run_status_op OpTakeSlot s)) 0%nat = true.
Proof.
  intros s. apply (status_changes_announced (receiver := nat) OpTakeSlot s).
  - simpl. lia.
  - intros H. apply (f_equal (fun v => v.1.1.1.2)) in H. discriminate H.
Defined.

Lemma slots_processing_counts_guards_witness :
  slots_processing_count (slot_guard_new (status_new 0 4 : SlotAggregatedStatus nat)) = 1.
Proof.
  apply (slots_processing_counts_guards 0 4
    {| slot_status := slot_guard_new (status_new 0 4); slot_guards := 1 |}).
  apply rtc_once. by apply (slot_step_guard (status_new 0 4) 0).
Defined.

(** A reset while a request is in flight leaves the count one too low. *)
Lemma reset_with_guard_undercounts :
  slots_processing_count (slot_guard_drop (reset (slot_guard_new
    (status_new 0 4 : SlotAggregatedStatus nat)))) = -1.
Proof. reflexivity. Qed.
