(* ===== verification/AgentController.v ===== *)
(** * Agent controllers: the balancer's view of one agent

    [agent_controller.rs].  A controller holds the sending half of the channel
    to the agent's socket, the sender collections of the requests in flight,
    and the status the agent reported last.  Atomics and locks are fields; an
    operation is the sequence of its loads and stores. *)

From Stdlib Require Import Floats.SpecFloat.
From S2P Require Import Prelude Tokio Messages AtomicValue AgentIssues Requests Senders.
From S2P Require Import SlotStatus.
Local Open Scope Z_scope.

Inductive AgentControllerUpdateResult : Type :=
| NoMeaningfulChanges
| Updated.

Record ModelMetadata : Type := { metadata : gmap string string }.

(** [AgentControllerSnapshot], what the management API shows of an agent. *)
Module ControllerSnapshot.
Record AgentControllerSnapshot : Type := {
  desired_slots_total : Z;
  download_current : Z;
  download_filename : option string;
  download_indeterminate : bool;
  download_total : Z;
  id : string;
  issues : gset AgentIssue;
  model_path : option string;
  name : option string;
  slots_processing : Z;
  slots_total : Z;
  state_application_status : AgentStateApplicationStatus;
  tokens_per_second : f64;
  uses_chat_template_override : bool;
}.
End ControllerSnapshot.

Module Controller.
Section Controller.
Context `{JsonTypes} `{LlamaTypes} {chan : Type -> Type} `{!UnboundedChannel chan} {token : Type}.

(** ** State *)

Record AgentController : Type := {
  agent_message_tx : chan AgentMessage;
  chat_template_override_sender_collection : SenderCollection chan (option ChatTemplate);
  connection_close : token;
  desired_slots_total : Z;
  download_current : Z;
  download_filename : option string;
  download_indeterminate : bool;
  download_total : Z;
  embedding_sender_collection : SenderCollection chan EmbeddingResult;
  generate_tokens_sender_collection : SenderCollection chan GeneratedTokenResult;
  id : string;
  issues : gset AgentIssue;
  model_metadata_sender_collection : SenderCollection chan (option ModelMetadata);
  model_path : option string;
  name : option string;
  newest_update_version : Z;
  slots_processing : Z;
  slots_total : Z;
  state_application_status_code : Z;
  tokens_per_second : f64;
  uses_chat_template_override : bool;
}.

Definition put_agent_message_tx (x : chan AgentMessage) (a : AgentController)
    : AgentController :=
  Build_AgentController x (chat_template_override_sender_collection a) (connection_close a)
    (desired_slots_total a) (download_current a) (download_filename a)
    (download_indeterminate a) (download_total a) (embedding_sender_collection a)
    (generate_tokens_sender_collection a) (id a) (issues a) (model_metadata_sender_collection a)
    (model_path a) (name a) (newest_update_version a) (slots_processing a) (slots_total a)
    (state_application_status_code a) (tokens_per_second a) (uses_chat_template_override a).
Definition put_chat_template_override_sender_collection (x : SenderCollection chan (option ChatTemplate)) (a : AgentController)
    : AgentController :=
  Build_AgentController (agent_message_tx a) x (connection_close a) (desired_slots_total a)
    (download_current a) (download_filename a) (download_indeterminate a) (download_total a)
    (embedding_sender_collection a) (generate_tokens_sender_collection a) (id a) (issues a)
    (model_metadata_sender_collection a) (model_path a) (name a) (newest_update_version a)
    (slots_processing a) (slots_total a) (state_application_status_code a) (tokens_per_second a)
    (uses_chat_template_override a).
Definition put_desired_slots_total (x : Z) (a : AgentController)
    : AgentController :=
  Build_AgentController (agent_message_tx a) (chat_template_override_sender_collection a)
    (connection_close a) x (download_current a) (download_filename a) (download_indeterminate a)
    (download_total a) (embedding_sender_collection a) (generate_tokens_sender_collection a)
    (id a) (issues a) (model_metadata_sender_collection a) (model_path a) (name a)
    (newest_update_version a) (slots_processing a) (slots_total a)
    (state_application_status_code a) (tokens_per_second a) (uses_chat_template_override a).
Definition put_download_current (x : Z) (a : AgentController)
    : AgentController :=
  Build_AgentController (agent_message_tx a) (chat_template_override_sender_collection a)
    (connection_close a) (desired_slots_total a) x (download_filename a)
    (download_indeterminate a) (download_total a) (embedding_sender_collection a)
    (generate_tokens_sender_collection a) (id a) (issues a) (model_metadata_sender_collection a)
    (model_path a) (name a) (newest_update_version a) (slots_processing a) (slots_total a)
    (state_application_status_code a) (tokens_per_second a) (uses_chat_template_override a).
Definition put_download_filename (x : option string) (a : AgentController)
    : AgentController :=
  Build_AgentController (agent_message_tx a) (chat_template_override_sender_collection a)
    (connection_close a) (desired_slots_total a) (download_current a) x
    (download_indeterminate a) (download_total a) (embedding_sender_collection a)
    (generate_tokens_sender_collection a) (id a) (issues a) (model_metadata_sender_collection a)
    (model_path a) (name a) (newest_update_version a) (slots_processing a) (slots_total a)
    (state_application_status_code a) (tokens_per_second a) (uses_chat_template_override a).
Definition put_download_indeterminate (x : bool) (a : AgentController)
    : AgentController :=
  Build_AgentController (agent_message_tx a) (chat_template_override_sender_collection a)
    (connection_close a) (desired_slots_total a) (download_current a) (download_filename a) x
    (download_total a) (embedding_sender_collection a) (generate_tokens_sender_collection a)
    (id a) (issues a) (model_metadata_sender_collection a) (model_path a) (name a)
    (newest_update_version a) (slots_processing a) (slots_total a)
    (state_application_status_code a) (tokens_per_second a) (uses_chat_template_override a).
Definition put_download_total (x : Z) (a : AgentController)
    : AgentController :=
  Build_AgentController (agent_message_tx a) (chat_template_override_sender_collection a)
    (connection_close a) (desired_slots_total a) (download_current a) (download_filename a)
    (download_indeterminate a) x (embedding_sender_collection a)
    (generate_tokens_sender_collection a) (id a) (issues a) (model_metadata_sender_collection a)
    (model_path a) (name a) (newest_update_version a) (slots_processing a) (slots_total a)
    (state_application_status_code a) (tokens_per_second a) (uses_chat_template_override a).
Definition put_embedding_sender_collection (x : SenderCollection chan EmbeddingResult) (a : AgentController)
    : AgentController :=
  Build_AgentController (agent_message_tx a) (chat_template_override_sender_collection a)
    (connection_close a) (desired_slots_total a) (download_current a) (download_filename a)
    (download_indeterminate a) (download_total a) x (generate_tokens_sender_collection a) (id a)
    (issues a) (model_metadata_sender_collection a) (model_path a) (name a)
    (newest_update_version a) (slots_processing a) (slots_total a)
    (state_application_status_code a) (tokens_per_second a) (uses_chat_template_override a).
Definition put_generate_tokens_sender_collection (x : SenderCollection chan GeneratedTokenResult) (a : AgentController)
    : AgentController :=
  Build_AgentController (agent_message_tx a) (chat_template_override_sender_collection a)
    (connection_close a) (desired_slots_total a) (download_current a) (download_filename a)
    (download_indeterminate a) (download_total a) (embedding_sender_collection a) x (id a)
    (issues a) (model_metadata_sender_collection a) (model_path a) (name a)
    (newest_update_version a) (slots_processing a) (slots_total a)
    (state_application_status_code a) (tokens_per_second a) (uses_chat_template_override a).
Definition put_issues (x : gset AgentIssue) (a : AgentController)
    : AgentController :=
  Build_AgentController (agent_message_tx a) (chat_template_override_sender_collection a)
    (connection_close a) (desired_slots_total a) (download_current a) (download_filename a)
    (download_indeterminate a) (download_total a) (embedding_sender_collection a)
    (generate_tokens_sender_collection a) (id a) x (model_metadata_sender_collection a)
    (model_path a) (name a) (newest_update_version a) (slots_processing a) (slots_total a)
    (state_application_status_code a) (tokens_per_second a) (uses_chat_template_override a).
Definition put_model_metadata_sender_collection (x : SenderCollection chan (option ModelMetadata)) (a : AgentController)
    : AgentController :=
  Build_AgentController (agent_message_tx a) (chat_template_override_sender_collection a)
    (connection_close a) (desired_slots_total a) (download_current a) (download_filename a)
    (download_indeterminate a) (download_total a) (embedding_sender_collection a)
    (generate_tokens_sender_collection a) (id a) (issues a) x (model_path a) (name a)
    (newest_update_version a) (slots_processing a) (slots_total a)
    (state_application_status_code a) (tokens_per_second a) (uses_chat_template_override a).
Definition put_model_path (x : option string) (a : AgentController)
    : AgentController :=
  Build_AgentController (agent_message_tx a) (chat_template_override_sender_collection a)
    (connection_close a) (desired_slots_total a) (download_current a) (download_filename a)
    (download_indeterminate a) (download_total a) (embedding_sender_collection a)
    (generate_tokens_sender_collection a) (id a) (issues a) (model_metadata_sender_collection a)
    x (name a) (newest_update_version a) (slots_processing a) (slots_total a)
    (state_application_status_code a) (tokens_per_second a) (uses_chat_template_override a).
Definition put_newest_update_version (x : Z) (a : AgentController)
    : AgentController :=
  Build_AgentController (agent_message_tx a) (chat_template_override_sender_collection a)
    (connection_close a) (desired_slots_total a) (download_current a) (download_filename a)
    (download_indeterminate a) (download_total a) (embedding_sender_collection a)
    (generate_tokens_sender_collection a) (id a) (issues a) (model_metadata_sender_collection a)
    (model_path a) (name a) x (slots_processing a) (slots_total a)
    (state_application_status_code a) (tokens_per_second a) (uses_chat_template_override a).
Definition put_slots_processing (x : Z) (a : AgentController)
    : AgentController :=
  Build_AgentController (agent_message_tx a) (chat_template_override_sender_collection a)
    (connection_close a) (desired_slots_total a) (download_current a) (download_filename a)
    (download_indeterminate a) (download_total a) (embedding_sender_collection a)
    (generate_tokens_sender_collection a) (id a) (issues a) (model_metadata_sender_collection a)
    (model_path a) (name a) (newest_update_version a) x (slots_total a)
    (state_application_status_code a) (tokens_per_second a) (uses_chat_template_override a).
Definition put_slots_total (x : Z) (a : AgentController)
    : AgentController :=
  Build_AgentController (agent_message_tx a) (chat_template_override_sender_collection a)
    (connection_close a) (desired_slots_total a) (download_current a) (download_filename a)
    (download_indeterminate a) (download_total a) (embedding_sender_collection a)
    (generate_tokens_sender_collection a) (id a) (issues a) (model_metadata_sender_collection a)
    (model_path a) (name a) (newest_update_version a) (slots_processing a) x
    (state_application_status_code a) (tokens_per_second a) (uses_chat_template_override a).
Definition put_state_application_status_code (x : Z) (a : AgentController)
    : AgentController :=
  Build_AgentController (agent_message_tx a) (chat_template_override_sender_collection a)
    (connection_close a) (desired_slots_total a) (download_current a) (download_filename a)
    (download_indeterminate a) (download_total a) (embedding_sender_collection a)
    (generate_tokens_sender_collection a) (id a) (issues a) (model_metadata_sender_collection a)
    (model_path a) (name a) (newest_update_version a) (slots_processing a) (slots_total a) x
    (tokens_per_second a) (uses_chat_template_override a).
Definition put_tokens_per_second (x : f64) (a : AgentController)
    : AgentController :=
  Build_AgentController (agent_message_tx a) (chat_template_override_sender_collection a)
    (connection_close a) (desired_slots_total a) (download_current a) (download_filename a)
    (download_indeterminate a) (download_total a) (embedding_sender_collection a)
    (generate_tokens_sender_collection a) (id a) (issues a) (model_metadata_sender_collection a)
    (model_path a) (name a) (newest_update_version a) (slots_processing a) (slots_total a)
    (state_application_status_code a) x (uses_chat_template_override a).
Definition put_uses_chat_template_override (x : bool) (a : AgentController)
    : AgentController :=
  Build_AgentController (agent_message_tx a) (chat_template_override_sender_collection a)
    (connection_close a) (desired_slots_total a) (download_current a) (download_filename a)
    (download_indeterminate a) (download_total a) (embedding_sender_collection a)
    (generate_tokens_sender_collection a) (id a) (issues a) (model_metadata_sender_collection a)
    (model_path a) (name a) (newest_update_version a) (slots_processing a) (slots_total a)
    (state_application_status_code a) (tokens_per_second a) x.

(** ** Sending *)

(** [agent_message_tx.send(message)?] *)
Definition send_rpc_message (message : AgentMessage) (a : AgentController)
    : result AgentController string :=
  match chan_send (agent_message_tx a) message with
  | Some tx => Ok (put_agent_message_tx tx a)
  | None => Err "channel closed"%string
  end.

Definition stop_responding_to (request_id : string) (a : AgentController)
    : result AgentController string :=
  send_rpc_message (AgentMessageNotification (StopRespondingTo request_id)) a.

Definition set_desired_state (desired_state : AgentDesiredState) (a : AgentController)
    : result AgentController string :=
  send_rpc_message (AgentMessageNotification (SetState desired_state)) a.

(** ** Requests

    A collection of a controller, as a pair of its reading and its writing:
    the [Arc] the source clones. *)

Record CollectionOf (V : Type) : Type := {
  read_collection : AgentController -> SenderCollection chan V;
  put_collection : SenderCollection chan V -> AgentController -> AgentController;
}.
Arguments read_collection {V} _ _.
Arguments put_collection {V} _ _ _.

Definition generate_tokens_collection : CollectionOf GeneratedTokenResult :=
  {| read_collection := generate_tokens_sender_collection;
     put_collection := put_generate_tokens_sender_collection |}.
Definition embedding_collection : CollectionOf EmbeddingResult :=
  {| read_collection := embedding_sender_collection;
     put_collection := put_embedding_sender_collection |}.
Definition chat_template_override_collection : CollectionOf (option ChatTemplate) :=
  {| read_collection := chat_template_override_sender_collection;
     put_collection := put_chat_template_override_sender_collection |}.
Definition model_metadata_collection : CollectionOf (option ModelMetadata) :=
  {| read_collection := model_metadata_sender_collection;
     put_collection := put_model_metadata_sender_collection |}.

(** Register first, then send; when sending fails the new controller is
    dropped, which deregisters it. *)
Definition receiver_from_message {V : Type} (request_id : string) (collection : CollectionOf V)
    (message : AgentMessage) (a : AgentController)
    : AgentController * result ManagesSendersController string :=
  match from_request_id request_id (read_collection collection a) with
  | Err e => (a, Err e)
  | Ok (s, controller) =>
      let a1 := put_collection collection s a in
      match send_rpc_message message a1 with
      | Ok a2 => (a2, Ok controller)
      | Err e =>
          (put_collection collection (drop_controller controller (read_collection collection a1)) a1,
           Err e)
      end
  end.

(** Send first, then register; [request_id] is the fresh [nanoid!()].  The
    two halves are separate because the agent may answer in between. *)
Definition oneshot_send (request_id : string) (request_ : AgentRequest) (a : AgentController)
    : result AgentController string :=
  send_rpc_message (AgentMessageRequest {| request_envelope_id := request_id;
                                           request := request_ |}) a.

Definition oneshot_register {V : Type} (request_id : string) (collection : CollectionOf V)
    (a : AgentController) : AgentController * result ManagesSendersController string :=
  match from_request_id request_id (read_collection collection a) with
  | Ok (s, controller) => (put_collection collection s a, Ok controller)
  | Err e => (a, Err e)
  end.

Definition get_oneshot_response {V : Type} (request_id : string) (request_ : AgentRequest)
    (collection : CollectionOf V) (a : AgentController)
    : AgentController * result ManagesSendersController string :=
  match oneshot_send request_id request_ a with
  | Ok a1 => oneshot_register request_id collection a1
  | Err e => (a, Err e)
  end.

Definition get_chat_template_override (request_id : string) (a : AgentController)
    : AgentController * result ManagesSendersController string :=
  get_oneshot_response request_id RequestGetChatTemplateOverride
    chat_template_override_collection a.

Definition get_model_metadata (request_id : string) (a : AgentController)
    : AgentController * result ManagesSendersController string :=
  get_oneshot_response request_id RequestGetModelMetadata model_metadata_collection a.

(** [HandlesAgentStreamingResponse], one collection per kind of parameters. *)
Definition handle_streaming_response {Params V : Type} `{!IntoAgentRequest Params}
    (collection : CollectionOf V) (request_id : string) (params : Params) (a : AgentController)
    : AgentController * result ManagesSendersController string :=
  receiver_from_message request_id collection
    (AgentMessageRequest {| request_envelope_id := request_id; request := into_request params |}) a.

(** ** Status updates *)

(** [0.01f64] *)
Definition RATE_TOLERANCE : f64 := S754_finite false 5764607523034235 (-59).

(** The status fields set with [set_check], one after the other: whether any
    changed, and the controller. *)
Definition set_checked_fields (snapshot : Snapshot.SlotAggregatedStatusSnapshot)
    (a : AgentController) : bool * AgentController :=
  let '(c1, v1) := set_check (desired_slots_total a) (Snapshot.desired_slots_total snapshot) in
  let a := put_desired_slots_total v1 a in
  let '(c2, v2) := set_check (download_current a) (Snapshot.download_current snapshot) in
  let a := put_download_current v2 a in
  let '(c3, v3) := set_check (download_indeterminate a)
                     (Snapshot.download_indeterminate snapshot) in
  let a := put_download_indeterminate v3 a in
  let '(c4, v4) := set_check (download_total a) (Snapshot.download_total snapshot) in
  let a := put_download_total v4 a in
  let '(c5, v5) := set_check (slots_total a) (Snapshot.slots_total snapshot) in
  let a := put_slots_total v5 a in
  let '(c6, v6) := set_check (state_application_status_code a)
                     (status_code (Snapshot.state_application_status snapshot)) in
  let a := put_state_application_status_code v6 a in
  let '(c7, v7) := set_check (uses_chat_template_override a)
                     (Snapshot.uses_chat_template_override snapshot) in
  let a := put_uses_chat_template_override v7 a in
  (c1 || c2 || c3 || c4 || c5 || c6 || c7, a).

(** The fields behind a lock, compared and stored one after the other. *)
Definition set_locked_fields (snapshot : Snapshot.SlotAggregatedStatusSnapshot)
    (changed : bool) (a : AgentController) : bool * AgentController :=
  let '(changed, a) :=
    if decide (Snapshot.download_filename snapshot = download_filename a) then (changed, a)
    else (true, put_download_filename (Snapshot.download_filename snapshot) a) in
  let '(changed, a) :=
    if decide (Snapshot.issues snapshot = issues a) then (changed, a)
    else (true, put_issues (Snapshot.issues snapshot) a) in
  let '(changed, a) :=
    if decide (Snapshot.model_path snapshot = model_path a) then (changed, a)
    else (true, put_model_path (Snapshot.model_path snapshot) a) in
  if f64_gtb (f64_abs (f64_sub (Snapshot.tokens_per_second snapshot) (tokens_per_second a)))
       RATE_TOLERANCE
  then (true, put_tokens_per_second (Snapshot.tokens_per_second snapshot) a)
  else (changed, a).

Definition update_from_slot_aggregated_status_snapshot
    (snapshot : Snapshot.SlotAggregatedStatusSnapshot) (a : AgentController)
    : AgentController * AgentControllerUpdateResult :=
  let newest := newest_update_version a in
  if Snapshot.version snapshot <? newest then (a, NoMeaningfulChanges)
  else
    let '(changed, a) := set_checked_fields snapshot a in
    let '(_, newest') :=
      compare_and_swap (newest_update_version a) newest (Snapshot.version snapshot) in
    let a := put_newest_update_version newest' a in
    let '(changed, a) := set_locked_fields snapshot changed a in
    (a, if changed then Updated else NoMeaningfulChanges).

(** ** Snapshots *)

Definition controller_make_snapshot (a : AgentController)
    : result ControllerSnapshot.AgentControllerSnapshot string :=
  let? status := status_try_from (state_application_status_code a) in
  Ok {| ControllerSnapshot.desired_slots_total := desired_slots_total a;
        ControllerSnapshot.download_current := download_current a;
        ControllerSnapshot.download_filename := download_filename a;
        ControllerSnapshot.download_indeterminate := download_indeterminate a;
        ControllerSnapshot.download_total := download_total a;
        ControllerSnapshot.id := id a;
        ControllerSnapshot.issues := issues a;
        ControllerSnapshot.model_path := model_path a;
        ControllerSnapshot.name := name a;
        ControllerSnapshot.slots_processing := slots_processing a;
        ControllerSnapshot.slots_total := slots_total a;
        ControllerSnapshot.state_application_status := status;
        ControllerSnapshot.tokens_per_second := tokens_per_second a;
        ControllerSnapshot.uses_chat_template_override := uses_chat_template_override a |}.

(** ** Facts: status updates *)

(** What a controller mirrors of a status, but the rate. *)
Definition mirrored (a : AgentController) :=
  (desired_slots_total a, download_current a, download_filename a, download_indeterminate a,
   download_total a, issues a, model_path a, slots_total a,
   state_application_status_code a, uses_chat_template_override a).

Definition mirrored_snapshot (s : Snapshot.SlotAggregatedStatusSnapshot) :=
  (Snapshot.desired_slots_total s, Snapshot.download_current s, Snapshot.download_filename s,
   Snapshot.download_indeterminate s, Snapshot.download_total s, Snapshot.issues s,
   Snapshot.model_path s, Snapshot.slots_total s,
   status_code (Snapshot.state_application_status s), Snapshot.uses_chat_template_override s).

Definition rate_close (x y : f64) : Prop := f64_gtb (f64_abs (f64_sub x y)) RATE_TOLERANCE = false.

Lemma set_check_spec {A : Type} `{EqDecision A} (x y : A) :
  set_check x y = (negb (bool_decide (x = y)), y).
Proof. unfold set_check. by case_decide as E; [subst; rewrite bool_decide_true | rewrite bool_decide_false]. Qed.

Lemma update_stale (s : Snapshot.SlotAggregatedStatusSnapshot) (a : AgentController) :
  Snapshot.version s < newest_update_version a ->
  update_from_slot_aggregated_status_snapshot s a = (a, NoMeaningfulChanges).
Proof.
  intros Hs. unfold update_from_slot_aggregated_status_snapshot.
  by rewrite (proj2 (Z.ltb_lt _ _) Hs).
Qed.

(** The state after an update that is not stale, written out. *)
Definition updated_controller (s : Snapshot.SlotAggregatedStatusSnapshot) (a : AgentController)
    : AgentController :=
  Build_AgentController (agent_message_tx a) (chat_template_override_sender_collection a)
    (connection_close a) (Snapshot.desired_slots_total s) (Snapshot.download_current s)
    (Snapshot.download_filename s) (Snapshot.download_indeterminate s)
    (Snapshot.download_total s) (embedding_sender_collection a)
    (generate_tokens_sender_collection a) (id a) (Snapshot.issues s)
    (model_metadata_sender_collection a) (Snapshot.model_path s) (name a) (Snapshot.version s)
    (slots_processing a) (Snapshot.slots_total s)
    (status_code (Snapshot.state_application_status s))
    (if f64_gtb (f64_abs (f64_sub (Snapshot.tokens_per_second s) (tokens_per_second a)))
          RATE_TOLERANCE
     then Snapshot.tokens_per_second s else tokens_per_second a)
    (Snapshot.uses_chat_template_override s).

(** The checked fields of a controller agree with a snapshot. *)
Definition checked_fields_agree (s : Snapshot.SlotAggregatedStatusSnapshot)
    (a : AgentController) : Prop :=
  desired_slots_total a = Snapshot.desired_slots_total s /\
  download_current a = Snapshot.download_current s /\
  download_indeterminate a = Snapshot.download_indeterminate s /\
  download_total a = Snapshot.download_total s /\
  slots_total a = Snapshot.slots_total s /\
  state_application_status_code a = status_code (Snapshot.state_application_status s) /\
  uses_chat_template_override a = Snapshot.uses_chat_template_override s.

#[local] Instance checked_fields_agree_dec s a : Decision (checked_fields_agree s a).
Proof. unfold checked_fields_agree. apply _. Defined.

Lemma set_checked_fields_spec (s : Snapshot.SlotAggregatedStatusSnapshot) (a : AgentController) :
  set_checked_fields s a
  = (negb (bool_decide (checked_fields_agree s a)),
     Build_AgentController (agent_message_tx a) (chat_template_override_sender_collection a)
       (connection_close a) (Snapshot.desired_slots_total s) (Snapshot.download_current s)
       (download_filename a) (Snapshot.download_indeterminate s)
       (Snapshot.download_total s) (embedding_sender_collection a)
       (generate_tokens_sender_collection a) (id a) (issues a)
       (model_metadata_sender_collection a) (model_path a) (name a) (newest_update_version a)
       (slots_processing a) (Snapshot.slots_total s)
       (status_code (Snapshot.state_application_status s)) (tokens_per_second a)
       (Snapshot.uses_chat_template_override s)).
Proof.
  unfold set_checked_fields, checked_fields_agree_dec, checked_fields_agree.
  rewrite !set_check_spec. simpl. f_equal.
  rewrite !bool_decide_and, !negb_andb, !orb_assoc. done.
Qed.

Lemma update_fresh (s : Snapshot.SlotAggregatedStatusSnapshot) (a : AgentController) :
  newest_update_version a <= Snapshot.version s ->
  fst (update_from_slot_aggregated_status_snapshot s a) = updated_controller s a /\
  (snd (update_from_slot_aggregated_status_snapshot s a) = NoMeaningfulChanges <->
   mirrored a = mirrored_snapshot s /\
   rate_close (Snapshot.tokens_per_second s) (tokens_per_second a)).
Proof.
  intros Hv. unfold update_from_slot_aggregated_status_snapshot.
  rewrite (proj2 (Z.ltb_ge _ _) Hv).
  rewrite set_checked_fields_spec. simpl. rewrite compare_and_swap_same.
  unfold set_locked_fields. simpl.
  unfold updated_controller, mirrored, mirrored_snapshot, rate_close.
  split.
  - repeat case_decide; simpl; destruct (f64_gtb _ _); simpl; destruct a; simpl in *; subst; reflexivity.
  - destruct a; simpl in *. repeat case_decide; simpl in *; destruct (f64_gtb _ _) eqn:Hr; simpl;
      try (split; [done | intros [E ?]; simplify_eq; congruence]).
    case_bool_decide as E; simpl; unfold checked_fields_agree in E; simpl in E;
      (split; [|try done]); try done.
    + intros _. split; [|done]. destruct E as (-> & -> & -> & -> & -> & -> & ->). congruence.
    + intros [Em _]. exfalso. apply E. by simplify_eq.
Qed.

Lemma rate_close_refl (x : f64) : rate_close x x.
Proof.
  unfold rate_close, f64_gtb, f64_abs, f64_sub, RATE_TOLERANCE.
  destruct x as [[]|[]| |sign m e]; try reflexivity.
  unfold SFsub. by rewrite Z.sub_diag.
Qed.

Lemma updated_rate_close (s : Snapshot.SlotAggregatedStatusSnapshot) (a : AgentController) :
  rate_close (Snapshot.tokens_per_second s) (tokens_per_second (updated_controller s a)).
Proof. unfold updated_controller. simpl. case_match; [apply rate_close_refl | done]. Qed.

(** A status update mirrors the agent: a snapshot older than the newest
    one changes nothing; any other one is copied into the controller field by
    field (the rate only when it moved by more than 0.01), leaves the slot
    count of the balancer and the requests in flight alone, reports a change
    exactly when there was one, and applying it again reports none. *)
Theorem update_mirrors_agent (s : Snapshot.SlotAggregatedStatusSnapshot) (a : AgentController) :
  let '(a', changed) := update_from_slot_aggregated_status_snapshot s a in
  if Snapshot.version s <? newest_update_version a
  then a' = a /\ changed = NoMeaningfulChanges
  else
    mirrored a' = mirrored_snapshot s /\
    rate_close (Snapshot.tokens_per_second s) (tokens_per_second a') /\
    newest_update_version a' = Snapshot.version s /\
    slots_processing a' = slots_processing a /\
    generate_tokens_sender_collection a' = generate_tokens_sender_collection a /\
    embedding_sender_collection a' = embedding_sender_collection a /\
    (changed = NoMeaningfulChanges <->
     mirrored a = mirrored_snapshot s /\
     rate_close (Snapshot.tokens_per_second s) (tokens_per_second a)) /\
    update_from_slot_aggregated_status_snapshot s a' = (a', NoMeaningfulChanges).
Proof.
  destruct (Z.ltb_spec (Snapshot.version s) (newest_update_version a)) as [Hv|Hv].
  { by rewrite update_stale. }
  destruct (update_fresh s a Hv) as [Ha Hc].
  destruct (update_from_slot_aggregated_status_snapshot s a) as [a' changed]. simpl in Ha, Hc.
  pose proof (updated_rate_close s a) as Hclose. rewrite <- Ha in Hclose.
  assert (Hm : mirrored a' = mirrored_snapshot s) by by rewrite Ha.
  assert (Hn : newest_update_version a' = Snapshot.version s) by by rewrite Ha.
  destruct (update_fresh s a') as [Ha' Hc']; [rewrite Hn; lia|].
  split_and!; try done; try by rewrite Ha.
  rewrite (surjective_pairing (update_from_slot_aggregated_status_snapshot s a')).
  f_equal; [|by apply Hc'].
  rewrite Ha'. unfold updated_controller. unfold rate_close in Hclose. rewrite Hclose.
  subst a'. reflexivity.
Qed.

(** A controller whose status code is valid makes a snapshot, and an update
    always leaves it valid. *)
Lemma controller_make_snapshot_ok (a : AgentController) :
  is_ok (controller_make_snapshot a) = is_ok (status_try_from (state_application_status_code a)).
Proof. unfold controller_make_snapshot. by destruct (status_try_from _). Qed.

Lemma update_keeps_snapshot_ok (s : Snapshot.SlotAggregatedStatusSnapshot) (a : AgentController) :
  is_ok (controller_make_snapshot a) = true ->
  is_ok (controller_make_snapshot (fst (update_from_slot_aggregated_status_snapshot s a))) = true.
Proof.
  intros Hok. destruct (Z.ltb_spec (Snapshot.version s) (newest_update_version a)) as [Hv|Hv].
  - by rewrite update_stale.
  - rewrite (proj1 (update_fresh s a Hv)), controller_make_snapshot_ok. simpl.
    by destruct (Snapshot.state_application_status s).
Qed.

(** ** Facts: requests *)

(** The laws of reading and writing a collection, and that they leave the
    outgoing channel alone. *)
Class CollectionLaws {V : Type} (c : CollectionOf V) : Prop := {
  read_put s a : read_collection c (put_collection c s a) = s;
  put_tx s a : agent_message_tx (put_collection c s a) = agent_message_tx a;
  read_send tx a : read_collection c (put_agent_message_tx tx a) = read_collection c a;
}.
#[local] Ltac solve_collection := constructor; reflexivity.
#[global] Instance generate_tokens_collection_laws : CollectionLaws generate_tokens_collection.
Proof. solve_collection. Qed.
#[global] Instance embedding_collection_laws : CollectionLaws embedding_collection.
Proof. solve_collection. Qed.
#[global] Instance chat_template_override_collection_laws :
  CollectionLaws chat_template_override_collection.
Proof. solve_collection. Qed.
#[global] Instance model_metadata_collection_laws : CollectionLaws model_metadata_collection.
Proof. solve_collection. Qed.

Lemma send_rpc_message_ok (message : AgentMessage) (a : AgentController) :
  match send_rpc_message message a with
  | Ok a' => exists tx, a' = put_agent_message_tx tx a /\
               chan_pending tx = chan_pending (agent_message_tx a) ++ [message]
  | Err _ => chan_receiver_alive (agent_message_tx a) = false
  end.
Proof.
  unfold send_rpc_message. destruct (chan_send (agent_message_tx a) message) as [tx|] eqn:E.
  - apply chan_send_some in E as [E _]. eauto.
  - by apply chan_send_none in E.
Qed.

(** Registering opens a channel whose receiver is alive and which is empty. *)
Lemma from_request_id_pending {V : Type} (id_ : string) (s s' : SenderCollection chan V)
    (c : ManagesSendersController) :
  from_request_id id_ s = Ok (s', c) ->
  exists ch, senders s' !! id_ = Some (response_rx c) /\
    channels s' !! response_rx c = Some ch /\
    chan_receiver_alive ch = true /\ pending_responses c s' = [].
Proof.
  intros H1. apply from_request_id_ok in H1 as (_ & -> & ->). simpl.
  exists chan_new. unfold pending_responses. simpl. rewrite !lookup_insert_eq.
  split_and!; [done|done|apply chan_new_alive|apply chan_new_pending].
Qed.

(** A request to an agent is registered before it is sent: when it is
    accepted, its message is the last one on the way to the agent and a
    response that comes back at any moment after that reaches the waiting
    request; when the agent is gone, nothing stays registered. *)
Theorem receiver_from_message_registers_first {V : Type} (c : CollectionOf V)
    `{!CollectionLaws c} (request_id : string) (message : AgentMessage) (a : AgentController) :
  let '(a', r) := receiver_from_message request_id c message a in
  match r with
  | Ok controller =>
      chan_pending (agent_message_tx a')
      = chan_pending (agent_message_tx a) ++ [message] /\
      forall v, exists s', forward_response request_id v (read_collection c a') = Ok s' /\
        pending_responses controller s' = [v]
  | Err _ =>
      agent_message_tx a' = agent_message_tx a /\
      senders (read_collection c a') = senders (read_collection c a)
  end.
Proof.
  unfold receiver_from_message.
  destruct (from_request_id request_id (read_collection c a)) as [[s k]|e] eqn:Hreg; [|by split].
  pose proof (send_rpc_message_ok message (put_collection c s a)) as Hsend.
  destruct (send_rpc_message message (put_collection c s a)) as [a2|e].
  - destruct Hsend as (tx & -> & Hp). rewrite put_tx in Hp. split; [done|].
    intros v. rewrite read_send, read_put.
    destruct (from_request_id_pending _ _ _ _ Hreg) as (ch & Hid & Hch & Hal & Hpend).
    destruct (forward_response_ok request_id v s _ _ Hid Hch Hal) as (ch' & Hs & ->).
    eexists. split; [done|]. unfold pending_responses in *. simpl.
    rewrite lookup_insert_eq. rewrite Hch in Hpend. apply chan_send_some in Hs as [-> _].
    by rewrite Hpend.
  - rewrite !put_tx, !read_put. split; [done|].
    apply from_request_id_ok in Hreg as (Hnone & -> & ->).
    unfold drop_controller, deregister_sender. simpl. rewrite lookup_insert_eq. simpl.
    by rewrite delete_insert_id.
Qed.

(** A one-shot question is sent before it is registered: an answer that
    arrives in between is refused, and the question then waits on an empty
    channel that nobody fills. *)
Theorem oneshot_answer_can_be_lost {V : Type} (c : CollectionOf V) `{!CollectionLaws c}
    (request_id : string) (q : AgentRequest) (v : V) (a a1 : AgentController)
    (Hfresh : senders (read_collection c a) !! request_id = None)
    (Hsent : oneshot_send request_id q a = Ok a1) :
  is_ok (forward_response request_id v (read_collection c a1)) = false /\
  forward_response_safe request_id v (read_collection c a1) = read_collection c a1 /\
  exists a2 k, oneshot_register request_id c a1 = (a2, Ok k) /\
    pending_responses k (read_collection c a2) = [].
Proof.
  unfold oneshot_send in Hsent. pose proof (send_rpc_message_ok
    (AgentMessageRequest {| request_envelope_id := request_id; request := q |}) a) as Hs.
  rewrite Hsent in Hs. destruct Hs as (tx & -> & _). rewrite read_send.
  unfold forward_response_safe, forward_response. rewrite Hfresh.
  split; [done|]. split; [done|].
  unfold oneshot_register. rewrite read_send.
  destruct (from_request_id request_id (read_collection c a)) as [[s k]|e] eqn:Hreg.
  - destruct (from_request_id_pending _ _ _ _ Hreg) as (_ & _ & _ & _ & Hp).
    eexists _, k. split; [done|]. by rewrite read_put.
  - exfalso. unfold from_request_id, register_sender in Hreg. simpl in Hreg.
    by rewrite Hfresh in Hreg.
Qed.

End Controller.
Arguments AgentController {_ _} chan token.
End Controller.

(** ** A concrete controller *)

Definition sample_controller : Controller.AgentController QueueChannel nat :=
  {| Controller.agent_message_tx := chan_new;
     Controller.chat_template_override_sender_collection := empty_collection;
     Controller.connection_close := 0%nat;
     Controller.desired_slots_total := 0;
     Controller.download_current := 0;
     Controller.download_filename := None;
     Controller.download_indeterminate := true;
     Controller.download_total := 0;
     Controller.embedding_sender_collection := empty_collection;
     Controller.generate_tokens_sender_collection := empty_collection;
     Controller.id := "agent-test";
     Controller.issues := ∅;
     Controller.model_metadata_sender_collection := empty_collection;
     Controller.model_path := None;
     Controller.name := None;
     Controller.newest_update_version := 0;
     Controller.slots_processing := 0;
     Controller.slots_total := 0;
     Controller.state_application_status_code := status_code Fresh;
     Controller.tokens_per_second := f64_zero;
     Controller.uses_chat_template_override := false |}.

Lemma oneshot_answer_can_be_lost_witness :
  exists a1, Controller.oneshot_send "q" RequestGetModelMetadata sample_controller = Ok a1 /\
    is_ok (forward_response "q" None
             (Controller.model_metadata_sender_collection a1)) = false.
Proof.
  eexists. split; [reflexivity|].
  exact (proj1 (Controller.oneshot_answer_can_be_lost Controller.model_metadata_collection "q"
    RequestGetModelMetadata None sample_controller _ eq_refl eq_refl)).
Defined.

(** A question for the model's metadata reaches an agent that is there, and
    its answer finds the request. *)
Lemma receiver_from_message_registers_first_witness :
  exists a1 k,
    Controller.receiver_from_message "q" Controller.model_metadata_collection
      (AgentMessageRequest {| request_envelope_id := "q"; request := RequestGetModelMetadata |})
      sample_controller = (a1, Ok k) /\
    exists s', forward_response "q" None (Controller.model_metadata_sender_collection a1) = Ok s' /\
      pending_responses k s' = [None].
Proof.
  pose proof (Controller.receiver_from_message_registers_first
    Controller.model_metadata_collection "q"
    (AgentMessageRequest {| request_envelope_id := "q"; request := RequestGetModelMetadata |})
    sample_controller) as Hr.
  eexists _, _. split; [reflexivity|]. exact (proj2 Hr None).
Defined.
