(* ===== verification/AgentPool.v ===== *)
(** * The pool of agent controllers

    [agent_controller_pool.rs], [agent_controller_slot_guard.rs],
    [dispatch_candidate.rs] and [dispatched_agent.rs].  An [Arc] of a
    controller is a location of the heap [controllers]: the map of the pool
    and the guards of the requests in flight share it.  The [DashMap] visits
    its entries in an order of its own, the argument [iteration]. *)

From S2P Require Import Prelude Tokio Messages AtomicValue Requests Senders SlotStatus.
From S2P Require Import AgentController.
Import Controller.
Local Open Scope Z_scope.

Section AgentPool.
Context `{JsonTypes} `{LlamaTypes} {chan : Type -> Type} `{!UnboundedChannel chan} {token : Type}.
Context {sender receiver : Type} `{!WatchChannel sender receiver}.
Context (iteration : gmap string nat -> list (string * nat)).
Context (iteration_entries : forall m, iteration m ≡ₚ map_to_list m).

Local Abbreviation AgentController := (AgentController chan token).

(** ** State *)

Record AgentControllerPool : Type := {
  agents : gmap string nat;
  controllers : gmap nat AgentController;
  pool_update_tx : sender;
}.

Record DispatchCandidate : Type := { candidate_controller : nat; snapshot : Z }.
Record AgentControllerSlotGuard : Type := { guarded_controller : nat }.
Record DispatchedAgent : Type := {
  dispatched_controller : nat;
  slot_guard : AgentControllerSlotGuard;
}.
Record AgentControllerPoolTotalSlots : Type := {
  total_processing : Z;
  total_total : Z;
}.

Definition pool_default : AgentControllerPool :=
  {| agents := ∅; controllers := ∅; pool_update_tx := watch_new |}.

Definition store_controllers (h : gmap nat AgentController) (p : AgentControllerPool)
    : AgentControllerPool :=
  {| agents := agents p; controllers := h; pool_update_tx := pool_update_tx p |}.

Definition store_agents (m : gmap string nat) (p : AgentControllerPool) : AgentControllerPool :=
  {| agents := m; controllers := controllers p; pool_update_tx := pool_update_tx p |}.

(** ** Operations *)

(** [self.update_tx.send_replace(())] *)
Definition signal_update (p : AgentControllerPool) : AgentControllerPool :=
  {| agents := agents p; controllers := controllers p;
     pool_update_tx := watch_send_replace (pool_update_tx p) |}.

(** One turn of the loop over the agents. *)
Definition consider_agent (h : gmap nat AgentController) (best : option DispatchCandidate)
    (entry : string * nat) : option DispatchCandidate :=
  match h !! snd entry with
  | None => best
  | Some a =>
      let snap := slots_processing a in
      if slots_total a <=? snap then best
      else
        match best with
        | Some current =>
            if snapshot current <=? snap then best
            else Some {| candidate_controller := snd entry; snapshot := snap |}
        | None => Some {| candidate_controller := snd entry; snapshot := snap |}
        end
  end.

Definition select_least_busy_with_capacity (p : AgentControllerPool) : option DispatchCandidate :=
  fold_left (consider_agent (controllers p)) (iteration (agents p)) None.

Definition try_claim (candidate : DispatchCandidate) (p : AgentControllerPool)
    : AgentControllerPool * result DispatchedAgent DispatchCandidate :=
  match controllers p !! candidate_controller candidate with
  | None => (p, Err candidate)
  | Some a =>
      let '(swapped, slots) :=
        compare_and_swap (slots_processing a) (snapshot candidate)
          (wrap_i32 (snapshot candidate + 1)) in
      if swapped
      then
        (signal_update
           (store_controllers
              (<[candidate_controller candidate := put_slots_processing slots a]> (controllers p))
              p),
         Ok {| dispatched_controller := candidate_controller candidate;
               slot_guard := {| guarded_controller := candidate_controller candidate |} |})
      else (p, Err candidate)
  end.

(** The loop; [None] for no fuel left, [Some None] for the early return. *)
Fixpoint take_least_busy_agent_controller (fuel : nat) (p : AgentControllerPool)
    : AgentControllerPool * option (option DispatchedAgent) :=
  match fuel with
  | O => (p, None)
  | S fuel' =>
      match select_least_busy_with_capacity p with
      | None => (p, Some None)
      | Some candidate =>
          match try_claim candidate p with
          | (p', Ok dispatched) => (p', Some (Some dispatched))
          | (p', Err _) => take_least_busy_agent_controller fuel' p'
          end
      end
  end.

(** [Drop for AgentControllerSlotGuard] *)
Definition drop_slot_guard (g : AgentControllerSlotGuard) (p : AgentControllerPool)
    : AgentControllerPool :=
  signal_update
    (store_controllers
       (alter (fun a => put_slots_processing (i32_decrement (slots_processing a)) a)
          (guarded_controller g) (controllers p)) p).

Definition get_agent_controller (agent_id : string) (p : AgentControllerPool) : option nat :=
  agents p !! agent_id.

Definition register_agent_controller (agent_id : string) (loc : nat) (p : AgentControllerPool)
    : AgentControllerPool * result unit string :=
  let p1 := store_agents (<[agent_id := loc]> (agents p)) p in
  match agents p !! agent_id with
  | None => (signal_update p1, Ok tt)
  | Some _ => (p1, Err "AgentController already registered"%string)
  end.

Definition remove_agent_controller (agent_id : string) (p : AgentControllerPool)
    : AgentControllerPool * bool :=
  let p1 := store_agents (delete agent_id (agents p)) p in
  match agents p !! agent_id with
  | Some _ => (signal_update p1, true)
  | None => (p1, false)
  end.

Definition total_slots (p : AgentControllerPool) : AgentControllerPoolTotalSlots :=
  fold_left
    (fun t entry =>
       match controllers p !! snd entry with
       | None => t
       | Some a => {| total_processing := wrap_i32 (total_processing t + slots_processing a);
                      total_total := wrap_i32 (total_total t + slots_total a) |}
       end)
    (iteration (agents p)) {| total_processing := 0; total_total := 0 |}.

Fixpoint snapshot_entries (h : gmap nat AgentController) (entries : list (string * nat))
    : result (list ControllerSnapshot.AgentControllerSnapshot) string :=
  match entries with
  | [] => Ok []
  | entry :: rest =>
      match h !! snd entry with
      | None => snapshot_entries h rest
      | Some a =>
          let? snap := controller_make_snapshot a in
          let? snaps := snapshot_entries h rest in
          Ok (snap :: snaps)
      end
  end.

Definition pool_make_snapshot (p : AgentControllerPool)
    : result (list ControllerSnapshot.AgentControllerSnapshot) string :=
  snapshot_entries (controllers p) (iteration (agents p)).

(** The loop of [set_desired_state], which [?] leaves at the first agent that
    cannot be reached. *)
Fixpoint set_desired_state_entries (desired_state : AgentDesiredState)
    (entries : list (string * nat)) (h : gmap nat AgentController)
    : gmap nat AgentController * result unit string :=
  match entries with
  | [] => (h, Ok tt)
  | entry :: rest =>
      match h !! snd entry with
      | None => set_desired_state_entries desired_state rest h
      | Some a =>
          match Controller.set_desired_state desired_state a with
          | Ok a' => set_desired_state_entries desired_state rest (<[snd entry := a']> h)
          | Err e => (h, Err e)
          end
      end
  end.

Definition pool_set_desired_state (desired_state : AgentDesiredState) (p : AgentControllerPool)
    : AgentControllerPool * result unit string :=
  let '(h, r) :=
    set_desired_state_entries desired_state (iteration (agents p)) (controllers p) in
  (store_controllers h p, r).

(** ** Facts: selection *)

(** [loc] is an agent of the pool, with its controller. *)
Definition pool_agent (p : AgentControllerPool) (loc : nat) (a : AgentController) : Prop :=
  (exists agent_id, agents p !! agent_id = Some loc) /\ controllers p !! loc = Some a.

Definition has_capacity (a : AgentController) : Prop := slots_processing a < slots_total a.

Lemma iteration_agent (p : AgentControllerPool) (loc : nat) :
  (exists agent_id, (agent_id, loc) ∈ iteration (agents p)) <->
  exists agent_id, agents p !! agent_id = Some loc.
Proof.
  split; intros [agent_id Hin]; exists agent_id.
  - rewrite iteration_entries in Hin. by apply elem_of_map_to_list in Hin.
  - rewrite iteration_entries. by apply elem_of_map_to_list.
Qed.

(** What the best candidate is after some entries: the agent it names has
    capacity and the smallest load of those seen with capacity. *)
Definition best_of (h : gmap nat AgentController) (entries : list (string * nat))
    (best : option DispatchCandidate) : Prop :=
  match best with
  | None => forall e a, e ∈ entries -> h !! snd e = Some a -> ~ has_capacity a
  | Some c =>
      (exists e a, e ∈ entries /\ snd e = candidate_controller c /\
         h !! candidate_controller c = Some a /\ slots_processing a = snapshot c /\
         has_capacity a) /\
      forall e a, e ∈ entries -> h !! snd e = Some a -> has_capacity a ->
        snapshot c <= slots_processing a
  end.

Lemma consider_agent_best (h : gmap nat AgentController) (seen : list (string * nat))
    (best : option DispatchCandidate) (entry : string * nat) :
  best_of h seen best -> best_of h (seen ++ [entry]) (consider_agent h best entry).
Proof.
  intros Hbest. unfold consider_agent.
  assert (Hin : forall e, e ∈ seen ++ [entry] -> e ∈ seen \/ e = entry) by set_solver.
  destruct (h !! snd entry) as [a|] eqn:Ha; [destruct (Z.leb_spec (slots_total a) (slots_processing a)) as [Hle|Hlt]|].
  - destruct best as [c|]; simpl in *.
    + destruct Hbest as [(e & b & He & ?) Hmin]. split; [exists e, b; set_solver|].
      intros e' b' [He'| ->]%Hin Hb' Hcap; [by eapply Hmin|].
      unfold has_capacity in Hcap. simplify_eq. lia.
    + intros e b [He| ->]%Hin Hb Hcap; [by eapply Hbest|].
      unfold has_capacity in Hcap. simplify_eq. lia.
  - destruct best as [c|]; simpl in *; [destruct (Z.leb_spec (snapshot c) (slots_processing a))|].
    + destruct Hbest as [(e & b & He & ?) Hmin]. split; [exists e, b; set_solver|].
      intros e' b' [He'| ->]%Hin Hb' Hcap; [by eapply Hmin|]. by simplify_eq.
    + destruct Hbest as [_ Hmin]. split; [exists entry, a; set_solver|].
      intros e b [He| ->]%Hin Hb Hcap; simpl; [|by simplify_eq].
      specialize (Hmin e b He Hb Hcap). lia.
    + split; [exists entry, a; set_solver|].
      intros e b [He| ->]%Hin Hb Hcap; simpl; [|by simplify_eq].
      exfalso. by eapply Hbest.
  - destruct best as [c|]; simpl in *.
    + destruct Hbest as [(e & b & He & ?) Hmin]. split; [exists e, b; set_solver|].
      intros e' b' [He'| ->]%Hin Hb' Hcap; [by eapply Hmin|]. by simplify_eq.
    + intros e b [He| ->]%Hin Hb Hcap; [by eapply Hbest|]. by simplify_eq.
Qed.

Lemma fold_consider_best (h : gmap nat AgentController) (entries seen : list (string * nat))
    (best : option DispatchCandidate) :
  best_of h seen best -> best_of h (seen ++ entries) (fold_left (consider_agent h) entries best).
Proof.
  revert seen best. induction entries as [|e entries IH]; intros seen best Hb; simpl.
  - by rewrite app_nil_r.
  - replace (seen ++ e :: entries) with ((seen ++ [e]) ++ entries) by by rewrite <- app_assoc.
    apply IH. by apply consider_agent_best.
Qed.

Lemma select_best (p : AgentControllerPool) :
  match select_least_busy_with_capacity p with
  | None => forall loc a, pool_agent p loc a -> ~ has_capacity a
  | Some c =>
      (exists a, pool_agent p (candidate_controller c) a /\ slots_processing a = snapshot c /\
         has_capacity a) /\
      forall loc a, pool_agent p loc a -> has_capacity a -> snapshot c <= slots_processing a
  end.
Proof.
  assert (Hb : best_of (controllers p) (iteration (agents p)) (select_least_busy_with_capacity p)).
  { apply (fold_consider_best _ _ []). simpl. by intros e a He%elem_of_nil. }
  assert (Hpool : forall loc a, pool_agent p loc a ->
            exists e, e ∈ iteration (agents p) /\ snd e = loc /\ controllers p !! snd e = Some a).
  { intros loc a [Hin Ha]. apply iteration_agent in Hin as [agent_id Hin]. by exists (agent_id, loc). }
  destruct (select_least_busy_with_capacity p) as [c|]; simpl in Hb.
  - destruct Hb as [(e & a & He & Hloc & Ha & Hs & Hcap) Hmin]. split.
    + exists a. split_and!; [|done|done]. split; [|done]. apply iteration_agent.
      exists (fst e). rewrite <- Hloc. by destruct e.
    + intros loc b Hp Hc. destruct (Hpool _ _ Hp) as (e' & He' & _ & Hb'). by eapply Hmin.
  - intros loc a Hp. destruct (Hpool _ _ Hp) as (e & He & _ & Ha). by eapply Hb.
Qed.

(** Dispatching takes the least busy agent: with nobody interfering one
    turn of the loop is enough; it returns nothing, and changes nothing,
    exactly when no agent of the pool has a free slot; otherwise the agent it
    returns has a free slot and the smallest number of requests in progress
    among those that do, gets exactly one more, no other controller changes,
    and every subscriber of the pool is told. *)
Theorem take_least_busy_spec (fuel : nat) (p : AgentControllerPool)
    (Hwidth : forall loc a, controllers p !! loc = Some a ->
       in_i32 (slots_processing a) /\ in_i32 (slots_total a)) :
  let '(p', r) := take_least_busy_agent_controller (S fuel) p in
  match r with
  | None => False
  | Some None => p' = p /\ forall loc a, pool_agent p loc a -> ~ has_capacity a
  | Some (Some d) =>
      guarded_controller (slot_guard d) = dispatched_controller d /\
      exists a, pool_agent p (dispatched_controller d) a /\ has_capacity a /\
        (forall loc b, pool_agent p loc b -> has_capacity b ->
           slots_processing a <= slots_processing b) /\
        agents p' = agents p /\
        controllers p' = <[dispatched_controller d :=
                             put_slots_processing (slots_processing a + 1) a]> (controllers p) /\
        forall rx, watch_valid (pool_update_tx p) rx ->
          watch_has_changed (pool_update_tx p') rx = true
  end.
Proof.
  pose proof (select_best p) as Hsel. simpl.
  destruct (select_least_busy_with_capacity p) as [c|]; [|done].
  destruct Hsel as [(a & Ha & Hs & Hcap) Hmin]. unfold try_claim.
  rewrite (proj2 Ha), Hs, compare_and_swap_same. simpl.
  split; [done|]. exists a. split_and!; [done|done| |done| |].
  - intros loc b Hb Hcb. rewrite Hs. by eapply Hmin.
  - rewrite <- Hs, wrap_i32_id; [done|].
    destruct (Hwidth _ _ (proj2 Ha)) as [Hp Ht]. unfold has_capacity, in_i32 in *. lia.
  - intros rx. apply watch_send_changed.
Qed.

(** A registration that fails still replaces: the controller registered
    under an id is always the last one, an error is reported exactly when the
    id was taken, and only the first registration of an id is announced. *)
Theorem register_agent_controller_replaces (agent_id : string) (loc : nat)
    (p : AgentControllerPool) :
  let '(p', r) := register_agent_controller agent_id loc p in
  get_agent_controller agent_id p' = Some loc /\
  (forall other, other <> agent_id ->
     get_agent_controller other p' = get_agent_controller other p) /\
  controllers p' = controllers p /\
  match get_agent_controller agent_id p with
  | None => r = Ok tt /\ pool_update_tx p' = watch_send_replace (pool_update_tx p)
  | Some _ => is_ok r = false /\ pool_update_tx p' = pool_update_tx p
  end /\
  get_agent_controller agent_id (fst (remove_agent_controller agent_id p')) = None.
Proof.
  unfold register_agent_controller, get_agent_controller, remove_agent_controller.
  destruct (agents p !! agent_id) eqn:E; simpl; rewrite lookup_insert_eq; simpl;
    (split_and!; [done | intros other Hne; by rewrite lookup_insert_ne | done | done | done |
                  by rewrite lookup_delete_eq]).
Qed.

(** ** Facts: snapshots and desired state *)

Lemma snapshot_entries_spec (h : gmap nat AgentController) (entries : list (string * nat)) :
  match snapshot_entries h entries with
  | Ok snaps =>
      map (fun snap => Ok (E := string) snap) snaps
      = omap (fun e => controller_make_snapshot <$> h !! snd e) entries
  | Err _ =>
      exists e a, e ∈ entries /\ h !! snd e = Some a /\ is_ok (controller_make_snapshot a) = false
  end.
Proof.
  induction entries as [|e entries IH]; simpl; [done|].
  destruct (h !! snd e) as [a|] eqn:Ha; simpl.
  - destruct (controller_make_snapshot a) as [snap|err] eqn:Hs; simpl.
    + destruct (snapshot_entries h entries) as [snaps|err]; simpl; [by rewrite IH|].
      destruct IH as (e' & b & He' & Hb & Hf). exists e', b. set_solver.
    + exists e, a. rewrite Hs. set_solver.
  - destruct (snapshot_entries h entries) as [snaps|err]; [done|].
    destruct IH as (e' & b & He' & Hb & Hf). exists e', b. set_solver.
Qed.

(** What sending the desired state leaves for one controller. *)
Definition received_state (desired_state : AgentDesiredState) (a a' : AgentController) : Prop :=
  chan_pending (agent_message_tx a')
  = chan_pending (agent_message_tx a) ++ [AgentMessageNotification (SetState desired_state)] /\
  slots_processing a' = slots_processing a /\ slots_total a' = slots_total a.

Lemma set_desired_state_received (d : AgentDesiredState) (a a' : AgentController) :
  Controller.set_desired_state d a = Ok a' -> received_state d a a'.
Proof.
  intros Hs. unfold Controller.set_desired_state in Hs.
  pose proof (send_rpc_message_ok (AgentMessageNotification (SetState d)) a) as Hok.
  rewrite Hs in Hok. destruct Hok as (tx & -> & Hp). by split_and!.
Qed.

(** The entries visited before the first unreachable agent get the message,
    the others do not. *)
Lemma set_desired_state_entries_spec (d : AgentDesiredState) (entries : list (string * nat))
    (h h' : gmap nat AgentController) (r : result unit string) :
  NoDup (map snd entries) -> set_desired_state_entries d entries h = (h', r) ->
  exists done rest, entries = done ++ rest /\
    (forall loc, loc ∉ map snd done -> h' !! loc = h !! loc) /\
    (forall loc a, loc ∈ map snd done -> h !! loc = Some a ->
       exists a', h' !! loc = Some a' /\ received_state d a a') /\
    match r with
    | Ok _ => rest = []
    | Err _ => exists e rest' a, rest = e :: rest' /\ h !! snd e = Some a /\
                 chan_receiver_alive (agent_message_tx a) = false
    end.
Proof.
  revert h. induction entries as [|e entries IH]; intros h Hnd Hset; simpl in *.
  { simplify_eq. exists [], []. split_and!; set_solver. }
  apply NoDup_cons in Hnd as [Hnotin Hnd].
  destruct (h !! snd e) as [a|] eqn:Ha.
  - destruct (Controller.set_desired_state d a) as [a'|err] eqn:Hs.
    + destruct (IH _ Hnd Hset) as (dn & rest & -> & Hout & Hin & Hr).
      rewrite map_app in Hnotin.
      exists (e :: dn), rest. split_and!; [done| | |].
      * intros loc Hloc. simpl in Hloc. rewrite Hout by set_solver.
        rewrite lookup_insert_ne; set_solver.
      * intros loc b Hloc Hb. simpl in Hloc. destruct (decide (loc = snd e)) as [->|Hne].
        -- simplify_eq. exists a'. rewrite Hout by set_solver. rewrite lookup_insert_eq.
           split; [done | by apply set_desired_state_received].
        -- apply Hin; [set_solver|]. by rewrite lookup_insert_ne.
      * destruct r; [done|]. destruct Hr as (e' & rest' & b & -> & Hb & Hdead).
        exists e', rest', b. split_and!; [done| |done].
        rewrite lookup_insert_ne in Hb; [done|].
        intros Heq. apply Hnotin. rewrite Heq. simpl. set_solver.
    + simplify_eq. exists [], (e :: entries). split_and!; [done|done|set_solver|].
      exists e, entries, a. split_and!; [done|done|].
      unfold Controller.set_desired_state in Hs.
      pose proof (send_rpc_message_ok (AgentMessageNotification (SetState d)) a) as Hok.
      by rewrite Hs in Hok.
  - destruct (IH _ Hnd Hset) as (dn & rest & -> & Hout & Hin & Hr).
    exists (e :: dn), rest. split_and!; [done| | |done].
    + intros loc Hloc. apply Hout. set_solver.
    + intros loc b Hloc Hb. simpl in Hloc. apply Hin; [|done].
      destruct (decide (loc = snd e)) as [->|]; set_solver.
Qed.

(** Distinct agents have distinct controllers. *)
Definition agents_distinct (p : AgentControllerPool) : Prop :=
  forall id1 id2 loc, agents p !! id1 = Some loc -> agents p !! id2 = Some loc -> id1 = id2.

Lemma NoDup_iteration (p : AgentControllerPool) :
  agents_distinct p -> NoDup (map snd (iteration (agents p))).
Proof.
  intros Hd. apply (NoDup_fmap_2_strong snd).
  - intros [i1 l1] [i2 l2] H1 H2. rewrite iteration_entries in H1, H2.
    apply elem_of_map_to_list in H1, H2. simpl. intros ->. by rewrite (Hd i1 i2 l2).
  - rewrite iteration_entries. apply NoDup_map_to_list.
Qed.

(** An agent is before or after the point where a broadcast stopped. *)
Lemma iteration_split (p : AgentControllerPool) (dn rest : list (string * nat)) (loc : nat) :
  iteration (agents p) = dn ++ rest -> (exists i, agents p !! i = Some loc) ->
  loc ∈ map snd dn \/ loc ∈ map snd rest.
Proof.
  intros Hsplit Hloc. apply iteration_agent in Hloc as [i Hi]. rewrite Hsplit in Hi.
  rewrite <- elem_of_app, <- map_app. apply list_elem_of_In, in_map_iff.
  exists (i, loc). split; [done|]. by apply list_elem_of_In.
Qed.

Lemma broadcast_reaches_all (d : AgentDesiredState) (p p' : AgentControllerPool) (u : unit) :
  agents_distinct p -> pool_set_desired_state d p = (p', Ok u) ->
  forall loc a, pool_agent p loc a -> exists a', pool_agent p' loc a' /\ received_state d a a'.
Proof.
  intros Hdistinct. unfold pool_set_desired_state.
  destruct (set_desired_state_entries d (iteration (agents p)) (controllers p)) as [h r] eqn:E.
  intros [= <- ->].
  destruct (set_desired_state_entries_spec _ _ _ _ _ (NoDup_iteration p Hdistinct) E)
    as (dn & rest & Hsplit & Hout & Hin & Hr).
  subst rest. intros loc a [Hloc Ha].
  destruct (iteration_split _ _ _ _ Hsplit Hloc) as [Hd|Hn]; [|by apply elem_of_nil in Hn].
  destruct (Hin loc a Hd Ha) as (a' & Ha' & Hrec). by exists a'.
Qed.

Lemma broadcast_stops_at_gone (d : AgentDesiredState) (p p' : AgentControllerPool) (err : string) :
  agents_distinct p -> pool_set_desired_state d p = (p', Err err) ->
  (exists loc a, pool_agent p loc a /\ chan_receiver_alive (agent_message_tx a) = false) /\
  forall loc a, pool_agent p loc a ->
    exists a', pool_agent p' loc a' /\ (a' = a \/ received_state d a a').
Proof.
  intros Hdistinct. unfold pool_set_desired_state.
  destruct (set_desired_state_entries d (iteration (agents p)) (controllers p)) as [h r] eqn:E.
  intros [= <- ->].
  destruct (set_desired_state_entries_spec _ _ _ _ _ (NoDup_iteration p Hdistinct) E)
    as (dn & rest & Hsplit & Hout & Hin & Hr).
  destruct Hr as (e & rest' & a & -> & Ha & Hdead). split.
  - exists (snd e), a. split; [|done]. split; [|done]. apply iteration_agent.
    exists (fst e). rewrite Hsplit. destruct e. set_solver.
  - intros loc b [Hloc Hb]. destruct (decide (loc ∈ map snd dn)) as [Hd|Hn].
    + destruct (Hin loc b Hd Hb) as (b' & Hb' & Hrec). exists b'. split; [done | by right].
    + exists b. split; [|by left]. split; [done|]. simpl. by rewrite Hout.
Qed.

(** Broadcasting a desired state: it reports success exactly when every
    agent of the pool got the notification as its last message; when it
    fails some agent is gone, and each agent either got the notification or
    nothing. *)
Theorem pool_set_desired_state_broadcast (d : AgentDesiredState) (p : AgentControllerPool)
    (Hdistinct : agents_distinct p) :
  let '(p', r) := pool_set_desired_state d p in
  agents p' = agents p /\
  match r with
  | Ok _ =>
      forall loc a, pool_agent p loc a ->
        exists a', pool_agent p' loc a' /\ received_state d a a'
  | Err _ =>
      (exists loc a, pool_agent p loc a /\ chan_receiver_alive (agent_message_tx a) = false) /\
      forall loc a, pool_agent p loc a ->
        exists a', pool_agent p' loc a' /\ (a' = a \/ received_state d a a')
  end.
Proof.
  destruct (pool_set_desired_state d p) as [p' r] eqn:E. split.
  - unfold pool_set_desired_state in E. destruct (set_desired_state_entries _ _ _).
    by injection E as <- _.
  - destruct r as [u|err].
    + by apply (broadcast_reaches_all d p p' u).
    + by apply (broadcast_stops_at_gone d p p' err).
Qed.

End AgentPool.
Arguments AgentControllerPool {_ _} chan token sender.

(** ** A concrete pool *)

Definition sample_agent (processing total : Z) : AgentController QueueChannel nat :=
  put_slots_total total (put_slots_processing processing sample_controller).

Definition sample_pool : AgentControllerPool QueueChannel nat nat :=
  {| agents := {["a" := 0%nat; "b" := 1%nat]};
     controllers := {[0%nat := sample_agent 3 4; 1%nat := sample_agent 1 4]};
     pool_update_tx := 0%nat |}.

Lemma take_least_busy_spec_witness :
  exists d, snd (take_least_busy_agent_controller map_to_list 1 sample_pool) = Some (Some d) /\
    guarded_controller (slot_guard d) = dispatched_controller d.
Proof.
  pose proof (take_least_busy_spec (receiver := nat) map_to_list (fun _ => reflexivity _) 0
                sample_pool) as Hspec.
  assert (Hwidth : forall loc a, controllers sample_pool !! loc = Some a ->
            in_i32 (slots_processing a) /\ in_i32 (slots_total a)).
  { intros loc a Ha. simpl in Ha.
    apply lookup_insert_Some in Ha as [[_ <-]|[_ Ha]]; [by split|].
    apply lookup_singleton_Some in Ha as [_ <-]. by split. }
  specialize (Hspec Hwidth).
  destruct (take_least_busy_agent_controller map_to_list 1 sample_pool) as [p' r] eqn:E.
  destruct r as [[d|]|].
  - exists d. split; [done | exact (proj1 Hspec)].
  - exfalso. destruct Hspec as [_ Hnone].
    apply (Hnone 1%nat (sample_agent 1 4)); [|done].
    split; [exists "b"%string; reflexivity | reflexivity].
  - destruct Hspec.
Defined.

Lemma sample_pool_distinct : agents_distinct sample_pool.
Proof.
  intros id1 id2 loc H1 H2. simpl in H1, H2.
  apply lookup_insert_Some in H1 as [[<- <-]|[_ H1]];
    apply lookup_insert_Some in H2 as [[<- Heq]|[_ H2]]; try done;
    repeat match goal with
           | H : {[ _ := _ ]} !! _ = Some _ |- _ =>
               apply lookup_singleton_Some in H as [<- ?]
           end; simplify_eq; done.
Qed.

Lemma pool_set_desired_state_broadcast_witness :
  let d := {| chat_template_override := None;
              inference_parameters := inference_parameters_default;
              model := LocalToAgent "m"; multimodal_projection := NoModel |} in
  agents (fst (pool_set_desired_state map_to_list d sample_pool)) = agents sample_pool.
Proof.
  intros d.
  pose proof (pool_set_desired_state_broadcast map_to_list (fun _ => reflexivity _) d sample_pool)
    as Hspec.
  specialize (Hspec sample_pool_distinct).
  destruct (pool_set_desired_state map_to_list d sample_pool) as [p' r]. exact (proj1 Hspec).
Defined.
