(* ===== verification/AgentPoolSystem.v ===== *)
(** * The agent pool in use: concurrent dispatching

    Requests dispatch concurrently, agents register, report and leave.  Each
    step of this system is one atomic action of one of them: dispatching reads
    the load of an agent, then its number of slots, and only later tries to
    claim with a compare-and-swap.  Any interleaving of these steps is a run. *)

From S2P Require Import Prelude Tokio Messages AtomicValue Requests Senders SlotStatus.
From S2P Require Import AgentController AgentPool.
Import Controller.
Local Open Scope Z_scope.

Section AgentPoolSystem.
Context `{JsonTypes} `{LlamaTypes} {chan : Type -> Type} `{!UnboundedChannel chan} {token : Type}.
Context {sender receiver : Type} `{!WatchChannel sender receiver}.

Local Abbreviation AgentController := (AgentController chan token).
Local Abbreviation Pool := (AgentControllerPool chan token sender).

(** ** State *)

(** How far a dispatching task is: it has read the load of a controller, or
    it has a candidate to claim. *)
Inductive TaskPhase : Type :=
| Loaded (loc : nat) (snap : Z)
| Chosen (candidate : DispatchCandidate).

(** [initial_load] and [peak_total] are the load a controller was registered
    with and the largest number of slots it had so far; the program does not
    keep them. *)
Record PoolSystem : Type := {
  pool : Pool;
  tasks : gmap nat TaskPhase;
  held : list AgentControllerSlotGuard;
  initial_load : gmap nat Z;
  peak_total : gmap nat Z;
}.

Definition pool_system_initial : PoolSystem :=
  {| pool := pool_default; tasks := ∅; held := []; initial_load := ∅; peak_total := ∅ |}.

(** ** Steps *)

Inductive pool_step : relation PoolSystem :=
| pool_step_load y t loc a :
    controllers (pool y) !! loc = Some a ->
    pool_step y {| pool := pool y; tasks := <[t := Loaded loc (slots_processing a)]> (tasks y);
                   held := held y; initial_load := initial_load y; peak_total := peak_total y |}
| pool_step_check y t loc snap a :
    tasks y !! t = Some (Loaded loc snap) -> controllers (pool y) !! loc = Some a ->
    (slots_total a <=? snap) = false ->
    pool_step y
      {| pool := pool y;
         tasks := <[t := Chosen {| candidate_controller := loc; snapshot := snap |}]> (tasks y);
         held := held y; initial_load := initial_load y; peak_total := peak_total y |}
| pool_step_claim y t c p' r :
    tasks y !! t = Some (Chosen c) -> try_claim c (pool y) = (p', r) ->
    pool_step y
      {| pool := p'; tasks := delete t (tasks y);
         held := match r with Ok d => slot_guard d :: held y | Err _ => held y end;
         initial_load := initial_load y; peak_total := peak_total y |}
| pool_step_finish y before g after :
    held y = before ++ g :: after ->
    pool_step y {| pool := drop_slot_guard g (pool y); tasks := tasks y; held := before ++ after;
                   initial_load := initial_load y; peak_total := peak_total y |}
| pool_step_report y loc a snap a' r :
    controllers (pool y) !! loc = Some a -> in_i32 (Snapshot.slots_total snap) ->
    update_from_slot_aggregated_status_snapshot snap a = (a', r) ->
    pool_step y
      {| pool := let p := store_controllers (<[loc := a']> (controllers (pool y))) (pool y) in
                 match r with Updated => signal_update p | NoMeaningfulChanges => p end;
         tasks := tasks y; held := held y; initial_load := initial_load y;
         peak_total := alter (Z.max (slots_total a')) loc (peak_total y) |}
| pool_step_message y loc a a' :
    controllers (pool y) !! loc = Some a ->
    slots_processing a' = slots_processing a -> slots_total a' = slots_total a ->
    pool_step y
      {| pool := store_controllers (<[loc := a']> (controllers (pool y))) (pool y);
         tasks := tasks y; held := held y; initial_load := initial_load y;
         peak_total := peak_total y |}
| pool_step_register y agent_id loc a :
    controllers (pool y) !! loc = None -> in_i32 (slots_processing a) -> in_i32 (slots_total a) ->
    pool_step y
      {| pool := fst (register_agent_controller agent_id loc
                        (store_controllers (<[loc := a]> (controllers (pool y))) (pool y)));
         tasks := tasks y; held := held y;
         initial_load := <[loc := slots_processing a]> (initial_load y);
         peak_total := <[loc := slots_total a]> (peak_total y) |}
| pool_step_remove y agent_id :
    pool_step y
      {| pool := fst (remove_agent_controller agent_id (pool y)); tasks := tasks y;
         held := held y; initial_load := initial_load y; peak_total := peak_total y |}.

(** ** Invariant *)

Definition guards_of (loc : nat) (gs : list AgentControllerSlotGuard) : Z :=
  Z.of_nat (length (filter (fun g => guarded_controller g = loc) gs)).

Definition load_accounted (y : PoolSystem) (loc : nat) (a : AgentController) : Prop :=
  exists i k,
    initial_load y !! loc = Some i /\ peak_total y !! loc = Some k /\
    in_i32 i /\ k <= i32_max /\ slots_total a <= k /\
    slots_processing a = i + guards_of loc (held y) /\
    slots_processing a <= Z.max i k.

Record pool_wf (y : PoolSystem) : Prop := {
  wf_load loc a : controllers (pool y) !! loc = Some a -> load_accounted y loc a;
  wf_guards g : g ∈ held y -> is_Some (controllers (pool y) !! guarded_controller g);
  wf_chosen t c :
    tasks y !! t = Some (Chosen c) ->
    exists k, peak_total y !! candidate_controller c = Some k /\ snapshot c < k;
  wf_peak loc : is_Some (controllers (pool y) !! loc) <-> is_Some (peak_total y !! loc);
}.

(** ** Facts *)

Lemma guards_of_cons (loc : nat) (g : AgentControllerSlotGuard)
    (gs : list AgentControllerSlotGuard) :
  guards_of loc (g :: gs)
  = (if decide (guarded_controller g = loc) then 1 else 0) + guards_of loc gs.
Proof. unfold guards_of. rewrite filter_cons. case_decide; simpl; lia. Qed.

Lemma guards_of_middle (loc : nat) (g : AgentControllerSlotGuard)
    (before after : list AgentControllerSlotGuard) :
  guards_of loc (before ++ g :: after)
  = (if decide (guarded_controller g = loc) then 1 else 0) + guards_of loc (before ++ after).
Proof.
  unfold guards_of. rewrite !filter_app, filter_cons, !length_app.
  case_decide; simpl; lia.
Qed.

Lemma guards_of_nonneg (loc : nat) (gs : list AgentControllerSlotGuard) : 0 <= guards_of loc gs.
Proof. unfold guards_of. lia. Qed.

Lemma guards_of_none (loc : nat) (gs : list AgentControllerSlotGuard) :
  (forall g, g ∈ gs -> guarded_controller g <> loc) -> guards_of loc gs = 0.
Proof.
  induction gs as [|g gs IH]; intros Hg; [done|]. rewrite guards_of_cons, IH by set_solver.
  rewrite decide_False by set_solver. lia.
Qed.

(** A step that keeps guards and ghosts and replaces one controller by one
    with the same load and no more slots than its peak. *)
Lemma pool_wf_replace (y y' : PoolSystem) (loc : nat) (a a' : AgentController) :
  pool_wf y -> controllers (pool y) !! loc = Some a ->
  slots_processing a' = slots_processing a ->
  controllers (pool y') = <[loc := a']> (controllers (pool y)) ->
  held y' = held y -> initial_load y' = initial_load y -> tasks y' = tasks y ->
  peak_total y' = alter (Z.max (slots_total a')) loc (peak_total y) ->
  slots_total a' <= i32_max ->
  pool_wf y'.
Proof.
  intros [Hl Hg Hc Hp] Ha Hs Hh Hheld Hi Ht Hk Hmax. constructor.
  - intros loc' b. rewrite Hh. destruct (decide (loc' = loc)) as [->|Hne].
    + rewrite lookup_insert_eq. intros [= <-].
      destruct (Hl _ _ Ha) as (i & k & Hil & Hkl & Hir & Hkm & Htot & Hacc & Hle).
      exists i, (Z.max (slots_total a') k). rewrite Hi, Hk, Hheld, lookup_alter_eq, Hkl.
      split_and!; [done|done|done|lia|lia|lia|lia].
    + rewrite lookup_insert_ne by done. intros Hb.
      destruct (Hl _ _ Hb) as (i & k & Hrest). exists i, k.
      rewrite Hi, Hk, Hheld, lookup_alter_ne by done. done.
  - intros g. rewrite Hheld, Hh. intros Hin. apply lookup_insert_is_Some'. right. by apply Hg.
  - intros t c. rewrite Ht, Hk. intros Hcand. destruct (Hc _ _ Hcand) as (k & Hkl & Hlt).
    destruct (decide (candidate_controller c = loc)) as [<-|Hne].
    + rewrite lookup_alter_eq, Hkl. simpl. eexists. split; [done|lia].
    + rewrite lookup_alter_ne by done. eauto.
  - intros loc'. rewrite Hh, Hk, lookup_insert_is_Some'.
    destruct (decide (loc = loc')) as [<-|Hne].
    + rewrite lookup_alter_eq, fmap_is_Some, <- Hp. split; [by intros [?|?] | by right].
    + rewrite lookup_alter_ne by done. rewrite <- Hp. naive_solver.
Qed.

(** The pool's map and channel do not matter to the invariant. *)
Lemma pool_wf_same (y y' : PoolSystem) :
  pool_wf y -> controllers (pool y') = controllers (pool y) -> held y' = held y ->
  initial_load y' = initial_load y -> peak_total y' = peak_total y ->
  (forall t c, tasks y' !! t = Some (Chosen c) ->
     exists k, peak_total y !! candidate_controller c = Some k /\ snapshot c < k) ->
  pool_wf y'.
Proof.
  intros [Hl Hg Hc Hp] Hh Hheld Hi Hk Ht. constructor.
  - intros loc a. rewrite Hh. intros Ha. unfold load_accounted. rewrite Hi, Hk, Hheld. by apply Hl.
  - intros g. rewrite Hheld, Hh. apply Hg.
  - intros t c. rewrite Hk. apply Ht.
  - intros loc. rewrite Hh, Hk. apply Hp.
Qed.

(** A controller's load and the guards held for it move together. *)
Lemma pool_wf_move (y y' : PoolSystem) (loc : nat) (a : AgentController) (v delta : Z) :
  pool_wf y -> controllers (pool y) !! loc = Some a ->
  v = slots_processing a + delta ->
  controllers (pool y') = <[loc := put_slots_processing v a]> (controllers (pool y)) ->
  (forall loc', guards_of loc' (held y')
                = guards_of loc' (held y) + (if decide (loc = loc') then delta else 0)) ->
  (forall g, g ∈ held y' -> g ∈ held y \/ guarded_controller g = loc) ->
  initial_load y' = initial_load y -> peak_total y' = peak_total y ->
  (forall t c, tasks y' !! t = Some (Chosen c) -> tasks y !! t = Some (Chosen c)) ->
  (forall k, peak_total y !! loc = Some k -> 0 < delta -> v <= k) ->
  pool_wf y'.
Proof.
  intros [Hl Hg Hc Hp] Ha Hv Hh Hheld Hsub Hi Hk Ht Hcap. constructor.
  - intros loc' b. rewrite Hh. destruct (decide (loc = loc')) as [<-|Hne].
    + rewrite lookup_insert_eq. intros [= <-].
      destruct (Hl _ _ Ha) as (i & k & Hil & Hkl & Hir & Hkm & Htot & Hacc & Hle).
      exists i, k. rewrite Hi, Hk, Hheld, decide_True by done.
      pose proof (Hcap k Hkl). simpl. split_and!; try done; lia.
    + rewrite lookup_insert_ne by done. intros Hb.
      destruct (Hl _ _ Hb) as (i & k & Hil & Hkl & Hir & Hkm & Htot & Hacc & Hle).
      exists i, k. rewrite Hi, Hk, Hheld, decide_False by done. split_and!; try done; lia.
  - intros g Hin. rewrite Hh. apply lookup_insert_is_Some'.
    destruct (Hsub g Hin) as [Hin'|Heq]; [right; by apply Hg | by left].
  - intros t c Hcand. rewrite Hk. by eapply Hc, Ht.
  - intros loc'. rewrite Hh, Hk, lookup_insert_is_Some', <- Hp.
    split; [intros [<-|?]; [by rewrite Ha|done] | by right].
Qed.

Lemma pool_wf_claim (y : PoolSystem) (t : nat) (c : DispatchCandidate) (p' : Pool)
    (r : result DispatchedAgent DispatchCandidate) :
  pool_wf y -> tasks y !! t = Some (Chosen c) -> try_claim c (pool y) = (p', r) ->
  pool_wf {| pool := p'; tasks := delete t (tasks y);
             held := match r with Ok d => slot_guard d :: held y | Err _ => held y end;
             initial_load := initial_load y; peak_total := peak_total y |}.
Proof.
  intros Hwf Ht Hclaim.
  assert (Hsame : forall q, controllers q = controllers (pool y) ->
    pool_wf {| pool := q; tasks := delete t (tasks y); held := held y;
               initial_load := initial_load y; peak_total := peak_total y |}).
  { intros q Hq. apply (pool_wf_same y); try done.
    simpl. intros t' c' [_ Hc]%lookup_delete_Some. by eapply (wf_chosen y Hwf). }
  unfold try_claim in Hclaim.
  destruct (controllers (pool y) !! candidate_controller c) as [a|] eqn:Ha;
    [|simplify_eq; by apply Hsame].
  destruct (compare_and_swap (slots_processing a) (snapshot c) (wrap_i32 (snapshot c + 1)))
    as [[|] slots] eqn:Hcas; simplify_eq; [|by apply Hsame].
  apply compare_and_swap_true in Hcas as [Hs ->].
  destruct (wf_chosen y Hwf t c Ht) as (k & Hk & Hlt).
  destruct (wf_load y Hwf _ _ Ha) as (i & k' & _ & Hk' & Hir & Hkm & _ & Hacc & _).
  simplify_eq.
  pose proof (guards_of_nonneg (candidate_controller c) (held y)) as Hpos.
  assert (Hwrap : wrap_i32 (snapshot c + 1) = slots_processing a + 1).
  { rewrite <- Hs. apply wrap_i32_id. unfold in_i32 in *. lia. }
  apply (pool_wf_move y _ (candidate_controller c) a (wrap_i32 (snapshot c + 1)) 1);
    simpl; try done.
  - intros loc'. rewrite guards_of_cons. simpl. lia.
  - intros g [->|Hin]%elem_of_cons; [by right | by left].
  - intros t' c' [_ ?]%lookup_delete_Some. done.
  - intros k1 Hk1 _. simplify_eq. lia.
Qed.

Lemma pool_wf_finish (y : PoolSystem) (g : AgentControllerSlotGuard)
    (before after : list AgentControllerSlotGuard) :
  pool_wf y -> held y = before ++ g :: after ->
  pool_wf {| pool := drop_slot_guard g (pool y); tasks := tasks y; held := before ++ after;
             initial_load := initial_load y; peak_total := peak_total y |}.
Proof.
  intros Hwf Hheld.
  destruct (wf_guards y Hwf g) as [a Ha]; [rewrite Hheld; set_solver|].
  destruct (wf_load y Hwf _ _ Ha) as (i & k & _ & Hk & Hir & Hkm & _ & Hacc & Hle).
  rewrite Hheld, guards_of_middle, decide_True in Hacc by done.
  pose proof (guards_of_nonneg (guarded_controller g) (before ++ after)) as Hpos.
  assert (Hdec : i32_decrement (slots_processing a) = slots_processing a - 1).
  { apply i32_decrement_small. unfold in_i32 in *. lia. }
  apply (pool_wf_move y _ (guarded_controller g) a (slots_processing a - 1) (-1)); simpl; try done.
  - apply map_eq. intros loc. destruct (decide (loc = guarded_controller g)) as [->|Hne].
    + by rewrite lookup_alter_eq, lookup_insert_eq, Ha, <- Hdec.
    + by rewrite lookup_alter_ne, lookup_insert_ne.
  - intros loc'. rewrite Hheld, guards_of_middle. case_decide; lia.
  - intros g' Hin. left. rewrite Hheld. set_solver.
Qed.

Lemma pool_wf_register (y : PoolSystem) (agent_id : string) (loc : nat) (a : AgentController) :
  pool_wf y -> controllers (pool y) !! loc = None ->
  in_i32 (slots_processing a) -> in_i32 (slots_total a) ->
  pool_wf {| pool := fst (register_agent_controller agent_id loc
                       (store_controllers (<[loc := a]> (controllers (pool y))) (pool y)));
             tasks := tasks y; held := held y;
             initial_load := <[loc := slots_processing a]> (initial_load y);
             peak_total := <[loc := slots_total a]> (peak_total y) |}.
Proof.
  intros [Hl Hg Hc Hp] Hnone Hsp Hst.
  assert (Hh : forall p, controllers (fst (register_agent_controller agent_id loc p))
                         = controllers (p : Pool)).
  { intros p. unfold register_agent_controller. by destruct (agents p !! agent_id). }
  constructor; simpl; rewrite ?Hh; simpl.
  - intros loc' b. destruct (decide (loc = loc')) as [<-|Hne].
    + rewrite lookup_insert_eq. intros [= <-]. exists (slots_processing a), (slots_total a). simpl.
      rewrite !lookup_insert_eq, guards_of_none.
      * unfold in_i32 in *. split_and!; try done; lia.
      * intros g Hin Heq. apply Hg in Hin as [? Hin]. by rewrite Heq, Hnone in Hin.
    + rewrite lookup_insert_ne by done. intros Hb. destruct (Hl _ _ Hb) as (i & k & Hrest).
      exists i, k. simpl. rewrite !lookup_insert_ne by done. done.
  - intros g Hin. apply lookup_insert_is_Some'. right. by apply Hg.
  - intros t c Hcand. destruct (Hc _ _ Hcand) as (k & Hk & Hlt). exists k.
    rewrite lookup_insert_ne; [done|]. intros ->.
    assert (Hsome : is_Some (controllers (pool y) !! candidate_controller c))
      by (apply Hp; by eexists).
    rewrite Hnone in Hsome. by destruct Hsome.
  - intros loc'. rewrite !lookup_insert_is_Some'. by rewrite Hp.
Qed.

Lemma update_load (snap : Snapshot.SlotAggregatedStatusSnapshot) (a : AgentController) :
  let a' := fst (update_from_slot_aggregated_status_snapshot snap a) in
  slots_processing a' = slots_processing a /\
  (slots_total a' = slots_total a \/ slots_total a' = Snapshot.slots_total snap).
Proof.
  destruct (Z.ltb_spec (Snapshot.version snap) (newest_update_version a)) as [Hv|Hv].
  - rewrite update_stale by done. simpl. auto.
  - rewrite (proj1 (update_fresh snap a Hv)). simpl. auto.
Qed.

Lemma pool_wf_step (x y : PoolSystem) : pool_wf x -> pool_step x y -> pool_wf y.
Proof.
  intros Hwf Hstep.
  destruct Hstep as [y t loc a Ha|y t loc snap a Ht Ha Hcap|y t c p' r Ht Hclaim
                    |y before g after Hheld|y loc a snap a' r Ha Hs Hup|y loc a a' Ha Hsp Hst
                    |y agent_id loc a Hnone Hsp Hst|y agent_id].
  - apply (pool_wf_same y); try done. simpl. intros t' c Hc.
    apply lookup_insert_Some in Hc as [[_ ?]|[_ Hc]]; [done | by eapply (wf_chosen y Hwf)].
  - apply (pool_wf_same y); try done. simpl. intros t' c Hc.
    apply lookup_insert_Some in Hc as [[_ [= <-]]|[_ Hc]]; [|by eapply (wf_chosen y Hwf)].
    simpl. destruct (wf_load y Hwf _ _ Ha) as (i & k & _ & Hk & _ & _ & Htot & _).
    exists k. split; [done|]. apply Z.leb_gt in Hcap. lia.
  - by eapply pool_wf_claim.
  - by apply pool_wf_finish.
  - destruct (update_load snap a) as [Hp Htot]. rewrite Hup in Hp, Htot. simpl in Hp, Htot.
    destruct (wf_load y Hwf _ _ Ha) as (i & k & _ & _ & _ & Hkm & Htk & _ & _).
    apply (pool_wf_replace y _ loc a a'); try done; simpl; [by destruct r|].
    unfold in_i32 in Hs. destruct Htot as [->| ->]; lia.
  - destruct (wf_load y Hwf _ _ Ha) as (i & k & Hi & Hk & Hir & Hkm & Htk & _ & _).
    apply (pool_wf_replace y _ loc a a'); try done; simpl; [|lia].
    symmetry. apply alter_id. intros k' Hk'. simplify_eq. lia.
  - by apply pool_wf_register.
  - assert (Hh : controllers (fst (remove_agent_controller agent_id (pool y)))
                 = controllers (pool y)).
    { unfold remove_agent_controller. by destruct (agents (pool y) !! agent_id). }
    apply (pool_wf_same y); try done. simpl. intros t c. by apply (wf_chosen y Hwf).
Qed.

Lemma pool_system_initial_wf : pool_wf pool_system_initial.
Proof.
  constructor; simpl; try done.
  - intros g Hin. by apply elem_of_nil in Hin.
  - intros loc. rewrite !lookup_empty. by split; intros [].
Qed.

(** C6. However dispatching, finishing, reporting, registering and leaving
    interleave, the load of a controller is the load it registered with plus
    the requests that hold a guard on it, it never wraps around, and no claim
    takes it above the largest number of slots the agent had: an agent that
    registers idle and never shrinks is never overcommitted. *)
Theorem dispatch_never_overcommits (y : PoolSystem) (loc : nat) (a : AgentController)
    (Hreach : rtc pool_step pool_system_initial y)
    (Hloc : controllers (pool y) !! loc = Some a) :
  exists initial peak,
    initial_load y !! loc = Some initial /\ peak_total y !! loc = Some peak /\
    slots_processing a = initial + guards_of loc (held y) /\
    slots_processing a <= Z.max initial peak /\
    in_i32 (slots_processing a) /\
    (initial = 0 -> peak = slots_total a -> 0 <= slots_total a ->
     0 <= slots_processing a <= slots_total a).
Proof.
  assert (Hwf : pool_wf y)
    by (eapply rtc_invariant; [exact Hreach | apply pool_system_initial_wf | apply pool_wf_step]).
  destruct (wf_load y Hwf _ _ Hloc) as (i & k & Hi & Hk & Hir & Hkm & Htk & Hacc & Hle).
  pose proof (guards_of_nonneg loc (held y)).
  exists i, k. unfold in_i32 in *. split_and!; try done; lia.
Qed.

End AgentPoolSystem.
Arguments PoolSystem {_ _} chan token sender.

(** An agent registers with two slots and a request is dispatched to it. *)
Lemma dispatch_never_overcommits_witness :
  exists (y : PoolSystem QueueChannel nat nat) a,
    rtc pool_step pool_system_initial y /\ controllers (pool y) !! 0%nat = Some a /\
    slots_processing a = 0 + guards_of 0 (held y) /\ slots_processing a = 1.
Proof.
  eexists _, _. split.
  { eapply rtc_l; [eapply (pool_step_register _ "a" 0%nat (sample_agent 0 2));
      [reflexivity | by split | by split]|].
    eapply rtc_l; [eapply (pool_step_load _ 7%nat 0%nat); reflexivity|].
    eapply rtc_l; [eapply (pool_step_check _ 7%nat 0%nat 0); [reflexivity..|]; reflexivity|].
    eapply rtc_l; [eapply (pool_step_claim _ 7%nat); [reflexivity|reflexivity]|].
    apply rtc_refl. }
  split; [reflexivity|]. split; [|reflexivity].
  match goal with
  | |- slots_processing ?a = 0 + guards_of 0 (held ?y) =>
      destruct (dispatch_never_overcommits (receiver := nat) y 0 a) as (i & k & Hi & _ & Hacc & _)
  end.
  - eapply rtc_l; [eapply (pool_step_register _ "a" 0%nat (sample_agent 0 2));
      [reflexivity | by split | by split]|].
    eapply rtc_l; [eapply (pool_step_load _ 7%nat 0%nat); reflexivity|].
    eapply rtc_l; [eapply (pool_step_check _ 7%nat 0%nat 0); [reflexivity..|]; reflexivity|].
    eapply rtc_l; [eapply (pool_step_claim _ 7%nat); [reflexivity|reflexivity]|].
    apply rtc_refl.
  - reflexivity.
  - simpl in Hi. injection Hi as <-. exact Hacc.
Defined.
