(* ===== verification/DesiredState.v ===== *)
(** * The balancer's desired state and its reconciliation

    [balancer_applicable_state_holder.rs], [balancer_desired_state_converter.rs],
    [reconciliation_service.rs], [cluster_token_generation_mode.rs] and
    [require_token_generation_enabled.rs], over the agent pool. *)

From S2P Require Import Prelude Tokio Messages AtomicValue Requests Senders SlotStatus.
From S2P Require Import AgentController AgentPool.
Import Controller.
Local Open Scope Z_scope.

(** ** Conversion *)

Record BalancerApplicableState : Type := { agent_desired_state : AgentDesiredState }.

Definition to_desired_state (s : BalancerDesiredState) : AgentDesiredState :=
  {| chat_template_override :=
       if use_chat_template_override s then balancer_chat_template_override s else None;
     inference_parameters := balancer_inference_parameters s;
     model := balancer_model s;
     multimodal_projection := balancer_multimodal_projection s |}.

(** It cannot fail: [Ok] is the only result. *)
Definition to_applicable_state (s : BalancerDesiredState)
    : result BalancerApplicableState string :=
  Ok {| agent_desired_state := to_desired_state s |}.

Inductive ClusterTokenGenerationMode : Type :=
| Enabled
| DisabledForEmbeddings.

#[export] Instance ClusterTokenGenerationMode_eq_dec : EqDecision ClusterTokenGenerationMode.
Proof. solve_decision. Defined.

Definition TOKEN_GENERATION_DISABLED_MESSAGE : string :=
  "Token generation is disabled while the cluster is configured for embeddings".

Section DesiredState.
Context `{JsonTypes} `{LlamaTypes} {chan : Type -> Type} `{!UnboundedChannel chan} {token : Type}.
Context {sender receiver : Type} `{!WatchChannel sender receiver}.
Context (iteration : gmap string nat -> list (string * nat)).
Context (iteration_entries : forall m, iteration m ≡ₚ map_to_list m).

Local Abbreviation AgentController := (AgentController chan token).
Local Abbreviation Pool := (AgentControllerPool chan token sender).

(** ** The holder *)

Record BalancerApplicableStateHolder : Type := {
  holder_update_tx : sender;
  balancer_applicable_state : option BalancerApplicableState;
}.

Definition holder_default : BalancerApplicableStateHolder :=
  {| holder_update_tx := watch_new; balancer_applicable_state := None |}.

Definition get_agent_desired_state (h : BalancerApplicableStateHolder)
    : option AgentDesiredState :=
  agent_desired_state <$> balancer_applicable_state h.

(** Setting the state writes it under the lock, and announces it after the lock
    was released. *)
Definition write_applicable_state (s : option BalancerApplicableState)
    (h : BalancerApplicableStateHolder) : BalancerApplicableStateHolder :=
  {| holder_update_tx := holder_update_tx h; balancer_applicable_state := s |}.

Definition announce_applicable_state (h : BalancerApplicableStateHolder)
    : BalancerApplicableStateHolder :=
  {| holder_update_tx := watch_send_replace (holder_update_tx h);
     balancer_applicable_state := balancer_applicable_state h |}.

Definition set_balancer_applicable_state (s : option BalancerApplicableState)
    (h : BalancerApplicableStateHolder) : BalancerApplicableStateHolder :=
  announce_applicable_state (write_applicable_state s h).

Definition mode_from_applicable_state_holder (h : BalancerApplicableStateHolder)
    : ClusterTokenGenerationMode :=
  match get_agent_desired_state h with
  | Some s => if enable_embeddings (inference_parameters s) then DisabledForEmbeddings else Enabled
  | None => Enabled
  end.

Definition require_token_generation_enabled (h : BalancerApplicableStateHolder)
    : result unit string :=
  match mode_from_applicable_state_holder h with
  | Enabled => Ok tt
  | DisabledForEmbeddings => Err TOKEN_GENERATION_DISABLED_MESSAGE
  end.

(** ** The reconciliation service *)

Record ReconciliationService : Type := {
  agent_controller_pool : Pool;
  balancer_applicable_state_holder : BalancerApplicableStateHolder;
  balancer_desired_state : BalancerDesiredState;
  is_converted_to_applicable_state : bool;
}.

(** [convert_to_applicable_state], its two halves: broadcasting to the pool,
    and setting the holder and the flag once that succeeded. *)
Definition broadcast_applicable_state (s : ReconciliationService)
    : ReconciliationService * result BalancerApplicableState string :=
  match to_applicable_state (balancer_desired_state s) with
  | Err e => (s, Err e)
  | Ok applicable =>
      let '(p, r) := pool_set_desired_state iteration (agent_desired_state applicable)
                       (agent_controller_pool s) in
      ({| agent_controller_pool := p;
          balancer_applicable_state_holder := balancer_applicable_state_holder s;
          balancer_desired_state := balancer_desired_state s;
          is_converted_to_applicable_state := is_converted_to_applicable_state s |},
       match r with Ok _ => Ok applicable | Err e => Err e end)
  end.

Definition set_applicable_state (applicable : BalancerApplicableState)
    (s : ReconciliationService) : ReconciliationService :=
  {| agent_controller_pool := agent_controller_pool s;
     balancer_applicable_state_holder :=
       set_balancer_applicable_state (Some applicable) (balancer_applicable_state_holder s);
     balancer_desired_state := balancer_desired_state s;
     is_converted_to_applicable_state := true |}.

Definition convert_to_applicable_state (s : ReconciliationService)
    : ReconciliationService * result unit string :=
  match broadcast_applicable_state s with
  | (s', Ok applicable) => (set_applicable_state applicable s', Ok tt)
  | (s', Err e) => (s', Err e)
  end.

(** The error is only logged. *)
Definition try_convert_to_applicable_state (s : ReconciliationService) : ReconciliationService :=
  fst (convert_to_applicable_state s).

(** What the [select!] of [run] wakes up for. *)
Inductive ReconciliationEvent : Type :=
| ShutdownCancelled
| Tick
| DesiredStateReceived (received : result BalancerDesiredState string).

Inductive LoopOutcome : Type :=
| Continue (s : ReconciliationService)
| Break (s : ReconciliationService) (r : result unit string).

Definition handle_reconciliation_event (e : ReconciliationEvent) (s : ReconciliationService)
    : LoopOutcome :=
  match e with
  | ShutdownCancelled => Break s (Ok tt)
  | Tick =>
      if is_converted_to_applicable_state s then Continue s
      else Continue (try_convert_to_applicable_state s)
  | DesiredStateReceived received =>
      let unconverted d :=
        {| agent_controller_pool := agent_controller_pool s;
           balancer_applicable_state_holder := balancer_applicable_state_holder s;
           balancer_desired_state := d;
           is_converted_to_applicable_state := false |} in
      match received with
      | Ok d => Continue (try_convert_to_applicable_state (unconverted d))
      | Err e => Break (unconverted (balancer_desired_state s)) (Err e)
      end
  end.

Fixpoint run_reconciliation (events : list ReconciliationEvent) (s : ReconciliationService)
    : LoopOutcome :=
  match events with
  | [] => Continue s
  | e :: rest =>
      match handle_reconciliation_event e s with
      | Continue s' => run_reconciliation rest s'
      | Break s' r => Break s' r
      end
  end.

Definition outcome_state (o : LoopOutcome) : ReconciliationService :=
  match o with
  | Continue s => s
  | Break s _ => s
  end.

(** ** An agent that registers

    The handler of [RegisterAgent] inserts the controller into the pool, then
    reads the holder and sends what it finds. *)

Definition register_insert (agent_id : string) (loc : nat) (a : AgentController) (p : Pool)
    : Pool * result unit string :=
  register_agent_controller agent_id loc (store_controllers (<[loc := a]> (controllers p)) p).

Definition register_send_state (loc : nat) (h : BalancerApplicableStateHolder) (p : Pool)
    : Pool * result unit string :=
  match get_agent_desired_state h, controllers p !! loc with
  | Some d, Some a =>
      match Controller.set_desired_state d a with
      | Ok a' => (store_controllers (<[loc := a']> (controllers p)) p, Ok tt)
      | Err e => (p, Err e)
      end
  | _, _ => (p, Ok tt)
  end.

(** ** Facts *)

(** What the flag promises: the holder has the state that is desired. *)
Definition converted_means_held (s : ReconciliationService) : Prop :=
  is_converted_to_applicable_state s = true ->
  get_agent_desired_state (balancer_applicable_state_holder s)
  = Some (to_desired_state (balancer_desired_state s)).

Lemma convert_spec (s : ReconciliationService) :
  let '(s', r) := convert_to_applicable_state s in
  let '(p, sent) := pool_set_desired_state iteration
                      (to_desired_state (balancer_desired_state s)) (agent_controller_pool s) in
  agent_controller_pool s' = p /\
  balancer_desired_state s' = balancer_desired_state s /\
  r = sent /\
  match sent with
  | Ok _ =>
      is_converted_to_applicable_state s' = true /\
      get_agent_desired_state (balancer_applicable_state_holder s')
      = Some (to_desired_state (balancer_desired_state s))
  | Err _ =>
      is_converted_to_applicable_state s' = is_converted_to_applicable_state s /\
      balancer_applicable_state_holder s' = balancer_applicable_state_holder s
  end.
Proof.
  unfold convert_to_applicable_state, broadcast_applicable_state. simpl.
  destruct (pool_set_desired_state iteration (to_desired_state (balancer_desired_state s))
              (agent_controller_pool s)) as [p [[]|e]]; simpl; done.
Qed.

Lemma try_convert_means_held (s : ReconciliationService) :
  converted_means_held s -> converted_means_held (try_convert_to_applicable_state s).
Proof.
  intros Hs. pose proof (convert_spec s) as Hc. unfold try_convert_to_applicable_state.
  destruct (convert_to_applicable_state s) as [s' r]. simpl.
  destruct (pool_set_desired_state _ _ _) as [p [[]|e]];
    destruct Hc as (_ & Hd & _ & Hf & Hh); unfold converted_means_held in *; intros Hconv;
    rewrite Hd; [done|].
  rewrite Hh. apply Hs. by rewrite <- Hf.
Qed.

Lemma handle_event_means_held (e : ReconciliationEvent) (s : ReconciliationService) :
  converted_means_held s -> converted_means_held (outcome_state (handle_reconciliation_event e s)).
Proof.
  intros Hs. destruct e as [| |[d|err]]; simpl; [done| | |].
  - destruct (is_converted_to_applicable_state s) eqn:E; simpl; [done|].
    by apply try_convert_means_held.
  - by apply try_convert_means_held.
  - done.
Qed.

(** Reconciliation is never marked done for the wrong state: in every run
    of the service from an unconverted state, whatever ticks, desired states
    and failures it sees, the flag is only set while the holder shows the
    agents' part of the state that is desired last. *)
Theorem reconciliation_flag_sound (events : list ReconciliationEvent) (s : ReconciliationService)
    (Hstart : is_converted_to_applicable_state s = false) :
  converted_means_held (outcome_state (run_reconciliation events s)).
Proof.
  assert (Hs : converted_means_held s) by (intros Ht; congruence).
  clear Hstart. revert s Hs. induction events as [|e events IH]; intros s Hs; simpl; [done|].
  pose proof (handle_event_means_held e s Hs) as He.
  destruct (handle_reconciliation_event e s) as [s'|s' r]; simpl in *; [by apply IH | done].
Qed.

(** Reconciliation retries until it succeeds: when every agent of the
    pool can be reached, one tick of an unconverted service gives every agent
    the desired state as its last message, sets the holder, tells its
    subscribers and marks the service converted; when some agent cannot, the
    holder and the mark stay, and the next tick tries again. *)
Theorem reconciliation_tick (s : ReconciliationService)
    (Hstart : is_converted_to_applicable_state s = false)
    (Hdistinct : agents_distinct (agent_controller_pool s)) :
  exists s', handle_reconciliation_event Tick s = Continue s' /\
    balancer_desired_state s' = balancer_desired_state s /\
    if is_converted_to_applicable_state s'
    then
      (forall loc a, pool_agent (agent_controller_pool s) loc a ->
         exists a', pool_agent (agent_controller_pool s') loc a' /\
           received_state (to_desired_state (balancer_desired_state s)) a a') /\
      get_agent_desired_state (balancer_applicable_state_holder s')
      = Some (to_desired_state (balancer_desired_state s))
    else
      balancer_applicable_state_holder s' = balancer_applicable_state_holder s /\
      exists loc a, pool_agent (agent_controller_pool s) loc a /\
        chan_receiver_alive (agent_message_tx a) = false.
Proof.
  simpl. rewrite Hstart. eexists. split; [done|].
  pose proof (convert_spec s) as Hc. unfold try_convert_to_applicable_state.
  destruct (convert_to_applicable_state s) as [s' r]. simpl.
  destruct (pool_set_desired_state _ _ _) as [p [[]|e]] eqn:E.
  - destruct Hc as (-> & Hd & _ & Hf & Hh). split; [done|]. rewrite Hf. split; [|done].
    by apply (broadcast_reaches_all iteration iteration_entries _ _ _ tt Hdistinct).
  - destruct Hc as (_ & Hd & _ & Hf & Hh). split; [done|]. rewrite Hf, Hstart. split; [done|].
    by apply (broadcast_stops_at_gone iteration iteration_entries _ _ _ e Hdistinct E).
Qed.

(** Token generation is refused exactly while the applied state enables
    embeddings; before any state is applied it is allowed. *)
Theorem token_generation_gate (h : BalancerApplicableStateHolder) :
  is_ok (require_token_generation_enabled h) = true <->
  forall d, get_agent_desired_state h = Some d ->
    enable_embeddings (inference_parameters d) = false.
Proof.
  unfold require_token_generation_enabled, mode_from_applicable_state_holder.
  destruct (get_agent_desired_state h) as [d|].
  - destruct (enable_embeddings (inference_parameters d)) eqn:E; simpl; split; try done.
    + intros Hd. specialize (Hd d eq_refl). congruence.
    + intros _ d' [= <-]. done.
  - by split.
Qed.

Definition with_pool (p : Pool) (s : ReconciliationService) : ReconciliationService :=
  {| agent_controller_pool := p;
     balancer_applicable_state_holder := balancer_applicable_state_holder s;
     balancer_desired_state := balancer_desired_state s;
     is_converted_to_applicable_state := is_converted_to_applicable_state s |}.

(** An agent can register with a state that is already stale: because
    the service broadcasts to the pool before it sets the holder, an agent
    that is inserted and reads the holder in between is sent the previous
    state only, and the service, which counts itself converted, never sends
    it the new one. *)
Theorem registration_can_miss_state (s s1 : ReconciliationService) (agent_id : string)
    (loc : nat) (a : AgentController) (old : AgentDesiredState)
    (applicable : BalancerApplicableState)
    (Hold : get_agent_desired_state (balancer_applicable_state_holder s) = Some old)
    (Hempty : chan_pending (agent_message_tx a) = [])
    (Halive : chan_receiver_alive (agent_message_tx a) = true)
    (Hbroadcast : broadcast_applicable_state s = (s1, Ok applicable)) :
  let p2 := fst (register_insert agent_id loc a (agent_controller_pool s1)) in
  let p3 := fst (register_send_state loc (balancer_applicable_state_holder s1) p2) in
  let s4 := set_applicable_state applicable (with_pool p3 s1) in
  get_agent_desired_state (balancer_applicable_state_holder s4)
  = Some (to_desired_state (balancer_desired_state s)) /\
  handle_reconciliation_event Tick s4 = Continue s4 /\
  exists a', controllers (agent_controller_pool s4) !! loc = Some a' /\
    chan_pending (agent_message_tx a') = [AgentMessageNotification (SetState old)].
Proof.
  unfold broadcast_applicable_state in Hbroadcast. simpl in Hbroadcast.
  destruct (pool_set_desired_state iteration (to_desired_state (balancer_desired_state s))
              (agent_controller_pool s)) as [p [[]|e]]; simplify_eq. simpl.
  split; [done|]. split; [done|].
  assert (Hloc : controllers (fst (register_insert agent_id loc a p)) !! loc = Some a).
  { unfold register_insert, register_agent_controller. simpl.
    destruct (agents p !! agent_id); simpl; by rewrite lookup_insert_eq. }
  unfold register_send_state. rewrite Hold, Hloc.
  pose proof (send_rpc_message_ok (AgentMessageNotification (SetState old)) a) as Hsend.
  unfold Controller.set_desired_state.
  destruct (send_rpc_message (AgentMessageNotification (SetState old)) a) as [a'|e];
    [|congruence].
  destruct Hsend as (tx & -> & Hp). rewrite Hempty in Hp. simpl. eexists.
  rewrite lookup_insert_eq. split; [done | exact Hp].
Qed.

End DesiredState.
Arguments ReconciliationService {_ _} chan token sender.

(** ** Witnesses *)

Definition sample_service (converted : bool) (old : option BalancerDesiredState)
    : ReconciliationService QueueChannel nat nat :=
  {| agent_controller_pool := sample_pool;
     balancer_applicable_state_holder :=
       {| holder_update_tx := 0%nat;
          balancer_applicable_state :=
            (fun s => {| agent_desired_state := to_desired_state s |}) <$> old |};
     balancer_desired_state := balancer_desired_state_default;
     is_converted_to_applicable_state := converted |}.

Lemma reconciliation_flag_sound_witness :
  converted_means_held
    (outcome_state (run_reconciliation map_to_list [Tick; Tick] (sample_service false None))).
Proof. apply (reconciliation_flag_sound map_to_list [Tick; Tick]). reflexivity. Defined.

Lemma reconciliation_tick_witness :
  exists s', handle_reconciliation_event map_to_list Tick (sample_service false None) = Continue s' /\
    balancer_desired_state s' = balancer_desired_state_default.
Proof.
  destruct (reconciliation_tick map_to_list (fun _ => reflexivity _) (sample_service false None)
              eq_refl sample_pool_distinct) as (s' & Hs & Hd & _).
  exists s'. split; [exact Hs | exact Hd].
Defined.

Lemma registration_can_miss_state_witness :
  let s := sample_service true (Some balancer_desired_state_default) in
  exists s1 applicable, broadcast_applicable_state map_to_list s = (s1, Ok applicable) /\
    let p2 := fst (register_insert "late" 9 sample_controller (agent_controller_pool s1)) in
    let p3 := fst (register_send_state 9 (balancer_applicable_state_holder s1) p2) in
    exists a', controllers p3 !! 9%nat = Some a'.
Proof.
  intros s. eexists _, _. split; [reflexivity|].
  pose proof (fun s1 applicable => registration_can_miss_state map_to_list s s1 "late" 9
    sample_controller (to_desired_state balancer_desired_state_default) applicable) as Hmiss.
  destruct (Hmiss _ _ eq_refl eq_refl eq_refl eq_refl) as (_ & _ & a' & Ha & _).
  exists a'. exact Ha.
Defined.
