(* ===== verification/StateDatabase.v ===== *)
(** * The state database

    [state_database/memory.rs], [state_database/file/mod.rs] and its schema.
    The file is its contents, absent or a string; every operation of the file
    system can fail, which is an argument of the definitions that call it.
    [file_read] and [file_store] are requests one at a time; [file_task_step]
    lets them interleave, creating, writing and notifying as separate steps.
    [serde_json] is a printer and a parser of schemas, whose law is a
    hypothesis; the [broadcast] channel is its receivers and what was sent. *)

From Stdlib Require Import Floats.SpecFloat Ascii.
From S2P Require Import Prelude Messages.
Local Open Scope Z_scope.

(** ** The broadcast channel *)

Record Broadcast : Type := { receivers : nat; broadcast_sent : list BalancerDesiredState }.

(** [send] fails when nobody listens. *)
Definition broadcast_send (state : BalancerDesiredState) (b : Broadcast)
    : Broadcast * result unit string :=
  if (receivers b =? 0)%nat then (b, Err "channel closed"%string)
  else ({| receivers := receivers b; broadcast_sent := broadcast_sent b ++ [state] |}, Ok tt).

(** ** In memory *)

Record Memory : Type := {
  memory_state : BalancerDesiredState;
  memory_notify_tx : Broadcast;
}.

Definition memory_read (m : Memory) : result BalancerDesiredState string := Ok (memory_state m).

Definition memory_store (state : BalancerDesiredState) (m : Memory)
    : Memory * result unit string :=
  let '(b, r) := broadcast_send state (memory_notify_tx m) in
  ({| memory_state := state; memory_notify_tx := b |}, r).

(** ** In a file *)

Record Schema : Type := { schema_state : BalancerDesiredState; schema_version : string }.

Definition default_version : string := "1".

(** [#[derive(Default)]], which does not call [default_version]. *)
Definition schema_default : Schema :=
  {| schema_state := balancer_desired_state_default; schema_version := "" |}.

(** What reading and writing a file can do. *)
Inductive ReadOutcome : Type :=
| ReadWorks
| ReadFails (error : string).
Inductive WriteOutcome : Type :=
| CreateFails (error : string)
| WriteFails (written : string) (error : string)
| WriteWorks.

Section FileDatabase.
Context (print_schema : Schema -> string).
Context (parse_schema : string -> result Schema string).

Record File : Type := {
  contents : option string;
  file_notify_tx : Broadcast;
}.

(** The parts of [store_schema], which its caller's lock keeps other writers
    out of: [File::create] empties the file, [write_all] fills it, [send] tells
    the listeners.  Readers take no lock: see the tasks below. *)
Definition create_file (f : File) : File :=
  {| contents := Some ""%string; file_notify_tx := file_notify_tx f |}.

Definition write_file (text : string) (f : File) : File :=
  {| contents := Some text; file_notify_tx := file_notify_tx f |}.

Definition notify_stored (schema : Schema) (f : File) : File * result unit string :=
  let '(b, r) := broadcast_send (schema_state schema) (file_notify_tx f) in
  ({| contents := contents f; file_notify_tx := b |}, r).

Definition store_schema (w : WriteOutcome) (schema : Schema) (f : File)
    : File * result unit string :=
  match w with
  | CreateFails e => (f, Err e)
  | WriteFails written e => (write_file written (create_file f), Err e)
  | WriteWorks => notify_stored schema (write_file (print_schema schema) (create_file f))
  end.

Definition store_default_schema (w : WriteOutcome) (f : File) : File * result Schema string :=
  match store_schema w schema_default f with
  | (f', Ok _) => (f', Ok schema_default)
  | (f', Err e) => (f', Err e)
  end.

Definition read_schema_from_file (rd : ReadOutcome) (w : WriteOutcome) (f : File)
    : File * result Schema string :=
  match rd with
  | ReadFails e => (f, Err e)
  | ReadWorks =>
      match contents f with
      | Some c =>
          if decide (c = ""%string) then store_default_schema w f
          else (f, parse_schema c)
      | None => store_default_schema w f
      end
  end.

(** [w0] is the write of the default schema, when the file has none. *)
Definition update_schema (rd : ReadOutcome) (w0 w : WriteOutcome) (modifier : Schema -> Schema)
    (f : File) : File * result unit string :=
  match read_schema_from_file rd w0 f with
  | (f1, Ok schema) => store_schema w (modifier schema) f1
  | (f1, Err e) => (f1, Err e)
  end.

Definition file_read (rd : ReadOutcome) (w : WriteOutcome) (f : File)
    : File * result BalancerDesiredState string :=
  match read_schema_from_file rd w f with
  | (f', Ok schema) => (f', Ok (schema_state schema))
  | (f', Err e) => (f', Err e)
  end.

Definition file_store (rd : ReadOutcome) (w0 w : WriteOutcome) (state : BalancerDesiredState)
    (f : File) : File * result unit string :=
  update_schema rd w0 w
    (fun schema => {| schema_state := state; schema_version := schema_version schema |}) f.

(** ** Requests at the same time

    Requests of the management API run as tasks.  A task reads the file without
    a lock; a task that stores waits for the lock, and holds it while it
    creates, writes, syncs and notifies.  [default] marks the store of the
    default schema on behalf of a task that found no schema. *)

Inductive FileRequest : Type :=
| ReadRequest
| StoreRequest (state : BalancerDesiredState).

Inductive TaskPhase : Type :=
| TaskReading
| TaskWaiting (schema : Schema) (default_ : bool)
| TaskCreated (schema : Schema) (default_ : bool)
| TaskWritten (schema : Schema) (default_ : bool)
| TaskDone (r : result BalancerDesiredState string).

Record FileTask : Type := { task_request : FileRequest; task_phase : TaskPhase }.

Record FileTasks : Type := {
  file : File;
  write_lock : option nat;
  tasks : gmap nat FileTask;
}.

(** With a schema in hand. *)
Definition continue_with (request : FileRequest) (schema : Schema) : TaskPhase :=
  match request with
  | ReadRequest => TaskDone (Ok (schema_state schema))
  | StoreRequest state =>
      TaskWaiting {| schema_state := state; schema_version := schema_version schema |} false
  end.

Definition task_read (rd : ReadOutcome) (request : FileRequest) (f : File) : TaskPhase :=
  match rd with
  | ReadFails e => TaskDone (Err e)
  | ReadWorks =>
      match contents f with
      | None => TaskWaiting schema_default true
      | Some c =>
          if decide (c = ""%string) then TaskWaiting schema_default true
          else match parse_schema c with
               | Ok schema => continue_with request schema
               | Err e => TaskDone (Err e)
               end
      end
  end.

Definition task_stored (request : FileRequest) (schema : Schema) (default_ : bool)
    (r : result unit string) : TaskPhase :=
  match r with
  | Err e => TaskDone (Err e)
  | Ok _ => if default_ then continue_with request schema else TaskDone (Ok (schema_state schema))
  end.

Definition put_task (t : nat) (request : FileRequest) (phase : TaskPhase) (f : File)
    (lock : option nat) (y : FileTasks) : FileTasks :=
  {| file := f; write_lock := lock;
     tasks := <[t := {| task_request := request; task_phase := phase |}]> (tasks y) |}.

Inductive file_task_step : relation FileTasks :=
| task_starts y t request :
    tasks y !! t = None ->
    file_task_step y (put_task t request TaskReading (file y) (write_lock y) y)
| task_reads y t request rd :
    tasks y !! t = Some {| task_request := request; task_phase := TaskReading |} ->
    file_task_step y
      (put_task t request (task_read rd request (file y)) (file y) (write_lock y) y)
| task_creates y t request schema default_ :
    tasks y !! t = Some {| task_request := request; task_phase := TaskWaiting schema default_ |} ->
    write_lock y = None ->
    file_task_step y
      (put_task t request (TaskCreated schema default_) (create_file (file y)) (Some t) y)
| task_cannot_create y t request schema default_ e :
    tasks y !! t = Some {| task_request := request; task_phase := TaskWaiting schema default_ |} ->
    write_lock y = None ->
    file_task_step y (put_task t request (TaskDone (Err e)) (file y) None y)
| task_writes_some y t request schema default_ part rest :
    tasks y !! t = Some {| task_request := request; task_phase := TaskCreated schema default_ |} ->
    print_schema schema = part +:+ rest ->
    file_task_step y
      (put_task t request (TaskCreated schema default_) (write_file part (file y)) (write_lock y) y)
| task_writes y t request schema default_ :
    tasks y !! t = Some {| task_request := request; task_phase := TaskCreated schema default_ |} ->
    file_task_step y
      (put_task t request (TaskWritten schema default_) (write_file (print_schema schema) (file y))
         (write_lock y) y)
| task_cannot_write y t request schema default_ written e :
    tasks y !! t = Some {| task_request := request; task_phase := TaskCreated schema default_ |} ->
    file_task_step y
      (put_task t request (TaskDone (Err e)) (write_file written (file y)) None y)
| task_notifies y t request schema default_ f r :
    tasks y !! t = Some {| task_request := request; task_phase := TaskWritten schema default_ |} ->
    notify_stored schema (file y) = (f, r) ->
    file_task_step y (put_task t request (task_stored request schema default_ r) f None y).

(** ** Facts *)

(** [serde_json] reads back what it wrote, and writes something. *)
Hypothesis parse_print : forall s, parse_schema (print_schema s) = Ok s.
Hypothesis print_nonempty : forall s, print_schema s <> ""%string.

(** A state database keeps what it stores: in memory and in a file whose
    writes succeed, a read returns the last state stored, and the balancer's
    subscribers were sent it; storing reports an error when nobody listens,
    and the state is kept nevertheless. *)
Theorem database_read_after_store (state : BalancerDesiredState) (m : Memory) (f : File)
    (schema : Schema)
    (Hreadable : contents f = Some (print_schema schema)) :
  let '(m', rm) := memory_store state m in
  let '(f', rf) := file_store ReadWorks WriteWorks WriteWorks state f in
  memory_read m' = Ok state /\
  file_read ReadWorks WriteWorks f' = (f', Ok state) /\
  (is_ok rm = true <-> receivers (memory_notify_tx m) <> 0%nat) /\
  (is_ok rf = true <-> receivers (file_notify_tx f) <> 0%nat) /\
  (is_ok rf = true ->
   broadcast_sent (file_notify_tx f') = broadcast_sent (file_notify_tx f) ++ [state]).
Proof.
  unfold file_store, update_schema, read_schema_from_file, memory_store, broadcast_send.
  rewrite Hreadable. rewrite decide_False by apply print_nonempty. rewrite parse_print. simpl.
  unfold notify_stored, broadcast_send, file_read, read_schema_from_file. simpl.
  destruct (Nat.eqb_spec (receivers (memory_notify_tx m)) 0);
    destruct (Nat.eqb_spec (receivers (file_notify_tx f)) 0); simpl;
    rewrite decide_False by apply print_nonempty; rewrite parse_print; simpl; done.
Qed.

(** A file that is missing or empty, as a crash between creating and
    writing leaves it, is not an error: reading it stores the default schema
    and returns the default state; a file the parser rejects is reported and
    left as it is, whether it is read or updated. *)
Theorem file_database_recovers (f : File) (state : BalancerDesiredState)
    (Hlisten : receivers (file_notify_tx f) <> 0%nat) :
  (contents f = None \/ contents f = Some ""%string ->
   exists f', file_read ReadWorks WriteWorks f = (f', Ok balancer_desired_state_default) /\
     contents f' = Some (print_schema schema_default) /\
     file_read ReadWorks WriteWorks f' = (f', Ok balancer_desired_state_default)) /\
  (forall c e, contents f = Some c -> c <> ""%string -> parse_schema c = Err e ->
   file_read ReadWorks WriteWorks f = (f, Err e) /\
   file_store ReadWorks WriteWorks WriteWorks state f = (f, Err e)).
Proof.
  apply Nat.eqb_neq in Hlisten. split.
  - intros Hc. unfold file_read, read_schema_from_file.
    assert (Hdefault : match contents f with
                       | Some c => if decide (c = ""%string) then store_default_schema WriteWorks f
                                   else (f, parse_schema c)
                       | None => store_default_schema WriteWorks f
                       end = store_default_schema WriteWorks f).
    { destruct Hc as [-> | ->]; [done|]. by rewrite decide_True. }
    rewrite Hdefault. unfold store_default_schema, store_schema, notify_stored, broadcast_send. simpl.
    rewrite Hlisten. eexists. split; [done|]. split; [done|]. simpl.
    rewrite decide_False by apply print_nonempty. by rewrite parse_print.
  - intros c e Hc Hne He. unfold file_store, update_schema, file_read, read_schema_from_file.
    rewrite Hc, decide_False by done. by rewrite He.
Qed.

(** A task that runs alone does what [file_read] and [file_store] do
    ([read_alone] and [update_alone]). *)
Lemma store_alone (y : FileTasks) (t : nat) (request : FileRequest) (schema : Schema)
    (default_ : bool) :
  tasks y !! t = Some {| task_request := request; task_phase := TaskWaiting schema default_ |} ->
  write_lock y = None ->
  let '(f, r) := store_schema WriteWorks schema (file y) in
  rtc file_task_step y (put_task t request (task_stored request schema default_ r) f None y).
Proof.
  intros Ht Hl. unfold store_schema. destruct (notify_stored _ _) as [f r] eqn:Hn.
  eapply rtc_l; [by apply (task_creates y t request schema default_)|].
  eapply rtc_l; [by apply (task_writes _ t request schema default_); apply lookup_insert_eq|].
  eapply rtc_l; [apply (task_notifies _ t request schema default_ f r);
                   [apply lookup_insert_eq|done]|].
  unfold put_task. simpl. rewrite !insert_insert_eq. apply rtc_refl.
Qed.

Lemma put_task_again (t : nat) (request request' : FileRequest) (phase phase' : TaskPhase)
    (f f' : File) (lock lock' : option nat) (y : FileTasks) :
  put_task t request phase f lock (put_task t request' phase' f' lock' y)
  = put_task t request phase f lock y.
Proof. unfold put_task. simpl. by rewrite insert_insert_eq. Qed.

Lemma read_alone (y : FileTasks) (t : nat) :
  tasks y !! t = Some {| task_request := ReadRequest; task_phase := TaskReading |} ->
  write_lock y = None ->
  let '(f, r) := file_read ReadWorks WriteWorks (file y) in
  rtc file_task_step y (put_task t ReadRequest (TaskDone r) f None y).
Proof.
  intros Ht Hl. pose proof (task_reads y t ReadRequest ReadWorks Ht) as Hstep.
  rewrite Hl in Hstep. unfold file_read, read_schema_from_file, task_read in *.
  assert (Hdefault :
    file_task_step y (put_task t ReadRequest (TaskWaiting schema_default true) (file y) None y) ->
    let '(f, r) := store_default_schema WriteWorks (file y) in
    rtc file_task_step y
      (put_task t ReadRequest (task_stored ReadRequest schema_default true
         (match r with Ok _ => Ok tt | Err e => Err e end)) f None y)).
  { intros H1. pose proof (store_alone
      (put_task t ReadRequest (TaskWaiting schema_default true) (file y) None y) t ReadRequest
      schema_default true (lookup_insert_eq _ _ _) eq_refl) as Hstore.
    cbn [file put_task] in Hstore. unfold store_default_schema.
    destruct (store_schema WriteWorks schema_default (file y)) as [f [[]|e]];
      rewrite put_task_again in Hstore; by eapply rtc_l. }
  assert (Hok : forall f r, store_default_schema WriteWorks (file y) = (f, r) ->
    forall schema, r = Ok schema -> schema = schema_default).
  { unfold store_default_schema. destruct (store_schema _ _ _) as [f [[]|e]]; naive_solver. }
  destruct (contents (file y)) as [c|]; [case_decide|].
  - specialize (Hdefault Hstep). destruct (store_default_schema _ _) as [f [schema|e]]; [|done].
    by rewrite (Hok f _ eq_refl schema eq_refl).
  - destruct (parse_schema c) as [schema|e]; by apply rtc_once.
  - specialize (Hdefault Hstep). destruct (store_default_schema _ _) as [f [schema|e]]; [|done].
    by rewrite (Hok f _ eq_refl schema eq_refl).
Qed.

Lemma update_alone (y : FileTasks) (t : nat) (state : BalancerDesiredState) :
  tasks y !! t = Some {| task_request := StoreRequest state; task_phase := TaskReading |} ->
  write_lock y = None ->
  let '(f, r) := file_store ReadWorks WriteWorks WriteWorks state (file y) in
  rtc file_task_step y
    (put_task t (StoreRequest state)
       (TaskDone (match r with Ok _ => Ok state | Err e => Err e end)) f None y).
Proof.
  intros Ht Hl. pose proof (task_reads y t (StoreRequest state) ReadWorks Ht) as Hstep.
  rewrite Hl in Hstep.
  assert (Hstored : forall schema f,
    let schema' := {| schema_state := state; schema_version := schema_version schema |} in
    let '(f', r) := store_schema WriteWorks schema' f in
    rtc file_task_step (put_task t (StoreRequest state) (continue_with (StoreRequest state) schema) f None y)
      (put_task t (StoreRequest state)
         (TaskDone (match r with Ok _ => Ok state | Err e => Err e end)) f' None y)).
  { intros schema f schema'. pose proof (store_alone
      (put_task t (StoreRequest state) (TaskWaiting schema' false) f None y) t (StoreRequest state)
      schema' false (lookup_insert_eq _ _ _) eq_refl) as Hstore.
    cbn [file put_task] in Hstore. destruct (store_schema WriteWorks schema' f) as [f' [[]|e]];
      by rewrite put_task_again in Hstore. }
  unfold file_store, update_schema, read_schema_from_file, task_read in *.
  assert (Hdefault :
    file_task_step y
      (put_task t (StoreRequest state) (TaskWaiting schema_default true) (file y) None y) ->
    let '(f, r) := match store_default_schema WriteWorks (file y) with
                   | (f1, Ok schema) => store_schema WriteWorks
                       {| schema_state := state; schema_version := schema_version schema |} f1
                   | (f1, Err e) => (f1, Err e)
                   end in
    rtc file_task_step y (put_task t (StoreRequest state)
      (TaskDone (match r with Ok _ => Ok state | Err e => Err e end)) f None y)).
  { intros H1. pose proof (store_alone
      (put_task t (StoreRequest state) (TaskWaiting schema_default true) (file y) None y) t
      (StoreRequest state) schema_default true (lookup_insert_eq _ _ _) eq_refl) as Hstore.
    cbn [file put_task] in Hstore. unfold store_default_schema.
    destruct (store_schema WriteWorks schema_default (file y)) as [f [[]|e]];
      rewrite put_task_again in Hstore; [|by eapply rtc_l].
    specialize (Hstored schema_default f). cbv zeta in Hstored.
    destruct (store_schema _ _ f) as [f' r]. eapply rtc_l; [exact H1|]. by etrans. }
  destruct (contents (file y)) as [c|]; [case_decide|]; [by apply Hdefault| |by apply Hdefault].
  destruct (parse_schema c) as [schema|e]; [|by apply rtc_once].
  specialize (Hstored schema (file y)). cbv zeta in Hstored.
  destruct (store_schema _ _ (file y)) as [f' r]. by eapply rtc_l.
Qed.

(** A request that reads while another one stores can find the file empty: it
    takes it for a database without a schema, and stores the default over the
    state that was just stored.  Both requests succeed. *)
Lemma reader_discards_stored_state (f : File) (schema : Schema) (state : BalancerDesiredState) :
  contents f = Some (print_schema schema) -> receivers (file_notify_tx f) <> 0%nat ->
  exists y,
    rtc file_task_step {| file := f; write_lock := None; tasks := ∅ |} y /\
    tasks y !! 0%nat = Some {| task_request := StoreRequest state; task_phase := TaskDone (Ok state) |} /\
    tasks y !! 1%nat = Some {| task_request := ReadRequest;
                               task_phase := TaskDone (Ok balancer_desired_state_default) |} /\
    write_lock y = None /\
    file_read ReadWorks WriteWorks (file y) = (file y, Ok balancer_desired_state_default).
Proof.
  intros Hc Hl. apply Nat.eqb_neq in Hl.
  set (stored := {| schema_state := state; schema_version := schema_version schema |}).
  eexists. split.
  - eapply rtc_l; [by apply (task_starts _ 0 (StoreRequest state))|].
    eapply rtc_l; [by apply (task_reads _ 0 (StoreRequest state) ReadWorks)|].
    unfold task_read. cbn [file put_task]. rewrite Hc, decide_False, parse_print by apply print_nonempty.
    cbn [continue_with].
    eapply rtc_l; [by apply (task_creates _ 0 (StoreRequest state) stored false)|].
    eapply rtc_l; [by apply (task_starts _ 1 ReadRequest)|].
    eapply rtc_l; [by apply (task_reads _ 1 ReadRequest ReadWorks)|].
    eapply rtc_l; [by apply (task_writes _ 0 (StoreRequest state) stored false)|].
    eapply rtc_l; [eapply (task_notifies _ 0 (StoreRequest state) stored false); [done|];
                   unfold notify_stored, broadcast_send; simpl; rewrite Hl; done|].
    eapply rtc_l; [by apply (task_creates _ 1 ReadRequest schema_default true)|].
    eapply rtc_l; [by apply (task_writes _ 1 ReadRequest schema_default true)|].
    eapply rtc_l; [eapply (task_notifies _ 1 ReadRequest schema_default true); [done|];
                   unfold notify_stored, broadcast_send; simpl; rewrite Hl; done|].
    apply rtc_refl.
  - split_and!; try done. unfold file_read, read_schema_from_file. simpl.
    by rewrite decide_False, parse_print by apply print_nonempty.
Qed.

End FileDatabase.


(** ** A concrete serialization

    A schema is countable, and the digits of its number are a string: a
    printer and a parser that obey the law, to run the definitions. *)

Definition encode_float (x : f32) : nat * bool * positive * Z :=
  match x with
  | S754_zero s => (0%nat, s, 1%positive, 0)
  | S754_infinity s => (1%nat, s, 1%positive, 0)
  | S754_nan => (2%nat, false, 1%positive, 0)
  | S754_finite s m e => (3%nat, s, m, e)
  end.
Definition decode_float (c : nat * bool * positive * Z) : option f32 :=
  match c with
  | (0, s, _, _) => Some (S754_zero s)
  | (1, s, _, _) => Some (S754_infinity s)
  | (2, _, _, _) => Some S754_nan
  | (_, s, m, e) => Some (S754_finite s m e)
  end%nat.
Lemma decode_encode_float (x : f32) : decode_float (encode_float x) = Some x.
Proof. by destruct x. Qed.
#[local] Instance f32_eq_dec : EqDecision f32.
Proof. unfold f32. solve_decision. Defined.
#[local] Instance f32_countable : Countable f32 :=
  inj_countable encode_float decode_float decode_encode_float.

Definition encode_dtype (d : KvCacheDtype) : nat :=
  match d with
  | F32 => 0 | F16 => 1 | Bf16 => 2 | Q80 => 3 | Q40 => 4 | Q41 => 5 | Iq4Nl => 6 | Q50 => 7
  | Q51 => 8
  end.
Definition decode_dtype (n : nat) : option KvCacheDtype :=
  [F32; F16; Bf16; Q80; Q40; Q41; Iq4Nl; Q50; Q51] !! n.
Lemma decode_encode_dtype (d : KvCacheDtype) : decode_dtype (encode_dtype d) = Some d.
Proof. by destruct d. Qed.
#[local] Instance dtype_eq_dec : EqDecision KvCacheDtype.
Proof. solve_decision. Defined.
#[local] Instance dtype_countable : Countable KvCacheDtype :=
  inj_countable encode_dtype decode_dtype decode_encode_dtype.

Definition encode_pooling (p : PoolingType) : nat :=
  match p with
  | PoolingUnspecified => 0 | PoolingNone => 1 | PoolingMean => 2 | PoolingCls => 3
  | PoolingLast => 4 | PoolingRank => 5
  end.
Definition decode_pooling (n : nat) : option PoolingType :=
  [PoolingUnspecified; PoolingNone; PoolingMean; PoolingCls; PoolingLast; PoolingRank] !! n.
Lemma decode_encode_pooling (p : PoolingType) : decode_pooling (encode_pooling p) = Some p.
Proof. by destruct p. Qed.
#[local] Instance pooling_eq_dec : EqDecision PoolingType.
Proof. solve_decision. Defined.
#[local] Instance pooling_countable : Countable PoolingType :=
  inj_countable encode_pooling decode_pooling decode_encode_pooling.

Definition encode_model (m : AgentDesiredModel) : nat * list string :=
  match m with
  | HuggingFace r => (0%nat, [filename r; repo_id r; revision r])
  | LocalToAgent p => (1%nat, [p])
  | Url r => (2%nat, [url r])
  | NoModel => (3%nat, [])
  end.
Definition decode_model (c : nat * list string) : option AgentDesiredModel :=
  match c with
  | (0%nat, [f; r; v]) => Some (HuggingFace {| filename := f; repo_id := r; revision := v |})
  | (1%nat, [p]) => Some (LocalToAgent p)
  | (2%nat, [u]) => Some (Url {| url := u |})
  | (3%nat, []) => Some NoModel
  | _ => None
  end.
Lemma decode_encode_model (m : AgentDesiredModel) : decode_model (encode_model m) = Some m.
Proof. by destruct m as [[]| |[]|]. Qed.
#[local] Instance huggingface_eq_dec : EqDecision HuggingFaceModelReference.
Proof. solve_decision. Defined.
#[local] Instance url_eq_dec : EqDecision UrlModelReference.
Proof. solve_decision. Defined.
#[local] Instance model_eq_dec : EqDecision AgentDesiredModel.
Proof. solve_decision. Defined.
#[local] Instance model_countable : Countable AgentDesiredModel :=
  inj_countable encode_model decode_model decode_encode_model.

Definition encode_schema (s : Schema) :=
  let st := schema_state s in
  let p := balancer_inference_parameters st in
  (content <$> balancer_chat_template_override st, balancer_model st,
   balancer_multimodal_projection st, use_chat_template_override st, schema_version s,
   ([n_batch p; context_size p; embedding_batch_size p; image_resize_to_fit p; n_gpu_layers p;
     penalty_last_n p; top_k p], enable_embeddings p, k_cache_dtype p, v_cache_dtype p,
    inference_pooling_type p,
    [min_p p; penalty_frequency p; penalty_presence p; penalty_repeat p; temperature p; top_p p])).

Definition decode_schema (c : option string * AgentDesiredModel * AgentDesiredModel * bool * string *
    (list Z * bool * KvCacheDtype * KvCacheDtype * PoolingType * list f32)) : option Schema :=
  match c with
  | (t, m, mm, u, v, ([b; cs; eb; ir; g; ln; k], e, kd, vd, pt, [mp; pf; pp; pr; te; tp])) =>
      Some {| schema_state :=
                {| balancer_chat_template_override := Build_ChatTemplate <$> t;
                   balancer_inference_parameters :=
                     {| n_batch := b; context_size := cs; embedding_batch_size := eb;
                        enable_embeddings := e; image_resize_to_fit := ir; k_cache_dtype := kd;
                        v_cache_dtype := vd; min_p := mp; n_gpu_layers := g;
                        penalty_frequency := pf; penalty_last_n := ln; penalty_presence := pp;
                        penalty_repeat := pr; inference_pooling_type := pt; temperature := te;
                        top_k := k; top_p := tp |};
                   balancer_model := m; balancer_multimodal_projection := mm;
                   use_chat_template_override := u |};
              schema_version := v |}
  | _ => None
  end.
Lemma decode_encode_schema (s : Schema) : decode_schema (encode_schema s) = Some s.
Proof. by destruct s as [[[[]|] [] ? ? ?] ?]. Qed.

Fixpoint print_positive (p : positive) : string :=
  match p with
  | xH => "."%string
  | xO q => String "0"%char (print_positive q)
  | xI q => String "1"%char (print_positive q)
  end.
Fixpoint parse_positive (s : string) : option positive :=
  match s with
  | "."%string => Some xH
  | String "0"%char rest => xO <$> parse_positive rest
  | String "1"%char rest => xI <$> parse_positive rest
  | _ => None
  end.
Lemma parse_print_positive (p : positive) : parse_positive (print_positive p) = Some p.
Proof. induction p as [p IH|p IH|]; simpl; by rewrite ?IH. Qed.

Definition digits_print (s : Schema) : string := print_positive (encode (encode_schema s)).
Definition digits_parse (s : string) : result Schema string :=
  match (p ← parse_positive s; c ← decode p; decode_schema c) with
  | Some schema => Ok schema
  | None => Err "Unable to parse database file contents"%string
  end.
Lemma digits_parse_print (s : Schema) : digits_parse (digits_print s) = Ok s.
Proof.
  unfold digits_parse, digits_print. rewrite parse_print_positive.
  cbn [mbind option_bind]. rewrite decode_encode. cbn [mbind option_bind].
  by rewrite decode_encode_schema.
Qed.
Lemma digits_nonempty (s : Schema) : digits_print s <> ""%string.
Proof. unfold digits_print. by destruct (encode (encode_schema s)). Qed.

Definition sample_file (c : option string) : File :=
  {| contents := c; file_notify_tx := {| receivers := 1; broadcast_sent := [] |} |}.

Lemma database_read_after_store_witness :
  let f := sample_file (Some (digits_print schema_default)) in
  let '(f', rf) := file_store digits_print digits_parse ReadWorks WriteWorks WriteWorks
                     balancer_desired_state_default f in
  file_read digits_print digits_parse ReadWorks WriteWorks f'
  = (f', Ok balancer_desired_state_default).
Proof.
  intros f.
  pose proof (database_read_after_store digits_print digits_parse digits_parse_print
    digits_nonempty balancer_desired_state_default
    {| memory_state := balancer_desired_state_default;
       memory_notify_tx := {| receivers := 0; broadcast_sent := [] |} |} f schema_default eq_refl)
    as Hdb.
  destruct (memory_store _ _) as [m' rm].
  destruct (file_store _ _ _ _ _ _ f) as [f' rf]. exact (proj1 (proj2 Hdb)).
Defined.

Lemma file_database_recovers_witness :
  exists f', file_read digits_print digits_parse ReadWorks WriteWorks (sample_file None)
             = (f', Ok balancer_desired_state_default).
Proof.
  destruct (file_database_recovers digits_print digits_parse digits_parse_print digits_nonempty
    (sample_file None) balancer_desired_state_default ltac:(simpl; lia)) as [Hdefault _].
  destruct (Hdefault (or_introl eq_refl)) as (f' & Hf & _). exists f'. exact Hf.
Defined.
