(* ===== verification/BufferedRequests.v ===== *)
(** * Buffered requests: waiting for an agent with a free slot

    [buffered_request_manager.rs], [buffered_request_counter.rs],
    [buffered_request_count_guard.rs] and [buffered_request_agent_wait_result.rs].
    A request that finds no free slot waits: it counts itself, subscribes to
    the pool, and looks again whenever the pool announces a change, until it
    finds a slot or its time is up.

    [wait_arrive], [wait_subscribe] and [wait_check] are the pieces of
    [wait_for_available_agent] as they run when nobody interferes.  In the
    system [buffer_step] the search of the pool is taken apart: the visit of
    each agent, and the claim, is a step of its own, requests and agents
    interleave between any two of them, and every change of the pool is one
    step and its announcement ([send_replace] on the watch channel) a later
    one.  What a controller does with one report, and the two counters read on
    the visit of an agent, stay one step. *)

From S2P Require Import Prelude Tokio Messages AtomicValue Requests Senders SlotStatus.
From S2P Require Import AgentController AgentPool.
Import Controller.
Local Open Scope Z_scope.

Inductive BufferedRequestAgentWaitResult : Type :=
| BufferOverflow
| Found (agent : DispatchedAgent)
| TimedOut.

Section BufferedRequests.
Context `{JsonTypes} `{LlamaTypes} {chan : Type -> Type} `{!UnboundedChannel chan} {token : Type}.
Context {sender receiver : Type} `{!WatchChannel sender receiver}.
Context (iteration : gmap string nat -> list (string * nat)).
Context (iteration_entries : forall m, iteration m ≡ₚ map_to_list m).

Local Abbreviation AgentController := (AgentController chan token).
Local Abbreviation Pool := (AgentControllerPool chan token sender).

(** ** State *)

Record BufferedRequestCounter : Type := { count : Z; counter_update_tx : sender }.

Record BufferedRequestManager : Type := {
  manager_pool : Pool;
  buffered_request_counter : BufferedRequestCounter;
  max_buffered_requests : Z;
}.

(** ** Operations *)

Definition counter_increment (c : BufferedRequestCounter) : BufferedRequestCounter :=
  {| count := i32_increment (count c);
     counter_update_tx := watch_send_replace (counter_update_tx c) |}.

Definition counter_decrement (c : BufferedRequestCounter) : BufferedRequestCounter :=
  {| count := i32_decrement (count c);
     counter_update_tx := watch_send_replace (counter_update_tx c) |}.

Definition store_pool (p : Pool) (m : BufferedRequestManager) : BufferedRequestManager :=
  {| manager_pool := p; buffered_request_counter := buffered_request_counter m;
     max_buffered_requests := max_buffered_requests m |}.

Definition store_counter (c : BufferedRequestCounter) (m : BufferedRequestManager)
    : BufferedRequestManager :=
  {| manager_pool := manager_pool m; buffered_request_counter := c;
     max_buffered_requests := max_buffered_requests m |}.

(** [increment_with_guard] and the guard's [Drop]. *)
Definition increment_with_guard (m : BufferedRequestManager) : BufferedRequestManager :=
  store_counter (counter_increment (buffered_request_counter m)) m.
Definition drop_count_guard (m : BufferedRequestManager) : BufferedRequestManager :=
  store_counter (counter_decrement (buffered_request_counter m)) m.

(** A dispatch that nobody interferes with: one turn of its loop. *)
Definition take_agent (m : BufferedRequestManager)
    : BufferedRequestManager * option DispatchedAgent :=
  match take_least_busy_agent_controller iteration 1 (manager_pool m) with
  | (p, Some found) => (store_pool p m, found)
  | (p, None) => (store_pool p m, None)
  end.

(** Where a request is in [wait_for_available_agent]. *)
Inductive WaitPhase : Type :=
| Arrived
| Scanning (update_rx : option receiver) (todo : gset string) (best : option DispatchCandidate)
| Accepted
| Subscribed (update_rx : receiver)
| Waiting (update_rx : receiver)
| Finished (r : BufferedRequestAgentWaitResult).

(** The quick path and the check of the limit. *)
Definition wait_arrive (m : BufferedRequestManager) : BufferedRequestManager * WaitPhase :=
  match take_agent m with
  | (m', Some agent) => (m', Finished (Found agent))
  | (m', None) =>
      if max_buffered_requests m' <=? count (buffered_request_counter m')
      then (m', Finished BufferOverflow)
      else (m', Accepted)
  end.

(** Counting itself, and subscribing. *)
Definition wait_subscribe (m : BufferedRequestManager) : BufferedRequestManager * WaitPhase :=
  let m' := increment_with_guard m in
  (m', Subscribed (watch_subscribe (pool_update_tx (manager_pool m')))).

(** One turn of the loop, up to [update_rx.changed()]. *)
Definition wait_check (update_rx : receiver) (m : BufferedRequestManager)
    : BufferedRequestManager * WaitPhase :=
  match take_agent m with
  | (m', Some agent) => (drop_count_guard m', Finished (Found agent))
  | (m', None) => (m', Waiting update_rx)
  end.

(** [changed()] returns when the pool announced something. *)
Definition wait_wake (update_rx : receiver) (m : BufferedRequestManager) : option WaitPhase :=
  let tx := pool_update_tx (manager_pool m) in
  if watch_has_changed tx update_rx then Some (Subscribed (watch_mark_seen tx update_rx)) else None.

(** The timer of [timeout] while the request waits. *)
Definition wait_timeout (m : BufferedRequestManager) : BufferedRequestManager * WaitPhase :=
  (drop_count_guard m, Finished TimedOut).

(** The search of [take_least_busy_agent_controller] step by step: the agents
    still to visit are a set, since the map is visited in no particular order;
    [update_rx] is there when the search is one of the loop. *)
Definition scan_start (update_rx : option receiver) (m : BufferedRequestManager) : WaitPhase :=
  Scanning update_rx (dom (agents (manager_pool m))) None.

Definition scan_visit (agent_id : string) (best : option DispatchCandidate) (p : Pool)
    : option DispatchCandidate :=
  match agents p !! agent_id with
  | Some loc => consider_agent (controllers p) best (agent_id, loc)
  | None => best
  end.

(** The end of a search: the candidate is claimed, or the search starts again;
    without a candidate the quick path checks the limit and the loop waits. *)
Definition scan_end (update_rx : option receiver) (best : option DispatchCandidate)
    (m : BufferedRequestManager) : BufferedRequestManager * WaitPhase :=
  match best with
  | Some candidate =>
      match try_claim candidate (manager_pool m) with
      | (p, Ok dispatched) =>
          (match update_rx with
           | Some _ => drop_count_guard (store_pool p m)
           | None => store_pool p m
           end, Finished (Found dispatched))
      | (p, Err _) => (store_pool p m, scan_start update_rx (store_pool p m))
      end
  | None =>
      match update_rx with
      | Some rx => (m, Waiting rx)
      | None =>
          if max_buffered_requests m <=? count (buffered_request_counter m)
          then (m, Finished BufferOverflow)
          else (m, Accepted)
      end
  end.

(** ** The manager in use *)

(** [owed] counts the changes of the pool whose announcement is still to come;
    [unannounced] are the controllers that took the place of another one since
    the last announcement: [register_agent_controller] announces only the first
    registration of an id. *)
Record BufferSystem : Type := {
  manager : BufferedRequestManager;
  requests : gmap nat WaitPhase;
  owed : nat;
  unannounced : gset nat;
}.

Definition is_buffered (w : WaitPhase) : bool :=
  match w with
  | Subscribed _ | Waiting _ | Scanning (Some _) _ _ => true
  | Arrived | Scanning None _ _ | Accepted | Finished _ => false
  end.

Definition buffered (reqs : gmap nat WaitPhase) : Z :=
  Z.of_nat (size (filter (fun tw => is_buffered (snd tw) = true) reqs)).

(** What agents, and the balancer for them, do to the pool; the set are the
    controllers put in the place of another one.  [event_touch] is whatever
    leaves the slots of a controller alone: messages sent to it, its answers. *)
Inductive pool_event : Pool -> Pool -> gset nat -> Prop :=
| event_finish g p : pool_event p (drop_slot_guard g p) ∅
| event_report p loc a snap a' r :
    controllers p !! loc = Some a ->
    update_from_slot_aggregated_status_snapshot snap a = (a', r) ->
    pool_event p
      (let p' := store_controllers (<[loc := a']> (controllers p)) p in
       match r with Updated => signal_update p' | NoMeaningfulChanges => p' end) ∅
| event_register agent_id loc a p :
    controllers p !! loc = None ->
    pool_event p
      (fst (register_agent_controller agent_id loc
              (store_controllers (<[loc := a]> (controllers p)) p)))
      (match get_agent_controller agent_id p with Some _ => {[ loc ]} | None => ∅ end)
| event_remove agent_id p : pool_event p (fst (remove_agent_controller agent_id p)) ∅
| event_touch p loc a a' :
    controllers p !! loc = Some a ->
    slots_processing a' = slots_processing a -> slots_total a' = slots_total a ->
    pool_event p (store_controllers (<[loc := a']> (controllers p)) p) ∅.

(** How many announcements an operation makes. *)
Inductive announces (p p' : Pool) : nat -> Prop :=
| announces_once :
    pool_update_tx p' = watch_send_replace (pool_update_tx p) -> announces p p' 1
| announces_nothing : pool_update_tx p' = pool_update_tx p -> announces p p' 0.

(** The pool between what an operation did and its announcement. *)
Definition before_announcement (p p' : Pool) : Pool :=
  {| agents := agents p'; controllers := controllers p'; pool_update_tx := pool_update_tx p |}.

Definition put_request (t : nat) (w : WaitPhase) (m : BufferedRequestManager) (y : BufferSystem)
    : BufferSystem :=
  {| manager := m; requests := <[t := w]> (requests y); owed := owed y;
     unannounced := unannounced y |}.

Inductive buffer_step : relation BufferSystem :=
| buffer_step_new y t :
    requests y !! t = None -> buffer_step y (put_request t Arrived (manager y) y)
| buffer_step_arrive y t :
    requests y !! t = Some Arrived ->
    buffer_step y (put_request t (scan_start None (manager y)) (manager y) y)
| buffer_step_visit y t rx todo best agent_id :
    requests y !! t = Some (Scanning rx todo best) ->
    buffer_step y
      (put_request t
         (Scanning rx (todo ∖ {[ agent_id ]})
            (scan_visit agent_id best (manager_pool (manager y)))) (manager y) y)
| buffer_step_scanned y t rx best m w k :
    requests y !! t = Some (Scanning rx ∅ best) ->
    scan_end rx best (manager y) = (m, w) ->
    announces (manager_pool (manager y)) (manager_pool m) k ->
    buffer_step y
      {| manager := store_pool (before_announcement (manager_pool (manager y)) (manager_pool m)) m;
         requests := <[t := w]> (requests y); owed := (k + owed y)%nat;
         unannounced := unannounced y |}
| buffer_step_subscribe y t m w :
    requests y !! t = Some Accepted -> buffered (requests y) < i32_max ->
    wait_subscribe (manager y) = (m, w) -> buffer_step y (put_request t w m y)
| buffer_step_search y t rx :
    requests y !! t = Some (Subscribed rx) ->
    buffer_step y (put_request t (scan_start (Some rx) (manager y)) (manager y) y)
| buffer_step_wake y t rx w :
    requests y !! t = Some (Waiting rx) -> wait_wake rx (manager y) = Some w ->
    buffer_step y (put_request t w (manager y) y)
| buffer_step_timeout y t phase m w :
    requests y !! t = Some phase -> is_buffered phase = true ->
    wait_timeout (manager y) = (m, w) -> buffer_step y (put_request t w m y)
| buffer_step_pool y p placed k :
    pool_event (manager_pool (manager y)) p placed ->
    announces (manager_pool (manager y)) p k ->
    buffer_step y
      {| manager := store_pool (before_announcement (manager_pool (manager y)) p) (manager y);
         requests := requests y; owed := (k + owed y)%nat;
         unannounced := placed ∪ unannounced y |}
| buffer_step_announce y k :
    owed y = S k ->
    buffer_step y
      {| manager := store_pool (signal_update (manager_pool (manager y))) (manager y);
         requests := requests y; owed := k; unannounced := ∅ |}.

Definition buffer_initial (limit : Z) : BufferSystem :=
  {| manager := {| manager_pool := pool_default;
                   buffered_request_counter := {| count := 0; counter_update_tx := watch_new |};
                   max_buffered_requests := limit |};
     requests := ∅; owed := 0; unannounced := ∅ |}.

(** ** Invariant *)

Definition pool_exhausted (p : Pool) : Prop :=
  forall loc a, pool_agent p loc a -> ~ has_capacity a.

(** Every agent of the pool is busy, but for those in [except] and those
    registered under the ids [todo]. *)
Definition exhausted_but (p : Pool) (except : gset nat) (todo : gset string) : Prop :=
  forall agent_id loc a, agents p !! agent_id = Some loc -> controllers p !! loc = Some a ->
    has_capacity a -> loc ∈ except \/ agent_id ∈ todo.

Definition receiver_of (w : WaitPhase) : option receiver :=
  match w with
  | Subscribed rx | Waiting rx | Scanning (Some rx) _ _ => Some rx
  | Arrived | Scanning None _ _ | Accepted | Finished _ => None
  end.

(** A request that found nothing so far, with what it has not looked at. *)
Definition found_nothing (w : WaitPhase) : option (receiver * gset string) :=
  match w with
  | Waiting rx => Some (rx, ∅)
  | Scanning (Some rx) todo None => Some (rx, todo)
  | _ => None
  end.

Definition will_look_again (y : BufferSystem) (rx : receiver) (todo : gset string) : Prop :=
  watch_has_changed (pool_update_tx (manager_pool (manager y))) rx = true \/
  (0 < owed y)%nat \/
  exhausted_but (manager_pool (manager y)) (unannounced y) todo.

Record buffer_wf (y : BufferSystem) : Prop := {
  wf_count : count (buffered_request_counter (manager y)) = buffered (requests y);
  wf_bound : buffered (requests y) <= i32_max;
  wf_receivers t w rx :
    requests y !! t = Some w -> receiver_of w = Some rx ->
    watch_valid (pool_update_tx (manager_pool (manager y))) rx;
  wf_waiting t w rx todo :
    requests y !! t = Some w -> found_nothing w = Some (rx, todo) -> will_look_again y rx todo;
}.

(** ** Facts *)

(** A change of the pool that is not announced frees no slot, but in the
    controllers it puts in the place of others. *)
Definition frees_nothing (p p' : Pool) (placed : gset nat) : Prop :=
  forall agent_id loc a', agents p' !! agent_id = Some loc -> controllers p' !! loc = Some a' ->
    has_capacity a' ->
    loc ∈ placed \/
    exists a, agents p !! agent_id = Some loc /\ controllers p !! loc = Some a /\ has_capacity a.

Lemma frees_nothing_refl (p p' : Pool) (placed : gset nat) :
  agents p' = agents p -> controllers p' = controllers p -> frees_nothing p p' placed.
Proof. intros Ha Hc agent_id loc a Hag Hco Hcap. rewrite Ha in Hag. rewrite Hc in Hco. eauto. Qed.

(** One controller changes, and none of its slots. *)
Lemma frees_nothing_update (p : Pool) (loc : nat) (a a' : AgentController) (placed : gset nat) :
  controllers p !! loc = Some a ->
  slots_processing a' = slots_processing a -> slots_total a' = slots_total a ->
  frees_nothing p (store_controllers (<[loc := a']> (controllers p)) p) placed.
Proof.
  intros Ha Hs Ht agent_id loc' b Hid Hb Hcap. right. simpl in *.
  apply lookup_insert_Some in Hb as [[<- <-]|[_ Hb]].
  - exists a. split_and!; [done|done|]. unfold has_capacity in *. lia.
  - by exists b.
Qed.

Lemma update_unchanged (snap : Snapshot.SlotAggregatedStatusSnapshot) (a a' : AgentController) :
  update_from_slot_aggregated_status_snapshot snap a = (a', NoMeaningfulChanges) ->
  slots_processing a' = slots_processing a /\ slots_total a' = slots_total a.
Proof.
  intros Hup. destruct (Z.ltb_spec (Snapshot.version snap) (newest_update_version a)) as [Hv|Hv].
  - rewrite update_stale in Hup by done. by simplify_eq.
  - destruct (update_fresh snap a Hv) as [Ha Hc]. rewrite Hup in Ha, Hc. simpl in Ha, Hc.
    destruct (proj1 Hc eq_refl) as [Hm _]. rewrite Ha. simpl. split; [done|].
    by apply (f_equal (fun v => v.1.1.2)) in Hm.
Qed.

Lemma pool_event_frees (p p' : Pool) (placed : gset nat) :
  pool_event p p' placed ->
  pool_update_tx p' = watch_send_replace (pool_update_tx p) \/ frees_nothing p p' placed.
Proof.
  intros He. destruct He as [g p|p loc a snap a' r Ha Hup|agent_id loc a p Hloc|agent_id p
                            |p loc a a' Ha Hs Ht].
  - by left.
  - destruct r; [|by left]. right. apply update_unchanged in Hup as [Hs Ht].
    by eapply frees_nothing_update.
  - unfold register_agent_controller, get_agent_controller in *. simpl.
    destruct (agents p !! agent_id) as [old|] eqn:E; [right|by left].
    intros id loc' b Hid Hb Hcap. simpl in *.
    destruct (decide (loc' = loc)) as [->|Hne]; [left; set_solver|right].
    rewrite lookup_insert_ne in Hb by done. exists b. split_and!; [|done..].
    by apply lookup_insert_Some in Hid as [[_ ?]|[_ ?]]; [congruence|].
  - unfold remove_agent_controller. destruct (agents p !! agent_id) eqn:E; simpl; [by left|right].
    rewrite delete_id by done. by apply frees_nothing_refl.
  - right. by eapply frees_nothing_update.
Qed.

(** A dispatch either takes a slot and says so, or leaves the pool as it was,
    which then has no free slot. *)
Lemma take_agent_spec (m m' : BufferedRequestManager) (found : option DispatchedAgent) :
  take_agent m = (m', found) ->
  buffered_request_counter m' = buffered_request_counter m /\
  max_buffered_requests m' = max_buffered_requests m /\
  match found with
  | Some _ => pool_update_tx (manager_pool m') = watch_send_replace (pool_update_tx (manager_pool m))
  | None => manager_pool m' = manager_pool m /\ pool_exhausted (manager_pool m)
  end.
Proof.
  unfold take_agent. simpl. pose proof (select_best iteration iteration_entries (manager_pool m))
    as Hsel.
  destruct (select_least_busy_with_capacity iteration (manager_pool m)) as [c|].
  - destruct Hsel as [(a & Ha & Hs & _) _]. unfold try_claim.
    rewrite (proj2 Ha), Hs, compare_and_swap_same. intros [= <- <-]. done.
  - intros [= <- <-]. destruct m. done.
Qed.

Definition bool_Z (b : bool) : Z := if b then 1 else 0.

Lemma buffered_delete (reqs : gmap nat WaitPhase) (t : nat) (w : WaitPhase) :
  reqs !! t = Some w -> buffered reqs = buffered (delete t reqs) + bool_Z (is_buffered w).
Proof.
  intros Ht. unfold buffered. rewrite map_filter_delete.
  destruct (is_buffered w) eqn:E; simpl.
  - assert (Hin : filter (fun tw => is_buffered tw.2 = true) reqs !! t = Some w)
      by by apply map_lookup_filter_Some.
    rewrite map_size_delete, Hin. simpl.
    assert (Hpos : size (filter (fun tw => is_buffered tw.2 = true) reqs) <> 0%nat)
      by (eapply map_size_ne_0_lookup_2; by eexists).
    lia.
  - rewrite delete_id; [lia|]. apply map_lookup_filter_None. right.
    intros w' Hw'. simplify_eq. simpl. congruence.
Qed.

Lemma buffered_insert_fresh (reqs : gmap nat WaitPhase) (t : nat) (w : WaitPhase) :
  reqs !! t = None -> buffered (<[t := w]> reqs) = buffered reqs + bool_Z (is_buffered w).
Proof.
  intros Ht. rewrite (buffered_delete (<[t := w]> reqs) t w) by by rewrite lookup_insert_eq.
  by rewrite delete_insert_id.
Qed.

Lemma buffered_insert (reqs : gmap nat WaitPhase) (t : nat) (w w0 : WaitPhase) :
  reqs !! t = Some w0 ->
  buffered (<[t := w]> reqs) = buffered reqs + bool_Z (is_buffered w) - bool_Z (is_buffered w0).
Proof.
  intros Ht. rewrite (buffered_delete reqs t w0 Ht).
  rewrite <- insert_delete_eq, buffered_insert_fresh by apply lookup_delete_eq. lia.
Qed.

Lemma buffered_nonneg (reqs : gmap nat WaitPhase) : 0 <= buffered reqs.
Proof. unfold buffered. lia. Qed.

(** An operation on the pool, before its announcement: who would have looked
    again still does. *)
Lemma look_again_operation (y : BufferSystem) (p : Pool) (placed : gset nat) (k : nat)
    (m : BufferedRequestManager) (reqs : gmap nat WaitPhase) (rx : receiver) (todo : gset string) :
  let p0 := manager_pool (manager y) in
  pool_update_tx p = watch_send_replace (pool_update_tx p0) \/ frees_nothing p0 p placed ->
  announces p0 p k -> watch_valid (pool_update_tx p0) rx -> will_look_again y rx todo ->
  will_look_again
    {| manager := store_pool (before_announcement p0 p) m; requests := reqs;
       owed := (k + owed y)%nat; unannounced := placed ∪ unannounced y |} rx todo.
Proof.
  intros p0 Hp Hk Hrx [Hch|[Ho|Hex]]; [by left | right; left; simpl; lia |].
  destruct Hk as [Htx|Htx]; [right; left; simpl; lia|].
  destruct Hp as [Htx'|Hfree].
  - left. simpl. rewrite <- Htx, Htx'. by apply watch_send_changed.
  - right; right. intros id loc a Hid Ha Hcap. simpl in *.
    destruct (Hfree _ _ _ Hid Ha Hcap) as [?|(b & Hid' & Hb & Hcap')]; [set_solver|].
    destruct (Hex _ _ _ Hid' Hb Hcap'); set_solver.
Qed.

(** One request changes its phase, the others would still look again, and the
    count follows the phase. *)
Lemma buffer_wf_request (y y' : BufferSystem) (t : nat) (w0 w : WaitPhase) :
  buffer_wf y -> requests y !! t = Some w0 -> requests y' = <[t := w]> (requests y) ->
  pool_update_tx (manager_pool (manager y')) = pool_update_tx (manager_pool (manager y)) ->
  (forall rx todo, watch_valid (pool_update_tx (manager_pool (manager y))) rx ->
     will_look_again y rx todo -> will_look_again y' rx todo) ->
  count (buffered_request_counter (manager y'))
  = count (buffered_request_counter (manager y)) + bool_Z (is_buffered w)
    - bool_Z (is_buffered w0) ->
  buffered (requests y') <= i32_max ->
  (forall rx, receiver_of w = Some rx ->
     watch_valid (pool_update_tx (manager_pool (manager y'))) rx) ->
  (forall rx todo, found_nothing w = Some (rx, todo) -> will_look_again y' rx todo) ->
  buffer_wf y'.
Proof.
  intros [Hc Hb Hr Hw] Ht Hreqs Htx Hlook Hcount Hbound Hrx Hfound. constructor; simpl.
  - rewrite Hcount, Hc, Hreqs. by rewrite (buffered_insert _ _ _ _ Ht).
  - done.
  - rewrite Hreqs. intros t' w' rx [[<- <-]|[_ Ht']]%lookup_insert_Some Hrec; [by apply Hrx|].
    rewrite Htx. by eapply Hr.
  - rewrite Hreqs. intros t' w' rx todo [[<- <-]|[_ Ht']]%lookup_insert_Some Hf; [by apply Hfound|].
    apply Hlook; [|by eapply Hw]. eapply Hr; [exact Ht'|].
    by destruct w' as [|[]? []| | | |]; simplify_eq/=.
Qed.

(** The same for the steps that leave the pool as it is. *)
Lemma buffer_wf_put (y : BufferSystem) (t : nat) (w0 w : WaitPhase) (m : BufferedRequestManager) :
  buffer_wf y -> requests y !! t = Some w0 -> manager_pool m = manager_pool (manager y) ->
  count (buffered_request_counter m)
  = count (buffered_request_counter (manager y)) + bool_Z (is_buffered w)
    - bool_Z (is_buffered w0) ->
  buffered (<[t := w]> (requests y)) <= i32_max ->
  (forall rx, receiver_of w = Some rx ->
     watch_valid (pool_update_tx (manager_pool (manager y))) rx) ->
  (forall rx todo, found_nothing w = Some (rx, todo) -> will_look_again y rx todo) ->
  buffer_wf (put_request t w m y).
Proof.
  intros Hwf Ht Hp Hcount Hb Hrx Hfound.
  assert (Hsame : forall rx todo,
    will_look_again (put_request t w m y) rx todo <-> will_look_again y rx todo).
  { intros rx todo. unfold will_look_again. simpl. by rewrite Hp. }
  eapply (buffer_wf_request y _ t w0 w); try done; simpl; rewrite ?Hp; try done.
  - intros rx todo _. by rewrite Hsame.
  - intros rx todo Hf. apply Hsame. by apply Hfound.
Qed.

(** A visit: what the request has not looked at shrinks by the agent visited,
    unless that agent is a candidate. *)
Lemma scan_visit_exhausted (p : Pool) (except : gset nat) (todo : gset string) (agent_id : string) :
  exhausted_but p except todo -> scan_visit agent_id None p = None ->
  exhausted_but p except (todo ∖ {[ agent_id ]}).
Proof.
  intros Hex Hv id loc a Hid Ha Hcap.
  destruct (Hex _ _ _ Hid Ha Hcap) as [?|Hin]; [by left|].
  destruct (decide (id = agent_id)) as [->|Hne]; [|right; set_solver].
  exfalso. unfold scan_visit, consider_agent in Hv. rewrite Hid in Hv. simpl in Hv.
  rewrite Ha in Hv. unfold has_capacity in Hcap.
  destruct (Z.leb_spec (slots_total a) (slots_processing a)); [lia | done].
Qed.

Lemma scan_visit_candidate (p : Pool) (agent_id : string) (c : DispatchCandidate) :
  is_Some (scan_visit agent_id (Some c) p).
Proof.
  unfold scan_visit, consider_agent. destruct (agents p !! agent_id) as [loc|]; [|by eexists].
  simpl. repeat case_match; by eexists.
Qed.

Lemma exhausted_but_all (p : Pool) (except : gset nat) : exhausted_but p except (dom (agents p)).
Proof. intros id loc a Hid _ _. right. by apply elem_of_dom_2 in Hid. Qed.

(** The end of a search: a claim is announced; a claim that failed leaves the
    pool as it was, and so does a search without a candidate. *)
Lemma scan_end_spec (update_rx : option receiver) (best : option DispatchCandidate)
    (m m' : BufferedRequestManager) (w : WaitPhase) :
  scan_end update_rx best m = (m', w) ->
  (exists agent, w = Finished (Found agent) /\
    pool_update_tx (manager_pool m') = watch_send_replace (pool_update_tx (manager_pool m)) /\
    count (buffered_request_counter m')
    = match update_rx with
      | Some _ => i32_decrement (count (buffered_request_counter m))
      | None => count (buffered_request_counter m)
      end) \/
  m' = m /\
  (w = scan_start update_rx m /\ is_Some best \/
   best = None /\ match update_rx with
                  | Some rx => w = Waiting rx
                  | None => w = Accepted \/ w = Finished BufferOverflow
                  end).
Proof.
  unfold scan_end. destruct best as [c|].
  - unfold try_claim. destruct (controllers (manager_pool m) !! candidate_controller c) as [a|].
    + destruct (compare_and_swap _ _ _) as [[] slots]; intros [= <- <-].
      * left. eexists. split; [done|]. by destruct update_rx.
      * right. destruct m. split; [done|]. left. split; [done | by eexists].
    + intros [= <- <-]. right. destruct m. split; [done|]. left. split; [done | by eexists].
  - destruct update_rx as [rx|]; [intros [= <- <-]; by right; eauto|].
    destruct (_ <=? _); intros [= <- <-]; right; eauto.
Qed.

Lemma store_pool_same (m : BufferedRequestManager) (k : nat) :
  announces (manager_pool m) (manager_pool m) k ->
  store_pool (before_announcement (manager_pool m) (manager_pool m)) m = m.
Proof. by destruct m as [[]]. Qed.

Lemma buffer_wf_visit (y : BufferSystem) (t : nat) (update_rx : option receiver)
    (todo : gset string) (best : option DispatchCandidate) (agent_id : string) :
  buffer_wf y -> requests y !! t = Some (Scanning update_rx todo best) ->
  buffer_wf (put_request t
    (Scanning update_rx (todo ∖ {[ agent_id ]})
       (scan_visit agent_id best (manager_pool (manager y)))) (manager y) y).
Proof.
  intros Hwf Ht. pose proof Hwf as [Hc Hb Hr Hw].
  apply (buffer_wf_put y t (Scanning update_rx todo best)); try done.
  - simpl. destruct update_rx; lia.
  - rewrite (buffered_insert _ _ _ _ Ht). destruct update_rx; simpl; lia.
  - intros rx Hrx. by apply (Hr t _ rx Ht).
  - intros rx todo' Hf. destruct update_rx as [rx'|]; [|done]. simpl in Hf.
    destruct best as [c|].
    { destruct (scan_visit_candidate (manager_pool (manager y)) agent_id c) as [c' Hc'].
      by rewrite Hc' in Hf. }
    destruct (scan_visit agent_id None (manager_pool (manager y))) eqn:Hv; simplify_eq.
    destruct (Hw t _ rx todo Ht eq_refl) as [?|[?|?]]; [by left | by right; left |].
    right; right. by apply scan_visit_exhausted.
Qed.

Lemma buffer_wf_scanned (y : BufferSystem) (t : nat) (update_rx : option receiver)
    (best : option DispatchCandidate) (m : BufferedRequestManager) (w : WaitPhase) (k : nat) :
  buffer_wf y -> requests y !! t = Some (Scanning update_rx ∅ best) ->
  scan_end update_rx best (manager y) = (m, w) ->
  announces (manager_pool (manager y)) (manager_pool m) k ->
  buffer_wf
    {| manager := store_pool (before_announcement (manager_pool (manager y)) (manager_pool m)) m;
       requests := <[t := w]> (requests y); owed := (k + owed y)%nat;
       unannounced := unannounced y |}.
Proof.
  intros Hwf Ht Hend Hk. pose proof Hwf as [Hc Hb Hr Hw].
  pose proof (buffered_delete _ _ _ Ht) as Hdel. pose proof (buffered_nonneg (delete t (requests y))).
  apply scan_end_spec in Hend.
  assert (Hop : pool_update_tx (manager_pool m)
                = watch_send_replace (pool_update_tx (manager_pool (manager y))) \/
                frees_nothing (manager_pool (manager y)) (manager_pool m) ∅).
  { destruct Hend as [(? & _ & ? & _)|(-> & _)]; [by left | right; by apply frees_nothing_refl]. }
  assert (Hlook : forall rx todo, watch_valid (pool_update_tx (manager_pool (manager y))) rx ->
            will_look_again y rx todo ->
            will_look_again
              {| manager := store_pool (before_announcement (manager_pool (manager y))
                              (manager_pool m)) m;
                 requests := <[t := w]> (requests y); owed := (k + owed y)%nat;
                 unannounced := unannounced y |} rx todo).
  { intros rx todo Hrx Hl. rewrite <- (union_empty_l_L (unannounced y)).
    by apply look_again_operation. }
  eapply (buffer_wf_request y _ t (Scanning update_rx ∅ best) w); try done; simpl.
  - destruct Hend as [(agent & -> & _ & ->)|(-> & [[-> _]|[_ Hend]])]; simpl.
    + destruct update_rx; simpl in *; [|lia].
      rewrite i32_decrement_small by (unfold i32_min, i32_max in *; lia). lia.
    + destruct update_rx; simpl; lia.
    + destruct update_rx; [subst; simpl; lia | destruct Hend as [-> | ->]; simpl; lia].
  - rewrite (buffered_insert _ _ _ _ Ht).
    destruct Hend as [(agent & -> & _)|(-> & [[-> _]|[_ Hend]])];
      destruct update_rx; simpl in *; try lia; [by subst; simpl; lia|].
    destruct Hend as [-> | ->]; simpl; lia.
  - intros rx Hrx. apply (Hr t (Scanning update_rx ∅ best)); [done|].
    destruct Hend as [(agent & -> & _)|(-> & [[-> _]|[_ Hend]])];
      destruct update_rx; simpl in *; try done; [by subst|]. by destruct Hend as [-> | ->].
  - intros rx todo Hf.
    destruct Hend as [(agent & -> & _)|(-> & [[-> Hbest]|[-> Hend]])]; [done| |].
    + destruct update_rx as [rx'|]; [|done]. injection Hf as <- <-. right; right. intros id loc a Hid _ _.
      right. by apply elem_of_dom_2 in Hid.
    + destruct update_rx as [rx'|]; [|by destruct Hend as [-> | ->]]. subst.
      simplify_eq/=. apply Hlook; [by eapply Hr|]. by eapply Hw.
Qed.

Lemma buffer_wf_pool (y : BufferSystem) (p : Pool) (placed : gset nat) (k : nat) :
  buffer_wf y -> pool_event (manager_pool (manager y)) p placed ->
  announces (manager_pool (manager y)) p k ->
  buffer_wf
    {| manager := store_pool (before_announcement (manager_pool (manager y)) p) (manager y);
       requests := requests y; owed := (k + owed y)%nat;
       unannounced := placed ∪ unannounced y |}.
Proof.
  intros [Hc Hb Hr Hw] He Hk. constructor; simpl; try done.
  intros t w rx todo Ht Hf. apply look_again_operation; [by apply pool_event_frees|done| |by eapply Hw].
  eapply Hr; [exact Ht|]. by destruct w as [|[]? []| | | |]; simplify_eq/=.
Qed.

Lemma buffer_wf_announce (y : BufferSystem) (k : nat) :
  buffer_wf y ->
  buffer_wf
    {| manager := store_pool (signal_update (manager_pool (manager y))) (manager y);
       requests := requests y; owed := k; unannounced := ∅ |}.
Proof.
  intros [Hc Hb Hr Hw]. constructor; simpl; try done.
  - intros t w rx Ht Hrx. apply watch_send_valid. by eapply Hr.
  - intros t w rx todo Ht Hf. left. apply watch_send_changed. eapply Hr; [exact Ht|].
    by destruct w as [|[]? []| | | |]; simplify_eq/=.
Qed.

Lemma buffer_wf_step (x y : BufferSystem) : buffer_wf x -> buffer_step x y -> buffer_wf y.
Proof.
  intros Hwf Hstep. pose proof Hwf as [Hc Hb Hr Hw].
  destruct Hstep as [y t Ht|y t Ht|y t rx todo best agent_id Ht|y t rx best m w k Ht Hop Hk
                    |y t m w Ht Hlt Hop|y t rx Ht|y t rx w Ht Hop|y t ph m w Ht Hbuf Hop
                    |y p placed k Hev Hk|y k Ho].
  - constructor; simpl; rewrite ?buffered_insert_fresh by done; simpl; try lia.
    + intros t' w' rx [[_ <-]|[_ ?]]%lookup_insert_Some Hrec; [done | by eapply Hr].
    + intros t' w' rx todo [[_ <-]|[_ ?]]%lookup_insert_Some Hf; [done | by eapply Hw].
  - apply (buffer_wf_put y t Arrived); try done; [simpl; lia|].
    rewrite (buffered_insert _ _ _ _ Ht). simpl. lia.
  - by apply buffer_wf_visit.
  - by eapply buffer_wf_scanned.
  - unfold wait_subscribe in Hop. simplify_eq. pose proof (buffered_nonneg (requests y)).
    apply (buffer_wf_put y t Accepted); try done.
    + simpl. rewrite Hc, i32_increment_small by (unfold i32_min, i32_max in *; lia). lia.
    + rewrite (buffered_insert _ _ _ _ Ht). simpl. lia.
    + intros rx [= <-]. apply watch_subscribe_valid.
  - apply (buffer_wf_put y t (Subscribed rx)); try done; [simpl; lia| | |].
    + rewrite (buffered_insert _ _ _ _ Ht). simpl. lia.
    + intros rx' [= <-]. by eapply Hr.
    + intros rx' todo [= <- <-]. right; right. apply exhausted_but_all.
  - unfold wait_wake in Hop.
    destruct (watch_has_changed (pool_update_tx (manager_pool (manager y))) rx); simplify_eq.
    apply (buffer_wf_put y t (Waiting rx)); try done; [simpl; lia| |].
    + rewrite (buffered_insert _ _ _ _ Ht). simpl. lia.
    + intros rx' [= <-]. apply watch_mark_seen_valid. by eapply Hr.
  - unfold wait_timeout in Hop. simplify_eq.
    pose proof (buffered_delete _ _ _ Ht) as Hdel. rewrite Hbuf in Hdel. simpl in Hdel.
    pose proof (buffered_nonneg (delete t (requests y))).
    apply (buffer_wf_put y t ph); try done.
    + rewrite Hbuf. simpl.
      rewrite i32_decrement_small by (unfold i32_min, i32_max in *; lia). lia.
    + rewrite (buffered_insert _ _ _ _ Ht), Hbuf. simpl. lia.
  - by apply buffer_wf_pool.
  - by apply buffer_wf_announce.
Qed.

Lemma buffer_initial_wf (limit : Z) : buffer_wf (buffer_initial limit).
Proof. constructor; simpl; try done; unfold buffered; rewrite ?map_filter_empty; by compute. Qed.

(** C5. Nobody waits while a slot is free: in every reachable state, with the
    visits of a search, the claims, the changes of the pool and their
    announcements interleaved in any order, a request that waits for an agent
    either has an announcement to see, and wakes up to look again; or a change
    still has its announcement to come, which wakes it; or every agent of the
    pool is busy, except controllers that took the place of another one under
    a taken id since the last announcement: such a registration is an error
    that replaces the controller and announces nothing.  The counter shown
    for the buffer is the number of requests in it. *)
Theorem no_lost_wakeup (limit : Z) (y : BufferSystem)
    (Hreach : rtc buffer_step (buffer_initial limit) y) :
  count (buffered_request_counter (manager y)) = buffered (requests y) /\
  forall t rx, requests y !! t = Some (Waiting rx) ->
    (exists w, wait_wake rx (manager y) = Some w) \/
    ((0 < owed y)%nat /\
     exists w, wait_wake rx (store_pool (signal_update (manager_pool (manager y))) (manager y))
               = Some w) \/
    forall loc a, pool_agent (manager_pool (manager y)) loc a -> has_capacity a ->
      loc ∈ unannounced y.
Proof.
  assert (Hwf : buffer_wf y)
    by (eapply rtc_invariant; [exact Hreach | apply buffer_initial_wf | apply buffer_wf_step]).
  split; [apply wf_count, Hwf|]. intros t rx Ht. unfold wait_wake.
  destruct (wf_waiting y Hwf t _ rx ∅ Ht eq_refl) as [->|[Ho|Hex]]; [left; eauto | right; left |].
  - split; [done|]. simpl.
    rewrite watch_send_changed by (by eapply (wf_receivers y Hwf t)). eauto.
  - right; right. intros loc a [[id Hid] Ha] Hcap.
    destruct (Hex id loc a Hid Ha Hcap); [done | set_solver].
Qed.

(** A search that nobody interrupts finds what [wait_check] finds: the visits
    in the order of the map choose the candidate of
    [select_least_busy_with_capacity]. *)
Lemma scan_uninterrupted (y : BufferSystem) (t : nat) (update_rx : option receiver)
    (entries : list (string * nat)) (todo : gset string) (best : option DispatchCandidate) :
  (forall e, e ∈ entries -> agents (manager_pool (manager y)) !! fst e = Some (snd e)) ->
  requests y !! t = Some (Scanning update_rx todo best) ->
  rtc buffer_step y
    (put_request t
       (Scanning update_rx (todo ∖ list_to_set (map fst entries))
          (fold_left (consider_agent (controllers (manager_pool (manager y)))) entries best))
       (manager y) y).
Proof.
  revert y todo best. induction entries as [|[id loc] entries IH]; intros y todo best Hin Ht; simpl.
  - rewrite difference_empty_L. destruct y as [m reqs o u]. unfold put_request. simpl in *.
    by rewrite insert_id by done.
  - eapply rtc_l; [by apply (buffer_step_visit y t update_rx todo best id)|].
    unfold scan_visit. pose proof (Hin (id, loc) ltac:(set_solver)) as Hid. simpl in Hid.
    rewrite Hid.
    set (best' := consider_agent _ best (id, loc)).
    pose proof (IH (put_request t (Scanning update_rx (todo ∖ {[id]}) best') (manager y) y)
                  (todo ∖ {[id]}) best') as Hrest. simpl in Hrest.
    unfold put_request in *. simpl in *. rewrite insert_insert_eq, lookup_insert_eq in Hrest.
    rewrite difference_difference_l_L in Hrest. apply Hrest; [|done].
    intros e He. apply Hin. set_solver.
Qed.

Lemma wait_check_scan_end (rx : receiver) (m : BufferedRequestManager) :
  wait_check rx m
  = scan_end (Some rx) (select_least_busy_with_capacity iteration (manager_pool m)) m.
Proof.
  unfold wait_check, take_agent, scan_end. simpl.
  pose proof (select_best iteration iteration_entries (manager_pool m)) as Hsel.
  destruct (select_least_busy_with_capacity iteration (manager_pool m)) as [c|];
    [|by destruct m].
  destruct Hsel as [(a & Ha & Hs & _) _]. unfold try_claim.
  by rewrite (proj2 Ha), Hs, compare_and_swap_same.
Qed.

(** Arriving at the balancer: a request is dispatched when some agent has
    a free slot, rejected when none has and the buffer is full (always, when
    its size is zero), and admitted otherwise; nothing is counted yet. *)
Theorem wait_arrive_outcome (m : BufferedRequestManager) :
  let '(m', w) := wait_arrive m in
  buffered_request_counter m' = buffered_request_counter m /\
  match w with
  | Finished (Found _) => ~ pool_exhausted (manager_pool m)
  | Finished BufferOverflow =>
      pool_exhausted (manager_pool m) /\ manager_pool m' = manager_pool m /\
      max_buffered_requests m <= count (buffered_request_counter m)
  | Accepted =>
      pool_exhausted (manager_pool m) /\ manager_pool m' = manager_pool m /\
      count (buffered_request_counter m) < max_buffered_requests m
  | _ => False
  end.
Proof.
  unfold wait_arrive. destruct (take_agent m) as [m' found] eqn:Htake.
  pose proof (take_agent_spec _ _ _ Htake) as (Hcnt & Hmax & Hpool).
  destruct found as [agent|].
  - split; [done|]. intros Hex. unfold take_agent in Htake. simpl in Htake.
    pose proof (select_best iteration iteration_entries (manager_pool m)) as Hsel.
    destruct (select_least_busy_with_capacity iteration (manager_pool m)) as [c|].
    + destruct Hsel as [(a & Ha & _ & Hcap) _]. by apply (Hex (candidate_controller c) a).
    + by simplify_eq.
  - destruct Hpool as [Hpool Hex].
    destruct (Z.leb_spec (max_buffered_requests m') (count (buffered_request_counter m')));
      rewrite Hcnt, Hmax in *; done.
Qed.

End BufferedRequests.
Arguments BufferSystem {_ _} chan token sender receiver.
Arguments BufferedRequestManager {_ _} chan token sender.
Arguments WaitPhase receiver : clear implicits.

(** ** Witnesses *)

(** A request that finds nobody is admitted, subscribes and looks again. *)
Lemma no_lost_wakeup_witness :
  exists (y : BufferSystem QueueChannel nat nat nat),
    requests y !! 7%nat = Some (Waiting 0%nat) /\
    count (buffered_request_counter (manager y)) = buffered (requests y).
Proof.
  assert (Hr : exists y : BufferSystem QueueChannel nat nat nat,
    requests y !! 7%nat = Some (Waiting 0%nat) /\ rtc buffer_step (buffer_initial 3) y).
  { eexists. split; [|eapply rtc_l; [eapply (buffer_step_new _ 7%nat); reflexivity|];
      eapply rtc_l; [eapply (buffer_step_arrive _ 7%nat); reflexivity|];
      eapply rtc_l; [eapply (buffer_step_scanned _ 7%nat None None); [reflexivity..|];
                     apply announces_nothing; reflexivity|];
      eapply rtc_l; [eapply (buffer_step_subscribe _ 7%nat); reflexivity|];
      eapply rtc_l; [eapply (buffer_step_search _ 7%nat); reflexivity|];
      eapply rtc_l; [eapply (buffer_step_scanned _ 7%nat (Some 0%nat) None); [reflexivity..|];
                     apply announces_nothing; reflexivity|];
      apply rtc_refl].
    reflexivity. }
  destruct Hr as (y & Hy & Hr). exists y. split; [exact Hy|].
  exact (proj1 (no_lost_wakeup map_to_list (fun _ => reflexivity _) 3 y Hr)).
Defined.

(** With no agent and a buffer of one place the request is admitted; with no
    place at all it is rejected. *)
Lemma wait_arrive_outcome_witness :
  let m (size : Z) : BufferedRequestManager QueueChannel nat nat :=
    {| manager_pool := pool_default;
       buffered_request_counter := {| count := 0; counter_update_tx := 0%nat |};
       max_buffered_requests := size |} in
  snd (wait_arrive (receiver := nat) map_to_list (m 1)) = Accepted /\
  snd (wait_arrive (receiver := nat) map_to_list (m 0)) = Finished BufferOverflow /\
  pool_exhausted (manager_pool (m 1)).
Proof.
  intros m. split; [reflexivity|]. split; [reflexivity|].
  pose proof (wait_arrive_outcome map_to_list (fun _ => reflexivity _) (m 1)) as Ho.
  exact (proj1 (proj2 Ho)).
Defined.

(** The check of the limit and the counting are two steps: two requests that
    arrive together both pass a limit of one. *)
Lemma buffer_limit_is_not_atomic :
  let m0 : BufferedRequestManager QueueChannel nat nat :=
    {| manager_pool := pool_default;
       buffered_request_counter := {| count := 0; counter_update_tx := 0%nat |};
       max_buffered_requests := 1 |} in
  let '(m1, w1) := wait_arrive (receiver := nat) map_to_list m0 in
  let '(m2, w2) := wait_arrive (receiver := nat) map_to_list m1 in
  let '(m3, _) := wait_subscribe (receiver := nat) m2 in
  let '(m4, _) := wait_subscribe (receiver := nat) m3 in
  w1 = Accepted /\ w2 = Accepted /\ count (buffered_request_counter m4) = 2.
Proof. vm_compute. auto. Qed.
