(* ===== verification/RequestFromAgent.v ===== *)
(** * A request from start to end: forwarding an agent's responses

    [request_from_agent.rs].  The loop of [forward_responses_stream] is a
    biased [select!]: each turn of it is a function of what is ready and of
    how the two sends end, a [Turn], and the log of a run lists what was sent
    to the client and the stop requests sent to the agent, oldest first. *)

From stdpp Require Import pretty.
From S2P Require Import Prelude Messages.
From S2P Require Import Tokio Requests Senders SlotStatus AgentController AgentPool.
From S2P Require Import BufferedRequests.
Local Open Scope Z_scope.

Inductive AgentResponseForwardingMode : Type :=
| DrainingUntilAgentConfirms
| ForwardingToClient.

Inductive AgentStopOutcome : Type :=
| AgentUnreachable
| StopRequested.

Section RequestFromAgent.
Context `{LlamaTypes} {R : Type} `{!StreamableResult R} `{!IntoOutgoingResponse R}.

(** The request: its id, the name of the agent, and the time an agent has for
    one item, in milliseconds. *)
Context (request_id : string) (agent_name : option string) (inference_item_timeout : N).

(** ** State *)

Inductive ForwardAction : Type :=
| ClientSend (message : OutgoingMessage) (accepted : bool)
| AgentStop (reached : bool).

(** [received] remembers the responses taken off the channel; the program
    does not keep it. *)
Record ForwardState : Type := {
  forwarding_mode : AgentResponseForwardingMode;
  log : list ForwardAction;
  received : list R;
}.

(** What one evaluation of [select!] finds: which cancellations are in force,
    whether the timer ran out, what the response channel holds ([Some None]
    when it is closed), and whether sending to the client and to the agent
    would succeed. *)
Record Turn : Type := {
  shutdown_cancelled : bool;
  agent_connection_closed : bool;
  client_connection_closed : bool;
  timer_elapsed : bool;
  response_ready : option (option R);
  client_accepts : bool;
  agent_reachable : bool;
}.

Inductive LoopControl : Type :=
| KeepWaiting
| NextTurn
| ExitLoop.

(** ** Operations *)

Definition add_action (a : ForwardAction) (s : ForwardState) : ForwardState :=
  {| forwarding_mode := forwarding_mode s; log := log s ++ [a]; received := received s |}.

Definition set_mode (m : AgentResponseForwardingMode) (s : ForwardState) : ForwardState :=
  {| forwarding_mode := m; log := log s; received := received s |}.

Definition add_received (r : R) (s : ForwardState) : ForwardState :=
  {| forwarding_mode := forwarding_mode s; log := log s; received := received s ++ [r] |}.

Definition error_message (code_ : Z) (description_ : string) : OutgoingMessage :=
  OutgoingMessageError {| error_request_id := request_id;
                          error := {| code := code_; description := description_ |} |}.

Definition response_message (r : R) : OutgoingMessage :=
  OutgoingMessageResponse {| generated_by := agent_name; response_request_id := request_id;
                             response := into_response r |}.

(** A failure to send is only logged. *)
Definition respond_with_error (t : Turn) (code_ : Z) (description_ : string) (s : ForwardState)
    : ForwardState :=
  add_action (ClientSend (error_message code_ description_) (client_accepts t)) s.

Definition send_response_to_client (t : Turn) (r : R) (s : ForwardState) : ForwardState * bool :=
  (add_action (ClientSend (response_message r) (client_accepts t)) s, client_accepts t).

Definition request_stop (t : Turn) (s : ForwardState) : ForwardState * AgentStopOutcome :=
  (add_action (AgentStop (agent_reachable t)) s,
   if agent_reachable t then StopRequested else AgentUnreachable).

(** The [match] on the outcome of a stop that the loop has three times. *)
Definition stop_and_drain (t : Turn) (s : ForwardState) : ForwardState * LoopControl :=
  match request_stop t s with
  | (s', AgentUnreachable) => (s', ExitLoop)
  | (s', StopRequested) => (set_mode DrainingUntilAgentConfirms s', NextTurn)
  end.

Definition is_forwarding (s : ForwardState) : bool :=
  match forwarding_mode s with
  | ForwardingToClient => true
  | DrainingUntilAgentConfirms => false
  end.

Definition timeout_description : string :=
  "Inference timed out after " +:+ pretty inference_item_timeout +:+
  "ms waiting for next token. Increase --inference-item-timeout if the prompt requires longer processing.".

(** One turn of the loop. *)
Definition forward_turn (t : Turn) (s : ForwardState) : ForwardState * LoopControl :=
  if shutdown_cancelled t then
    (if is_forwarding s
     then fst (request_stop t (respond_with_error t 503 "balancer is shutting down" s))
     else s, ExitLoop)
  else if agent_connection_closed t then
    (if is_forwarding s
     then respond_with_error t 502 "Agent controller connection closed" s
     else s, ExitLoop)
  else if client_connection_closed t && is_forwarding s then stop_and_drain t s
  else if timer_elapsed t then
    if is_forwarding s
    then stop_and_drain t (respond_with_error t 504 timeout_description s)
    else (s, ExitLoop)
  else
    match response_ready t with
    | None => (s, KeepWaiting)
    | Some None =>
        (if is_forwarding s
         then respond_with_error t 502 "Response channel closed before terminator" s
         else s, ExitLoop)
    | Some (Some r) =>
        let s := add_received r s in
        if is_forwarding s then
          let '(s, send_succeeded) := send_response_to_client t r s in
          if is_done r then (s, ExitLoop)
          else if send_succeeded then (s, NextTurn)
          else stop_and_drain t s
        else if is_done r then (s, ExitLoop) else (s, NextTurn)
    end.

Fixpoint run_turns (turns : list Turn) (s : ForwardState) : ForwardState * bool :=
  match turns with
  | [] => (s, false)
  | t :: rest =>
      match forward_turn t s with
      | (s', ExitLoop) => (s', true)
      | (s', _) => run_turns rest s'
      end
  end.

Definition forward_initial : ForwardState :=
  {| forwarding_mode := ForwardingToClient; log := []; received := [] |}.

(** [forward_responses_stream] over the turns its run goes through: the final
    state, and whether the loop was left. *)
Definition forward_responses_stream (turns : list Turn) : ForwardState * bool :=
  run_turns turns forward_initial.

(** The [select!] of [wait_for_agent_controller]: a signal, or the result of
    waiting for an agent. *)
Inductive WaitSelect : Type :=
| WaitShutdown
| WaitConnectionClosed
| WaitResult (r : result BufferedRequestAgentWaitResult string).

Definition wait_for_agent_controller (t : Turn) (w : WaitSelect) (s : ForwardState)
    : ForwardState * option DispatchedAgent :=
  match w with
  | WaitShutdown => (respond_with_error t 503 "balancer is shutting down" s, None)
  | WaitConnectionClosed => (s, None)
  | WaitResult (Ok (Found agent)) => (s, Some agent)
  | WaitResult (Ok BufferOverflow) =>
      (respond_with_error t 503 "Buffered requests overflow" s, None)
  | WaitResult (Ok TimedOut) =>
      (respond_with_error t 504 "Waiting for available slot timed out" s, None)
  | WaitResult (Err _) => (respond_with_error t 500 "Internal server error" s, None)
  end.

(** [request_from_agent]: [t] says whether the client accepts an error before
    the stream starts, [handled] how [handle_streaming_response] ended.  The
    slot of the agent is held until the function returns. *)
Definition request_from_agent (t : Turn) (w : WaitSelect)
    (handled : result ManagesSendersController string) (turns : list Turn)
    : ForwardState * bool :=
  match wait_for_agent_controller t w forward_initial with
  | (s, None) => (s, true)
  | (s, Some _) =>
      match handled with
      | Err _ => (respond_with_error t 500 "Failed to generate response" s, true)
      | Ok _ => run_turns turns s
      end
  end.

(** ** Facts *)

Definition client_log (l : list ForwardAction) : list (OutgoingMessage * bool) :=
  omap (fun a => match a with ClientSend m ok => Some (m, ok) | AgentStop _ => None end) l.

Definition agent_stops (l : list ForwardAction) : list bool :=
  omap (fun a => match a with ClientSend _ _ => None | AgentStop reached => Some reached end) l.

(** A message after which the client expects nothing. *)
Definition terminal (m : OutgoingMessage) : Prop :=
  (exists e, m = OutgoingMessageError e) \/ (exists r, m = response_message r /\ is_done r = true).

(** What was sent to the client: responses that are not the last one, all
    accepted, and then at most one more message, which is a terminal one or
    was not accepted. *)
Definition client_log_ok (forwarding : bool) (s : ForwardState) : Prop :=
  exists delivered tail,
    client_log (log s) = map (fun r => (response_message r, true)) delivered ++ tail /\
    Forall (fun r => is_done r = false) delivered /\
    (if forwarding
     then tail = [] /\ delivered = received s /\ agent_stops (log s) = []
     else delivered `prefix_of` received s /\ (length (agent_stops (log s)) <= 1)%nat /\
          (tail = [] \/
           exists m ok, tail = [(m, ok)] /\
             ((exists e, m = OutgoingMessageError e) \/
              exists r, m = response_message r /\ delivered ++ [r] `prefix_of` received s /\
                (is_done r = true \/ ok = false)))).

Lemma client_log_app (l1 l2 : list ForwardAction) :
  client_log (l1 ++ l2) = client_log l1 ++ client_log l2.
Proof. unfold client_log. apply omap_app. Qed.

Lemma agent_stops_app (l1 l2 : list ForwardAction) :
  agent_stops (l1 ++ l2) = agent_stops l1 ++ agent_stops l2.
Proof. unfold agent_stops. apply omap_app. Qed.

(** After forwarding, a last message to the client and a stop, each at most
    once, keep the log well formed. *)
Lemma client_log_close (s s' : ForwardState) (last : list (OutgoingMessage * bool))
    (actions : list ForwardAction) :
  client_log_ok true s -> log s' = log s ++ actions ->
  client_log actions = last -> (length (agent_stops actions) <= 1)%nat ->
  received s `prefix_of` received s' ->
  (last = [] \/
   exists m ok, last = [(m, ok)] /\
     ((exists e, m = OutgoingMessageError e) \/
      exists r, m = response_message r /\ received s' = received s ++ [r] /\
        (is_done r = true \/ ok = false))) ->
  client_log_ok false s'.
Proof.
  intros (dl & tail & Hlog & Hd & -> & Hdl & Hst) Hl Hc Ha Hpre Hlast. subst dl.
  exists (received s), last. rewrite Hl, client_log_app, Hlog, app_nil_r, Hc.
  split_and!; [done|done|done| |].
  - rewrite agent_stops_app, Hst. exact Ha.
  - destruct Hlast as [?|(m & ok & -> & Hm)]; [by left | right].
    exists m, ok. split; [done|]. destruct Hm as [?|(r & -> & -> & ?)]; [by left | right].
    exists r. done.
Qed.

(** Draining only receives. *)
Lemma client_log_drain (s s' : ForwardState) :
  client_log_ok false s -> log s' = log s -> received s `prefix_of` received s' ->
  client_log_ok false s'.
Proof.
  intros (dl & tail & Hlog & Hd & Hpre & Hst & Htail) Hl Hr. exists dl, tail. rewrite Hl.
  split_and!; [done|done|by etrans|done|].
  destruct Htail as [?|(m & ok & -> & Hm)]; [by left | right].
  exists m, ok. split; [done|].
  destruct Hm as [?|(r & -> & ? & ?)]; [by left | right]. exists r. split_and!; [done|by etrans|done].
Qed.

Definition mode_ok (s : ForwardState) : Prop := client_log_ok (is_forwarding s) s.

Lemma forward_turn_ok (t : Turn) (s : ForwardState) :
  mode_ok s ->
  let '(s', c) := forward_turn t s in
  match c with
  | KeepWaiting => s' = s
  | NextTurn => mode_ok s'
  | ExitLoop => client_log_ok false s'
  end.
Proof.
  intros Hok. unfold forward_turn, mode_ok, stop_and_drain, request_stop in *.
  destruct (is_forwarding s) eqn:Hf.
  - (* forwarding *)
    assert (Hclose : forall s' actions last,
      log s' = log s ++ actions -> client_log actions = last ->
      (length (agent_stops actions) <= 1)%nat -> received s' = received s ->
      (last = [] \/ exists m ok, last = [(m, ok)] /\ exists e, m = OutgoingMessageError e) ->
      client_log_ok false s').
    { intros s' actions last Hl Hc Ha Hr Hlast.
      apply (client_log_close s s' last actions); try done; [by rewrite Hr|].
      destruct Hlast as [?|(m & ok & -> & ?)]; [by left | right]. exists m, ok. eauto. }
    destruct (shutdown_cancelled t).
    { simpl. eapply Hclose; simpl; [by rewrite <- app_assoc|done|simpl; lia|done|].
      right. do 2 eexists. split; [done|]. by eexists. }
    destruct (agent_connection_closed t).
    { eapply Hclose; simpl; [done|done|simpl; lia|done|]. right. do 2 eexists. split; [done|].
      by eexists. }
    rewrite andb_true_r. destruct (client_connection_closed t).
    { destruct (agent_reachable t); simpl; (eapply Hclose; simpl; [done|done|simpl; lia|done|by left]). }
    destruct (timer_elapsed t).
    { destruct (agent_reachable t); simpl;
        (eapply Hclose; simpl; [by rewrite <- app_assoc|done|simpl; lia|done|]);
        right; do 2 eexists; (split; [done|]); by eexists. }
    destruct (response_ready t) as [[r|]|]; [| |done].
    + unfold send_response_to_client, add_received. simpl.
      assert (Hf' : is_forwarding (add_received r s) = true) by done. unfold add_received in Hf'.
      unfold is_forwarding in Hf' |- *. simpl in *. destruct (forwarding_mode s); [done|]. simpl.
      destruct (is_done r) eqn:Hdone.
      { eapply (client_log_close s); simpl; [done|done|done|simpl; lia|by apply prefix_app_r|].
        right. do 2 eexists. split; [done|]. right. exists r. auto. }
      destruct (client_accepts t) eqn:Hacc; simpl.
      * destruct Hok as (dl & tail & Hlog & Hd & -> & Hdl & Hst). subst dl.
        exists (received s ++ [r]), []. simpl.
        rewrite client_log_app, agent_stops_app, Hlog, Hst, map_app, !app_nil_r. simpl.
        split_and!; [done| |done|done|done]. apply Forall_app. split; [done|]. by constructor.
      * destruct (agent_reachable t); simpl;
          (eapply (client_log_close s); simpl;
           [done|by rewrite <- app_assoc|done|simpl; lia|by apply prefix_app_r|]);
          right; do 2 eexists; (split; [done|]); right; exists r; auto.
    + eapply Hclose; simpl; [done|done|simpl; lia|done|]. right. do 2 eexists. split; [done|].
      by eexists.
  - (* draining *)
    destruct (shutdown_cancelled t); [done|]. destruct (agent_connection_closed t); [done|].
    rewrite andb_false_r. destruct (timer_elapsed t); [done|].
    destruct (response_ready t) as [[r|]|]; [|done|done].
    assert (Hf' : is_forwarding (add_received r s) = false) by done. rewrite Hf'.
    assert (Hd : client_log_ok false (add_received r s))
      by (eapply client_log_drain; [done|done|by apply prefix_app_r]).
    destruct (is_done r); [done|]. rewrite Hf'. exact Hd.
Qed.

Lemma client_log_ok_weaken (s : ForwardState) (b : bool) :
  client_log_ok b s -> client_log_ok false s.
Proof.
  destruct b; [|done]. intros (dl & tail & Hlog & Hd & -> & -> & Hst).
  exists (received s), []. split_and!; [done|done|done|by rewrite Hst; simpl; lia|by left].
Qed.

Lemma run_turns_ok (turns : list Turn) (s : ForwardState) :
  mode_ok s -> client_log_ok false (fst (run_turns turns s)).
Proof.
  revert s. induction turns as [|t turns IH]; intros s Hok; simpl.
  - by eapply client_log_ok_weaken.
  - pose proof (forward_turn_ok t s Hok) as Ht. destruct (forward_turn t s) as [s' []]; simpl.
    + subst s'. by apply IH.
    + by apply IH.
    + done.
Qed.

Lemma forward_initial_ok : mode_ok forward_initial.
Proof. exists [], []. split_and!; done. Qed.

(** C3. What a client sees of a streamed request: the responses of the agent
    in the order they came, without gaps, each one accepted, and after them
    at most one more message, which ends the stream (an error, or the agent's
    last response) or could not be delivered; nothing is ever sent after
    that, and the agent is asked to stop at most once. *)
Theorem client_stream_well_formed (turns : list Turn) :
  let s := fst (forward_responses_stream turns) in
  exists delivered tail,
    client_log (log s) = map (fun r => (response_message r, true)) delivered ++ tail /\
    Forall (fun r => is_done r = false) delivered /\
    delivered `prefix_of` received s /\
    (tail = [] \/ exists m ok, tail = [(m, ok)] /\ (terminal m \/ ok = false)) /\
    (length (agent_stops (log s)) <= 1)%nat.
Proof.
  destruct (run_turns_ok turns forward_initial forward_initial_ok)
    as (dl & tail & Hlog & Hd & Hpre & Hst & Htail).
  exists dl, tail. split_and!; [done|done|done| |done].
  destruct Htail as [?|(m & ok & -> & Hm)]; [by left | right].
  exists m, ok. split; [done|]. unfold terminal.
  destruct Hm as [?|(r & -> & _ & [?|?])]; [by left; left | | by right].
  left. right. eauto.
Qed.

(** An invariant of the runs of the loop, and what leaving the loop gives:
    the shape shared by the properties below. *)
Lemma run_turns_exit (I : ForwardState -> Prop) (Q : Turn -> ForwardState -> Prop)
    (P : Turn -> Prop) (turns : list Turn) (s s' : ForwardState) :
  (forall t x, P t -> I x -> match forward_turn t x with
                             | (y, ExitLoop) => Q t y
                             | (y, _) => I y
                             end) ->
  Forall P turns -> I s -> run_turns turns s = (s', true) -> Exists (fun t => Q t s') turns.
Proof.
  intros Hstep. revert s. induction turns as [|t turns IH]; intros s Hp Hi Hrun; simpl in Hrun;
    [done|].
  apply Forall_cons in Hp as [Ht Hp]. specialize (Hstep t s Ht Hi).
  destruct (forward_turn t s) as [y []].
  - apply Exists_cons. right. exact (IH y Hp Hstep Hrun).
  - apply Exists_cons. right. exact (IH y Hp Hstep Hrun).
  - simplify_eq. apply Exists_cons. by left.
Qed.

(** C10. No generation is abandoned: when the balancer stops listening to an
    agent, the agent said it was done, or was asked to stop, or its
    connection or its response channel is closed. *)
Theorem generation_never_abandoned (turns : list Turn) (s : ForwardState)
    (Hrun : forward_responses_stream turns = (s, true)) :
  (exists r, r ∈ received s /\ is_done r = true) \/ agent_stops (log s) <> [] \/
  Exists (fun t => agent_connection_closed t = true \/ response_ready t = Some None) turns.
Proof.
  assert (Hex : Exists (fun t => (exists r, r ∈ received s /\ is_done r = true) \/
                                 agent_stops (log s) <> [] \/
                                 agent_connection_closed t = true \/ response_ready t = Some None)
                  turns).
  { eapply (run_turns_exit
      (fun x => is_forwarding x = false -> agent_stops (log x) <> [])
      (fun t y => (exists r, r ∈ received y /\ is_done r = true) \/
                  agent_stops (log y) <> [] \/
                  agent_connection_closed t = true \/ response_ready t = Some None)
      (fun _ => True) turns forward_initial); [|by apply Forall_true|intros Hf; discriminate Hf|exact Hrun].
    clear. intros t x _ Hx.
    assert (Hstop : forall b l, agent_stops (l ++ [AgentStop b]) <> []).
    { intros b l. rewrite agent_stops_app. simpl. by destruct (agent_stops l). }
    unfold forward_turn, stop_and_drain, request_stop. simpl.
    destruct (shutdown_cancelled t); [destruct (is_forwarding x); simpl; auto|].
    destruct (agent_connection_closed t); [auto|].
    destruct (client_connection_closed t && is_forwarding x);
      [destruct (agent_reachable t); simpl; auto|].
    destruct (timer_elapsed t).
    { destruct (is_forwarding x); [destruct (agent_reachable t); simpl; auto|]. auto. }
    destruct (response_ready t) as [[r|]|]; [|auto|done].
    assert (Hr : r ∈ received (add_received r x)) by (simpl; set_solver).
    assert (Hf : is_forwarding (add_received r x) = is_forwarding x) by done. rewrite Hf.
    destruct (is_forwarding x) eqn:Hfx; simpl.
    - destruct (is_done r) eqn:Hd; [simpl; eauto|].
      destruct (client_accepts t); [|destruct (agent_reachable t); simpl; auto].
      unfold is_forwarding in Hfx |- *. simpl. by destruct (forwarding_mode x).
    - destruct (is_done r) eqn:Hd; [simpl; eauto|]. simpl. auto. }
  apply Exists_exists in Hex as (t & Ht & [?|[?|?]]); [by left | by right; left |].
  right. right. apply Exists_exists. eauto.
Qed.

(** The last message sent to the client is a terminal one. *)
Definition answered (s : ForwardState) : Prop :=
  exists front m, client_log (log s) = front ++ [(m, true)] /\ terminal m.

Lemma answered_by_error (s : ForwardState) (t : Turn) (code_ : Z) (d : string)
    (actions : list ForwardAction) (s' : ForwardState) :
  client_accepts t = true -> client_log actions = [] ->
  log s' = log (respond_with_error t code_ d s) ++ actions -> answered s'.
Proof.
  intros Hacc Hact Hl. unfold answered. rewrite Hl. simpl.
  exists (client_log (log s)), (error_message code_ d). split; [|left; by eexists].
  by rewrite !client_log_app, Hact, Hacc, app_nil_r.
Qed.

(** C4. Every request is answered: unless the client goes away, a request
    that is not being handled any more ended, for the client, with exactly
    one last message: the agent's last response or an error, whether it
    found no agent, the agent could not be asked, timed out, disconnected or
    broke off, or the balancer shut down. *)
Theorem request_always_answered (t : Turn) (w : WaitSelect)
    (handled : result ManagesSendersController string) (turns : list Turn) (s : ForwardState)
    (Hclient : Forall (fun t => client_connection_closed t = false /\ client_accepts t = true)
                 (t :: turns))
    (Hwait : w <> WaitConnectionClosed)
    (Hrun : request_from_agent t w handled turns = (s, true)) :
  answered s.
Proof.
  apply Forall_cons in Hclient as [[_ Hacc] Hclient]. unfold request_from_agent in Hrun.
  destruct (wait_for_agent_controller t w forward_initial) as [s0 found] eqn:Hw.
  assert (Hs0 : match found with Some _ => s0 = forward_initial | None => answered s0 end).
  { unfold wait_for_agent_controller in Hw.
    destruct w as [| |[[]|]]; simplify_eq; try done;
      (eapply (answered_by_error forward_initial t _ _ []); [done|done|by rewrite app_nil_r]). }
  destruct found as [agent|]; [|by simplify_eq]. subst s0.
  destruct handled; [|simplify_eq;
    eapply (answered_by_error forward_initial t _ _ []); [done|done|by rewrite app_nil_r]].
  assert (Hex : Exists (fun _ => answered s) turns).
  { eapply (run_turns_exit (fun x => is_forwarding x = false -> answered x) (fun _ y => answered y) _ turns forward_initial);
      [|exact Hclient|intros Hf; discriminate Hf|exact Hrun].
    clear. intros t x [Hcl Hacc] Hx.
    unfold forward_turn, stop_and_drain, request_stop. rewrite Hcl. simpl.
    destruct (shutdown_cancelled t).
    { destruct (is_forwarding x); [|auto].
      by apply (answered_by_error x t 503 "balancer is shutting down"
                 [AgentStop (agent_reachable t)]). }
    destruct (agent_connection_closed t).
    { destruct (is_forwarding x); [|auto].
      eapply (answered_by_error x t _ _ []); [done|done|by rewrite app_nil_r]. }
    destruct (timer_elapsed t).
    { destruct (is_forwarding x); [|auto].
      destruct (agent_reachable t) eqn:Hreach; [intros _|];
        by apply (answered_by_error x t 504 timeout_description [AgentStop (agent_reachable t)]);
          rewrite ?Hreach. }
    destruct (response_ready t) as [[r|]|]; [| |done].
    - assert (Hf : is_forwarding (add_received r x) = is_forwarding x) by done. rewrite Hf.
      destruct (is_forwarding x) eqn:Hfx; simpl.
      + rewrite Hacc. destruct (is_done r) eqn:Hd.
        * exists (client_log (log x)), (response_message r). simpl. rewrite client_log_app.
          split; [done|]. right. eauto.
        * unfold is_forwarding in Hfx |- *. simpl. by destruct (forwarding_mode x).
      + destruct (is_done r); [by apply Hx | intros _; by apply Hx].
    - destruct (is_forwarding x); [|auto].
      eapply (answered_by_error x t _ _ []); [done|done|by rewrite app_nil_r]. }
  by apply Exists_exists in Hex as (_ & _ & ?).
Qed.

(** A turn in which something other than the client's cancellation is ready. *)
Definition wakes (t : Turn) : bool :=
  shutdown_cancelled t || agent_connection_closed t || timer_elapsed t ||
  match response_ready t with Some _ => true | None => false end.

Definition progress (s : ForwardState) : nat :=
  (length (received s) + if is_forwarding s then 0 else 1)%nat.

Lemma forward_turn_progress (t : Turn) (s : ForwardState) :
  wakes t = true ->
  let '(s', c) := forward_turn t s in
  c = ExitLoop \/ (c = NextTurn /\ (S (progress s) <= progress s')%nat).
Proof.
  intros Hw. unfold forward_turn, stop_and_drain, request_stop, wakes, progress in *. simpl in *.
  destruct (shutdown_cancelled t); [by left|]. destruct (agent_connection_closed t); [by left|].
  destruct (client_connection_closed t && is_forwarding s) eqn:Hc.
  { apply andb_prop in Hc as [_ Hf]. rewrite Hf.
    destruct (agent_reachable t); [right; simpl; split; [done|lia] | by left]. }
  destruct (timer_elapsed t).
  { destruct (is_forwarding s); [|by left].
    destruct (agent_reachable t); [right; simpl; split; [done|lia] | by left]. }
  destruct (response_ready t) as [[r|]|]; [|by left|done].
  assert (Hf : is_forwarding (add_received r s) = is_forwarding s) by done. rewrite Hf.
  destruct (is_forwarding s) eqn:Hfs; simpl.
  - destruct (is_done r); [by left|]. destruct (client_accepts t).
    + right. split; [done|]. unfold is_forwarding in *. simpl in *.
      destruct (forwarding_mode s); [done|]. rewrite length_app. simpl. lia.
    + destruct (agent_reachable t); [right | by left]. simpl. split; [done|]. rewrite length_app. simpl. lia.
  - destruct (is_done r); [by left|]. right. split; [done|]. simpl. rewrite Hf, length_app. simpl. lia.
Qed.

(** The loop ends: if every turn of it finds something ready (which the
    timer sees to), a run that has not ended yet took at most one turn more
    than it received responses: an agent that stays silent, or one that keeps
    sending after it was asked to stop, cannot keep a request alive without
    sending responses. *)
Theorem forwarding_terminates (turns : list Turn) (s : ForwardState)
    (Hwakes : Forall (fun t => wakes t = true) turns)
    (Hrun : forward_responses_stream turns = (s, false)) :
  (length turns <= S (length (received s)))%nat.
Proof.
  assert (Hgen : forall x, run_turns turns x = (s, false) ->
            (length turns + progress x <= progress s)%nat).
  { clear Hrun. induction Hwakes as [|t turns Ht _ IH]; intros x Hrun; simpl in *.
    - simplify_eq. done.
    - pose proof (forward_turn_progress t x Ht) as Hp.
      destruct (forward_turn t x) as [y c].
      destruct Hp as [->|[-> Hp]]; [done|]. specialize (IH y Hrun). lia. }
  specialize (Hgen _ Hrun). unfold progress in Hgen. simpl in Hgen.
  destruct (is_forwarding s); lia.
Qed.

End RequestFromAgent.

(** ** Witnesses *)

Definition quiet_turn (r : option (option GeneratedTokenResult)) : Turn (R := GeneratedTokenResult) :=
  {| shutdown_cancelled := false; agent_connection_closed := false;
     client_connection_closed := false; timer_elapsed := false; response_ready := r;
     client_accepts := true; agent_reachable := true |}.

Definition token_turn : Turn := quiet_turn (Some (Some (ContentToken "a"))).
Definition done_turn : Turn := quiet_turn (Some (Some (Done {| usage := 1 |}))).
Definition timeout_turn : Turn (R := GeneratedTokenResult) :=
  {| shutdown_cancelled := false; agent_connection_closed := false;
     client_connection_closed := false; timer_elapsed := true; response_ready := None;
     client_accepts := true; agent_reachable := true |}.

Lemma generation_never_abandoned_witness :
  let turns := [token_turn; timeout_turn; timeout_turn] in
  exists s, forward_responses_stream "r" None 30000 turns = (s, true) /\
    ((exists r, r ∈ received s /\ is_done r = true) \/ agent_stops (log s) <> [] \/
     Exists (fun t => agent_connection_closed t = true \/ response_ready t = Some None) turns).
Proof.
  intros turns. eexists. split; [reflexivity|].
  apply (generation_never_abandoned "r" None 30000 turns). reflexivity.
Defined.

Lemma request_always_answered_witness :
  let found := WaitResult (Ok (Found {| dispatched_controller := 0;
                                        slot_guard := {| guarded_controller := 0 |} |})) in
  let handled := Ok {| Senders.request_id := "r"; response_rx := 0 |} in
  exists s, request_from_agent "r" None 30000 token_turn found handled [token_turn; done_turn]
            = (s, true) /\ answered "r" None s.
Proof.
  intros found handled. eexists. split; [reflexivity|].
  apply (request_always_answered "r" None 30000 token_turn found handled
           [token_turn; done_turn]).
  - repeat constructor.
  - discriminate.
  - reflexivity.
Defined.

Lemma forwarding_terminates_witness :
  let turns := [token_turn; timeout_turn] in
  exists s, forward_responses_stream "r" None 30000 turns = (s, false) /\
    (length turns <= S (length (received s)))%nat.
Proof.
  intros turns. eexists. split; [reflexivity|].
  apply (forwarding_terminates "r" None 30000 turns); [repeat constructor | reflexivity].
Defined.
