(* ===== verification/ToolCalls.v ===== *)
(** * Tool calls of a model

    [tool_call_buffer.rs], [tool_call_event.rs], [tool_call_pipeline.rs],
    [tool_call_validator.rs] and [continuous_batch_scheduler/tool_call_pass.rs].
    The parser of chat messages belongs to the llama.cpp bindings and the
    compilation of a JSON Schema to a library: both are the class
    [ToolCallBackend], with the serializations of [serde_json] and
    [debug_text], what [{:?}] prints of a string. *)

From S2P Require Import Prelude Messages Requests.
Local Open Scope Z_scope.

(** [SampledToken] and [SampledTokenSection] of the bindings. *)
Inductive SampledToken (T : Type) : Type :=
| SampledContent (token : T)
| SampledReasoning (token : T)
| SampledToolCall (token : T)
| SampledUndeterminable (token : T).
Arguments SampledContent {T} _.
Arguments SampledReasoning {T} _.
Arguments SampledToolCall {T} _.
Arguments SampledUndeterminable {T} _.

(** [ChatMessageParseOutcome]: the tool calls of a recognized message, or the
    text and the error of one that is not. *)
Inductive ParseOutcome (C : Type) : Type :=
| Recognized (tool_calls : list C)
| Unrecognized (text : string) (ffi_error_message_ : string).
Arguments Recognized {C} _.
Arguments Unrecognized {C} _ _.

(** [ToolCallArguments] *)
Inductive ToolCallArguments (V : Type) : Type :=
| ValidJson (value : V)
| InvalidJson (text : string).
Arguments ValidJson {V} _.
Arguments InvalidJson {V} _.

Class ToolCallBackend `{JsonTypes} `{LlamaTypes} : Type := {
  parse_chat_message : string -> string -> result (ParseOutcome ParsedToolCall) string;
  call_name : ParsedToolCall -> string;
  call_arguments : ParsedToolCall -> ToolCallArguments JsonValue;
  CompiledSchema : Type;
  schema_to_value : ValidatedParametersSchema -> result JsonValue string;
  validator_for : JsonValue -> result CompiledSchema string;
  iter_errors : CompiledSchema -> JsonValue -> list string;
  debug_text : string -> string;
  tool_to_value : Tool ValidatedParametersSchema -> result JsonValue string;
  values_to_string : list JsonValue -> result string string;
}.

Section ToolCalls.
Context `{ToolCallBackend}.

(** ** The validator *)

Inductive ToolCallValidationError : Type :=
| UnknownToolName (name : string)
| SchemaMismatch (tool_name : string) (message : string).

Inductive ValidatorBuildError : Type :=
| SerializationFailed (tool_name : string) (message : string)
| InvalidSchema (tool_name : string) (message : string).

Inductive ValidationStrategy : Type :=
| JsonObjectOnly
| SchemaStrategy (compiled : CompiledSchema).

Record ToolCallValidator : Type := { strategies : gmap string ValidationStrategy }.

Definition strategy_of (f : ToolFunction ValidatedParametersSchema)
    : result ValidationStrategy ValidatorBuildError :=
  match function_parameters f with
  | EmptyParameters => Ok JsonObjectOnly
  | SchemaParameters schema =>
      match schema_to_value schema with
      | Err message => Err (SerializationFailed (function_name f) message)
      | Ok value =>
          match validator_for value with
          | Err message => Err (InvalidSchema (function_name f) message)
          | Ok compiled => Ok (SchemaStrategy compiled)
          end
      end
  end.

Fixpoint insert_strategies (tools_ : list (Tool ValidatedParametersSchema))
    (m : gmap string ValidationStrategy)
    : result (gmap string ValidationStrategy) ValidatorBuildError :=
  match tools_ with
  | [] => Ok m
  | FunctionTool call :: rest =>
      let f := function call in
      let? strategy := strategy_of f in
      insert_strategies rest (<[function_name f := strategy]> m)
  end.

Definition validator_from_tools (tools_ : list (Tool ValidatedParametersSchema))
    : result ToolCallValidator ValidatorBuildError :=
  let? m := insert_strategies tools_ ∅ in Ok {| strategies := m |}.

Definition validate_call (v : ToolCallValidator) (parsed : ParsedToolCall)
    : result unit ToolCallValidationError :=
  match strategies v !! call_name parsed with
  | None => Err (UnknownToolName (call_name parsed))
  | Some strategy =>
      match call_arguments parsed with
      | InvalidJson _ => Ok tt
      | ValidJson value =>
          match strategy with
          | JsonObjectOnly => Ok tt
          | SchemaStrategy compiled =>
              match iter_errors compiled value with
              | [] => Ok tt
              | message :: _ => Err (SchemaMismatch (call_name parsed) message)
              end
          end
      end
  end.

(** ** The pipeline *)

Inductive ToolCallEvent : Type :=
| Pending
| Resolved (calls : list ParsedToolCall)
| ParseFailed (message : string)
| ValidationFailed (errors : list ToolCallValidationError)
| UnrecognizedFormat (raw : RawToolCallTokens).

(** [Display] of a validation error. *)
Definition error_text (e : ToolCallValidationError) : string :=
  match e with
  | UnknownToolName name => "unknown tool name " +:+ debug_text name
  | SchemaMismatch name message =>
      "arguments for tool " +:+ debug_text name +:+ " failed schema check: " +:+ message
  end.

Definition into_generated_token_result (e : ToolCallEvent) : option GeneratedTokenResult :=
  match e with
  | Resolved parsed => Some (ToolCallParsed parsed)
  | ParseFailed err => Some (ToolCallParseFailed err)
  | ValidationFailed errors => Some (ToolCallValidationFailed (map error_text errors))
  | UnrecognizedFormat raw => Some (UnrecognizedToolCallFormat raw)
  | Pending => None
  end.

(** The buffer is the string it accumulated. *)
Record ToolCallPipeline : Type := {
  buffer : string;
  tools_json : string;
  validator : ToolCallValidator;
}.

Definition put_buffer (b : string) (p : ToolCallPipeline) : ToolCallPipeline :=
  {| buffer := b; tools_json := tools_json p; validator := validator p |}.

Definition pipeline_new (tools_ : list JsonValue) (v : ToolCallValidator)
    : result ToolCallPipeline string :=
  let? json := values_to_string tools_ in
  Ok {| buffer := ""; tools_json := json; validator := v |}.

Definition feed (fragment : string) (p : ToolCallPipeline) : ToolCallPipeline :=
  put_buffer (buffer p +:+ fragment) p.

Definition buffer_is_empty (p : ToolCallPipeline) : bool := bool_decide (buffer p = ""%string).

Definition validate_resolved (p : ToolCallPipeline) (tool_calls : list ParsedToolCall)
    : ToolCallEvent :=
  let errors := omap (fun call => match validate_call (validator p) call with
                                  | Ok _ => None
                                  | Err e => Some e
                                  end) tool_calls in
  match errors with
  | [] => Resolved tool_calls
  | _ :: _ => ValidationFailed errors
  end.

(** The buffer is taken, whatever comes of it. *)
Definition finalize (p : ToolCallPipeline) : ToolCallPipeline * ToolCallEvent :=
  let input := buffer p in
  let p := put_buffer "" p in
  if decide (input = ""%string) then (p, Resolved [])
  else
    match parse_chat_message (tools_json p) input with
    | Ok (Recognized calls) => (p, validate_resolved p calls)
    | Ok (Unrecognized text message) =>
        (p, UnrecognizedFormat {| raw_text := text; ffi_error_message := message |})
    | Err e => (p, ParseFailed e)
    end.

Definition finalize_to_generated_event (p : ToolCallPipeline)
    : ToolCallPipeline * option GeneratedTokenResult :=
  let '(p', e) := finalize p in (p', into_generated_token_result e).

(** ** One classified token *)

Record ClassifiedToken (T : Type) : Type := {
  sampled_token : SampledToken T;
  was_in_tool_call : bool;
  is_in_tool_call : bool;
  visible_piece : string;
  raw_piece : string;
}.
Arguments Build_ClassifiedToken {T} _ _ _ _ _.
Arguments sampled_token {T} _.
Arguments was_in_tool_call {T} _.
Arguments is_in_tool_call {T} _.
Arguments visible_piece {T} _.
Arguments raw_piece {T} _.

Definition is_tool_call_token {T : Type} (t : SampledToken T) : bool :=
  match t with
  | SampledToolCall _ => true
  | _ => false
  end.

Definition tool_call_pass {T : Type} (pipeline : option ToolCallPipeline)
    (classified : ClassifiedToken T) : option ToolCallPipeline * option GeneratedTokenResult :=
  match pipeline with
  | None => (None, None)
  | Some p =>
      let p := if is_tool_call_token (sampled_token classified)
               then feed (raw_piece classified) p else p in
      if negb (was_in_tool_call classified) || is_in_tool_call classified then (Some p, None)
      else let '(p', e) := finalize_to_generated_event p in (Some p', e)
  end.

(** The pass over a run of tokens, with the events it produced. *)
Fixpoint tool_call_passes {T : Type} (pipeline : option ToolCallPipeline)
    (tokens : list (ClassifiedToken T)) : option ToolCallPipeline * list GeneratedTokenResult :=
  match tokens with
  | [] => (pipeline, [])
  | t :: rest =>
      let '(p1, e) := tool_call_pass pipeline t in
      let '(p2, es) := tool_call_passes p1 rest in
      (p2, match e with Some ev => ev :: es | None => es end)
  end.

(** ** Facts *)

(** A call is accepted by a validator built from the tools. *)
Definition call_allowed (v : ToolCallValidator) (c : ParsedToolCall) : Prop :=
  exists strategy, strategies v !! call_name c = Some strategy /\
    forall value compiled, call_arguments c = ValidJson value ->
      strategy = SchemaStrategy compiled -> iter_errors compiled value = [].

Lemma validate_call_ok (v : ToolCallValidator) (c : ParsedToolCall) :
  is_ok (validate_call v c) = true <-> call_allowed v c.
Proof.
  unfold validate_call, call_allowed.
  destruct (strategies v !! call_name c) as [strategy|]; simpl.
  - destruct (call_arguments c) as [value|text]; simpl.
    + destruct strategy as [|compiled]; simpl.
      * split; [|done]. intros _. eexists. split; [done|]. naive_solver.
      * destruct (iter_errors compiled value) eqn:E; simpl; split; try done.
        -- intros _. eexists. split; [done|]. naive_solver.
        -- intros (st & [= <-] & Hs). specialize (Hs value compiled eq_refl eq_refl). congruence.
    + split; [|done]. intros _. eexists. split; [done|]. naive_solver.
  - split; [done|]. by intros (s & ? & _).
Qed.

Lemma validate_resolved_spec (p : ToolCallPipeline) (calls : list ParsedToolCall) :
  match validate_resolved p calls with
  | Resolved calls' => calls' = calls /\ Forall (call_allowed (validator p)) calls
  | ValidationFailed errors => Exists (fun c => ~ call_allowed (validator p) c) calls
  | _ => False
  end.
Proof.
  unfold validate_resolved.
  set (f := fun call => match validate_call (validator p) call with
                        | Ok _ => None | Err e => Some e end).
  assert (Herr : match omap f calls with
                 | [] => Forall (call_allowed (validator p)) calls
                 | _ :: _ => Exists (fun c => ~ call_allowed (validator p) c) calls
                 end).
  { induction calls as [|c calls IH]; [constructor|].
    pose proof (validate_call_ok (validator p) c) as Hc. cbn [omap list_omap].
    change (list_omap _ _ f calls) with (omap f calls).
    assert (Hf : f c = match validate_call (validator p) c with
                       | Ok _ => None | Err e => Some e end) by done.
    rewrite Hf. destruct (validate_call (validator p) c) as [u|e]; simpl in Hc.
    - destruct (omap f calls); [constructor; [by apply Hc | done] | by apply Exists_cons_tl].
    - apply Exists_cons_hd. intros Ha. by apply Hc in Ha. }
  destruct (omap f calls); [done | exact Herr].
Qed.

(** The tool-call pieces of a run of tokens inside one section. *)
Definition section_text {T : Type} (tokens : list (ClassifiedToken T)) : string :=
  foldr String.append ""%string
    (omap (fun t => if is_tool_call_token (sampled_token t) then Some (raw_piece t) else None)
       tokens).

Lemma tool_call_passes_inside {T : Type} (p : ToolCallPipeline)
    (tokens : list (ClassifiedToken T)) :
  Forall (fun t => negb (was_in_tool_call t) || is_in_tool_call t = true) tokens ->
  tool_call_passes (Some p) tokens
  = (Some (put_buffer (buffer p +:+ section_text tokens) p), []).
Proof.
  revert p. induction tokens as [|t tokens IH]; intros p Hin; simpl.
  - unfold section_text. simpl. rewrite string_app_nil_r. by destruct p.
  - apply Forall_cons in Hin as [Ht Hin]. rewrite Ht. simpl. rewrite IH by done. simpl.
    unfold section_text. simpl.
    destruct (is_tool_call_token (sampled_token t)); simpl; [|done].
    by rewrite string_app_assoc.
Qed.

(** A tool call reaches the client once, whole and validated: while the
    tokens of a tool-call section stream nothing is reported; the token that
    leaves the section makes the pipeline parse exactly the text of the
    section, report the calls only if the validator built from the request's
    tools accepts every one of them, report the failure otherwise, and start
    the next section with an empty buffer. *)
Theorem tool_call_section_reported_once {T : Type} (p : ToolCallPipeline)
    (inside : list (ClassifiedToken T)) (leaving : ClassifiedToken T)
    (Hempty : buffer p = ""%string)
    (Hinside : Forall (fun t => negb (was_in_tool_call t) || is_in_tool_call t = true) inside)
    (Hleaving : was_in_tool_call leaving = true /\ is_in_tool_call leaving = false /\
                is_tool_call_token (sampled_token leaving) = false)
    (Htext : section_text inside <> ""%string) :
  exists e, tool_call_passes (Some p) (inside ++ [leaving]) = (Some (put_buffer "" p), [e]) /\
    match e with
    | ToolCallParsed calls =>
        parse_chat_message (tools_json p) (section_text inside) = Ok (Recognized calls) /\
        Forall (call_allowed (validator p)) calls
    | ToolCallValidationFailed _ =>
        exists calls,
          parse_chat_message (tools_json p) (section_text inside) = Ok (Recognized calls) /\
          Exists (fun c => ~ call_allowed (validator p) c) calls
    | UnrecognizedToolCallFormat raw =>
        parse_chat_message (tools_json p) (section_text inside)
        = Ok (Unrecognized (raw_text raw) (ffi_error_message raw))
    | ToolCallParseFailed err =>
        parse_chat_message (tools_json p) (section_text inside) = Err err
    | _ => False
    end.
Proof.
  destruct Hleaving as (Hw & Hi & Hl).
  assert (Happ : forall (ts : list (ClassifiedToken T)) q,
    tool_call_passes (Some q) (ts ++ [leaving])
    = let '(q1, es) := tool_call_passes (Some q) ts in
      let '(q2, e) := tool_call_pass q1 leaving in
      (q2, es ++ match e with Some ev => [ev] | None => [] end)).
  { intros ts. induction ts as [|t ts IH]; intros q; simpl.
    - rewrite Hl, Hw, Hi. simpl. by destruct (finalize_to_generated_event q).
    - destruct (negb (was_in_tool_call t) || is_in_tool_call t); simpl.
      + rewrite IH. destruct (tool_call_passes _ ts) as [q1 es].
        by destruct (tool_call_pass q1 leaving).
      + destruct (finalize_to_generated_event _) as [q1 e]. rewrite IH.
        destruct (tool_call_passes _ ts) as [q2 es].
        destruct (tool_call_pass q2 leaving). by destruct e. }
  rewrite Happ, (tool_call_passes_inside p inside Hinside), Hempty. simpl.
  rewrite Hl, Hw, Hi. simpl. unfold finalize_to_generated_event, finalize. simpl.
  change ("" +:+ section_text inside) with (section_text inside).
  rewrite decide_False by done.
  destruct (parse_chat_message (tools_json p) (section_text inside)) as [[calls|text m]|err].
  - pose proof (validate_resolved_spec (put_buffer "" (put_buffer (section_text inside) p)) calls)
      as Hv. simpl in Hv.
    destruct (validate_resolved _ calls); simpl in *; try done;
      eexists; (split; [done|]); simpl; [by destruct Hv as [-> ?] | by exists calls].
  - simpl. eexists. split; [done|]. done.
  - simpl. eexists. split; [done|]. done.
Qed.

End ToolCalls.
Arguments ClassifiedToken T : clear implicits.
Arguments Build_ClassifiedToken {T} _ _ _ _ _.
Arguments sampled_token {T} _.
Arguments was_in_tool_call {T} _.
Arguments is_in_tool_call {T} _.
Arguments visible_piece {T} _.
Arguments raw_piece {T} _.

(** ** A concrete backend

    A message is one call to the tool ["f"] with the message as argument. *)

#[export] Instance plain_tool_calls : ToolCallBackend := {|
  parse_chat_message _ message := Ok (Recognized [message]);
  call_name _ := "f"%string;
  call_arguments c := ValidJson c;
  CompiledSchema := unit;
  schema_to_value _ := Ok "{}"%string;
  validator_for _ := Ok tt;
  iter_errors _ _ := [];
  debug_text s := s;
  tool_to_value _ := Ok "{}"%string;
  values_to_string _ := Ok "[]"%string;
|}.

Lemma tool_call_section_reported_once_witness :
  let p := {| buffer := ""; tools_json := "[]";
              validator := {| strategies := {["f"%string := JsonObjectOnly]} |} |} in
  let inside := [{| sampled_token := SampledToolCall 1; was_in_tool_call := true;
                    is_in_tool_call := true; visible_piece := ""; raw_piece := "x" |}] in
  let leaving := {| sampled_token := SampledContent 2; was_in_tool_call := true;
                    is_in_tool_call := false; visible_piece := "y"; raw_piece := "y" |} in
  exists e, tool_call_passes (Some p) (inside ++ [leaving]) = (Some (put_buffer "" p), [e]).
Proof.
  intros p inside leaving.
  destruct (tool_call_section_reported_once p inside leaving) as (e & He & _).
  - reflexivity.
  - repeat constructor.
  - repeat split.
  - discriminate.
  - exists e. exact He.
Defined.
