(* ===== verification/Llama.v ===== *)
(** * The interface of llama.cpp

    The model, its context, the samplers, the classifier of sampled tokens
    and the batches belong to the [llama_cpp_bindings] package, which is not
    part of the repository.  The class [LlamaBackend] has the operations the
    scheduler calls, with the documented laws of batches and of decoding that
    it relies on; the instance at the end is a small concrete model. *)

From S2P Require Import Prelude Messages ToolCalls.
Local Open Scope Z_scope.

Inductive SampledTokenSection : Type :=
| SectionContent
| SectionPending
| SectionReasoning
| SectionToolCall.

#[export] Instance SampledTokenSection_eq_dec : EqDecision SampledTokenSection.
Proof. solve_decision. Defined.

Record IngestOutcome (T : Type) : Type := {
  outcome_token : SampledToken T;
  outcome_visible_piece : string;
  outcome_raw_piece : string;
}.
Arguments Build_IngestOutcome {T} _ _ _.
Arguments outcome_token {T} _.
Arguments outcome_visible_piece {T} _.
Arguments outcome_raw_piece {T} _.

Inductive DecodeError : Type :=
| NoKvCacheSlot
| DecodeAborted
| BatchInvalid
| DecodeFailed (message : string).

(** An argument list of [LlamaBatch::add]. *)
Record BatchEntry (T : Type) : Type := {
  entry_token : SampledToken T;
  entry_position : Z;
  entry_sequence : Z;
  entry_logits : bool;
}.
Arguments Build_BatchEntry {T} _ _ _ _.
Arguments entry_token {T} _.
Arguments entry_position {T} _.
Arguments entry_sequence {T} _.
Arguments entry_logits {T} _.

(** The samplers the program makes; [min_keep] is a number of tokens. *)
Inductive SamplerStage : Type :=
| SamplerPenalties (last_n : Z) (repeat frequency presence : f32)
| SamplerTopK (k : Z)
| SamplerTopP (p : f32) (min_keep : Z)
| SamplerMinP (p : f32) (min_keep : Z)
| SamplerTemp (t : f32)
| SamplerDist (seed : Z).

Class LlamaBackend `{LlamaTypes} : Type := {
  LlamaToken : Type;
  LlamaSampler : Type;
  TokenDataArray : Type;
  SampledTokenClassifier : Type;
  LlamaContext : Type;
  LlamaBatch : Type;
  (** the model *)
  str_to_token : string -> result (list LlamaToken) string;
  is_eog_token : SampledToken LlamaToken -> bool;
  sampled_token_classifier : result SampledTokenClassifier string;
  (** sampling *)
  chain_simple : list SamplerStage -> LlamaSampler;
  json_schema_to_grammar : string -> result string string;
  grammar_sampler_init : string -> string -> result LlamaSampler string;
  token_data_array_ith : LlamaContext -> Z -> result TokenDataArray string;
  apply_sampler : LlamaSampler -> TokenDataArray -> result TokenDataArray string;
  selected_token : TokenDataArray -> option LlamaToken;
  sampler_accept : LlamaSampler -> LlamaToken -> LlamaSampler * result unit string;
  (** classifying *)
  classifier_record_prompt_tokens : SampledTokenClassifier -> Z -> SampledTokenClassifier;
  classifier_ingest_prompt_tokens :
    SampledTokenClassifier -> list LlamaToken -> SampledTokenClassifier;
  classifier_ingest :
    SampledTokenClassifier -> LlamaToken ->
    SampledTokenClassifier * result (list (IngestOutcome LlamaToken)) string;
  classifier_usage : SampledTokenClassifier -> TokenUsage;
  current_section : SampledTokenClassifier -> SampledTokenSection;
  content_tokens : TokenUsage -> Z;
  reasoning_tokens : TokenUsage -> Z;
  undeterminable_tokens : TokenUsage -> Z;
  (** batches and decoding *)
  batch_new : nat -> Z -> result LlamaBatch string;
  batch_add : LlamaBatch -> BatchEntry LlamaToken -> result LlamaBatch string;
  batch_entries : LlamaBatch -> list (BatchEntry LlamaToken);
  batch_capacity : LlamaBatch -> nat;
  decode : LlamaContext -> LlamaBatch -> LlamaContext * result unit DecodeError;
  clear_kv_cache_seq : LlamaContext -> Z -> LlamaContext;
  (** the sequence whose logits sampling at an index reads *)
  logits_at : LlamaContext -> Z -> option Z;
  (** a new batch is empty and has the capacity asked for *)
  batch_new_ok n m b : batch_new n m = Ok b -> batch_entries b = [] /\ batch_capacity b = n;
  (** adding appends, and only fails when the batch is full *)
  batch_add_ok b e b' :
    batch_add b e = Ok b' ->
    batch_entries b' = batch_entries b ++ [e] /\ batch_capacity b' = batch_capacity b;
  batch_add_room b e :
    (length (batch_entries b) < batch_capacity b)%nat -> is_ok (batch_add b e) = true;
  (** decoding leaves the logits of the entries that asked for them, at their
      place in the batch; clearing the cache of a sequence keeps them *)
  decode_logits c b c' k e :
    decode c b = (c', Ok tt) -> batch_entries b !! k = Some e -> entry_logits e = true ->
    logits_at c' (Z.of_nat k) = Some (entry_sequence e);
  clear_kv_cache_logits c id k : logits_at (clear_kv_cache_seq c id) k = logits_at c k;
}.

(** [LlamaBatch::n_tokens] *)
Definition n_tokens `{LlamaBackend} (b : LlamaBatch) : Z := Z.of_nat (length (batch_entries b)).

(** ** Multimodal prompts

    [mtmd] turns a prompt and its images into chunks, and the classifier
    evaluates them on the context, outside of the batches of the scheduler:
    when that succeeds, the logits of the last token are at index -1. *)

Inductive EvalMultimodalError : Type :=
| ImageChunkExceedsBatchSize (chunk_tokens n_batch_ : Z)
| EvalError (message : string).

(** [create_sampler_chain]; [seed] is what the generator of random numbers
    gives. *)
Definition create_sampler_chain `{LlamaBackend} (p : InferenceParameters) (seed : Z) : LlamaSampler :=
  chain_simple
    [SamplerPenalties (penalty_last_n p) (penalty_repeat p) (penalty_frequency p) (penalty_presence p);
     SamplerTopK (top_k p); SamplerTopP (top_p p) 0; SamplerMinP (min_p p) 0;
     SamplerTemp (temperature p); SamplerDist seed].

Class MultimodalBackend `{LlamaBackend} : Type := {
  MtmdContext : Type;
  MtmdBitmap : Type;
  MtmdInputChunks : Type;
  bitmap_from_buffer : MtmdContext -> string -> result MtmdBitmap string;
  mtmd_tokenize : MtmdContext -> string -> list MtmdBitmap -> result MtmdInputChunks string;
  eval_multimodal_chunks :
    SampledTokenClassifier -> MtmdInputChunks -> MtmdContext -> LlamaContext -> Z -> Z ->
    SampledTokenClassifier * LlamaContext * result Z EvalMultimodalError;
  mark_logits_initialized : LlamaContext -> Z -> LlamaContext;
  eval_multimodal_logits c chunks m l id n c' l' k :
    eval_multimodal_chunks c chunks m l id n = (c', l', Ok k) ->
    logits_at (mark_logits_initialized l' (-1)) (-1) = Some id;
}.

(** ** A concrete backend

    Tokens are numbers; the context samples the number of tokens it decoded,
    and remembers the last batch, or the sequence of the last multimodal prompt; the classifier counts; token 0 ends a
    generation. *)

Record PlainBatch : Type := { plain_entries : list (BatchEntry Z); plain_capacity : nat }.

Record PlainContext : Type := {
  plain_decoded : Z;
  plain_last : list (BatchEntry Z);
  plain_external : option Z;
}.

Definition plain_logits (c : PlainContext) (k : Z) : option Z :=
  if k <? 0 then plain_external c
  else match plain_last c !! Z.to_nat k with
       | Some e => if entry_logits e then Some (entry_sequence e) else None
       | None => None
       end.

#[local] Obligation Tactic := idtac.

#[export] Program Instance plain_backend : LlamaBackend := {
  LlamaToken := Z;
  LlamaSampler := unit;
  TokenDataArray := Z;
  SampledTokenClassifier := Z;
  LlamaContext := PlainContext;
  LlamaBatch := PlainBatch;
  str_to_token s := Ok (map Z.of_nat (seq 1 (String.length s)));
  is_eog_token t :=
    match t with
    | SampledContent t | SampledReasoning t | SampledToolCall t | SampledUndeterminable t =>
        t =? 0
    end;
  sampled_token_classifier := Ok 0;
  chain_simple _ := tt;
  json_schema_to_grammar s := if decide (s = ""%string) then Err "empty"%string else Ok s;
  grammar_sampler_init _ _ := Ok tt;
  token_data_array_ith c _ := Ok (plain_decoded c);
  apply_sampler _ a := Ok a;
  selected_token a := Some a;
  sampler_accept s _ := (s, Ok tt);
  classifier_record_prompt_tokens c _ := c;
  classifier_ingest_prompt_tokens c _ := c;
  classifier_ingest c t :=
    (c + 1, Ok [{| outcome_token := SampledContent t; outcome_visible_piece := "x";
                   outcome_raw_piece := "x" |}]);
  classifier_usage c := c;
  current_section _ := SectionContent;
  content_tokens u := u;
  reasoning_tokens _ := 0;
  undeterminable_tokens _ := 0;
  batch_new n _ := Ok {| plain_entries := []; plain_capacity := n |};
  batch_add b e :=
    if (length (plain_entries b) <? plain_capacity b)%nat
    then Ok {| plain_entries := plain_entries b ++ [e]; plain_capacity := plain_capacity b |}
    else Err "insufficient space"%string;
  batch_entries := plain_entries;
  batch_capacity := plain_capacity;
  decode c b :=
    ({| plain_decoded := plain_decoded c + Z.of_nat (length (plain_entries b));
        plain_last := plain_entries b;
        plain_external := None |}, Ok tt);
  clear_kv_cache_seq c _ := c;
  logits_at := plain_logits;
}.
Next Obligation. intros n m b [= <-]. done. Qed.
Next Obligation.
  intros b e b'. simpl. destruct (_ <? _)%nat; [|done]. intros [= <-]. done.
Qed.
Next Obligation. intros b e Hb. simpl in *. apply Nat.ltb_lt in Hb. by rewrite Hb. Qed.
Next Obligation.
  intros c b c' k e [= <-] He Hl. unfold plain_logits. simpl in *.
  destruct (Z.ltb_spec (Z.of_nat k) 0); [lia|]. by rewrite Nat2Z.id, He, Hl.
Qed.
Next Obligation. done. Qed.

(** A multimodal prompt has as many tokens as it has characters. *)
#[export] Program Instance plain_multimodal : MultimodalBackend := {
  MtmdContext := unit;
  MtmdBitmap := string;
  MtmdInputChunks := string;
  bitmap_from_buffer _ s := Ok s;
  mtmd_tokenize _ prompt _ := Ok prompt;
  eval_multimodal_chunks k chunks _ c id _ :=
    (k, {| plain_decoded := plain_decoded c; plain_last := []; plain_external := Some id |},
     Ok (Z.of_nat (String.length chunks)));
  mark_logits_initialized c _ := c;
}.
Next Obligation. intros k chunks m c id n k' c' z [= _ <- _]. done. Qed.
