(* ===== verification/Scheduler.v ===== *)
(** * The continuous batch scheduler of an agent: state and operations

    [continuous_batch_scheduler/] with the active requests, their state and
    phases, and the pool of sequence ids.  One model context is shared by all
    requests: an iteration samples a token for every request that generates,
    puts pending tokens and chunks of prompts into one batch, decodes it, and
    commits what it contributed; under memory pressure the request that got
    furthest is evicted.  This file has the definitions; the properties are in
    [SchedulerBatch] and [SchedulerLifecycle]. *)

From S2P Require Import Prelude Tokio Messages AtomicValue Requests SlotStatus ToolCalls Llama.
Local Open Scope Z_scope.

(** ** The pool of sequence ids

    A [Vec] whose end is the end of the list. *)

Definition sequence_id_pool_new (max_sequences : Z) : list Z := rev (seqZ 0 max_sequences).

Definition sequence_id_acquire (available_ids : list Z) : list Z * option Z :=
  match last available_ids with
  | Some id => (removelast available_ids, Some id)
  | None => (available_ids, None)
  end.

Definition sequence_id_release (id : Z) (available_ids : list Z) : list Z := available_ids ++ [id].

Section Scheduler.
Context `{JsonTypes} `{LlamaTypes} `{!ToolCallBackend} `{!LlamaBackend}.
Context {chan : Type -> Type} `{!UnboundedChannel chan}.
Context {sender receiver : Type} `{!WatchChannel sender receiver}.

(** ** Requests *)

Inductive ContinuousBatchTerminalOutcome : Type :=
| EmitNothing
| EmitToClient (terminal_result : GeneratedTokenResult).

Inductive ContinuousBatchRequestPhase : Type :=
| Ingesting
| Generating
| Completed (outcome : ContinuousBatchTerminalOutcome).

Record ContinuousBatchRequestState : Type := {
  current_token_position : Z;
  i_batch : option Z;
  max_tokens : Z;
  pending_sampled_token : option (SampledToken LlamaToken);
  phase : ContinuousBatchRequestPhase;
  prompt_tokens : list LlamaToken;
  prompt_tokens_ingested : nat;
}.

(** What the channel that stops a request holds. *)
Inductive StopSignal : Type :=
| StopEmpty
| StopSent
| StopDisconnected.

(** [generated_tokens_tx] names a channel of the scheduler's store; the slot
    guard is the slot the request counts for in the status. *)
Record ContinuousBatchActiveRequest : Type := {
  state : ContinuousBatchRequestState;
  chain : LlamaSampler;
  token_classifier : SampledTokenClassifier;
  grammar_sampler : option LlamaSampler;
  generated_tokens_tx : nat;
  generate_tokens_stop_rx : StopSignal;
  sequence_id : Z;
  tool_call_pipeline : option ToolCallPipeline;
}.

Definition is_completed (p : ContinuousBatchRequestPhase) : bool :=
  match p with
  | Completed _ => true
  | Ingesting | Generating => false
  end.

Definition is_generating (p : ContinuousBatchRequestPhase) : bool :=
  match p with
  | Generating => true
  | Ingesting | Completed _ => false
  end.

Definition is_ingesting (p : ContinuousBatchRequestPhase) : bool :=
  match p with
  | Ingesting => true
  | Generating | Completed _ => false
  end.

(** [continuous_batch_request_state.rs] *)

Definition remaining_prompt_tokens (s : ContinuousBatchRequestState) : list LlamaToken :=
  drop (prompt_tokens_ingested s) (prompt_tokens s).

Definition apply_generating_contribution (batch_position : Z) (s : ContinuousBatchRequestState)
    : ContinuousBatchRequestState :=
  {| current_token_position := wrap_i32 (current_token_position s + 1);
     i_batch := Some batch_position;
     max_tokens := max_tokens s;
     pending_sampled_token := None;
     phase := phase s;
     prompt_tokens := prompt_tokens s;
     prompt_tokens_ingested := prompt_tokens_ingested s |}.

(** The count of ingested tokens moves before the conversion that can fail. *)
Definition apply_ingesting_contribution (chunk_size : nat) (is_last_chunk : bool)
    (last_batch_position : Z) (s : ContinuousBatchRequestState)
    : ContinuousBatchRequestState * result unit string :=
  let ingested := (prompt_tokens_ingested s + chunk_size)%nat in
  match try_i32 (Z.of_nat chunk_size) with
  | None =>
      ({| current_token_position := current_token_position s; i_batch := i_batch s;
          max_tokens := max_tokens s; pending_sampled_token := pending_sampled_token s;
          phase := phase s; prompt_tokens := prompt_tokens s;
          prompt_tokens_ingested := ingested |}, Err "chunk size does not fit in i32"%string)
  | Some size =>
      ({| current_token_position := wrap_i32 (current_token_position s + size);
          i_batch := if is_last_chunk then Some last_batch_position else i_batch s;
          max_tokens := max_tokens s;
          pending_sampled_token := pending_sampled_token s;
          phase := if is_last_chunk then Generating else phase s;
          prompt_tokens := prompt_tokens s;
          prompt_tokens_ingested := ingested |}, Ok tt)
  end.

Definition store_pending_token (token : SampledToken LlamaToken) (s : ContinuousBatchRequestState)
    : ContinuousBatchRequestState :=
  {| current_token_position := current_token_position s; i_batch := i_batch s;
     max_tokens := max_tokens s; pending_sampled_token := Some token; phase := phase s;
     prompt_tokens := prompt_tokens s; prompt_tokens_ingested := prompt_tokens_ingested s |}.

Definition mark_completed (outcome : ContinuousBatchTerminalOutcome)
    (s : ContinuousBatchRequestState) : ContinuousBatchRequestState :=
  if is_completed (phase s) then s
  else
    {| current_token_position := current_token_position s; i_batch := None;
       max_tokens := max_tokens s; pending_sampled_token := pending_sampled_token s;
       phase := Completed outcome; prompt_tokens := prompt_tokens s;
       prompt_tokens_ingested := prompt_tokens_ingested s |}.

Definition into_terminal_outcome (s : ContinuousBatchRequestState)
    : ContinuousBatchTerminalOutcome :=
  match phase s with
  | Completed outcome => outcome
  | Generating | Ingesting => EmitNothing
  end.

(** [continuous_batch_active_request.rs] *)

Definition put_state (s : ContinuousBatchRequestState) (r : ContinuousBatchActiveRequest)
    : ContinuousBatchActiveRequest :=
  {| state := s; chain := chain r; token_classifier := token_classifier r;
     grammar_sampler := grammar_sampler r; generated_tokens_tx := generated_tokens_tx r;
     generate_tokens_stop_rx := generate_tokens_stop_rx r; sequence_id := sequence_id r;
     tool_call_pipeline := tool_call_pipeline r |}.

Definition put_samplers (c : LlamaSampler) (g : option LlamaSampler)
    (r : ContinuousBatchActiveRequest) : ContinuousBatchActiveRequest :=
  {| state := state r; chain := c; token_classifier := token_classifier r; grammar_sampler := g;
     generated_tokens_tx := generated_tokens_tx r;
     generate_tokens_stop_rx := generate_tokens_stop_rx r; sequence_id := sequence_id r;
     tool_call_pipeline := tool_call_pipeline r |}.

Definition put_classifier (c : SampledTokenClassifier) (r : ContinuousBatchActiveRequest)
    : ContinuousBatchActiveRequest :=
  {| state := state r; chain := chain r; token_classifier := c;
     grammar_sampler := grammar_sampler r; generated_tokens_tx := generated_tokens_tx r;
     generate_tokens_stop_rx := generate_tokens_stop_rx r; sequence_id := sequence_id r;
     tool_call_pipeline := tool_call_pipeline r |}.

Definition put_pipeline (p : option ToolCallPipeline) (r : ContinuousBatchActiveRequest)
    : ContinuousBatchActiveRequest :=
  {| state := state r; chain := chain r; token_classifier := token_classifier r;
     grammar_sampler := grammar_sampler r; generated_tokens_tx := generated_tokens_tx r;
     generate_tokens_stop_rx := generate_tokens_stop_rx r; sequence_id := sequence_id r;
     tool_call_pipeline := p |}.

Definition put_stop_signal (x : StopSignal) (r : ContinuousBatchActiveRequest)
    : ContinuousBatchActiveRequest :=
  {| state := state r; chain := chain r; token_classifier := token_classifier r;
     grammar_sampler := grammar_sampler r; generated_tokens_tx := generated_tokens_tx r;
     generate_tokens_stop_rx := x; sequence_id := sequence_id r;
     tool_call_pipeline := tool_call_pipeline r |}.

Definition request_completed (r : ContinuousBatchActiveRequest) : bool :=
  is_completed (phase (state r)).

Definition complete_with_outcome (outcome : GeneratedTokenResult)
    (r : ContinuousBatchActiveRequest) : ContinuousBatchActiveRequest :=
  put_state (mark_completed (EmitToClient outcome) (state r)) r.

(** [try_recv] takes the signal off the channel. *)
Definition is_stop_requested (r : ContinuousBatchActiveRequest)
    : ContinuousBatchActiveRequest * bool :=
  match generate_tokens_stop_rx r with
  | StopEmpty => (r, false)
  | StopSent => (put_stop_signal StopEmpty r, true)
  | StopDisconnected => (r, true)
  end.

Definition usage_summary (r : ContinuousBatchActiveRequest) : GenerationSummary :=
  {| usage := classifier_usage (token_classifier r) |}.

(** ** The scheduler *)

Record ContinuousBatchScheduler : Type := {
  active_requests : list ContinuousBatchActiveRequest;
  llama_context : LlamaContext;
  sequence_id_pool : list Z;
  client_channels : gmap nat (chan GeneratedTokenResult);
  slot_aggregated_status : SlotAggregatedStatus sender;
}.

Definition scheduler_new (c : LlamaContext) (max_concurrent_sequences : Z)
    (x : SlotAggregatedStatus sender) : ContinuousBatchScheduler :=
  {| active_requests := [];
     llama_context := c;
     sequence_id_pool := sequence_id_pool_new max_concurrent_sequences;
     client_channels := ∅;
     slot_aggregated_status := x |}.

Definition put_requests (l : list ContinuousBatchActiveRequest) (s : ContinuousBatchScheduler)
    : ContinuousBatchScheduler :=
  {| active_requests := l; llama_context := llama_context s;
     sequence_id_pool := sequence_id_pool s; client_channels := client_channels s;
     slot_aggregated_status := slot_aggregated_status s |}.

Definition put_context (c : LlamaContext) (s : ContinuousBatchScheduler)
    : ContinuousBatchScheduler :=
  {| active_requests := active_requests s; llama_context := c;
     sequence_id_pool := sequence_id_pool s; client_channels := client_channels s;
     slot_aggregated_status := slot_aggregated_status s |}.

Definition put_pool (ids : list Z) (s : ContinuousBatchScheduler) : ContinuousBatchScheduler :=
  {| active_requests := active_requests s; llama_context := llama_context s;
     sequence_id_pool := ids; client_channels := client_channels s;
     slot_aggregated_status := slot_aggregated_status s |}.

Definition put_channels (m : gmap nat (chan GeneratedTokenResult)) (s : ContinuousBatchScheduler)
    : ContinuousBatchScheduler :=
  {| active_requests := active_requests s; llama_context := llama_context s;
     sequence_id_pool := sequence_id_pool s; client_channels := m;
     slot_aggregated_status := slot_aggregated_status s |}.

Definition put_status (x : SlotAggregatedStatus sender) (s : ContinuousBatchScheduler)
    : ContinuousBatchScheduler :=
  {| active_requests := active_requests s; llama_context := llama_context s;
     sequence_id_pool := sequence_id_pool s; client_channels := client_channels s;
     slot_aggregated_status := x |}.

(** [clear_kv_cache_for_sequence]: an id that does not fit in a [u32] is
    logged and nothing is cleared. *)
Definition clear_kv_cache_for_sequence (id : Z) (c : LlamaContext) : LlamaContext :=
  match try_u32 id with
  | Some id_ => clear_kv_cache_seq c id_
  | None => c
  end.

(** [tx.send(event)]: whether the receiver was there. *)
Definition send_event (tx : nat) (event : GeneratedTokenResult)
    (m : gmap nat (chan GeneratedTokenResult)) : gmap nat (chan GeneratedTokenResult) * bool :=
  match m !! tx ≫= fun c => chan_send c event with
  | Some c' => (<[tx := c']> m, true)
  | None => (m, false)
  end.

(** [send_generated_token_result_or_warn] *)
Definition send_or_warn (tx : nat) (event : GeneratedTokenResult) (s : ContinuousBatchScheduler)
    : ContinuousBatchScheduler :=
  put_channels (fst (send_event tx event (client_channels s))) s.

(** ** Sampling *)

Inductive SamplingOutcome : Type :=
| AllCandidatesEliminated
| GrammarRejectedOutput (message : string)
| TokenSampled (token : LlamaToken).

(** Selecting: the candidates at the index, filtered by the grammar, then by
    the chain. *)
Definition select_candidate (ctx : LlamaContext) (batch_index : Z) (c : LlamaSampler)
    (g : option LlamaSampler) : result (option LlamaToken) string :=
  let? a := token_data_array_ith ctx batch_index in
  let? a := match g with
            | Some grammar => apply_sampler grammar a
            | None => Ok a
            end in
  let? a := apply_sampler c a in
  Ok (selected_token a).

Definition sample_token_at_batch_index (ctx : LlamaContext) (batch_index : Z)
    (c : LlamaSampler) (g : option LlamaSampler)
    : LlamaSampler * option LlamaSampler * result SamplingOutcome string :=
  match select_candidate ctx batch_index c g with
  | Err e => (c, g, Err e)
  | Ok None => (c, g, Ok AllCandidatesEliminated)
  | Ok (Some token) =>
      match sampler_accept c token with
      | (c', Err e) => (c', g, Err e)
      | (c', Ok _) =>
          match g with
          | None => (c', None, Ok (TokenSampled token))
          | Some grammar =>
              match sampler_accept grammar token with
              | (grammar', Ok _) => (c', Some grammar', Ok (TokenSampled token))
              | (grammar', Err e) => (c', Some grammar', Ok (GrammarRejectedOutput e))
              end
          end
      end
  end.

Inductive SampleOutcome : Type :=
| Sampled (token : LlamaToken)
| SampleEliminated
| SampleGrammarRejected (message : string)
| SampleFailed (message : string).

Definition sample_token_phase (ctx : LlamaContext) (batch_index : Z)
    (r : ContinuousBatchActiveRequest) : ContinuousBatchActiveRequest * SampleOutcome :=
  let '(c, g, o) := sample_token_at_batch_index ctx batch_index (chain r) (grammar_sampler r) in
  (put_samplers c g r,
   match o with
   | Ok (TokenSampled token) => Sampled token
   | Ok AllCandidatesEliminated => SampleEliminated
   | Ok (GrammarRejectedOutput message) => SampleGrammarRejected message
   | Err message => SampleFailed message
   end).

(** ** Classifying *)

Definition section_of (token : SampledToken LlamaToken) : SampledTokenSection :=
  match token with
  | SampledReasoning _ => SectionReasoning
  | SampledContent _ => SectionContent
  | SampledToolCall _ => SectionToolCall
  | SampledUndeterminable _ => SectionPending
  end.

Fixpoint classify_ingest_outcomes (outcomes : list (IngestOutcome LlamaToken))
    (previous_section : SampledTokenSection) : list (ClassifiedToken LlamaToken) :=
  match outcomes with
  | [] => []
  | outcome :: rest =>
      let section := section_of (outcome_token outcome) in
      {| sampled_token := outcome_token outcome;
         was_in_tool_call := bool_decide (previous_section = SectionToolCall);
         is_in_tool_call := bool_decide (section = SectionToolCall);
         visible_piece := outcome_visible_piece outcome;
         raw_piece := outcome_raw_piece outcome |}
      :: classify_ingest_outcomes rest section
  end.

Definition classify_token_phase (raw_token : LlamaToken) (r : ContinuousBatchActiveRequest)
    : ContinuousBatchActiveRequest * result (list (ClassifiedToken LlamaToken)) string :=
  let section_before := current_section (token_classifier r) in
  let '(c, o) := classifier_ingest (token_classifier r) raw_token in
  (put_classifier c r,
   let? outcomes := o in Ok (classify_ingest_outcomes outcomes section_before)).

(** ** Completion *)

Inductive CompletionCheckOutcome : Type :=
| CompletionContinue
| ReachedEog
| ReachedMaxTokens.

Definition completion_token_count (u : TokenUsage) : Z :=
  wrap_u64 (content_tokens u + reasoning_tokens u + undeterminable_tokens u).

Definition max_tokens_outcome (max_tokens_ : Z) (u : TokenUsage) : CompletionCheckOutcome :=
  match try_u64 max_tokens_ with
  | None => ReachedMaxTokens
  | Some max_tokens_u64 =>
      if max_tokens_u64 <=? completion_token_count u then ReachedMaxTokens else CompletionContinue
  end.

Definition completion_check_phase (token : SampledToken LlamaToken)
    (r : ContinuousBatchActiveRequest) : CompletionCheckOutcome :=
  if is_eog_token token then ReachedEog
  else max_tokens_outcome (max_tokens (state r)) (classifier_usage (token_classifier r)).

(** ** Emitting *)

Definition token_to_event (token : SampledToken LlamaToken) (piece : string)
    : GeneratedTokenResult :=
  match token with
  | SampledContent _ => ContentToken piece
  | SampledReasoning _ => ReasoningToken piece
  | SampledToolCall _ => ToolCallToken piece
  | SampledUndeterminable _ => UndeterminableToken piece
  end.

(** [emit_classified]: a token without a visible piece is not sent. *)
Definition emit_token_phase (classified : ClassifiedToken LlamaToken) (tx : nat)
    (m : gmap nat (chan GeneratedTokenResult)) : gmap nat (chan GeneratedTokenResult) * bool :=
  if decide (visible_piece classified = ""%string) then (m, true)
  else send_event tx (token_to_event (sampled_token classified) (visible_piece classified)) m.

(** The loop over the classified tokens: emit, then the tool-call pass; the
    first failure to send leaves it. *)
Fixpoint emit_classified_tokens (tokens : list (ClassifiedToken LlamaToken))
    (r : ContinuousBatchActiveRequest) (m : gmap nat (chan GeneratedTokenResult))
    : ContinuousBatchActiveRequest * gmap nat (chan GeneratedTokenResult) * bool :=
  match tokens with
  | [] => (r, m, true)
  | classified :: rest =>
      match emit_token_phase classified (generated_tokens_tx r) m with
      | (m1, false) => (r, m1, false)
      | (m1, true) =>
          let '(p, event) := tool_call_pass (tool_call_pipeline r) classified in
          let r1 := put_pipeline p r in
          match event with
          | None => emit_classified_tokens rest r1 m1
          | Some e =>
              match send_event (generated_tokens_tx r) e m1 with
              | (m2, true) => emit_classified_tokens rest r1 m2
              | (m2, false) => (r1, m2, false)
              end
          end
      end
  end.

(** The flush of a tool call that the end of the generation cuts off. *)
Definition flush_tool_call (r : ContinuousBatchActiveRequest)
    (m : gmap nat (chan GeneratedTokenResult))
    : ContinuousBatchActiveRequest * gmap nat (chan GeneratedTokenResult) * bool :=
  match tool_call_pipeline r with
  | None => (r, m, true)
  | Some p =>
      if buffer_is_empty p then (r, m, true)
      else
        let '(p', event) := finalize_to_generated_event p in
        let r1 := put_pipeline (Some p') r in
        match event with
        | None => (r1, m, true)
        | Some e => let '(m1, ok) := send_event (generated_tokens_tx r) e m in (r1, m1, ok)
        end
  end.

(** ** Advancing the requests that generate *)

Inductive AdvanceOutcome : Type :=
| SampledAndStored (token : SampledToken LlamaToken)
| AdvanceCompleted (event : GeneratedTokenResult)
| ChannelDropped.

(** What [advance_one] touches besides the request. *)
Record Surroundings : Type := {
  surrounding_channels : gmap nat (chan GeneratedTokenResult);
  surrounding_status : SlotAggregatedStatus sender;
}.

Definition all_eliminated_message : string :=
  "all token candidates were eliminated during sampling".

(** Completing with [Done], after the flush. *)
Definition finish_generation (r : ContinuousBatchActiveRequest)
    (m : gmap nat (chan GeneratedTokenResult))
    : ContinuousBatchActiveRequest * gmap nat (chan GeneratedTokenResult) * AdvanceOutcome :=
  let '(r, m, sent) := flush_tool_call r m in
  (r, m, if sent then AdvanceCompleted (Done (usage_summary r)) else ChannelDropped).

(** What happens to a sampled token. *)
Definition advance_sampled (raw_token : LlamaToken) (r : ContinuousBatchActiveRequest)
    (m : gmap nat (chan GeneratedTokenResult))
    : ContinuousBatchActiveRequest * gmap nat (chan GeneratedTokenResult) * AdvanceOutcome :=
  match classify_token_phase raw_token r with
  | (r1, Err e) => (r1, m, AdvanceCompleted (DetokenizationFailed e))
  | (r1, Ok classified_outcomes) =>
      let raw_as_sampled := SampledContent raw_token in
      match completion_check_phase raw_as_sampled r1 with
      | ReachedEog => finish_generation r1 m
      | CompletionContinue | ReachedMaxTokens =>
          match emit_classified_tokens classified_outcomes r1 m with
          | (r2, m2, false) => (r2, m2, ChannelDropped)
          | (r2, m2, true) =>
              match completion_check_phase raw_as_sampled r2 with
              | ReachedEog | ReachedMaxTokens => finish_generation r2 m2
              | CompletionContinue => (r2, m2, SampledAndStored raw_as_sampled)
              end
          end
      end
  end.

(** [clock] is what the throughput meter reads when a token is recorded. *)
Definition advance_one (ctx : LlamaContext) (clock : Z * Z) (r : ContinuousBatchActiveRequest)
    (o : Surroundings) : ContinuousBatchActiveRequest * Surroundings * option AdvanceOutcome :=
  if negb (is_generating (phase (state r))) then (r, o, None)
  else
    match pending_sampled_token (state r), i_batch (state r) with
    | Some _, _ => (r, o, None)
    | None, None => (r, o, None)
    | None, Some batch_index =>
        match sample_token_phase ctx batch_index r with
        | (r1, Sampled token) =>
            let status := record_generated_token (fst clock) (snd clock) (surrounding_status o) in
            let '(r2, m, outcome) := advance_sampled token r1 (surrounding_channels o) in
            (r2, {| surrounding_channels := m; surrounding_status := status |}, Some outcome)
        | (r1, SampleEliminated) =>
            (r1, o, Some (AdvanceCompleted (SamplerError all_eliminated_message)))
        | (r1, SampleGrammarRejected message) =>
            (r1, o, Some (AdvanceCompleted (GrammarRejectedModelOutput message)))
        | (r1, SampleFailed message) =>
            (r1, o, Some (AdvanceCompleted (SamplerError message)))
        end
    end.

Definition apply_outcome (outcome : option AdvanceOutcome) (r : ContinuousBatchActiveRequest)
    : ContinuousBatchActiveRequest :=
  match outcome with
  | None => r
  | Some (SampledAndStored token) => put_state (store_pending_token token (state r)) r
  | Some (AdvanceCompleted event) => complete_with_outcome event r
  | Some ChannelDropped => put_state (mark_completed EmitNothing (state r)) r
  end.

Fixpoint advance_requests (ctx : LlamaContext) (clock : nat -> Z * Z) (index : nat)
    (rs : list ContinuousBatchActiveRequest) (o : Surroundings)
    : list ContinuousBatchActiveRequest * Surroundings :=
  match rs with
  | [] => ([], o)
  | r :: rest =>
      let '(r1, o1, outcome) := advance_one ctx (clock index) r o in
      let '(rest1, o2) := advance_requests ctx clock (S index) rest o1 in
      (apply_outcome outcome r1 :: rest1, o2)
  end.

Definition advance_generating_requests (clock : nat -> Z * Z) (s : ContinuousBatchScheduler)
    : ContinuousBatchScheduler :=
  let '(rs, o) := advance_requests (llama_context s) clock 0 (active_requests s)
                    {| surrounding_channels := client_channels s;
                       surrounding_status := slot_aggregated_status s |} in
  put_requests rs (put_channels (surrounding_channels o) (put_status (surrounding_status o) s)).

(** ** Assembling a batch *)

Record GeneratingContribution : Type := {
  generating_request_index : nat;
  batch_position : Z;
}.

Record IngestingContribution : Type := {
  ingesting_request_index : nat;
  chunk_size : nat;
  is_last_chunk : bool;
  last_batch_position : Z;
}.

Record Contributions : Type := {
  generating : list GeneratingContribution;
  ingesting : list IngestingContribution;
  current_batch_token_count : nat;
}.

Record BatchPass : Type := { batch : LlamaBatch; contributions : Contributions }.

Definition batch_pass_new (n_batch_ : nat) (max_sequences : Z) : result BatchPass string :=
  let? b := batch_new n_batch_ max_sequences in
  Ok {| batch := b;
        contributions := {| generating := []; ingesting := []; current_batch_token_count := 0 |} |}.

Definition pass_is_empty (p : BatchPass) : bool :=
  match generating (contributions p), ingesting (contributions p) with
  | [], [] => true
  | _, _ => false
  end.

Fixpoint fill_generating (n_batch_ : nat) (rs : list ContinuousBatchActiveRequest)
    (request_index tokens_added : nat) (p : BatchPass) : result (BatchPass * nat) string :=
  match rs with
  | [] => Ok (p, tokens_added)
  | r :: rest =>
      if negb (is_generating (phase (state r)))
      then fill_generating n_batch_ rest (S request_index) tokens_added p
      else
        match pending_sampled_token (state r) with
        | None => fill_generating n_batch_ rest (S request_index) tokens_added p
        | Some pending_token =>
            if (n_batch_ <=? tokens_added)%nat then Ok (p, tokens_added)
            else
              let position := n_tokens (batch p) in
              let? b := batch_add (batch p)
                          {| entry_token := pending_token;
                             entry_position := current_token_position (state r);
                             entry_sequence := sequence_id r;
                             entry_logits := true |} in
              let c := contributions p in
              fill_generating n_batch_ rest (S request_index) (S tokens_added)
                {| batch := b;
                   contributions :=
                     {| generating := generating c ++ [{| generating_request_index := request_index;
                                                          batch_position := position |}];
                        ingesting := ingesting c;
                        current_batch_token_count := current_batch_token_count c |} |}
        end
  end.

Definition compute_ingesting_chunk_size (remaining_prompt_len n_batch_ current : nat) : nat :=
  (remaining_prompt_len `min` (n_batch_ - current))%nat.

(** The loop over a chunk. *)
Fixpoint add_chunk (chunk : list LlamaToken) (offset size : nat) (last_chunk : bool)
    (r : ContinuousBatchActiveRequest) (b : LlamaBatch) : result LlamaBatch string :=
  match chunk with
  | [] => Ok b
  | token :: rest =>
      match try_i32 (Z.of_nat offset) with
      | None => Err "token offset does not fit in i32"%string
      | Some offset_ =>
          let? b := batch_add b
                      {| entry_token := SampledContent token;
                         entry_position := wrap_i32 (current_token_position (state r) + offset_);
                         entry_sequence := sequence_id r;
                         entry_logits := last_chunk && (offset =? size - 1)%nat |} in
          add_chunk rest (S offset) size last_chunk r b
      end
  end.

Fixpoint fill_ingesting (n_batch_ : nat) (rs : list ContinuousBatchActiveRequest)
    (request_index : nat) (p : BatchPass) : result BatchPass string :=
  match rs with
  | [] => Ok p
  | r :: rest =>
      if negb (is_ingesting (phase (state r)))
      then fill_ingesting n_batch_ rest (S request_index) p
      else
        let c := contributions p in
        let size := compute_ingesting_chunk_size (length (remaining_prompt_tokens (state r)))
                      n_batch_ (current_batch_token_count c) in
        if (size =? 0)%nat then fill_ingesting n_batch_ rest (S request_index) p
        else
          let ingested := prompt_tokens_ingested (state r) in
          let chunk := take size (drop ingested (prompt_tokens (state r))) in
          let last_chunk := (length (prompt_tokens (state r)) <=? ingested + size)%nat in
          let? b := add_chunk chunk 0 size last_chunk r (batch p) in
          fill_ingesting n_batch_ rest (S request_index)
            {| batch := b;
               contributions :=
                 {| generating := generating c;
                    ingesting :=
                      ingesting c ++ [{| ingesting_request_index := request_index;
                                         chunk_size := size;
                                         is_last_chunk := last_chunk;
                                         last_batch_position := n_tokens b - 1 |}];
                    current_batch_token_count := (current_batch_token_count c + size)%nat |} |}
  end.

Definition assemble_batch_phase (n_batch_ : nat) (rs : list ContinuousBatchActiveRequest)
    (p : BatchPass) : result BatchPass string :=
  let? filled := fill_generating n_batch_ rs 0 0 p in
  let '(p1, added) := filled in
  let c := contributions p1 in
  fill_ingesting n_batch_ rs 0
    {| batch := batch p1;
       contributions :=
         {| generating := generating c; ingesting := ingesting c;
            current_batch_token_count := (current_batch_token_count c + added)%nat |} |}.

(** ** Decoding and committing *)

Inductive DecodeOutcome : Type :=
| Decoded
| NeedsEviction
| Aborted
| Errored (error : DecodeError).

Definition from_decode_result (r : result unit DecodeError) : DecodeOutcome :=
  match r with
  | Ok _ => Decoded
  | Err NoKvCacheSlot => NeedsEviction
  | Err DecodeAborted | Err BatchInvalid => Aborted
  | Err other => Errored other
  end.

Definition decode_batch_phase (p : BatchPass) (ctx : LlamaContext)
    : LlamaContext * DecodeOutcome :=
  let '(ctx', r) := decode ctx (batch p) in (ctx', from_decode_result r).

Definition commit_generating (cs : list GeneratingContribution)
    (rs : list ContinuousBatchActiveRequest) : list ContinuousBatchActiveRequest :=
  fold_left
    (fun rs c =>
       alter (fun r => put_state (apply_generating_contribution (batch_position c) (state r)) r)
         (generating_request_index c) rs)
    cs rs.

Fixpoint commit_ingesting (cs : list IngestingContribution)
    (rs : list ContinuousBatchActiveRequest)
    : list ContinuousBatchActiveRequest * result unit string :=
  match cs with
  | [] => (rs, Ok tt)
  | c :: rest =>
      match rs !! ingesting_request_index c with
      | None => (rs, Err "index out of bounds"%string)
      | Some r =>
          let '(st, res) := apply_ingesting_contribution (chunk_size c) (is_last_chunk c)
                              (last_batch_position c) (state r) in
          let rs1 := <[ingesting_request_index c := put_state st r]> rs in
          match res with
          | Ok _ => commit_ingesting rest rs1
          | Err e => (rs1, Err e)
          end
      end
  end.

Definition commit_phase (p : BatchPass) (rs : list ContinuousBatchActiveRequest)
    : list ContinuousBatchActiveRequest * result unit string :=
  commit_ingesting (ingesting (contributions p))
    (commit_generating (generating (contributions p)) rs).

(** ** Cleaning up *)

(** [Vec::swap_remove] *)
Definition swap_remove {A : Type} (index : nat) (l : list A) : option (A * list A) :=
  match l !! index, last l with
  | Some x, Some z => Some (x, removelast (<[index := z]> l))
  | _, _ => None
  end.

(** The slot guard goes first, then the cache of the sequence, then the
    terminal result is delivered, and the sequence id is released last. *)
Definition cleanup_completed_request (index : nat) (s : ContinuousBatchScheduler)
    : ContinuousBatchScheduler :=
  match swap_remove index (active_requests s) with
  | None => s
  | Some (r, rest) =>
      let s := put_requests rest s in
      let s := put_status (slot_guard_drop (slot_aggregated_status s)) s in
      let s := put_context (clear_kv_cache_for_sequence (sequence_id r) (llama_context s)) s in
      let s := match into_terminal_outcome (state r) with
               | EmitNothing => s
               | EmitToClient terminal_result =>
                   send_or_warn (generated_tokens_tx r) terminal_result s
               end in
      put_pool (sequence_id_release (sequence_id r) (sequence_id_pool s)) s
  end.

(** The loop over the indices, with fuel for its turns. *)
Fixpoint remove_completed_loop (fuel removal_index : nat) (s : ContinuousBatchScheduler)
    : option ContinuousBatchScheduler :=
  match fuel with
  | O => None
  | S fuel' =>
      match active_requests s !! removal_index with
      | None => Some s
      | Some r =>
          if request_completed r
          then remove_completed_loop fuel' removal_index (cleanup_completed_request removal_index s)
          else remove_completed_loop fuel' (S removal_index) s
      end
  end.

Definition remove_completed_requests (s : ContinuousBatchScheduler)
    : option ContinuousBatchScheduler :=
  remove_completed_loop (S (length (active_requests s))) 0 s.

Definition check_stop_signal (r : ContinuousBatchActiveRequest) : ContinuousBatchActiveRequest :=
  if request_completed r then r
  else
    let '(r1, requested) := is_stop_requested r in
    if requested then complete_with_outcome (Done (usage_summary r1)) r1 else r1.

Definition check_stop_signals (s : ContinuousBatchScheduler) : ContinuousBatchScheduler :=
  put_requests (map check_stop_signal (active_requests s)) s.

Definition has_active_requests (s : ContinuousBatchScheduler) : bool :=
  existsb (fun r => negb (request_completed r)) (active_requests s).

(** ** Eviction *)

(** The loop that finds the largest position, with the index it is at. *)
Fixpoint find_largest (rs : list ContinuousBatchActiveRequest) (index : nat)
    (largest_index : option nat) (largest_position : Z) : option nat :=
  match rs with
  | [] => largest_index
  | r :: rest =>
      if request_completed r then find_largest rest (S index) largest_index largest_position
      else if largest_position <? current_token_position (state r)
      then find_largest rest (S index) (Some index) (current_token_position (state r))
      else find_largest rest (S index) largest_index largest_position
  end.

Definition eviction_result : GeneratedTokenResult :=
  SamplerError "Request evicted due to KV cache pressure".

Definition evict_largest_sequence (s : ContinuousBatchScheduler) : ContinuousBatchScheduler :=
  match find_largest (active_requests s) 0 None (-1) with
  | None => s
  | Some eviction_index =>
      let s := put_requests
                 (alter (complete_with_outcome eviction_result) eviction_index (active_requests s))
                 s in
      cleanup_completed_request eviction_index s
  end.

(** ** One iteration *)

(** The loop of [execute_one_iteration]; [None] when the fuel runs out. *)
Fixpoint iteration_loop (fuel n_batch_ : nat) (s : ContinuousBatchScheduler)
    : ContinuousBatchScheduler * option (result unit string) :=
  match fuel with
  | O => (s, None)
  | S fuel' =>
      match try_i32 (Z.of_nat (length (active_requests s) `max` 1)) with
      | None => (s, Some (Err "max sequence count does not fit in i32"%string))
      | Some max_sequences =>
          match (let? p := batch_pass_new n_batch_ max_sequences in
                 assemble_batch_phase n_batch_ (active_requests s) p) with
          | Err e => (s, Some (Err e))
          | Ok p =>
              if pass_is_empty p then (s, Some (Ok tt))
              else
                let '(ctx, outcome) := decode_batch_phase p (llama_context s) in
                let s := put_context ctx s in
                match outcome with
                | Decoded =>
                    let '(rs, r) := commit_phase p (active_requests s) in
                    (put_requests rs s, Some r)
                | NeedsEviction =>
                    let s := evict_largest_sequence s in
                    match active_requests s with
                    | [] => (s, Some (Ok tt))
                    | _ :: _ => iteration_loop fuel' n_batch_ s
                    end
                | Aborted => (s, Some (Ok tt))
                | Errored _ => (s, Some (Err "decode failed"%string))
                end
          end
      end
  end.

Definition execute_one_iteration (n_batch_ : nat) (clock : nat -> Z * Z)
    (s : ContinuousBatchScheduler) : ContinuousBatchScheduler * option (result unit string) :=
  let s := advance_generating_requests clock s in
  iteration_loop (S (length (active_requests s))) n_batch_ s.

(** ** Shutting down *)

(** The loop that empties the scheduler, one request for each turn. *)
Fixpoint cleanup_all (fuel : nat) (s : ContinuousBatchScheduler)
    : option ContinuousBatchScheduler :=
  match fuel with
  | O => None
  | S fuel' =>
      match active_requests s with
      | [] => Some s
      | _ :: _ => cleanup_all fuel' (cleanup_completed_request 0 s)
      end
  end.

End Scheduler.
