(* ===== verification/SchedulerCommands.v ===== *)
(** * The continuous batch scheduler: accepting requests

    The rest of [continuous_batch_scheduler/mod.rs]: how a prompt becomes an
    active request, with every rejection, how a multimodal prompt is decoded
    between two iterations, and [resolve_grammar.rs],
    [resolve_grammar_to_gbnf.rs] and [grammar_sampler.rs]. *)

From S2P Require Import Prelude Tokio Messages AtomicValue Requests SlotStatus ToolCalls Llama.
From S2P Require Import Scheduler.
Local Open Scope Z_scope.

(** ** Grammars *)

Record ResolvedGrammar : Type := { grammar_string : string; root_rule : string }.

Section Grammars.
Context `{LlamaBackend}.

Definition resolve_grammar_to_gbnf (constraint : GrammarConstraint)
    : result ResolvedGrammar string :=
  match constraint with
  | Gbnf grammar root => Ok {| grammar_string := grammar; root_rule := root |}
  | JsonSchema schema =>
      match json_schema_to_grammar schema with
      | Ok grammar => Ok {| grammar_string := grammar; root_rule := "root" |}
      | Err err => Err ("Failed to convert JSON schema to grammar: " +:+ err)
      end
  end.

(** [GrammarSampler] has the two fields of [ResolvedGrammar]. *)
Definition GrammarSampler : Type := ResolvedGrammar.

Definition grammar_sampler_new (constraint : GrammarConstraint) : result GrammarSampler string :=
  let? resolved := resolve_grammar_to_gbnf constraint in
  Ok {| grammar_string := grammar_string resolved; root_rule := root_rule resolved |}.

Definition into_llama_sampler (g : GrammarSampler) : result LlamaSampler string :=
  match grammar_sampler_init (grammar_string g) (root_rule g) with
  | Ok s => Ok s
  | Err err => Err ("Failed to initialize grammar sampler: " +:+ err)
  end.

End Grammars.

Record DecodedImage : Type := { data : string }.

Section SchedulerCommands.
Context `{JsonTypes} `{LlamaTypes} `{!ToolCallBackend} `{!LlamaBackend} `{!MultimodalBackend}.
Context {chan : Type -> Type} `{!UnboundedChannel chan}.
Context {sender receiver : Type} `{!WatchChannel sender receiver}.

Notation Scheduler := (ContinuousBatchScheduler (chan := chan) (sender := sender)).
Notation Channels := (gmap nat (chan GeneratedTokenResult)).

(** The fields of [ContinuousBatchSchedulerContext] that accepting reads. *)
Record ContinuousBatchSchedulerContext : Type := {
  agent_name : option string;
  context_inference_parameters : InferenceParameters;
  multimodal_context : option MtmdContext;
}.

(** What [{:?}] prints of the name. *)
Definition debug_agent_name (c : ContinuousBatchSchedulerContext) : string :=
  match agent_name c with
  | Some name => "Some(" +:+ debug_text name +:+ ")"
  | None => "None"
  end.

(** [resolve_grammar]: an event that cannot be sent is an error of its own. *)
Definition resolve_grammar (grammar : option GrammarConstraint) (thinking : bool) (tx : nat)
    (m : Channels) : Channels * result (option GrammarSampler) string :=
  match grammar with
  | None => (m, Ok None)
  | Some constraint =>
      if thinking then
        let message := "Grammar constraints are incompatible with thinking mode"%string in
        match send_event tx (GrammarIncompatibleWithThinking message) m with
        | (m', true) => (m', Err message)
        | (m', false) =>
            (m', Err "Failed to send grammar incompatibility error: channel closed"%string)
        end
      else
        match grammar_sampler_new constraint with
        | Ok sampler => (m, Ok (Some sampler))
        | Err err =>
            let message := "Failed to create grammar sampler: " +:+ err in
            match send_event tx (GrammarSyntaxError message) m with
            | (m', true) => (m', Err message)
            | (m', false) => (m', Err "Failed to send grammar syntax error: channel closed"%string)
            end
        end
  end.

Definition create_grammar_llama_sampler (c : ContinuousBatchSchedulerContext)
    (g : option GrammarSampler) (tx : nat) (s : Scheduler)
    : Scheduler * result (option LlamaSampler) string :=
  match g with
  | None => (s, Ok None)
  | Some grammar =>
      match into_llama_sampler grammar with
      | Ok sampler => (s, Ok (Some sampler))
      | Err err =>
          let message := debug_agent_name c +:+ ": failed to initialize grammar sampler: " +:+ err in
          (send_or_warn tx (GrammarInitializationFailed message) s, Err message)
      end
  end.

Inductive ToolCallPipelineBuildOutcome : Type :=
| Disabled
| Ready (pipeline : ToolCallPipeline)
| SchemaInvalid (message : string).

Fixpoint tools_to_values (tools_ : list (Tool ValidatedParametersSchema))
    : result (list JsonValue) string :=
  match tools_ with
  | [] => Ok []
  | t :: rest =>
      let? v := tool_to_value t in
      let? vs := tools_to_values rest in
      Ok (v :: vs)
  end.

Definition build_tool_call_pipeline (tools_ : list (Tool ValidatedParametersSchema))
    (parse : bool) : result ToolCallPipelineBuildOutcome string :=
  match parse, tools_ with
  | false, _ | true, [] => Ok Disabled
  | true, _ :: _ =>
      match validator_from_tools tools_ with
      | Err (InvalidSchema tool_name message) =>
          Ok (SchemaInvalid ("tool " +:+ debug_text tool_name
                             +:+ " parameters are not a valid JSON Schema: " +:+ message))
      | Err (SerializationFailed _ _) =>
          Err "failed to serialize tool parameters during validator build"%string
      | Ok v =>
          let? values := tools_to_values tools_ in
          let? pipeline := pipeline_new values v in
          Ok (Ready pipeline)
      end
  end.

(** ** Leaving without an active request

    The request's slot guard is dropped, after the sequence id it may have. *)

Definition drop_request (s : Scheduler) : Scheduler :=
  put_status (slot_guard_drop (slot_aggregated_status s)) s.

Definition drop_request_with_id (id : Z) (s : Scheduler) : Scheduler :=
  drop_request (put_pool (sequence_id_release id (sequence_id_pool s)) s).

(** The request a client submitted: its channels and its limit. *)
Record Submission : Type := {
  submitted_tx : nat;
  submitted_stop_rx : StopSignal;
  submitted_max_tokens : Z;
}.

Definition new_active_request (x : Submission) (id position : Z) (index : option Z)
    (p : ContinuousBatchRequestPhase) (tokens : list LlamaToken) (c : LlamaSampler)
    (classifier : SampledTokenClassifier) (g : option LlamaSampler)
    (pipeline : option ToolCallPipeline) : ContinuousBatchActiveRequest :=
  {| state := {| current_token_position := position;
                 i_batch := index;
                 max_tokens := submitted_max_tokens x;
                 pending_sampled_token := None;
                 phase := p;
                 prompt_tokens := tokens;
                 prompt_tokens_ingested := 0 |};
     chain := c;
     token_classifier := classifier;
     grammar_sampler := g;
     generated_tokens_tx := submitted_tx x;
     generate_tokens_stop_rx := submitted_stop_rx x;
     sequence_id := id;
     tool_call_pipeline := pipeline |}.

(** From the sequence id on; [seed] is the number the generator of the sampler
    chain is seeded with. *)
Definition start_text_prompt (c : ContinuousBatchSchedulerContext) (seed : Z) (prompt : string)
    (g : option GrammarSampler) (pipeline : option ToolCallPipeline) (x : Submission)
    (s : Scheduler) : Scheduler * result unit string :=
  let tx := submitted_tx x in
  match sequence_id_acquire (sequence_id_pool s) with
  | (_, None) =>
      let message := debug_agent_name c +:+ ": no available sequence slots, all slots are busy" in
      (drop_request (send_or_warn tx (SamplerError message) s), Ok tt)
  | (ids, Some id) =>
      let s := put_pool ids s in
      match str_to_token prompt with
      | Err err =>
          let message := debug_agent_name c +:+ ": failed to tokenize prompt: " +:+ err in
          (drop_request_with_id id (send_or_warn tx (SamplerError message) s), Ok tt)
      | Ok tokens =>
          match create_grammar_llama_sampler c g tx s with
          | (s, Err _) => (drop_request_with_id id s, Ok tt)
          | (s, Ok llama_grammar_sampler) =>
              let chain_ := create_sampler_chain (context_inference_parameters c) seed in
              match sampled_token_classifier with
              | Err e => (drop_request_with_id id s, Err e)
              | Ok classifier =>
                  let classifier := classifier_record_prompt_tokens classifier
                                      (Z.of_nat (length tokens)) in
                  let classifier := classifier_ingest_prompt_tokens classifier tokens in
                  let s := put_context (clear_kv_cache_for_sequence id (llama_context s)) s in
                  (put_requests
                     (active_requests s
                      ++ [new_active_request x id 0 None Ingesting tokens chain_ classifier
                            llama_grammar_sampler pipeline]) s, Ok tt)
              end
          end
      end
  end.

Definition accept_text_prompt (c : ContinuousBatchSchedulerContext) (seed : Z) (prompt : string)
    (g : option GrammarSampler) (parse : bool) (tools_ : list (Tool ValidatedParametersSchema))
    (x : Submission) (s : Scheduler) : Scheduler * result unit string :=
  match build_tool_call_pipeline tools_ parse with
  | Err e => (drop_request s, Err e)
  | Ok (SchemaInvalid message) =>
      (drop_request (send_or_warn (submitted_tx x) (ToolSchemaInvalid message) s), Ok tt)
  | Ok Disabled => start_text_prompt c seed prompt g None x s
  | Ok (Ready pipeline) => start_text_prompt c seed prompt g (Some pipeline) x s
  end.

(** The grammar is resolved first, without thinking; a raw prompt has no
    tools. *)
Definition accept_raw_prompt_request (c : ContinuousBatchSchedulerContext) (seed : Z)
    (params : ContinueFromRawPromptParams) (tx : nat) (stop_rx : StopSignal) (s : Scheduler)
    : Scheduler :=
  match resolve_grammar (raw_grammar params) false tx (client_channels s) with
  | (m, Err _) => drop_request (put_channels m s)
  | (m, Ok g) =>
      fst (accept_text_prompt c seed (raw_prompt params) g false []
             {| submitted_tx := tx; submitted_stop_rx := stop_rx;
                submitted_max_tokens := raw_max_tokens params |} (put_channels m s))
  end.

(** ** Decoding outside of the batches

    The logits of the last iteration are about to be overwritten: every
    request that has not sampled from them yet samples now. *)

Definition harvest_one (ctx : LlamaContext) (r : ContinuousBatchActiveRequest)
    : ContinuousBatchActiveRequest :=
  if negb (is_generating (phase (state r))) then r
  else
    match pending_sampled_token (state r), i_batch (state r) with
    | Some _, _ | None, None => r
    | None, Some batch_index =>
        let '(ch, g, o) :=
          sample_token_at_batch_index ctx batch_index (chain r) (grammar_sampler r) in
        let r := put_samplers ch g r in
        match o with
        | Ok (TokenSampled raw_token) =>
            let '(k, outcomes) := classifier_ingest (token_classifier r) raw_token in
            let r := put_classifier k r in
            match outcomes with
            | Err e => complete_with_outcome (DetokenizationFailed e) r
            | Ok _ =>
                let st := state r in
                put_state
                  {| current_token_position := current_token_position st;
                     i_batch := None;
                     max_tokens := max_tokens st;
                     pending_sampled_token := Some (SampledContent raw_token);
                     phase := phase st;
                     prompt_tokens := prompt_tokens st;
                     prompt_tokens_ingested := prompt_tokens_ingested st |} r
            end
        | Ok AllCandidatesEliminated => complete_with_outcome (SamplerError all_eliminated_message) r
        | Ok (GrammarRejectedOutput message) =>
            complete_with_outcome (GrammarRejectedModelOutput message) r
        | Err e => complete_with_outcome (SamplerError e) r
        end
    end.

Definition harvest_pending_samples_before_external_decode (s : Scheduler) : Scheduler :=
  put_requests (map (harvest_one (llama_context s)) (active_requests s)) s.

Fixpoint create_bitmaps (m : MtmdContext) (images : list DecodedImage)
    : result (list MtmdBitmap) string :=
  match images with
  | [] => Ok []
  | image :: rest =>
      match bitmap_from_buffer m (data image) with
      | Err err => Err ("Failed to create bitmap: " +:+ err)
      | Ok b => let? bs := create_bitmaps m rest in Ok (b :: bs)
      end
  end.

(** From the evaluation of the chunks on. *)
Definition ingest_multimodal (c : ContinuousBatchSchedulerContext) (seed : Z) (m : MtmdContext)
    (chunks : MtmdInputChunks) (batch_size id : Z) (g : option GrammarSampler)
    (pipeline : option ToolCallPipeline) (classifier : SampledTokenClassifier) (x : Submission)
    (s : Scheduler) : Scheduler :=
  let tx := submitted_tx x in
  let '(classifier, ctx, outcome) :=
    eval_multimodal_chunks classifier chunks m (llama_context s) id batch_size in
  let s := put_context ctx s in
  match outcome with
  | Err (ImageChunkExceedsBatchSize image_tokens_ n_batch_) =>
      drop_request_with_id id
        (send_or_warn tx
           (ImageExceedsBatchSize {| image_tokens := image_tokens_;
                                     oversized_image_n_batch := n_batch_ |}) s)
  | Err (EvalError err) =>
      let message := debug_agent_name c +:+ ": failed to ingest multimodal prompt: " +:+ err in
      drop_request_with_id id (send_or_warn tx (SamplerError message) s)
  | Ok tokens_ingested =>
      let s := put_context (mark_logits_initialized (llama_context s) (-1)) s in
      match create_grammar_llama_sampler c g tx s with
      | (s, Err _) => drop_request_with_id id s
      | (s, Ok llama_grammar_sampler) =>
          let chain_ := create_sampler_chain (context_inference_parameters c) seed in
          put_requests
            (active_requests s
             ++ [new_active_request x id tokens_ingested (Some (-1)) Generating [] chain_ classifier
                   llama_grammar_sampler pipeline]) s
      end
  end.

Definition start_multimodal (c : ContinuousBatchSchedulerContext) (seed : Z) (m : MtmdContext)
    (prompt : string) (images : list DecodedImage) (g : option GrammarSampler)
    (pipeline : option ToolCallPipeline) (x : Submission) (s : Scheduler)
    : Scheduler * result unit string :=
  let tx := submitted_tx x in
  match sequence_id_acquire (sequence_id_pool s) with
  | (_, None) =>
      let message := debug_agent_name c
                     +:+ ": no available sequence slots for multimodal request" in
      (drop_request (send_or_warn tx (SamplerError message) s), Ok tt)
  | (ids, Some id) =>
      let s := put_pool ids s in
      match create_bitmaps m images with
      | Err err =>
          let message := debug_agent_name c +:+ ": failed to create bitmaps: " +:+ err in
          (drop_request_with_id id (send_or_warn tx (ImageDecodingFailed message) s), Ok tt)
      | Ok bitmaps =>
          match mtmd_tokenize m prompt bitmaps with
          | Err err =>
              let message := debug_agent_name c +:+ ": failed to tokenize multimodal input: "
                             +:+ "Failed to tokenize multimodal input: " +:+ err in
              (drop_request_with_id id (send_or_warn tx (SamplerError message) s), Ok tt)
          | Ok chunks =>
              let s := put_context (clear_kv_cache_for_sequence id (llama_context s)) s in
              let s := harvest_pending_samples_before_external_decode s in
              match sampled_token_classifier with
              | Err e => (drop_request_with_id id s, Err e)
              | Ok classifier =>
                  match try_i32 (n_batch (context_inference_parameters c)) with
                  | None =>
                      (drop_request_with_id id s, Err "batch_size does not fit in i32"%string)
                  | Some batch_size =>
                      (ingest_multimodal c seed m chunks batch_size id g pipeline classifier x s,
                       Ok tt)
                  end
              end
          end
      end
  end.

Definition accept_multimodal_request (c : ContinuousBatchSchedulerContext) (seed : Z)
    (m : MtmdContext) (prompt : string) (images : list DecodedImage) (g : option GrammarSampler)
    (parse : bool) (tools_ : list (Tool ValidatedParametersSchema)) (x : Submission)
    (s : Scheduler) : Scheduler * result unit string :=
  match build_tool_call_pipeline tools_ parse with
  | Err e => (drop_request s, Err e)
  | Ok (SchemaInvalid message) =>
      (drop_request (send_or_warn (submitted_tx x) (ToolSchemaInvalid message) s), Ok tt)
  | Ok Disabled => start_multimodal c seed m prompt images g None x s
  | Ok (Ready pipeline) => start_multimodal c seed m prompt images g (Some pipeline) x s
  end.

End SchedulerCommands.
