(* ===== verification/SchedulerBatch.v ===== *)
(** * The continuous batch scheduler: what a batch holds

    Assembling never fails and never overfills a batch; every contribution it
    records matches the entries it put there; and a committed batch leaves
    each request with the position of its own logits. *)

From S2P Require Import Prelude Tokio Messages AtomicValue Requests SlotStatus ToolCalls Llama.
From S2P Require Import Scheduler.
Local Open Scope Z_scope.

Section SchedulerBatch.
Context `{JsonTypes} `{LlamaTypes} `{!ToolCallBackend} `{!LlamaBackend}.

Notation Request := ContinuousBatchActiveRequest.
Notation Entry := (BatchEntry LlamaToken).

(** ** What a contribution stands for *)

(** The entry of a request that generates. *)
Definition generating_entry (r : Request) (token : SampledToken LlamaToken) : Entry :=
  {| entry_token := token;
     entry_position := current_token_position (state r);
     entry_sequence := sequence_id r;
     entry_logits := true |}.

(** The entries of the next [size] tokens of a prompt, at the next positions;
    only the last token of the whole prompt asks for logits. *)
Definition ingesting_entries (r : Request) (size : nat) : list Entry :=
  imap (fun offset token =>
          {| entry_token := SampledContent token;
             entry_position := wrap_i32 (current_token_position (state r) + Z.of_nat offset);
             entry_sequence := sequence_id r;
             entry_logits := bool_decide (size = length (remaining_prompt_tokens (state r))
                                          /\ offset = (size - 1)%nat) |})
    (take size (remaining_prompt_tokens (state r))).

Definition generating_contributed (rs : list Request) (es : list Entry)
    (c : GeneratingContribution) : Prop :=
  exists r token k,
    rs !! generating_request_index c = Some r /\
    is_generating (phase (state r)) = true /\
    pending_sampled_token (state r) = Some token /\
    batch_position c = Z.of_nat k /\ es !! k = Some (generating_entry r token).

Definition ingesting_contributed (rs : list Request) (es : list Entry)
    (c : IngestingContribution) : Prop :=
  exists r before after,
    rs !! ingesting_request_index c = Some r /\
    is_ingesting (phase (state r)) = true /\
    (0 < chunk_size c <= length (remaining_prompt_tokens (state r)))%nat /\
    es = before ++ ingesting_entries r (chunk_size c) ++ after /\
    last_batch_position c = Z.of_nat (length before + chunk_size c) - 1 /\
    is_last_chunk c = bool_decide (chunk_size c = length (remaining_prompt_tokens (state r))).

Lemma generating_contributed_app (rs : list Request) (es es' : list Entry)
    (c : GeneratingContribution) :
  generating_contributed rs es c -> generating_contributed rs (es ++ es') c.
Proof.
  intros (r & t & k & Hr & Hg & Hp & Hk & He). exists r, t, k. repeat split; try done.
  by apply lookup_app_l_Some.
Qed.

Lemma ingesting_contributed_app (rs : list Request) (es es' : list Entry)
    (c : IngestingContribution) :
  ingesting_contributed rs es c -> ingesting_contributed rs (es ++ es') c.
Proof.
  intros (r & before & after & Hr & Hi & Hs & -> & Hl & Hb).
  exists r, before, (after ++ es'). repeat split; try done; try lia. by rewrite <- !app_assoc.
Qed.

Lemma ingesting_entries_length (r : Request) (size : nat) :
  (size <= length (remaining_prompt_tokens (state r)))%nat ->
  length (ingesting_entries r size) = size.
Proof. intros Hs. unfold ingesting_entries. rewrite length_imap, length_take. lia. Qed.

(** ** Adding *)

(** One entry fits in a batch with room, at its end. *)
Lemma batch_add_fits (b : LlamaBatch) (e : Entry) :
  (length (batch_entries b) < batch_capacity b)%nat ->
  exists b', batch_add b e = Ok b' /\ batch_entries b' = batch_entries b ++ [e] /\
             batch_capacity b' = batch_capacity b.
Proof.
  intros Hroom. pose proof (batch_add_room b e Hroom) as Hok.
  destruct (batch_add b e) as [b'|] eqn:E; [|done].
  exists b'. split; [done|]. by apply batch_add_ok.
Qed.

Lemma add_chunk_fits (r : Request) (size : nat) (last_chunk : bool) (chunk : list LlamaToken)
    (offset : nat) (b : LlamaBatch) :
  (length (batch_entries b) + length chunk <= batch_capacity b)%nat ->
  Z.of_nat (offset + length chunk) <= i32_max + 1 ->
  exists b', add_chunk chunk offset size last_chunk r b = Ok b' /\
    batch_capacity b' = batch_capacity b /\
    batch_entries b' = batch_entries b ++
      imap (fun i token =>
              {| entry_token := SampledContent token;
                 entry_position := wrap_i32 (current_token_position (state r) + Z.of_nat (offset + i));
                 entry_sequence := sequence_id r;
                 entry_logits := last_chunk && (offset + i =? size - 1)%nat |}) chunk.
Proof.
  revert offset b. induction chunk as [|token chunk IH]; intros offset b Hroom Hfit; simpl in *.
  { exists b. by rewrite app_nil_r. }
  unfold try_i32. rewrite decide_True by (unfold i32_min, i32_max in *; lia). cbn [result_bind].
  destruct (batch_add_fits b
    {| entry_token := SampledContent token;
       entry_position := wrap_i32 (current_token_position (state r) + Z.of_nat offset);
       entry_sequence := sequence_id r;
       entry_logits := last_chunk && (offset =? size - 1)%nat |})
    as (b1 & -> & He & Hc); [lia|]. simpl.
  destruct (IH (S offset) b1) as (b2 & -> & Hc2 & He2); [rewrite He, length_app, Hc; simpl; lia|lia|].
  exists b2. split; [done|]. split; [by rewrite Hc2|].
  rewrite He2, He, <- app_assoc. simpl. f_equal.
  rewrite !Nat.add_0_r. f_equal.
  apply imap_ext. intros i t _. simpl. by rewrite Nat.add_succ_r.
Qed.

(** ** The invariant of a pass

    [n_batch_] is the capacity of the batch and [added] the number of its
    entries. *)

Record pass_sound (n_batch_ added : nat) (rs : list Request) (p : BatchPass) : Prop := {
  pass_capacity : batch_capacity (batch p) = n_batch_;
  pass_added : length (batch_entries (batch p)) = added;
  pass_room : (added <= n_batch_)%nat;
  pass_generating :
    Forall (generating_contributed rs (batch_entries (batch p))) (generating (contributions p));
  pass_ingesting :
    Forall (ingesting_contributed rs (batch_entries (batch p))) (ingesting (contributions p));
  pass_generating_distinct : NoDup (map generating_request_index (generating (contributions p)));
  pass_ingesting_distinct : NoDup (map ingesting_request_index (ingesting (contributions p)));
}.

(** A request that waits for its pending token to be decoded, and one that
    waits for a part of its prompt. *)
Definition token_waits (r : Request) : Prop :=
  is_generating (phase (state r)) = true /\ is_Some (pending_sampled_token (state r)).

Definition prompt_waits (r : Request) : Prop :=
  is_ingesting (phase (state r)) = true /\ remaining_prompt_tokens (state r) <> [].

Definition token_served (p : BatchPass) (index : nat) : Prop :=
  In index (map generating_request_index (generating (contributions p))).

Definition prompt_served (p : BatchPass) (index : nat) : Prop :=
  exists c, In c (ingesting (contributions p)) /\ ingesting_request_index c = index /\
            is_last_chunk c = true.

Lemma batch_pass_new_sound (n_batch_ : nat) (m : Z) (rs : list Request) (p : BatchPass) :
  batch_pass_new n_batch_ m = Ok p ->
  pass_sound n_batch_ 0 rs p /\ generating (contributions p) = [] /\
  ingesting (contributions p) = [] /\ current_batch_token_count (contributions p) = 0%nat.
Proof.
  unfold batch_pass_new. destruct (batch_new n_batch_ m) as [b|] eqn:E; simpl; [|done].
  intros [= <-]. destruct (batch_new_ok _ _ _ E) as [He Hc].
  split; [|done]. split; simpl; try done; [by rewrite He|lia|constructor..].
Qed.

Lemma lookup_drop_cons {A : Type} (l : list A) (i : nat) (x : A) (rest : list A) :
  drop i l = x :: rest -> l !! i = Some x /\ drop (S i) l = rest.
Proof.
  intros Hd. split.
  - rewrite <- (Nat.add_0_r i), <- lookup_drop, Hd. done.
  - replace (S i) with (i + 1)%nat by lia. by rewrite <- drop_drop, Hd.
Qed.

Lemma NoDup_snoc_fresh (l : list nat) (i : nat) :
  NoDup l -> Forall (fun j => j < i)%nat l -> NoDup (l ++ [i]).
Proof.
  intros Hn Hf. apply NoDup_app. repeat split; [done| |apply NoDup_singleton].
  intros j Hj ->%list_elem_of_singleton. rewrite Forall_forall in Hf. apply Hf in Hj. lia.
Qed.

(** What filling in pending tokens from [index] on makes of a pass: the rest
    of the pass stays, and whoever was passed over found the batch full. *)
Record generating_filled (n_batch_ : nat) (full : list Request) (index : nat) (p p' : BatchPass)
    (added' : nat) : Prop := {
  filled_sound : pass_sound n_batch_ added' full p';
  filled_ingesting : ingesting (contributions p') = ingesting (contributions p);
  filled_count :
    current_batch_token_count (contributions p') = current_batch_token_count (contributions p);
  filled_kept : forall i, token_served p i -> token_served p' i;
  filled_served :
    added' = n_batch_ \/
    forall i r, (index <= i)%nat -> full !! i = Some r -> token_waits r -> token_served p' i;
}.

Definition below (index : nat) (p : BatchPass) : Prop :=
  Forall (fun j => j < index)%nat (map generating_request_index (generating (contributions p))).

Lemma below_succ (index : nat) (p : BatchPass) : below index p -> below (S index) p.
Proof. intros Hb. eapply Forall_impl; [exact Hb|]. simpl. lia. Qed.

Lemma generating_filled_end (n_batch_ added : nat) (full : list Request) (index : nat)
    (p : BatchPass) :
  pass_sound n_batch_ added full p -> (added = n_batch_ \/ (length full <= index)%nat) ->
  generating_filled n_batch_ full index p p added.
Proof.
  intros Hp Hend. split; try done. destruct Hend as [|Hl]; [by left|]. right.
  intros i r Hi Hr. apply lookup_lt_Some in Hr. lia.
Qed.

(** The request at [index] is served, or has nothing to be served. *)
Lemma generating_filled_step (n_batch_ : nat) (full : list Request) (index : nat)
    (p p1 p' : BatchPass) (added' : nat) (r : Request) :
  full !! index = Some r ->
  ingesting (contributions p1) = ingesting (contributions p) ->
  current_batch_token_count (contributions p1) = current_batch_token_count (contributions p) ->
  (forall i, token_served p i -> token_served p1 i) ->
  (token_waits r -> token_served p1 index) ->
  generating_filled n_batch_ full (S index) p1 p' added' ->
  generating_filled n_batch_ full index p p' added'.
Proof.
  intros Hr Hi Hc Hk Hw [F1 F2 F3 F4 F5]. split; [done|congruence|congruence|by auto|].
  destruct F5 as [|F5]; [by left|]. right. intros i r' Hle Hr' Hw'.
  destruct (decide (i = index)) as [->|]; [|apply (F5 i r'); [lia|done..]].
  apply F4, Hw. congruence.
Qed.

(** The pass after the token of the request at [index] went in. *)
Lemma pass_sound_token (n_batch_ added : nat) (full : list Request) (index : nat) (p : BatchPass)
    (r : Request) (token : SampledToken LlamaToken) (b : LlamaBatch) :
  pass_sound n_batch_ added full p -> below index p -> (added < n_batch_)%nat ->
  full !! index = Some r -> is_generating (phase (state r)) = true ->
  pending_sampled_token (state r) = Some token ->
  batch_entries b = batch_entries (batch p) ++ [generating_entry r token] ->
  batch_capacity b = batch_capacity (batch p) ->
  pass_sound n_batch_ (S added) full
    {| batch := b;
       contributions :=
         {| generating := generating (contributions p)
                          ++ [{| generating_request_index := index;
                                 batch_position := n_tokens (batch p) |}];
            ingesting := ingesting (contributions p);
            current_batch_token_count := current_batch_token_count (contributions p) |} |}.
Proof.
  intros [S1 S2 S3 S4 S5 S6 S7] Hlow Hfree Hr Hg Ht He Hc. split; simpl.
  - congruence.
  - rewrite He, length_app, S2. simpl. lia.
  - lia.
  - rewrite He. apply Forall_app. split.
    + eapply Forall_impl; [exact S4|]. intros c. apply generating_contributed_app.
    + apply Forall_singleton. exists r, token, (length (batch_entries (batch p))).
      repeat split; try done. rewrite lookup_app_r, Nat.sub_diag by done. done.
  - rewrite He. eapply Forall_impl; [exact S5|]. intros c. apply ingesting_contributed_app.
  - rewrite map_app. by apply NoDup_snoc_fresh.
  - done.
Qed.

(** Pending tokens go in until the batch is full. *)
Lemma fill_generating_sound (n_batch_ : nat) (full rs : list Request) (index added : nat)
    (p : BatchPass) :
  drop index full = rs -> pass_sound n_batch_ added full p -> below index p ->
  exists p' added',
    fill_generating n_batch_ rs index added p = Ok (p', added') /\
    generating_filled n_batch_ full index p p' added'.
Proof.
  revert index added p. induction rs as [|r rs IH]; intros index added p Hd Hp Hlow; simpl.
  { exists p, added. split; [done|]. apply generating_filled_end; [done|]. right.
    apply (f_equal length) in Hd. rewrite length_drop in Hd. simpl in Hd. lia. }
  apply lookup_drop_cons in Hd as [Hr Hd].
  assert (Hskip : ~ token_waits r -> exists p' added',
    fill_generating n_batch_ rs (S index) added p = Ok (p', added') /\
    generating_filled n_batch_ full index p p' added').
  { intros Hw. destruct (IH (S index) added p Hd Hp (below_succ _ _ Hlow)) as (p' & a' & Hf & Hg).
    exists p', a'. split; [exact Hf|]. by eapply generating_filled_step. }
  destruct (is_generating (phase (state r))) eqn:Eg; simpl; [|apply Hskip; intros []; congruence].
  destruct (pending_sampled_token (state r)) as [token|] eqn:Et;
    [|apply Hskip; intros [_ [? ?]]; congruence].
  destruct (Nat.leb_spec n_batch_ added) as [Hfull|Hfree].
  { exists p, added. split; [done|]. apply generating_filled_end; [done|]. left.
    pose proof (pass_room _ _ _ _ Hp). lia. }
  destruct (batch_add_fits (batch p) (generating_entry r token)) as (b & Hb & He & Hc).
  { rewrite (pass_added _ _ _ _ Hp), (pass_capacity _ _ _ _ Hp). done. }
  unfold generating_entry in Hb. rewrite Hb. simpl.
  edestruct IH as (p' & a' & Hf & Hg);
    [exact Hd|by eapply pass_sound_token| |].
  { unfold below. simpl. rewrite map_app. apply Forall_app. split; [by apply below_succ|].
    apply Forall_singleton. simpl. lia. }
  exists p', a'. split; [exact Hf|]. eapply generating_filled_step; [exact Hr|..|exact Hg]; try done.
  - intros i Hi. unfold token_served. simpl. rewrite map_app. apply in_app_iff. by left.
  - intros _. unfold token_served. simpl. rewrite map_app. apply in_app_iff. right. by left.
Qed.

(** ** Chunks of prompts *)

Record ingesting_filled (n_batch_ : nat) (full : list Request) (index : nat) (p p' : BatchPass)
    (added' : nat) : Prop := {
  chunks_sound : pass_sound n_batch_ added' full p';
  chunks_generating : generating (contributions p') = generating (contributions p);
  chunks_kept : forall i, prompt_served p i -> prompt_served p' i;
  chunks_served :
    added' = n_batch_ \/
    forall i r, (index <= i)%nat -> full !! i = Some r -> prompt_waits r -> prompt_served p' i;
}.

Definition chunks_below (index : nat) (p : BatchPass) : Prop :=
  Forall (fun j => j < index)%nat (map ingesting_request_index (ingesting (contributions p))).

Lemma chunks_below_succ (index : nat) (p : BatchPass) :
  chunks_below index p -> chunks_below (S index) p.
Proof. intros Hb. eapply Forall_impl; [exact Hb|]. simpl. lia. Qed.

(** The request at [index] is served in full, or the batch is full after it,
    or it has no prompt left. *)
Lemma ingesting_filled_step (n_batch_ : nat) (full : list Request) (index : nat)
    (p p1 p' : BatchPass) (added1 added' : nat) (r : Request) :
  full !! index = Some r ->
  generating (contributions p1) = generating (contributions p) ->
  (forall i, prompt_served p i -> prompt_served p1 i) ->
  (prompt_waits r -> prompt_served p1 index \/ added1 = n_batch_) ->
  (added1 <= added')%nat ->
  ingesting_filled n_batch_ full (S index) p1 p' added' ->
  ingesting_filled n_batch_ full index p p' added'.
Proof.
  intros Hr Hg Hk Hw Hle [F1 F2 F3 F4]. pose proof (pass_room _ _ _ _ F1) as Hroom.
  split; [done|congruence|by auto|].
  destruct F4 as [|F4]; [by left|].
  destruct (decide (added' = n_batch_)) as [|Hne]; [by left|]. right. intros i r' Hi Hr' Hw'.
  destruct (decide (i = index)) as [->|]; [|apply (F4 i r'); [lia|done..]].
  assert (r' = r) as -> by congruence. destruct (Hw Hw') as [Hs|]; [by apply F3|lia].
Qed.

Lemma last_chunk_spec (r : Request) (size : nat) :
  (0 < size <= length (remaining_prompt_tokens (state r)))%nat ->
  (length (prompt_tokens (state r)) <=? prompt_tokens_ingested (state r) + size)%nat
  = bool_decide (size = length (remaining_prompt_tokens (state r))).
Proof.
  unfold remaining_prompt_tokens. rewrite length_drop. intros Hs.
  destruct (Nat.leb_spec (length (prompt_tokens (state r)))
              (prompt_tokens_ingested (state r) + size)).
  - rewrite bool_decide_true; [done|lia].
  - rewrite bool_decide_false; [done|lia].
Qed.

Lemma add_chunk_entries (r : Request) (size : nat) (b : LlamaBatch) :
  (0 < size <= length (remaining_prompt_tokens (state r)))%nat ->
  (length (batch_entries b) + size <= batch_capacity b)%nat ->
  Z.of_nat size <= i32_max + 1 ->
  exists b',
    add_chunk (take size (drop (prompt_tokens_ingested (state r)) (prompt_tokens (state r)))) 0 size
      (bool_decide (size = length (remaining_prompt_tokens (state r)))) r b = Ok b' /\
    batch_capacity b' = batch_capacity b /\
    batch_entries b' = batch_entries b ++ ingesting_entries r size.
Proof.
  intros Hs Hroom Hfit. fold (remaining_prompt_tokens (state r)).
  assert (Hl : length (take size (remaining_prompt_tokens (state r))) = size)
    by (rewrite length_take; lia).
  destruct (add_chunk_fits r size (bool_decide (size = length (remaining_prompt_tokens (state r))))
              (take size (remaining_prompt_tokens (state r))) 0 b) as (b' & Hb & Hc & He);
    [rewrite Hl; lia|rewrite Hl; simpl; lia|].
  exists b'. split; [exact Hb|]. split; [exact Hc|]. rewrite He. f_equal.
  unfold ingesting_entries. apply imap_ext. intros i t _. simpl. f_equal.
  destruct (Nat.eqb_spec i (size - 1)%nat);
    (destruct (decide (size = length (remaining_prompt_tokens (state r))));
     [rewrite (bool_decide_true (size = _)) by done | rewrite (bool_decide_false (size = _)) by done]);
    simpl; symmetry; first [apply bool_decide_true; tauto | apply bool_decide_false; tauto].
Qed.

(** The pass after a chunk of the request at [index] went in. *)
Lemma pass_sound_chunk (n_batch_ added : nat) (full : list Request) (index : nat) (p : BatchPass)
    (r : Request) (size : nat) (b : LlamaBatch) :
  pass_sound n_batch_ added full p -> chunks_below index p ->
  (0 < size <= length (remaining_prompt_tokens (state r)))%nat -> (added + size <= n_batch_)%nat ->
  full !! index = Some r -> is_ingesting (phase (state r)) = true ->
  batch_entries b = batch_entries (batch p) ++ ingesting_entries r size ->
  batch_capacity b = batch_capacity (batch p) ->
  pass_sound n_batch_ (added + size) full
    {| batch := b;
       contributions :=
         {| generating := generating (contributions p);
            ingesting := ingesting (contributions p)
                         ++ [{| ingesting_request_index := index;
                                chunk_size := size;
                                is_last_chunk :=
                                  bool_decide (size = length (remaining_prompt_tokens (state r)));
                                last_batch_position := n_tokens b - 1 |}];
            current_batch_token_count := added + size |} |}.
Proof.
  intros [S1 S2 S3 S4 S5 S6 S7] Hlow Hs Hfree Hr Hi He Hc.
  pose proof (ingesting_entries_length r size ltac:(lia)) as Hlen.
  split; simpl; try done.
  - congruence.
  - rewrite He, length_app, S2, Hlen. done.
  - rewrite He. eapply Forall_impl; [exact S4|]. intros c. apply generating_contributed_app.
  - rewrite He. apply Forall_app. split.
    + eapply Forall_impl; [exact S5|]. intros c. apply ingesting_contributed_app.
    + apply Forall_singleton. exists r, (batch_entries (batch p)), []. simpl.
      repeat split; try done; try lia; [by rewrite app_nil_r|].
      unfold n_tokens. rewrite He, length_app, Hlen. done.
  - rewrite map_app. by apply NoDup_snoc_fresh.
Qed.

(** Chunks go in until the batch is full. *)
Lemma fill_ingesting_sound (n_batch_ : nat) (full rs : list Request) (index added : nat)
    (p : BatchPass) :
  Z.of_nat n_batch_ <= i32_max + 1 ->
  drop index full = rs -> pass_sound n_batch_ added full p -> chunks_below index p ->
  current_batch_token_count (contributions p) = added ->
  exists p' added',
    fill_ingesting n_batch_ rs index p = Ok p' /\ (added <= added')%nat /\
    ingesting_filled n_batch_ full index p p' added'.
Proof.
  intros Hn. revert index added p. induction rs as [|r rs IH]; intros index added p Hd Hp Hlow Hcount; simpl.
  { exists p, added. repeat split; try apply Hp; try done. right. intros i r Hi Hr.
    apply lookup_lt_Some in Hr. apply (f_equal length) in Hd. rewrite length_drop in Hd.
    simpl in Hd. lia. }
  apply lookup_drop_cons in Hd as [Hr Hd].
  assert (Hskip : (prompt_waits r -> added = n_batch_) -> exists p' added',
    fill_ingesting n_batch_ rs (S index) p = Ok p' /\ (added <= added')%nat /\
    ingesting_filled n_batch_ full index p p' added').
  { intros Hw. destruct (IH (S index) added p) as (p' & a' & Hf & Hle & Hg);
      [done|done|by apply chunks_below_succ|done|].
    exists p', a'. split; [exact Hf|]. split; [exact Hle|].
    eapply (ingesting_filled_step _ _ _ p p p' added); eauto. }
  destruct (is_ingesting (phase (state r))) eqn:Ei; simpl; [|apply Hskip; intros []; congruence].
  unfold compute_ingesting_chunk_size. rewrite Hcount. pose proof (pass_room _ _ _ _ Hp) as Hroom.
  remember (length (remaining_prompt_tokens (state r)) `min` (n_batch_ - added))%nat as size eqn:Esize.
  destruct (Nat.eqb_spec size 0) as [Hz|Hz].
  { apply Hskip. intros [_ Hne]. destruct (remaining_prompt_tokens (state r)) eqn:E; [done|].
    cbn [length] in Esize. lia. }
  rewrite last_chunk_spec by lia.
  destruct (add_chunk_entries r size (batch p)) as (b & -> & Hc & He);
    [lia|rewrite (pass_added _ _ _ _ Hp), (pass_capacity _ _ _ _ Hp); lia|lia|].
  simpl. edestruct (IH (S index) (added + size)%nat) as (p' & a' & Hf & Hle & Hg);
    [exact Hd|apply (pass_sound_chunk _ _ _ _ _ r size b Hp Hlow); (lia || done)| |done|].
  { unfold chunks_below. simpl. rewrite map_app. apply Forall_app.
    split; [by apply chunks_below_succ|]. apply Forall_singleton. simpl. lia. }
  exists p', a'. split; [exact Hf|]. split; [lia|].
  eapply (ingesting_filled_step _ _ _ p _ p' (added + size)); [exact Hr|..|exact Hg]; try done.
  - intros i (c & Hin & Hix & Hlast). exists c. simpl. rewrite in_app_iff. auto.
  - intros _. destruct (decide (size = length (remaining_prompt_tokens (state r)))) as [Es|]; [left|right; lia].
    eexists. split; [simpl; apply in_app_iff; right; by left|]. simpl.
    split; [done|]. by apply bool_decide_true.
Qed.

(** Both fillings, one after the other. *)
Lemma assemble_batch_filled (n_batch_ : nat) (max_sequences : Z) (rs : list Request)
    (p : BatchPass) :
  Z.of_nat n_batch_ <= i32_max + 1 -> batch_pass_new n_batch_ max_sequences = Ok p ->
  exists p1 p2 p' added added',
    assemble_batch_phase n_batch_ rs p = Ok p' /\ (added <= added')%nat /\
    generating_filled n_batch_ rs 0 p p1 added /\
    generating (contributions p2) = generating (contributions p1) /\
    ingesting_filled n_batch_ rs 0 p2 p' added'.
Proof.
  intros Hn Hp. destruct (batch_pass_new_sound n_batch_ max_sequences rs p Hp) as (Hs0 & Hg & Hi & Hc).
  unfold assemble_batch_phase.
  destruct (fill_generating_sound n_batch_ rs rs 0 0 p) as (p1 & added & -> & F);
    [done|done|unfold below; rewrite Hg; constructor|].
  simpl. rewrite (filled_count _ _ _ _ _ _ F), Hc. simpl.
  match goal with |- context [fill_ingesting _ _ _ ?q] => set (p2 := q) end.
  assert (F2 : pass_sound n_batch_ added rs p2) by (destruct F as [[]]; by split).
  destruct (fill_ingesting_sound n_batch_ rs rs 0 added p2 Hn) as (p' & added' & -> & Hle & G);
    [done|done| |done|].
  { unfold chunks_below, p2. simpl. rewrite (filled_ingesting _ _ _ _ _ _ F), Hi. constructor. }
  by exists p1, p2, p', added, added'.
Qed.

Lemma assemble_batch_sound (n_batch_ : nat) (max_sequences : Z) (rs : list Request)
    (p : BatchPass) :
  Z.of_nat n_batch_ <= i32_max -> batch_pass_new n_batch_ max_sequences = Ok p ->
  exists p' added, assemble_batch_phase n_batch_ rs p = Ok p' /\ pass_sound n_batch_ added rs p'.
Proof.
  intros Hn Hp. destruct (assemble_batch_filled n_batch_ max_sequences rs p)
    as (p1 & p2 & p' & a & a' & Ha & _ & _ & _ & G); [lia|done|].
  exists p', a'. split; [done|apply G].
Qed.

(** C11. Assembling a batch never fails, never puts more than [n_batch] tokens in
    it, and loses nobody: every contribution it records matches the entries of
    the batch (the pending token of a request that generates, with its
    position, its sequence and logits; the next tokens of a prompt at the next
    positions, with logits on the prompt's last token only), no request
    contributes twice, and unless the batch is full every request with a
    pending token and every prompt is served in full. *)
Theorem batch_assembled (n_batch_ : nat) (max_sequences : Z) (rs : list Request) (p : BatchPass)
    (Hn : Z.of_nat n_batch_ <= i32_max + 1)
    (Hp : batch_pass_new n_batch_ max_sequences = Ok p) :
  exists p' added,
    assemble_batch_phase n_batch_ rs p = Ok p' /\ pass_sound n_batch_ added rs p' /\
    (added = n_batch_ \/
     forall i r, rs !! i = Some r ->
       (token_waits r -> token_served p' i) /\ (prompt_waits r -> prompt_served p' i)).
Proof.
  destruct (assemble_batch_filled n_batch_ max_sequences rs p Hn Hp)
    as (p1 & p2 & p' & added & added' & Ha & Hle & F & E & G).
  exists p', added'. split; [done|]. split; [apply G|].
  destruct (chunks_served _ _ _ _ _ _ G) as [|Hprompt]; [by left|].
  destruct (filled_served _ _ _ _ _ _ F) as [->|Htoken].
  { left. pose proof (pass_room _ _ _ _ (chunks_sound _ _ _ _ _ _ G)). lia. }
  right. intros i r Hr. split; intros Hw; [|by apply (Hprompt i r); [lia|..]].
  unfold token_served. rewrite (chunks_generating _ _ _ _ _ _ G), E.
  by apply (Htoken i r); [lia|..].
Qed.

(** ** Committing *)

Lemma commit_generating_other (cs : list GeneratingContribution) (rs : list Request) (i : nat) :
  ~ In i (map generating_request_index cs) -> commit_generating cs rs !! i = rs !! i.
Proof.
  revert rs. induction cs as [|c cs IH]; intros rs Hi; [done|]. simpl in *.
  unfold commit_generating in *. simpl. rewrite IH by tauto.
  apply list_lookup_alter_ne. tauto.
Qed.

Lemma commit_generating_own (cs : list GeneratingContribution) (rs : list Request)
    (c : GeneratingContribution) :
  NoDup (map generating_request_index cs) -> In c cs ->
  commit_generating cs rs !! generating_request_index c
  = (fun r => put_state (apply_generating_contribution (batch_position c) (state r)) r)
      <$> rs !! generating_request_index c.
Proof.
  revert rs. induction cs as [|c' cs IH]; intros rs Hn Hin; [done|]. simpl in *.
  apply NoDup_cons in Hn as [Hfresh Hn]. rewrite list_elem_of_In in Hfresh.
  unfold commit_generating in *. simpl. destruct Hin as [->|Hin].
  - fold (commit_generating cs (alter (fun r => put_state (apply_generating_contribution
      (batch_position c) (state r)) r) (generating_request_index c) rs)).
    rewrite commit_generating_other by done. by rewrite list_lookup_alter_eq.
  - rewrite IH by done. rewrite list_lookup_alter_ne; [done|].
    intros E. apply Hfresh. rewrite E. by apply in_map.
Qed.

Lemma commit_ingesting_other (cs : list IngestingContribution) (rs : list Request) (i : nat) :
  ~ In i (map ingesting_request_index cs) -> fst (commit_ingesting cs rs) !! i = rs !! i.
Proof.
  revert rs. induction cs as [|c cs IH]; intros rs Hi; [done|]. simpl in *.
  destruct (rs !! ingesting_request_index c) as [r|] eqn:Er; [|done].
  unfold apply_ingesting_contribution. destruct (try_i32 _) as [size|]; simpl.
  - rewrite IH by tauto. rewrite list_lookup_insert_ne; [done|tauto].
  - rewrite list_lookup_insert_ne; [done|tauto].
Qed.

(** Committing succeeds when the chunks fit in an [i32]. *)
Lemma commit_ingesting_own (cs : list IngestingContribution) (rs : list Request) :
  NoDup (map ingesting_request_index cs) ->
  Forall (fun c => is_Some (rs !! ingesting_request_index c) /\
                   Z.of_nat (chunk_size c) <= i32_max) cs ->
  snd (commit_ingesting cs rs) = Ok tt /\
  forall c, In c cs ->
    fst (commit_ingesting cs rs) !! ingesting_request_index c
    = (fun r => put_state (fst (apply_ingesting_contribution (chunk_size c) (is_last_chunk c)
                                  (last_batch_position c) (state r))) r)
        <$> rs !! ingesting_request_index c.
Proof.
  revert rs. induction cs as [|c cs IH]; intros rs Hn Hall; [done|]. simpl in *.
  apply NoDup_cons in Hn as [Hfresh Hn]. rewrite list_elem_of_In in Hfresh.
  apply Forall_cons in Hall as [[[r Hr] Hsize] Hall]. rewrite Hr.
  assert (Hi32 : try_i32 (Z.of_nat (chunk_size c)) = Some (Z.of_nat (chunk_size c))).
  { unfold try_i32. rewrite decide_True; [done|]. unfold i32_min, i32_max in *. lia. }
  destruct (apply_ingesting_contribution (chunk_size c) (is_last_chunk c) (last_batch_position c)
              (state r)) as [st res] eqn:Ea.
  assert (Hres : res = Ok tt)
    by (unfold apply_ingesting_contribution in Ea; rewrite Hi32 in Ea; by inversion Ea).
  subst res. destruct (IH (<[ingesting_request_index c := put_state st r]> rs) Hn) as [Hok Hown].
  { eapply Forall_impl; [exact Hall|]. intros c' [Hs' Hz]. split; [|exact Hz].
    apply lookup_lt_is_Some. rewrite length_insert. by apply lookup_lt_is_Some. }
  split; [exact Hok|]. intros c' [<-|Hin].
  - rewrite commit_ingesting_other by done. apply lookup_lt_Some in Hr as Hlt.
    rewrite list_lookup_insert_eq by done. rewrite Hr. simpl. by rewrite Ea.
  - rewrite Hown by done. rewrite list_lookup_insert_ne; [done|].
    intros E. apply Hfresh. rewrite E. by apply in_map.
Qed.

(** What a committed batch made of a request: nothing, one more token of its
    own at the position the batch gave it, or one more chunk of its prompt. *)
Definition committed (es : list Entry) (r r' : Request) : Prop :=
  r' = r \/
  (exists token k,
     is_generating (phase (state r)) = true /\ pending_sampled_token (state r) = Some token /\
     es !! k = Some (generating_entry r token) /\
     r' = put_state (apply_generating_contribution (Z.of_nat k) (state r)) r) \/
  (exists size before after,
     is_ingesting (phase (state r)) = true /\
     (0 < size <= length (remaining_prompt_tokens (state r)))%nat /\
     es = before ++ ingesting_entries r size ++ after /\
     r' = put_state
            (fst (apply_ingesting_contribution size
                    (bool_decide (size = length (remaining_prompt_tokens (state r))))
                    (Z.of_nat (length before + size) - 1) (state r))) r).

Lemma commit_generating_length (cs : list GeneratingContribution) (rs : list Request) :
  length (commit_generating cs rs) = length rs.
Proof.
  revert rs. induction cs as [|c cs IH]; intros rs; [done|].
  unfold commit_generating in *. simpl. by rewrite IH, length_alter.
Qed.

Lemma commit_ingesting_length (cs : list IngestingContribution) (rs : list Request) :
  length (fst (commit_ingesting cs rs)) = length rs.
Proof.
  revert rs. induction cs as [|c cs IH]; intros rs; [done|]. simpl.
  destruct (rs !! _); [|done]. destruct (apply_ingesting_contribution _ _ _ _) as [st [|]]; simpl;
    rewrite ?IH; by rewrite length_insert.
Qed.

(** The two kinds of contributions of a sound pass are of different requests. *)
Lemma contributions_disjoint (n_batch_ added : nat) (rs : list Request) (p : BatchPass)
    (c : IngestingContribution) :
  pass_sound n_batch_ added rs p -> In c (ingesting (contributions p)) ->
  ~ In (ingesting_request_index c) (map generating_request_index (generating (contributions p))).
Proof.
  intros [_ _ _ S4 S5 _ _] Hc (g & Eg & Hg)%in_map_iff.
  rewrite Forall_forall in S4. rewrite Forall_forall in S5.
  destruct (S4 g) as (r & t & k & Hr & Hgen & _); [by apply list_elem_of_In|].
  destruct (S5 c) as (r' & b & a & Hr' & Hing & _); [by apply list_elem_of_In|].
  rewrite Eg, Hr' in Hr. inversion Hr; subst r'. by destruct (phase (state r)).
Qed.

Lemma commit_phase_spec (n_batch_ added : nat) (rs : list Request) (p : BatchPass) :
  Z.of_nat n_batch_ <= i32_max -> pass_sound n_batch_ added rs p ->
  exists rs', commit_phase p rs = (rs', Ok tt) /\
    Forall2 (committed (batch_entries (batch p))) rs rs'.
Proof.
  intros Hn Hp. pose proof (fun c => contributions_disjoint n_batch_ added rs p c Hp) as Hdisj.
  destruct Hp as [S1 S2 S3 S4 S5 S6 S7]. unfold commit_phase.
  rewrite Forall_forall in S4. rewrite Forall_forall in S5.
  set (gs := generating (contributions p)) in *. set (ics := ingesting (contributions p)) in *.
  destruct (commit_ingesting_own ics (commit_generating gs rs) S7) as [Hok Hown].
  { apply Forall_forall. intros c Hc. rewrite commit_generating_other by (by apply Hdisj, list_elem_of_In).
    destruct (S5 c Hc) as (r & b & a & Hr & _ & Hs & He & _). split; [by eexists|].
    apply (f_equal length) in He. rewrite !length_app, ingesting_entries_length in He by lia. lia. }
  exists (fst (commit_ingesting ics (commit_generating gs rs))). split.
  { destruct (commit_ingesting ics (commit_generating gs rs)). simpl in *. by subst. }
  apply Forall2_same_length_lookup_2.
  { by rewrite commit_ingesting_length, commit_generating_length. }
  intros i r r' Hr Hr'.
  destruct (in_dec Nat.eq_dec i (map ingesting_request_index ics)) as [Hin|Hin].
  - apply in_map_iff in Hin as (c & <- & Hc). rewrite Hown in Hr' by done.
    rewrite commit_generating_other, Hr in Hr' by (by apply Hdisj).
    right; right. destruct (S5 c) as (r0 & b & a & Hr0 & Hi & Hs & He & Hl & Hlast); [by apply list_elem_of_In|].
    rewrite Hr in Hr0. inversion Hr0; subst r0. exists (chunk_size c), b, a.
    repeat split; try done; try lia. rewrite <- Hl, <- Hlast. by inversion Hr'.
  - rewrite commit_ingesting_other in Hr' by done.
    destruct (in_dec Nat.eq_dec i (map generating_request_index gs)) as [Hg|Hg].
    + apply in_map_iff in Hg as (c & <- & Hc). rewrite commit_generating_own, Hr in Hr' by done.
      right; left. destruct (S4 c) as (r0 & t & k & Hr0 & Hi & Ht & Hk & He); [by apply list_elem_of_In|].
      rewrite Hr in Hr0. inversion Hr0; subst r0. exists t, k.
      repeat split; try done. rewrite <- Hk. by inversion Hr'.
    + rewrite commit_generating_other, Hr in Hr' by done. left. congruence.
Qed.

End SchedulerBatch.

(** ** Witness

    A prompt of three tokens in a batch of two. *)

Definition example_request : ContinuousBatchActiveRequest :=
  {| state := {| current_token_position := 0; i_batch := None; max_tokens := 5;
                 pending_sampled_token := None; phase := Ingesting;
                 prompt_tokens := ([1; 2; 3] : list Z); prompt_tokens_ingested := 0 |};
     chain := (tt : LlamaSampler);
     token_classifier := ((0 : Z) : SampledTokenClassifier);
     grammar_sampler := None;
     generated_tokens_tx := 0;
     generate_tokens_stop_rx := StopEmpty;
     sequence_id := 0;
     tool_call_pipeline := None |}.

Lemma batch_assembled_witness :
  exists p p', batch_pass_new 2 1 = Ok p /\
    assemble_batch_phase 2 [example_request] p = Ok p' /\
    length (batch_entries (batch p')) = 2%nat.
Proof.
  eexists. destruct (batch_assembled 2 1 [example_request] _ ltac:(vm_compute; discriminate) eq_refl)
    as (p' & added & Ha & _).
  exists p'. split; [reflexivity|]. split; [exact Ha|].
  vm_compute in Ha. injection Ha as <-. reflexivity.
Defined.
