(* ===== verification/SchedulerStreams.v ===== *)
(** * The continuous batch scheduler: what it sends to the clients

    The channels of the requests as a store: what each operation of the
    scheduler appends to which stream.  Nothing but the removal of a request
    sends a result that ends a stream. *)

From S2P Require Import Prelude Tokio Messages AtomicValue Requests TokenThroughput SlotStatus.
From S2P Require Import ToolCalls Llama Scheduler SchedulerCommands.
Local Open Scope Z_scope.

Section SchedulerStreams.
Context `{JsonTypes} `{LlamaTypes} `{!ToolCallBackend} `{!LlamaBackend} `{!MultimodalBackend}.
Context {chan : Type -> Type} `{!UnboundedChannel chan}.
Context {sender receiver : Type} `{!WatchChannel sender receiver}.

Notation Request := ContinuousBatchActiveRequest.
Notation Channels := (gmap nat (chan GeneratedTokenResult)).

(** ** Streams *)

Definition not_done (e : GeneratedTokenResult) : Prop := is_done e = false.

(** From [m] to [m'], results that do not end a stream went to [txs]. *)
Definition emits (txs : list nat) (m m' : Channels) : Prop :=
  forall tx,
    match m !! tx, m' !! tx with
    | Some c, Some c' =>
        exists es, chan_pending c' = chan_pending c ++ es /\ Forall not_done es /\
                   (es = [] \/ In tx txs)
    | None, None => True
    | _, _ => False
    end.

Lemma emits_refl (txs : list nat) (m : Channels) : emits txs m m.
Proof.
  intros tx. destruct (m !! tx) as [c|]; [|done]. exists []. rewrite app_nil_r. auto.
Qed.

Lemma emits_trans (txs : list nat) (m1 m2 m3 : Channels) :
  emits txs m1 m2 -> emits txs m2 m3 -> emits txs m1 m3.
Proof.
  intros H12 H23 tx. specialize (H12 tx). specialize (H23 tx).
  destruct (m1 !! tx), (m2 !! tx), (m3 !! tx); try done.
  destruct H12 as (es1 & E1 & F1 & T1), H23 as (es2 & E2 & F2 & T2).
  exists (es1 ++ es2). rewrite E2, E1, app_assoc. split; [done|].
  split; [by apply Forall_app|].
  destruct T1 as [->|]; [|by right]. destruct T2 as [->|]; [by left|by right].
Qed.

Lemma emits_mono (txs txs' : list nat) (m m' : Channels) :
  (forall t, In t txs -> In t txs') -> emits txs m m' -> emits txs' m m'.
Proof.
  intros Ht Hm tx. specialize (Hm tx). destruct (m !! tx), (m' !! tx); try done.
  destruct Hm as (es & E & F & T). exists es. destruct T as [->|T]; auto.
Qed.

(** A stream that has not ended, and one that ended at most once, last. *)
Definition open_stream (m : Channels) (tx : nat) : Prop :=
  forall c, m !! tx = Some c -> Forall not_done (chan_pending c).

Definition ended_once (l : list GeneratedTokenResult) : Prop :=
  exists init tail, l = init ++ tail /\ Forall not_done init /\ (length tail <= 1)%nat.

Lemma open_ended_once (l : list GeneratedTokenResult) : Forall not_done l -> ended_once l.
Proof. intros Hl. exists l, []. rewrite app_nil_r. simpl. auto. Qed.

(** The streams of the requests [txs] are open, and all streams are well
    formed. *)
Record streams_sound (txs : list nat) (m : Channels) : Prop := {
  streams_distinct : NoDup txs;
  streams_known : Forall (fun tx => is_Some (m !! tx)) txs;
  streams_open : Forall (open_stream m) txs;
  streams_ended : forall tx c, m !! tx = Some c -> ended_once (chan_pending c);
}.

Lemma streams_emit (txs : list nat) (m m' : Channels) :
  streams_sound txs m -> emits txs m m' -> streams_sound txs m'.
Proof.
  intros [D K O E] Hm.
  assert (Hopen : forall tx, In tx txs -> open_stream m' tx).
  { intros tx Hin c' Hc'. specialize (Hm tx). rewrite Hc' in Hm.
    destruct (m !! tx) as [c|] eqn:Hc; [|done]. destruct Hm as (es & -> & F & _).
    apply Forall_app. split; [|done]. rewrite Forall_forall in O.
    by apply (O tx); [apply list_elem_of_In|]. }
  split; [done| | |].
  - eapply Forall_impl; [exact K|]. intros tx [c Hc]. specialize (Hm tx). simpl in *.
    rewrite Hc in Hm. destruct (m' !! tx); [by eexists|done].
  - apply Forall_forall. intros tx Hin. by apply Hopen, list_elem_of_In.
  - intros tx c' Hc'. pose proof (Hm tx) as Ht. rewrite Hc' in Ht.
    destruct (m !! tx) as [c|] eqn:Hc; [|done]. destruct Ht as (es & Ep & F & [->|Hin]).
    + rewrite Ep, app_nil_r. by apply (E tx).
    + apply open_ended_once. by apply (Hopen tx).
Qed.

Lemma streams_submseteq (txs txs' : list nat) (m : Channels) :
  txs' ⊆+ txs -> streams_sound txs m -> streams_sound txs' m.
Proof.
  intros [rest Hp]%submseteq_Permutation [D K O E]. rewrite Hp in D, K, O.
  apply NoDup_app in D as [D _]. apply Forall_app in K as [K _]. apply Forall_app in O as [O _].
  by split.
Qed.

(** The order of the streams does not matter. *)
#[global] Instance streams_sound_proper :
  Proper (Permutation ==> eq ==> iff) streams_sound.
Proof.
  intros l l' Hp m m' <-. split; apply streams_submseteq; by rewrite Hp.
Qed.

(** ** Sending *)

Lemma send_event_pending (tx : nat) (e : GeneratedTokenResult) (m : Channels) (tx' : nat) :
  match m !! tx', fst (send_event tx e m) !! tx' with
  | Some c, Some c' =>
      c' = c \/ (tx' = tx /\ chan_pending c' = chan_pending c ++ [e])
  | None, None => True
  | _, _ => False
  end.
Proof.
  unfold send_event. destruct (m !! tx) as [c|] eqn:Hc; simpl.
  - destruct (chan_send c e) as [c'|] eqn:Hs; simpl; [|destruct (m !! tx'); auto].
    destruct (decide (tx' = tx)) as [->|].
    + rewrite Hc, lookup_insert_eq. right. split; [done|]. by apply chan_send_some in Hs as [].
    + rewrite lookup_insert_ne by done. destruct (m !! tx'); auto.
  - destruct (m !! tx'); auto.
Qed.

Lemma send_event_emits (tx : nat) (e : GeneratedTokenResult) (m : Channels) :
  not_done e -> emits [tx] m (fst (send_event tx e m)).
Proof.
  intros He tx'. pose proof (send_event_pending tx e m tx') as Hp.
  destruct (m !! tx'), (fst (send_event tx e m) !! tx'); try done.
  destruct Hp as [->|[-> ->]].
  - exists []. rewrite app_nil_r. auto.
  - exists [e]. split; [done|]. split; [by apply Forall_singleton|]. right. by left.
Qed.

(** The last event of a request, after which it is gone. *)
Lemma streams_finish (tx : nat) (e : GeneratedTokenResult) (txs : list nat) (m : Channels) :
  streams_sound (tx :: txs) m -> streams_sound txs (fst (send_event tx e m)).
Proof.
  intros [D K O E]. apply NoDup_cons in D as [Hfresh D].
  apply Forall_cons in K as [_ K]. apply Forall_cons in O as [Otx O].
  assert (Hsame : forall t c', t ≠ tx -> fst (send_event tx e m) !! t = Some c' -> m !! t = Some c').
  { intros t c' Hne Hc'. pose proof (send_event_pending tx e m t) as Hp. rewrite Hc' in Hp.
    destruct (m !! t); [|done]. destruct Hp as [->|[]]; done. }
  split; [done| | |].
  - eapply Forall_impl; [exact K|]. intros t [c Hc]. simpl in *.
    pose proof (send_event_pending tx e m t) as Hp. rewrite Hc in Hp.
    destruct (fst (send_event tx e m) !! t); [by eexists|done].
  - apply Forall_forall. intros t Ht c' Hc'. rewrite Forall_forall in O.
    apply (O t Ht). apply Hsame; [|done]. by intros ->.
  - intros t c' Hc'. destruct (decide (t = tx)) as [->|]; [|by eapply E, Hsame].
    pose proof (send_event_pending tx e m tx) as Hp. rewrite Hc' in Hp.
    destruct (m !! tx) as [c|] eqn:Hc; [|done]. destruct Hp as [->|[_ Ep]]; [by apply (E tx)|].
    exists (chan_pending c), [e]. simpl. auto.
Qed.

(** A new stream is empty. *)
Lemma streams_submit (tx : nat) (txs : list nat) (m : Channels) :
  m !! tx = None -> streams_sound txs m -> streams_sound (tx :: txs) (<[tx := chan_new]> m).
Proof.
  intros Htx [D K O E].
  assert (Hne : forall t, t ∈ txs -> t ≠ tx).
  { intros t Ht ->. rewrite Forall_forall in K. destruct (K tx Ht) as [c Hc]. congruence. }
  split.
  - apply NoDup_cons. split; [|done]. intros Hin. by apply (Hne tx).
  - apply Forall_cons. split; [by rewrite lookup_insert_eq|]. apply Forall_forall. intros t Ht.
    rewrite lookup_insert_ne by (symmetry; by apply Hne). rewrite Forall_forall in K. by apply K.
  - apply Forall_cons. split.
    + intros c. rewrite lookup_insert_eq. intros [= <-]. rewrite chan_new_pending. constructor.
    + apply Forall_forall. intros t Ht c. rewrite lookup_insert_ne by (symmetry; by apply Hne).
      rewrite Forall_forall in O. by apply O.
  - intros t c. destruct (decide (t = tx)) as [->|].
    + rewrite lookup_insert_eq. intros [= <-]. rewrite chan_new_pending.
      apply open_ended_once. constructor.
    + rewrite lookup_insert_ne by done. apply E.
Qed.

(** ** Advancing a request

    What advancing keeps of a request: its sequence and its channels. *)
Definition same_owner (r r' : Request) : Prop :=
  sequence_id r' = sequence_id r /\ generated_tokens_tx r' = generated_tokens_tx r.

Definition same_request (r r' : Request) : Prop := same_owner r r' /\ state r' = state r.

Lemma same_request_refl (r : Request) : same_request r r.
Proof. done. Qed.

Lemma same_request_trans (r1 r2 r3 : Request) :
  same_request r1 r2 -> same_request r2 r3 -> same_request r1 r3.
Proof. unfold same_request, same_owner. intuition congruence. Qed.

Lemma token_event_not_done (t : SampledToken LlamaToken) (piece : string) :
  not_done (token_to_event t piece).
Proof. by destruct t. Qed.

Lemma tool_event_not_done (e : ToolCallEvent) (g : GeneratedTokenResult) :
  into_generated_token_result e = Some g -> not_done g.
Proof. destruct e; simpl; intros [=]; by subst. Qed.

Lemma finalize_not_done (p p' : ToolCallPipeline) (g : GeneratedTokenResult) :
  finalize_to_generated_event p = (p', Some g) -> not_done g.
Proof.
  unfold finalize_to_generated_event. destruct (finalize p) as [q e]. intros [= _ He].
  by eapply tool_event_not_done.
Qed.

Lemma tool_call_pass_not_done (o o' : option ToolCallPipeline) (c : ClassifiedToken LlamaToken)
    (g : GeneratedTokenResult) :
  tool_call_pass o c = (o', Some g) -> not_done g.
Proof.
  unfold tool_call_pass. destruct o as [p|]; [|done]. cbv zeta.
  destruct (negb _ || _); [done|].
  match goal with |- context [finalize_to_generated_event ?q] => set (q' := q) end.
  destruct (finalize_to_generated_event q') as [p' e] eqn:E. intros [= _ ->].
  by eapply finalize_not_done.
Qed.

(** What one step of advancing does to a request and the streams. *)
Definition advanced (r r' : Request) (m m' : Channels) : Prop :=
  same_request r r' /\ emits [generated_tokens_tx r] m m'.

Lemma advanced_trans (r1 r2 r3 : Request) (m1 m2 m3 : Channels) :
  advanced r1 r2 m1 m2 -> advanced r2 r3 m2 m3 -> advanced r1 r3 m1 m3.
Proof.
  intros [S1 E1] [S2 E2]. split; [by eapply same_request_trans|].
  eapply emits_trans; [exact E1|]. destruct S1 as [[_ Et] _]. rewrite Et in E2. exact E2.
Qed.

Lemma advanced_refl (r : Request) (m : Channels) : advanced r r m m.
Proof. split; [done|apply emits_refl]. Qed.

Lemma advanced_send (r : Request) (e : GeneratedTokenResult) (m : Channels) :
  not_done e -> advanced r r m (fst (send_event (generated_tokens_tx r) e m)).
Proof. intros He. split; [done|by apply send_event_emits]. Qed.

Lemma advanced_pipeline (r : Request) (p : option ToolCallPipeline) (m : Channels) :
  advanced r (put_pipeline p r) m m.
Proof. split; [done|apply emits_refl]. Qed.

Lemma emit_token_phase_advanced (c : ClassifiedToken LlamaToken) (r : Request) (m m' : Channels)
    (sent : bool) :
  emit_token_phase c (generated_tokens_tx r) m = (m', sent) -> advanced r r m m'.
Proof.
  unfold emit_token_phase. destruct (decide _).
  - intros [= <- _]. apply advanced_refl.
  - intros E. apply (f_equal fst) in E. simpl in E. subst m'. apply advanced_send, token_event_not_done.
Qed.

Lemma emit_classified_advanced (tokens : list (ClassifiedToken LlamaToken)) (r r' : Request)
    (m m' : Channels) (sent : bool) :
  emit_classified_tokens tokens r m = (r', m', sent) -> advanced r r' m m'.
Proof.
  revert r m. induction tokens as [|t tokens IH]; intros r m; simpl.
  { intros [= <- <- _]. apply advanced_refl. }
  destruct (emit_token_phase t (generated_tokens_tx r) m) as [m1 [|]] eqn:E1;
    apply emit_token_phase_advanced in E1; [|by intros [= <- <- _]].
  destruct (tool_call_pass (tool_call_pipeline r) t) as [p [e|]] eqn:E2.
  - pose proof (advanced_send r e m1 (tool_call_pass_not_done _ _ _ _ E2)) as A.
    destruct (send_event (generated_tokens_tx r) e m1) as [m2 [|]]; simpl in A.
    + intros E. apply IH in E. eapply advanced_trans; [exact E1|].
      eapply advanced_trans; [exact A|]. eapply advanced_trans; [apply advanced_pipeline|exact E].
    + intros [= <- <- _]. eapply advanced_trans; [exact E1|].
      eapply advanced_trans; [exact A|apply advanced_pipeline].
  - intros E. apply IH in E. eapply advanced_trans; [exact E1|].
    eapply advanced_trans; [apply advanced_pipeline|exact E].
Qed.

Lemma flush_tool_call_advanced (r r' : Request) (m m' : Channels) (sent : bool) :
  flush_tool_call r m = (r', m', sent) -> advanced r r' m m'.
Proof.
  unfold flush_tool_call. destruct (tool_call_pipeline r) as [p|].
  2: intros [= <- <- _]; apply advanced_refl.
  destruct (buffer_is_empty p); [intros [= <- <- _]; apply advanced_refl|].
  destruct (finalize_to_generated_event p) as [p' [e|]] eqn:E.
  2: intros [= <- <- _]; apply advanced_pipeline.
  pose proof (advanced_send r e m (finalize_not_done _ _ _ E)) as A.
  destruct (send_event (generated_tokens_tx r) e m) as [m1 ok]. simpl in A. intros [= <- <- _].
  eapply advanced_trans; [exact A|apply advanced_pipeline].
Qed.

(** The event a request completes with ends its stream. *)
Definition outcome_sound (o : AdvanceOutcome) : Prop :=
  match o with
  | AdvanceCompleted e => is_done e = true
  | SampledAndStored _ | ChannelDropped => True
  end.

Lemma finish_generation_advanced (r r' : Request) (m m' : Channels) (o : AdvanceOutcome) :
  finish_generation r m = (r', m', o) -> advanced r r' m m' /\ outcome_sound o.
Proof.
  unfold finish_generation. destruct (flush_tool_call r m) as [[r1 m1] sent] eqn:E.
  apply flush_tool_call_advanced in E. intros [= <- <- <-]. split; [done|]. destruct sent; [exact eq_refl|exact I].
Qed.

Lemma advance_sampled_advanced (token : LlamaToken) (r r' : Request) (m m' : Channels)
    (o : AdvanceOutcome) :
  advance_sampled token r m = (r', m', o) -> advanced r r' m m' /\ outcome_sound o.
Proof.
  unfold advance_sampled, classify_token_phase.
  destruct (classifier_ingest (token_classifier r) token) as [k [outcomes|e]]; simpl.
  2: { intros [= <- <- <-]. split; [split; [done|apply emits_refl]|exact eq_refl]. }
  assert (A : advanced r (put_classifier k r) m m) by (split; [done|apply emits_refl]).
  assert (Hemit : forall ts,
    (let '(r2, m2, sent) := emit_classified_tokens ts (put_classifier k r) m in
     match sent with
     | false => (r2, m2, ChannelDropped)
     | true =>
         match completion_check_phase (SampledContent token) r2 with
         | ReachedEog | ReachedMaxTokens => finish_generation r2 m2
         | CompletionContinue => (r2, m2, SampledAndStored (SampledContent token))
         end
     end) = (r', m', o) -> advanced r r' m m' /\ outcome_sound o).
  { intros ts. destruct (emit_classified_tokens ts _ m) as [[r2 m2] [|]] eqn:E;
      apply emit_classified_advanced in E.
    2: { intros [= <- <- <-]. split; [exact (advanced_trans _ _ _ _ _ _ A E)|exact I]. }
    destruct (completion_check_phase _ r2).
    1: { intros [= <- <- <-]. split; [exact (advanced_trans _ _ _ _ _ _ A E)|exact I]. }
    all: intros [F S]%finish_generation_advanced; split; [|done];
      exact (advanced_trans _ _ _ _ _ _ A (advanced_trans _ _ _ _ _ _ E F)). }
  destruct (completion_check_phase (SampledContent token) (put_classifier k r)).
  - apply Hemit.
  - intros [F S]%finish_generation_advanced. split; [exact (advanced_trans _ _ _ _ _ _ A F)|done].
  - apply Hemit.
Qed.

End SchedulerStreams.
