(* ===== verification/SchedulerLifecycle.v ===== *)
(** * The continuous batch scheduler: the life of its requests

    The steps of the scheduler as a transition relation, from the submission
    of a request to its removal, and what holds in every state it reaches:
    sequence ids and slots are accounted for, a stream ends at most once, and
    sampling reads the logits of the request's own sequence. *)

From S2P Require Import Prelude Tokio Messages AtomicValue Requests TokenThroughput SlotStatus.
From S2P Require Import ToolCalls Llama Scheduler SchedulerCommands SchedulerBatch.
From S2P Require Import SchedulerStreams.
Local Open Scope Z_scope.

Section SchedulerLifecycle.
Context `{JsonTypes} `{LlamaTypes} `{!ToolCallBackend} `{!LlamaBackend} `{!MultimodalBackend}.
Context {chan : Type -> Type} `{!UnboundedChannel chan}.
Context {sender receiver : Type} `{!WatchChannel sender receiver}.

Notation Request := ContinuousBatchActiveRequest.
Notation Channels := (gmap nat (chan GeneratedTokenResult)).
Notation Scheduler := (ContinuousBatchScheduler (chan := chan) (sender := sender)).

(** ** Requests *)

(** What a completed request says to its client ends the stream. *)
Definition terminal_sound (r : Request) : Prop :=
  forall e, phase (state r) = Completed (EmitToClient e) -> is_done e = true.

(** A request that does not need the logits of the last decode any more. *)
Definition settled (r : Request) : Prop :=
  is_generating (phase (state r)) = true -> pending_sampled_token (state r) = None ->
  i_batch (state r) = None.

(** What sampling for the request would read is its own. *)
Definition reads_own_logits (ctx : LlamaContext) (r : Request) : Prop :=
  is_generating (phase (state r)) = true -> pending_sampled_token (state r) = None ->
  forall k, i_batch (state r) = Some k -> logits_at ctx k = Some (sequence_id r).

Lemma settled_reads_own (ctx : LlamaContext) (r : Request) : settled r -> reads_own_logits ctx r.
Proof. intros Hs Hg Hp k Hk. rewrite Hs in Hk; done. Qed.

(** The request changed hands with nobody. *)
Record moved (r r' : Request) : Prop := {
  moved_owner : same_owner r r';
  moved_terminal : terminal_sound r -> terminal_sound r';
}.

Lemma moved_refl (r : Request) : moved r r.
Proof. done. Qed.

Lemma moved_same_request (r r' : Request) : same_request r r' -> moved r r'.
Proof. intros [Ho Hs]. split; [done|]. unfold terminal_sound. by rewrite Hs. Qed.

Lemma moved_complete (e : GeneratedTokenResult) (r : Request) :
  is_done e = true -> moved r (complete_with_outcome e r).
Proof.
  intros He. split; [done|]. intros Hr e'. unfold complete_with_outcome, put_state, mark_completed.
  simpl. destruct (is_completed (phase (state r))) eqn:Ec; simpl.
  - apply Hr.
  - intros [= <-]. done.
Qed.

Lemma settled_complete (o : ContinuousBatchTerminalOutcome) (r : Request) :
  settled (put_state (mark_completed o (state r)) r).
Proof.
  unfold settled, put_state, mark_completed. simpl.
  destruct (is_completed (phase (state r))) eqn:Ec; simpl; [|done].
  destruct (phase (state r)); done.
Qed.

Lemma moved_trans (r1 r2 r3 : Request) : moved r1 r2 -> moved r2 r3 -> moved r1 r3.
Proof.
  intros [[] T1] [[] T2]. split; [split; congruence|auto].
Qed.

(** ** Advancing all requests *)

Lemma advance_one_spec (ctx : LlamaContext) (clock : Z * Z) (r r' : Request)
    (o o' : Surroundings (chan := chan) (sender := sender)) (outcome : option AdvanceOutcome) :
  advance_one ctx clock r o = (r', o', outcome) ->
  advanced r r' (surrounding_channels o) (surrounding_channels o') /\
  slots_processing (surrounding_status o') = slots_processing (surrounding_status o) /\
  match outcome with
  | None => settled r'
  | Some x => outcome_sound x
  end.
Proof.
  unfold advance_one. destruct (is_generating (phase (state r))) eqn:Eg; simpl.
  2: { intros [= <- <- <-]. split; [apply advanced_refl|]. split; [done|]. intros Hg. congruence. }
  destruct (pending_sampled_token (state r)) eqn:Ep.
  { intros [= <- <- <-]. split; [apply advanced_refl|]. split; [done|]. intros _ Hp. congruence. }
  destruct (i_batch (state r)) as [k|] eqn:Ei.
  2: { intros [= <- <- <-]. split; [apply advanced_refl|]. split; [done|]. intros _ _. done. }
  unfold sample_token_phase. destruct (sample_token_at_batch_index _ _ _ _) as [[c g] out].
  assert (A : forall m, advanced r (put_samplers c g r) m m)
    by (intros m; split; [done|apply emits_refl]).
  destruct out as [[| |token]|message]; simpl.
  1, 2, 4: intros [= <- <- <-]; split; [apply A|]; split; [done|exact eq_refl].
  destruct (advance_sampled token (put_samplers c g r) (surrounding_channels o)) as [[r2 m] x] eqn:E.
  apply advance_sampled_advanced in E as [F S]. intros [= <- <- <-]. simpl.
  split; [exact (advanced_trans _ _ _ _ _ _ (A _) F)|]. done.
Qed.

Lemma apply_outcome_moved (outcome : option AdvanceOutcome) (r : Request) :
  match outcome with
  | None => settled r
  | Some x => outcome_sound x
  end ->
  moved r (apply_outcome outcome r) /\ settled (apply_outcome outcome r).
Proof.
  destruct outcome as [[token|e|]|]; simpl; intros Ho.
  - split; [|by intros _]. split; [done|]. unfold terminal_sound. done.
  - split; [by apply moved_complete|apply settled_complete].
  - split; [|apply settled_complete]. split; [done|]. intros Hr e. unfold mark_completed. simpl.
    destruct (is_completed (phase (state r))); simpl; [apply Hr|done].
  - by split.
Qed.

Lemma advance_requests_spec (ctx : LlamaContext) (clock : nat -> Z * Z) (index : nat)
    (rs rs' : list Request) (o o' : Surroundings (chan := chan) (sender := sender)) :
  advance_requests ctx clock index rs o = (rs', o') ->
  Forall2 (fun r r' => moved r r' /\ settled r') rs rs' /\
  emits (map generated_tokens_tx rs) (surrounding_channels o) (surrounding_channels o') /\
  slots_processing (surrounding_status o') = slots_processing (surrounding_status o).
Proof.
  revert index o o' rs'. induction rs as [|r rs IH]; intros index o o' rs'; simpl.
  { intros [= <- <-]. split; [constructor|]. split; [apply emits_refl|done]. }
  destruct (advance_one ctx (clock index) r o) as [[r1 o1] outcome] eqn:E1.
  apply advance_one_spec in E1 as ([S1 M1] & P1 & Q1).
  destruct (advance_requests ctx clock (S index) rs o1) as [rest o2] eqn:E2.
  apply IH in E2 as (F2 & M2 & P2). intros [= <- <-].
  apply apply_outcome_moved in Q1 as [Q1 Q2]. split; [|split].
  - constructor; [|done]. split; [|done].
    eapply moved_trans; [by apply moved_same_request|done].
  - eapply emits_trans; (eapply emits_mono; [|eassumption]); simpl; tauto.
  - congruence.
Qed.

(** Sampling for all requests before a foreign decode. *)
Lemma harvest_one_spec (ctx : LlamaContext) (r : Request) :
  moved r (harvest_one ctx r) /\ settled (harvest_one ctx r).
Proof.
  unfold harvest_one. destruct (is_generating (phase (state r))) eqn:Eg; simpl.
  2: { split; [done|]. intros Hg. congruence. }
  destruct (pending_sampled_token (state r)) eqn:Ep; [split; [done|]; intros _ Hp; congruence|].
  destruct (i_batch (state r)) as [k|] eqn:Ei; [|split; [done|]; intros _ _; done].
  destruct (sample_token_at_batch_index _ _ _ _) as [[c g] out].
  destruct out as [[| |token]|message]; simpl.
  1, 2, 4: split; [|apply settled_complete];
    (eapply moved_trans; [|by apply moved_complete]); by apply moved_same_request.
  destruct (classifier_ingest _ token) as [k' [outcomes|e]]; simpl.
  - split; [|by intros _]. split; [done|]. unfold terminal_sound. done.
  - split; [|apply settled_complete].
    (eapply moved_trans; [|by apply moved_complete]); by apply moved_same_request.
Qed.

(** ** The invariant

    [ids] are the ids the pool was made of, [held] those taken from the pool
    for a request that is not active yet; [open] are the streams of requests
    that are not active yet and [guards] their slot guards. *)

Record scheduler_inv (ids held : list Z) (open : list nat) (guards : nat) (s : Scheduler) : Prop := {
  inv_ids : held ++ map sequence_id (active_requests s) ++ sequence_id_pool s ≡ₚ ids;
  inv_streams :
    streams_sound (open ++ map generated_tokens_tx (active_requests s)) (client_channels s);
  inv_terminal : Forall terminal_sound (active_requests s);
  inv_slots : slots_processing (slot_aggregated_status s)
              = wrap_i32 (Z.of_nat (guards + length (active_requests s)));
}.

Definition own_logits (s : Scheduler) : Prop :=
  Forall (reads_own_logits (llama_context s)) (active_requests s).

Definition all_settled (s : Scheduler) : Prop := Forall settled (active_requests s).

Lemma all_settled_own (s : Scheduler) : all_settled s -> own_logits s.
Proof. intros Hs. eapply Forall_impl; [exact Hs|]. intros r. apply settled_reads_own. Qed.

Lemma Forall2_map_eq {A B : Type} (f : A -> B) (l l' : list A) :
  Forall2 (fun x y => f y = f x) l l' -> map f l' = map f l.
Proof. induction 1; simpl; congruence. Qed.

(** Requests move, and say what does not end their streams. *)
Lemma scheduler_inv_moved (ids held : list Z) (open : list nat) (guards : nat) (s s' : Scheduler) :
  Forall2 moved (active_requests s) (active_requests s') ->
  sequence_id_pool s' = sequence_id_pool s ->
  emits (map generated_tokens_tx (active_requests s)) (client_channels s) (client_channels s') ->
  slots_processing (slot_aggregated_status s') = slots_processing (slot_aggregated_status s) ->
  scheduler_inv ids held open guards s -> scheduler_inv ids held open guards s'.
Proof.
  intros F Hpool Hm Hslots [I1 I2 I3 I4].
  assert (Hids : map sequence_id (active_requests s') = map sequence_id (active_requests s)).
  { apply Forall2_map_eq. eapply Forall2_impl; [exact F|]. by intros r r' [[] _]. }
  assert (Htxs : map generated_tokens_tx (active_requests s')
                 = map generated_tokens_tx (active_requests s)).
  { apply Forall2_map_eq. eapply Forall2_impl; [exact F|]. by intros r r' [[] _]. }
  split.
  - by rewrite Hids, Hpool.
  - rewrite Htxs. eapply streams_emit; [exact I2|]. eapply emits_mono; [|exact Hm].
    intros t Ht. apply in_app_iff. by right.
  - clear -F I3. induction F as [|r r' l l' Hm _ IH]; [constructor|].
    apply Forall_cons in I3 as [Hr I3]. constructor; [by apply Hm|by apply IH].
  - rewrite Hslots, I4. by rewrite (Forall2_length _ _ _ F).
Qed.

(** The scheduler's requests, pool, channels and slots are all that counts. *)
Lemma scheduler_inv_context (ids held : list Z) (open : list nat) (guards : nat) (s : Scheduler)
    (ctx : LlamaContext) :
  scheduler_inv ids held open guards s -> scheduler_inv ids held open guards (put_context ctx s).
Proof. intros []. by split. Qed.

(** ** Removing a request *)

Lemma swap_remove_spec {A : Type} (index : nat) (l : list A) (x : A) :
  l !! index = Some x ->
  exists rest, swap_remove index l = Some (x, rest) /\ l ≡ₚ x :: rest.
Proof.
  intros Hx. unfold swap_remove. rewrite Hx.
  destruct (last l) as [z|] eqn:Hl; [|apply last_None in Hl; by subst].
  eexists. split; [done|].
  apply last_Some in Hl as [l0 ->].
  destruct (decide (index = length l0)) as [->|Hne].
  - rewrite lookup_app_r, Nat.sub_diag in Hx by done. injection Hx as <-.
    rewrite insert_app_r_alt, Nat.sub_diag by done. simpl. rewrite removelast_last.
    by rewrite Permutation_app_comm.
  - assert (Hlt : (index < length l0)%nat)
      by (apply lookup_lt_Some in Hx; rewrite length_app in Hx; simpl in Hx; lia).
    rewrite lookup_app_l in Hx by done. rewrite insert_app_l by done. rewrite removelast_last.
    apply list_elem_of_split_length in Hx as (a & b & -> & ->).
    rewrite insert_app_r_alt, Nat.sub_diag by done. simpl.
    rewrite <- !app_assoc. simpl. rewrite <- Permutation_middle. constructor.
    rewrite app_assoc, (Permutation_app_comm (a ++ b) [z]). simpl.
    by rewrite Permutation_middle.
Qed.

Definition deliver_terminal (r : Request) (m : Channels) : Channels :=
  match into_terminal_outcome (state r) with
  | EmitNothing => m
  | EmitToClient e => fst (send_event (generated_tokens_tx r) e m)
  end.

Lemma cleanup_spec (index : nat) (r : Request) (s : Scheduler) :
  active_requests s !! index = Some r ->
  let s' := cleanup_completed_request index s in
  active_requests s ≡ₚ r :: active_requests s' /\
  sequence_id_pool s' = sequence_id_pool s ++ [sequence_id r] /\
  client_channels s' = deliver_terminal r (client_channels s) /\
  slots_processing (slot_aggregated_status s')
  = wrap_i32 (slots_processing (slot_aggregated_status s) - 1) /\
  llama_context s' = clear_kv_cache_for_sequence (sequence_id r) (llama_context s).
Proof.
  intros Hr. destruct (swap_remove_spec index _ _ Hr) as (rest & E & Hp).
  unfold cleanup_completed_request, deliver_terminal. rewrite E.
  by destruct (into_terminal_outcome (state r)).
Qed.

Lemma streams_deliver (r : Request) (txs : list nat) (m : Channels) :
  streams_sound (generated_tokens_tx r :: txs) m -> streams_sound txs (deliver_terminal r m).
Proof.
  intros Hs. unfold deliver_terminal. destruct (into_terminal_outcome (state r)).
  - eapply streams_submseteq; [|exact Hs]. by apply submseteq_cons.
  - by apply streams_finish.
Qed.

Lemma scheduler_inv_cleanup (ids held : list Z) (open : list nat) (guards index : nat)
    (s : Scheduler) :
  (index < length (active_requests s))%nat ->
  scheduler_inv ids held open guards s ->
  scheduler_inv ids held open guards (cleanup_completed_request index s).
Proof.
  intros [r Hr]%lookup_lt_is_Some [I1 I2 I3 I4].
  destruct (cleanup_spec index r s Hr) as (Hp & Hpool & Hm & Hslots & _).
  rewrite Hp in I1, I2, I3, I4. split.
  - rewrite Hpool, <- I1. simpl. f_equiv. rewrite app_assoc, Permutation_app_comm. done.
  - rewrite Hm. apply streams_deliver. eapply streams_submseteq; [|exact I2]. simpl.
    by rewrite Permutation_middle.
  - by apply Forall_cons in I3 as [_ I3].
  - rewrite Hslots, I4, wrap_i32_sub. f_equal. simpl. lia.
Qed.

Lemma clear_kv_cache_reads_own (id : Z) (ctx : LlamaContext) (r : Request) :
  reads_own_logits ctx r -> reads_own_logits (clear_kv_cache_for_sequence id ctx) r.
Proof.
  unfold clear_kv_cache_for_sequence. destruct (try_u32 id); [|done].
  intros Hr Hg Hp k Hk. rewrite clear_kv_cache_logits. by apply Hr.
Qed.

Lemma cleanup_own_logits (index : nat) (s : Scheduler) :
  (index < length (active_requests s))%nat ->
  own_logits s -> own_logits (cleanup_completed_request index s).
Proof.
  intros [r Hr]%lookup_lt_is_Some Ho.
  destruct (cleanup_spec index r s Hr) as (Hp & _ & _ & _ & Hc). unfold own_logits in *.
  rewrite Hc. rewrite Hp in Ho. apply Forall_cons in Ho as [_ Ho].
  eapply Forall_impl; [exact Ho|]. intros r'. apply clear_kv_cache_reads_own.
Qed.

Lemma cleanup_settled (index : nat) (s : Scheduler) :
  (index < length (active_requests s))%nat ->
  all_settled s -> all_settled (cleanup_completed_request index s).
Proof.
  intros [r Hr]%lookup_lt_is_Some Ho.
  destruct (cleanup_spec index r s Hr) as (Hp & _). unfold all_settled in *.
  rewrite Hp in Ho. by apply Forall_cons in Ho as [_ Ho].
Qed.

(** ** One iteration *)

Lemma advance_generating_spec (clock : nat -> Z * Z) (s : Scheduler) :
  Forall2 (fun r r' => moved r r' /\ settled r') (active_requests s)
    (active_requests (advance_generating_requests clock s)) /\
  (forall ids held open guards, scheduler_inv ids held open guards s ->
   scheduler_inv ids held open guards (advance_generating_requests clock s)) /\
  all_settled (advance_generating_requests clock s).
Proof.
  unfold advance_generating_requests.
  destruct (advance_requests _ _ _ _ _) as [rs o] eqn:E.
  apply advance_requests_spec in E as (F & M & P). simpl in *.
  split; [done|]. split.
  - intros ids held open guards. apply scheduler_inv_moved; simpl; try done.
    eapply Forall2_impl; [exact F|]. by intros r r' [].
  - unfold all_settled. simpl. clear -F. induction F as [|r r' l l' []]; by constructor.
Qed.

(** The loop over the requests finds the one that got furthest, the first of
    them when there are several. *)
Lemma find_largest_spec (rs : list Request) (index : nat) (best : option nat) (position : Z) :
  (find_largest rs index best position = best /\
   forall r, In r rs -> request_completed r = false -> current_token_position (state r) <= position) \/
  (exists j r, find_largest rs index best position = Some (index + j)%nat /\
     rs !! j = Some r /\ request_completed r = false /\
     position < current_token_position (state r) /\
     forall i r', rs !! i = Some r' -> request_completed r' = false ->
       current_token_position (state r') <= current_token_position (state r) /\
       ((i < j)%nat -> current_token_position (state r') < current_token_position (state r))).
Proof.
  revert index best position. induction rs as [|r rs IH]; intros index best position; simpl.
  { left. split; [done|]. by intros r []. }
  assert (Hskip : (request_completed r = false -> current_token_position (state r) <= position) ->
    forall j r0, find_largest rs (S index) best position = Some (S index + j)%nat ->
    rs !! j = Some r0 -> request_completed r0 = false ->
    position < current_token_position (state r0) ->
    (forall i r', rs !! i = Some r' -> request_completed r' = false ->
      current_token_position (state r') <= current_token_position (state r0) /\
      ((i < j)%nat -> current_token_position (state r') < current_token_position (state r0))) ->
    forall i r', (r :: rs) !! i = Some r' -> request_completed r' = false ->
      current_token_position (state r') <= current_token_position (state r0) /\
      ((i < S j)%nat -> current_token_position (state r') < current_token_position (state r0))).
  { intros Hr j r0 _ _ _ Hp Hbest [|i] r' Hr' Hc; simpl in Hr'.
    - injection Hr' as <-. specialize (Hr Hc). lia.
    - destruct (Hbest i r' Hr' Hc). split; [done|]. intros. lia. }
  destruct (request_completed r) eqn:Ec;
    [|destruct (Z.ltb_spec position (current_token_position (state r))) as [Hlt|Hle]].
  - destruct (IH (S index) best position) as [[E Hall]|(j & r0 & E & Hj & Hc & Hp & Hbest)].
    + left. split; [done|]. intros r' [->|Hin] Hc'; [congruence|by apply Hall].
    + right. exists (S j), r0. rewrite E. split; [f_equal; lia|]. repeat (split; [done|]).
      by apply (Hskip ltac:(congruence) j).
  - right. destruct (IH (S index) (Some index) (current_token_position (state r)))
      as [[E Hall]|(j & r0 & E & Hj & Hc & Hp & Hbest)].
    + exists 0%nat, r. rewrite E, Nat.add_0_r. repeat (split; [done|]).
      intros [|i] r' Hr' Hc; simpl in Hr'.
      * injection Hr' as <-. lia.
      * split; [|lia]. apply Hall; [|done]. by apply list_elem_of_In, (list_elem_of_lookup_2 _ i).
    + exists (S j), r0. rewrite E. split; [f_equal; lia|]. split; [done|]. split; [done|].
      split; [lia|]. intros [|i] r' Hr' Hc'; simpl in Hr'.
      * injection Hr' as <-. lia.
      * destruct (Hbest i r' Hr' Hc'). split; [done|]. intros. lia.
  - destruct (IH (S index) best position) as [[E Hall]|(j & r0 & E & Hj & Hc & Hp & Hbest)].
    + left. split; [done|]. intros r' [->|Hin] Hc'; [done|by apply Hall].
    + right. exists (S j), r0. rewrite E. split; [f_equal; lia|]. repeat (split; [done|]).
      by apply (Hskip ltac:(done) j).
Qed.

Lemma alter_moved (e : GeneratedTokenResult) (index : nat) (rs : list Request) :
  is_done e = true -> Forall2 moved rs (alter (complete_with_outcome e) index rs).
Proof.
  intros He. apply Forall2_same_length_lookup_2; [by rewrite length_alter|].
  intros i r r' Hr Hr'. destruct (decide (i = index)) as [->|].
  - rewrite list_lookup_alter_eq, Hr in Hr'. injection Hr' as <-. by apply moved_complete.
  - rewrite list_lookup_alter_ne, Hr in Hr' by done. by injection Hr' as <-.
Qed.

Lemma alter_settled (e : GeneratedTokenResult) (index : nat) (rs : list Request) :
  Forall settled rs -> Forall settled (alter (complete_with_outcome e) index rs).
Proof.
  rewrite !Forall_lookup. intros Hs i r Hr. destruct (decide (i = index)) as [->|].
  - rewrite list_lookup_alter_eq in Hr. destruct (rs !! index) eqn:E; [|done].
    injection Hr as <-. apply settled_complete.
  - rewrite list_lookup_alter_ne in Hr by done. by apply (Hs i).
Qed.

(** Evicting keeps what the scheduler relies on. *)
Lemma evict_inv (ids held : list Z) (open : list nat) (guards : nat) (s : Scheduler) :
  scheduler_inv ids held open guards s -> all_settled s ->
  scheduler_inv ids held open guards (evict_largest_sequence s) /\
  all_settled (evict_largest_sequence s).
Proof.
  intros Hi Hs. unfold evict_largest_sequence.
  destruct (find_largest_spec (active_requests s) 0 None (-1)) as [[-> _]|(j & r & -> & Hj & _)];
    [done|]. simpl.
  assert (Hlt : (j < length (alter (complete_with_outcome eviction_result) j (active_requests s)))%nat)
    by (rewrite length_alter; by eapply lookup_lt_Some).
  split.
  - apply scheduler_inv_cleanup; [done|]. eapply scheduler_inv_moved; [| | | |exact Hi]; simpl; try done.
    + by apply alter_moved.
    + apply emits_refl.
  - apply cleanup_settled; [done|]. by apply alter_settled.
Qed.

(** A committed batch leaves every request with its own logits. *)
Lemma committed_spec (ctx ctx' : LlamaContext) (b : LlamaBatch) (r r' : Request) :
  decode ctx b = (ctx', Ok tt) -> settled r -> committed (batch_entries b) r r' ->
  moved r r' /\ reads_own_logits ctx' r'.
Proof.
  intros Hd Hs [->|[(token & k & Hg & Ht & He & ->)|(size & l1 & l2 & Hi & Hsize & He & ->)]].
  - split; [done|]. by apply settled_reads_own.
  - split; [split; [done|]; unfold terminal_sound; simpl; by destruct (phase (state r))|].
    intros _ _ j [= <-]. by rewrite (decode_logits _ _ _ _ _ Hd He).
  - unfold apply_ingesting_contribution.
    assert (Hing : phase (state r) = Ingesting) by (by destruct (phase (state r))).
    destruct (try_i32 (Z.of_nat size)); simpl.
    2: { split; [split; [done|]; unfold terminal_sound; simpl; by rewrite Hing|].
         intros Hg. simpl in Hg. by rewrite Hing in Hg. }
    case_bool_decide as Hlast.
    2: { split; [split; [done|]; unfold terminal_sound; simpl; by rewrite Hing|].
         intros Hg. simpl in Hg. by rewrite Hing in Hg. }
    split; [split; [done|]; unfold terminal_sound; done|].
    intros _ _ j [= <-]. simpl.
    replace (Z.of_nat (length l1 + size) - 1) with (Z.of_nat (length l1 + (size - 1))) by lia.
    destruct (lookup_lt_is_Some_2 (ingesting_entries r size) (size - 1)) as [e Hentry].
    { rewrite ingesting_entries_length; lia. }
    assert (Hb : batch_entries b !! (length l1 + (size - 1))%nat = Some e).
    { rewrite He, lookup_app_r by lia. rewrite lookup_app_l.
      - by replace (length l1 + (size - 1) - length l1)%nat with (size - 1)%nat by lia.
      - rewrite ingesting_entries_length; lia. }
    unfold ingesting_entries in Hentry. rewrite list_lookup_imap in Hentry.
    destruct (take size _ !! (size - 1)%nat); [|done]. injection Hentry as <-.
    rewrite (decode_logits _ _ _ _ _ Hd Hb); [done|]. by apply bool_decide_true.
Qed.

Lemma from_decode_result_decoded (r : result unit DecodeError) :
  from_decode_result r = Decoded -> r = Ok tt.
Proof. by destruct r as [[]|[]]. Qed.

(** One decoded and committed batch. *)
Lemma commit_inv (ids held : list Z) (open : list nat) (guards n_batch_ added : nat)
    (s : Scheduler) (p : BatchPass) (ctx : LlamaContext) :
  Z.of_nat n_batch_ <= i32_max -> scheduler_inv ids held open guards s -> all_settled s ->
  pass_sound n_batch_ added (active_requests s) p ->
  decode (llama_context s) (batch p) = (ctx, Ok tt) ->
  exists rs', commit_phase p (active_requests s) = (rs', Ok tt) /\
    Forall2 (committed (batch_entries (batch p))) (active_requests s) rs' /\
    scheduler_inv ids held open guards (put_requests rs' (put_context ctx s)) /\
    own_logits (put_requests rs' (put_context ctx s)).
Proof.
  intros Hn Hi Hs Hp Hd. destruct (commit_phase_spec n_batch_ added _ p Hn Hp) as (rs' & E & F).
  exists rs'. split; [done|]. split; [done|].
  assert (F' : Forall2 (fun r r' => moved r r' /\ reads_own_logits ctx r') (active_requests s) rs').
  { apply Forall2_same_length_lookup_2; [by eapply Forall2_length|]. intros i r r' Hr Hr'.
    eapply committed_spec; [exact Hd| |by eapply Forall2_lookup_lr].
    unfold all_settled in Hs. rewrite Forall_lookup in Hs. by eapply Hs. }
  split.
  - eapply scheduler_inv_moved; [| | | |exact Hi]; simpl; try done; [|apply emits_refl].
    eapply Forall2_impl; [exact F'|]. by intros r r' [].
  - unfold own_logits. simpl. clear -F'. induction F' as [|r r' l l' []]; by constructor.
Qed.

Lemma iteration_loop_inv (ids held : list Z) (open : list nat) (guards fuel n_batch_ : nat)
    (s s' : Scheduler) (o : option (result unit string)) :
  Z.of_nat n_batch_ <= i32_max -> scheduler_inv ids held open guards s -> all_settled s ->
  iteration_loop fuel n_batch_ s = (s', o) ->
  scheduler_inv ids held open guards s' /\ own_logits s'.
Proof.
  intros Hn. revert s. induction fuel as [|fuel IH]; intros s Hi Hs; simpl.
  { intros [= <- _]. split; [done|by apply all_settled_own]. }
  destruct (try_i32 _) as [m|]; [|intros [= <- _]; split; [done|by apply all_settled_own]].
  destruct (batch_pass_new n_batch_ m) as [p0|] eqn:Ep; cbn [result_bind].
  2: { intros [= <- _]. split; [done|by apply all_settled_own]. }
  destruct (assemble_batch_sound n_batch_ m (active_requests s) p0 Hn Ep) as (p & added & -> & Hp).
  destruct (pass_is_empty p); [intros [= <- _]; split; [done|by apply all_settled_own]|].
  unfold decode_batch_phase. destruct (decode (llama_context s) (batch p)) as [ctx r] eqn:Ed.
  pose proof (scheduler_inv_context _ _ _ _ _ ctx Hi) as Hi'.
  assert (Hs' : all_settled (put_context ctx s)) by exact Hs.
  destruct (from_decode_result r) eqn:Er.
  - apply from_decode_result_decoded in Er. subst r.
    destruct (commit_inv ids held open guards n_batch_ added s p ctx) as (rs' & E & _ & H' & H'');
      try done. cbn zeta. simpl active_requests. rewrite E. by intros [= <- _].
  - cbn zeta. destruct (evict_inv _ _ _ _ _ Hi' Hs') as [Hi2 Hs2].
    destruct (active_requests (evict_largest_sequence (put_context ctx s))) eqn:El.
    + intros [= <- _]. split; [done|by apply all_settled_own].
    + by apply IH.
  - intros [= <- _]. split; [done|by apply all_settled_own].
  - intros [= <- _]. split; [done|by apply all_settled_own].
Qed.

(** ** Accepting a request *)

(** The stream of a request that is not active gets its last event. *)
Lemma scheduler_inv_answer (ids held : list Z) (open : list nat) (guards tx : nat)
    (e : GeneratedTokenResult) (s : Scheduler) :
  scheduler_inv ids held (tx :: open) guards s ->
  scheduler_inv ids held open guards (send_or_warn tx e s).
Proof. intros [I1 I2 I3 I4]. split; simpl; try done. by apply streams_finish. Qed.

(** Or it is dropped without one. *)
Lemma scheduler_inv_forget (ids held : list Z) (open : list nat) (guards tx : nat) (s : Scheduler) :
  scheduler_inv ids held (tx :: open) guards s -> scheduler_inv ids held open guards s.
Proof.
  intros [I1 I2 I3 I4]. split; try done. eapply streams_submseteq; [|exact I2].
  simpl. by apply submseteq_cons.
Qed.

Lemma scheduler_inv_drop (ids held : list Z) (open : list nat) (guards : nat) (s : Scheduler) :
  scheduler_inv ids held open (S guards) s -> scheduler_inv ids held open guards (drop_request s).
Proof.
  intros [I1 I2 I3 I4]. split; simpl in *; try done. unfold i32_decrement.
  rewrite I4, wrap_i32_sub. f_equal. lia.
Qed.

Lemma scheduler_inv_drop_id (ids : list Z) (open : list nat) (guards : nat) (id : Z)
    (s : Scheduler) :
  scheduler_inv ids [id] open (S guards) s ->
  scheduler_inv ids [] open guards (drop_request_with_id id s).
Proof.
  intros [I1 I2 I3 I4]. apply scheduler_inv_drop. split; simpl in *; try done.
  rewrite <- I1. unfold sequence_id_release. rewrite app_assoc.
  by rewrite Permutation_app_comm.
Qed.

Lemma scheduler_inv_acquire (ids : list Z) (open : list nat) (guards : nat) (id : Z)
    (rest : list Z) (s : Scheduler) :
  scheduler_inv ids [] open guards s ->
  sequence_id_acquire (sequence_id_pool s) = (rest, Some id) ->
  scheduler_inv ids [id] open guards (put_pool rest s).
Proof.
  intros [I1 I2 I3 I4]. unfold sequence_id_acquire.
  destruct (last (sequence_id_pool s)) as [z|] eqn:El; [|done]. intros [= <- ->].
  apply last_Some in El as [l El]. split; simpl in *; try done.
  rewrite <- I1, El, removelast_last, app_assoc. by rewrite <- Permutation_cons_append.
Qed.

Lemma scheduler_inv_activate (ids : list Z) (open : list nat) (guards : nat) (r : Request)
    (s : Scheduler) :
  scheduler_inv ids [sequence_id r] (generated_tokens_tx r :: open) (S guards) s ->
  terminal_sound r ->
  scheduler_inv ids [] open guards (put_requests (active_requests s ++ [r]) s).
Proof.
  intros [I1 I2 I3 I4] Hr. split; simpl in *.
  - rewrite <- I1, map_app, <- app_assoc. simpl. by rewrite Permutation_middle.
  - eapply streams_submseteq; [|exact I2]. rewrite map_app, app_assoc. simpl.
    by rewrite <- Permutation_cons_append.
  - apply Forall_app. split; [done|]. by apply Forall_singleton.
  - rewrite I4. f_equal. rewrite length_app. simpl. lia.
Qed.

(** What every way of accepting leaves behind. *)
Definition accepted_inv (ids : list Z) (open : list nat) (guards : nat) (s' : Scheduler) : Prop :=
  scheduler_inv ids [] open guards s' /\ own_logits s'.

Lemma create_grammar_inv (ids held : list Z) (open : list nat) (guards tx : nat)
    (c : ContinuousBatchSchedulerContext) (g : option GrammarSampler) (s s' : Scheduler)
    (o : result (option LlamaSampler) string) :
  create_grammar_llama_sampler c g tx s = (s', o) ->
  scheduler_inv ids held (tx :: open) guards s -> own_logits s ->
  own_logits s' /\ all_settled s' = all_settled s /\
  match o with
  | Ok _ => scheduler_inv ids held (tx :: open) guards s'
  | Err _ => scheduler_inv ids held open guards s'
  end.
Proof.
  unfold create_grammar_llama_sampler. destruct g as [g|]; [|by intros [= <- <-]].
  destruct (into_llama_sampler g) as [sampler|e]; [by intros [= <- <-]|].
  intros [= <- <-] Hi Ho. split; [exact Ho|]. split; [done|]. by apply scheduler_inv_answer.
Qed.

Lemma own_logits_context (id : Z) (s : Scheduler) :
  own_logits s -> own_logits (put_context (clear_kv_cache_for_sequence id (llama_context s)) s).
Proof. intros Ho. eapply Forall_impl; [exact Ho|]. intros r. apply clear_kv_cache_reads_own. Qed.

Lemma start_text_prompt_inv (ids : list Z) (open : list nat) (guards : nat)
    (c : ContinuousBatchSchedulerContext) (seed : Z) (prompt : string) (g : option GrammarSampler)
    (pipeline : option ToolCallPipeline) (x : Submission) (s : Scheduler) :
  scheduler_inv ids [] (submitted_tx x :: open) (S guards) s -> own_logits s ->
  accepted_inv ids open guards (fst (start_text_prompt c seed prompt g pipeline x s)).
Proof.
  intros Hi Ho. unfold start_text_prompt, accepted_inv. cbn zeta.
  destruct (sequence_id_acquire (sequence_id_pool s)) as [rest [id|]] eqn:Eid; cbn [fst].
  2: { split; [by apply scheduler_inv_drop, scheduler_inv_answer|exact Ho]. }
  pose proof (scheduler_inv_acquire _ _ _ _ _ _ Hi Eid) as Hi2.
  assert (Ho2 : own_logits (put_pool rest s)) by exact Ho.
  destruct (str_to_token prompt) as [tokens|err]; cbn [fst].
  2: { split; [by apply scheduler_inv_drop_id, scheduler_inv_answer|exact Ho]. }
  destruct (create_grammar_llama_sampler c g (submitted_tx x) (put_pool rest s)) as [s2 [sampler|e]] eqn:Eg;
    destruct (create_grammar_inv _ _ _ _ _ _ _ _ _ _ Eg Hi2 Ho2) as (Ho3 & _ & Hi3); cbn [fst].
  2: { split; [by apply scheduler_inv_drop_id|exact Ho3]. }
  destruct sampled_token_classifier as [classifier|e]; cbn [fst].
  2: { split; [by apply scheduler_inv_drop_id, scheduler_inv_forget in Hi3|exact Ho3]. }
  split.
  - apply scheduler_inv_activate; [by apply scheduler_inv_context|]. by intros e [=].
  - apply Forall_app. split; [by apply own_logits_context|]. apply Forall_singleton. by intros [=].
Qed.

Lemma accept_text_prompt_inv (ids : list Z) (open : list nat) (guards : nat)
    (c : ContinuousBatchSchedulerContext) (seed : Z) (prompt : string) (g : option GrammarSampler)
    (parse : bool) (tools_ : list (Tool ValidatedParametersSchema)) (x : Submission)
    (s : Scheduler) :
  scheduler_inv ids [] (submitted_tx x :: open) (S guards) s -> own_logits s ->
  accepted_inv ids open guards (fst (accept_text_prompt c seed prompt g parse tools_ x s)).
Proof.
  intros Hi Ho. unfold accept_text_prompt.
  destruct (build_tool_call_pipeline tools_ parse) as [[|pipeline|message]|e].
  1, 2: by apply start_text_prompt_inv.
  - split; [by apply scheduler_inv_drop, scheduler_inv_answer|exact Ho].
  - split; [by apply scheduler_inv_drop, scheduler_inv_forget in Hi|exact Ho].
Qed.

Lemma resolve_grammar_spec (g : option GrammarConstraint) (thinking : bool) (tx : nat)
    (m m' : Channels) (o : result (option GrammarSampler) string) :
  resolve_grammar g thinking tx m = (m', o) ->
  match o with
  | Ok _ => m' = m
  | Err _ => exists e, is_done e = true /\ m' = fst (send_event tx e m)
  end.
Proof.
  unfold resolve_grammar. destruct g as [constraint|]; [|by intros [= <- <-]].
  destruct thinking.
  - destruct (send_event _ _ m) as [m1 []] eqn:E; intros [= <- <-];
      eexists; (split; [|by rewrite E]); exact eq_refl.
  - destruct (grammar_sampler_new constraint) as [sampler|err]; [by intros [= <- <-]|].
    destruct (send_event _ _ m) as [m1 []] eqn:E; intros [= <- <-];
      eexists; (split; [|by rewrite E]); exact eq_refl.
Qed.

Lemma accept_raw_prompt_inv (ids : list Z) (open : list nat) (guards tx : nat)
    (c : ContinuousBatchSchedulerContext) (seed : Z) (params : ContinueFromRawPromptParams)
    (stop_rx : StopSignal) (s : Scheduler) :
  scheduler_inv ids [] (tx :: open) (S guards) s -> own_logits s ->
  accepted_inv ids open guards (accept_raw_prompt_request c seed params tx stop_rx s).
Proof.
  intros Hi Ho. unfold accept_raw_prompt_request.
  destruct (resolve_grammar _ _ _ _) as [m [g|err]] eqn:E; apply resolve_grammar_spec in E.
  - subst m. apply accept_text_prompt_inv; [|exact Ho]. destruct Hi. by split.
  - destruct E as (e & _ & ->). split; [|exact Ho].
    apply scheduler_inv_drop. by apply (scheduler_inv_answer _ _ _ _ _ e) in Hi.
Qed.

(** *** Multimodal prompts *)

Lemma harvest_inv (ids held : list Z) (open : list nat) (guards : nat) (s : Scheduler) :
  scheduler_inv ids held open guards s ->
  scheduler_inv ids held open guards (harvest_pending_samples_before_external_decode s) /\
  all_settled (harvest_pending_samples_before_external_decode s).
Proof.
  intros Hi. split.
  - eapply scheduler_inv_moved; [| | | |exact Hi]; simpl; try done; [|apply emits_refl].
    apply Forall2_fmap_r, Forall_Forall2_diag, Forall_forall. intros r _.
    apply (harvest_one_spec (llama_context s) r).
  - unfold all_settled. simpl. apply Forall_fmap, Forall_forall. intros r _.
    apply (harvest_one_spec (llama_context s) r).
Qed.

Lemma ingest_multimodal_inv (ids : list Z) (open : list nat) (guards : nat)
    (c : ContinuousBatchSchedulerContext) (seed : Z) (m : MtmdContext) (chunks : MtmdInputChunks)
    (batch_size id : Z) (g : option GrammarSampler) (pipeline : option ToolCallPipeline)
    (classifier : SampledTokenClassifier) (x : Submission) (s : Scheduler) :
  scheduler_inv ids [id] (submitted_tx x :: open) (S guards) s -> all_settled s ->
  accepted_inv ids open guards
    (ingest_multimodal c seed m chunks batch_size id g pipeline classifier x s).
Proof.
  intros Hi Hs. unfold ingest_multimodal. cbn zeta.
  destruct (eval_multimodal_chunks _ _ _ _ _ _) as [[k ctx] [n|e]] eqn:Ev.
  2: { split; [|destruct e; exact (all_settled_own (put_context ctx s) Hs)].
       destruct e; by apply scheduler_inv_drop_id, scheduler_inv_answer, scheduler_inv_context. }
  set (s1 := put_context _ (put_context ctx s)).
  assert (Hi1 : scheduler_inv ids [id] (submitted_tx x :: open) (S guards) s1)
    by (by do 2 apply scheduler_inv_context).
  assert (Hs1 : all_settled s1) by exact Hs.
  destruct (create_grammar_llama_sampler c g (submitted_tx x) s1) as [s2 [sampler|e]] eqn:Eg;
    destruct (create_grammar_inv _ _ _ _ _ _ _ _ _ _ Eg Hi1 (all_settled_own _ Hs1))
      as (Ho2 & Hs2 & Hi2).
  - split; [by apply scheduler_inv_activate; [|intros ? [=]]|].
    assert (Hc : llama_context s2 = llama_context s1).
    { unfold create_grammar_llama_sampler in Eg. destruct g; [|by injection Eg as <- _].
      destruct (into_llama_sampler _); by injection Eg as <- _. }
    apply Forall_app. split; [exact Ho2|]. apply Forall_singleton.
    intros _ _ j [= <-]. simpl. rewrite Hc. by eapply eval_multimodal_logits.
  - split; [by apply scheduler_inv_drop_id|exact Ho2].
Qed.

Lemma start_multimodal_inv (ids : list Z) (open : list nat) (guards : nat)
    (c : ContinuousBatchSchedulerContext) (seed : Z) (m : MtmdContext) (prompt : string)
    (images : list DecodedImage) (g : option GrammarSampler) (pipeline : option ToolCallPipeline)
    (x : Submission) (s : Scheduler) :
  scheduler_inv ids [] (submitted_tx x :: open) (S guards) s -> own_logits s ->
  accepted_inv ids open guards (fst (start_multimodal c seed m prompt images g pipeline x s)).
Proof.
  intros Hi Ho. unfold start_multimodal, accepted_inv. cbn zeta.
  destruct (sequence_id_acquire (sequence_id_pool s)) as [rest [id|]] eqn:Eid; cbn [fst].
  2: { split; [by apply scheduler_inv_drop, scheduler_inv_answer|exact Ho]. }
  pose proof (scheduler_inv_acquire _ _ _ _ _ _ Hi Eid) as Hi2.
  destruct (create_bitmaps m images) as [bitmaps|err]; cbn [fst].
  2: { split; [by apply scheduler_inv_drop_id, scheduler_inv_answer|exact Ho]. }
  destruct (mtmd_tokenize m prompt bitmaps) as [chunks|err]; cbn [fst].
  2: { split; [by apply scheduler_inv_drop_id, scheduler_inv_answer|exact Ho]. }
  set (s1 := put_context _ (put_pool rest s)).
  destruct (harvest_inv ids [id] (submitted_tx x :: open) (S guards) s1) as [Hi3 Hs3];
    [by apply scheduler_inv_context|].
  destruct sampled_token_classifier as [classifier|e]; cbn [fst].
  2: { split; [by apply scheduler_inv_drop_id, scheduler_inv_forget in Hi3|].
       exact (all_settled_own _ Hs3). }
  destruct (try_i32 _) as [batch_size|]; cbn [fst].
  - by apply ingest_multimodal_inv.
  - split; [by apply scheduler_inv_drop_id, scheduler_inv_forget in Hi3|].
    exact (all_settled_own _ Hs3).
Qed.

Lemma accept_multimodal_inv (ids : list Z) (open : list nat) (guards : nat)
    (c : ContinuousBatchSchedulerContext) (seed : Z) (m : MtmdContext) (prompt : string)
    (images : list DecodedImage) (g : option GrammarSampler) (parse : bool)
    (tools_ : list (Tool ValidatedParametersSchema)) (x : Submission) (s : Scheduler) :
  scheduler_inv ids [] (submitted_tx x :: open) (S guards) s -> own_logits s ->
  accepted_inv ids open guards
    (fst (accept_multimodal_request c seed m prompt images g parse tools_ x s)).
Proof.
  intros Hi Ho. unfold accept_multimodal_request.
  destruct (build_tool_call_pipeline tools_ parse) as [[|pipeline|message]|e].
  1, 2: by apply start_multimodal_inv.
  - split; [by apply scheduler_inv_drop, scheduler_inv_answer|exact Ho].
  - split; [by apply scheduler_inv_drop, scheduler_inv_forget in Hi|exact Ho].
Qed.

End SchedulerLifecycle.
