(* ===== verification/Bytes.v ===== *)
(** * Byte strings: UTF-8, white space and lines

    What the clients use of Rust's strings, over their bytes: validity of
    UTF-8 ([String::from_utf8]), trimming ([str::trim], [trim_end_matches],
    [strip_prefix]) and cutting at newlines. *)

From Stdlib Require Export Strings.Byte.
From S2P Require Import Prelude.
Local Open Scope Z_scope.

Abbreviation bytes := (list byte).

#[export] Instance byte_eq_dec : EqDecision byte := Byte.byte_eq_dec.

Definition code (b : byte) : Z := Z.of_N (Byte.to_N b).
Definition newline : byte := "010".
Definition carriage_return : byte := "013".

Definition within (range : Z * Z) (b : byte) : bool :=
  (fst range <=? code b) && (code b <=? snd range).

(** ** UTF-8

    The bytes a character still expects, one range for each. *)
Definition tail_byte : Z * Z := (128, 191).

Definition leading_byte (b : byte) : option (list (Z * Z)) :=
  if within (0, 127) b then Some []
  else if within (194, 223) b then Some [tail_byte]
  else if within (224, 224) b then Some [(160, 191); tail_byte]
  else if within (225, 236) b then Some [tail_byte; tail_byte]
  else if within (237, 237) b then Some [(128, 159); tail_byte]
  else if within (238, 239) b then Some [tail_byte; tail_byte]
  else if within (240, 240) b then Some [(144, 191); tail_byte; tail_byte]
  else if within (241, 243) b then Some [tail_byte; tail_byte; tail_byte]
  else if within (244, 244) b then Some [(128, 143); tail_byte; tail_byte]
  else None.

Fixpoint utf8_run (expected : list (Z * Z)) (s : bytes) : option (list (Z * Z)) :=
  match s with
  | [] => Some expected
  | b :: s' =>
      match expected with
      | [] => match leading_byte b with Some rest => utf8_run rest s' | None => None end
      | range :: rest => if within range b then utf8_run rest s' else None
      end
  end.

Definition valid_utf8 (s : bytes) : bool := bool_decide (utf8_run [] s = Some []).

(** [String::from_utf8]; the error keeps the bytes. *)
Definition from_utf8 (s : bytes) : result bytes bytes := if valid_utf8 s then Ok s else Err s.

(** ** White space

    [char::is_whitespace]: the encodings of the characters of the Unicode
    property [White_Space] in one, two and three bytes. *)
Definition white_space_1 (a : byte) : bool := within (9, 13) a || within (32, 32) a.
Definition white_space_2 (a b : byte) : bool :=
  within (194, 194) a && (within (133, 133) b || within (160, 160) b).
Definition white_space_3 (a b c : byte) : bool :=
  (within (225, 225) a && within (154, 154) b && within (128, 128) c)
  || (within (226, 226) a && within (128, 128) b &&
      (within (128, 138) c || within (168, 169) c || within (175, 175) c))
  || (within (226, 226) a && within (129, 129) b && within (159, 159) c)
  || (within (227, 227) a && within (128, 128) b && within (128, 128) c).

Section Trim.
Context (one : byte -> bool) (two : byte -> byte -> bool) (three : byte -> byte -> byte -> bool).

Fixpoint trim_front (s : bytes) : bytes :=
  match s with
  | [] => []
  | a :: s1 =>
      if one a then trim_front s1
      else match s1 with
           | [] => s
           | b :: s2 =>
               if two a b then trim_front s2
               else match s2 with
                    | [] => s
                    | c :: s3 => if three a b c then trim_front s3 else s
                    end
           end
  end.
End Trim.

Definition trim_start (s : bytes) : bytes := trim_front white_space_1 white_space_2 white_space_3 s.
Definition trim_end (s : bytes) : bytes :=
  rev (trim_front white_space_1 (fun b a => white_space_2 a b)
         (fun c b a => white_space_3 a b c) (rev s)).
Definition trim (s : bytes) : bytes := trim_end (trim_start s).

Fixpoint drop_leading (b : byte) (s : bytes) : bytes :=
  match s with
  | [] => []
  | a :: s' => if bool_decide (a = b) then drop_leading b s' else s
  end.

Definition trim_end_matches (b : byte) (s : bytes) : bytes := rev (drop_leading b (rev s)).

Fixpoint strip_prefix (prefix s : bytes) : option bytes :=
  match prefix, s with
  | [], _ => Some s
  | _ :: _, [] => None
  | a :: prefix', b :: s' => if bool_decide (a = b) then strip_prefix prefix' s' else None
  end.

(** ** Lines

    The lines of a text that a newline ends, and what follows the last one. *)
Fixpoint split_lines (s : bytes) : list bytes * bytes :=
  match s with
  | [] => ([], [])
  | b :: s' =>
      let '(lines, rest) := split_lines s' in
      if bool_decide (b = newline) then ([] :: lines, rest)
      else match lines with
           | [] => ([], b :: rest)
           | line :: lines' => ((b :: line) :: lines', rest)
           end
  end.

Definition ended (line : bytes) : bytes := line ++ [newline].

(** ** Facts *)

Lemma split_lines_joined (s : bytes) :
  concat (map ended (fst (split_lines s))) ++ snd (split_lines s) = s.
Proof.
  induction s as [|b s IH]; [done|]. simpl. destruct (split_lines s) as [[|l ls] r];
    case_bool_decide; subst; unfold ended in *; simpl in *; congruence.
Qed.

Lemma split_lines_clean (s : bytes) :
  Forall (fun line => newline ∉ line) (fst (split_lines s)) /\ newline ∉ snd (split_lines s).
Proof.
  induction s as [|b s IH]; simpl; [split; [constructor | set_solver]|].
  destruct (split_lines s) as [[|l ls] r]; simpl in *; destruct IH as [Hl Hr];
    case_bool_decide; simpl; split; try done; try set_solver.
  - by repeat constructor; set_solver.
  - constructor; [set_solver | done].
  - inversion Hl; subst. constructor; [set_solver | done].
Qed.

Lemma split_lines_line (line s : bytes) (Hline : newline ∉ line) :
  split_lines (line ++ newline :: s)
  = (line :: fst (split_lines s), snd (split_lines s)).
Proof.
  induction line as [|b line IH]; simpl.
  - by destruct (split_lines s).
  - rewrite IH by set_solver. by rewrite bool_decide_false by set_solver.
Qed.

Lemma split_lines_remainder (s : bytes) (Hs : newline ∉ s) : split_lines s = ([], s).
Proof.
  induction s as [|b s IH]; [done|]. simpl. rewrite IH by set_solver.
  by rewrite bool_decide_false by set_solver.
Qed.

Lemma split_lines_prefix (lines : list bytes) (s : bytes)
    (Hlines : Forall (fun line => newline ∉ line) lines) :
  split_lines (concat (map ended lines) ++ s)
  = (lines ++ fst (split_lines s), snd (split_lines s)).
Proof.
  induction Hlines as [|l ls Hl _ IH]; simpl; [by destruct (split_lines s)|].
  unfold ended at 1. rewrite <- !app_assoc. simpl. by rewrite split_lines_line, IH.
Qed.

Lemma split_lines_app (s s' : bytes) :
  split_lines (s ++ s')
  = (fst (split_lines s) ++ fst (split_lines (snd (split_lines s) ++ s')),
     snd (split_lines (snd (split_lines s) ++ s'))).
Proof.
  rewrite <- (split_lines_joined s) at 1. rewrite <- app_assoc.
  apply split_lines_prefix, split_lines_clean.
Qed.

(** A line never cuts a character: the text is valid exactly when its lines
    and the remainder are. *)
Definition above_ascii (expected : list (Z * Z)) : Prop :=
  Forall (fun range => 128 <= fst range) expected.

Lemma leading_byte_above (b : byte) (expected : list (Z * Z)) :
  leading_byte b = Some expected -> above_ascii expected.
Proof.
  unfold leading_byte, above_ascii, tail_byte. intros H.
  repeat case_match; simplify_eq; repeat constructor; simpl; lia.
Qed.

Lemma utf8_run_above (s : bytes) (expected pending : list (Z * Z)) :
  above_ascii expected -> utf8_run expected s = Some pending -> above_ascii pending.
Proof.
  revert expected. induction s as [|b s IH]; intros expected Ha Hrun; simpl in Hrun.
  - by simplify_eq.
  - destruct expected as [|range rest].
    + destruct (leading_byte b) as [e|] eqn:Hb; [|done].
      by eapply IH; [eapply leading_byte_above|].
    + inversion Ha; subst. destruct (within range b); [|done]. by eapply IH.
Qed.

Lemma utf8_run_app (s s' : bytes) (expected : list (Z * Z)) :
  utf8_run expected (s ++ s')
  = match utf8_run expected s with Some pending => utf8_run pending s' | None => None end.
Proof.
  revert expected. induction s as [|b s IH]; intros expected; [done|]. simpl.
  destruct expected as [|range rest]; [destruct (leading_byte b) | destruct (within range b)]; done.
Qed.

Lemma utf8_run_newline (expected : list (Z * Z)) (s : bytes) (Ha : above_ascii expected) :
  utf8_run expected (newline :: s)
  = if bool_decide (expected = []) then utf8_run [] s else None.
Proof.
  destruct expected as [|[lo hi] rest]; [done|]. simpl. inversion Ha as [|? ? Hlo]; subst.
  simpl in Hlo. unfold within. change (code newline) with 10. simpl.
  by rewrite (proj2 (Z.leb_gt lo 10)) by lia.
Qed.

Lemma valid_utf8_line (line s : bytes) :
  valid_utf8 (line ++ newline :: s) = valid_utf8 line && valid_utf8 s.
Proof.
  unfold valid_utf8. rewrite utf8_run_app.
  destruct (utf8_run [] line) as [pending|] eqn:Hrun.
  - assert (Ha : above_ascii pending) by (eapply utf8_run_above; [constructor | done]).
    rewrite utf8_run_newline by done. destruct pending as [|range pending].
    + by rewrite (bool_decide_true ([] = [])), (bool_decide_true (Some [] = Some [])).
    + rewrite (bool_decide_false (range :: pending = [])) by done.
      by rewrite (bool_decide_false (Some (range :: pending) = Some [])).
  - by rewrite (bool_decide_false (None = Some [])).
Qed.

Lemma valid_utf8_lines (s : bytes) :
  valid_utf8 s = forallb valid_utf8 (fst (split_lines s)) && valid_utf8 (snd (split_lines s)).
Proof.
  rewrite <- (split_lines_joined s) at 1. generalize (snd (split_lines s)) as rest.
  intros rest. induction (fst (split_lines s)) as [|l ls IH]; [done|]. simpl.
  unfold ended at 1. rewrite <- !app_assoc. simpl. rewrite valid_utf8_line, IH.
  by rewrite andb_assoc.
Qed.
