(* ===== verification/Images.v ===== *)
(** * Images of a conversation

    [decoded_image.rs] and [decoded_image_error.rs] of the agent: an image
    comes as a data URI, is decoded, rasterized when it is an SVG, resized to
    the dimension the model is configured for, and encoded again when its
    format is none of those [mtmd] reads.

    The packages [image], [resvg] and [base64] are not part of the repository:
    their operations are the class [ImageBackend], with the documented laws of
    resizing and encoding the result relies on.  What SVG sizes become is
    computed in binary64. *)

From Stdlib Require Import Floats.SpecFloat Strings.Ascii.
From S2P Require Import Prelude.
From S2P Require Import Messages.
From S2P Require Import Requests.
From S2P Require Import Bytes.
From S2P Require Import SchedulerCommands.
Local Open Scope Z_scope.

Inductive DecodedImageError : Type :=
| InvalidBase64Payload (message : string)
| MissingCommaSeparator
| ConversionFailed (message : string)
| InvalidMaxDimension
| ResizeFailed (message : string)
| UnsupportedFormat (format : string)
| RemoteUrlNotSupported.

(** [#[error(...)]] *)
Definition image_error_text (e : DecodedImageError) : string :=
  match e with
  | InvalidBase64Payload message => "Invalid base64 payload: " +:+ message
  | MissingCommaSeparator => "Invalid data URI: missing comma separator"
  | ConversionFailed message => "Failed to convert image to PNG: " +:+ message
  | InvalidMaxDimension => "max_dimension must be greater than zero"
  | ResizeFailed message => "Failed to resize image: " +:+ message
  | UnsupportedFormat format => "Unsupported image format: " +:+ format
  | RemoteUrlNotSupported =>
      "Remote image URLs are not supported. Use base64 data URIs (data:image/...;base64,...) instead."
  end.

Class ImageBackend : Type := {
  base64_decode : string -> result string string;
  (** [image] *)
  DynamicImage : Type;
  ImageFormat : Type;
  format_eq_dec :: EqDecision ImageFormat;
  Png : ImageFormat;
  Jpeg : ImageFormat;
  Gif : ImageFormat;
  Bmp : ImageFormat;
  reading_enabled : ImageFormat -> bool;
  debug_format : ImageFormat -> string;
  guess_format : string -> result ImageFormat string;
  load_from_memory : string -> result DynamicImage string;
  image_width : DynamicImage -> Z;
  image_height : DynamicImage -> Z;
  image_resize : DynamicImage -> Z -> Z -> DynamicImage;
  write_to : DynamicImage -> ImageFormat -> result string string;
  rgba_from_raw : Z -> Z -> string -> option DynamicImage;
  (** [resvg] *)
  SvgTree : Type;
  Pixmap : Type;
  svg_from_data : string -> result SvgTree string;
  svg_tree_width : SvgTree -> f32;
  svg_tree_height : SvgTree -> f32;
  pixmap_new : Z -> Z -> option Pixmap;
  svg_render : SvgTree -> f32 -> f32 -> Pixmap -> Pixmap;
  pixmap_data : Pixmap -> string;
  (** what [{}] prints of an [f64] *)
  display_f64 : f64 -> string;
  (** resizing keeps the aspect ratio within the bounds *)
  image_resize_bounds image w h :
    0 < w -> 0 < h ->
    image_width (image_resize image w h) <= w /\ image_height (image_resize image w h) <= h;
  (** an encoded image has the signature of its format and can be read back *)
  write_to_format image f s :
    f = Png \/ f = Jpeg -> write_to image f = Ok s -> guess_format s = Ok f;
  write_to_load image f s :
    f = Png \/ f = Jpeg -> write_to image f = Ok s ->
    exists image', load_from_memory s = Ok image' /\
                   image_width image' = image_width image /\ image_height image' = image_height image;
  write_png_signature image s :
    write_to image Png = Ok s -> exists rest, s = String "137"%char rest;
  write_jpeg_signature image s :
    write_to image Jpeg = Ok s -> exists rest, s = String "255"%char rest;
}.

(** ** Binary64 *)

Definition f64_mul : f64 -> f64 -> f64 := SFmul 53 1024.
Definition f64_div : f64 -> f64 -> f64 := SFdiv 53 1024.
Definition f64_of_Z (n : Z) : f64 := binary_normalize 53 1024 n 0 false.

(** [f64::from] of an [f32], which is exact, and the cast back. *)
Definition f64_of_f32 (x : f32) : f64 :=
  match x with
  | S754_finite s m e => binary_normalize 53 1024 (cond_Zopp s (Zpos m)) e s
  | _ => x
  end.

Definition f32_of_f64 (x : f64) : f32 :=
  match x with
  | S754_finite s m e => binary_normalize 24 128 (cond_Zopp s (Zpos m)) e s
  | _ => x
  end.

(** [f64::min]: a NaN gives way to the other number. *)
Definition f64_min (x y : f64) : f64 :=
  match x, y with
  | S754_nan, _ => y
  | _, S754_nan => x
  | _, _ => if SFltb y x then y else x
  end.

(** The value of a finite number, rounded towards positive infinity, and
    towards zero. *)
Definition ceiling_of (s : bool) (m : positive) (e : Z) : Z :=
  let v := cond_Zopp s (Zpos m) in
  if 0 <=? e then Z.shiftl v e else - ((- v) / 2 ^ (- e)).

Definition truncation_of (s : bool) (m : positive) (e : Z) : Z :=
  cond_Zopp s (if 0 <=? e then Z.shiftl (Zpos m) e else Zpos m / 2 ^ (- e)).

Definition f64_ceil (x : f64) : f64 :=
  match x with
  | S754_finite s m e => binary_normalize 53 1024 (ceiling_of s m e) 0 s
  | _ => x
  end.

Definition f64_is_finite (x : f64) : bool :=
  match x with S754_zero _ | S754_finite _ _ _ => true | S754_infinity _ | S754_nan => false end.

(** [as u32]: truncated and saturated; a NaN is zero. *)
Definition f64_as_u32 (x : f64) : Z :=
  match x with
  | S754_zero _ | S754_nan => 0
  | S754_infinity s => if s then 0 else 2 ^ 32 - 1
  | S754_finite s m e => Z.max 0 (Z.min (2 ^ 32 - 1) (truncation_of s m e))
  end.

Section Images.
Context `{ImageBackend}.

Definition starts_with (prefix s : bytes) : bool :=
  match strip_prefix prefix s with Some _ => true | None => false end.

Definition is_svg (data_ : string) : bool :=
  match from_utf8 (String.list_byte_of_string data_) with
  | Err _ => false
  | Ok text =>
      let trimmed := trim_start text in
      starts_with (String.list_byte_of_string "<svg") trimmed
      || starts_with (String.list_byte_of_string "<?xml") trimmed
  end.

Definition compute_target_dimension (svg_dim scale : f64) : result Z DecodedImageError :=
  let target := f64_ceil (f64_mul svg_dim scale) in
  if negb (f64_is_finite target) || SFltb target (f64_of_Z 1)
     || SFltb (f64_of_Z (2 ^ 32 - 1)) target
  then Err (ConversionFailed ("SVG dimension " +:+ display_f64 target +:+ " is out of valid range"))
  else Ok (f64_as_u32 target).

Definition svg_scale (max_dimension : Z) (svg_width svg_height : f64) : f64 :=
  let max_dim := f64_of_Z max_dimension in
  f64_min (f64_min (f64_div max_dim svg_width) (f64_div max_dim svg_height)) (f64_of_Z 1).

Definition rasterize_svg_to_dynamic_image (data_ : string) (max_dimension : Z)
    : result DynamicImage DecodedImageError :=
  match svg_from_data data_ with
  | Err err => Err (ConversionFailed ("Failed to parse SVG: " +:+ err))
  | Ok svg_tree =>
      let svg_width := f64_of_f32 (svg_tree_width svg_tree) in
      let svg_height := f64_of_f32 (svg_tree_height svg_tree) in
      let scale := svg_scale max_dimension svg_width svg_height in
      let? target_width := compute_target_dimension svg_width scale in
      let? target_height := compute_target_dimension svg_height scale in
      match pixmap_new target_width target_height with
      | None => Err (ConversionFailed "Failed to create pixmap for SVG rasterization")
      | Some pixmap =>
          let render_scale_x := f64_div (f64_of_Z target_width) svg_width in
          let render_scale_y := f64_div (f64_of_Z target_height) svg_height in
          let pixmap :=
            svg_render svg_tree (f32_of_f64 render_scale_x) (f32_of_f64 render_scale_y) pixmap in
          match rgba_from_raw target_width target_height (pixmap_data pixmap) with
          | None =>
              Err (ConversionFailed
                     "rasterized pixmap buffer length did not match target dimensions")
          | Some rgba => Ok rgba
          end
      end
  end.

Inductive LoadedImageOrigin : Type :=
| PassThroughEligible
| NeedsReencode.

Definition passes_through (format : ImageFormat) : bool :=
  bool_decide (format = Png) || bool_decide (format = Jpeg)
  || bool_decide (format = Gif) || bool_decide (format = Bmp).

Definition load_supported_image (data_ : string) (max_dimension : Z)
    : result (DynamicImage * LoadedImageOrigin) DecodedImageError :=
  if is_svg data_ then
    let? image := rasterize_svg_to_dynamic_image data_ max_dimension in
    Ok (image, NeedsReencode)
  else
    match guess_format data_ with
    | Err err => Err (ConversionFailed err)
    | Ok format =>
        let? origin :=
          if passes_through format then Ok PassThroughEligible
          else if negb (reading_enabled format) then Err (UnsupportedFormat (debug_format format))
          else Ok NeedsReencode in
        match load_from_memory data_ with
        | Err err => Err (ConversionFailed err)
        | Ok image => Ok (image, origin)
        end
    end.

Definition encode_png (image : DynamicImage) : result string DecodedImageError :=
  match write_to image Png with
  | Ok s => Ok s
  | Err err => Err (ConversionFailed err)
  end.

Definition encode_jpeg (image : DynamicImage) : result string DecodedImageError :=
  match write_to image Jpeg with
  | Ok s => Ok s
  | Err err => Err (ResizeFailed err)
  end.

(** [split_once(',')], what comes after the comma. *)
Fixpoint after_comma (s : string) : option string :=
  match s with
  | EmptyString => None
  | String a rest => if bool_decide (a = ","%char) then Some rest else after_comma rest
  end.

Fixpoint strip_string_prefix (prefix s : string) : option string :=
  match prefix, s with
  | EmptyString, _ => Some s
  | String a prefix', String b s' =>
      if bool_decide (a = b) then strip_string_prefix prefix' s' else None
  | String _ _, EmptyString => None
  end.

Definition from_data_uri (image : ImageUrl) : result DecodedImage DecodedImageError :=
  match strip_string_prefix "data:" (image_url image) with
  | None => Err RemoteUrlNotSupported
  | Some after_data =>
      match after_comma after_data with
      | None => Err MissingCommaSeparator
      | Some encoded_data =>
          match base64_decode encoded_data with
          | Err err => Err (InvalidBase64Payload err)
          | Ok data_ => Ok {| data := data_ |}
          end
      end
  end.

Definition prepared_for_inference (max_dimension : Z) (self : DecodedImage)
    : result DecodedImage DecodedImageError :=
  if max_dimension =? 0 then Err InvalidMaxDimension
  else
    let? loaded := load_supported_image (data self) max_dimension in
    let '(image, origin) := loaded in
    let needs_resize :=
      (max_dimension <? image_width image) || (max_dimension <? image_height image) in
    if needs_resize then
      let? s := encode_jpeg (image_resize image max_dimension max_dimension) in
      Ok {| data := s |}
    else
      match origin with
      | PassThroughEligible => Ok self
      | NeedsReencode => let? s := encode_png image in Ok {| data := s |}
      end.

End Images.

(** ** What preparing promises *)

Section ImageFacts.
Context `{ImageBackend}.

(** A format the model's projector reads, and the pixels of the data. *)
Record accepted_image (max_dimension : Z) (image : DecodedImage) : Prop := {
  accepted_not_svg : is_svg (data image) = false;
  accepted_format : exists format, guess_format (data image) = Ok format /\ passes_through format = true;
  accepted_pixels : exists pixels,
    load_from_memory (data image) = Ok pixels /\
    image_width pixels <= max_dimension /\ image_height pixels <= max_dimension;
}.

(** Text does not start with the first byte of a PNG or a JPEG. *)
Lemma signature_not_svg (a : ascii) (rest : string) :
  a = "137"%char \/ a = "255"%char -> is_svg (String a rest) = false.
Proof. intros [-> | ->]; reflexivity. Qed.

Lemma encoded_accepted (max_dimension : Z) (pixels : DynamicImage) (f : ImageFormat) (s : string) :
  write_to pixels f = Ok s -> f = Png \/ f = Jpeg ->
  image_width pixels <= max_dimension -> image_height pixels <= max_dimension ->
  accepted_image max_dimension {| data := s |}.
Proof.
  intros Hwrite Hf Hwidth Hheight. split; simpl.
  - destruct Hf as [-> | ->].
    + destruct (write_png_signature _ _ Hwrite) as [rest ->]. apply signature_not_svg. auto.
    + destruct (write_jpeg_signature _ _ Hwrite) as [rest ->]. apply signature_not_svg. auto.
  - exists f. split; [by eapply write_to_format|]. unfold passes_through.
    destruct Hf as [-> | ->].
    + by rewrite (bool_decide_eq_true_2 (Png = Png)) by done.
    + by rewrite (bool_decide_eq_true_2 (Jpeg = Jpeg)), orb_true_r by done.
  - destruct (write_to_load _ _ _ Hf Hwrite) as (pixels' & Hload & Hw & Hh).
    exists pixels'. rewrite Hw, Hh. by split_and!.
Qed.

Lemma accepted_stable (max_dimension : Z) (image : DecodedImage) :
  0 < max_dimension -> accepted_image max_dimension image ->
  prepared_for_inference max_dimension image = Ok image.
Proof.
  intros Hmax [Hsvg (format & Hformat & Hpasses) (pixels & Hload & Hw & Hh)].
  unfold prepared_for_inference, load_supported_image.
  rewrite (proj2 (Z.eqb_neq _ _)) by lia. rewrite Hsvg, Hformat, Hpasses. simpl.
  rewrite Hload. simpl. rewrite !(proj2 (Z.ltb_ge _ _)) by done. done.
Qed.

Lemma loaded_pass_through (max_dimension : Z) (data_ : string) (pixels : DynamicImage) :
  load_supported_image data_ max_dimension = Ok (pixels, PassThroughEligible) ->
  is_svg data_ = false /\
  (exists format, guess_format data_ = Ok format /\ passes_through format = true) /\
  load_from_memory data_ = Ok pixels.
Proof.
  unfold load_supported_image. intros Hload. destruct (is_svg data_).
  { by destruct (rasterize_svg_to_dynamic_image _ _). }
  destruct (guess_format data_) as [format|] eqn:Hformat; [|done].
  destruct (passes_through format) eqn:Hpasses; simpl in Hload.
  - destruct (load_from_memory data_); [|done]. simplify_eq. eauto.
  - destruct (reading_enabled format); simpl in Hload; [|done].
    by destruct (load_from_memory data_).
Qed.

(** A prepared image is one the projector reads: a PNG, JPEG, GIF or BMP
    that is not taken for an SVG, can be loaded, and is nowhere larger than the
    configured dimension; also when it was rasterized one pixel too large.
    Preparing it again changes nothing. *)
Theorem prepared_image_accepted (max_dimension : Z) (image prepared : DecodedImage)
    (Hmax : 0 <= max_dimension)
    (Hrun : prepared_for_inference max_dimension image = Ok prepared) :
  accepted_image max_dimension prepared /\
  prepared_for_inference max_dimension prepared = Ok prepared.
Proof.
  assert (Hpos : 0 < max_dimension).
  { unfold prepared_for_inference in Hrun. destruct (Z.eqb_spec max_dimension 0); [done|lia]. }
  assert (Haccepted : accepted_image max_dimension prepared);
    [|split; [done|by apply accepted_stable]].
  unfold prepared_for_inference in Hrun. rewrite (proj2 (Z.eqb_neq _ _)) in Hrun by lia.
  destruct (load_supported_image _ _) as [[pixels origin]|] eqn:Hload; [|done]. simpl in Hrun.
  destruct (_ || _) eqn:Hresize.
  - unfold encode_jpeg in Hrun. destruct (write_to _ _) as [s|] eqn:Hwrite; [|done].
    simplify_eq/=. destruct (image_resize_bounds pixels _ _ Hpos Hpos).
    by eapply encoded_accepted; [exact Hwrite|right|..].
  - apply orb_false_elim in Hresize as [Hw Hh]. apply Z.ltb_ge in Hw, Hh.
    destruct origin.
    + simplify_eq. destruct (loaded_pass_through _ _ _ Hload) as (Hsvg & Hformat & Hpixels).
      split; eauto.
    + unfold encode_png in Hrun. destruct (write_to _ _) as [s|] eqn:Hwrite; [|done].
      simplify_eq/=. by eapply encoded_accepted; [exact Hwrite|left|..].
Qed.

(** ** What preparing makes of an image

    Written without the code's branches: the pixels shown by some bytes, and
    the three ways an image is given to the projector. *)

Definition shows_pixels (max_dimension : Z) (bytes : string) (pixels : DynamicImage) : Prop :=
  if is_svg bytes then rasterize_svg_to_dynamic_image bytes max_dimension = Ok pixels
  else load_from_memory bytes = Ok pixels.

Definition fits (max_dimension : Z) (pixels : DynamicImage) : Prop :=
  image_width pixels <= max_dimension /\ image_height pixels <= max_dimension.

Definition native_format (bytes : string) : Prop :=
  is_svg bytes = false /\
  exists format, guess_format bytes = Ok format /\ format ∈ [Png; Jpeg; Gif; Bmp].

Inductive prepared_as (max_dimension : Z) (bytes : string) : DecodedImage -> Prop :=
| kept_as_it_is pixels :
    shows_pixels max_dimension bytes pixels -> fits max_dimension pixels -> native_format bytes ->
    prepared_as max_dimension bytes {| data := bytes |}
| made_png pixels png :
    shows_pixels max_dimension bytes pixels -> fits max_dimension pixels -> ~ native_format bytes ->
    write_to pixels Png = Ok png -> prepared_as max_dimension bytes {| data := png |}
| made_smaller pixels jpeg :
    shows_pixels max_dimension bytes pixels -> ~ fits max_dimension pixels ->
    write_to (image_resize pixels max_dimension max_dimension) Jpeg = Ok jpeg ->
    prepared_as max_dimension bytes {| data := jpeg |}.

(** A data URI: what comes before the first comma, and its payload, the base64
    of some bytes. *)
Inductive data_uri : ImageUrl -> string -> Prop :=
| data_uri_of header payload bytes :
    ","%char ∉ String.list_ascii_of_string header -> base64_decode payload = Ok bytes ->
    data_uri {| image_url := "data:" +:+ header +:+ "," +:+ payload |} bytes.

Lemma after_comma_spec (s rest : string) :
  after_comma s = Some rest ->
  exists header, s = header +:+ "," +:+ rest /\ ","%char ∉ String.list_ascii_of_string header.
Proof.
  induction s as [|a s IH]; simpl; [done|]. case_bool_decide as Ha.
  - intros [= ->]. exists "". rewrite Ha. split; [done|]. apply not_elem_of_nil.
  - intros (header & -> & Hh)%IH. exists (String a header). split; [done|]. simpl.
    apply not_elem_of_cons. split; [by symmetry|done].
Qed.

Lemma strip_string_prefix_spec (prefix s rest : string) :
  strip_string_prefix prefix s = Some rest -> s = prefix +:+ rest.
Proof.
  revert s. induction prefix as [|a prefix IH]; intros s; [by intros [= ->]|].
  destruct s as [|b s]; [done|]. simpl. case_bool_decide as Ha; [|done]. subst.
  by intros ->%IH.
Qed.

Lemma from_data_uri_reads (image : ImageUrl) (decoded : DecodedImage) :
  from_data_uri image = Ok decoded -> data_uri image (data decoded).
Proof.
  unfold from_data_uri. destruct image as [url]. cbn [image_url].
  destruct (strip_string_prefix "data:" url) as [after_data|] eqn:Hs; [|done].
  destruct (after_comma after_data) as [payload|] eqn:Hc; [|done].
  destruct (base64_decode payload) as [bytes|] eqn:Hb; [|done]. intros [= <-].
  apply strip_string_prefix_spec in Hs as ->.
  apply after_comma_spec in Hc as (header & -> & Hh). by constructor.
Qed.

Lemma passes_through_native (bytes : string) (format : ImageFormat) :
  is_svg bytes = false -> guess_format bytes = Ok format ->
  native_format bytes <-> passes_through format = true.
Proof.
  intros Hsvg Hformat. unfold passes_through, native_format.
  rewrite !orb_true_iff, !bool_decide_eq_true. split.
  - intros [_ (format' & Hf & Hin)]. rewrite Hformat in Hf. simplify_eq.
    repeat setoid_rewrite elem_of_cons in Hin. rewrite elem_of_nil in Hin. tauto.
  - intros Hin. split; [done|]. exists format. split; [done|].
    repeat rewrite elem_of_cons. tauto.
Qed.

Lemma load_supported_image_shows (max_dimension : Z) (bytes : string) (pixels : DynamicImage)
    (origin : LoadedImageOrigin) :
  load_supported_image bytes max_dimension = Ok (pixels, origin) ->
  shows_pixels max_dimension bytes pixels /\
  match origin with
  | PassThroughEligible => native_format bytes
  | NeedsReencode => ~ native_format bytes
  end.
Proof.
  unfold load_supported_image, shows_pixels. destruct (is_svg bytes) eqn:Hsvg.
  - destruct (rasterize_svg_to_dynamic_image _ _); simpl; [|done]. intros [= -> <-].
    split; [done|]. intros [Hno _]. congruence.
  - destruct (guess_format bytes) as [format|] eqn:Hformat; [|done].
    pose proof (passes_through_native bytes format Hsvg Hformat) as Hnative.
    destruct (passes_through format); simpl; [|destruct (reading_enabled format); simpl; [|done]];
      (destruct (load_from_memory bytes); [|done]); intros [= -> <-]; (split; [done|]).
    + by apply Hnative.
    + intros Hn%Hnative. done.
Qed.

Lemma prepared_for_inference_prepares (max_dimension : Z) (image prepared : DecodedImage) :
  prepared_for_inference max_dimension image = Ok prepared ->
  prepared_as max_dimension (data image) prepared.
Proof.
  unfold prepared_for_inference. destruct (_ =? 0); [done|].
  destruct (load_supported_image _ _) as [[pixels origin]|] eqn:Hload; [|done]. simpl.
  apply load_supported_image_shows in Hload as [Hshows Horigin].
  destruct (_ || _) eqn:Hlarge.
  - unfold encode_jpeg. destruct (write_to _ _) as [jpeg|] eqn:Hw; [|done]. intros [= <-].
    apply (made_smaller _ _ pixels); [done| |done]. unfold fits. intros [H1 H2].
    apply orb_true_iff in Hlarge as [Hl%Z.ltb_lt|Hl%Z.ltb_lt]; lia.
  - apply orb_false_elim in Hlarge as [H1%Z.ltb_ge H2%Z.ltb_ge]. destruct origin.
    + intros [= <-]. destruct image. by apply (kept_as_it_is _ _ pixels).
    + unfold encode_png. destruct (write_to _ _) as [png|] eqn:Hw; [|done]. intros [= <-].
      by apply (made_png _ _ pixels).
Qed.

End ImageFacts.

(** ** A concrete backend

    An image is its width and height, written as that many letters. *)

Fixpoint count_letter (a : ascii) (s : string) : nat :=
  match s with
  | EmptyString => 0
  | String b rest => (if Ascii.eqb a b then 1 else 0) + count_letter a rest
  end.

Fixpoint letters (a : ascii) (n : nat) : string :=
  match n with O => EmptyString | S n' => String a (letters a n') end.

Definition plain_encoded (f : bool) (w h : nat) : string :=
  String (if f then "137"%char else "255"%char) (letters "w"%char w +:+ letters "h"%char h).

Lemma count_letter_app (a : ascii) (s s' : string) :
  count_letter a (s +:+ s') = (count_letter a s + count_letter a s')%nat.
Proof. induction s as [|b s IH]; simpl; [done|]. rewrite IH. lia. Qed.

Lemma count_letters (a b : ascii) (n : nat) :
  count_letter a (letters b n) = if Ascii.eqb a b then n else 0%nat.
Proof.
  induction n as [|n IH]; simpl; [by destruct (Ascii.eqb a b)|]. rewrite IH.
  by destruct (Ascii.eqb a b).
Qed.

Definition plain_guess_format (s : string) : result bool string :=
  match s with
  | String a _ =>
      if Ascii.eqb a "137" then Ok true
      else if Ascii.eqb a "255" then Ok false
      else Err "The image format could not be determined"%string
  | EmptyString => Err "The image format could not be determined"%string
  end.

#[local] Obligation Tactic := idtac.

#[export] Program Instance plain_images : ImageBackend := {
  base64_decode s := Ok s;
  DynamicImage := nat * nat;
  ImageFormat := bool;
  format_eq_dec := bool_eq_dec;
  Png := true;
  Jpeg := false;
  Gif := false;
  Bmp := false;
  reading_enabled _ := true;
  debug_format _ := "";
  guess_format := plain_guess_format;
  load_from_memory s := Ok (count_letter "w"%char s, count_letter "h"%char s);
  image_width image := Z.of_nat (fst image);
  image_height image := Z.of_nat (snd image);
  image_resize image w h := (Nat.min (fst image) (Z.to_nat w), Nat.min (snd image) (Z.to_nat h));
  write_to image f := Ok (plain_encoded f (fst image) (snd image));
  rgba_from_raw w h _ := Some (Z.to_nat w, Z.to_nat h);
  SvgTree := unit;
  Pixmap := unit;
  svg_from_data _ := Ok tt;
  svg_tree_width _ := binary_normalize 24 128 1159 0 false;
  svg_tree_height _ := binary_normalize 24 128 20 0 false;
  pixmap_new _ _ := Some tt;
  svg_render _ _ _ pixmap := pixmap;
  pixmap_data _ := EmptyString;
  display_f64 _ := EmptyString;
}.
Next Obligation. intros [w0 h0] w h Hw Hh. cbn -[Nat.min]. split; lia. Qed.
Next Obligation. intros image f s Hf. simpl. intros [= <-]. by destruct f. Qed.
Next Obligation.
  intros [w h] f s Hf. simpl. intros [= <-]. eexists. split; [reflexivity|]. simpl.
  rewrite !count_letter_app, !count_letters. by destruct f; simpl; rewrite Nat.add_0_r.
Qed.
Next Obligation. intros image s [= <-]. by eexists. Qed.
Next Obligation. intros image s [= <-]. by eexists. Qed.

(** The size of an SVG is scaled in binary64: an SVG 1159 units wide, made to
    fit in 1000, becomes 1001 pixels wide. *)
Example svg_rasterized_too_large :
  compute_target_dimension (f64_of_Z 1159) (svg_scale 1000 (f64_of_Z 1159) (f64_of_Z 20)) = Ok 1001.
Proof. vm_compute. reflexivity. Qed.

(** As the tests of the source have it. *)
Example target_dimension_rounds_up :
  compute_target_dimension (f64_of_Z 100) (S754_finite false 4503599627370496 (-53)) = Ok 50 /\
  compute_target_dimension (f64_of_Z 101) (S754_finite false 4503599627370496 (-53)) = Ok 51.
Proof. vm_compute. split; reflexivity. Qed.

(** So the rasterized image goes through the path that resizes, and comes out
    as a JPEG. *)
Lemma prepared_image_accepted_witness :
  exists prepared,
    prepared_for_inference 1000 {| data := "<svg/>" |} = Ok prepared /\
    guess_format (data prepared) = Ok Jpeg /\ accepted_image 1000 prepared.
Proof.
  destruct (prepared_for_inference 1000 {| data := "<svg/>" |}) as [prepared|] eqn:Hrun;
    [|vm_compute in Hrun; discriminate Hrun].
  exists prepared. split; [reflexivity|]. split.
  - vm_compute in Hrun. injection Hrun as <-. reflexivity.
  - apply (prepared_image_accepted 1000 {| data := "<svg/>" |} prepared); [lia|exact Hrun].
Defined.
