(* ===== verification/Conversation.v ===== *)
(** * Accepting a conversation

    [prepare_conversation_history_request.rs] with
    [prepared_conversation_history_request.rs], and
    [accept_conversation_history_request] of [continuous_batch_scheduler]: the
    grammar is resolved, the images of the conversation are decoded and
    prepared, the chat template is rendered with a marker for every image, and
    the prompt is accepted as text or as a multimodal prompt.

    The template engine and the marker of [mtmd] are not part of the
    repository: they are the class [ChatTemplates]. *)

From S2P Require Import Prelude.
From S2P Require Import Tokio.
From S2P Require Import Messages.
From S2P Require Import AtomicValue.
From S2P Require Import Requests.
From S2P Require Import SlotStatus.
From S2P Require Import ToolCalls.
From S2P Require Import Llama.
From S2P Require Import Scheduler.
From S2P Require Import SchedulerCommands.
From S2P Require Import Images.
From S2P Require Import SchedulerBatch.
From S2P Require Import SchedulerStreams.
From S2P Require Import SchedulerLifecycle.
Local Open Scope Z_scope.

(** The [context!] a template is rendered with. *)
Record TemplateContext `{JsonTypes} : Type := {
  context_add_generation_prompt : bool;
  bos_token : string;
  context_enable_thinking : bool;
  eos_token : string;
  context_messages : list ChatTemplateMessage;
  nl_token : string;
  context_tools : list (Tool ValidatedParametersSchema);
}.

Class ChatTemplates `{JsonTypes} : Type := {
  ChatTemplateRenderer : Type;
  (** the error is what [{:?}] prints of it *)
  render : ChatTemplateRenderer -> TemplateContext -> result string string;
  mtmd_default_marker : result string string;
}.

Section Conversation.
Context `{JsonTypes} `{LlamaTypes} `{!ToolCallBackend} `{!LlamaBackend} `{!MultimodalBackend}.
Context `{!ImageBackend} `{!ChatTemplates}.
Context {chan : Type -> Type} `{!UnboundedChannel chan}.
Context {sender receiver : Type} `{!WatchChannel sender receiver}.

Notation Scheduler := (ContinuousBatchScheduler (chan := chan) (sender := sender)).
Notation Channels := (gmap nat (chan GeneratedTokenResult)).
Notation Params := (ContinueFromConversationHistoryParams ValidatedParametersSchema).

(** The other fields of [ContinuousBatchSchedulerContext] that a conversation
    needs. *)
Record ConversationContext : Type := {
  scheduler_context : ContinuousBatchSchedulerContext;
  chat_template_renderer : option ChatTemplateRenderer;
  token_bos_str : string;
  token_eos_str : string;
  token_nl_str : string;
}.

Inductive PreparedConversationHistoryRequest : Type :=
| TextPrompt (prompt : string) (limit : Z) (g : option GrammarSampler) (parse : bool)
    (prompt_tools : list (Tool ValidatedParametersSchema))
| MultimodalPrompt (prompt : string) (images : list DecodedImage) (limit : Z)
    (g : option GrammarSampler) (parse : bool)
    (prompt_tools : list (Tool ValidatedParametersSchema)).

(** [send_generated_token_result_or_warn] on the store of channels. *)
Definition tell (tx : nat) (event : GeneratedTokenResult) (m : Channels) : Channels :=
  fst (send_event tx event m).

Definition decode_image (c : ConversationContext) (image : ImageUrl)
    : result DecodedImage DecodedImageError :=
  let? decoded := from_data_uri image in
  prepared_for_inference
    (image_resize_to_fit (context_inference_parameters (scheduler_context c))) decoded.

(** Collecting stops at the first error. *)
Fixpoint decode_images (c : ConversationContext) (images : list ImageUrl)
    : result (list DecodedImage) DecodedImageError :=
  match images with
  | [] => Ok []
  | image :: rest =>
      let? decoded := decode_image c image in
      let? others := decode_images c rest in
      Ok (decoded :: others)
  end.

(** The agent's name is printed as an [Option<String>]. *)
Definition context_name (c : ConversationContext) : string :=
  debug_agent_name (scheduler_context c).

Definition require_renderer_for_generation (c : ConversationContext) (tx : nat) (m : Channels)
    : Channels * result ChatTemplateRenderer string :=
  match chat_template_renderer c with
  | None =>
      let message := context_name c
        +:+ ": token generation is disabled because this agent is running in embeddings-only mode" in
      (tell tx (TokenGenerationDisabled message) m, Err message)
  | Some renderer => (m, Ok renderer)
  end.

Definition template_context (c : ConversationContext) (params : Params)
    (chat_template_messages : ChatTemplateMessages) : TemplateContext :=
  {| context_add_generation_prompt := add_generation_prompt params;
     bos_token := token_bos_str c;
     context_enable_thinking := enable_thinking params;
     eos_token := token_eos_str c;
     context_messages := template_messages chat_template_messages;
     nl_token := token_nl_str c;
     context_tools := tools params |}.

(** From the rendered prompt on. *)
Definition prepare_prompt (c : ConversationContext) (params : Params) (g : option GrammarSampler)
    (images : list DecodedImage) (prompt : string) (tx : nat) (m : Channels)
    : Channels * result PreparedConversationHistoryRequest string :=
  let has_images := match images with [] => false | _ :: _ => true end in
  let has_multimodal_context :=
    match multimodal_context (scheduler_context c) with Some _ => true | None => false end in
  if has_images && negb has_multimodal_context then
    let message :=
      context_name c +:+ ": received images but model does not support multimodal input" in
    (tell tx (MultimodalNotSupported message) m, Err message)
  else if has_images then
    (m, Ok (MultimodalPrompt prompt images (history_max_tokens params) g (parse_tool_calls params)
              (tools params)))
  else
    (m, Ok (TextPrompt prompt (history_max_tokens params) g (parse_tool_calls params)
              (tools params))).

(** From the decoded images on. *)
Definition render_conversation (c : ConversationContext) (params : Params)
    (g : option GrammarSampler) (images : list DecodedImage) (tx : nat) (m : Channels)
    : Channels * result PreparedConversationHistoryRequest string :=
  match mtmd_default_marker with
  | Err err => (m, Err err)
  | Ok default_marker =>
      let chat_template_messages :=
        replace_images_with_marker (conversation_history params) {| marker := default_marker |} in
      match require_renderer_for_generation c tx m with
      | (m, Err err) => (m, Err err)
      | (m, Ok renderer) =>
          match render renderer (template_context c params chat_template_messages) with
          | Err err =>
              let message := context_name c +:+ ": failed to render chat template: " +:+ err in
              (tell tx (ChatTemplateError message) m, Err message)
          | Ok prompt => prepare_prompt c params g images prompt tx m
          end
      end
  end.

Definition prepare_conversation_history_request (c : ConversationContext) (params : Params)
    (tx : nat) (m : Channels) : Channels * result PreparedConversationHistoryRequest string :=
  match resolve_grammar (history_grammar params) (enable_thinking params) tx m with
  | (m, Err err) => (m, Err err)
  | (m, Ok g) =>
      match decode_images c (extract_image_urls (conversation_history params)) with
      | Err err =>
          let message := context_name c +:+ ": failed to decode images: " +:+ image_error_text err in
          (tell tx (ImageDecodingFailed message) m, Err message)
      | Ok images => render_conversation c params g images tx m
      end
  end.

(** An error of the preparation is logged, and the request dropped. *)
Definition accept_conversation_history_request (c : ConversationContext) (seed : Z)
    (params : Params) (tx : nat) (stop_rx : StopSignal) (s : Scheduler) : Scheduler :=
  match prepare_conversation_history_request c params tx (client_channels s) with
  | (m, Err _) => drop_request (put_channels m s)
  | (m, Ok (TextPrompt prompt limit g parse prompt_tools)) =>
      fst (accept_text_prompt (scheduler_context c) seed prompt g parse prompt_tools
             {| submitted_tx := tx; submitted_stop_rx := stop_rx; submitted_max_tokens := limit |}
             (put_channels m s))
  | (m, Ok (MultimodalPrompt prompt images limit g parse prompt_tools)) =>
      match multimodal_context (scheduler_context c) with
      | None => drop_request (put_channels m s)
      | Some multimodal =>
          fst (accept_multimodal_request (scheduler_context c) seed multimodal prompt images g parse
                 prompt_tools
                 {| submitted_tx := tx; submitted_stop_rx := stop_rx;
                    submitted_max_tokens := limit |} (put_channels m s))
      end
  end.

(** ** What preparing does *)

(** A failure told the client with one last result, or nothing at all. *)
Definition rejected_once (tx : nat) (m m' : Channels) : Prop :=
  m' = m \/ exists e, is_done e = true /\ m' = tell tx e m.

Lemma rejected_with (tx : nat) (e : GeneratedTokenResult) (m : Channels) :
  is_done e = true -> rejected_once tx m (tell tx e m).
Proof. intros He. right. by exists e. Qed.

(** The image of a URL: what the URL encodes, prepared for the projector. *)
Definition image_of_url (c : ConversationContext) (url : ImageUrl) (image : DecodedImage) : Prop :=
  let fit := image_resize_to_fit (context_inference_parameters (scheduler_context c)) in
  exists bytes, data_uri url bytes /\ prepared_as fit bytes image /\ accepted_image fit image.

Lemma decode_images_accepted (c : ConversationContext) (urls : list ImageUrl)
    (images : list DecodedImage) :
  0 <= image_resize_to_fit (context_inference_parameters (scheduler_context c)) ->
  decode_images c urls = Ok images -> Forall2 (image_of_url c) urls images.
Proof.
  intros Hfit. revert images. induction urls as [|url urls IH]; intros images; simpl.
  { intros [= <-]. constructor. }
  unfold decode_image. destruct (from_data_uri url) as [decoded|] eqn:Huri; simpl; [|done].
  destruct (prepared_for_inference _ decoded) as [prepared|] eqn:Hprepared; simpl; [|done].
  destruct (decode_images c urls) as [others|]; simpl; [|done]. intros [= <-].
  constructor; [|by apply IH]. exists (data decoded). split_and!.
  - by apply from_data_uri_reads.
  - by apply prepared_for_inference_prepares.
  - by eapply prepared_image_accepted.
Qed.

(** What a prepared request is made of. *)
Definition prepared_from (c : ConversationContext) (params : Params)
    (prepared : PreparedConversationHistoryRequest) : Prop :=
  exists g images renderer default_marker prompt,
    decode_images c (extract_image_urls (conversation_history params)) = Ok images /\
    chat_template_renderer c = Some renderer /\ mtmd_default_marker = Ok default_marker /\
    render renderer
      (template_context c params
         (replace_images_with_marker (conversation_history params) {| marker := default_marker |}))
    = Ok prompt /\
    prepared
    = match images with
      | [] => TextPrompt prompt (history_max_tokens params) g (parse_tool_calls params) (tools params)
      | _ :: _ =>
          MultimodalPrompt prompt images (history_max_tokens params) g (parse_tool_calls params)
            (tools params)
      end /\
    (images <> [] -> is_Some (multimodal_context (scheduler_context c))).

Lemma prepare_prompt_spec (c : ConversationContext) (params : Params) (g : option GrammarSampler)
    (images : list DecodedImage) (prompt : string) (tx : nat) (m m' : Channels)
    (o : result PreparedConversationHistoryRequest string) :
  prepare_prompt c params g images prompt tx m = (m', o) ->
  match o with
  | Err _ => rejected_once tx m m'
  | Ok prepared =>
      m' = m /\
      prepared
      = match images with
        | [] => TextPrompt prompt (history_max_tokens params) g (parse_tool_calls params) (tools params)
        | _ :: _ =>
            MultimodalPrompt prompt images (history_max_tokens params) g (parse_tool_calls params)
              (tools params)
        end /\
      (images <> [] -> is_Some (multimodal_context (scheduler_context c)))
  end.
Proof.
  unfold prepare_prompt. destruct images as [|image images]; simpl.
  { intros [= <- <-]. by split_and!. }
  destruct (multimodal_context (scheduler_context c)) as [multimodal|] eqn:Hm; simpl; intros [= <- <-].
  - by split_and!.
  - by apply rejected_with.
Qed.

Lemma prepare_spec (c : ConversationContext) (params : Params) (tx : nat) (m m' : Channels)
    (o : result PreparedConversationHistoryRequest string) :
  prepare_conversation_history_request c params tx m = (m', o) ->
  match o with
  | Err _ => rejected_once tx m m'
  | Ok prepared => m' = m /\ prepared_from c params prepared
  end.
Proof.
  unfold prepare_conversation_history_request.
  destruct (resolve_grammar _ _ _ _) as [m1 [g|err]] eqn:Hg; apply resolve_grammar_spec in Hg.
  2: { intros [= <- <-]. by right. }
  subst m1. destruct (decode_images _ _) as [images|err] eqn:Himages.
  2: { intros [= <- <-]. by apply rejected_with. }
  unfold render_conversation. destruct mtmd_default_marker as [default_marker|err] eqn:Hmarker.
  2: { intros [= <- <-]. by left. }
  unfold require_renderer_for_generation.
  destruct (chat_template_renderer c) as [renderer|] eqn:Hrenderer.
  2: { intros [= <- <-]. by apply rejected_with. }
  destruct (render _ _) as [prompt|err] eqn:Hrender.
  2: { intros [= <- <-]. by apply rejected_with. }
  intros Hprepare. apply prepare_prompt_spec in Hprepare. destruct o as [prepared|err]; [|done].
  destruct Hprepare as (-> & Hprepared & Hsome). split; [done|].
  by exists g, images, renderer, default_marker, prompt.
Qed.

Lemma rejected_inv (ids : list Z) (open : list nat) (guards tx : nat) (m' : Channels)
    (s : Scheduler) :
  rejected_once tx (client_channels s) m' ->
  scheduler_inv ids [] (tx :: open) (S guards) s -> own_logits s ->
  accepted_inv ids open guards (drop_request (put_channels m' s)).
Proof.
  intros Hrejected Hi Ho. split; [|exact Ho]. apply scheduler_inv_drop.
  destruct Hrejected as [-> | (e & _ & ->)].
  - apply scheduler_inv_forget in Hi. destruct Hi. by split.
  - by apply (scheduler_inv_answer _ _ _ _ _ e) in Hi.
Qed.

Lemma accept_conversation_inv (ids : list Z) (open : list nat) (guards tx : nat)
    (c : ConversationContext) (seed : Z) (params : Params) (stop_rx : StopSignal) (s : Scheduler) :
  scheduler_inv ids [] (tx :: open) (S guards) s -> own_logits s ->
  accepted_inv ids open guards (accept_conversation_history_request c seed params tx stop_rx s).
Proof.
  intros Hi Ho. unfold accept_conversation_history_request.
  destruct (prepare_conversation_history_request _ _ _ _) as [m [prepared|err]] eqn:Hprepare;
    apply prepare_spec in Hprepare; [|by eapply rejected_inv].
  destruct Hprepare as [-> Hfrom].
  assert (Hi' : scheduler_inv ids [] (tx :: open) (S guards) (put_channels (client_channels s) s))
    by (destruct Hi; by split).
  destruct prepared.
  - by apply accept_text_prompt_inv.
  - destruct (multimodal_context _); [by apply accept_multimodal_inv|].
    eapply rejected_inv; [by left|done|done].
Qed.

(** C30. A conversation is prepared as the client wrote it.  When preparing
    succeeds nothing was sent, and the prompt is what the agent's template gives
    for exactly these messages: the roles and the texts of the conversation, a
    part with the default marker in the place of every image, with the options
    and the tools of the request and the tokens of the model.  The images are
    those met on the way, one for every marker and in their order, each the
    bytes its data URI encodes in base64 after the first comma, kept as they
    are (PNG, JPEG, GIF, BMP that fit), or made a PNG, or made smaller as a
    JPEG; each is one the projector reads, within the configured dimension.
    There are images only if the model has a projector, and a conversation
    without images becomes a text prompt.  When preparing fails, the client is
    told at most once, by a result that ends its stream. *)
Theorem conversation_prepared (c : ConversationContext) (params : Params) (tx : nat)
    (m m' : Channels) (o : result PreparedConversationHistoryRequest string)
    (Hfit : 0 <= image_resize_to_fit (context_inference_parameters (scheduler_context c)))
    (Hrun : prepare_conversation_history_request c params tx m = (m', o)) :
  match o with
  | Err _ => rejected_once tx m m'
  | Ok prepared =>
      m' = m /\
      exists renderer default_marker shown urls images prompt g,
        chat_template_renderer c = Some renderer /\ mtmd_default_marker = Ok default_marker /\
        shown_messages default_marker (messages (conversation_history params)) shown urls /\
        Forall2 (image_of_url c) urls images /\
        render renderer
          {| context_add_generation_prompt := add_generation_prompt params;
             bos_token := token_bos_str c;
             context_enable_thinking := enable_thinking params;
             eos_token := token_eos_str c;
             context_messages := shown;
             nl_token := token_nl_str c;
             context_tools := tools params |} = Ok prompt /\
        (images <> [] -> is_Some (multimodal_context (scheduler_context c))) /\
        prepared
        = match images with
          | [] =>
              TextPrompt prompt (history_max_tokens params) g (parse_tool_calls params)
                (tools params)
          | _ :: _ =>
              MultimodalPrompt prompt images (history_max_tokens params) g
                (parse_tool_calls params) (tools params)
          end
  end.
Proof.
  apply prepare_spec in Hrun. destruct o as [prepared|err]; [|done].
  destruct Hrun as [-> (g & images & renderer & default_marker & prompt & Himages & Hrenderer
                        & Hmarker & Hrender & Hprepared & Hsome)].
  split; [done|].
  exists renderer, default_marker,
    (template_messages
       (replace_images_with_marker (conversation_history params) {| marker := default_marker |})),
    (extract_image_urls (conversation_history params)), images, prompt, g.
  split_and!; try done.
  - apply (replace_images_shows (conversation_history params) {| marker := default_marker |}).
  - by apply decode_images_accepted.
Qed.

End Conversation.

(** ** A concrete template

    The template prints the texts of the messages. *)

Definition plain_text (message : ChatTemplateMessage) : string :=
  match template_content message with
  | TemplateText text => text
  | TemplateParts parts => foldr String.app ""%string (map template_text parts)
  end.

#[export] Instance plain_templates `{JsonTypes} : ChatTemplates := {
  ChatTemplateRenderer := unit;
  render _ c := Ok (foldr String.app ""%string (map plain_text (context_messages c)));
  mtmd_default_marker := Ok "<__media__>"%string;
}.

(** An image of two by one, as the plain backend encodes it. *)
Definition sample_image_url : ImageUrl :=
  {| image_url := "data:image/png;base64," +:+ plain_encoded true 2 1 |}.

Definition sample_conversation : ContinueFromConversationHistoryParams ValidatedParametersSchema :=
  {| add_generation_prompt := true;
     conversation_history :=
       {| messages := [{| message_content := PartsContent [TextPart "look: "; ImageUrlPart sample_image_url];
                          role := "user" |}] |};
     enable_thinking := false;
     history_grammar := None;
     history_max_tokens := 5;
     parse_tool_calls := false;
     tools := [] |}.

Definition sample_conversation_context : ConversationContext :=
  {| scheduler_context :=
       {| agent_name := None; context_inference_parameters := inference_parameters_default;
          multimodal_context := Some tt |};
     chat_template_renderer := Some tt;
     token_bos_str := "<s>"; token_eos_str := "</s>"; token_nl_str := "." |}.

Lemma conversation_prepared_witness :
  exists shown images,
    prepare_conversation_history_request (chan := QueueChannel) sample_conversation_context
      sample_conversation 1 ∅
    = (∅, Ok (MultimodalPrompt "look: <__media__>" images 5 None false [])) /\
    shown_messages "<__media__>" (messages (conversation_history sample_conversation)) shown
      [sample_image_url] /\
    Forall2 (image_of_url sample_conversation_context) [sample_image_url] images.
Proof.
  destruct (prepare_conversation_history_request (chan := QueueChannel) sample_conversation_context
              sample_conversation 1 ∅) as [m' o] eqn:Hrun.
  pose proof (conversation_prepared sample_conversation_context sample_conversation 1 ∅ m' o
                ltac:(vm_compute; discriminate) Hrun) as Hprepared.
  assert (Ho : exists images, o = Ok (MultimodalPrompt "look: <__media__>" images 5 None false [])).
  { change o with (snd (m', o)). rewrite <- Hrun. eexists. vm_compute. reflexivity. }
  destruct Ho as [images ->].
  destruct Hprepared as (-> & renderer & mark & shown & urls & images' & prompt & g & _ & Hmark
                         & Hshown & Himages & _ & _ & Heq).
  injection Hmark as <-.
  assert (urls = [sample_image_url]) as ->.
  { inversion Hshown as [|? ? ? ? ? ? ? Hc Hrest]; subst. inversion Hrest; subst.
    inversion Hc as [|? ? ? Hp]; subst. inversion Hp as [|? ? ? ? Hp'|]; subst.
    inversion Hp' as [| |? ? ? ? Hp'']; subst. by inversion Hp''; subst. }
  assert (images' = images) as ->.
  { destruct images'; [discriminate Heq|]. injection Heq as _ Hi. by symmetry. }
  exists shown, images. split; [reflexivity|]. by split.
Defined.
