(* ===== verification/SchedulerSystem.v ===== *)
(** * The continuous batch scheduler as a transition system

    Everything that happens to a scheduler, in any order: submissions, clients
    that hang up or ask to stop, and the phases of its loop.  The theorems hold
    in every state it reaches; the phases the loop runs terminate. *)

From S2P Require Import Prelude Tokio Messages AtomicValue Requests TokenThroughput SlotStatus.
From S2P Require Import ToolCalls Llama Scheduler SchedulerCommands SchedulerBatch.
From S2P Require Import SchedulerStreams SchedulerLifecycle.
From S2P Require Import Images.
From S2P Require Import Conversation.
Local Open Scope Z_scope.

Section SchedulerSystem.
Context `{JsonTypes} `{LlamaTypes} `{!ToolCallBackend} `{!LlamaBackend} `{!MultimodalBackend}.
Context `{!ImageBackend} `{!ChatTemplates}.
Context {chan : Type -> Type} `{!UnboundedChannel chan}.
Context {sender receiver : Type} `{!WatchChannel sender receiver}.

Notation Request := ContinuousBatchActiveRequest.
Notation Channels := (gmap nat (chan GeneratedTokenResult)).
Notation Scheduler := (ContinuousBatchScheduler (chan := chan) (sender := sender)).

(** ** Stop signals and removal *)

Lemma check_stop_signal_spec (ctx : LlamaContext) (r : Request) :
  moved r (check_stop_signal r) /\
  (reads_own_logits ctx r -> reads_own_logits ctx (check_stop_signal r)).
Proof.
  unfold check_stop_signal, is_stop_requested.
  destruct (request_completed r); [by split|].
  assert (Hdone : forall r', same_request r r' ->
    moved r (complete_with_outcome (Done (usage_summary r')) r') /\
    (reads_own_logits ctx r ->
     reads_own_logits ctx (complete_with_outcome (Done (usage_summary r')) r'))).
  { intros r' Hs. split.
    - eapply moved_trans; [by apply moved_same_request|by apply moved_complete].
    - intros _. apply settled_reads_own, settled_complete. }
  destruct (generate_tokens_stop_rx r); [by split|by apply Hdone..].
Qed.

Lemma check_stop_inv (ids held : list Z) (open : list nat) (guards : nat) (s : Scheduler) :
  scheduler_inv ids held open guards s -> own_logits s ->
  scheduler_inv ids held open guards (check_stop_signals s) /\ own_logits (check_stop_signals s).
Proof.
  intros Hi Ho. split.
  - eapply scheduler_inv_moved; [| | | |exact Hi]; simpl; try done; [|apply emits_refl].
    apply Forall2_fmap_r, Forall_Forall2_diag, Forall_forall. intros r _.
    apply (check_stop_signal_spec (llama_context s) r).
  - unfold own_logits in *. simpl. apply Forall_fmap. eapply Forall_impl; [exact Ho|].
    intros r. apply check_stop_signal_spec.
Qed.

(** The removal loop does not run out of fuel: every turn moves past a
    request or removes one. *)
Lemma remove_completed_loop_total (fuel index : nat) (s : Scheduler) :
  (length (active_requests s) < fuel + index)%nat -> (index <= length (active_requests s))%nat ->
  is_Some (remove_completed_loop fuel index s).
Proof.
  revert index s. induction fuel as [|fuel IH]; intros index s Hf Hi; [lia|]. simpl.
  destruct (active_requests s !! index) as [r|] eqn:Er; [|by eexists].
  destruct (request_completed r).
  - destruct (cleanup_spec index r s Er) as (Hp & _). apply Permutation_length in Hp. simpl in Hp.
    apply lookup_lt_Some in Er. apply IH; lia.
  - apply lookup_lt_Some in Er. apply IH; lia.
Qed.

(** An invariant that cleaning up keeps holds after the removal. *)
Lemma remove_completed_loop_ind (P : Scheduler -> Prop) (fuel index : nat) (s s' : Scheduler) :
  (forall i r s, active_requests s !! i = Some r -> request_completed r = true -> P s ->
   P (cleanup_completed_request i s)) ->
  remove_completed_loop fuel index s = Some s' -> P s -> P s'.
Proof.
  intros Hstep. revert index s. induction fuel as [|fuel IH]; intros index s; simpl; [done|].
  destruct (active_requests s !! index) as [r|] eqn:Er; [|by intros [= <-]].
  destruct (request_completed r) eqn:Ec; [|by apply IH].
  intros Hl Hp. by eapply IH, Hstep.
Qed.

Lemma remove_completed_inv (ids held : list Z) (open : list nat) (guards : nat) (s s' : Scheduler) :
  remove_completed_requests s = Some s' ->
  scheduler_inv ids held open guards s -> own_logits s ->
  scheduler_inv ids held open guards s' /\ own_logits s'.
Proof.
  intros E Hi Ho. unfold remove_completed_requests in E.
  apply (remove_completed_loop_ind (fun s => scheduler_inv ids held open guards s /\ own_logits s)
           _ _ _ _) in E; [done| |done].
  intros i r s1 Hr _ [H1' H2']. apply lookup_lt_Some in Hr.
  split; [by apply scheduler_inv_cleanup|by apply cleanup_own_logits].
Qed.

Lemma execute_inv (ids held : list Z) (open : list nat) (guards n_batch_ : nat)
    (clock : nat -> Z * Z) (s : Scheduler) :
  Z.of_nat n_batch_ <= i32_max -> scheduler_inv ids held open guards s ->
  scheduler_inv ids held open guards (fst (execute_one_iteration n_batch_ clock s)) /\
  own_logits (fst (execute_one_iteration n_batch_ clock s)).
Proof.
  intros Hn Hi. unfold execute_one_iteration.
  destruct (advance_generating_spec clock s) as (_ & Ha & Hs).
  destruct (iteration_loop _ _ _) as [s' o] eqn:E.
  by eapply iteration_loop_inv; [exact Hn|by apply Ha|exact Hs|exact E].
Qed.

(** ** The system

    A submission owns its channel and its slot guard; the commands wait in the
    order they were sent.  A batch of embeddings that waits only counts for
    its slot guard here. *)

Record SchedulerSystem : Type := {
  scheduler : Scheduler;
  submissions : list nat;
  waiting_embeddings : nat;
}.

Definition submit (tx : nat) (y : SchedulerSystem) : SchedulerSystem :=
  let s := scheduler y in
  {| scheduler := put_channels (<[tx := chan_new]> (client_channels s))
                    (put_status (slot_guard_new (slot_aggregated_status s)) s);
     submissions := submissions y ++ [tx];
     waiting_embeddings := waiting_embeddings y |}.

Definition submit_embedding (y : SchedulerSystem) : SchedulerSystem :=
  let s := scheduler y in
  {| scheduler := put_status (slot_guard_new (slot_aggregated_status s)) s;
     submissions := submissions y;
     waiting_embeddings := S (waiting_embeddings y) |}.

Definition with_scheduler (f : Scheduler -> Scheduler) (y : SchedulerSystem) : SchedulerSystem :=
  {| scheduler := f (scheduler y); submissions := submissions y;
     waiting_embeddings := waiting_embeddings y |}.

(** The scheduler takes the first submission. *)
Definition take_submission (f : nat -> Scheduler -> Scheduler) (y : SchedulerSystem)
    : SchedulerSystem :=
  match submissions y with
  | [] => y
  | tx :: rest =>
      {| scheduler := f tx (scheduler y); submissions := rest;
         waiting_embeddings := waiting_embeddings y |}
  end.

(** The scheduler is done with a batch of embeddings, and drops its guard. *)
Definition finish_embedding (f : Scheduler -> Scheduler) (y : SchedulerSystem) : SchedulerSystem :=
  match waiting_embeddings y with
  | O => y
  | S waiting =>
      {| scheduler := drop_request (f (scheduler y)); submissions := submissions y;
         waiting_embeddings := waiting |}
  end.

Inductive scheduler_step : SchedulerSystem -> SchedulerSystem -> Prop :=
| step_submit y tx :
    client_channels (scheduler y) !! tx = None -> scheduler_step y (submit tx y)
| step_hang_up y tx c c' :
    client_channels (scheduler y) !! tx = Some c ->
    chan_pending c' = chan_pending c -> chan_receiver_alive c' = false ->
    scheduler_step y
      (with_scheduler (fun s => put_channels (<[tx := c']> (client_channels s)) s) y)
| step_stop_signal y index x :
    scheduler_step y
      (with_scheduler
         (fun s => put_requests (alter (put_stop_signal x) index (active_requests s)) s) y)
| step_check_stop y : scheduler_step y (with_scheduler check_stop_signals y)
| step_remove y s' :
    remove_completed_requests (scheduler y) = Some s' ->
    scheduler_step y (with_scheduler (fun _ => s') y)
| step_text y c seed prompt g parse tools_ stop_rx max_tokens_ :
    scheduler_step y
      (take_submission
         (fun tx s =>
            fst (accept_text_prompt c seed prompt g parse tools_
                   {| submitted_tx := tx; submitted_stop_rx := stop_rx;
                      submitted_max_tokens := max_tokens_ |} s)) y)
| step_raw y c seed params stop_rx :
    scheduler_step y
      (take_submission (fun tx => accept_raw_prompt_request c seed params tx stop_rx) y)
| step_conversation y c seed params stop_rx :
    scheduler_step y
      (take_submission (fun tx => accept_conversation_history_request c seed params tx stop_rx) y)
| step_multimodal y c seed m prompt images g parse tools_ stop_rx max_tokens_ :
    scheduler_step y
      (take_submission
         (fun tx s =>
            fst (accept_multimodal_request c seed m prompt images g parse tools_
                   {| submitted_tx := tx; submitted_stop_rx := stop_rx;
                      submitted_max_tokens := max_tokens_ |} s)) y)
| step_submit_embedding y : scheduler_step y (submit_embedding y)
| step_embedding y ctx :
    has_active_requests (scheduler y) = false ->
    scheduler_step y (finish_embedding (put_context ctx) y)
| step_reject_embedding y : scheduler_step y (finish_embedding (fun s => s) y)
| step_abandon y : scheduler_step y (take_submission (fun _ => drop_request) y)
| step_iterate y n_batch_ clock :
    Z.of_nat n_batch_ <= i32_max ->
    scheduler_step y
      (with_scheduler (fun s => fst (execute_one_iteration n_batch_ clock s)) y)
| step_shut_down y :
    active_requests (scheduler y) <> [] ->
    scheduler_step y (with_scheduler (cleanup_completed_request 0) y).

Definition system_new (ctx : LlamaContext) (max_sequences : Z) (x : SlotAggregatedStatus sender)
    : SchedulerSystem :=
  {| scheduler := scheduler_new ctx max_sequences x; submissions := [];
     waiting_embeddings := 0 |}.

Definition guards_waiting (y : SchedulerSystem) : nat :=
  (length (submissions y) + waiting_embeddings y)%nat.

Definition system_inv (max_sequences : Z) (y : SchedulerSystem) : Prop :=
  scheduler_inv (seqZ 0 max_sequences) [] (submissions y) (guards_waiting y) (scheduler y) /\
  own_logits (scheduler y).

Lemma system_inv_new (ctx : LlamaContext) (max_sequences : Z) (x : SlotAggregatedStatus sender) :
  slots_processing x = 0 -> system_inv max_sequences (system_new ctx max_sequences x).
Proof.
  intros Hx. split; [|constructor]. split; simpl.
  - unfold sequence_id_pool_new. symmetry. apply Permutation_rev.
  - split; [constructor..|]. intros tx c. by rewrite lookup_empty.
  - constructor.
  - by rewrite Hx.
Qed.

Lemma take_submission_inv (max_sequences : Z) (f : nat -> Scheduler -> Scheduler)
    (y : SchedulerSystem) :
  (forall tx rest, submissions y = tx :: rest ->
   accepted_inv (seqZ 0 max_sequences) rest (length rest + waiting_embeddings y)
     (f tx (scheduler y))) ->
  system_inv max_sequences y -> system_inv max_sequences (take_submission f y).
Proof.
  intros Hf Hy. unfold take_submission. destruct (submissions y) as [|tx rest] eqn:E; [done|].
  by apply Hf.
Qed.

Lemma submit_inv (max_sequences : Z) (tx : nat) (y : SchedulerSystem) :
  client_channels (scheduler y) !! tx = None ->
  system_inv max_sequences y -> system_inv max_sequences (submit tx y).
Proof.
  intros Htx [[I1 I2 I3 I4] Ho]. split; [|exact Ho]. split; simpl; try done.
  - rewrite <- Permutation_cons_append. simpl. by apply streams_submit.
  - unfold i32_increment, guards_waiting. simpl. rewrite I4, wrap_i32_add, length_app.
    unfold guards_waiting. f_equal. simpl. lia.
Qed.

Lemma hang_up_inv (max_sequences : Z) (tx : nat) (c c' : chan GeneratedTokenResult)
    (y : SchedulerSystem) :
  client_channels (scheduler y) !! tx = Some c -> chan_pending c' = chan_pending c ->
  system_inv max_sequences y ->
  system_inv max_sequences
    (with_scheduler (fun s => put_channels (<[tx := c']> (client_channels s)) s) y).
Proof.
  intros Hc Hp [Hi Ho]. split; [|exact Ho].
  eapply scheduler_inv_moved; [| | | |exact Hi]; simpl; try done.
  - apply Forall_Forall2_diag, Forall_forall. intros r _. apply moved_refl.
  - intros t. destruct (decide (t = tx)) as [->|Hne].
    + rewrite Hc, lookup_insert_eq. exists []. rewrite app_nil_r. auto.
    + rewrite lookup_insert_ne by done. apply emits_refl.
Qed.

Lemma stop_signal_inv (max_sequences : Z) (index : nat) (x : StopSignal) (y : SchedulerSystem) :
  system_inv max_sequences y ->
  system_inv max_sequences
    (with_scheduler
       (fun s => put_requests (alter (put_stop_signal x) index (active_requests s)) s) y).
Proof.
  intros [Hi Ho]. split.
  - eapply scheduler_inv_moved; [| | | |exact Hi]; simpl; try done; [|apply emits_refl].
    apply Forall2_same_length_lookup_2; [by rewrite length_alter|]. intros i r r' Hr Hr'.
    destruct (decide (i = index)) as [->|].
    + rewrite list_lookup_alter_eq, Hr in Hr'. injection Hr' as <-. by apply moved_same_request.
    + rewrite list_lookup_alter_ne, Hr in Hr' by done. injection Hr' as <-. apply moved_refl.
  - unfold own_logits in *. simpl. rewrite Forall_lookup in *. intros i r Hr.
    destruct (decide (i = index)) as [->|].
    + rewrite list_lookup_alter_eq in Hr. destruct (active_requests (scheduler y) !! index) eqn:E; [|done].
      injection Hr as <-. exact (Ho _ _ E).
    + rewrite list_lookup_alter_ne in Hr by done. by eapply Ho.
Qed.

Lemma submit_embedding_inv (max_sequences : Z) (y : SchedulerSystem) :
  system_inv max_sequences y -> system_inv max_sequences (submit_embedding y).
Proof.
  intros [[I1 I2 I3 I4] Ho]. split; [|exact Ho]. split; simpl; try done.
  unfold i32_increment, guards_waiting. simpl. rewrite I4, wrap_i32_add. unfold guards_waiting.
  f_equal. lia.
Qed.

Lemma finish_embedding_inv (max_sequences : Z) (f : Scheduler -> Scheduler) (y : SchedulerSystem) :
  (forall open guards, scheduler_inv (seqZ 0 max_sequences) [] open guards (scheduler y) ->
   scheduler_inv (seqZ 0 max_sequences) [] open guards (f (scheduler y))) ->
  own_logits (f (scheduler y)) ->
  system_inv max_sequences y -> system_inv max_sequences (finish_embedding f y).
Proof.
  intros Hf Hown [Hi Ho]. unfold finish_embedding.
  destruct (waiting_embeddings y) as [|waiting] eqn:Hwaiting; [done|]. split; [|exact Hown].
  apply scheduler_inv_drop, Hf. unfold guards_waiting in *. simpl. rewrite Hwaiting in Hi.
  by rewrite Nat.add_succ_r in Hi.
Qed.

(** A foreign decode between iterations disturbs nobody: nobody generates. *)
Lemma embedding_own_logits (ctx : LlamaContext) (s : Scheduler) :
  has_active_requests s = false -> own_logits (put_context ctx s).
Proof.
  intros Hnone. unfold own_logits. simpl.
  apply Forall_forall. intros r Hr Hg. exfalso.
  unfold has_active_requests in Hnone.
  assert (Hex : existsb (fun r => negb (request_completed r)) (active_requests s) = true).
  { apply existsb_exists. exists r. split; [by apply list_elem_of_In|].
    unfold request_completed. by destruct (phase (state r)). }
  congruence.
Qed.

Lemma take_inv (max_sequences : Z) (f : nat -> Scheduler -> Scheduler) (y : SchedulerSystem) :
  (forall open guards tx,
   scheduler_inv (seqZ 0 max_sequences) [] (tx :: open) (S guards) (scheduler y) ->
   own_logits (scheduler y) ->
   accepted_inv (seqZ 0 max_sequences) open guards (f tx (scheduler y))) ->
  system_inv max_sequences y -> system_inv max_sequences (take_submission f y).
Proof.
  intros Hf Hy. apply take_submission_inv; [|done]. intros tx rest E. destruct Hy as [Hi Ho].
  unfold guards_waiting in Hi. rewrite E in Hi. by apply Hf.
Qed.

Lemma abandon_inv (ids : list Z) (open : list nat) (guards tx : nat) (s : Scheduler) :
  scheduler_inv ids [] (tx :: open) (S guards) s -> own_logits s ->
  accepted_inv ids open guards (drop_request s).
Proof. intros Hi Ho. split; [|exact Ho]. by apply scheduler_inv_drop, scheduler_inv_forget in Hi. Qed.

Lemma scheduler_step_inv (max_sequences : Z) (x y : SchedulerSystem) :
  system_inv max_sequences x -> scheduler_step x y -> system_inv max_sequences y.
Proof.
  intros Hx Hstep. destruct Hstep.
  - by apply submit_inv.
  - by eapply hang_up_inv.
  - by apply stop_signal_inv.
  - destruct Hx as [Hi Ho]. by apply check_stop_inv.
  - destruct Hx as [Hi Ho]. by eapply remove_completed_inv.
  - apply take_inv; [|done]. intros open guards tx Hi Ho. by apply accept_text_prompt_inv.
  - apply take_inv; [|done]. intros open guards tx Hi Ho. by apply accept_raw_prompt_inv.
  - apply take_inv; [|done]. intros open guards tx Hi Ho. by apply accept_conversation_inv.
  - apply take_inv; [|done]. intros open guards tx Hi Ho. by apply accept_multimodal_inv.
  - by apply submit_embedding_inv.
  - apply finish_embedding_inv; [intros open guards; apply scheduler_inv_context|
      by apply embedding_own_logits|done].
  - apply finish_embedding_inv; [done|by destruct Hx|done].
  - apply take_inv; [|done]. intros open guards tx Hi Ho. by eapply abandon_inv.
  - destruct Hx as [Hi Ho]. by apply execute_inv.
  - destruct Hx as [Hi Ho].
    assert (Hlt : (0 < length (active_requests (scheduler y)))%nat)
      by (destruct (active_requests (scheduler y)); simpl; [done|lia]).
    split; [by apply scheduler_inv_cleanup|by apply cleanup_own_logits].
Qed.

Lemma reachable_inv (ctx : LlamaContext) (max_sequences : Z) (x : SlotAggregatedStatus sender)
    (y : SchedulerSystem) :
  slots_processing x = 0 -> rtc scheduler_step (system_new ctx max_sequences x) y ->
  system_inv max_sequences y.
Proof.
  intros Hx Hr. eapply rtc_invariant; [exact Hr|by apply system_inv_new|].
  intros y1 y2. apply scheduler_step_inv.
Qed.

(** ** What holds in every reachable state *)

(** C9. No two active requests ever share a sequence of the model's cache: their
    ids are distinct, in range and out of the pool, and every id is held by a
    request or free.  The slots reported as processing are the active requests
    and the submissions and batches of embeddings that wait. *)
Theorem sequence_ids_never_shared (ctx : LlamaContext) (max_sequences : Z)
    (x : SlotAggregatedStatus sender) (y : SchedulerSystem)
    (Hx : slots_processing x = 0)
    (Hreach : rtc scheduler_step (system_new ctx max_sequences x) y) :
  NoDup (map sequence_id (active_requests (scheduler y))) /\
  (forall r, In r (active_requests (scheduler y)) ->
     0 <= sequence_id r < max_sequences /\ ~ In (sequence_id r) (sequence_id_pool (scheduler y))) /\
  (length (active_requests (scheduler y)) + length (sequence_id_pool (scheduler y))
   = Z.to_nat max_sequences)%nat /\
  slots_processing_count (slot_aggregated_status (scheduler y))
  = wrap_i32 (Z.of_nat (guards_waiting y + length (active_requests (scheduler y)))).
Proof.
  destruct (reachable_inv _ _ _ _ Hx Hreach) as [[I1 I2 I3 I4] _]. simpl in I1.
  assert (Hn : NoDup (map sequence_id (active_requests (scheduler y))
                      ++ sequence_id_pool (scheduler y))).
  { rewrite I1. apply NoDup_seqZ. }
  apply NoDup_app in Hn as (Hn & Hd & _). split; [done|]. split; [|split; [|exact I4]].
  - intros r Hr. assert (Hin : sequence_id r ∈ map sequence_id (active_requests (scheduler y)))
      by (apply list_elem_of_In; by apply in_map).
    split; [|rewrite <- list_elem_of_In; by apply Hd].
    assert (Hs : sequence_id r ∈ seqZ 0 max_sequences) by (rewrite <- I1; apply elem_of_app; by left).
    apply elem_of_seqZ in Hs. lia.
  - apply Permutation_length in I1. rewrite length_app, length_map, length_seqZ in I1. exact I1.
Qed.

(** C7. A generation stream ends at most once, and nothing follows its end:
    whatever the model, its clients and the order of the scheduler's steps do,
    of all the results sent to a stream only the last can be a terminal one,
    and there is none while the request is active or waits to be accepted. *)
Theorem generation_stream_well_formed (ctx : LlamaContext) (max_sequences : Z)
    (x : SlotAggregatedStatus sender) (y : SchedulerSystem) (tx : nat)
    (c : chan GeneratedTokenResult)
    (Hx : slots_processing x = 0)
    (Hreach : rtc scheduler_step (system_new ctx max_sequences x) y)
    (Hc : client_channels (scheduler y) !! tx = Some c) :
  ended_once (chan_pending c) /\
  (In tx (submissions y ++ map generated_tokens_tx (active_requests (scheduler y))) ->
   Forall not_done (chan_pending c)).
Proof.
  destruct (reachable_inv _ _ _ _ Hx Hreach) as [[_ [_ _ O E] _ _] _]. split; [by eapply E|].
  intros Hin. rewrite Forall_forall in O. apply (O tx); [by apply list_elem_of_In|done].
Qed.

(** C8. A request only samples from its own logits: whenever a request that
    generates is about to sample, the index it kept is one where the last
    decode left the logits of its own sequence, although the context is shared
    with every other request, with multimodal prompts and with embeddings. *)
Theorem sampling_reads_own_logits (ctx : LlamaContext) (max_sequences : Z)
    (x : SlotAggregatedStatus sender) (y : SchedulerSystem) (r : Request) (k : Z)
    (Hx : slots_processing x = 0)
    (Hreach : rtc scheduler_step (system_new ctx max_sequences x) y)
    (Hr : In r (active_requests (scheduler y)))
    (Hg : is_generating (phase (state r)) = true)
    (Hp : pending_sampled_token (state r) = None)
    (Hk : i_batch (state r) = Some k) :
  logits_at (llama_context (scheduler y)) k = Some (sequence_id r).
Proof.
  destruct (reachable_inv _ _ _ _ Hx Hreach) as [_ Ho]. unfold own_logits in Ho.
  rewrite Forall_forall in Ho. apply (Ho r); [by apply list_elem_of_In|done..].
Qed.

End SchedulerSystem.

(** ** Witnesses

    A scheduler with two sequences: a prompt of two tokens is submitted,
    accepted and decoded. *)

Definition example_llama : LlamaContext :=
  ({| plain_decoded := 0; plain_last := []; plain_external := None |} : PlainContext).

Definition example_start : SchedulerSystem (chan := QueueChannel) (sender := nat) :=
  system_new example_llama 2 (status_new 0 2).

Definition example_context : ContinuousBatchSchedulerContext :=
  {| agent_name := None; context_inference_parameters := inference_parameters_default;
     multimodal_context := None |}.

Definition example_prompt : ContinueFromRawPromptParams :=
  {| raw_grammar := None; raw_max_tokens := 5; raw_prompt := "hi" |}.

Definition example_submitted := submit 7 example_start.

Definition example_accepted :=
  take_submission
    (fun tx => accept_raw_prompt_request example_context 1 example_prompt tx StopEmpty)
    example_submitted.

Definition example_decoded :=
  with_scheduler (fun s => fst (execute_one_iteration 16 (fun _ => (0, 0)) s)) example_accepted.

Lemma example_reachable : rtc scheduler_step example_start example_decoded.
Proof.
  eapply rtc_l; [apply (step_submit example_start 7); reflexivity|].
  eapply rtc_l; [apply (step_raw example_submitted)|].
  eapply rtc_once. apply step_iterate. vm_compute. discriminate.
Qed.

Lemma sequence_ids_never_shared_witness :
  NoDup (map sequence_id (active_requests (scheduler example_decoded))) /\
  map sequence_id (active_requests (scheduler example_decoded)) = [0] /\
  slots_processing_count (slot_aggregated_status (scheduler example_decoded)) = 1.
Proof.
  split; [|split; [vm_compute; reflexivity|]].
  - apply (sequence_ids_never_shared (receiver := nat) example_llama 2 (status_new 0 2) example_decoded);
      [reflexivity|exact example_reachable].
  - vm_compute. reflexivity.
Defined.

Lemma generation_stream_well_formed_witness :
  exists c, client_channels (scheduler example_decoded) !! 7%nat = Some c /\
            Forall not_done (chan_pending c).
Proof.
  eexists. split; [vm_compute; reflexivity|].
  apply (generation_stream_well_formed (receiver := nat) example_llama 2 (status_new 0 2) example_decoded 7);
    [reflexivity|exact example_reachable|vm_compute; reflexivity|vm_compute; auto].
Defined.

Lemma sampling_reads_own_logits_witness :
  logits_at (llama_context (scheduler example_decoded)) 1 = Some 0.
Proof.
  pose proof (fun r => sampling_reads_own_logits (receiver := nat) example_llama 2 (status_new 0 2)
                         example_decoded r 1 eq_refl example_reachable) as Hown.
  destruct (active_requests (scheduler example_decoded)) as [|r rs] eqn:E;
    [vm_compute in E; discriminate E|].
  assert (Er : r = hd r (active_requests (scheduler example_decoded))) by (by rewrite E).
  rewrite (Hown r); [| |vm_compute in Er; subst r; reflexivity..].
  - vm_compute in Er. by subst r.
  - by left.
Defined.
