(* ===== verification/SchedulerProgress.v ===== *)
(** * The continuous batch scheduler: progress and delivery

    An iteration ends whatever the model answers; a request goes on only below
    its limit; removal answers every completed request, once; eviction takes
    the request that got furthest. *)

From S2P Require Import Prelude Tokio Messages AtomicValue Requests TokenThroughput SlotStatus.
From S2P Require Import ToolCalls Llama Scheduler SchedulerBatch SchedulerStreams.
From S2P Require Import SchedulerCommands SchedulerLifecycle SchedulerSystem.
Local Open Scope Z_scope.

Section SchedulerProgress.
Context `{JsonTypes} `{LlamaTypes} `{!ToolCallBackend} `{!LlamaBackend}.
Context {chan : Type -> Type} `{!UnboundedChannel chan}.
Context {sender receiver : Type} `{!WatchChannel sender receiver}.

Notation Request := ContinuousBatchActiveRequest.
Notation Channels := (gmap nat (chan GeneratedTokenResult)).
Notation Scheduler := (ContinuousBatchScheduler (chan := chan) (sender := sender)).

(** ** Iterations end *)

Definition position_valid (r : Request) : Prop := 0 <= current_token_position (state r).

(** A batch that is not empty has a request that is not completed. *)
Lemma nonempty_pass_active (n_batch_ added : nat) (rs : list Request) (p : BatchPass) :
  pass_sound n_batch_ added rs p -> pass_is_empty p = false ->
  exists r, In r rs /\ request_completed r = false.
Proof.
  intros [_ _ _ S4 S5 _ _] He. unfold pass_is_empty in He.
  destruct (generating (contributions p)) as [|g gs].
  - destruct (ingesting (contributions p)) as [|i l]; [done|].
    apply Forall_cons in S5 as [(r & b & a & Hr & Hi & _) _]. exists r. split.
    + by apply list_elem_of_In, (list_elem_of_lookup_2 _ (ingesting_request_index i)).
    + unfold request_completed. by destruct (phase (state r)).
  - apply Forall_cons in S4 as [(r & t & k & Hr & Hg & _) _]. exists r. split.
    + by apply list_elem_of_In, (list_elem_of_lookup_2 _ (generating_request_index g)).
    + unfold request_completed. by destruct (phase (state r)).
Qed.

(** What the removal of the request at [index] does when its outcome was set
    just before. *)
Lemma complete_and_cleanup_spec (e : GeneratedTokenResult) (index : nat) (r : Request)
    (s : Scheduler) :
  active_requests s !! index = Some r -> request_completed r = false ->
  let s' := cleanup_completed_request index
              (put_requests (alter (complete_with_outcome e) index (active_requests s)) s) in
  active_requests s ≡ₚ r :: active_requests s' /\
  sequence_id_pool s' = sequence_id_pool s ++ [sequence_id r] /\
  client_channels s' = fst (send_event (generated_tokens_tx r) e (client_channels s)) /\
  llama_context s' = clear_kv_cache_for_sequence (sequence_id r) (llama_context s).
Proof.
  intros Hr Hc. cbn zeta.
  set (s1 := put_requests (alter (complete_with_outcome e) index (active_requests s)) s).
  assert (Hr1 : active_requests s1 !! index = Some (complete_with_outcome e r))
    by (simpl; by rewrite list_lookup_alter_eq, Hr).
  destruct (cleanup_spec index _ s1 Hr1) as (Hp & Hpool & Hm & _ & Hctx).
  split; [|split; [exact Hpool|split; [|exact Hctx]]].
  - revert Hp. generalize (active_requests (cleanup_completed_request index s1)). intros rest Hp.
    simpl in Hp. apply list_elem_of_split_length in Hr as (a & b & E & ->). rewrite E in *.
    rewrite alter_app_r_alt, Nat.sub_diag in Hp by done. simpl in Hp.
    rewrite <- Permutation_middle in Hp |- *. by apply Permutation_cons_inv in Hp as ->.
  - rewrite Hm. unfold deliver_terminal, complete_with_outcome, put_state, mark_completed.
    simpl. unfold request_completed in Hc. by rewrite Hc.
Qed.

(** Under memory pressure exactly one request goes. *)
Lemma evict_shrinks (s : Scheduler) :
  Forall position_valid (active_requests s) ->
  (exists r, In r (active_requests s) /\ request_completed r = false) ->
  S (length (active_requests (evict_largest_sequence s))) = length (active_requests s) /\
  Forall position_valid (active_requests (evict_largest_sequence s)).
Proof.
  intros Hv (r0 & Hin & Hc). unfold evict_largest_sequence.
  destruct (find_largest_spec (active_requests s) 0 None (-1))
    as [[_ Hall]|(j & r & -> & Hj & Hcj & _)].
  { specialize (Hall r0 Hin Hc). rewrite Forall_forall in Hv.
    specialize (Hv r0 ltac:(by apply list_elem_of_In)). unfold position_valid in Hv. lia. }
  simpl. destruct (complete_and_cleanup_spec eviction_result j r s Hj Hcj) as (Hp & _).
  split.
  - apply Permutation_length in Hp. simpl in Hp. lia.
  - rewrite Hp in Hv. by apply Forall_cons in Hv as [_ Hv].
Qed.

Lemma iteration_loop_total (fuel n_batch_ : nat) (s : Scheduler) :
  Z.of_nat n_batch_ <= i32_max -> (length (active_requests s) < fuel)%nat ->
  Forall position_valid (active_requests s) -> snd (iteration_loop fuel n_batch_ s) <> None.
Proof.
  intros Hn. revert s. induction fuel as [|fuel IH]; intros s Hf Hv; [lia|]. simpl.
  destruct (try_i32 _) as [m|]; [|done].
  destruct (batch_pass_new n_batch_ m) as [p0|] eqn:Ep; cbn [result_bind]; [|done].
  destruct (assemble_batch_sound n_batch_ m (active_requests s) p0 Hn Ep) as (p & added & -> & Hp).
  destruct (pass_is_empty p) eqn:Eempty; [done|].
  destruct (decode_batch_phase p (llama_context s)) as [ctx outcome]. cbn zeta.
  destruct outcome; [by destruct (commit_phase _ _)| |done|done].
  destruct (evict_shrinks (put_context ctx s) Hv (nonempty_pass_active _ _ _ _ Hp Eempty))
    as [Hl Hv']. simpl in Hl.
  destruct (active_requests (evict_largest_sequence (put_context ctx s))) eqn:El; [done|].
  apply IH; rewrite El; [simpl in *; lia|done].
Qed.

Lemma mark_completed_position (o : ContinuousBatchTerminalOutcome) (st : ContinuousBatchRequestState) :
  current_token_position (mark_completed o st) = current_token_position st.
Proof. unfold mark_completed. by destruct (is_completed (phase st)). Qed.

Lemma advance_requests_positions (ctx : LlamaContext) (clock : nat -> Z * Z) (index : nat)
    (rs : list Request) (o : Surroundings (chan := chan) (sender := sender)) :
  Forall position_valid rs ->
  Forall position_valid (fst (advance_requests ctx clock index rs o)).
Proof.
  unfold position_valid. revert index o.
  induction rs as [|r rs IH]; intros index o Hv; simpl; [constructor|].
  apply Forall_cons in Hv as [Hr Hv].
  destruct (advance_one ctx (clock index) r o) as [[r1 o1] outcome] eqn:E.
  apply advance_one_spec in E as ([[_ Hst] _] & _ & _).
  specialize (IH (S index) o1 Hv). destruct (advance_requests _ _ _ rs o1) as [rest o2].
  constructor; [|exact IH].
  destruct outcome as [[token|e|]|]; simpl; rewrite ?mark_completed_position; congruence.
Qed.

(** C12. An iteration always ends: as long as the batch size is an [i32] and
    positions are not negative, one turn for each active request and one more
    are enough, whatever the decoder answers, because every turn that does not
    end the iteration evicts a request. *)
Theorem iteration_terminates (n_batch_ : nat) (clock : nat -> Z * Z) (s : Scheduler)
    (Hn : Z.of_nat n_batch_ <= i32_max)
    (Hv : Forall position_valid (active_requests s)) :
  exists s' res, execute_one_iteration n_batch_ clock s = (s', Some res).
Proof.
  unfold execute_one_iteration. set (s1 := advance_generating_requests clock s).
  assert (Hv1 : Forall position_valid (active_requests s1)).
  { unfold s1, advance_generating_requests.
    pose proof (advance_requests_positions (llama_context s) clock 0 (active_requests s)
      {| surrounding_channels := client_channels s;
         surrounding_status := slot_aggregated_status s |} Hv) as Ha.
    by destruct (advance_requests _ _ _ _ _). }
  pose proof (iteration_loop_total (S (length (active_requests s1))) n_batch_ s1 Hn
                ltac:(lia) Hv1) as Ht.
  destruct (iteration_loop _ _ s1) as [s' [res|]]; [by eexists _, _|done].
Qed.

(** Under memory pressure the request that got furthest is evicted, the
    first of them when several did: it alone leaves, its client is told, its
    sequence is cleared from the cache and its id returns to the pool. *)
Theorem eviction_takes_largest (s : Scheduler)
    (Hv : Forall position_valid (active_requests s))
    (Hex : exists r, In r (active_requests s) /\ request_completed r = false) :
  exists j r,
    active_requests s !! j = Some r /\ request_completed r = false /\
    (forall i r', active_requests s !! i = Some r' -> request_completed r' = false ->
       current_token_position (state r') <= current_token_position (state r) /\
       ((i < j)%nat -> current_token_position (state r') < current_token_position (state r))) /\
    let s' := evict_largest_sequence s in
    active_requests s ≡ₚ r :: active_requests s' /\
    sequence_id_pool s' = sequence_id_pool s ++ [sequence_id r] /\
    client_channels s' = fst (send_event (generated_tokens_tx r) eviction_result (client_channels s)) /\
    llama_context s' = clear_kv_cache_for_sequence (sequence_id r) (llama_context s).
Proof.
  destruct Hex as (r0 & Hin & Hc). unfold evict_largest_sequence.
  destruct (find_largest_spec (active_requests s) 0 None (-1))
    as [[_ Hall]|(j & r & -> & Hj & Hcj & _ & Hbest)].
  { specialize (Hall r0 Hin Hc). rewrite Forall_forall in Hv.
    specialize (Hv r0 ltac:(by apply list_elem_of_In)). unfold position_valid in Hv. lia. }
  exists j, r. repeat (split; [done|]). simpl. by apply complete_and_cleanup_spec.
Qed.

(** ** Removal *)

Definition is_removed (r : Request) : Prop := request_completed r = true.

Lemma swap_remove_take {A : Type} (index : nat) (l rest : list A) (x : A) :
  swap_remove index l = Some (x, rest) -> take index rest = take index l.
Proof.
  unfold swap_remove. destruct (l !! index) as [y|] eqn:Hy; [|done].
  destruct (last l) as [z|] eqn:Hl; [|done]. intros [= -> <-].
  apply last_Some in Hl as [l0 ->]. pose proof (lookup_lt_Some _ _ _ Hy) as Hlt.
  rewrite length_app in Hlt. simpl in Hlt.
  destruct (decide (index = length l0)) as [->|].
  - rewrite insert_app_r_alt, Nat.sub_diag by done. simpl. rewrite removelast_last.
    by rewrite take_app_le by lia.
  - rewrite insert_app_l by lia. rewrite removelast_last, take_insert, decide_False by lia.
    by rewrite take_app_le by lia.
Qed.

Lemma deliver_other (r : Request) (m : Channels) (tx : nat) :
  tx <> generated_tokens_tx r -> deliver_terminal r m !! tx = m !! tx.
Proof.
  intros Hne. unfold deliver_terminal, send_event. destruct (into_terminal_outcome (state r)); [done|].
  destruct (m !! generated_tokens_tx r ≫= _); simpl; [|done].
  by rewrite lookup_insert_ne.
Qed.

Lemma deliver_own (r : Request) (m m' : Channels) :
  m !! generated_tokens_tx r = m' !! generated_tokens_tx r ->
  deliver_terminal r m !! generated_tokens_tx r = deliver_terminal r m' !! generated_tokens_tx r.
Proof.
  intros E. unfold deliver_terminal, send_event. destruct (into_terminal_outcome (state r)); [done|].
  rewrite E. destruct (m' !! generated_tokens_tx r ≫= _); simpl; [by rewrite !lookup_insert_eq|done].
Qed.

(** What the removal makes of the requests [rs] and the streams [m]. *)
Record removal_done (rs : list Request) (m : Channels) (ids : list Z) (s' : Scheduler) : Prop := {
  removal_left : active_requests s' ≡ₚ filter (fun r => ~ is_removed r) rs;
  removal_ids : sequence_id_pool s' ≡ₚ map sequence_id (filter is_removed rs) ++ ids;
  removal_told : forall r, In r rs -> is_removed r ->
    client_channels s' !! generated_tokens_tx r = deliver_terminal r m !! generated_tokens_tx r;
  removal_others : forall tx, ~ In tx (map generated_tokens_tx (filter is_removed rs)) ->
    client_channels s' !! tx = m !! tx;
}.

Lemma removal_done_none (s : Scheduler) :
  Forall (fun r => ~ is_removed r) (active_requests s) ->
  removal_done (active_requests s) (client_channels s) (sequence_id_pool s) s.
Proof.
  intros Hall.
  assert (Hnone : filter is_removed (active_requests s) = []) by (by apply list_filter_none).
  split; rewrite ?Hnone; try done.
  - by rewrite list_filter_all.
  - intros r Hr Hc. rewrite Forall_forall in Hall. by destruct (Hall r); [apply list_elem_of_In|].
Qed.

(** One request more, removed before the others. *)
Lemma removal_done_step (index : nat) (r : Request) (s s' : Scheduler) :
  NoDup (map generated_tokens_tx (active_requests s)) ->
  active_requests s !! index = Some r -> is_removed r ->
  (let s1 := cleanup_completed_request index s in
   removal_done (active_requests s1) (client_channels s1) (sequence_id_pool s1) s') ->
  removal_done (active_requests s) (client_channels s) (sequence_id_pool s) s'.
Proof.
  intros Hn Hr Hc. cbn zeta. destruct (cleanup_spec index r s Hr) as (Hp & Hpool & Hm & _ & _).
  rewrite Hpool, Hm. intros [R1 R2 R3 R4]. rewrite Hp in Hn. simpl in Hn.
  apply NoDup_cons in Hn as [Hfresh _]. rewrite list_elem_of_In in Hfresh.
  set (l := active_requests (cleanup_completed_request index s)) in *.
  assert (Hsub : forall tx, In tx (map generated_tokens_tx (filter is_removed l)) ->
                 In tx (map generated_tokens_tx l)).
  { intros tx (r' & <- & Hr')%in_map_iff. apply in_map. apply list_elem_of_In in Hr'.
    apply list_elem_of_filter in Hr' as [_ Hr']. by apply list_elem_of_In. }
  split.
  - rewrite R1, Hp, filter_cons_False by (intros Hx; by apply Hx). done.
  - rewrite R2, Hp, filter_cons_True by done. simpl.
    rewrite (Permutation_app_comm (sequence_id_pool s) [sequence_id r]). simpl.
    by rewrite <- Permutation_middle.
  - intros r' Hin Hc'. apply list_elem_of_In in Hin. rewrite Hp in Hin.
    apply elem_of_cons in Hin as [->|Hin].
    + rewrite R4; [done|]. intros Hx. by apply Hfresh, Hsub.
    + apply list_elem_of_In in Hin. rewrite (R3 r' Hin Hc'). apply deliver_own, deliver_other.
      intros E. apply Hfresh. rewrite <- E. by apply in_map.
  - intros tx Htx. rewrite Hp, filter_cons_True in Htx by done. simpl in Htx.
    rewrite R4 by tauto. apply deliver_other. intros ->. tauto.
Qed.

Lemma remove_completed_loop_spec (fuel index : nat) (s s' : Scheduler) :
  NoDup (map generated_tokens_tx (active_requests s)) ->
  Forall (fun r => ~ is_removed r) (take index (active_requests s)) ->
  remove_completed_loop fuel index s = Some s' ->
  removal_done (active_requests s) (client_channels s) (sequence_id_pool s) s'.
Proof.
  revert index s. induction fuel as [|fuel IH]; intros index s Hn Hkept; simpl; [done|].
  destruct (active_requests s !! index) as [r|] eqn:Hr.
  2: { intros [= <-]. apply removal_done_none. apply lookup_ge_None in Hr.
       by rewrite take_ge in Hkept. }
  destruct (request_completed r) eqn:Hc; intros Hl.
  - apply (removal_done_step index r s s' Hn Hr Hc). cbn zeta.
    destruct (swap_remove_spec index _ _ Hr) as (rest & Es & _).
    destruct (cleanup_spec index r s Hr) as (Hp & _).
    eapply IH; [| |exact Hl].
    + rewrite Hp in Hn. simpl in Hn. by apply NoDup_cons in Hn as [_ Hn].
    + assert (Er : active_requests (cleanup_completed_request index s) = rest).
      { unfold cleanup_completed_request. rewrite Es.
        by destruct (into_terminal_outcome (state r)). }
      by rewrite Er, (swap_remove_take _ _ _ _ Es).
  - eapply IH; [done| |exact Hl]. rewrite (take_S_r _ _ _ Hr).
    apply Forall_app. split; [done|]. apply Forall_singleton. unfold is_removed. congruence.
Qed.

(** The removal of completed requests terminates and loses nothing: the
    requests that are left are those that are not completed, every completed
    one gives its sequence id back and has its terminal result, if it has one,
    sent on its own stream, and no other stream is touched. *)
Theorem removal_answers_completed (s : Scheduler)
    (Hn : NoDup (map generated_tokens_tx (active_requests s))) :
  exists s', remove_completed_requests s = Some s' /\
    removal_done (active_requests s) (client_channels s) (sequence_id_pool s) s'.
Proof.
  destruct (remove_completed_loop_total (S (length (active_requests s))) 0 s) as [s' E]; [lia..|].
  exists s'. split; [exact E|]. eapply (remove_completed_loop_spec _ 0); [exact Hn|constructor|exact E].
Qed.

(** ** What becomes of a sampled token *)

Lemma classify_state (token : LlamaToken) (r r' : Request)
    (o : result (list (ClassifiedToken LlamaToken)) string) :
  classify_token_phase token r = (r', o) -> same_request r r'.
Proof.
  unfold classify_token_phase. destruct (classifier_ingest _ _). intros [= <- _]. done.
Qed.

(** Generation goes on only below its limits.  When a sampled token is kept
    to be decoded, it is not an end-of-generation token and the tokens counted
    so far are fewer than the request allows; an end-of-generation token is
    never shown to the client and completes the request with its usage, unless
    the client is gone; and a token that cannot be turned into text completes
    the request with that error. *)
Theorem generation_stops_at_limits (token : LlamaToken) (r r1 r' : Request) (m m' : Channels)
    (o : AdvanceOutcome) (classified : result (list (ClassifiedToken LlamaToken)) string)
    (Hclass : classify_token_phase token r = (r1, classified))
    (Hadvance : advance_sampled token r m = (r', m', o)) :
  match classified with
  | Err e => o = AdvanceCompleted (DetokenizationFailed e) /\ m' = m
  | Ok tokens =>
      if is_eog_token (SampledContent token)
      then (r', m', o) = finish_generation r1 m
      else
        forall t, o = SampledAndStored t ->
          t = SampledContent token /\
          exists limit, try_u64 (max_tokens (state r)) = Some limit /\
            completion_token_count (classifier_usage (token_classifier r')) < limit
  end.
Proof.
  pose proof (classify_state _ _ _ _ Hclass) as [_ Hst]. unfold advance_sampled in Hadvance.
  rewrite Hclass in Hadvance. destruct classified as [tokens|e]; [|by injection Hadvance as <- <- <-].
  unfold completion_check_phase in Hadvance.
  destruct (is_eog_token (SampledContent token)) eqn:Eeog; [by symmetry|].
  intros t ->.
  assert (Hcont : (let '(r2, m2, sent) := emit_classified_tokens tokens r1 m in
    match sent with
    | false => (r2, m2, ChannelDropped)
    | true =>
        match max_tokens_outcome (max_tokens (state r2)) (classifier_usage (token_classifier r2)) with
        | ReachedEog | ReachedMaxTokens => finish_generation r2 m2
        | CompletionContinue => (r2, m2, SampledAndStored (SampledContent token))
        end
    end) = (r', m', SampledAndStored t)).
  { destruct (max_tokens_outcome (max_tokens (state r1)) _) eqn:E; [exact Hadvance| |exact Hadvance].
    unfold max_tokens_outcome in E. by repeat case_match. }
  clear Hadvance. destruct (emit_classified_tokens tokens r1 m) as [[r2 m2] [|]] eqn:E2; [|done].
  apply emit_classified_advanced in E2 as [[_ Hst2] _].
  unfold max_tokens_outcome in Hcont. rewrite Hst2, Hst in Hcont.
  destruct (try_u64 (max_tokens (state r))) as [limit|] eqn:El.
  2: { unfold finish_generation in Hcont. destruct (flush_tool_call r2 m2) as [[] []]; done. }
  destruct (Z.leb_spec limit (completion_token_count (classifier_usage (token_classifier r2)))).
  { unfold finish_generation in Hcont. destruct (flush_tool_call r2 m2) as [[] []]; done. }
  injection Hcont as <- _ <-. split; [done|]. by exists limit.
Qed.

End SchedulerProgress.

(** ** Witnesses *)

Lemma iteration_terminates_witness :
  exists s' res,
    execute_one_iteration 16 (fun _ => (0, 0)) (scheduler example_decoded) = (s', Some res).
Proof.
  apply (iteration_terminates (receiver := nat) 16 (fun _ => (0, 0)) (scheduler example_decoded)).
  - vm_compute. discriminate.
  - repeat constructor; vm_compute; discriminate.
Defined.

Lemma eviction_takes_largest_witness :
  active_requests (evict_largest_sequence (scheduler example_decoded)) = [].
Proof.
  destruct (eviction_takes_largest (receiver := nat) (scheduler example_decoded))
    as (j & r & _ & _ & _ & Hp & _).
  - repeat constructor; vm_compute; discriminate.
  - eexists. split; [left; reflexivity|]. vm_compute. reflexivity.
  - apply Permutation_length in Hp.
    change (length (active_requests (scheduler example_decoded))) with 1%nat in Hp.
    destruct (active_requests (evict_largest_sequence _)); [reflexivity|discriminate Hp].
Defined.

(** The client asks to stop: the request is removed and told that it is done. *)
Definition example_stopped : SchedulerSystem (chan := QueueChannel) (sender := nat) :=
  with_scheduler
    (fun s => check_stop_signals
                (put_requests (alter (put_stop_signal StopSent) 0%nat (active_requests s)) s))
    example_decoded.

Lemma removal_answers_completed_witness :
  exists s', remove_completed_requests (scheduler example_stopped) = Some s' /\
    active_requests s' = [] /\
    client_channels s' !! 7%nat
    = Some {| queue_pending := [Done {| usage := 0 |}]; queue_alive := true |}.
Proof.
  destruct (removal_answers_completed (receiver := nat) (scheduler example_stopped))
    as (s' & E & [Hleft _ Htold _]).
  - vm_compute. repeat constructor. intros Hin. inversion Hin.
  - exists s'. split; [exact E|]. vm_compute in E. injection E as <-. split; reflexivity.
Defined.

Definition example_advanced :=
  advance_sampled (chan := QueueChannel) 9 example_request {[0%nat := chan_new]}.

(** The first of five tokens is kept. *)
Lemma generation_stops_at_limits_witness :
  snd example_advanced = SampledAndStored (SampledContent 9) /\
  completion_token_count (classifier_usage (token_classifier (fst (fst example_advanced)))) < 5.
Proof.
  split; [reflexivity|]. destruct example_advanced as [[r' m'] o] eqn:E.
  unfold example_advanced in E.
  pose proof (generation_stops_at_limits _ example_request _ r' _ m' o _ eq_refl E) as Hl.
  assert (Ho : o = SampledAndStored (SampledContent 9)) by (vm_compute in E; by injection E as _ _ <-).
  destruct (Hl _ Ho) as (_ & limit & Hlimit & Hlt). injection Hlimit as <-. exact Hlt.
Defined.

(** ** A harvested token is lost

    A request that is harvested decodes the token and counts it, but the
    client never sees it: after two more iterations two tokens are counted and
    one was sent. *)

Definition example_harvested : ContinuousBatchScheduler (chan := QueueChannel) (sender := nat) :=
  let iterate s := fst (execute_one_iteration 16 (fun _ => (0, 0)) s) in
  iterate (iterate (harvest_pending_samples_before_external_decode (scheduler example_decoded))).

Lemma harvested_token_is_lost :
  map (fun r => classifier_usage (token_classifier r)) (active_requests example_harvested) = [2] /\
  chan_pending <$> client_channels example_harvested !! 7%nat = Some [ContentToken "x"].
Proof. vm_compute. split; reflexivity. Qed.
