(* ===== verification/EmbeddingBatches.v ===== *)
(** * Planning batches of embeddings

    [plan_embedding_batches.rs]: the documents of an embedding request, given
    by their token counts, are split in order into ranges that the context can
    decode at once. *)

From S2P Require Import Prelude.
Local Open Scope Z_scope.

(** A [Range<usize>] as its two ends. *)
Definition Range : Type := nat * nat.

(** The loop, with its four local variables, and what is pushed after it. *)
Fixpoint plan_loop (n_batch_ : nat) (max_sequences_per_batch : Z) (counts : list nat)
    (index start current_tokens : nat) (current_sequences : Z) : list Range :=
  match counts with
  | [] => if 0 <? current_sequences then [(start, index)] else []
  | token_count :: rest =>
      let would_exceed_tokens := (n_batch_ <? current_tokens + token_count)%nat in
      let would_exceed_sequences := max_sequences_per_batch <=? current_sequences in
      if (would_exceed_tokens || would_exceed_sequences) && (0 <? current_sequences)
      then (start, index)
           :: plan_loop n_batch_ max_sequences_per_batch rest (S index) index token_count 1
      else plan_loop n_batch_ max_sequences_per_batch rest (S index) start
             (current_tokens + token_count) (wrap_i32 (current_sequences + 1))
  end.

Definition plan_embedding_batches (token_counts : list nat) (n_batch_ : nat)
    (max_sequences_per_batch : Z) : list Range :=
  plan_loop n_batch_ max_sequences_per_batch token_counts 0 0 0 0.

(** ** Facts *)

(** The documents of a range, and their tokens. *)
Definition range_indices (r : Range) : list nat := seq (fst r) (snd r - fst r).

Definition range_tokens (counts : list nat) (r : Range) : nat :=
  sum_list (take (snd r - fst r) (drop (fst r) counts)).

(** A range that can be decoded at once, and could not hold the next document. *)
Record range_planned (counts : list nat) (n_batch_ : nat) (max_sequences : Z) (r : Range) : Prop := {
  range_nonempty : (fst r < snd r <= length counts)%nat;
  range_sequences : Z.of_nat (snd r - fst r) <= Z.max 1 max_sequences;
  range_fits : (range_tokens counts r <= n_batch_)%nat \/ snd r = S (fst r);
  range_greedy : forall next, counts !! snd r = Some next ->
    (n_batch_ < range_tokens counts r + next)%nat \/ max_sequences <= Z.of_nat (snd r - fst r);
}.

Lemma range_tokens_snoc (counts : list nat) (start index token_count : nat) :
  (start <= index)%nat -> counts !! index = Some token_count ->
  range_tokens counts (start, S index) = (range_tokens counts (start, index) + token_count)%nat.
Proof.
  intros Hle Hc. unfold range_tokens. simpl.
  replace (S index - start)%nat with (S (index - start)) by lia.
  assert (Hd : drop start counts !! (index - start)%nat = Some token_count).
  { rewrite lookup_drop. by replace (start + (index - start))%nat with index by lia. }
  rewrite (take_S_r _ _ _ Hd), sum_list_with_app. simpl. lia.
Qed.

Lemma range_tokens_one (counts : list nat) (index token_count : nat) :
  counts !! index = Some token_count -> range_tokens counts (index, S index) = token_count.
Proof.
  intros Hc. rewrite (range_tokens_snoc _ _ _ _ (le_n _) Hc). unfold range_tokens. simpl.
  by rewrite Nat.sub_diag.
Qed.

(** What the loop knows of the range it is filling. *)
Record range_open (counts : list nat) (n_batch_ : nat) (max_sequences : Z)
    (index start current_tokens : nat) (current_sequences : Z) : Prop := {
  open_bounds : (start <= index)%nat;
  open_sequences : current_sequences = Z.of_nat (index - start);
  open_tokens : current_tokens = range_tokens counts (start, index);
  open_count : current_sequences <= Z.max 1 max_sequences;
  open_fits : (current_tokens <= n_batch_)%nat \/ (index <= S start)%nat;
}.

Lemma plan_loop_spec (counts rest : list nat) (n_batch_ : nat) (max_sequences : Z)
    (index start current_tokens : nat) (current_sequences : Z) :
  max_sequences <= i32_max -> drop index counts = rest ->
  (index <= length counts)%nat ->
  range_open counts n_batch_ max_sequences index start current_tokens current_sequences ->
  let ranges := plan_loop n_batch_ max_sequences rest index start current_tokens current_sequences in
  concat (map range_indices ranges) = seq start (length counts - start) /\
  Forall (range_planned counts n_batch_ max_sequences) ranges.
Proof.
  intros Hmax. revert index start current_tokens current_sequences.
  induction rest as [|token_count rest IH]; intros index start tokens sequences Hd Hle
    [O1 O2 O3 O4 O5]; simpl.
  - assert (index = length counts) as ->.
    { apply (f_equal length) in Hd. rewrite length_drop in Hd. simpl in Hd. lia. }
    destruct (Z.ltb_spec 0 sequences) as [Hs|Hs].
    + simpl. rewrite app_nil_r. split; [done|]. apply Forall_singleton. split; simpl.
      * lia.
      * lia.
      * rewrite <- O3. lia.
      * intros next Hn. apply lookup_lt_Some in Hn. lia.
    + replace (length counts - start)%nat with 0%nat by lia. by split.
  - assert (Hc : counts !! index = Some token_count)
      by (rewrite <- (Nat.add_0_r index), <- lookup_drop, Hd; done).
    assert (Hd' : drop (S index) counts = rest).
    { replace (S index) with (index + 1)%nat by lia. by rewrite <- drop_drop, Hd. }
    pose proof (lookup_lt_Some _ _ _ Hc) as Hlt.
    destruct (_ && _) eqn:Eflush.
    + apply andb_prop in Eflush as [Ewhy Epos]. apply Z.ltb_lt in Epos.
      destruct (IH (S index) index token_count 1 Hd') as [Hcat Hall]; [lia| |].
      { split; try lia. by rewrite (range_tokens_one _ _ _ Hc). }
      simpl. split.
      * rewrite Hcat. unfold range_indices. simpl.
        replace (length counts - start)%nat with ((index - start) + (length counts - index))%nat by lia.
        rewrite seq_app. by replace (start + (index - start))%nat with index by lia.
      * constructor; [|exact Hall]. split; simpl; [lia|lia|rewrite <- O3; lia|].
        intros next Hn. rewrite Hc in Hn. injection Hn as <-. rewrite <- O3.
        apply orb_prop in Ewhy as [Ht|Hq]; [apply Nat.ltb_lt in Ht; by left|].
        apply Z.leb_le in Hq. right. lia.
    + assert (Hseq : sequences = 0 \/
                ((tokens + token_count <= n_batch_)%nat /\ sequences < max_sequences)).
      { destruct (Z.ltb_spec 0 sequences); [right|left; lia].
        rewrite andb_true_r in Eflush. apply orb_false_elim in Eflush as [Ht Hq].
        apply Nat.ltb_ge in Ht. apply Z.leb_gt in Hq. lia. }
      rewrite wrap_i32_id by (unfold in_i32, i32_min, i32_max in *; lia).
      apply IH; [exact Hd'|lia|]. split; try lia.
      by rewrite (range_tokens_snoc _ _ _ _ O1 Hc), <- O3.
Qed.

(** The plan covers every document once and in order; each of its batches
    has at least one document, no more than the sequences the context has, and
    no more tokens than a batch holds, unless it is one document that alone is
    larger; and it is greedy: no batch could have taken the next document. *)
Theorem embedding_plan_covers (token_counts : list nat) (n_batch_ : nat) (max_sequences : Z)
    (Hmax : max_sequences <= i32_max) :
  concat (map range_indices (plan_embedding_batches token_counts n_batch_ max_sequences))
  = seq 0 (length token_counts) /\
  Forall (range_planned token_counts n_batch_ max_sequences)
    (plan_embedding_batches token_counts n_batch_ max_sequences).
Proof.
  destruct (plan_loop_spec token_counts token_counts n_batch_ max_sequences 0 0 0 0)
    as [Hcat Hall]; [exact Hmax|done|lia| |].
  { split; try lia. done. }
  rewrite Nat.sub_0_r in Hcat. by split.
Qed.

Lemma embedding_plan_covers_witness :
  plan_embedding_batches [10; 20; 600; 5; 7]%nat 512 4 = [(0, 2); (2, 3); (3, 5)]%nat /\
  concat (map range_indices (plan_embedding_batches [10; 20; 600; 5; 7]%nat 512 4))
  = seq 0 5.
Proof.
  split; [reflexivity|].
  apply (embedding_plan_covers [10; 20; 600; 5; 7]%nat 512 4). vm_compute. discriminate.
Defined.
