(* ===== verification/OpenAI.v ===== *)
(** * The OpenAI endpoints: what their transformers share

    [compatibility/openai_service/]: errors ([openai_error.rs],
    [responses_error.rs], [try_universal_error_chunk.rs]), the arguments of
    tool calls, the usage object; and [chunk_forwarding_session_controller/],
    the session that turns every message of the request path into the outputs
    of a transformer, which is the class [TransformsOutgoingMessage].

    JSON values are built by [serde_json]'s [json!] and printed by its
    [to_string]: the class [JsonBuilder].  The fields of [TokenUsage] and the
    id of a parsed call belong to the llama.cpp bindings: [OpenAIFields]. *)

From stdpp Require Import pretty.
From S2P Require Import Prelude Messages Tokio Requests ToolCalls.
Local Open Scope Z_scope.

Class JsonBuilder `{JsonTypes} : Type := {
  json_null : JsonValue;
  json_bool : bool -> JsonValue;
  json_number : Z -> JsonValue;
  json_string : string -> JsonValue;
  json_array : list JsonValue -> JsonValue;
  json_object : list (string * JsonValue) -> JsonValue;
  json_to_string : JsonValue -> result string string;
  json_display : JsonValue -> string;
}.

Class OpenAIFields `{LlamaTypes} : Type := {
  call_id : ParsedToolCall -> string;
  prompt_tokens : TokenUsage -> Z;
  cached_prompt_tokens : TokenUsage -> Z;
  input_audio_tokens : TokenUsage -> Z;
  reasoning_tokens : TokenUsage -> Z;
  completion_tokens : TokenUsage -> Z;
  total_tokens : TokenUsage -> Z;
}.

(** [.map(f).collect::<Result<Vec<_>>>()] *)
Fixpoint collect_results {A B E : Type} (f : A -> result B E) (l : list A) : result (list B) E :=
  match l with
  | [] => Ok []
  | x :: rest =>
      let? y := f x in
      let? ys := collect_results f rest in
      Ok (y :: ys)
  end.

(** Strings one after the other. *)
Definition join_text (texts : list string) : string := foldr String.app ""%string texts.

Lemma join_text_app (l1 l2 : list string) : join_text (l1 ++ l2) = join_text l1 +:+ join_text l2.
Proof.
  unfold join_text. induction l1 as [|x l1 IH]; [done|]. simpl. by rewrite IH, string_app_assoc.
Qed.

Lemma join_text_snoc (l : list string) (x : string) : join_text (l ++ [x]) = join_text l +:+ x.
Proof. rewrite join_text_app. simpl. by rewrite string_app_nil_r. Qed.

(** ** Transformers and the session *)

Inductive TransformResult : Type :=
| Chunk (text : string)
| Discard
| TransformError (text : string).

(** The trait [TransformsOutgoingMessage]; the state behind the transformer's
    mutex is threaded, also when the transformation fails. *)
Class TransformsOutgoingMessage `{LlamaTypes} (T State Output : Type) : Type :=
  transform : T -> State -> OutgoingMessage -> State * result (list Output) string.
#[global] Hint Mode TransformsOutgoingMessage - ! - - : typeclass_instances.

Section Session.
Context `{LlamaTypes} {T State Output : Type} `{!TransformsOutgoingMessage T State Output}.
Context {chan : Type -> Type} `{!UnboundedChannel chan}.

Record ChunkForwardingSessionController : Type := {
  chunk_tx : chan Output;
  transformer : T;
  transformer_state : State;
}.

(** The loop over the outputs; a closed channel ends it. *)
Fixpoint send_chunks (outputs : list Output) (tx : chan Output) : chan Output * bool :=
  match outputs with
  | [] => (tx, true)
  | o :: rest =>
      match chan_send tx o with
      | None => (tx, false)
      | Some tx' => send_chunks rest tx'
      end
  end.

(** [ControlsSession::send_response]: whether it succeeded. *)
Definition session_send_response (message : OutgoingMessage)
    (c : ChunkForwardingSessionController) : ChunkForwardingSessionController * bool :=
  match transform (transformer c) (transformer_state c) message with
  | (s', Err _) =>
      ({| chunk_tx := chunk_tx c; transformer := transformer c; transformer_state := s' |}, false)
  | (s', Ok outputs) =>
      let '(tx', ok) := send_chunks outputs (chunk_tx c) in
      ({| chunk_tx := tx'; transformer := transformer c; transformer_state := s' |}, ok)
  end.

(** The messages of one request, up to the first that cannot be sent: after
    it the request path sends nothing more. *)
Fixpoint session_run (messages : list OutgoingMessage) (c : ChunkForwardingSessionController)
    : ChunkForwardingSessionController * bool :=
  match messages with
  | [] => (c, true)
  | m :: rest =>
      match session_send_response m c with
      | (c', true) => session_run rest c'
      | (c', false) => (c', false)
      end
  end.

(** The same run without the channel: the outputs of every message. *)
Fixpoint transform_all (t : T) (s : State) (messages : list OutgoingMessage)
    : State * result (list Output) string :=
  match messages with
  | [] => (s, Ok [])
  | m :: rest =>
      match transform t s m with
      | (s', Err e) => (s', Err e)
      | (s', Ok outputs) =>
          match transform_all t s' rest with
          | (s2, Err e) => (s2, Err e)
          | (s2, Ok more) => (s2, Ok (outputs ++ more))
          end
      end
  end.

Lemma send_chunks_alive (outputs : list Output) (tx : chan Output) :
  chan_receiver_alive tx = true ->
  exists tx', send_chunks outputs tx = (tx', true) /\
    chan_pending tx' = chan_pending tx ++ outputs /\ chan_receiver_alive tx' = true.
Proof.
  revert tx. induction outputs as [|o rest IH]; intros tx Hal; simpl.
  - exists tx. by rewrite app_nil_r.
  - destruct (chan_send tx o) as [tx1|] eqn:Hs.
    + apply chan_send_some in Hs as [Hp Ha]. destruct (IH tx1 Ha) as (tx' & -> & Hp' & Ha').
      exists tx'. split_and!; [done| |done]. by rewrite Hp', Hp, <- app_assoc.
    + apply chan_send_none in Hs. congruence.
Qed.

(** While the client reads, the session puts on the channel exactly the
    outputs of the transformer. *)
Lemma session_run_outputs (messages : list OutgoingMessage) (c : ChunkForwardingSessionController)
    (s' : State) (outputs : list Output) :
  chan_receiver_alive (chunk_tx c) = true ->
  transform_all (transformer c) (transformer_state c) messages = (s', Ok outputs) ->
  exists c', session_run messages c = (c', true) /\
    chan_pending (chunk_tx c') = chan_pending (chunk_tx c) ++ outputs /\
    transformer_state c' = s'.
Proof.
  revert c outputs. induction messages as [|m rest IH]; intros c outputs Hal Ht; simpl in *.
  - simplify_eq. exists c. by rewrite app_nil_r.
  - unfold session_send_response.
    destruct (transform (transformer c) (transformer_state c) m) as [s1 [out|e]] eqn:Hm; [|done].
    destruct (send_chunks_alive out (chunk_tx c) Hal) as (tx' & Hsend & Hp & Ha). rewrite Hsend.
    destruct (transform_all (transformer c) s1 rest) as [s2 [more|e]] eqn:Hr; [|done].
    simplify_eq.
    destruct (IH {| chunk_tx := tx'; transformer := transformer c; transformer_state := s1 |}
      more Ha Hr) as (c' & Hrun & Hp' & Hs').
    exists c'. split_and!; [done| |done]. rewrite Hp'. simpl. by rewrite Hp, <- app_assoc.
Qed.

Lemma transform_all_app (t : T) (s s1 : State) (l1 l2 : list OutgoingMessage)
    (out1 : list Output) :
  transform_all t s l1 = (s1, Ok out1) ->
  transform_all t s (l1 ++ l2)
  = match transform_all t s1 l2 with
    | (s2, Err e) => (s2, Err e)
    | (s2, Ok out2) => (s2, Ok (out1 ++ out2))
    end.
Proof.
  revert s out1. induction l1 as [|m l1 IH]; intros s out1 H1; simpl in *.
  - simplify_eq. by destruct (transform_all t s1 l2) as [? [?|?]].
  - destruct (transform t s m) as [s' [o|e]]; [|done].
    destruct (transform_all t s' l1) as [s2 [more|e]] eqn:Hr; [|done]. simplify_eq.
    rewrite (IH s' more Hr). destruct (transform_all t s1 l2) as [s3 [o2|e]]; [|done].
    by rewrite app_assoc.
Qed.

End Session.
Arguments ChunkForwardingSessionController T State Output chan : clear implicits.

(** ** Errors *)

Record OpenAIError : Type := {
  error_type : string;
  openai_error_message : string;
}.

Section Errors.
Context `{LlamaTypes}.

Definition validation_failure_message (errors : list string) : string :=
  match errors with
  | first :: _ => first
  | [] => "tool call failed validation"
  end.

Definition unrecognized_tool_call_format_message (raw : RawToolCallTokens) : string :=
  "model produced output the parser did not recognise as any registered tool-call format; FFI error: "
  +:+ ffi_error_message raw +:+ "; raw text: " +:+ raw_text raw.

Definition image_exceeds_batch_size_message (details : OversizedImageDetails) : string :=
  "image required " +:+ pretty (image_tokens details) +:+ " tokens but agent n_batch is "
  +:+ pretty (oversized_image_n_batch details) +:+ "; rerun with a larger n_batch".

Definition description_from_error_token (token : GeneratedTokenResult) : option string :=
  match token with
  | ChatTemplateError description | DetokenizationFailed description
  | GrammarIncompatibleWithThinking description | GrammarRejectedModelOutput description
  | GrammarInitializationFailed description | GrammarSyntaxError description
  | ImageDecodingFailed description | MultimodalNotSupported description
  | SamplerError description | TokenGenerationDisabled description
  | ToolCallParseFailed description | ToolSchemaInvalid description => Some description
  | _ => None
  end.

Definition server_error (message : string) : OpenAIError :=
  {| error_type := "server_error"; openai_error_message := message |}.

Definition server_error_from_token (token : GeneratedTokenResult) : option OpenAIError :=
  match token with
  | ImageExceedsBatchSize details => Some (server_error (image_exceeds_batch_size_message details))
  | ToolCallValidationFailed errors => Some (server_error (validation_failure_message errors))
  | UnrecognizedToolCallFormat raw =>
      Some (server_error (unrecognized_tool_call_format_message raw))
  | other => server_error <$> description_from_error_token other
  end.

Definition classify (message : OutgoingMessage) : option OpenAIError :=
  match message with
  | OutgoingMessageError envelope => Some (server_error (description (error envelope)))
  | OutgoingMessageNotification _ => None
  | OutgoingMessageResponse envelope =>
      match response envelope with
      | OutgoingGeneratedToken token => server_error_from_token token
      | OutgoingTimeout =>
          Some {| error_type := "timeout"; openai_error_message := "request timed out" |}
      | OutgoingTooManyBufferedRequests =>
          Some {| error_type := "rate_limit_error";
                  openai_error_message := "too many buffered requests" |}
      | OutgoingEmbedding _ => None
      end
  end.

Definition is_embedding_response (message : OutgoingMessage) : bool :=
  match message with
  | OutgoingMessageResponse envelope =>
      match response envelope with OutgoingEmbedding _ => true | _ => false end
  | _ => false
  end.

Definition responses_error (message : OutgoingMessage) : option OpenAIError :=
  if is_embedding_response message
  then Some {| error_type := "invalid_request_error";
               openai_error_message := "unexpected embedding response in responses" |}
  else classify message.

Context `{JsonBuilder}.

Definition to_envelope (e : OpenAIError) : JsonValue :=
  json_object
    [("error",
      json_object
        [("message", json_string (openai_error_message e));
         ("type", json_string (error_type e));
         ("param", json_null);
         ("code", json_null)])]%string.

Definition try_universal_error_chunk (message : OutgoingMessage) : option TransformResult :=
  if is_embedding_response message
  then Some (TransformError (json_display (to_envelope
         {| error_type := "invalid_request_error";
            openai_error_message := "unexpected embedding response in chat completions" |})))
  else (fun e => TransformError (json_display (to_envelope e))) <$> classify message.

(** ** Tool-call arguments and usage *)

Definition arguments_to_tool_call_string (arguments : ToolCallArguments JsonValue)
    : result string string :=
  match arguments with
  | ValidJson value => json_to_string value
  | InvalidJson raw => Ok raw
  end.

Context `{!OpenAIFields}.

Definition openai_usage_json (u : TokenUsage) : JsonValue :=
  json_object
    [("prompt_tokens", json_number (prompt_tokens u));
     ("completion_tokens", json_number (completion_tokens u));
     ("total_tokens", json_number (total_tokens u));
     ("prompt_tokens_details",
      json_object [("cached_tokens", json_number (cached_prompt_tokens u));
                   ("audio_tokens", json_number (input_audio_tokens u))]);
     ("completion_tokens_details",
      json_object [("reasoning_tokens", json_number (reasoning_tokens u))])]%string.

End Errors.

(** ** The messages of one generation *)

Section Tokens.
Context `{LlamaTypes}.

(** A token the transformers turn into output; the others are errors, or the
    end of the stream. *)
Definition is_content (token : GeneratedTokenResult) : bool :=
  match token with
  | ContentToken _ | UndeterminableToken _ | ReasoningToken _ | ToolCallToken _
  | ToolCallParsed _ => true
  | _ => false
  end.

(** What the request path makes of a token. *)
Definition token_message (generated_by_ : option string) (request_id : string)
    (token : GeneratedTokenResult) : OutgoingMessage :=
  OutgoingMessageResponse
    {| generated_by := generated_by_; response_request_id := request_id;
       response := OutgoingGeneratedToken token |}.

(** Every token is content, the end of the stream, or a classified error:
    none is left to the branches that "do not know how to handle" it. *)
Lemma tokens_are_classified (token : GeneratedTokenResult) :
  match server_error_from_token token with
  | Some _ => is_content token = false /\ forall summary, token <> Done summary
  | None => is_content token = true \/ exists summary, token = Done summary
  end.
Proof. destruct token; simpl; eauto; split; done. Qed.

Definition content_text (token : GeneratedTokenResult) : option string :=
  match token with
  | ContentToken text | UndeterminableToken text => Some text
  | _ => None
  end.

Definition reasoning_text_of (token : GeneratedTokenResult) : option string :=
  match token with
  | ReasoningToken text => Some text
  | _ => None
  end.

Definition parsed_calls_of (token : GeneratedTokenResult) : list ParsedToolCall :=
  match token with
  | ToolCallParsed calls => calls
  | _ => []
  end.

(** The text and the calls a sequence of tokens carries. *)
Definition all_content (tokens : list GeneratedTokenResult) : string :=
  join_text (omap content_text tokens).
Definition all_reasoning (tokens : list GeneratedTokenResult) : string :=
  join_text (omap reasoning_text_of tokens).
Definition all_calls (tokens : list GeneratedTokenResult) : list ParsedToolCall :=
  tokens ≫= parsed_calls_of.

Lemma all_content_cons (token : GeneratedTokenResult) (tokens : list GeneratedTokenResult) :
  all_content (token :: tokens)
  = default ""%string (content_text token) +:+ all_content tokens.
Proof. unfold all_content. simpl. by destruct (content_text token). Qed.

Lemma all_reasoning_cons (token : GeneratedTokenResult) (tokens : list GeneratedTokenResult) :
  all_reasoning (token :: tokens)
  = default ""%string (reasoning_text_of token) +:+ all_reasoning tokens.
Proof. unfold all_reasoning. simpl. by destruct (reasoning_text_of token). Qed.

Lemma all_calls_cons (token : GeneratedTokenResult) (tokens : list GeneratedTokenResult) :
  all_calls (token :: tokens) = parsed_calls_of token ++ all_calls tokens.
Proof. done. Qed.

End Tokens.

(** ** A concrete builder, to run the definitions: values are their text *)

#[export] Instance plain_json_builder : JsonBuilder := {|
  json_null := "null"%string;
  json_bool b := if b then "true"%string else "false"%string;
  json_number z := pretty z;
  json_string s := s;
  json_array l := "[" +:+ join_text (map (fun v => v +:+ ",") l) +:+ "]";
  json_object l := "{" +:+ join_text (map (fun p => fst p +:+ ":" +:+ snd p +:+ ",") l) +:+ "}";
  json_to_string v := Ok v;
  json_display v := v;
|}.

#[export] Instance plain_openai_fields : OpenAIFields := {|
  call_id c := c;
  prompt_tokens u := u;
  cached_prompt_tokens _ := 0;
  input_audio_tokens _ := 0;
  reasoning_tokens _ := 0;
  completion_tokens u := u;
  total_tokens u := u + u;
|}.

Lemma plain_json_total (v : JsonValue) : exists s : string, json_to_string v = Ok s.
Proof. by exists v. Qed.
