(* ===== verification/ChatCompletions.v ===== *)
(** * Chat completions, streamed and collected

    [openai_streaming_response_transformer.rs],
    [openai_non_streaming_response_transformer.rs], their states,
    [chat_completions_sse_response.rs] and the second half of
    [http_route/post_chat_completions.rs], which turns the collected outputs
    into one response. *)

From S2P Require Import Prelude Messages Tokio Requests ToolCalls OpenAI.
Local Open Scope Z_scope.

Section ChatCompletions.
Context `{JsonTypes} `{LlamaTypes} `{!ToolCallBackend} `{!JsonBuilder} `{!OpenAIFields}.

(** ** The streaming transformer *)

Record OpenAIStreamingState : Type := { saw_tool_call : bool }.

Definition openai_streaming_state_default : OpenAIStreamingState := {| saw_tool_call := false |}.

Record OpenAIStreamingResponseTransformer : Type := {
  streaming_created : Z;
  include_usage : bool;
  streaming_model : string;
  system_fingerprint : string;
}.

Definition chunk_header (t : OpenAIStreamingResponseTransformer) (request_id : string)
    : list (string * JsonValue) :=
  [("id", json_string request_id);
   ("object", json_string "chat.completion.chunk");
   ("created", json_number (streaming_created t));
   ("model", json_string (streaming_model t));
   ("system_fingerprint", json_string (system_fingerprint t))]%string.

Definition chunk_choice (delta finish_reason : JsonValue) : string * JsonValue :=
  ("choices",
   json_array [json_object [("index", json_number 0); ("delta", delta);
                            ("logprobs", json_null); ("finish_reason", finish_reason)]])%string.

Definition content_chunk (t : OpenAIStreamingResponseTransformer) (request_id text : string)
    : result string string :=
  json_to_string (json_object (chunk_header t request_id ++
    [chunk_choice (json_object [("role", json_string "assistant");
                                ("content", json_string text)]%string) json_null])).

Definition streaming_tool_call (index : nat) (call : ParsedToolCall) : result JsonValue string :=
  let? arguments := arguments_to_tool_call_string (call_arguments call) in
  Ok (json_object
        [("index", json_number (Z.of_nat index));
         ("id", json_string (call_id call));
         ("type", json_string "function");
         ("function", json_object [("name", json_string (call_name call));
                                   ("arguments", json_string arguments)])]%string).

Definition tool_calls_chunk (t : OpenAIStreamingResponseTransformer) (request_id : string)
    (parsed_calls : list ParsedToolCall) : result string string :=
  let? tool_calls := collect_results (fun p => streaming_tool_call (fst p) (snd p))
                       (zip (seq 0 (length parsed_calls)) parsed_calls) in
  json_to_string (json_object (chunk_header t request_id ++
    [chunk_choice (json_object [("role", json_string "assistant");
                                ("tool_calls", json_array tool_calls)]%string) json_null])).

Definition finish_chunk (t : OpenAIStreamingResponseTransformer) (request_id finish_reason : string)
    : result string string :=
  json_to_string (json_object (chunk_header t request_id ++
    [chunk_choice (json_object []) (json_string finish_reason)])).

Definition usage_chunk (t : OpenAIStreamingResponseTransformer) (request_id : string)
    (u : TokenUsage) : result string string :=
  json_to_string (json_object (chunk_header t request_id ++
    [("choices", json_array []); ("usage", openai_usage_json u)]%string)).

Definition handle_content (t : OpenAIStreamingResponseTransformer) (request_id text : string)
    : result (list TransformResult) string :=
  let? chunk := content_chunk t request_id text in Ok [Chunk chunk].

Definition handle_tool_call_parsed (t : OpenAIStreamingResponseTransformer) (request_id : string)
    (parsed_calls : list ParsedToolCall) (s : OpenAIStreamingState)
    : OpenAIStreamingState * result (list TransformResult) string :=
  match parsed_calls with
  | [] => (s, Ok [])
  | _ :: _ =>
      ({| saw_tool_call := true |},
       let? chunk := tool_calls_chunk t request_id parsed_calls in Ok [Chunk chunk])
  end.

Definition finish_reason_for (has_tool_calls : bool) : string :=
  if has_tool_calls then "tool_calls" else "stop".

Definition handle_done (t : OpenAIStreamingResponseTransformer) (request_id : string)
    (summary : GenerationSummary) (s : OpenAIStreamingState) : result (list TransformResult) string :=
  let? finish := finish_chunk t request_id (finish_reason_for (saw_tool_call s)) in
  if include_usage t then
    let? usage_ := usage_chunk t request_id (usage summary) in
    Ok [Chunk finish; Chunk usage_]
  else Ok [Chunk finish].

#[export] Instance streaming_transform :
    TransformsOutgoingMessage OpenAIStreamingResponseTransformer OpenAIStreamingState
      TransformResult := fun t s message =>
  match try_universal_error_chunk message with
  | Some error_chunk => (s, Ok [error_chunk])
  | None =>
      match message with
      | OutgoingMessageResponse envelope =>
          let request_id := response_request_id envelope in
          match response envelope with
          | OutgoingGeneratedToken (ContentToken text | UndeterminableToken text) =>
              (s, handle_content t request_id text)
          | OutgoingGeneratedToken (ReasoningToken _ | ToolCallToken _) => (s, Ok [])
          | OutgoingGeneratedToken (ToolCallParsed parsed_calls) =>
              handle_tool_call_parsed t request_id parsed_calls s
          | OutgoingGeneratedToken (Done summary) => (s, handle_done t request_id summary s)
          | _ => (s, Err "received an outgoing message it does not know how to handle"%string)
          end
      | _ => (s, Err "received an outgoing message it does not know how to handle"%string)
      end
  end.

(** ** The non-streaming transformer *)

Record OpenAINonStreamingState : Type := {
  collected_content : string;
  collected_tool_calls : list ParsedToolCall;
}.

Definition openai_non_streaming_state_default : OpenAINonStreamingState :=
  {| collected_content := ""; collected_tool_calls := [] |}.

Record OpenAINonStreamingResponseTransformer : Type := {
  completion_created : Z;
  completion_model : string;
}.

Definition append_content (text : string) (s : OpenAINonStreamingState) : OpenAINonStreamingState :=
  {| collected_content := collected_content s +:+ text;
     collected_tool_calls := collected_tool_calls s |}.

Definition append_tool_calls (parsed_calls : list ParsedToolCall) (s : OpenAINonStreamingState)
    : OpenAINonStreamingState :=
  {| collected_content := collected_content s;
     collected_tool_calls := collected_tool_calls s ++ parsed_calls |}.

Definition completion_tool_call (call : ParsedToolCall) : result JsonValue string :=
  let? arguments := arguments_to_tool_call_string (call_arguments call) in
  Ok (json_object
        [("id", json_string (call_id call));
         ("type", json_string "function");
         ("function", json_object [("name", json_string (call_name call));
                                   ("arguments", json_string arguments)])]%string).

Definition build_done_chunk (t : OpenAINonStreamingResponseTransformer) (request_id : string)
    (summary : GenerationSummary) (snapshot : OpenAINonStreamingState) : result string string :=
  let has_tool_calls := negb (bool_decide (collected_tool_calls snapshot = [])) in
  let? tool_calls_json := collect_results completion_tool_call (collected_tool_calls snapshot) in
  let message_obj :=
    json_object
      ([("role", json_string "assistant");
        ("content", if bool_decide (collected_content snapshot = ""%string) && has_tool_calls
                    then json_null else json_string (collected_content snapshot));
        ("refusal", json_null);
        ("annotations", json_array [])]%string
       ++ if has_tool_calls then [("tool_calls", json_array tool_calls_json)]%string else []) in
  json_to_string
    (json_object
      [("id", json_string request_id);
       ("object", json_string "chat.completion");
       ("created", json_number (completion_created t));
       ("model", json_string (completion_model t));
       ("choices", json_array
          [json_object [("index", json_number 0); ("message", message_obj);
                        ("logprobs", json_null);
                        ("finish_reason", json_string (finish_reason_for has_tool_calls))]]);
       ("usage", openai_usage_json (usage summary));
       ("service_tier", json_string "default")]%string).

#[export] Instance non_streaming_transform :
    TransformsOutgoingMessage OpenAINonStreamingResponseTransformer OpenAINonStreamingState
      TransformResult := fun t s message =>
  match try_universal_error_chunk message with
  | Some error_chunk => (s, Ok [error_chunk])
  | None =>
      match message with
      | OutgoingMessageResponse envelope =>
          let request_id := response_request_id envelope in
          match response envelope with
          | OutgoingGeneratedToken (ContentToken text | UndeterminableToken text) =>
              (append_content text s, Ok [])
          | OutgoingGeneratedToken (ReasoningToken _ | ToolCallToken _) => (s, Ok [])
          | OutgoingGeneratedToken (ToolCallParsed parsed_calls) =>
              (append_tool_calls parsed_calls s, Ok [])
          | OutgoingGeneratedToken (Done summary) =>
              (s, let? chunk := build_done_chunk t request_id summary s in Ok [Chunk chunk])
          | _ => (s, Err "received an outgoing message it does not know how to handle"%string)
          end
      | _ => (s, Err "received an outgoing message it does not know how to handle"%string)
      end
  end.

(** ** The two responses *)

(** The events of [chat_completions_sse_response]: every chunk and error as
    data, then the sentinel. *)
Definition chat_completions_sse_response (outputs : list TransformResult) : list string :=
  omap (fun r => match r with
                 | Chunk text | TransformError text => Some text
                 | Discard => None
                 end) outputs ++ ["[DONE]"%string].

Record HttpResponse : Type := {
  status : Z;
  body : string;
}.

Definition first_error (results : list TransformResult) : option string :=
  head (omap (fun r => match r with TransformError e => Some e | _ => None end) results).

Definition first_chunk (results : list TransformResult) : option string :=
  head (omap (fun r => match r with Chunk c => Some c | _ => None end) results).

(** The end of [respond]: an error wins over a completion. *)
Definition collected_response (nothing_produced : string) (results : list TransformResult)
    : HttpResponse :=
  match first_error results with
  | Some error_json => {| status := 500; body := error_json |}
  | None =>
      match first_chunk results with
      | Some json_body => {| status := 200; body := json_body |}
      | None =>
          {| status := 500; body := json_display (to_envelope (server_error nothing_produced)) |}
      end
  end.

(** ** What a streaming client reads: deltas

    The abstract content of the chunks of one stream, and the chunk each of
    them is rendered as. *)

Inductive ChatDelta : Type :=
| ContentDelta (text : string)
| ToolCallsDelta (calls : list ParsedToolCall)
| FinishDelta (reason : string)
| UsageDelta (u : TokenUsage).

Definition render_delta (t : OpenAIStreamingResponseTransformer) (request_id : string)
    (d : ChatDelta) : result string string :=
  match d with
  | ContentDelta text => content_chunk t request_id text
  | ToolCallsDelta calls => tool_calls_chunk t request_id calls
  | FinishDelta reason => finish_chunk t request_id reason
  | UsageDelta u => usage_chunk t request_id u
  end.

(** How a client puts the deltas together. *)
Definition delta_content (deltas : list ChatDelta) : string :=
  join_text
    (omap (fun d => match d with ContentDelta text => Some text | _ => None end) deltas).
Definition delta_calls (deltas : list ChatDelta) : list ParsedToolCall :=
  deltas ≫= fun d => match d with ToolCallsDelta calls => calls | _ => [] end.

Definition token_delta (token : GeneratedTokenResult) : list ChatDelta :=
  match token with
  | ContentToken text | UndeterminableToken text => [ContentDelta text]
  | ToolCallParsed [] => []
  | ToolCallParsed calls => [ToolCallsDelta calls]
  | _ => []
  end.

Definition closing_deltas (t : OpenAIStreamingResponseTransformer) (has_tool_calls : bool)
    (summary : GenerationSummary) : list ChatDelta :=
  FinishDelta (finish_reason_for has_tool_calls)
  :: if include_usage t then [UsageDelta (usage summary)] else [].

Lemma delta_content_app (d1 d2 : list ChatDelta) :
  delta_content (d1 ++ d2) = delta_content d1 +:+ delta_content d2.
Proof. unfold delta_content. by rewrite omap_app, join_text_app. Qed.

Lemma delta_calls_app (d1 d2 : list ChatDelta) :
  delta_calls (d1 ++ d2) = delta_calls d1 ++ delta_calls d2.
Proof. unfold delta_calls. apply bind_app. Qed.

Lemma token_delta_content (tokens : list GeneratedTokenResult) :
  delta_content (tokens ≫= token_delta) = all_content tokens.
Proof.
  induction tokens as [|x tokens IH]; [done|]. rewrite bind_cons, delta_content_app, IH.
  destruct x as [| | | | | | | | | | | | | | |[|? ?]| | | | |]; try done;
    cbn; by rewrite string_app_nil_r.
Qed.

Lemma token_delta_calls (tokens : list GeneratedTokenResult) :
  delta_calls (tokens ≫= token_delta) = all_calls tokens.
Proof.
  induction tokens as [|x tokens IH]; [done|]. rewrite bind_cons, delta_calls_app, IH.
  unfold all_calls. rewrite bind_cons. f_equal.
  destruct x as [| | | | | | | | | | | | | | |[|? ?]| | | | |]; try done.
  cbn. by rewrite app_nil_r.
Qed.

Lemma closing_deltas_carry_nothing (t : OpenAIStreamingResponseTransformer) (b : bool)
    (summary : GenerationSummary) (deltas : list ChatDelta) :
  delta_content (deltas ++ closing_deltas t b summary) = delta_content deltas /\
  delta_calls (deltas ++ closing_deltas t b summary) = delta_calls deltas.
Proof.
  unfold delta_content, delta_calls, closing_deltas. rewrite omap_app, bind_app.
  destruct (include_usage t); simpl; by rewrite !app_nil_r.
Qed.

(** ** Facts *)

Section Total.

(** Printing a JSON value succeeds: the keys of its objects are strings. *)
Context (json_to_string_total : forall v, exists s, json_to_string v = Ok s).

Lemma arguments_total (a : ToolCallArguments JsonValue) :
  exists s, arguments_to_tool_call_string a = Ok s.
Proof. destruct a as [v|raw]; simpl; [apply json_to_string_total | by eexists]. Qed.

Lemma collect_results_total {A B E : Type} (f : A -> result B E) (l : list A) :
  (forall x, exists y, f x = Ok y) -> exists ys, collect_results f l = Ok ys.
Proof.
  intros Hf. induction l as [|x l IH]; simpl; [by eexists|].
  destruct (Hf x) as [y ->]. destruct IH as [ys ->]. simpl. by eexists.
Qed.

Lemma render_delta_total (t : OpenAIStreamingResponseTransformer) (request_id : string)
    (d : ChatDelta) : exists s, render_delta t request_id d = Ok s.
Proof.
  destruct d; simpl; try apply json_to_string_total. unfold tool_calls_chunk.
  destruct (collect_results_total (fun p => streaming_tool_call (fst p) (snd p))
    (zip (seq 0 (length calls)) calls)) as [ys ->].
  - intros [i call]. cbn [fst snd]. unfold streaming_tool_call.
    destruct (arguments_total (call_arguments call)) as [s ->]. by eexists.
  - apply json_to_string_total.
Qed.

Lemma build_done_chunk_total (t : OpenAINonStreamingResponseTransformer) (request_id : string)
    (summary : GenerationSummary) (s : OpenAINonStreamingState) :
  exists text, build_done_chunk t request_id summary s = Ok text.
Proof.
  unfold build_done_chunk.
  destruct (collect_results_total completion_tool_call (collected_tool_calls s)) as [ys ->].
  - intros call. unfold completion_tool_call.
    destruct (arguments_total (call_arguments call)) as [a ->]. by eexists.
  - apply json_to_string_total.
Qed.

(** The chunks of a stream of content, by the deltas they render. *)
Definition rendered (t : OpenAIStreamingResponseTransformer) (request_id : string)
    (deltas : list ChatDelta) (outputs : list TransformResult) : Prop :=
  exists chunks, outputs = map Chunk chunks /\
    Forall2 (fun d c => render_delta t request_id d = Ok c) deltas chunks.

Lemma rendered_app (t : OpenAIStreamingResponseTransformer) (request_id : string)
    (d1 d2 : list ChatDelta) (o1 o2 : list TransformResult) :
  rendered t request_id d1 o1 -> rendered t request_id d2 o2 ->
  rendered t request_id (d1 ++ d2) (o1 ++ o2).
Proof.
  intros (c1 & -> & Hc1) (c2 & -> & Hc2). exists (c1 ++ c2). split; [by rewrite map_app|].
  by apply Forall2_app.
Qed.

Lemma rendered_one (t : OpenAIStreamingResponseTransformer) (request_id : string)
    (d : ChatDelta) (c : string) :
  render_delta t request_id d = Ok c -> rendered t request_id [d] [Chunk c].
Proof. intros Hc. exists [c]. split; [done|]. by constructor. Qed.

Lemma streaming_content_step (t : OpenAIStreamingResponseTransformer) (s : OpenAIStreamingState)
    (generated_by_ : option string) (request_id : string) (token : GeneratedTokenResult) :
  is_content token = true ->
  exists outputs,
    transform t s (token_message generated_by_ request_id token)
    = ({| saw_tool_call := saw_tool_call s || negb (bool_decide (parsed_calls_of token = [])) |},
       Ok outputs) /\
    rendered t request_id (token_delta token) outputs.
Proof.
  intros Hc. assert (Hs : forall b, b = false -> {| saw_tool_call := saw_tool_call s || b |} = s).
  { intros b ->. rewrite orb_false_r. by destruct s. }
  pose proof (render_delta_total t request_id) as Hr.
  destruct token; try done; unfold transform, streaming_transform; simpl.
  - destruct (Hr (ContentDelta text)) as [c Hc']. unfold handle_content. simpl in Hc'. rewrite Hc'.
    eexists. rewrite Hs by done. split; [done|]. by apply rendered_one.
  - eexists. rewrite Hs by done. split; [done|]. by exists [].
  - destruct calls as [|call calls].
    + eexists. rewrite Hs by done. split; [done|]. by exists [].
    + destruct (Hr (ToolCallsDelta (call :: calls))) as [c Hc']. simpl in Hc'.
      cbn [handle_tool_call_parsed]. rewrite Hc'. simpl.
      eexists. split; [by rewrite orb_true_r|]. by apply rendered_one.
  - eexists. rewrite Hs by done. split; [done|]. by exists [].
  - destruct (Hr (ContentDelta text)) as [c Hc']. unfold handle_content. simpl in Hc'. rewrite Hc'.
    eexists. rewrite Hs by done. split; [done|]. by apply rendered_one.
Qed.

Lemma has_calls_app (l1 l2 : list ParsedToolCall) :
  negb (bool_decide (l1 ++ l2 = []))
  = negb (bool_decide (l1 = [])) || negb (bool_decide (l2 = [])).
Proof. destruct l1; [done|]. by repeat case_bool_decide. Qed.

Lemma streaming_content_run (t : OpenAIStreamingResponseTransformer) (s : OpenAIStreamingState)
    (generated_by_ : option string) (request_id : string) (tokens : list GeneratedTokenResult) :
  Forall (fun token => is_content token = true) tokens ->
  exists outputs,
    transform_all t s (map (token_message generated_by_ request_id) tokens)
    = ({| saw_tool_call := saw_tool_call s || negb (bool_decide (all_calls tokens = [])) |},
       Ok outputs) /\
    rendered t request_id (tokens ≫= token_delta) outputs.
Proof.
  intros Hc. revert s. induction Hc as [|token tokens Ht Hts IH]; intros s; cbn [map transform_all].
  - exists []. split; [|by exists []]. cbn. rewrite orb_false_r. by destruct s.
  - destruct (streaming_content_step t s generated_by_ request_id token Ht) as (o1 & -> & Ho1).
    destruct (IH {| saw_tool_call :=
      saw_tool_call s || negb (bool_decide (parsed_calls_of token = [])) |}) as (o2 & -> & Ho2).
    exists (o1 ++ o2). split; [|rewrite bind_cons; by apply rendered_app]. do 2 f_equal. cbn [saw_tool_call].
    by rewrite all_calls_cons, has_calls_app, orb_assoc.
Qed.

(** Everything but the last summary is collected; errors pass through. *)
Lemma non_streaming_run (t : OpenAINonStreamingResponseTransformer)
    (s : OpenAINonStreamingState) (generated_by_ : option string) (request_id : string)
    (tokens : list GeneratedTokenResult) :
  Forall (fun token => forall summary, token <> Done summary) tokens ->
  transform_all t s (map (token_message generated_by_ request_id) tokens)
  = ({| collected_content := collected_content s +:+ all_content tokens;
        collected_tool_calls := collected_tool_calls s ++ all_calls tokens |},
     Ok (omap try_universal_error_chunk (map (token_message generated_by_ request_id) tokens))).
Proof.
  intros Hc. revert s. induction Hc as [|token tokens Ht Hts IH]; intros s; cbn [map transform_all].
  - cbn. rewrite string_app_nil_r, app_nil_r. by destruct s.
  - rewrite all_content_cons, all_calls_cons.
    destruct token; try (exfalso; by eapply Ht); unfold transform, non_streaming_transform;
      cbn; rewrite IH; cbn; rewrite ?string_app_assoc, <- ?app_assoc; done.
Qed.

Lemma content_is_no_error (generated_by_ : option string) (request_id : string)
    (tokens : list GeneratedTokenResult) :
  Forall (fun token => is_content token = true) tokens ->
  omap try_universal_error_chunk (map (token_message generated_by_ request_id) tokens) = [].
Proof. induction 1 as [|token tokens Ht Hts IH]; [done|]. by destruct token. Qed.

Lemma content_is_not_done (tokens : list GeneratedTokenResult) :
  Forall (fun token => is_content token = true) tokens ->
  Forall (fun token => forall summary, token <> Done summary) tokens.
Proof. intros Hc. eapply Forall_impl; [exact Hc|]. by intros [] ? ?. Qed.

Lemma sse_of_chunks (chunks : list string) :
  chat_completions_sse_response (map Chunk chunks) = chunks ++ ["[DONE]"%string].
Proof.
  unfold chat_completions_sse_response. f_equal.
  induction chunks as [|c l IH]; [done|]. simpl. f_equal. exact IH.
Qed.

(** The chunks of the stream of a generation without errors are its content
    and tool-call deltas in order, one finish chunk and the usage if it was
    asked for; collecting it gives one completion, of the texts and the calls
    put together. *)
Lemma chat_streaming_rendered (t : OpenAIStreamingResponseTransformer)
    (n : OpenAINonStreamingResponseTransformer) (generated_by_ : option string)
    (request_id : string) (tokens : list GeneratedTokenResult) (summary : GenerationSummary)
    (Hcontent : Forall (fun token => is_content token = true) tokens) :
  let messages := map (token_message generated_by_ request_id) (tokens ++ [Done summary]) in
  let deltas := tokens ≫= token_delta in
  exists outputs chunks completion,
    snd (transform_all t openai_streaming_state_default messages) = Ok outputs /\
    chat_completions_sse_response outputs = chunks ++ ["[DONE]"%string] /\
    Forall2 (fun d c => render_delta t request_id d = Ok c)
      (deltas ++ closing_deltas t (negb (bool_decide (all_calls tokens = []))) summary) chunks /\
    snd (transform_all n openai_non_streaming_state_default messages) = Ok [Chunk completion] /\
    build_done_chunk n request_id summary
      {| collected_content := all_content tokens; collected_tool_calls := all_calls tokens |}
    = Ok completion.
Proof.
  intros messages deltas. subst messages. rewrite map_app.
  destruct (streaming_content_run t openai_streaming_state_default generated_by_ request_id tokens
    Hcontent) as (o1 & Hrun & Hren).
  set (b := negb (bool_decide (all_calls tokens = []))) in *.
  assert (Hclose : exists o2, handle_done t request_id summary {| saw_tool_call := b |} = Ok o2 /\
    rendered t request_id (closing_deltas t b summary) o2).
  { unfold handle_done, closing_deltas. cbn [saw_tool_call].
    destruct (render_delta_total t request_id (FinishDelta (finish_reason_for b))) as [f Hf].
    destruct (render_delta_total t request_id (UsageDelta (usage summary))) as [u Hu].
    pose proof (rendered_one t request_id _ _ Hf) as Rf.
    pose proof (rendered_one t request_id _ _ Hu) as Ru.
    simpl in Hf, Hu. rewrite Hf. simpl. destruct (include_usage t); [rewrite Hu|]; simpl;
      eexists; (split; [done|]); [|done]. apply (rendered_app _ _ [_] [_] _ _ Rf Ru). }
  destruct Hclose as (o2 & Hdone & Hren2).
  destruct (rendered_app _ _ _ _ _ _ Hren Hren2) as (chunks & Hout & Hch).
  destruct (build_done_chunk_total n request_id summary
    {| collected_content := all_content tokens; collected_tool_calls := all_calls tokens |})
    as [completion Hcompl].
  exists (o1 ++ o2), chunks, completion.
  rewrite (transform_all_app _ _ _ _ _ _ Hrun).
  rewrite (transform_all_app _ _ _ _ _ _
    (non_streaming_run n openai_non_streaming_state_default generated_by_ request_id tokens
       (content_is_not_done _ Hcontent))).
  rewrite content_is_no_error by done.
  split_and!; [| |exact Hch| |exact Hcompl].
  - cbn in Hdone |- *. rewrite Hdone. cbn. by rewrite app_nil_r.
  - rewrite Hout. apply sse_of_chunks.
  - cbn -[build_done_chunk all_content all_calls]. change (""%string +:+ all_content tokens) with (all_content tokens). by rewrite Hcompl.
Qed.

(** The answer of the non-streaming endpoint: an error anywhere in the
    stream wins, in the order of the stream, even over a completion; without
    one the answer is the completion of everything that was generated if the
    stream ended with a summary, and an error of its own otherwise. *)
Theorem chat_completion_answer (n : OpenAINonStreamingResponseTransformer)
    (generated_by_ : option string) (request_id : string) (tokens : list GeneratedTokenResult)
    (last_message : OutgoingMessage)
    (Htokens : Forall (fun token => is_done token = false) tokens)
    (Hlast : forall notification, last_message <> OutgoingMessageNotification notification) :
  let messages := map (token_message generated_by_ request_id) tokens ++ [last_message] in
  exists results,
    snd (transform_all n openai_non_streaming_state_default messages) = Ok results /\
    let answer := collected_response "no completion produced" results in
    match omap try_universal_error_chunk messages, last_message with
    | TransformError e :: _, _ => answer = {| status := 500; body := e |}
    | [], OutgoingMessageResponse
            {| response_request_id := rid;
               response := OutgoingGeneratedToken (Done summary) |} =>
        status answer = 200 /\
        build_done_chunk n rid summary
          {| collected_content := all_content tokens; collected_tool_calls := all_calls tokens |}
        = Ok (body answer)
    | _, _ => status answer = 500
    end.
Proof.
  assert (Hnd : Forall (fun token => forall summary, token <> Done summary) tokens).
  { eapply Forall_impl; [exact Htokens|]. by intros [] ? ?. }
  intros messages. subst messages.
  rewrite (transform_all_app _ _ _ _ _ _
    (non_streaming_run n openai_non_streaming_state_default generated_by_ request_id tokens Hnd)).
  rewrite omap_app. cbn [collected_content collected_tool_calls openai_non_streaming_state_default].
  change (""%string +:+ all_content tokens) with (all_content tokens). rewrite app_nil_l.
  set (errors := omap try_universal_error_chunk (map (token_message generated_by_ request_id) tokens)).
  set (s1 := {| collected_content := all_content tokens; collected_tool_calls := all_calls tokens |}).
  assert (Herr : forall more, (errors = [] /\ True) \/
    exists e rest, errors = TransformError e :: rest /\
      collected_response "no completion produced" (errors ++ more) = {| status := 500; body := e |}).
  { intros more. destruct errors as [|r rest] eqn:He; [by left | right].
    assert (Hr : exists e, r = TransformError e).
    { assert (Hin : r ∈ errors) by (rewrite He; left). unfold errors in Hin.
      apply list_elem_of_omap in Hin as (m & _ & Hm). unfold try_universal_error_chunk in Hm.
      destruct (is_embedding_response m); [by simplify_eq; eexists|].
      destruct (classify m); simplify_eq/=. by eexists. }
    destruct Hr as [e ->]. by exists e, rest. }
  pose proof (fun rid summary => build_done_chunk_total n rid summary s1) as Htotal.
  cbn [transform_all].
  destruct (transform n s1 last_message) as [s2 [out|err]] eqn:Htr.
  - exists (errors ++ out ++ []). rewrite app_nil_r. split; [done|].
    destruct (Herr out) as [[-> _]|(e & rest & -> & Ha)]; [|exact Ha]. simpl.
    apply (f_equal snd) in Htr. unfold transform, non_streaming_transform in Htr. simpl in Htr |- *.
    destruct (try_universal_error_chunk last_message) as [c|] eqn:Hc.
    + simpl in Htr. injection Htr as <-. unfold try_universal_error_chunk in Hc.
      destruct (is_embedding_response last_message); [by injection Hc as <-|].
      destruct (classify last_message); simpl in Hc; [by injection Hc as <-|done].
    + destruct last_message as [?|?|[by_ rid [?|[]| |]]]; simpl in Hc, Htr; try discriminate;
        try (injection Htr as <-); try done.
      destruct (Htotal rid summary) as [c Hb]. rewrite Hb in Htr. simpl in Htr.
      injection Htr as <-. done.
  - exfalso. apply (f_equal snd) in Htr.
    unfold transform, non_streaming_transform, try_universal_error_chunk in Htr.
    destruct last_message as [?|?|[by_ rid [?|[]| |]]]; simpl in Htr; try discriminate;
      [by apply (Hlast notification)|].
    destruct (Htotal rid summary) as [c Hb]. rewrite Hb in Htr. done.
Qed.

(** Every message that carries calls numbers them from zero: the calls of a
    second tool-call section of the same answer get the indexes of the first,
    by which clients of the OpenAI API tell the calls of an answer apart. *)
Lemma chat_tool_call_indexes_restart (t : OpenAIStreamingResponseTransformer)
    (s : OpenAIStreamingState) (generated_by_ : option string) (request_id : string)
    (call1 call2 : ParsedToolCall) :
  exists chunk1 chunk2 j1 j2,
    snd (transform_all t s (map (token_message generated_by_ request_id)
           [ToolCallParsed [call1]; ToolCallParsed [call2]]))
    = Ok [Chunk chunk1; Chunk chunk2] /\
    streaming_tool_call 0 call1 = Ok j1 /\ streaming_tool_call 0 call2 = Ok j2 /\
    json_to_string (json_object (chunk_header t request_id ++
      [chunk_choice (json_object [("role", json_string "assistant");
                                  ("tool_calls", json_array [j1])]%string) json_null]))
    = Ok chunk1 /\
    json_to_string (json_object (chunk_header t request_id ++
      [chunk_choice (json_object [("role", json_string "assistant");
                                  ("tool_calls", json_array [j2])]%string) json_null]))
    = Ok chunk2.
Proof.
  assert (Hj : forall call, exists j, streaming_tool_call 0 call = Ok j).
  { intros call. unfold streaming_tool_call.
    destruct (arguments_total (call_arguments call)) as [a ->]. by eexists. }
  destruct (Hj call1) as [j1 H1']. destruct (Hj call2) as [j2 H2'].
  destruct (render_delta_total t request_id (ToolCallsDelta [call1])) as [c1 Hc1].
  destruct (render_delta_total t request_id (ToolCallsDelta [call2])) as [c2 Hc2].
  exists c1, c2, j1, j2. simpl in Hc1, Hc2.
  split; [|unfold tool_calls_chunk in Hc1, Hc2; simpl in Hc1, Hc2; rewrite H1' in Hc1;
           rewrite H2' in Hc2; done].
  cbn -[tool_calls_chunk]. rewrite Hc1. cbn -[tool_calls_chunk]. rewrite Hc2. done.
Qed.

End Total.

(** A failed tool call does not end a generation: the stream carries an error
    and then finishes as if nothing had happened, with the reason "stop". *)
Lemma chat_stream_finishes_after_error (t : OpenAIStreamingResponseTransformer)
    (generated_by_ : option string) (request_id message : string) (summary : GenerationSummary)
    (chunk : string) :
  include_usage t = false -> finish_chunk t request_id "stop" = Ok chunk ->
  snd (transform_all t openai_streaming_state_default
        (map (token_message generated_by_ request_id)
           [ToolCallValidationFailed [message]; Done summary]))
  = Ok [TransformError (json_display (to_envelope (server_error message))); Chunk chunk].
Proof.
  intros Hu Hc. cbn -[finish_chunk to_envelope]. unfold handle_done. cbn -[finish_chunk to_envelope].
  rewrite Hc. simpl. rewrite Hu. done.
Qed.

End ChatCompletions.

(** ** Witnesses *)

Definition example_streaming : OpenAIStreamingResponseTransformer :=
  {| streaming_created := 1; include_usage := true; streaming_model := "m";
     system_fingerprint := "fp" |}.
Definition example_collecting : OpenAINonStreamingResponseTransformer :=
  {| completion_created := 1; completion_model := "m" |}.
Definition example_summary : @GenerationSummary plain_llama := {| usage := 7 |}.
Definition example_tokens : list GeneratedTokenResult :=
  [ReasoningToken "hm"; ContentToken "Hel"; ContentToken "lo"; ToolCallParsed ["f"%string]].

Lemma chat_completion_answer_witness :
  exists results,
    snd (transform_all example_collecting openai_non_streaming_state_default
          (map (token_message None "r") example_tokens ++
           [token_message None "r" (Done example_summary)])) = Ok results /\
    status (collected_response "no completion produced" results) = 200.
Proof.
  destruct (chat_completion_answer plain_json_total example_collecting None "r" example_tokens
    (token_message None "r" (Done example_summary))) as (results & Hr & Ha).
  - by repeat constructor.
  - discriminate.
  - exists results. split; [exact Hr|]. exact (proj1 Ha).
Defined.
