(* ===== verification/ChatCompletionsFacts.v ===== *)
(** * What a client of the chat completions reads

    The chunks and the completion of [ChatCompletions] are texts.  This file
    reads them the way a client does, with a JSON reader of its own, and
    compares what is read from the stream with what is read from the collected
    completion and with the tokens that were generated. *)

From Stdlib Require Import Ascii.
From S2P Require Import Prelude Messages Tokio Requests ToolCalls OpenAI ChatCompletions.
Local Open Scope Z_scope.

(** ** A JSON reader

    A reader knows nothing of the code: it parses what was printed of a value
    made of nulls, booleans, numbers, strings, arrays and objects, and takes
    such values apart. *)

Definition object_field {V : Type} (key : string) (fields : list (string * V)) : option V :=
  snd <$> find (fun field => String.eqb key (fst field)) fields.

Inductive built_json `{JsonBuilder} : JsonValue -> Prop :=
| built_null : built_json json_null
| built_bool b : built_json (json_bool b)
| built_number z : built_json (json_number z)
| built_string s : built_json (json_string s)
| built_array l : Forall built_json l -> built_json (json_array l)
| built_object fields :
    NoDup (map fst fields) -> Forall (fun field => built_json (snd field)) fields ->
    built_json (json_object fields).

Class JsonReader `{JsonBuilder} : Type := {
  json_parse : string -> option JsonValue;
  json_field : string -> JsonValue -> option JsonValue;
  json_elements : JsonValue -> option (list JsonValue);
  json_text : JsonValue -> option string;
  json_parse_printed v s : built_json v -> json_to_string v = Ok s -> json_parse s = Some v;
  json_field_object key fields :
    NoDup (map fst fields) -> json_field key (json_object fields) = object_field key fields;
  json_elements_array l : json_elements (json_array l) = Some l;
  json_text_string s : json_text (json_string s) = Some s;
  json_text_null : json_text json_null = None;
}.

(** Distinct literal keys. *)
Ltac distinct_keys := apply (bool_decide_unpack _); vm_compute; reflexivity.

(** A value written with the constructors of JSON is built. *)
Ltac prove_built :=
  repeat first
    [ assumption | apply built_null | apply built_bool | apply built_number | apply built_string
    | apply built_array | apply built_object; [distinct_keys|] | constructor; simpl ].

Section Reading.
Context `{JsonReader} `{LlamaTypes} `{!ToolCallBackend} `{!OpenAIFields}.

(** ** Reading a chunk and a completion *)

Record ReadCall : Type := {
  read_index : option JsonValue;
  read_id : option string;
  read_kind : option string;
  read_name : option string;
  read_arguments : option string;
}.

Definition text_field (key : string) (v : JsonValue) : option string :=
  json_field key v ≫= json_text.

Definition read_call (v : JsonValue) : ReadCall := {|
  read_index := json_field "index" v;
  read_id := text_field "id" v;
  read_kind := text_field "type" v;
  read_name := json_field "function" v ≫= text_field "name";
  read_arguments := json_field "function" v ≫= text_field "arguments";
|}.

(** The first choice, and what it holds under [key]: the delta of a chunk, the
    message of a completion. *)
Definition first_choice (text : string) : option JsonValue :=
  v ← json_parse text; choices ← json_field "choices" v; l ← json_elements choices; head l.

Definition choice_part (key text : string) : option JsonValue :=
  first_choice text ≫= json_field key.

(** A missing or null content is no text. *)
Definition read_content (part : option JsonValue) : string :=
  default ""%string (part ≫= text_field "content").

Definition read_calls (part : option JsonValue) : list ReadCall :=
  default [] (v ← part; calls ← json_field "tool_calls" v; l ← json_elements calls;
              Some (map read_call l)).

Definition read_finish_reason (text : string) : option string :=
  first_choice text ≫= text_field "finish_reason".

Definition top_field (key text : string) : option JsonValue := json_parse text ≫= json_field key.

(** ** What should be read *)

(** The arguments of a call as text: those that are JSON printed, the others
    as the model wrote them. *)
Definition arguments_text (arguments : ToolCallArguments JsonValue) (text : string) : Prop :=
  match arguments with
  | ValidJson v => json_to_string v = Ok text
  | InvalidJson raw => text = raw
  end.

Definition call_is_read (index : option JsonValue) (call : ParsedToolCall) (r : ReadCall) : Prop :=
  read_index r = index /\ read_id r = Some (call_id call) /\
  read_kind r = Some "function"%string /\ read_name r = Some (call_name call) /\
  exists text, arguments_text (call_arguments call) text /\ read_arguments r = Some text.

(** In a chunk the calls are numbered from zero, in a completion they are not
    numbered. *)
Definition calls_are_read (numbered : bool) (calls : list ParsedToolCall) (l : list ReadCall)
    : Prop :=
  length l = length calls /\
  forall i call r, calls !! i = Some call -> l !! i = Some r ->
    call_is_read (if numbered then Some (json_number (Z.of_nat i)) else None) call r.

Definition usage_is_read (u : TokenUsage) (v : JsonValue) : Prop :=
  json_field "prompt_tokens" v = Some (json_number (prompt_tokens u)) /\
  json_field "completion_tokens" v = Some (json_number (completion_tokens u)) /\
  json_field "total_tokens" v = Some (json_number (total_tokens u)) /\
  (json_field "prompt_tokens_details" v ≫= json_field "cached_tokens")
    = Some (json_number (cached_prompt_tokens u)) /\
  (json_field "prompt_tokens_details" v ≫= json_field "audio_tokens")
    = Some (json_number (input_audio_tokens u)) /\
  (json_field "completion_tokens_details" v ≫= json_field "reasoning_tokens")
    = Some (json_number (reasoning_tokens u)).

(** What every text of an answer says about itself. *)
Definition header_is_read (kind request_id model : string) (text : string) : Prop :=
  (top_field "object" text ≫= json_text) = Some kind /\
  (top_field "id" text ≫= json_text) = Some request_id /\
  (top_field "model" text ≫= json_text) = Some model.

(** What the chunk of a delta should say. *)
Definition chunk_is_read (request_id model : string) (d : ChatDelta) (text : string) : Prop :=
  header_is_read "chat.completion.chunk" request_id model text /\
  let part := choice_part "delta" text in
  read_content part = match d with ContentDelta content => content | _ => ""%string end /\
  calls_are_read true (match d with ToolCallsDelta calls => calls | _ => [] end) (read_calls part) /\
  read_finish_reason text = match d with FinishDelta reason => Some reason | _ => None end /\
  match d with
  | UsageDelta u => exists v, top_field "usage" text = Some v /\ usage_is_read u v
  | _ => top_field "usage" text = None
  end.

(** ** Facts *)

Lemma arguments_text_printed (arguments : ToolCallArguments JsonValue) (text : string) :
  arguments_to_tool_call_string arguments = Ok text -> arguments_text arguments text.
Proof. destruct arguments as [v|raw]; simpl; [done|]. by intros [= <-]. Qed.

(** Collecting results is collecting them one by one. *)
Lemma collect_results_lookup {A B E : Type} (f : A -> result B E) (l : list A) (ys : list B) :
  collect_results f l = Ok ys -> Forall2 (fun x y => f x = Ok y) l ys.
Proof.
  revert ys. induction l as [|x l IH]; intros ys Hc; simpl in Hc; [by simplify_eq; constructor|].
  destruct (f x) as [y|] eqn:Hx; simpl in Hc; [|done].
  destruct (collect_results f l) as [rest|]; simpl in Hc; simplify_eq. constructor; auto.
Qed.

(** Takes apart the objects and arrays that were just printed. *)
Ltac read_fields :=
  repeat first
    [ rewrite json_field_object by distinct_keys
    | rewrite json_text_string | rewrite json_text_null | rewrite json_elements_array
    | progress cbn [object_field find fst snd fmap option_fmap option_map mbind option_bind
                    app head hd_error String.eqb Ascii.eqb Bool.eqb default from_option] ].

Lemma read_completion_call (call : ParsedToolCall) (v : JsonValue) :
  completion_tool_call call = Ok v ->
  built_json v /\ call_is_read None call (read_call v).
Proof.
  unfold completion_tool_call. destruct (arguments_to_tool_call_string _) as [a|] eqn:Ha; [|done].
  simpl. intros [= <-]. split.
  - prove_built.
  - unfold call_is_read, read_call, text_field. cbn [read_index read_id read_kind read_name read_arguments].
    read_fields. split_and!; try done. exists a. split; [by apply arguments_text_printed|done].
Qed.

Lemma read_streaming_call (index : nat) (call : ParsedToolCall) (v : JsonValue) :
  streaming_tool_call index call = Ok v ->
  built_json v /\ call_is_read (Some (json_number (Z.of_nat index))) call (read_call v).
Proof.
  unfold streaming_tool_call. destruct (arguments_to_tool_call_string _) as [a|] eqn:Ha; [|done].
  simpl. intros [= <-]. split.
  - prove_built.
  - unfold call_is_read, read_call, text_field. cbn [read_index read_id read_kind read_name read_arguments].
    read_fields. split_and!; try done. exists a. split; [by apply arguments_text_printed|done].
Qed.

Lemma read_completion_calls (calls : list ParsedToolCall) (l : list JsonValue) :
  collect_results completion_tool_call calls = Ok l ->
  Forall built_json l /\ calls_are_read false calls (map read_call l).
Proof.
  intros Hc%collect_results_lookup. split; [|split].
  - induction Hc as [|call v calls l Hv _ IH]; constructor; [|done].
    by apply read_completion_call in Hv as [? _].
  - rewrite length_map. symmetry. by eapply Forall2_length.
  - intros i call r Hi Hr. change (map read_call l) with (read_call <$> l) in Hr.
    apply list_lookup_fmap_Some in Hr as (v & -> & Hv).
    by apply (read_completion_call call v (Forall2_lookup_lr _ _ _ _ _ _ Hc Hi Hv)).
Qed.

Lemma read_streaming_calls (calls : list ParsedToolCall) (l : list JsonValue) :
  collect_results (fun p => streaming_tool_call (fst p) (snd p))
    (zip (seq 0 (length calls)) calls) = Ok l ->
  Forall built_json l /\ calls_are_read true calls (map read_call l).
Proof.
  intros Hc%collect_results_lookup.
  pose proof (Forall2_length _ _ _ Hc) as Hlen. rewrite length_zip_with, length_seq in Hlen.
  split; [|split].
  - clear Hlen. induction Hc as [|[i call] v ps l Hv _ IH]; constructor; [|done].
    by apply read_streaming_call in Hv as [? _].
  - rewrite length_map. lia.
  - intros i call r Hi Hr. change (map read_call l) with (read_call <$> l) in Hr.
    apply list_lookup_fmap_Some in Hr as (v & -> & Hv).
    assert (Hz : zip (seq 0 (length calls)) calls !! i = Some (i, call)).
    { apply lookup_zip_with_Some. exists i, call. split_and!; [done| |done].
      apply lookup_seq. split; [done|]. by apply lookup_lt_Some in Hi. }
    by apply (read_streaming_call i call v (Forall2_lookup_lr _ _ _ _ _ _ Hc Hz Hv)).
Qed.

Lemma usage_read (u : TokenUsage) :
  built_json (openai_usage_json u) /\ usage_is_read u (openai_usage_json u).
Proof.
  split; [unfold openai_usage_json; prove_built|].
  unfold usage_is_read, openai_usage_json. read_fields. done.
Qed.

Lemma no_calls_are_read (numbered : bool) : calls_are_read numbered [] [].
Proof. split; [done|]. intros i call r Hi. by rewrite lookup_nil in Hi. Qed.

Ltac read_chunk Hp :=
  unfold chunk_is_read, header_is_read, top_field, read_finish_reason, choice_part,
    first_choice, read_calls, read_content, text_field; rewrite Hp;
  unfold chunk_header, chunk_choice; read_fields.

(** Every delta is rendered as the chunk a client reads it from. *)
Lemma rendered_chunk_is_read (t : OpenAIStreamingResponseTransformer) (request_id : string)
    (d : ChatDelta) (text : string) :
  render_delta t request_id d = Ok text ->
  chunk_is_read request_id (streaming_model t) d text.
Proof.
  intros Hr.
  assert (Hv : exists v, built_json v /\ json_to_string v = Ok text /\
    (json_parse text = Some v -> chunk_is_read request_id (streaming_model t) d text)).
  { destruct d as [content|calls|reason|u]; simpl in Hr.
    - eexists. split; [|split; [exact Hr|]]; [unfold chunk_header, chunk_choice; prove_built|].
      intros Hp. read_chunk Hp. by split_and!.
    - unfold tool_calls_chunk in Hr.
      destruct (collect_results _ _) as [l|] eqn:Hc; simpl in Hr; [|done].
      apply read_streaming_calls in Hc as [Hb Hread].
      eexists. split; [|split; [exact Hr|]]; [unfold chunk_header, chunk_choice; prove_built|].
      intros Hp. read_chunk Hp. by split_and!.
    - eexists. split; [|split; [exact Hr|]]; [unfold chunk_header, chunk_choice; prove_built|].
      intros Hp. read_chunk Hp. by split_and!.
    - destruct (usage_read u) as [Hb Hread].
      eexists. split; [|split; [exact Hr|]]; [unfold chunk_header; prove_built|].
      intros Hp. read_chunk Hp. split_and!; try done. by eexists. }
  destruct Hv as (v & Hb & Hs & Hread). apply Hread. by apply json_parse_printed.
Qed.

(** What a completion should say: everything at once. *)
Definition completion_is_read (request_id model : string) (content : string)
    (calls : list ParsedToolCall) (reason : string) (u : TokenUsage) (text : string) : Prop :=
  header_is_read "chat.completion" request_id model text /\
  let part := choice_part "message" text in
  read_content part = content /\
  calls_are_read false calls (read_calls part) /\
  read_finish_reason text = Some reason /\
  exists v, top_field "usage" text = Some v /\ usage_is_read u v.

(** The content of the message: null stands for no text next to tool calls. *)
Lemma message_content_read (content : string) (has_tool_calls : bool) :
  let v := if bool_decide (content = ""%string) && has_tool_calls then json_null
           else json_string content in
  built_json v /\ default ""%string (json_text v) = content.
Proof.
  case_bool_decide as E; destruct has_tool_calls; simpl;
    rewrite ?json_text_null, ?json_text_string; split; try prove_built; done.
Qed.

Lemma built_completion_is_read (n : OpenAINonStreamingResponseTransformer) (request_id : string)
    (summary : GenerationSummary) (content : string) (calls : list ParsedToolCall)
    (text : string) :
  build_done_chunk n request_id summary
    {| collected_content := content; collected_tool_calls := calls |} = Ok text ->
  completion_is_read request_id (completion_model n) content calls
    (match calls with [] => "stop" | _ => "tool_calls" end) (usage summary) text.
Proof.
  unfold build_done_chunk. cbn [collected_content collected_tool_calls].
  destruct (collect_results completion_tool_call calls) as [l|] eqn:Hc; [|done].
  apply read_completion_calls in Hc as [Hb Hread]. destruct (usage_read (usage summary)) as [Hu Hur].
  destruct (message_content_read content (negb (bool_decide (calls = [])))) as [Hbc Hcontent].
  cbn [result_bind]. revert Hbc Hcontent. generalize
    (if bool_decide (content = ""%string) && negb (bool_decide (calls = [])) then json_null
     else json_string content). intros shown Hbc Hcontent Hr.
  assert (Hv : exists v, built_json v /\ json_to_string v = Ok text /\
    (json_parse text = Some v ->
     completion_is_read request_id (completion_model n) content calls
       (match calls with [] => "stop" | _ => "tool_calls" end) (usage summary) text)).
  { eexists. split; [|split; [exact Hr|]].
    - destruct calls as [|call calls]; cbn; prove_built.
    - intros Hp. unfold completion_is_read, header_is_read, top_field, read_finish_reason,
        choice_part, first_choice, read_calls, read_content, text_field. rewrite Hp.
      destruct calls as [|call calls]; cbn [negb finish_reason_for bool_decide decide_rel list_eq_nil_dec app];
        read_fields; split_and!; try done; by eexists. }
  destruct Hv as (v & Hbv & Hs & Hf). apply Hf. by apply json_parse_printed.
Qed.

(** The calls of a stream, chunk by chunk. *)
Definition delta_call_group (d : ChatDelta) : list ParsedToolCall :=
  match d with ToolCallsDelta calls => calls | _ => [] end.

Lemma delta_call_groups (deltas : list ChatDelta) :
  concat (map delta_call_group deltas) = delta_calls deltas.
Proof. induction deltas as [|d deltas IH]; [done|]. simpl. by rewrite IH. Qed.

Lemma read_stream_content (request_id model : string) (deltas : list ChatDelta)
    (chunks : list string) :
  Forall2 (chunk_is_read request_id model) deltas chunks ->
  join_text (map (fun c => read_content (choice_part "delta" c)) chunks) = delta_content deltas.
Proof.
  induction 1 as [|d c deltas chunks (_ & Hc & _) _ IH]; [done|]. simpl. rewrite Hc, IH.
  by destruct d.
Qed.

Lemma token_deltas_do_not_close (tokens : list GeneratedTokenResult) :
  Forall (fun d => match d with ContentDelta _ | ToolCallsDelta _ => True | _ => False end)
    (tokens ≫= token_delta).
Proof.
  induction tokens as [|token tokens IH]; [constructor|]. rewrite bind_cons. apply Forall_app.
  split; [|done]. by destruct token as [| | | | | | | | | | | | | | |[|? ?]| | | | |];
    repeat constructor.
Qed.

(** ** Streaming and collecting *)

Context (json_to_string_total : forall v, exists s, json_to_string v = Ok s).

Definition carries_nothing (chunk : string) : Prop :=
  read_content (choice_part "delta" chunk) = ""%string /\
  read_calls (choice_part "delta" chunk) = [].

(** C16. Streaming a chat completion and collecting it give a client the same.
    For a generation without errors (one with errors finishes its stream as
    if nothing had happened, and is an error when collected), read by a JSON
    reader that knows nothing of the code: every chunk and the completion name
    the request and the model; the contents of the chunks put together are the
    content of the completion, and the text that was generated; the tool calls
    of the chunks put together are those of the completion, and those that were
    generated, each with its id, its name and its arguments, numbered from zero
    in every chunk (also in a second one: clients tell calls apart by the
    number); the chunks end with one that gives the finish reason of the
    completion, "tool_calls" exactly if there are calls and "stop" otherwise,
    then the usage if it was asked for, the same as in the completion, then the
    sentinel. *)
Theorem chat_streaming_equivalent (t : OpenAIStreamingResponseTransformer)
    (n : OpenAINonStreamingResponseTransformer) (generated_by_ : option string)
    (request_id nothing_produced : string) (tokens : list GeneratedTokenResult)
    (summary : GenerationSummary)
    (Hcontent : Forall (fun token => is_content token = true) tokens) :
  let messages := map (token_message generated_by_ request_id) (tokens ++ [Done summary]) in
  let reason := match all_calls tokens with [] => "stop"%string | _ => "tool_calls"%string end in
  exists outputs parts finish rest results completion,
    snd (transform_all t openai_streaming_state_default messages) = Ok outputs /\
    chat_completions_sse_response outputs = parts ++ finish :: rest ++ ["[DONE]"%string] /\
    Forall (header_is_read "chat.completion.chunk" request_id (streaming_model t))
      (parts ++ finish :: rest) /\
    join_text (map (fun c => read_content (choice_part "delta" c)) parts) = all_content tokens /\
    (exists groups, concat groups = all_calls tokens /\
       Forall2 (fun calls c => calls_are_read true calls (read_calls (choice_part "delta" c)))
         groups parts) /\
    Forall (fun c => read_finish_reason c = None) (parts ++ rest) /\
    read_finish_reason finish = Some reason /\
    Forall carries_nothing (finish :: rest) /\
    Forall2 (fun u c => exists v, top_field "usage" c = Some v /\ usage_is_read u v)
      (if include_usage t then [usage summary] else []) rest /\
    snd (transform_all n openai_non_streaming_state_default messages) = Ok results /\
    collected_response nothing_produced results = {| status := 200; body := completion |} /\
    completion_is_read request_id (completion_model n) (all_content tokens) (all_calls tokens)
      reason (usage summary) completion.
Proof.
  intros messages reason.
  destruct (chat_streaming_rendered json_to_string_total t n generated_by_ request_id tokens
    summary Hcontent) as (outputs & chunks & completion & Hout & Hsse & Hren & Hcol & Hbuild).
  assert (Hread : Forall2 (chunk_is_read request_id (streaming_model t))
    ((tokens ≫= token_delta) ++ FinishDelta reason ::
       (UsageDelta <$> if include_usage t then [usage summary] else [])) chunks).
  { eapply Forall2_impl; [|intros d c; by apply rendered_chunk_is_read].
    unfold closing_deltas in Hren. unfold reason. by destruct (all_calls tokens), (include_usage t). }
  apply Forall2_app_inv_l in Hread as (parts & closing & Hparts & Hclosing & ->).
  apply Forall2_cons_inv_l in Hclosing as (finish & rest & Hfinish & Hrest & ->).
  exists outputs, parts, finish, rest, [Chunk completion], completion.
  split_and!; try done.
  - by rewrite Hsse, <- app_assoc.
  - apply Forall_app. split; [|constructor]; [|apply Hfinish|];
      eapply Forall2_Forall_r; try eassumption; apply Forall_true; by intros d c [Hh _].
  - rewrite (read_stream_content _ _ _ _ Hparts). apply token_delta_content.
  - exists (map delta_call_group (tokens ≫= token_delta)).
    rewrite delta_call_groups, token_delta_calls. split; [done|].
    change (map delta_call_group (tokens ≫= token_delta))
      with (delta_call_group <$> (tokens ≫= token_delta)).
    apply Forall2_fmap_l. eapply Forall2_impl; [exact Hparts|]. by intros d c (_ & _ & Hc & _).
  - apply Forall_app. split.
    + eapply Forall2_Forall_r; [exact Hparts|].
      eapply Forall_impl; [apply token_deltas_do_not_close|].
      intros d Hd c (_ & _ & _ & -> & _). by destruct d.
    + eapply Forall2_Forall_r; [exact Hrest|]. apply Forall_forall.
      intros d (u & -> & _)%list_elem_of_fmap c (_ & _ & _ & -> & _). done.
  - apply Hfinish.
  - assert (Hno : forall d c, chunk_is_read request_id (streaming_model t) d c ->
      match d with FinishDelta _ | UsageDelta _ => True | _ => False end -> carries_nothing c).
    { intros d c (_ & Hc & [Hl _] & _) Hd. split; [by destruct d|].
      by destruct d; try done; apply nil_length_inv in Hl. }
    constructor; [by apply (Hno _ _ Hfinish)|]. eapply Forall2_Forall_r; [exact Hrest|].
    apply Forall_forall. intros d (u & -> & _)%list_elem_of_fmap c Hc. by apply (Hno _ _ Hc).
  - rewrite Forall2_fmap_l in Hrest. eapply Forall2_impl; [exact Hrest|].
    by intros u c (_ & _ & _ & _ & Hu).
  - by apply built_completion_is_read.
Qed.

End Reading.

(** ** A concrete reader

    JSON values as trees; the text of a value is the code of its tree. *)

Abbreviation JsonTree := (gen_tree (bool + Z + string)).

#[local] Instance tree_json : JsonTypes := {| JsonValue := JsonTree |}.

Fixpoint print_bits (p : positive) : string :=
  match p with
  | xH => ""
  | xO p => String "0"%char (print_bits p)
  | xI p => String "1"%char (print_bits p)
  end.

Fixpoint parse_bits (s : string) : positive :=
  match s with
  | "" => xH
  | String c s => if Ascii.eqb c "0"%char then xO (parse_bits s) else xI (parse_bits s)
  end%string.

Lemma parse_print_bits (p : positive) : parse_bits (print_bits p) = p.
Proof. induction p as [p IH|p IH|]; simpl; by rewrite ?IH. Qed.

#[local] Instance tree_builder : JsonBuilder := {|
  json_null := GenNode 3 [];
  json_bool b := GenLeaf (inl (inl b));
  json_number z := GenLeaf (inl (inr z));
  json_string s := GenLeaf (inr s);
  json_array l := GenNode 0 l;
  json_object fields := GenNode 1 (map (fun f => GenNode 2 [GenLeaf (inr f.1); f.2]) fields);
  json_to_string v := Ok (print_bits (encode v));
  json_display v := print_bits (encode v);
|}.

Definition tree_field (key : string) (t : JsonTree) : option JsonTree :=
  match t with
  | GenNode 2 [GenLeaf (inr k); v] => if String.eqb key k then Some v else None
  | _ => None
  end.

Lemma tree_fields (key : string) (fields : list (string * JsonTree)) :
  head (omap (tree_field key) (map (fun f => GenNode 2 [GenLeaf (inr f.1); f.2]) fields))
  = object_field key fields.
Proof.
  unfold object_field. induction fields as [|[k v] fields IH]; [done|]. simpl.
  by destruct (String.eqb key k).
Qed.

Lemma tree_parse_printed (v : JsonTree) (s : string) :
  json_to_string v = Ok s -> decode (parse_bits s) = Some v.
Proof. intros [= <-]. by rewrite parse_print_bits, decode_encode. Qed.

Lemma tree_json_total (v : JsonTree) : exists s, json_to_string v = Ok s.
Proof. by exists (print_bits (encode v)). Qed.

#[local] Instance tree_reader : JsonReader := {|
  json_parse s := decode (parse_bits s);
  json_field key v :=
    match v with GenNode 1 l => head (omap (tree_field key) l) | _ => None end;
  json_elements v := match v with GenNode 0 l => Some l | _ => None end;
  json_text v := match v with GenLeaf (inr s) => Some s | _ => None end;
  json_parse_printed v s _ := tree_parse_printed v s;
  json_field_object key fields _ := tree_fields key fields;
  json_elements_array l := eq_refl;
  json_text_string s := eq_refl;
  json_text_null := eq_refl;
|}.

#[local] Instance tree_tool_calls : ToolCallBackend := {|
  parse_chat_message _ message := Ok (Recognized [message]);
  call_name _ := "f"%string;
  call_arguments c := ValidJson (GenLeaf (inr c));
  CompiledSchema := unit;
  schema_to_value _ := Ok (GenNode 3 []);
  validator_for _ := Ok tt;
  iter_errors _ _ := [];
  debug_text s := s;
  tool_to_value _ := Ok (GenNode 3 []);
  values_to_string _ := Ok "[]"%string;
|}.

(** Two pieces of content and a tool call. *)
Lemma chat_streaming_equivalent_witness :
  let messages := map (token_message None "r") (example_tokens ++ [Done example_summary]) in
  exists outputs finish completion,
    snd (transform_all example_streaming openai_streaming_state_default messages) = Ok outputs /\
    length outputs = 5%nat /\
    read_finish_reason finish = Some "tool_calls"%string /\
    completion_is_read "r" "m" "Hello" ["f"%string] "tool_calls" 7 completion.
Proof.
  intros messages.
  destruct (chat_streaming_equivalent (H := tree_json) tree_json_total example_streaming
    example_collecting None "r" "nothing" example_tokens example_summary)
    as (outputs & parts & finish & rest & results & completion & Hout & _ & _ & _ & _ & _ & Hf & _
        & _ & _ & _ & Hc).
  - by repeat constructor.
  - exists outputs, finish, completion. split; [exact Hout|]. split; [|split; [exact Hf|exact Hc]].
    vm_compute in Hout. injection Hout as <-. reflexivity.
Defined.
