(* ===== verification/Responses.v ===== *)
(** * The Responses endpoint: events and transformers

    [responses_stream_event.rs] with the records of the events,
    [responses_response_builder.rs], [responses_streaming_state.rs],
    [responses_streaming_response_transformer.rs] and
    [responses_non_streaming_response_transformer.rs]. *)

From stdpp Require Import pretty.
From S2P Require Import Prelude Messages Requests ToolCalls OpenAI.
Local Open Scope Z_scope.

Section Responses.
Context `{JsonTypes} `{LlamaTypes} `{!ToolCallBackend} `{!JsonBuilder} `{!OpenAIFields}.

(** ** Events *)

Record ResponseSnapshotEvent : Type := {
  snapshot_sequence_number : Z;
  snapshot_response : JsonValue;
}.

Record OutputItemEvent : Type := {
  item_sequence_number : Z;
  item_output_index : nat;
  item_value : JsonValue;
}.

Record ContentPartEvent : Type := {
  part_sequence_number : Z;
  part_item_id : string;
  part_output_index : nat;
  part_content_index : nat;
  part_value : JsonValue;
}.

Record TextDeltaEvent : Type := {
  delta_sequence_number : Z;
  delta_item_id : string;
  delta_output_index : nat;
  delta_content_index : nat;
  delta_text : string;
}.

Record TextDoneEvent : Type := {
  done_sequence_number : Z;
  done_item_id : string;
  done_output_index : nat;
  done_content_index : nat;
  done_text : string;
}.

Record FunctionCallArgumentsDeltaEvent : Type := {
  arguments_delta_sequence_number : Z;
  arguments_delta_item_id : string;
  arguments_delta_output_index : nat;
  arguments_delta : string;
}.

Record FunctionCallArgumentsDoneEvent : Type := {
  arguments_done_sequence_number : Z;
  arguments_done_item_id : string;
  arguments_done_output_index : nat;
  arguments_done_name : string;
  arguments_done : string;
}.

Inductive ResponsesStreamEvent : Type :=
| Created (e : ResponseSnapshotEvent)
| InProgress (e : ResponseSnapshotEvent)
| OutputItemAdded (e : OutputItemEvent)
| OutputItemDone (e : OutputItemEvent)
| ContentPartAdded (e : ContentPartEvent)
| ContentPartDone (e : ContentPartEvent)
| OutputTextDelta (e : TextDeltaEvent)
| OutputTextDone (e : TextDoneEvent)
| ReasoningTextDelta (e : TextDeltaEvent)
| ReasoningTextDone (e : TextDoneEvent)
| FunctionCallArgumentsDelta (e : FunctionCallArgumentsDeltaEvent)
| FunctionCallArgumentsDone (e : FunctionCallArgumentsDoneEvent)
| Completed (e : ResponseSnapshotEvent)
| Failed (e : ResponseSnapshotEvent).

Definition event_name (e : ResponsesStreamEvent) : string :=
  match e with
  | Created _ => "response.created"
  | InProgress _ => "response.in_progress"
  | OutputItemAdded _ => "response.output_item.added"
  | OutputItemDone _ => "response.output_item.done"
  | ContentPartAdded _ => "response.content_part.added"
  | ContentPartDone _ => "response.content_part.done"
  | OutputTextDelta _ => "response.output_text.delta"
  | OutputTextDone _ => "response.output_text.done"
  | ReasoningTextDelta _ => "response.reasoning_text.delta"
  | ReasoningTextDone _ => "response.reasoning_text.done"
  | FunctionCallArgumentsDelta _ => "response.function_call_arguments.delta"
  | FunctionCallArgumentsDone _ => "response.function_call_arguments.done"
  | Completed _ => "response.completed"
  | Failed _ => "response.failed"
  end.

Definition json_index (n : nat) : JsonValue := json_number (Z.of_nat n).

Definition event_to_json (ev : ResponsesStreamEvent) : JsonValue :=
  let fields := fun (n : Z) (rest : list (string * JsonValue)) =>
    json_object (("type", json_string (event_name ev))
                 :: ("sequence_number", json_number n) :: rest)%string in
  match ev with
  | Created e | InProgress e | Completed e | Failed e =>
      fields (snapshot_sequence_number e) [("response", snapshot_response e)]%string
  | OutputItemAdded e | OutputItemDone e =>
      fields (item_sequence_number e)
        [("output_index", json_index (item_output_index e)); ("item", item_value e)]%string
  | ContentPartAdded e | ContentPartDone e =>
      fields (part_sequence_number e)
        [("item_id", json_string (part_item_id e));
         ("output_index", json_index (part_output_index e));
         ("content_index", json_index (part_content_index e));
         ("part", part_value e)]%string
  | OutputTextDelta e =>
      fields (delta_sequence_number e)
        [("item_id", json_string (delta_item_id e));
         ("output_index", json_index (delta_output_index e));
         ("content_index", json_index (delta_content_index e));
         ("delta", json_string (delta_text e));
         ("logprobs", json_array [])]%string
  | ReasoningTextDelta e =>
      fields (delta_sequence_number e)
        [("item_id", json_string (delta_item_id e));
         ("output_index", json_index (delta_output_index e));
         ("content_index", json_index (delta_content_index e));
         ("delta", json_string (delta_text e))]%string
  | OutputTextDone e =>
      fields (done_sequence_number e)
        [("item_id", json_string (done_item_id e));
         ("output_index", json_index (done_output_index e));
         ("content_index", json_index (done_content_index e));
         ("text", json_string (done_text e));
         ("logprobs", json_array [])]%string
  | ReasoningTextDone e =>
      fields (done_sequence_number e)
        [("item_id", json_string (done_item_id e));
         ("output_index", json_index (done_output_index e));
         ("content_index", json_index (done_content_index e));
         ("text", json_string (done_text e))]%string
  | FunctionCallArgumentsDelta e =>
      fields (arguments_delta_sequence_number e)
        [("item_id", json_string (arguments_delta_item_id e));
         ("output_index", json_index (arguments_delta_output_index e));
         ("delta", json_string (arguments_delta e))]%string
  | FunctionCallArgumentsDone e =>
      fields (arguments_done_sequence_number e)
        [("item_id", json_string (arguments_done_item_id e));
         ("output_index", json_index (arguments_done_output_index e));
         ("name", json_string (arguments_done_name e));
         ("arguments", json_string (arguments_done e))]%string
  end.

(** ** Items and response objects *)

Definition output_text_part (text : string) : JsonValue :=
  json_object [("type", json_string "output_text"); ("text", json_string text);
               ("annotations", json_array []); ("logprobs", json_array [])]%string.

Definition message_item_done (item_id text : string) : JsonValue :=
  json_object [("id", json_string item_id); ("type", json_string "message");
               ("role", json_string "assistant"); ("status", json_string "completed");
               ("content", json_array [output_text_part text])]%string.

Definition reasoning_item_done (item_id text : string) : JsonValue :=
  json_object [("type", json_string "reasoning"); ("id", json_string item_id);
               ("summary", json_array []);
               ("content", json_array [json_object [("type", json_string "reasoning_text");
                                                    ("text", json_string text)]]);
               ("status", json_string "completed")]%string.

Definition function_call_item (item_id call_id_ name arguments status_ : string) : JsonValue :=
  json_object [("type", json_string "function_call"); ("id", json_string item_id);
               ("call_id", json_string call_id_); ("name", json_string name);
               ("arguments", json_string arguments); ("status", json_string status_)]%string.

Definition message_item_open (item_id : string) : JsonValue :=
  json_object [("id", json_string item_id); ("type", json_string "message");
               ("role", json_string "assistant"); ("status", json_string "in_progress");
               ("content", json_array [])]%string.

Definition reasoning_item_open (item_id : string) : JsonValue :=
  json_object [("type", json_string "reasoning"); ("id", json_string item_id);
               ("summary", json_array []); ("status", json_string "in_progress")]%string.

Definition responses_usage_json (u : TokenUsage) : JsonValue :=
  json_object
    [("input_tokens", json_number (prompt_tokens u));
     ("input_tokens_details",
      json_object [("cached_tokens", json_number (cached_prompt_tokens u))]);
     ("output_tokens", json_number (completion_tokens u));
     ("output_tokens_details",
      json_object [("reasoning_tokens", json_number (reasoning_tokens u))]);
     ("total_tokens", json_number (total_tokens u))]%string.

Record ResponsesResponseBuilder : Type := {
  builder_id : string;
  created_at : Z;
  builder_model : string;
  builder_instructions : option string;
}.

Definition base_fields (b : ResponsesResponseBuilder) (status_ : string) (output err : JsonValue)
    : list (string * JsonValue) :=
  [("id", json_string (builder_id b));
   ("object", json_string "response");
   ("created_at", json_number (created_at b));
   ("status", json_string status_);
   ("error", err);
   ("incomplete_details", json_null);
   ("instructions", match builder_instructions b with
                    | None => json_null
                    | Some instructions => json_string instructions
                    end);
   ("model", json_string (builder_model b));
   ("tools", json_array []);
   ("output", output);
   ("parallel_tool_calls", json_bool true);
   ("metadata", json_object []);
   ("tool_choice", json_string "auto");
   ("temperature", json_number 1);
   ("top_p", json_number 1);
   ("text", json_object [("format", json_object [("type", json_string "text")])])]%string.

Definition in_progress (b : ResponsesResponseBuilder) : JsonValue :=
  json_object (base_fields b "in_progress" (json_array []) json_null).

Definition completed (b : ResponsesResponseBuilder) (output : list JsonValue) (u : TokenUsage)
    : JsonValue :=
  json_object (base_fields b "completed" (json_array output) json_null
               ++ [("usage", responses_usage_json u)]%string).

Definition failed (b : ResponsesResponseBuilder) (e : OpenAIError) : JsonValue :=
  json_object (base_fields b "failed" (json_array [])
    (json_object [("code", json_string "server_error");
                  ("message", json_string (openai_error_message e))]%string)).

(** ** The streaming state *)

Inductive OpenItem : Type := OpenNone | OpenReasoning | OpenMessage.

#[export] Instance OpenItem_eq_dec : EqDecision OpenItem.
Proof. solve_decision. Defined.

Record ResponsesStreamingState : Type := {
  started : bool;
  sequence_number : Z;
  output_index : nat;
  open : OpenItem;
  reasoning_id : string;
  reasoning_text : string;
  message_id : string;
  message_text : string;
  finalized_output : list JsonValue;
}.

Definition responses_streaming_state_default : ResponsesStreamingState :=
  {| started := false; sequence_number := 0; output_index := 0; open := OpenNone;
     reasoning_id := ""; reasoning_text := ""; message_id := ""; message_text := "";
     finalized_output := [] |}.

Definition put_started (s : ResponsesStreamingState) : ResponsesStreamingState :=
  {| started := true; sequence_number := sequence_number s; output_index := output_index s;
     open := open s; reasoning_id := reasoning_id s; reasoning_text := reasoning_text s;
     message_id := message_id s; message_text := message_text s;
     finalized_output := finalized_output s |}.

(** Pushing one event: it takes the next sequence number. *)
Definition next_sequence_number (s : ResponsesStreamingState) : ResponsesStreamingState * Z :=
  ({| started := started s; sequence_number := wrap_u64 (sequence_number s + 1);
      output_index := output_index s; open := open s; reasoning_id := reasoning_id s;
      reasoning_text := reasoning_text s; message_id := message_id s;
      message_text := message_text s; finalized_output := finalized_output s |},
   sequence_number s).

Definition push_event (event : Z -> ResponsesStreamEvent)
    (p : ResponsesStreamingState * list ResponsesStreamEvent)
    : ResponsesStreamingState * list ResponsesStreamEvent :=
  let '(s, events) := p in
  let '(s, n) := next_sequence_number s in
  (s, events ++ [event n]).

(** The item is done: it joins the output and nothing is open. *)
Definition finalize_item (v : JsonValue) (s : ResponsesStreamingState) : ResponsesStreamingState :=
  {| started := started s; sequence_number := sequence_number s; output_index := S (output_index s);
     open := open s; reasoning_id := reasoning_id s; reasoning_text := reasoning_text s;
     message_id := message_id s; message_text := message_text s;
     finalized_output := finalized_output s ++ [v] |}.

Definition put_open (o : OpenItem) (s : ResponsesStreamingState) : ResponsesStreamingState :=
  {| started := started s; sequence_number := sequence_number s; output_index := output_index s;
     open := o; reasoning_id := reasoning_id s; reasoning_text := reasoning_text s;
     message_id := message_id s; message_text := message_text s;
     finalized_output := finalized_output s |}.

Definition put_reasoning (id text : string) (s : ResponsesStreamingState)
    : ResponsesStreamingState :=
  {| started := started s; sequence_number := sequence_number s; output_index := output_index s;
     open := open s; reasoning_id := id; reasoning_text := text;
     message_id := message_id s; message_text := message_text s;
     finalized_output := finalized_output s |}.

Definition put_message (id text : string) (s : ResponsesStreamingState)
    : ResponsesStreamingState :=
  {| started := started s; sequence_number := sequence_number s; output_index := output_index s;
     open := open s; reasoning_id := reasoning_id s; reasoning_text := reasoning_text s;
     message_id := id; message_text := text; finalized_output := finalized_output s |}.

(** The events, as functions of their sequence number. *)
Definition item_added (i : nat) (v : JsonValue) (n : Z) : ResponsesStreamEvent :=
  OutputItemAdded {| item_sequence_number := n; item_output_index := i; item_value := v |}.
Definition item_done (i : nat) (v : JsonValue) (n : Z) : ResponsesStreamEvent :=
  OutputItemDone {| item_sequence_number := n; item_output_index := i; item_value := v |}.
Definition part_added (id : string) (i : nat) (n : Z) : ResponsesStreamEvent :=
  ContentPartAdded {| part_sequence_number := n; part_item_id := id; part_output_index := i;
                      part_content_index := 0; part_value := output_text_part "" |}.
Definition part_done (id : string) (i : nat) (text : string) (n : Z) : ResponsesStreamEvent :=
  ContentPartDone {| part_sequence_number := n; part_item_id := id; part_output_index := i;
                     part_content_index := 0; part_value := output_text_part text |}.
Definition text_delta (id : string) (i : nat) (text : string) (n : Z) : TextDeltaEvent :=
  {| delta_sequence_number := n; delta_item_id := id; delta_output_index := i;
     delta_content_index := 0; delta_text := text |}.
Definition text_done (id : string) (i : nat) (text : string) (n : Z) : TextDoneEvent :=
  {| done_sequence_number := n; done_item_id := id; done_output_index := i;
     done_content_index := 0; done_text := text |}.

(** [format!("rs_{output_index}")] and the like. *)
Definition item_id_at (prefix : string) (i : nat) : string := prefix +:+ pretty (N.of_nat i).

Definition close_open_item (p : ResponsesStreamingState * list ResponsesStreamEvent)
    : ResponsesStreamingState * list ResponsesStreamEvent :=
  let s := fst p in
  match open s with
  | OpenNone => p
  | OpenReasoning =>
      let id := reasoning_id s in
      let text := reasoning_text s in
      let i := output_index s in
      let item := reasoning_item_done id text in
      let p := push_event (fun n => ReasoningTextDone (text_done id i text n)) p in
      let '(s, events) := push_event (item_done i item) p in
      let s := finalize_item item s in
      (put_open OpenNone (put_reasoning (reasoning_id s) "" s), events)
  | OpenMessage =>
      let id := message_id s in
      let text := message_text s in
      let i := output_index s in
      let item := message_item_done id text in
      let p := push_event (fun n => OutputTextDone (text_done id i text n)) p in
      let p := push_event (part_done id i text) p in
      let '(s, events) := push_event (item_done i item) p in
      let s := finalize_item item s in
      (put_open OpenNone (put_message (message_id s) "" s), events)
  end.

(** The [if] at the start of [handle_reasoning], and the rest of it. *)
Definition ensure_reasoning_item (p : ResponsesStreamingState * list ResponsesStreamEvent)
    : ResponsesStreamingState * list ResponsesStreamEvent :=
  if bool_decide (open (fst p) = OpenReasoning) then p
  else
    let '(s, events) := close_open_item p in
    let i := output_index s in
    let id := item_id_at "rs_" i in
    let '(s, events) :=
      push_event (item_added i (reasoning_item_open id))
        (put_reasoning id (reasoning_text s) s, events) in
    (put_open OpenReasoning s, events).

Definition handle_reasoning (text : string)
    (p : ResponsesStreamingState * list ResponsesStreamEvent)
    : ResponsesStreamingState * list ResponsesStreamEvent :=
  let '(s, events) := ensure_reasoning_item p in
  let s := put_reasoning (reasoning_id s) (reasoning_text s +:+ text) s in
  push_event (fun n => ReasoningTextDelta (text_delta (reasoning_id s) (output_index s) text n))
    (s, events).

(** The same two halves of [handle_content]. *)
Definition ensure_message_item (p : ResponsesStreamingState * list ResponsesStreamEvent)
    : ResponsesStreamingState * list ResponsesStreamEvent :=
  if bool_decide (open (fst p) = OpenMessage) then p
  else
    let '(s, events) := close_open_item p in
    let i := output_index s in
    let id := item_id_at "msg_" i in
    let p := push_event (item_added i (message_item_open id))
               (put_message id (message_text s) s, events) in
    let '(s, events) := push_event (part_added id i) p in
    (put_open OpenMessage s, events).

Definition handle_message_content (text : string)
    (p : ResponsesStreamingState * list ResponsesStreamEvent)
    : ResponsesStreamingState * list ResponsesStreamEvent :=
  let '(s, events) := ensure_message_item p in
  let s := put_message (message_id s) (message_text s +:+ text) s in
  push_event (fun n => OutputTextDelta (text_delta (message_id s) (output_index s) text n))
    (s, events).

(** One call of the loop of [handle_tool_calls]. *)
Definition handle_tool_call (call : ParsedToolCall)
    (p : ResponsesStreamingState * list ResponsesStreamEvent)
    : ResponsesStreamingState * result (list ResponsesStreamEvent) string :=
  let i := output_index (fst p) in
  let id := item_id_at "fc_" i in
  match arguments_to_tool_call_string (call_arguments call) with
  | Err e => (fst p, Err e)
  | Ok arguments =>
      let p := push_event
        (item_added i (function_call_item id (call_id call) (call_name call) "" "in_progress")) p in
      let p := push_event (fun n => FunctionCallArgumentsDelta
        {| arguments_delta_sequence_number := n; arguments_delta_item_id := id;
           arguments_delta_output_index := i; arguments_delta := arguments |}) p in
      let p := push_event (fun n => FunctionCallArgumentsDone
        {| arguments_done_sequence_number := n; arguments_done_item_id := id;
           arguments_done_output_index := i; arguments_done_name := call_name call;
           arguments_done := arguments |}) p in
      let item := function_call_item id (call_id call) (call_name call) arguments "completed" in
      let '(s, events) := push_event (item_done i item) p in
      (finalize_item item s, Ok events)
  end.

Fixpoint handle_tool_calls_loop (calls : list ParsedToolCall)
    (p : ResponsesStreamingState * list ResponsesStreamEvent)
    : ResponsesStreamingState * result (list ResponsesStreamEvent) string :=
  match calls with
  | [] => (fst p, Ok (snd p))
  | call :: rest =>
      match handle_tool_call call p with
      | (s, Err e) => (s, Err e)
      | (s, Ok events) => handle_tool_calls_loop rest (s, events)
      end
  end.

Definition handle_tool_calls (parsed_calls : list ParsedToolCall)
    (p : ResponsesStreamingState * list ResponsesStreamEvent)
    : ResponsesStreamingState * result (list ResponsesStreamEvent) string :=
  handle_tool_calls_loop parsed_calls (close_open_item p).

(** ** The streaming transformer *)

Record ResponsesStreamingResponseTransformer : Type := {
  streaming_builder : ResponsesResponseBuilder;
}.

Definition snapshot_at (response_ : JsonValue) (n : Z) : ResponseSnapshotEvent :=
  {| snapshot_sequence_number := n; snapshot_response := response_ |}.

Definition ensure_preamble (t : ResponsesStreamingResponseTransformer)
    (p : ResponsesStreamingState * list ResponsesStreamEvent)
    : ResponsesStreamingState * list ResponsesStreamEvent :=
  if started (fst p) then p
  else
    let b := streaming_builder t in
    let p := push_event (fun n => Created (snapshot_at (in_progress b) n))
               (put_started (fst p), snd p) in
    push_event (fun n => InProgress (snapshot_at (in_progress b) n)) p.

Definition handle_stream_done (t : ResponsesStreamingResponseTransformer)
    (summary : GenerationSummary) (p : ResponsesStreamingState * list ResponsesStreamEvent)
    : ResponsesStreamingState * list ResponsesStreamEvent :=
  let p := close_open_item p in
  let output := finalized_output (fst p) in
  push_event (fun n =>
    Completed (snapshot_at (completed (streaming_builder t) output (usage summary)) n)) p.

Definition ok_events (p : ResponsesStreamingState * list ResponsesStreamEvent)
    : ResponsesStreamingState * result (list ResponsesStreamEvent) string :=
  (fst p, Ok (snd p)).

#[export] Instance responses_streaming_transform :
    TransformsOutgoingMessage ResponsesStreamingResponseTransformer ResponsesStreamingState
      ResponsesStreamEvent := fun t s message =>
  match responses_error message with
  | Some e =>
      ok_events (push_event
        (fun n => Failed (snapshot_at (failed (streaming_builder t) e) n))
        (ensure_preamble t (s, [])))
  | None =>
      match message with
      | OutgoingMessageResponse {| response := OutgoingGeneratedToken token |} =>
          match token with
          | ContentToken text | UndeterminableToken text =>
              ok_events (handle_message_content text (ensure_preamble t (s, [])))
          | ReasoningToken text => ok_events (handle_reasoning text (ensure_preamble t (s, [])))
          | ToolCallToken _ => (s, Ok [])
          | ToolCallParsed parsed_calls =>
              handle_tool_calls parsed_calls (ensure_preamble t (s, []))
          | Done summary => ok_events (handle_stream_done t summary (ensure_preamble t (s, [])))
          | _ => (s, Err "received a token it does not know how to handle"%string)
          end
      | _ => (s, Err "received an outgoing message it does not know how to handle"%string)
      end
  end.

(** ** The non-streaming transformer *)

Record ResponsesNonStreamingState : Type := {
  response_content : string;
  response_reasoning : string;
  response_tool_calls : list ParsedToolCall;
}.

Definition responses_non_streaming_state_default : ResponsesNonStreamingState :=
  {| response_content := ""; response_reasoning := ""; response_tool_calls := [] |}.

Record ResponsesNonStreamingResponseTransformer : Type := {
  collecting_builder : ResponsesResponseBuilder;
}.

Fixpoint push_function_calls (calls : list ParsedToolCall) (output : list JsonValue)
    : result (list JsonValue) string :=
  match calls with
  | [] => Ok output
  | call :: rest =>
      let? arguments := arguments_to_tool_call_string (call_arguments call) in
      push_function_calls rest
        (output ++ [function_call_item (item_id_at "fc_" (length output)) (call_id call)
                      (call_name call) arguments "completed"])
  end.

Definition completed_output (snapshot : ResponsesNonStreamingState)
    : result (list JsonValue) string :=
  let output :=
    if bool_decide (response_reasoning snapshot = ""%string) then []
    else [reasoning_item_done (item_id_at "rs_" 0) (response_reasoning snapshot)] in
  let has_tool_calls := negb (bool_decide (response_tool_calls snapshot = [])) in
  let output :=
    if negb (bool_decide (response_content snapshot = ""%string)) || negb has_tool_calls
    then output ++ [message_item_done (item_id_at "msg_" (length output))
                      (response_content snapshot)]
    else output in
  push_function_calls (response_tool_calls snapshot) output.

Definition build_completed (t : ResponsesNonStreamingResponseTransformer)
    (summary : GenerationSummary) (snapshot : ResponsesNonStreamingState) : result string string :=
  let? output := completed_output snapshot in
  json_to_string (completed (collecting_builder t) output (usage summary)).

#[export] Instance responses_non_streaming_transform :
    TransformsOutgoingMessage ResponsesNonStreamingResponseTransformer ResponsesNonStreamingState
      TransformResult := fun t s message =>
  match responses_error message with
  | Some e => (s, Ok [TransformError (json_display (to_envelope e))])
  | None =>
      match message with
      | OutgoingMessageResponse {| response := OutgoingGeneratedToken token |} =>
          match token with
          | ContentToken text | UndeterminableToken text =>
              ({| response_content := response_content s +:+ text;
                  response_reasoning := response_reasoning s;
                  response_tool_calls := response_tool_calls s |}, Ok [])
          | ReasoningToken text =>
              ({| response_content := response_content s;
                  response_reasoning := response_reasoning s +:+ text;
                  response_tool_calls := response_tool_calls s |}, Ok [])
          | ToolCallToken _ => (s, Ok [])
          | ToolCallParsed parsed_calls =>
              ({| response_content := response_content s;
                  response_reasoning := response_reasoning s;
                  response_tool_calls := response_tool_calls s ++ parsed_calls |}, Ok [])
          | Done summary =>
              (s, let? chunk := build_completed t summary s in Ok [Chunk chunk])
          | _ => (s, Err "received a token it does not know how to handle"%string)
          end
      | _ => (s, Err "received an outgoing message it does not know how to handle"%string)
      end
  end.

End Responses.
