(* ===== verification/ResponsesStream.v ===== *)
(** * The event stream of the Responses endpoint against its specification

    The specification describes a response by the items it is made of and
    renders them; the theorems show that the incremental state machine of
    [Responses] emits exactly that rendering, numbered consecutively, and that
    collecting a generation instead of streaming it gives the same items. *)

From stdpp Require Import pretty.
From S2P Require Import Prelude Messages Requests ToolCalls OpenAI Responses.
Local Open Scope Z_scope.

Section ResponsesStream.
Context `{JsonTypes} `{LlamaTypes} `{!ToolCallBackend} `{!JsonBuilder} `{!OpenAIFields}.

(** ** The specification *)

(** An item of a response: the deltas of a reasoning or message item, or a
    call with the text of its arguments. *)
Inductive OutputItem : Type :=
| ReasoningItem (deltas : list string)
| MessageItem (deltas : list string)
| FunctionItem (call : ParsedToolCall) (arguments : string).

(** An event without its number. *)
Definition RawEvent : Type := Z -> ResponsesStreamEvent.

Definition opening_events (i : nat) (item : OutputItem) : list RawEvent :=
  match item with
  | ReasoningItem _ => [item_added i (reasoning_item_open (item_id_at "rs_" i))]
  | MessageItem _ =>
      [item_added i (message_item_open (item_id_at "msg_" i)); part_added (item_id_at "msg_" i) i]
  | FunctionItem call _ =>
      [item_added i (function_call_item (item_id_at "fc_" i) (call_id call) (call_name call)
                       "" "in_progress")]
  end.

Definition delta_events (i : nat) (item : OutputItem) : list RawEvent :=
  match item with
  | ReasoningItem deltas =>
      map (fun text n => ReasoningTextDelta (text_delta (item_id_at "rs_" i) i text n)) deltas
  | MessageItem deltas =>
      map (fun text n => OutputTextDelta (text_delta (item_id_at "msg_" i) i text n)) deltas
  | FunctionItem _ arguments =>
      [fun n => FunctionCallArgumentsDelta
         {| arguments_delta_sequence_number := n; arguments_delta_item_id := item_id_at "fc_" i;
            arguments_delta_output_index := i; arguments_delta := arguments |}]
  end.

(** The finished item, as it stands in the output of the response. *)
Definition item_json (i : nat) (item : OutputItem) : JsonValue :=
  match item with
  | ReasoningItem deltas => reasoning_item_done (item_id_at "rs_" i) (join_text deltas)
  | MessageItem deltas => message_item_done (item_id_at "msg_" i) (join_text deltas)
  | FunctionItem call arguments =>
      function_call_item (item_id_at "fc_" i) (call_id call) (call_name call) arguments "completed"
  end.

Definition closing_events (i : nat) (item : OutputItem) : list RawEvent :=
  match item with
  | ReasoningItem deltas =>
      [fun n => ReasoningTextDone (text_done (item_id_at "rs_" i) i (join_text deltas) n)]
  | MessageItem deltas =>
      [(fun n => OutputTextDone (text_done (item_id_at "msg_" i) i (join_text deltas) n));
       part_done (item_id_at "msg_" i) i (join_text deltas)]
  | FunctionItem call arguments =>
      [fun n => FunctionCallArgumentsDone
         {| arguments_done_sequence_number := n; arguments_done_item_id := item_id_at "fc_" i;
            arguments_done_output_index := i; arguments_done_name := call_name call;
            arguments_done := arguments |}]
  end ++ [item_done i (item_json i item)].

(** A finished item, and one that is still open. *)
Definition item_events (i : nat) (item : OutputItem) : list RawEvent :=
  opening_events i item ++ delta_events i item ++ closing_events i item.
Definition open_events (i : nat) (item : OutputItem) : list RawEvent :=
  opening_events i item ++ delta_events i item.

Definition items_events (items : list OutputItem) : list RawEvent :=
  mjoin (imap item_events items).
Definition items_json (items : list OutputItem) : list JsonValue := imap item_json items.

Definition preamble_events (b : ResponsesResponseBuilder) : list RawEvent :=
  [(fun n => Created (snapshot_at (in_progress b) n));
   (fun n => InProgress (snapshot_at (in_progress b) n))].

(** Numbering: the [k]-th event of a stream has the sequence number [k]. *)
Definition numbered (events : list RawEvent) : list ResponsesStreamEvent :=
  imap (fun k event => event (wrap_u64 (Z.of_nat k))) events.

(** Tokens are grouped into items: consecutive texts of one kind make an item,
    a tool-call report closes the open item and adds one for each call. *)
Definition call_items (calls : list ParsedToolCall) : result (list OutputItem) string :=
  collect_results (fun call =>
    let? arguments := arguments_to_tool_call_string (call_arguments call) in
    Ok (FunctionItem call arguments)) calls.

Record Grouping : Type := {
  closed_items : list OutputItem;
  open_item : option OutputItem;
}.

Definition all_items (g : Grouping) : list OutputItem :=
  closed_items g ++ option_list (open_item g).

Definition group_token (g : Grouping) (token : GeneratedTokenResult) : Grouping :=
  match token with
  | ContentToken text | UndeterminableToken text =>
      match open_item g with
      | Some (MessageItem deltas) =>
          {| closed_items := closed_items g; open_item := Some (MessageItem (deltas ++ [text])) |}
      | _ => {| closed_items := all_items g; open_item := Some (MessageItem [text]) |}
      end
  | ReasoningToken text =>
      match open_item g with
      | Some (ReasoningItem deltas) =>
          {| closed_items := closed_items g; open_item := Some (ReasoningItem (deltas ++ [text])) |}
      | _ => {| closed_items := all_items g; open_item := Some (ReasoningItem [text]) |}
      end
  | ToolCallParsed calls =>
      match call_items calls with
      | Ok items => {| closed_items := all_items g ++ items; open_item := None |}
      | Err _ => g
      end
  | _ => g
  end.

Definition group_tokens (tokens : list GeneratedTokenResult) : Grouping :=
  foldl group_token {| closed_items := []; open_item := None |} tokens.

(** Whether anything was announced: reports of the model's raw tool-call
    tokens are the only content that is not. *)
Definition announces (token : GeneratedTokenResult) : bool :=
  match token with
  | ToolCallToken _ => false
  | _ => true
  end.

(** ** The state the specification is in *)

Definition open_kind (item : option OutputItem) : OpenItem :=
  match item with
  | Some (ReasoningItem _) => OpenReasoning
  | Some (MessageItem _) => OpenMessage
  | _ => OpenNone
  end.

Definition emitted_events (b : ResponsesResponseBuilder) (g : Grouping) : list RawEvent :=
  preamble_events b ++ items_events (closed_items g) ++
  match open_item g with
  | Some item => open_events (length (closed_items g)) item
  | None => []
  end.

(** The state of the code, with the events [sent] so far, stands for [g]. *)
Record represents (g : Grouping) (s : ResponsesStreamingState) (sent : nat) : Prop := {
  rep_sequence : sequence_number s = wrap_u64 (Z.of_nat sent);
  rep_index : output_index s = length (closed_items g);
  rep_open : open s = open_kind (open_item g);
  rep_reasoning : reasoning_text s
    = match open_item g with Some (ReasoningItem deltas) => join_text deltas | _ => ""%string end;
  rep_message : message_text s
    = match open_item g with Some (MessageItem deltas) => join_text deltas | _ => ""%string end;
  rep_reasoning_id : forall deltas, open_item g = Some (ReasoningItem deltas) ->
    reasoning_id s = item_id_at "rs_" (output_index s);
  rep_message_id : forall deltas, open_item g = Some (MessageItem deltas) ->
    message_id s = item_id_at "msg_" (output_index s);
  rep_no_call : forall call arguments, open_item g <> Some (FunctionItem call arguments);
  rep_output : finalized_output s = items_json (closed_items g);
}.

(** Events numbered from an offset. *)
Definition numbered_from (k : nat) (events : list RawEvent) : list ResponsesStreamEvent :=
  imap (fun j event => event (wrap_u64 (Z.of_nat (k + j)))) events.

Lemma numbered_from_app (k : nat) (e1 e2 : list RawEvent) :
  numbered_from k (e1 ++ e2) = numbered_from k e1 ++ numbered_from (k + length e1) e2.
Proof.
  unfold numbered_from. rewrite imap_app. f_equal. apply imap_ext. intros j ev _. simpl.
  by rewrite Nat.add_assoc.
Qed.

Lemma wrap_u64_next (k : nat) :
  wrap_u64 (wrap_u64 (Z.of_nat k) + 1) = wrap_u64 (Z.of_nat (S k)).
Proof. unfold wrap_u64. rewrite Zplus_mod_idemp_l. f_equal. lia. Qed.

(** Pushing a list of events, in one go. *)
Definition push_events (events : list RawEvent)
    (p : ResponsesStreamingState * list ResponsesStreamEvent)
    : ResponsesStreamingState * list ResponsesStreamEvent :=
  foldl (fun q event => push_event event q) p events.

Definition set_sequence (k : Z) (s : ResponsesStreamingState) : ResponsesStreamingState :=
  {| started := started s; sequence_number := k; output_index := output_index s; open := open s;
     reasoning_id := reasoning_id s; reasoning_text := reasoning_text s;
     message_id := message_id s; message_text := message_text s;
     finalized_output := finalized_output s |}.

Lemma push_events_spec (events : list RawEvent) (s : ResponsesStreamingState)
    (out : list ResponsesStreamEvent) (sent : nat) :
  sequence_number s = wrap_u64 (Z.of_nat sent) ->
  push_events events (s, out)
  = (set_sequence (wrap_u64 (Z.of_nat (sent + length events))) s,
     out ++ numbered_from sent events).
Proof.
  revert s out sent. induction events as [|ev events IH]; intros s out sent Hs; simpl.
  - rewrite Nat.add_0_r, app_nil_r, <- Hs. by destruct s.
  - unfold push_event. simpl. rewrite (IH _ _ (S sent)) by (simpl; rewrite Hs; apply wrap_u64_next).
    f_equal.
    + unfold set_sequence. simpl. by replace (sent + S (length events))%nat
        with (S sent + length events)%nat by lia.
    + rewrite <- app_assoc. f_equal. simpl. unfold numbered_from. simpl.
      rewrite Nat.add_0_r, Hs. f_equal. apply imap_ext. intros j e _. simpl.
      by replace (sent + S j)%nat with (S (sent + j)) by lia.
Qed.


Lemma items_events_snoc (items : list OutputItem) (item : OutputItem) :
  items_events (items ++ [item]) = items_events items ++ item_events (length items) item.
Proof.
  unfold items_events. rewrite imap_app, join_app. simpl. by rewrite Nat.add_0_r, app_nil_r.
Qed.

Lemma items_json_snoc (items : list OutputItem) (item : OutputItem) :
  items_json (items ++ [item]) = items_json items ++ [item_json (length items) item].
Proof. unfold items_json. rewrite imap_app. simpl. by rewrite Nat.add_0_r. Qed.

Definition close_group (g : Grouping) : Grouping :=
  {| closed_items := all_items g; open_item := None |}.

(** How the specified events grow. *)
Lemma emitted_close (b : ResponsesResponseBuilder) (closed : list OutputItem) (item : OutputItem) :
  emitted_events b (close_group {| closed_items := closed; open_item := Some item |})
  = emitted_events b {| closed_items := closed; open_item := Some item |}
    ++ closing_events (length closed) item.
Proof.
  unfold emitted_events, close_group, all_items. simpl. rewrite items_events_snoc.
  unfold item_events, open_events. rewrite app_nil_r, <- !app_assoc. done.
Qed.

Lemma emitted_open (b : ResponsesResponseBuilder) (closed : list OutputItem) (item : OutputItem) :
  emitted_events b {| closed_items := closed; open_item := Some item |}
  = emitted_events b {| closed_items := closed; open_item := None |}
    ++ open_events (length closed) item.
Proof. unfold emitted_events. simpl. by rewrite app_nil_r, <- ?app_assoc. Qed.

Lemma emitted_delta (b : ResponsesResponseBuilder) (closed : list OutputItem)
    (item item' : OutputItem) (event : RawEvent) :
  opening_events (length closed) item' = opening_events (length closed) item ->
  delta_events (length closed) item' = delta_events (length closed) item ++ [event] ->
  emitted_events b {| closed_items := closed; open_item := Some item' |}
  = emitted_events b {| closed_items := closed; open_item := Some item |} ++ [event].
Proof.
  intros Ho Hd. rewrite !emitted_open. unfold open_events. by rewrite Ho, Hd, !app_assoc.
Qed.

Lemma emitted_calls (b : ResponsesResponseBuilder) (closed : list OutputItem)
    (item : OutputItem) :
  emitted_events b {| closed_items := closed ++ [item]; open_item := None |}
  = emitted_events b {| closed_items := closed; open_item := None |}
    ++ item_events (length closed) item.
Proof.
  unfold emitted_events. simpl. rewrite items_events_snoc, !app_nil_r. done.
Qed.

Lemma emitted_closed (b : ResponsesResponseBuilder) (g : Grouping) :
  emitted_events b (close_group g) = preamble_events b ++ items_events (all_items g).
Proof. unfold emitted_events. simpl. by rewrite app_nil_r. Qed.

Lemma emitted_nothing (b : ResponsesResponseBuilder) :
  emitted_events b {| closed_items := []; open_item := None |} = preamble_events b.
Proof. done. Qed.

#[local] Opaque emitted_events items_events.

(** One operation of the code: what it pushed continues the specified events. *)
Record advances (b : ResponsesResponseBuilder) (g g' : Grouping)
    (p p' : ResponsesStreamingState * list ResponsesStreamEvent) : Prop := {
  adv_events : exists new, emitted_events b g' = emitted_events b g ++ new /\
    snd p' = snd p ++ numbered_from (length (emitted_events b g)) new;
  adv_state : represents g' (fst p') (length (emitted_events b g'));
  adv_started : started (fst p') = started (fst p);
}.

Lemma advances_trans (b : ResponsesResponseBuilder) (g1 g2 g3 : Grouping)
    (p1 p2 p3 : ResponsesStreamingState * list ResponsesStreamEvent) :
  advances b g1 g2 p1 p2 -> advances b g2 g3 p2 p3 -> advances b g1 g3 p1 p3.
Proof.
  intros [(n1 & He1 & Ho1) _ Hs1] [(n2 & He2 & Ho2) Hr2 Hs2]. split; [|done|by rewrite Hs2].
  exists (n1 ++ n2). rewrite He2, He1, app_assoc. split; [done|].
  rewrite Ho2, Ho1, numbered_from_app, <- app_assoc, He1. by rewrite length_app.
Qed.

Lemma advances_refl (b : ResponsesResponseBuilder) (g : Grouping)
    (p : ResponsesStreamingState * list ResponsesStreamEvent) :
  represents g (fst p) (length (emitted_events b g)) -> advances b g g p p.
Proof. intros Hr. split; [|done|done]. exists []. by rewrite !app_nil_r. Qed.

Lemma close_advances (b : ResponsesResponseBuilder) (g : Grouping) (s : ResponsesStreamingState)
    (out : list ResponsesStreamEvent) :
  represents g s (length (emitted_events b g)) ->
  advances b g (close_group g) (s, out) (close_open_item (s, out)).
Proof.
  intros [Hseq Hidx Hopen Hrt Hmt Hri Hmi Hnc Hout]. destruct g as [closed [item|]]; simpl in *.
  - pose proof (emitted_close b closed item) as Hemit.
    destruct item as [deltas|deltas|call arguments]; [| |by destruct (Hnc call arguments)];
      simpl in Hopen, Hrt, Hmt;
      unfold close_open_item; simpl fst; rewrite Hopen; rewrite Hidx;
      rewrite ?(Hri deltas), ?(Hmi deltas), ?Hidx by done; rewrite ?Hrt, ?Hmt.
    + pose proof (push_events_spec (closing_events (length closed) (ReasoningItem deltas)) s out _ Hseq)
        as Hp. cbn [push_events foldl closing_events app item_json] in Hp. rewrite Hp.
      split; [by eexists | | done]. rewrite Hemit, length_app.
      split; simpl; try done; [by unfold all_items; rewrite Hidx; simpl; rewrite length_app, Nat.add_1_r|].
      unfold all_items. simpl. by rewrite items_json_snoc, Hout.
    + pose proof (push_events_spec (closing_events (length closed) (MessageItem deltas)) s out _ Hseq)
        as Hp. cbn [push_events foldl closing_events app item_json] in Hp. rewrite Hp.
      split; [by eexists | | done]. rewrite Hemit, length_app.
      split; simpl; try done; [by unfold all_items; rewrite Hidx; simpl; rewrite length_app, Nat.add_1_r|].
      unfold all_items. simpl. by rewrite items_json_snoc, Hout.
  - unfold close_open_item. simpl. rewrite Hopen. unfold close_group, all_items. simpl.
    rewrite app_nil_r. apply advances_refl. by split.
Qed.

Lemma not_open_group (g : Grouping) (s : ResponsesStreamingState) (sent : nat) :
  represents g s sent -> open s = OpenNone -> close_group g = g.
Proof.
  intros Hr Ho. rewrite (rep_open _ _ _ Hr) in Ho. pose proof (rep_no_call _ _ _ Hr) as Hc.
  destruct g as [closed [[| |call arguments]|]]; try done; [by destruct (Hc call arguments)|].
  unfold close_group, all_items. simpl. by rewrite app_nil_r.
Qed.

Lemma represents_no_open (closed : list OutputItem) (s : ResponsesStreamingState) (sent : nat) :
  represents {| closed_items := closed; open_item := None |} s sent ->
  reasoning_text s = ""%string /\ message_text s = ""%string /\
  output_index s = length closed /\ finalized_output s = items_json closed.
Proof. by intros [? ? ? ? ? ? ? ? ?]. Qed.

(** From a closed group, the events that open an item. *)
Lemma opening_advances (b : ResponsesResponseBuilder) (closed : list OutputItem) (item : OutputItem)
    (s s' : ResponsesStreamingState) (out : list ResponsesStreamEvent) :
  represents {| closed_items := closed; open_item := None |} s
    (length (emitted_events b {| closed_items := closed; open_item := None |})) ->
  delta_events (length closed) item = [] ->
  represents {| closed_items := closed; open_item := Some item |} s'
    (length (emitted_events b {| closed_items := closed; open_item := Some item |})) ->
  started s' = started s ->
  advances b {| closed_items := closed; open_item := None |}
    {| closed_items := closed; open_item := Some item |} (s, out)
    (s', out ++ numbered_from
       (length (emitted_events b {| closed_items := closed; open_item := None |}))
       (opening_events (length closed) item)).
Proof.
  intros Hr Hd Hr' Hs. split; [|done|done]. eexists. split; [|done].
  rewrite emitted_open. unfold open_events. by rewrite Hd, app_nil_r.
Qed.

Lemma ensure_reasoning_advances (b : ResponsesResponseBuilder) (g : Grouping)
    (s : ResponsesStreamingState) (out : list ResponsesStreamEvent) :
  represents g s (length (emitted_events b g)) ->
  exists closed deltas,
    advances b g {| closed_items := closed; open_item := Some (ReasoningItem deltas) |} (s, out)
      (ensure_reasoning_item (s, out)) /\
    forall text, group_token g (ReasoningToken text)
      = {| closed_items := closed; open_item := Some (ReasoningItem (deltas ++ [text])) |}.
Proof.
  intros Hr. unfold ensure_reasoning_item. simpl fst.
  pose proof (rep_open _ _ _ Hr) as Hk. case_bool_decide as Ho.
  - destruct g as [closed [[deltas| |]|]]; simpl in Hk; try congruence.
    exists closed, deltas. split; [by apply advances_refl | done].
  - exists (all_items g), []. split; [|destruct g as [closed [[| |]|]]; simpl in *; congruence].
    pose proof (close_advances b g s out Hr) as Hclose.
    destruct (close_open_item (s, out)) as [s1 out1]. eapply advances_trans; [exact Hclose|].
    destruct Hclose as [_ Hr1 _]. simpl in Hr1. unfold close_group in Hr1 |- *.
    pose proof Hr1 as [Hseq Hidx _ Hrt Hmt _ _ _ Hout]. simpl in Hidx, Hrt, Hmt, Hout.
    rewrite Hidx.
    pose proof (push_events_spec (opening_events (length (all_items g)) (ReasoningItem []))
      (put_reasoning (item_id_at "rs_" (length (all_items g))) (reasoning_text s1) s1) out1 _ Hseq)
      as Hp. cbn [push_events foldl opening_events] in Hp. rewrite Hp.
    apply opening_advances; [done|done| |done].
    rewrite emitted_open, length_app. split; simpl; try done. by rewrite Hidx.
Qed.

Lemma reasoning_advances (b : ResponsesResponseBuilder) (g : Grouping)
    (s : ResponsesStreamingState) (out : list ResponsesStreamEvent) (text : string) :
  represents g s (length (emitted_events b g)) ->
  advances b g (group_token g (ReasoningToken text)) (s, out) (handle_reasoning text (s, out)).
Proof.
  intros Hr. destruct (ensure_reasoning_advances b g s out Hr) as (closed & deltas & Ha & Hg).
  rewrite Hg. unfold handle_reasoning. destruct (ensure_reasoning_item (s, out)) as [s1 out1].
  eapply advances_trans; [exact Ha|]. destruct Ha as [_ Hr1 _].
  pose proof Hr1 as [Hseq Hidx Hopen Hrt Hmt Hri _ _ Hout].
  cbn [fst closed_items open_item open_kind] in *.
  specialize (Hri deltas eq_refl). rewrite Hidx in Hri. rewrite Hri.
  set (s2 := put_reasoning _ _ s1).
  assert (Hi2 : output_index s2 = length closed) by exact Hidx. rewrite Hi2.
  change (reasoning_id s2) with (item_id_at "rs_" (length closed)).
  set (event := fun n => ReasoningTextDelta _).
  assert (Hemit := emitted_delta b closed (ReasoningItem deltas) (ReasoningItem (deltas ++ [text]))
    event eq_refl (map_app _ _ _)).
  pose proof (push_events_spec [event] s2 out1 _ Hseq) as Hp. cbn [push_events foldl] in Hp.
  rewrite Hp. split; [by eexists| |done]. rewrite Hemit, length_app.
  split; try done; cbn [fst reasoning_text s2 put_reasoning set_sequence open_item].
  - by rewrite Hrt, join_text_snoc.
  - intros ds [= <-]. simpl. by rewrite Hidx.
Qed.

Lemma ensure_message_advances (b : ResponsesResponseBuilder) (g : Grouping)
    (s : ResponsesStreamingState) (out : list ResponsesStreamEvent) :
  represents g s (length (emitted_events b g)) ->
  exists closed deltas,
    advances b g {| closed_items := closed; open_item := Some (MessageItem deltas) |} (s, out)
      (ensure_message_item (s, out)) /\
    forall text, group_token g (ContentToken text)
      = {| closed_items := closed; open_item := Some (MessageItem (deltas ++ [text])) |}.
Proof.
  intros Hr. unfold ensure_message_item. simpl fst.
  pose proof (rep_open _ _ _ Hr) as Hk. case_bool_decide as Ho.
  - destruct g as [closed [[|deltas|]|]]; simpl in Hk; try congruence.
    exists closed, deltas. split; [by apply advances_refl | done].
  - exists (all_items g), []. split; [|destruct g as [closed [[| |]|]]; simpl in *; congruence].
    pose proof (close_advances b g s out Hr) as Hclose.
    destruct (close_open_item (s, out)) as [s1 out1]. eapply advances_trans; [exact Hclose|].
    destruct Hclose as [_ Hr1 _]. simpl in Hr1. unfold close_group in Hr1 |- *.
    pose proof Hr1 as [Hseq Hidx _ Hrt Hmt _ _ _ Hout]. simpl in Hidx, Hrt, Hmt, Hout.
    rewrite Hidx.
    pose proof (push_events_spec (opening_events (length (all_items g)) (MessageItem []))
      (put_message (item_id_at "msg_" (length (all_items g))) (message_text s1) s1) out1 _ Hseq)
      as Hp. cbn [push_events foldl opening_events] in Hp. rewrite Hp.
    apply opening_advances; [done|done| |done].
    rewrite emitted_open, length_app. split; simpl; try done. by rewrite Hidx.
Qed.

Lemma content_advances (b : ResponsesResponseBuilder) (g : Grouping)
    (s : ResponsesStreamingState) (out : list ResponsesStreamEvent) (text : string) :
  represents g s (length (emitted_events b g)) ->
  advances b g (group_token g (ContentToken text)) (s, out) (handle_message_content text (s, out)).
Proof.
  intros Hr. destruct (ensure_message_advances b g s out Hr) as (closed & deltas & Ha & Hg).
  rewrite Hg. unfold handle_message_content. destruct (ensure_message_item (s, out)) as [s1 out1].
  eapply advances_trans; [exact Ha|]. destruct Ha as [_ Hr1 _].
  pose proof Hr1 as [Hseq Hidx Hopen Hrt Hmt _ Hmi _ Hout].
  cbn [fst closed_items open_item open_kind] in *.
  specialize (Hmi deltas eq_refl). rewrite Hidx in Hmi. rewrite Hmi.
  set (s2 := put_message _ _ s1).
  assert (Hi2 : output_index s2 = length closed) by exact Hidx. rewrite Hi2.
  change (message_id s2) with (item_id_at "msg_" (length closed)).
  set (event := fun n => OutputTextDelta _).
  assert (Hemit := emitted_delta b closed (MessageItem deltas) (MessageItem (deltas ++ [text]))
    event eq_refl (map_app _ _ _)).
  pose proof (push_events_spec [event] s2 out1 _ Hseq) as Hp. cbn [push_events foldl] in Hp.
  rewrite Hp. split; [by eexists| |done]. rewrite Hemit, length_app.
  split; try done; cbn [fst message_text s2 put_message set_sequence open_item].
  - by rewrite Hmt, join_text_snoc.
  - intros ds [= <-]. simpl. by rewrite Hidx.
Qed.

(** ** Tool calls *)

Lemma tool_call_advances (b : ResponsesResponseBuilder) (closed : list OutputItem)
    (s : ResponsesStreamingState) (out : list ResponsesStreamEvent) (call : ParsedToolCall)
    (arguments : string) :
  let g := {| closed_items := closed; open_item := None |} in
  let g' := {| closed_items := closed ++ [FunctionItem call arguments]; open_item := None |} in
  represents g s (length (emitted_events b g)) ->
  arguments_to_tool_call_string (call_arguments call) = Ok arguments ->
  exists p', handle_tool_call call (s, out) = (fst p', Ok (snd p')) /\ advances b g g' (s, out) p'.
Proof.
  intros g g' Hr Hargs. pose proof Hr as [Hseq Hidx Hopen Hrt Hmt _ _ _ Hout].
  unfold handle_tool_call. cbn [fst]. rewrite Hargs.
  simpl in Hidx, Hopen, Hrt, Hmt, Hout. rewrite Hidx.
  pose proof (push_events_spec (item_events (length closed) (FunctionItem call arguments)) s out _ Hseq)
    as Hp.
  cbn [push_events foldl item_events opening_events delta_events closing_events app item_json] in Hp.
  rewrite Hp. eexists (_, _). split; [done|].
  pose proof (emitted_calls b closed (FunctionItem call arguments)) as Hemit.
  split; [by eexists| |done]. subst g'. rewrite Hemit, length_app. split; simpl; try done.
  - by rewrite Hidx, length_app, Nat.add_1_r.
  - by rewrite items_json_snoc, Hout.
Qed.

Lemma call_items_cons (call : ParsedToolCall) (calls : list ParsedToolCall) :
  call_items (call :: calls)
  = (let? arguments := arguments_to_tool_call_string (call_arguments call) in
     let? items := call_items calls in
     Ok (FunctionItem call arguments :: items)).
Proof.
  unfold call_items. simpl. by destruct (arguments_to_tool_call_string (call_arguments call)).
Qed.

Lemma tool_calls_loop_advances (b : ResponsesResponseBuilder) (calls : list ParsedToolCall)
    (items closed : list OutputItem) (s : ResponsesStreamingState)
    (out : list ResponsesStreamEvent) :
  let g := {| closed_items := closed; open_item := None |} in
  represents g s (length (emitted_events b g)) -> call_items calls = Ok items ->
  exists p', handle_tool_calls_loop calls (s, out) = (fst p', Ok (snd p')) /\
    advances b g {| closed_items := closed ++ items; open_item := None |} (s, out) p'.
Proof.
  revert items closed s out. induction calls as [|call calls IH]; intros items closed s out g Hr Hi.
  - injection Hi as <-. exists (s, out). split; [done|]. rewrite app_nil_r. by apply advances_refl.
  - rewrite call_items_cons in Hi.
    destruct (arguments_to_tool_call_string (call_arguments call)) as [arguments|e] eqn:Ha;
      simpl in Hi; [|discriminate].
    destruct (call_items calls) as [rest|e] eqn:Hrest; simpl in Hi; [|discriminate]. injection Hi as <-.
    destruct (tool_call_advances b closed s out call arguments Hr Ha) as ([s1 out1] & Hc & Ha1).
    cbn [handle_tool_calls_loop]. rewrite Hc. cbn [fst snd].
    destruct (IH rest (closed ++ [FunctionItem call arguments]) s1 out1 (adv_state _ _ _ _ _ Ha1)
      eq_refl) as (p' & Hl & Ha2).
    exists p'. split; [done|]. eapply advances_trans; [exact Ha1|].
    by rewrite <- app_assoc in Ha2.
Qed.

Lemma tool_calls_advance (b : ResponsesResponseBuilder) (calls : list ParsedToolCall)
    (items : list OutputItem) (g : Grouping) (s : ResponsesStreamingState)
    (out : list ResponsesStreamEvent) :
  represents g s (length (emitted_events b g)) -> call_items calls = Ok items ->
  exists p', handle_tool_calls calls (s, out) = (fst p', Ok (snd p')) /\
    advances b g (group_token g (ToolCallParsed calls)) (s, out) p'.
Proof.
  intros Hr Hi. unfold handle_tool_calls. simpl group_token. rewrite Hi.
  pose proof (close_advances b g s out Hr) as Hclose.
  destruct (close_open_item (s, out)) as [s1 out1].
  destruct (tool_calls_loop_advances b calls items (all_items g) s1 out1 (adv_state _ _ _ _ _ Hclose)
    Hi) as (p' & Hl & Ha).
  exists p'. split; [done|]. by eapply advances_trans.
Qed.

(** ** A stream, message by message *)

(** What was emitted before and after the preamble. *)
Definition stream_events (b : ResponsesResponseBuilder) (announced : bool) (g : Grouping)
    : list RawEvent :=
  if announced then emitted_events b g else [].

Definition nothing : Grouping := {| closed_items := []; open_item := None |}.

Definition stream_state (b : ResponsesResponseBuilder) (g : Grouping) (s : ResponsesStreamingState)
    : Prop :=
  if started s then represents g s (length (emitted_events b g))
  else s = responses_streaming_state_default /\ g = nothing.

Lemma preamble_starts (t : ResponsesStreamingResponseTransformer) (g : Grouping)
    (s : ResponsesStreamingState) :
  stream_state (streaming_builder t) g s ->
  let b := streaming_builder t in
  exists s1 raw,
    ensure_preamble t (s, [])
    = (s1, numbered_from (length (stream_events b (started s) g)) raw) /\
    emitted_events b g = stream_events b (started s) g ++ raw /\
    represents g s1 (length (emitted_events b g)) /\ started s1 = true.
Proof.
  unfold stream_state, stream_events, ensure_preamble. simpl fst. intros Hs.
  destruct (started s) eqn:Hst.
  - exists s, []. by rewrite app_nil_r.
  - destruct Hs as [-> ->]. eexists _, (preamble_events (streaming_builder t)).
    rewrite emitted_nothing. split_and!; [reflexivity|done| |done]. by split.
Qed.

Lemma content_step (t : ResponsesStreamingResponseTransformer) (g : Grouping)
    (s : ResponsesStreamingState) (generated_by_ : option string) (request_id : string)
    (token : GeneratedTokenResult) :
  let b := streaming_builder t in
  stream_state b g s -> is_content token = true ->
  is_ok (call_items (parsed_calls_of token)) = true ->
  exists s' raw,
    transform t s (token_message generated_by_ request_id token)
    = (s', Ok (numbered_from (length (stream_events b (started s) g)) raw)) /\
    stream_state b (group_token g token) s' /\
    started s' = started s || announces token /\
    stream_events b (started s') (group_token g token)
    = stream_events b (started s) g ++ raw.
Proof.
  intros b Hs Hc Hcalls.
  assert (Hfinish : forall g' p' s1 raw1,
    ensure_preamble t (s, []) = (s1, numbered_from (length (stream_events b (started s) g)) raw1) ->
    emitted_events b g = stream_events b (started s) g ++ raw1 -> started s1 = true ->
    advances b g g' (s1, numbered_from (length (stream_events b (started s) g)) raw1) p' ->
    announces token = true ->
    exists raw,
      ok_events p' = (fst p', Ok (numbered_from (length (stream_events b (started s) g)) raw)) /\
      stream_state b g' (fst p') /\ started (fst p') = started s || announces token /\
      stream_events b (started (fst p')) g' = stream_events b (started s) g ++ raw).
  { intros g' p' s1 raw1 Hp He1 Hst1 [(new & He & Ho) Hr' Hst'] Han. simpl in Ho, Hst'.
    exists (raw1 ++ new). unfold ok_events, stream_state.
    rewrite Ho, numbered_from_app, Hst', Hst1, Han, orb_true_r.
    split_and!; [by rewrite He1, length_app | done | done |].
    unfold stream_events at 1. by rewrite He, He1, app_assoc. }
  destruct (preamble_starts t g s Hs) as (s1 & raw1 & Hp & He1 & Hr1 & Hst1). fold b in Hp, He1, Hr1.
  unfold transform, responses_streaming_transform.
  destruct token; try done; cbn -[ensure_preamble handle_message_content handle_reasoning
    handle_tool_calls group_token ok_events announces]; rewrite ?Hp.
  - destruct (Hfinish _ _ s1 raw1 Hp He1 Hst1 (content_advances b g s1 _ text Hr1) eq_refl)
      as (raw & ? & ? & ? & ?). by exists (fst (handle_message_content text
        (s1, numbered_from (length (stream_events b (started s) g)) raw1))), raw.
  - destruct (Hfinish _ _ s1 raw1 Hp He1 Hst1 (reasoning_advances b g s1 _ text Hr1) eq_refl)
      as (raw & ? & ? & ? & ?). by exists (fst (handle_reasoning text
        (s1, numbered_from (length (stream_events b (started s) g)) raw1))), raw.
  - cbn [parsed_calls_of] in Hcalls. destruct (call_items calls) as [items|e] eqn:Hi; [|done].
    destruct (tool_calls_advance b calls items g s1
      (numbered_from (length (stream_events b (started s) g)) raw1) Hr1 Hi) as (p' & Hh & Ha).
    destruct (Hfinish _ _ s1 raw1 Hp He1 Hst1 Ha eq_refl) as (raw & Hok & ? & ? & ?).
    exists (fst p'), raw. split; [|done]. rewrite Hh. exact Hok.
  - exists s, []. simpl. rewrite orb_false_r, app_nil_r. by split_and!.
  - destruct (Hfinish _ _ s1 raw1 Hp He1 Hst1 (content_advances b g s1 _ text Hr1) eq_refl)
      as (raw & ? & ? & ? & ?). by exists (fst (handle_message_content text
        (s1, numbered_from (length (stream_events b (started s) g)) raw1))), raw.
Qed.

(** ** The whole stream *)

Section Total.
Context (json_to_string_total : forall v, exists s, json_to_string v = Ok s).

Lemma call_items_total (calls : list ParsedToolCall) : exists items, call_items calls = Ok items.
Proof.
  induction calls as [|call calls [items IH]]; [by eexists|]. rewrite call_items_cons, IH.
  destruct (call_arguments call) as [v|raw]; simpl; [|by eexists].
  destruct (json_to_string_total v) as [a ->]. by eexists.
Qed.

Lemma content_run (t : ResponsesStreamingResponseTransformer) (g : Grouping)
    (s : ResponsesStreamingState) (generated_by_ : option string) (request_id : string)
    (tokens : list GeneratedTokenResult) :
  let b := streaming_builder t in
  stream_state b g s -> Forall (fun token => is_content token = true) tokens ->
  exists s' raw,
    transform_all t s (map (token_message generated_by_ request_id) tokens)
    = (s', Ok (numbered_from (length (stream_events b (started s) g)) raw)) /\
    stream_state b (foldl group_token g tokens) s' /\
    stream_events b (started s') (foldl group_token g tokens)
    = stream_events b (started s) g ++ raw.
Proof.
  intros b Hs Hc. revert g s Hs. induction Hc as [|token tokens Ht Hts IH]; intros g s Hs.
  - exists s, []. by rewrite app_nil_r.
  - destruct (call_items_total (parsed_calls_of token)) as [items Hi].
    destruct (content_step t g s generated_by_ request_id token Hs Ht) as (s1 & raw1 & Hm & Hs1 & _ & He1);
      [by rewrite Hi|].
    fold b in Hm, Hs1, He1.
    destruct (IH _ s1 Hs1) as (s2 & raw2 & Hm2 & Hs2 & He2). cbn [map transform_all foldl].
    rewrite Hm, Hm2. exists s2, (raw1 ++ raw2). split_and!; [|done|].
    + rewrite numbered_from_app. by rewrite He1, length_app.
    + by rewrite He2, He1, app_assoc.
Qed.

Lemma default_stream_state (b : ResponsesResponseBuilder) :
  stream_state b nothing responses_streaming_state_default.
Proof. by split. Qed.

Lemma responses_stream_events (t : ResponsesStreamingResponseTransformer)
    (generated_by_ : option string) (request_id : string) (tokens : list GeneratedTokenResult)
    (summary : GenerationSummary)
    (Hcontent : Forall (fun token => is_content token = true) tokens) :
  let b := streaming_builder t in
  let items := all_items (group_tokens tokens) in
  snd (transform_all t responses_streaming_state_default
         (map (token_message generated_by_ request_id) (tokens ++ [Done summary])))
  = Ok (numbered (preamble_events b ++ items_events items ++
          [fun n => Completed (snapshot_at (completed b (items_json items) (usage summary)) n)])).
Proof.
  intros b items. subst b items. rewrite map_app.
  destruct (content_run t nothing _ generated_by_ request_id tokens
    (default_stream_state (streaming_builder t)) Hcontent) as (s & raw & Hrun & Hs & He).
  change (foldl group_token nothing tokens) with (group_tokens tokens) in Hs, He.
  rewrite (transform_all_app _ _ _ _ _ _ Hrun).
  simpl in He. subst raw. cbn [map transform_all].
  unfold transform at 1, responses_streaming_transform at 1.
  cbn -[ensure_preamble handle_stream_done ok_events numbered preamble_events group_tokens app].
  destruct (preamble_starts t _ s Hs) as (s1 & raw1 & Hp & He1 & Hr1 & Hst1). rewrite Hp.
  unfold handle_stream_done.
  pose proof (close_advances _ _ s1 (numbered_from
    (length (stream_events (streaming_builder t) (started s) (group_tokens tokens))) raw1) Hr1) as Hclose.
  destruct (close_open_item _) as [s2 out2]. destruct Hclose as [(new & He2 & Ho) Hr2 _].
  simpl in Ho, Hr2. pose proof (rep_output _ _ _ Hr2) as Hout. simpl in Hout.
  pose proof (push_events_spec [fun n => Completed (snapshot_at (completed (streaming_builder t)
    (items_json (all_items (group_tokens tokens))) (usage summary)) n)] s2 out2 _ (rep_sequence _ _ _ Hr2)) as Hpush.
  cbn [push_events foldl] in Hpush. cbn [fst]. rewrite Hout. rewrite Hpush.
  cbn -[numbered numbered_from preamble_events app]. f_equal.
  rewrite (app_assoc (preamble_events _)), <- emitted_closed.
  match goal with |- _ = numbered ?e => change (numbered e) with (numbered_from 0 e) end.
  rewrite (numbered_from_app 0 (emitted_events _ _)), Ho, He2, numbered_from_app.
  rewrite He1, numbered_from_app, app_nil_r, <- !app_assoc, !Nat.add_0_l.
  done.
Qed.

(** C15. Streaming a generation refines its specification: the events are the
    preamble, then every item the tokens group into, opened, filled delta by
    delta and closed with the text of its deltas, then the completed response
    whose output is exactly those items; the events are numbered
    consecutively from zero, each item has its position as output index, and
    its id names its kind and position. *)
Theorem responses_stream_refines (t : ResponsesStreamingResponseTransformer)
    (generated_by_ : option string) (request_id : string) (tokens : list GeneratedTokenResult)
    (summary : GenerationSummary)
    (Hcontent : Forall (fun token => is_content token = true) tokens) :
  let b := streaming_builder t in
  let items := all_items (group_tokens tokens) in
  snd (transform_all t responses_streaming_state_default
         (map (token_message generated_by_ request_id) (tokens ++ [Done summary])))
  = Ok (numbered (preamble_events b ++ items_events items ++
          [fun n => Completed (snapshot_at (completed b (items_json items) (usage summary)) n)])).
Proof. by apply responses_stream_events. Qed.

(** ** Collecting instead of streaming *)

Definition item_reasoning (item : OutputItem) : string :=
  match item with ReasoningItem deltas => join_text deltas | _ => "" end.
Definition item_content (item : OutputItem) : string :=
  match item with MessageItem deltas => join_text deltas | _ => "" end.
Definition item_calls (item : OutputItem) : list ParsedToolCall :=
  match item with FunctionItem call _ => [call] | _ => [] end.

(** The arguments of a call item are the printed arguments of its call. *)
Definition item_printed (item : OutputItem) : Prop :=
  match item with
  | FunctionItem call arguments =>
      arguments_to_tool_call_string (call_arguments call) = Ok arguments
  | _ => True
  end.

Definition items_reasoning (items : list OutputItem) : string :=
  join_text (map item_reasoning items).
Definition items_content (items : list OutputItem) : string := join_text (map item_content items).

Lemma items_reasoning_app (i1 i2 : list OutputItem) :
  items_reasoning (i1 ++ i2) = items_reasoning i1 +:+ items_reasoning i2.
Proof. unfold items_reasoning. by rewrite map_app, join_text_app. Qed.

Lemma items_content_app (i1 i2 : list OutputItem) :
  items_content (i1 ++ i2) = items_content i1 +:+ items_content i2.
Proof. unfold items_content. by rewrite map_app, join_text_app. Qed.

Definition items_calls (items : list OutputItem) : list ParsedToolCall := items ≫= item_calls.

Lemma items_calls_app (i1 i2 : list OutputItem) :
  items_calls (i1 ++ i2) = items_calls i1 ++ items_calls i2.
Proof. apply bind_app. Qed.

(** What a list of items carries. *)
Definition carries (items : list OutputItem) (reasoning content_ : string)
    (calls : list ParsedToolCall) : Prop :=
  items_reasoning items = reasoning /\ items_content items = content_ /\
  items_calls items = calls /\ Forall item_printed items.

Lemma call_items_carry (calls : list ParsedToolCall) (items : list OutputItem) :
  call_items calls = Ok items -> carries items "" "" calls.
Proof.
  revert items. induction calls as [|call calls IH]; intros items Hi.
  - injection Hi as <-. done.
  - rewrite call_items_cons in Hi.
    destruct (arguments_to_tool_call_string (call_arguments call)) as [a|e] eqn:Ha;
      simpl in Hi; [|discriminate].
    destruct (call_items calls) as [rest|e]; simpl in Hi; [|discriminate]. injection Hi as <-.
    destruct (IH rest eq_refl) as (Hr & Hc & Hl & Hp).
    change (FunctionItem call a :: rest) with ([FunctionItem call a] ++ rest). unfold carries.
    rewrite items_reasoning_app, items_content_app, items_calls_app, Hr, Hc, Hl.
    split_and!; [done|done|done|]. by constructor.
Qed.

(** The open item grows by a text. *)
Lemma item_grows (closed : list OutputItem) (ds : list string) (text : string) :
  (forall r c l, carries (closed ++ [ReasoningItem ds]) r c l ->
   carries (closed ++ [ReasoningItem (ds ++ [text])]) (r +:+ text) (c +:+ "") (l ++ [])) /\
  (forall r c l, carries (closed ++ [MessageItem ds]) r c l ->
   carries (closed ++ [MessageItem (ds ++ [text])]) (r +:+ "") (c +:+ text) (l ++ [])).
Proof.
  split; intros r c l (<- & <- & <- & Hp); apply Forall_app in Hp as [Hp _]; unfold carries;
    rewrite !items_reasoning_app, !items_content_app, !items_calls_app;
    unfold items_reasoning, items_content, items_calls; simpl;
    rewrite join_text_snoc, !string_app_nil_r, !app_nil_r, string_app_assoc;
    (split_and!; [done|done|done|]); (apply Forall_app; split; [done|]); by constructor.
Qed.

Lemma group_token_carries (g : Grouping) (token : GeneratedTokenResult) (r c : string)
    (l : list ParsedToolCall) :
  is_content token = true -> carries (all_items g) r c l ->
  carries (all_items (group_token g token)) (r +:+ default "" (reasoning_text_of token))
    (c +:+ default "" (content_text token)) (l ++ parsed_calls_of token).
Proof.
  intros Ht (<- & <- & <- & Hp).
  assert (Hadd : forall item r' c' l', carries item r' c' l' ->
    carries (all_items g ++ item) (items_reasoning (all_items g) +:+ r')
      (items_content (all_items g) +:+ c') (items_calls (all_items g) ++ l')).
  { intros item r' c' l' (<- & <- & <- & Hp'). unfold carries.
    rewrite items_reasoning_app, items_content_app, items_calls_app. split_and!; try done.
    by apply Forall_app. }
  assert (Hone : forall text, carries [ReasoningItem [text]] text "" [] /\
                              carries [MessageItem [text]] "" text []).
  { intros text. unfold carries, items_reasoning, items_content. simpl.
    rewrite !string_app_nil_r. by repeat constructor. }
  destruct g as [closed open_].
  destruct token; try done; cbn [reasoning_text_of content_text parsed_calls_of default].
  all: try (rewrite !string_app_nil_r, app_nil_r; done).
  - destruct open_ as [[ds|ds|call a]|]; try apply Hadd, Hone.
    by apply item_grows.
  - destruct open_ as [[ds|ds|call a]|]; try apply Hadd, Hone.
    by apply item_grows.
  - destruct (call_items_total calls) as [items Hi]. simpl. rewrite Hi. unfold all_items at 1.
    simpl. rewrite app_nil_r. by apply Hadd, call_items_carry.
  - destruct open_ as [[ds|ds|call a]|]; try apply Hadd, Hone.
    by apply item_grows.
Qed.

Lemma group_tokens_carry (tokens : list GeneratedTokenResult) :
  Forall (fun token => is_content token = true) tokens ->
  carries (all_items (group_tokens tokens)) (all_reasoning tokens) (all_content tokens)
    (all_calls tokens).
Proof.
  intros Hc. unfold group_tokens.
  assert (Hg : forall g r c l, carries (all_items g) r c l ->
    carries (all_items (foldl group_token g tokens)) (r +:+ all_reasoning tokens)
      (c +:+ all_content tokens) (l ++ all_calls tokens)).
  { induction Hc as [|token tokens Ht Hts IH]; intros g r c l Hg; cbn [foldl].
    - unfold all_reasoning, all_content, all_calls. cbn.
      by rewrite !string_app_nil_r, app_nil_r.
    - rewrite all_reasoning_cons, all_content_cons, all_calls_cons, <- !string_app_assoc, app_assoc.
      apply IH. by apply group_token_carries. }
  apply (Hg nothing "" "" []). by repeat constructor.
Qed.

(** A response whose items come in the order in which collecting lists them:
    reasoning, then a message, then calls, with nothing empty. *)
Definition in_order (items : list OutputItem) : Prop :=
  exists reasoning message calls,
    items = reasoning ++ message ++ calls /\
    (reasoning = [] \/ exists ds, reasoning = [ReasoningItem ds] /\ join_text ds <> ""%string) /\
    (message = [] /\ calls <> [] \/
     exists ds, message = [MessageItem ds] /\ (join_text ds <> ""%string \/ calls = [])) /\
    Forall (fun item => exists call a, item = FunctionItem call a) calls.

Lemma function_items_carry_no_text (items : list OutputItem) :
  Forall (fun item => exists call a, item = FunctionItem call a) items ->
  items_reasoning items = ""%string /\ items_content items = ""%string /\
  (items_calls items = [] -> items = []).
Proof.
  induction 1 as [|item items (call & a & ->) Hf (Hr & Hc & Hl)]; [done|].
  unfold items_reasoning, items_content in *. simpl. rewrite Hr, Hc. done.
Qed.

Lemma push_function_calls_spec (items : list OutputItem) (output : list JsonValue) :
  Forall (fun item => exists call a, item = FunctionItem call a) items ->
  Forall item_printed items ->
  push_function_calls (items_calls items) output
  = Ok (output ++ imap (fun j item => item_json (length output + j) item) items).
Proof.
  intros Hf. revert output. induction Hf as [|item items (call & a & ->) Hf IH];
    intros output Hp; [by rewrite app_nil_r|].
  apply Forall_cons in Hp as [Ha Hp]. simpl in Ha. cbn -[item_json item_id_at]. rewrite Ha. simpl.
  fold (items_calls items). rewrite IH by done. rewrite <- app_assoc, length_app. simpl.
  rewrite Nat.add_0_r. do 3 f_equal. apply imap_ext. intros j item _. simpl. f_equal. lia.
Qed.

Lemma completed_output_in_order (items : list OutputItem) (r c : string)
    (l : list ParsedToolCall) :
  carries items r c l -> in_order items ->
  completed_output {| response_content := c; response_reasoning := r; response_tool_calls := l |}
  = Ok (items_json items).
Proof.
  intros (<- & <- & <- & Hp) (reasoning & message & calls & -> & Hr & Hm & Hf).
  rewrite !Forall_app in Hp. destruct Hp as (_ & _ & Hp).
  pose proof (function_items_carry_no_text calls Hf) as (Hcr & Hcc & Hcn).
  pose proof (fun output => push_function_calls_spec calls output Hf Hp) as Hpush.
  unfold completed_output. cbn [response_reasoning response_content response_tool_calls].
  rewrite !items_reasoning_app, !items_content_app, !items_calls_app, Hcr, Hcc, !string_app_nil_r.
  unfold items_json. rewrite !imap_app.
  assert (Hcalls : bool_decide (items_calls calls = []) = bool_decide (calls = [])).
  { apply bool_decide_ext. split; [done|by intros ->]. }
  assert (Hnone : forall ds, items_calls [ReasoningItem ds] = [] /\ items_calls [MessageItem ds] = []
    /\ items_reasoning [ReasoningItem ds] = join_text ds /\ items_reasoning [MessageItem ds] = ""%string
    /\ items_content [ReasoningItem ds] = ""%string /\ items_content [MessageItem ds] = join_text ds).
  { intros ds. unfold items_reasoning, items_content. cbn. by rewrite !string_app_nil_r. }
  destruct Hr as [->|(rs & -> & Hrs)]; destruct Hm as [[-> Hne]|(ms & -> & Hms)];
    try (destruct (Hnone rs) as (-> & _ & -> & _ & -> & _));
    try (destruct (Hnone ms) as (_ & -> & _ & -> & _ & ->));
    change (items_calls []) with (@nil ParsedToolCall);
    change (items_reasoning []) with ""%string; change (items_content []) with ""%string;
    rewrite ?string_app_nil_r, !app_nil_l; rewrite Hcalls;
    change (""%string +:+ ""%string) with ""%string;
    repeat (rewrite (bool_decide_eq_true_2 (""%string = ""%string)) by done);
    rewrite ?(bool_decide_eq_false_2 (join_text rs = ""%string)) by done;
    rewrite ?(bool_decide_eq_false_2 (calls = [])) by done.
  all: cbn -[item_json item_id_at push_function_calls items_calls]; rewrite ?Hpush; try done.
  - destruct Hms as [Hms| ->]; [rewrite (bool_decide_eq_false_2 (join_text ms = ""%string)) by done|];
      cbn -[item_id_at push_function_calls item_json items_calls]; rewrite ?orb_true_r; done.
  - destruct Hms as [Hms| ->]; [rewrite (bool_decide_eq_false_2 (join_text ms = ""%string)) by done|];
      cbn -[item_id_at push_function_calls item_json items_calls]; rewrite ?orb_true_r; done.
Qed.

Lemma responses_non_streaming_run (n : ResponsesNonStreamingResponseTransformer)
    (s : ResponsesNonStreamingState) (generated_by_ : option string) (request_id : string)
    (tokens : list GeneratedTokenResult) :
  Forall (fun token => is_content token = true) tokens ->
  transform_all n s (map (token_message generated_by_ request_id) tokens)
  = ({| response_content := response_content s +:+ all_content tokens;
        response_reasoning := response_reasoning s +:+ all_reasoning tokens;
        response_tool_calls := response_tool_calls s ++ all_calls tokens |}, Ok []).
Proof.
  intros Hc. revert s. induction Hc as [|token tokens Ht Hts IH]; intros s; cbn [map transform_all].
  - cbn. rewrite !string_app_nil_r, app_nil_r. by destruct s.
  - rewrite all_content_cons, all_reasoning_cons, all_calls_cons.
    destruct token; try done; unfold transform, responses_non_streaming_transform; cbn; rewrite IH;
      cbn; rewrite ?string_app_assoc, <- ?app_assoc; done.
Qed.

Lemma push_function_calls_total (calls : list ParsedToolCall) (output : list JsonValue) :
  exists output', push_function_calls calls output = Ok output'.
Proof.
  revert output. induction calls as [|call calls IH]; intros output; simpl; [by eexists|].
  destruct (call_arguments call) as [v|raw]; simpl; [|apply IH].
  destruct (json_to_string_total v) as [a ->]. simpl. apply IH.
Qed.

Lemma last_numbered (events : list RawEvent) (event : RawEvent) :
  last (numbered (events ++ [event])) = Some (event (wrap_u64 (Z.of_nat (length events)))).
Proof. unfold numbered. rewrite imap_app. simpl. rewrite last_snoc, Nat.add_0_r. done. Qed.

(** Collecting a generation and streaming it give the same response: the
    streamed items carry exactly the reasoning, the text and the calls, with
    their arguments, that the collected response is built from, and when they
    come in the order reasoning, message, calls with nothing empty, the output
    of the collected response is the output of the completed event of the
    stream, item for item. *)
Theorem responses_collect_equivalent (t : ResponsesStreamingResponseTransformer)
    (n : ResponsesNonStreamingResponseTransformer) (generated_by_ : option string)
    (request_id : string) (tokens : list GeneratedTokenResult) (summary : GenerationSummary)
    (Hbuilder : collecting_builder n = streaming_builder t)
    (Hcontent : Forall (fun token => is_content token = true) tokens) :
  let b := streaming_builder t in
  let messages := map (token_message generated_by_ request_id) (tokens ++ [Done summary]) in
  exists events items output number chunk,
    snd (transform_all t responses_streaming_state_default messages) = Ok events /\
    last events = Some (Completed (snapshot_at (completed b (items_json items) (usage summary)) number)) /\
    carries items (all_reasoning tokens) (all_content tokens) (all_calls tokens) /\
    snd (transform_all n responses_non_streaming_state_default messages) = Ok [Chunk chunk] /\
    json_to_string (completed b output (usage summary)) = Ok chunk /\
    completed_output {| response_content := all_content tokens;
                        response_reasoning := all_reasoning tokens;
                        response_tool_calls := all_calls tokens |} = Ok output /\
    (in_order items -> output = items_json items).
Proof.
  intros b messages.
  set (snapshot := {| response_content := all_content tokens; response_reasoning := all_reasoning tokens;
                      response_tool_calls := all_calls tokens |}).
  assert (Htotal : exists output, completed_output snapshot = Ok output)
    by apply push_function_calls_total.
  destruct Htotal as [output Hout].
  destruct (json_to_string_total (completed b output (usage summary))) as [chunk Hchunk].
  pose proof (group_tokens_carry tokens Hcontent) as Hcarry.
  eexists _, (all_items (group_tokens tokens)), output, _, chunk. split_and!.
  - by apply responses_stream_events.
  - rewrite app_assoc, last_numbered. reflexivity.
  - done.
  - subst messages. rewrite map_app.
    rewrite (transform_all_app _ _ _ _ _ _ (responses_non_streaming_run n
      responses_non_streaming_state_default generated_by_ request_id tokens Hcontent)).
    cbn -[build_completed all_content all_reasoning all_calls]. unfold build_completed.
    change (""%string +:+ all_content tokens) with (all_content tokens).
    change (""%string +:+ all_reasoning tokens) with (all_reasoning tokens). fold snapshot.
    rewrite Hout. simpl. rewrite Hbuilder. fold b. by rewrite Hchunk.
  - done.
  - done.
  - intros Hord. pose proof (completed_output_in_order _ _ _ _ Hcarry Hord) as Hsame.
    fold snapshot in Hsame. congruence.
Qed.

End Total.

(** A generation without any content is collected as one empty message and
    streamed as no item at all. *)
Lemma empty_generation_differs (t : ResponsesStreamingResponseTransformer)
    (generated_by_ : option string) (request_id : string) (summary : GenerationSummary) :
  let b := streaming_builder t in
  snd (transform_all t responses_streaming_state_default
         [token_message generated_by_ request_id (Done summary)])
  = Ok (numbered (preamble_events b ++
          [fun n => Completed (snapshot_at (completed b [] (usage summary)) n)])) /\
  completed_output responses_non_streaming_state_default
  = Ok [message_item_done (item_id_at "msg_" 0) ""].
Proof. by split. Qed.

(** A failed tool call makes the stream contradict itself: the failure is
    announced as the failure of the whole response, but it does not end the
    generation, and the summary that follows completes the response that has
    failed. *)
Theorem failed_response_completes (t : ResponsesStreamingResponseTransformer)
    (generated_by_ : option string) (request_id : string) (token : GeneratedTokenResult)
    (summary : GenerationSummary)
    (Hnot_last : is_done token = false) (Herror : is_content token = false) :
  let b := streaming_builder t in
  exists e, server_error_from_token token = Some e /\
    snd (transform_all t responses_streaming_state_default
           (map (token_message generated_by_ request_id) [token; Done summary]))
    = Ok (numbered (preamble_events b ++
            [(fun n => Failed (snapshot_at (failed b e) n));
             (fun n => Completed (snapshot_at (completed b [] (usage summary)) n))])).
Proof. destruct token; try done; eexists; by split. Qed.

End ResponsesStream.

(** ** Witnesses *)

Definition example_builder : ResponsesResponseBuilder :=
  {| builder_id := "resp"; created_at := 1; builder_model := "m"; builder_instructions := None |}.
Definition example_stream : ResponsesStreamingResponseTransformer :=
  {| streaming_builder := example_builder |}.
Definition example_collect : ResponsesNonStreamingResponseTransformer :=
  {| collecting_builder := example_builder |}.
Definition example_generation : list (@GeneratedTokenResult plain_llama) :=
  [ReasoningToken "hm"; ReasoningToken "m"; ContentToken "Hel"; ContentToken "lo";
   ToolCallToken "<"; ToolCallParsed ["f"%string]].
Definition example_usage : @GenerationSummary plain_llama := {| usage := 7 |}.

Lemma responses_stream_refines_witness :
  exists events,
    snd (transform_all example_stream responses_streaming_state_default
           (map (token_message None "r") (example_generation ++ [Done example_usage]))) = Ok events /\
    map event_name (firstn 6 events)
    = ["response.created"; "response.in_progress"; "response.output_item.added";
       "response.reasoning_text.delta"; "response.reasoning_text.delta";
       "response.reasoning_text.done"]%string /\
    length events = 19%nat.
Proof.
  eexists. split.
  - apply (responses_stream_refines plain_json_total example_stream None "r" example_generation
      example_usage). by repeat constructor.
  - split; reflexivity.
Defined.

Lemma responses_collect_equivalent_witness :
  exists events chunk,
    snd (transform_all example_stream responses_streaming_state_default
           (map (token_message None "r") (example_generation ++ [Done example_usage]))) = Ok events /\
    snd (transform_all example_collect responses_non_streaming_state_default
           (map (token_message None "r") (example_generation ++ [Done example_usage])))
    = Ok [Chunk chunk].
Proof.
  destruct (responses_collect_equivalent plain_json_total example_stream example_collect None "r"
    example_generation example_usage) as (events & items & output & number & chunk & He & _ & _ & Hc & _).
  - reflexivity.
  - by repeat constructor.
  - exists events, chunk. split; [exact He | exact Hc].
Defined.

Lemma failed_response_completes_witness :
  exists events,
    snd (transform_all example_stream responses_streaming_state_default
           (map (token_message None "r") [ToolCallValidationFailed ["bad"%string]; Done example_usage]))
    = Ok events /\
    map event_name events
    = ["response.created"; "response.in_progress"; "response.failed"; "response.completed"]%string.
Proof.
  destruct (failed_response_completes example_stream None "r"
    (ToolCallValidationFailed ["bad"%string]) example_usage) as (e & He & Hs).
  - reflexivity.
  - reflexivity.
  - eexists. split; [exact Hs|]. reflexivity.
Defined.
