(* ===== verification/OpenAIRequests.v ===== *)
(** * OpenAI requests, and what the routes make of them

    The request records of [compatibility/openai_service/] after
    deserialization, their conversion into the parameters of a conversation
    ([openai_chat_completion_tool.rs], [openai_responses_input_item.rs],
    [openai_responses_request_params.rs] and the small files around them), and
    the two routes of [http_route/] up to the stream they start. *)

From S2P Require Import Prelude Messages Requests ToolCalls OpenAI ChatCompletions Responses.
Local Open Scope Z_scope.

Section OpenAIRequests.
Context `{JsonTypes} `{LlamaTypes} `{!ToolCallBackend} `{!JsonBuilder} `{!OpenAIFields}.

(** ** Tools *)

Record OpenAIToolParametersSchema : Type := {
  openai_schema_type : option string;
  openai_properties : option (gmap string JsonValue);
  openai_required : option (list string);
  openai_additional_properties : option JsonValue;
}.

Definition into_raw_parameters_schema (s : OpenAIToolParametersSchema) : RawParametersSchema :=
  {| raw_schema_type := default "object"%string (openai_schema_type s);
     raw_properties := openai_properties s;
     raw_required := openai_required s;
     raw_additional_properties := openai_additional_properties s |}.

Record OpenAIChatCompletionFunction : Type := {
  openai_function_name : string;
  openai_function_description : option string;
  openai_function_parameters : option OpenAIToolParametersSchema;
}.

Definition into_tool (f : OpenAIChatCompletionFunction) : Tool RawParametersSchema :=
  FunctionTool
    {| function :=
         {| function_name := openai_function_name f;
            function_description := default ""%string (openai_function_description f);
            function_parameters :=
              match openai_function_parameters f with
              | None => EmptyParameters
              | Some parameters => SchemaParameters (into_raw_parameters_schema parameters)
              end |} |}.

Inductive OpenAIChatCompletionTool : Type :=
| OpenAIFunctionTool (f : OpenAIChatCompletionFunction)
| OpenAIUnsupportedTool.

Definition chat_tool_into_tool (tool : OpenAIChatCompletionTool)
    : option (Tool RawParametersSchema) :=
  match tool with
  | OpenAIFunctionTool f => Some (into_tool f)
  | OpenAIUnsupportedTool => None
  end.

(** [OpenAIResponsesFunctionTool] has the same fields. *)
Inductive OpenAIResponsesTool : Type :=
| ResponsesFunctionTool (f : OpenAIChatCompletionFunction)
| ResponsesUnsupportedTool.

Definition responses_tool_into_tool (tool : OpenAIResponsesTool)
    : option (Tool RawParametersSchema) :=
  match tool with
  | ResponsesFunctionTool f => Some (into_tool f)
  | ResponsesUnsupportedTool => None
  end.

(** ** Messages *)

Record OpenAIMessage : Type := {
  openai_message_content : ConversationMessageContent;
  openai_message_role : string;
}.

Definition to_conversation_message (m : OpenAIMessage) : ConversationMessage :=
  {| message_content := openai_message_content m; role := openai_message_role m |}.

Inductive OpenAIResponsesInputContentPart : Type :=
| InputText (text : string)
| InputImage (url : option string)
| UnsupportedPart.

Definition into_conversation_part (part : OpenAIResponsesInputContentPart)
    : option ConversationMessageContentPart :=
  match part with
  | InputText text => Some (TextPart text)
  | InputImage (Some u) => Some (ImageUrlPart {| image_url := u |})
  | InputImage None | UnsupportedPart => None
  end.

Inductive OpenAIResponsesMessageContent : Type :=
| ResponsesText (text : string)
| ResponsesParts (parts : list OpenAIResponsesInputContentPart).

Definition into_conversation_content (c : OpenAIResponsesMessageContent)
    : ConversationMessageContent :=
  match c with
  | ResponsesText text => TextContent text
  | ResponsesParts parts => PartsContent (omap into_conversation_part parts)
  end.

Definition normalize_role (role_ : string) : string :=
  if bool_decide (role_ = "developer"%string) then "system"%string else role_.

Record OpenAIResponsesMessageItem : Type := {
  responses_message_role : string;
  responses_message_content : OpenAIResponsesMessageContent;
}.

Definition into_conversation_message (m : OpenAIResponsesMessageItem) : ConversationMessage :=
  {| message_content := into_conversation_content (responses_message_content m);
     role := normalize_role (responses_message_role m) |}.

Inductive OpenAIResponsesFunctionOutput : Type :=
| FunctionOutputText (text : string)
| FunctionOutputParts (parts : list OpenAIResponsesInputContentPart).

Definition into_text (o : OpenAIResponsesFunctionOutput) : string :=
  match o with
  | FunctionOutputText text => text
  | FunctionOutputParts parts =>
      join_text (omap (fun part => match part with InputText text => Some text | _ => None end) parts)
  end.

Record OpenAIResponsesFunctionCallItem : Type := {
  function_call_call_id : string;
  function_call_name : string;
  function_call_arguments : string;
}.

Inductive OpenAIResponsesTaggedItem : Type :=
| TaggedMessage (m : OpenAIResponsesMessageItem)
| TaggedFunctionCall (c : OpenAIResponsesFunctionCallItem)
| TaggedFunctionCallOutput (o : OpenAIResponsesFunctionOutput)
| TaggedUnsupported.

Inductive OpenAIResponsesInputItem : Type :=
| Tagged (item : OpenAIResponsesTaggedItem)
| Message (m : OpenAIResponsesMessageItem).

Definition item_into_conversation_message (item : OpenAIResponsesInputItem)
    : option ConversationMessage :=
  match item with
  | Message m | Tagged (TaggedMessage m) => Some (into_conversation_message m)
  | Tagged (TaggedFunctionCall c) =>
      Some {| message_content := TextContent (json_display (json_object
                [("call_id", json_string (function_call_call_id c));
                 ("name", json_string (function_call_name c));
                 ("arguments", json_string (function_call_arguments c))]%string));
              role := "assistant" |}
  | Tagged (TaggedFunctionCallOutput o) =>
      Some {| message_content := TextContent (into_text o); role := "tool" |}
  | Tagged TaggedUnsupported => None
  end.

Inductive OpenAIResponsesInput : Type :=
| InputPlainText (text : string)
| InputItems (items : list OpenAIResponsesInputItem).

(** ** The Responses request *)

Record OpenAIResponsesReasoning : Type := { effort : option string }.

Definition enables_thinking (r : OpenAIResponsesReasoning) : bool :=
  negb (bool_decide (effort r = Some "none"%string)).

Inductive OpenAIResponsesTextFormat : Type :=
| TextFormat
| JsonSchemaFormat (schema : JsonValue)
| UnsupportedFormat.

Record OpenAIResponsesTextParam : Type := { format : option OpenAIResponsesTextFormat }.

Definition into_grammar_constraint (p : OpenAIResponsesTextParam)
    : result (option GrammarConstraint) string :=
  match format p with
  | Some (JsonSchemaFormat schema) =>
      let? text := json_to_string schema in Ok (Some (JsonSchema text))
  | Some TextFormat | Some UnsupportedFormat | None => Ok None
  end.

Record OpenAIResponsesRequestParams : Type := {
  responses_model : string;
  input : OpenAIResponsesInput;
  instructions : option string;
  responses_stream : option bool;
  max_output_tokens : option Z;
  responses_tools : list OpenAIResponsesTool;
  text_param : option OpenAIResponsesTextParam;
  reasoning : option OpenAIResponsesReasoning;
}.

Record ResponsesPreparedRequest : Type := {
  paddler_params : ContinueFromConversationHistoryParams ValidatedParametersSchema;
  prepared_stream : bool;
  prepared_model : string;
  prepared_instructions : option string;
}.

Definition DEFAULT_MAX_TOKENS : Z := 2000.

Definition prepared_messages (p : OpenAIResponsesRequestParams) : list ConversationMessage :=
  match instructions p with
  | Some text =>
      if bool_decide (text = ""%string) then []
      else [{| message_content := TextContent text; role := "system" |}]
  | None => []
  end ++
  match input p with
  | InputPlainText text => [{| message_content := TextContent text; role := "user" |}]
  | InputItems items => omap item_into_conversation_message items
  end.

Definition into_prepared (p : OpenAIResponsesRequestParams)
    : result ResponsesPreparedRequest string :=
  let? validated_tools := validate_tools (omap responses_tool_into_tool (responses_tools p)) in
  let? grammar := match text_param p with
                  | Some text_param_ => into_grammar_constraint text_param_
                  | None => Ok None
                  end in
  Ok {| paddler_params :=
          {| add_generation_prompt := true;
             conversation_history := {| messages := prepared_messages p |};
             enable_thinking := match reasoning p with
                                | None => true
                                | Some r => enables_thinking r
                                end;
             history_grammar := grammar;
             history_max_tokens := default DEFAULT_MAX_TOKENS (max_output_tokens p);
             parse_tool_calls := negb (bool_decide (validated_tools = []));
             tools := validated_tools |};
        prepared_stream := default false (responses_stream p);
        prepared_model := responses_model p;
        prepared_instructions := instructions p |}.

(** ** The chat-completion request *)

Record StreamOptions : Type := { option_include_usage : bool }.

Record OpenAICompletionRequestParams : Type := {
  max_completion_tokens : option Z;
  openai_messages : list OpenAIMessage;
  openai_model : string;
  stream : option bool;
  stream_options : option StreamOptions;
  openai_tools : list OpenAIChatCompletionTool;
}.

(** [timestamp_from]: the time since the epoch in nanoseconds, when it is not
    before it. *)
Definition timestamp_from (now : Z) : result Z string :=
  if now <? 0 then Err "system time is before the Unix epoch"%string
  else Ok (now / 1000000000).

(** What a route does: answer at once, stream the events of a transformer, or
    collect its outputs into one answer. *)
Inductive RouteOutcome (Streaming Collecting : Type) : Type :=
| Answers (response_ : HttpResponse)
| Streams (params : ContinueFromConversationHistoryParams ValidatedParametersSchema)
          (transformer_ : Streaming)
| Collects (params : ContinueFromConversationHistoryParams ValidatedParametersSchema)
           (transformer_ : Collecting) (nothing_produced : string).
Arguments Answers {Streaming Collecting} _.
Arguments Streams {Streaming Collecting} _ _.
Arguments Collects {Streaming Collecting} _ _ _.

Definition error_response (status_ : Z) (type_ message : string) : HttpResponse :=
  {| status := status_;
     body := json_display (to_envelope {| error_type := type_; openai_error_message := message |}) |}.

(** [post_chat_completions::respond]; [enabled] is the outcome of
    [require_token_generation_enabled], [now] the clock and [fresh_id] the
    [nanoid!] of the fingerprint. *)
Definition post_chat_completions (enabled : result unit string) (now : Z) (fresh_id : string)
    (p : OpenAICompletionRequestParams)
    : RouteOutcome OpenAIStreamingResponseTransformer OpenAINonStreamingResponseTransformer :=
  match enabled with
  | Err _ =>
      Answers (error_response 501 "server_error"
        "Chat completions are disabled while the cluster is configured for embeddings")
  | Ok _ =>
      match validate_tools (omap chat_tool_into_tool (openai_tools p)) with
      | Err err => Answers (error_response 400 "invalid_request_error" err)
      | Ok validated_tools =>
          let params :=
            {| add_generation_prompt := true;
               conversation_history :=
                 {| messages := map to_conversation_message (openai_messages p) |};
               enable_thinking := true;
               history_grammar := None;
               history_max_tokens := default 2000 (max_completion_tokens p);
               parse_tool_calls := negb (bool_decide (validated_tools = []));
               tools := validated_tools |} in
          match timestamp_from now with
          | Err err => Answers {| status := 500; body := err |}
          | Ok created =>
              if default false (stream p) then
                Streams params
                  {| streaming_created := created;
                     include_usage := match stream_options p with
                                      | Some options => option_include_usage options
                                      | None => false
                                      end;
                     streaming_model := openai_model p;
                     system_fingerprint := fresh_id |}
              else
                Collects params {| completion_created := created; completion_model := openai_model p |}
                  "no completion produced"
          end
      end
  end.

(** [post_responses::respond]. *)
Definition post_responses (enabled : result unit string) (now : Z) (fresh_id : string)
    (p : OpenAIResponsesRequestParams)
    : RouteOutcome ResponsesStreamingResponseTransformer ResponsesNonStreamingResponseTransformer :=
  match enabled with
  | Err _ =>
      Answers (error_response 501 "server_error"
        "Responses are disabled while the cluster is configured for embeddings")
  | Ok _ =>
      match into_prepared p with
      | Err err => Answers (error_response 400 "invalid_request_error" err)
      | Ok prepared =>
          match timestamp_from now with
          | Err err => Answers {| status := 500; body := err |}
          | Ok created_at_ =>
              let builder :=
                {| builder_id := "resp_" +:+ fresh_id; created_at := created_at_;
                   builder_model := prepared_model prepared;
                   builder_instructions := prepared_instructions prepared |} in
              if prepared_stream prepared then
                Streams (paddler_params prepared) {| streaming_builder := builder |}
              else
                Collects (paddler_params prepared) {| collecting_builder := builder |}
                  "no response produced"
          end
      end
  end.

(** ** Facts *)

Definition request_of {S C : Type} (o : RouteOutcome S C)
    : option (ContinueFromConversationHistoryParams ValidatedParametersSchema) :=
  match o with
  | Answers _ => None
  | Streams params _ | Collects params _ _ => Some params
  end.

Definition answer_status {S C : Type} (o : RouteOutcome S C) : option Z :=
  match o with
  | Answers r => Some (status r)
  | _ => None
  end.

(** A request that both routes accept and reject alike: the tools are the
    supported ones, in order, validated. *)
Definition accepted_tools (raw : list (Tool RawParametersSchema))
    (vs : list (Tool ValidatedParametersSchema)) : Prop :=
  Forall (fun t => forall s, tool_schema t = Some s -> schema_valid s) raw /\
  map tool_schema raw = map (fun t => raw_of_validated <$> tool_schema t) vs.

Lemma accepted_tools_nil (raw : list (Tool RawParametersSchema))
    (vs : list (Tool ValidatedParametersSchema)) :
  accepted_tools raw vs -> negb (bool_decide (vs = [])) = true <-> raw <> [].
Proof.
  intros [_ Hm]. rewrite negb_true_iff, bool_decide_eq_false.
  by destruct raw, vs; simpl in Hm; try discriminate.
Qed.

Lemma no_developer (p : OpenAIResponsesRequestParams) :
  Forall (fun m => role m <> "developer"%string) (prepared_messages p).
Proof.
  assert (Hi : forall item m, item_into_conversation_message item = Some m ->
    role m <> "developer"%string).
  { assert (Hn : forall m, role (into_conversation_message m) <> "developer"%string).
    { intros m. unfold into_conversation_message, normalize_role. simpl. by case_bool_decide. }
    intros [[m0| | |]|m0] m; simpl; intros [= <-]; by try apply Hn. }
  unfold prepared_messages. apply Forall_app. split.
  - destruct (instructions p); [|constructor]. case_bool_decide; by repeat constructor.
  - destruct (input p) as [text|items]; [by repeat constructor|].
    apply Forall_forall. intros m Hm. apply list_elem_of_omap in Hm as (item & _ & Hit).
    by apply (Hi item).
Qed.

(** What the Responses route does with a request is decided in this order:
    while the cluster serves embeddings it is refused with 501; a tool that
    requires what it does not declare makes it a 400; otherwise an agent gets
    exactly the messages of the client, in order, the instructions first,
    unsupported items and tools left out, "developer" messages as system
    messages, the token limit or its default, and tool calls are parsed
    exactly when a tool is offered. *)
Theorem responses_route_forwards (now : Z) (fresh_id : string) (p : OpenAIResponsesRequestParams)
    (Htotal : forall v, exists s, json_to_string v = Ok s) (Hnow : 0 <= now) :
  let offered := omap responses_tool_into_tool (responses_tools p) in
  (forall refusal, answer_status (post_responses (Err refusal) now fresh_id p) = Some 501) /\
  match request_of (post_responses (Ok tt) now fresh_id p) with
  | Some params =>
      accepted_tools offered (tools params) /\
      messages (conversation_history params) = prepared_messages p /\
      Forall (fun m => role m <> "developer"%string) (messages (conversation_history params)) /\
      history_max_tokens params = default DEFAULT_MAX_TOKENS (max_output_tokens p) /\
      (parse_tool_calls params = true <-> offered <> [])
  | None =>
      answer_status (post_responses (Ok tt) now fresh_id p) = Some 400 /\
      Exists (fun t => exists s, tool_schema t = Some s /\ ~ schema_valid s) offered
  end.
Proof.
  intros offered. split; [done|]. unfold post_responses, into_prepared. fold offered.
  pose proof (validate_tools_ok offered) as Hv.
  destruct (validate_tools offered) as [vs|err]; simpl; [|by split].
  assert (Hg : exists g, match text_param p with
                         | Some text_param_ => into_grammar_constraint text_param_
                         | None => Ok None
                         end = Ok g).
  { destruct (text_param p) as [[[[|schema|]|]]|]; try by eexists. unfold into_grammar_constraint.
    simpl. destruct (Htotal schema) as [text ->]. by eexists. }
  destruct Hg as [g ->]. simpl. unfold timestamp_from.
  destruct (Z.ltb_spec now 0); [lia|].
  pose proof (accepted_tools_nil _ _ Hv). pose proof (no_developer p).
  destruct (default false (responses_stream p)); simpl; by split_and!.
Qed.

(** The same for the chat-completions route. *)
Lemma chat_route_forwards (now : Z) (fresh_id : string) (p : OpenAICompletionRequestParams) :
  0 <= now ->
  let offered := omap chat_tool_into_tool (openai_tools p) in
  (forall refusal, answer_status (post_chat_completions (Err refusal) now fresh_id p) = Some 501) /\
  match request_of (post_chat_completions (Ok tt) now fresh_id p) with
  | Some params =>
      accepted_tools offered (tools params) /\
      messages (conversation_history params) = map to_conversation_message (openai_messages p) /\
      history_max_tokens params = default 2000 (max_completion_tokens p) /\
      (parse_tool_calls params = true <-> offered <> [])
  | None =>
      answer_status (post_chat_completions (Ok tt) now fresh_id p) = Some 400 /\
      Exists (fun t => exists s, tool_schema t = Some s /\ ~ schema_valid s) offered
  end.
Proof.
  intros Hnow offered. split; [done|]. unfold post_chat_completions. fold offered.
  pose proof (validate_tools_ok offered) as Hv.
  destruct (validate_tools offered) as [vs|err]; simpl; [|by split].
  unfold timestamp_from. destruct (Z.ltb_spec now 0); [lia|].
  pose proof (accepted_tools_nil _ _ Hv).
  destruct (default false (stream p)); simpl; by split_and!.
Qed.

End OpenAIRequests.

(** ** Witnesses *)

Definition example_request : @OpenAIResponsesRequestParams string_json :=
  {| responses_model := "m";
     input := InputItems
       [Message {| responses_message_role := "developer";
                   responses_message_content := ResponsesText "be brief" |};
        Tagged TaggedUnsupported;
        Message {| responses_message_role := "user";
                   responses_message_content := ResponsesText "hi" |}];
     instructions := Some "be kind"%string;
     responses_stream := None; max_output_tokens := None; responses_tools := [];
     text_param := None; reasoning := None |}.

Lemma responses_route_forwards_witness :
  exists params,
    request_of (post_responses (Ok tt) 0 "id" example_request) = Some params /\
    map role (messages (conversation_history params)) = ["system"; "system"; "user"]%string /\
    ~ parse_tool_calls params = true.
Proof.
  pose proof (responses_route_forwards 0 "id" example_request plain_json_total (Z.le_refl 0)) as Hr.
  eexists. split; [reflexivity|]. split; [reflexivity|].
  destruct Hr as (_ & _ & _ & _ & _ & Hp). intros Ht. by apply Hp in Ht.
Defined.
