(* ===== verification/ClientStreams.v ===== *)
(** * The stream decoders of the client

    [paddler_client/src/stream/]: the line buffer, and the two streams over
    the body of a response, newline-delimited JSON ([ndjson.rs]) and
    server-sent events ([sse.rs]).  Both are an [unfold] whose step loops over
    the lines that are complete and the chunks of the body; the loop and its
    state are shared here, a [LineFormat] says what each format does with a
    line and with the end of the body.

    A poll is given the turns of the environment: what each
    [run_until_cancelled(response.chunk())] returns.  [serde_json]'s
    [from_str] is a parameter. *)

From S2P Require Import Prelude.
From S2P Require Import Bytes.
From S2P Require Import OpenAI.
Local Open Scope Z_scope.

Inductive StreamError (ParseError TransportError : Type) : Type :=
| NonUtf8StreamLine (source : bytes)
| NdjsonLineParseFailed (line : bytes) (source : ParseError)
| HttpRequestFailed (source : TransportError).
Arguments NonUtf8StreamLine {_ _} _.
Arguments NdjsonLineParseFailed {_ _} _ _.
Arguments HttpRequestFailed {_ _} _.

(** ** [LineBuffer] *)

Record LineBuffer : Type := { buffered : bytes }.

Definition line_buffer_new : LineBuffer := {| buffered := [] |}.

Definition push_chunk (chunk : bytes) (buffer : LineBuffer) : LineBuffer :=
  {| buffered := buffered buffer ++ chunk |}.

(** [iter().position(|byte| *byte == b'\n')] *)
Fixpoint newline_position (s : bytes) : option nat :=
  match s with
  | [] => None
  | b :: s' =>
      if bool_decide (b = newline) then Some 0%nat
      else option_map S (newline_position s')
  end.

(** [decode_line] is [from_utf8]; the error is wrapped by its caller here. *)
Definition take_line (buffer : LineBuffer) : option (result bytes bytes * LineBuffer) :=
  match newline_position (buffered buffer) with
  | None => None
  | Some position =>
      let line_bytes := take (S position) (buffered buffer) in
      Some (from_utf8 (take position line_bytes),
            {| buffered := drop (S position) (buffered buffer) |})
  end.

Definition take_remainder (buffer : LineBuffer) : option (result bytes bytes * LineBuffer) :=
  if bool_decide (buffered buffer = []) then None
  else Some (from_utf8 (buffered buffer), line_buffer_new).

Section Streams.
Context {ParseError TransportError : Type}.
Local Abbreviation Error := (StreamError ParseError TransportError).

(** What the two formats do differently. *)
Record LineFormat (A : Type) : Type := {
  on_line : result bytes bytes -> option (result A Error);
  on_end : LineBuffer -> option (result A Error * LineBuffer);
}.
Arguments on_line {A} _ _.
Arguments on_end {A} _ _.

(** *** Newline-delimited JSON *)

Section Ndjson.
Context {TItem : Type} (from_str : bytes -> result TItem ParseError).

Definition parse_line (line_result : result bytes bytes) : option (result TItem Error) :=
  match line_result with
  | Ok line =>
      let trimmed_line := trim line in
      if bool_decide (trimmed_line = []) then None
      else Some match from_str trimmed_line with
                | Ok item => Ok item
                | Err source => Err (NdjsonLineParseFailed trimmed_line source)
                end
  | Err source => Some (Err (NonUtf8StreamLine source))
  end.

Definition ndjson : LineFormat TItem := {|
  on_line := parse_line;
  on_end := fun buffer =>
    match take_remainder buffer with
    | None => None
    | Some (remainder_result, buffer) =>
        match parse_line remainder_result with
        | None => None
        | Some item_result => Some (item_result, buffer)
        end
    end;
|}.
End Ndjson.

(** *** Server-sent events *)

Definition DATA_FIELD_PREFIX : bytes := String.list_byte_of_string "data: ".

Definition sse : LineFormat bytes := {|
  on_line := fun line_result =>
    match line_result with
    | Ok line =>
        match strip_prefix DATA_FIELD_PREFIX (trim_end_matches carriage_return line) with
        | Some data => Some (Ok data)
        | None => None
        end
    | Err source => Some (Err (NonUtf8StreamLine source))
    end;
  on_end := fun _ => None;
|}.

(** *** The loop *)

Record StreamState : Type := {
  is_terminated : bool;
  line_buffer : LineBuffer;
}.

Definition stream_new : StreamState :=
  {| is_terminated := false; line_buffer := line_buffer_new |}.

(** What one [run_until_cancelled(response.chunk())] returns. *)
Inductive Turn : Type :=
| NextChunk (chunk : bytes)
| EndOfBody
| TransportFailed (source : TransportError)
| CancelledWhileReading.

(** What one poll of the stream gives: an item, the end, or nothing yet,
    because the response has nothing to read. *)
Inductive Polled (A : Type) : Type :=
| Item (item : result A Error) (s : StreamState) (turns : list Turn)
| Finished
| Waiting
| OutOfFuel.
Arguments Item {A} _ _ _.
Arguments Finished {A}.
Arguments Waiting {A}.
Arguments OutOfFuel {A}.

Section Format.
Context {A : Type} (format : LineFormat A).

Fixpoint read_loop (fuel : nat) (s : StreamState) (turns : list Turn) : Polled A :=
  match fuel with
  | O => OutOfFuel
  | S fuel' =>
      match take_line (line_buffer s) with
      | Some (line_result, buffer) =>
          let s := {| is_terminated := is_terminated s; line_buffer := buffer |} in
          match on_line format line_result with
          | Some item_result => Item item_result s turns
          | None => read_loop fuel' s turns
          end
      | None =>
          match turns with
          | [] => Waiting
          | CancelledWhileReading :: _ => Finished
          | NextChunk chunk :: turns =>
              read_loop fuel'
                {| is_terminated := is_terminated s;
                   line_buffer := push_chunk chunk (line_buffer s) |} turns
          | EndOfBody :: turns =>
              match on_end format (line_buffer s) with
              | None => Finished
              | Some (item_result, buffer) =>
                  Item item_result
                    {| is_terminated := is_terminated s; line_buffer := buffer |} turns
              end
          | TransportFailed source :: turns =>
              Item (Err (HttpRequestFailed source))
                {| is_terminated := true; line_buffer := line_buffer s |} turns
          end
      end
  end.

(** A turn of the loop takes a line off the buffer or a turn off the list. *)
Definition turn_size (turn : Turn) : nat :=
  match turn with NextChunk chunk => S (length chunk) | _ => 1 end.

Definition stream_size (s : StreamState) (turns : list Turn) : nat :=
  length (buffered (line_buffer s)) + sum_list_with turn_size turns.

Definition next_item (is_cancelled : bool) (s : StreamState) (turns : list Turn) : Polled A :=
  if is_terminated s || is_cancelled then Finished
  else read_loop (S (stream_size s turns)) s turns.

(** Polling to the end.  [cancel_after] is the number of polls after which
    the token is cancelled, if it is. *)
Fixpoint poll_all (fuel : nat) (cancel_after : option nat) (s : StreamState) (turns : list Turn)
    : list (result A Error) * Polled A :=
  match fuel with
  | O => ([], OutOfFuel)
  | S fuel' =>
      match next_item (bool_decide (cancel_after = Some 0%nat)) s turns with
      | Item item s turns =>
          let '(items, last_poll) := poll_all fuel' (pred <$> cancel_after) s turns in
          (item :: items, last_poll)
      | last_poll => ([], last_poll)
      end
  end.

Definition poll_to_end (cancel_after : option nat) (s : StreamState) (turns : list Turn)
    : list (result A Error) * Polled A :=
  poll_all (S (stream_size s turns)) cancel_after s turns.

(** ** The reference decoder

    What the stream gives, without its loop: the complete lines of what has
    been read, then whatever the next turn brings. *)

Definition complete_items (s : bytes) : list (result A Error) :=
  omap (on_line format) (map from_utf8 (fst (split_lines s))).

Definition prepend (items : list (result A Error)) (p : list (result A Error) * Polled A)
    : list (result A Error) * Polled A := (items ++ fst p, snd p).

Fixpoint decode (received : bytes) (turns : list Turn) : list (result A Error) * Polled A :=
  prepend (complete_items received)
    (let remainder := snd (split_lines received) in
     match turns with
     | [] => ([], Waiting)
     | CancelledWhileReading :: _ => ([], Finished)
     | NextChunk chunk :: turns => decode (remainder ++ chunk) turns
     | EndOfBody :: turns =>
         match on_end format {| buffered := remainder |} with
         | None => ([], Finished)
         | Some (item_result, buffer) => prepend [item_result] (decode (buffered buffer) turns)
         end
     | TransportFailed source :: _ => ([Err (HttpRequestFailed source)], Finished)
     end).

Lemma newline_position_spec (s : bytes) :
  match newline_position s with
  | None => newline ∉ s
  | Some i => exists line rest, s = line ++ newline :: rest /\ length line = i /\ newline ∉ line
  end.
Proof.
  induction s as [|b s IH]; simpl; [set_solver|]. case_bool_decide as Hb.
  - exists [], s. subst. split_and!; [done.. | set_solver].
  - destruct (newline_position s) as [i|]; simpl.
    + destruct IH as (line & rest & -> & <- & Hline). exists (b :: line), rest.
      split_and!; [done.. | set_solver].
    + set_solver.
Qed.

Lemma take_line_spec (buffer : LineBuffer) :
  match take_line buffer with
  | None => newline ∉ buffered buffer
  | Some (line_result, rest) => exists line,
      buffered buffer = line ++ newline :: buffered rest /\ (newline ∉ line) /\
      line_result = from_utf8 line
  end.
Proof.
  unfold take_line. pose proof (newline_position_spec (buffered buffer)) as H.
  destruct (newline_position (buffered buffer)) as [i|]; [|done].
  destruct H as (line & rest & -> & <- & Hline). exists line. cbn [buffered].
  assert (Hdrop : drop (S (length line)) (line ++ newline :: rest) = rest).
  { replace (S (length line)) with (length (line ++ [newline])) by (rewrite length_app; simpl; lia).
    change (newline :: rest) with ([newline] ++ rest). by rewrite app_assoc, drop_app_length. }
  rewrite Hdrop, take_take, Nat.min_l by lia. by rewrite take_app_length.
Qed.

Lemma decode_line (line rest : bytes) (turns : list Turn) (Hline : newline ∉ line) :
  decode (line ++ newline :: rest) turns
  = prepend (option_list (on_line format (from_utf8 line))) (decode rest turns).
Proof.
  assert (Hitems : complete_items (line ++ newline :: rest)
    = option_list (on_line format (from_utf8 line)) ++ complete_items rest).
  { unfold complete_items. rewrite split_lines_line by done. simpl.
    by destruct (on_line format (from_utf8 line)). }
  assert (Hrest : snd (split_lines (line ++ newline :: rest)) = snd (split_lines rest))
    by (by rewrite split_lines_line).
  destruct turns as [|turn turns]; cbn [decode]; rewrite Hitems, ?Hrest; unfold prepend; cbn [fst snd];
    by rewrite app_assoc.
Qed.

Lemma prepend_nil (p : list (result A Error) * Polled A) : prepend [] p = p.
Proof. by destruct p. Qed.

Lemma complete_items_nil (s : bytes) (Hs : newline ∉ s) :
  complete_items s = [] /\ snd (split_lines s) = s.
Proof. unfold complete_items. by rewrite split_lines_remainder. Qed.

(** The end of a body leaves less in the buffer, if it leaves an item. *)
Context (on_end_shrinks : forall buffer item rest,
  on_end format buffer = Some (item, rest) -> (length (buffered rest) <= length (buffered buffer))%nat).

Definition after_poll (fuel : nat) (p : Polled A) : list (result A Error) * Polled A :=
  match p with
  | Item item s turns => prepend [item] (poll_all fuel None s turns)
  | last_poll => ([], last_poll)
  end.

Lemma poll_all_step (fuel : nat) (s : StreamState) (turns : list Turn) :
  poll_all (S fuel) None s turns = after_poll fuel (next_item false s turns).
Proof. cbn [poll_all]. rewrite bool_decide_false by done. by destruct (next_item false s turns); cbn; [destruct (poll_all _ _ _ _)|..]. Qed.

Lemma read_loop_decodes (n : nat) (s : StreamState) (turns : list Turn) (loop_fuel poll_fuel : nat)
    (Hn : (stream_size s turns <= n)%nat) (Hloop : (stream_size s turns < loop_fuel)%nat)
    (Hpoll : (stream_size s turns <= poll_fuel)%nat) (Hopen : is_terminated s = false) :
  after_poll poll_fuel (read_loop loop_fuel s turns) = decode (buffered (line_buffer s)) turns.
Proof.
  revert s turns loop_fuel poll_fuel Hn Hloop Hpoll Hopen.
  induction n as [n IH] using lt_wf_ind. intros [terminated buffer] turns loop_fuel poll_fuel
    Hn Hloop Hpoll Hopen. simpl in Hopen. subst terminated.
  destruct loop_fuel as [|loop_fuel]; [lia|].
  assert (Hagain : forall item s' turns', is_terminated s' = false ->
    (stream_size s' turns' < stream_size {| is_terminated := false; line_buffer := buffer |} turns)%nat ->
    after_poll poll_fuel (Item item s' turns') = prepend [item] (decode (buffered (line_buffer s')) turns')).
  { intros item s' turns' Hopen' Hless. simpl. destruct poll_fuel as [|poll_fuel]; [lia|].
    rewrite poll_all_step. f_equal. unfold next_item. rewrite Hopen'. simpl orb. cbv iota.
    apply (IH (stream_size s' turns')); lia || done. }
  cbn [read_loop]. pose proof (take_line_spec buffer) as Hline.
  unfold stream_size in Hn, Hloop, Hpoll. cbn [line_buffer] in Hn, Hloop, Hpoll.
  cbn [line_buffer is_terminated].
  destruct (take_line buffer) as [[line_result rest]|].
  - destruct Hline as (line & Hbuffer & Hclean & ->). rewrite Hbuffer, decode_line by done.
    apply (f_equal length) in Hbuffer. rewrite length_app in Hbuffer. simpl in Hbuffer.
    destruct (on_line format (from_utf8 line)) as [item|]; simpl option_list.
    + rewrite Hagain; [done..|]. unfold stream_size. simpl. lia.
    + rewrite prepend_nil. apply (IH (stream_size {| is_terminated := false; line_buffer := rest |} turns));
        unfold stream_size; simpl; lia || done.
  - destruct (complete_items_nil _ Hline) as [Hitems Hrest].
    destruct turns as [|[chunk| |source|] turns]; cbn [decode]; rewrite Hitems, ?Hrest, prepend_nil; try done.
    + apply (IH (stream_size {| is_terminated := false; line_buffer := push_chunk chunk buffer |} turns));
        unfold stream_size; simpl in *; rewrite ?length_app; lia || done.
    + destruct buffer as [b]. cbn [buffered].
      destruct (on_end format {| buffered := b |}) as [[item rest]|] eqn:Hend; [|done].
      apply on_end_shrinks in Hend. rewrite Hagain; [done..|]. unfold stream_size. simpl in *. lia.
    + simpl. destruct poll_fuel as [|poll_fuel]; [simpl in Hpoll; lia|]. rewrite poll_all_step. done.
Qed.

Lemma poll_to_end_decodes (s : StreamState) (turns : list Turn) (Hopen : is_terminated s = false) :
  poll_to_end None s turns = decode (buffered (line_buffer s)) turns.
Proof.
  unfold poll_to_end. rewrite poll_all_step. unfold next_item. rewrite Hopen. simpl orb. cbv iota.
  apply (read_loop_decodes (stream_size s turns)); lia || done.
Qed.

Lemma complete_items_app (a b : bytes) :
  complete_items (a ++ b) = complete_items a ++ complete_items (snd (split_lines a) ++ b).
Proof. unfold complete_items. rewrite split_lines_app. simpl. by rewrite map_app, omap_app. Qed.

Lemma remainder_app (a b : bytes) :
  snd (split_lines (a ++ b)) = snd (split_lines (snd (split_lines a) ++ b)).
Proof. by rewrite split_lines_app. Qed.

Lemma decode_chunks (received : bytes) (chunks : list bytes) (turns : list Turn) :
  decode received (map NextChunk chunks ++ turns)
  = prepend (complete_items (received ++ concat chunks))
      (decode (snd (split_lines (received ++ concat chunks))) turns).
Proof.
  assert (Hall : forall s, decode s turns = prepend (complete_items s)
    (decode (snd (split_lines s)) turns)).
  { intros s. rewrite <- (split_lines_joined s) at 1. unfold complete_items.
    pose proof (proj1 (split_lines_clean s)) as Hclean. revert Hclean.
    generalize (snd (split_lines s)) as rest. intros rest. induction 1 as [|l ls Hl _ IH].
    - by rewrite prepend_nil.
    - simpl. unfold ended at 1. rewrite <- !app_assoc. simpl. rewrite decode_line, IH by done.
      unfold prepend. by destruct (on_line format (from_utf8 l)). }
  revert received. induction chunks as [|chunk chunks IH]; intros received; simpl.
  - rewrite app_nil_r. apply Hall.
  - rewrite IH, <- app_assoc, (complete_items_app received), (remainder_app received).
    unfold prepend. cbn [fst snd]. by rewrite app_assoc.
Qed.

End Format.
(** The steps of the two [unfold]s. *)
Definition ndjson_make_stream {TItem : Type} (from_str : bytes -> result TItem ParseError)
    : bool -> StreamState -> list Turn -> Polled TItem :=
  next_item (ndjson from_str).

Definition sse_make_stream : bool -> StreamState -> list Turn -> Polled bytes := next_item sse.

End Streams.
Arguments on_line {ParseError TransportError A} _ _.
Arguments on_end {ParseError TransportError A} _ _.
Arguments Item {ParseError TransportError A} _ _ _.
Arguments Finished {ParseError TransportError A}.
Arguments Waiting {ParseError TransportError A}.
Arguments OutOfFuel {ParseError TransportError A}.
