(* ===== verification/ClientDecoding.v ===== *)
(** * What a client reads from a stream

    The theorems about the decoders of [ClientStreams]: they do not depend on
    how the network cuts the body, what an interruption leaves, and the trip
    of the messages of the balancer through [http_stream_from_agent.rs] and
    the NDJSON decoder. *)

From S2P Require Import Prelude.
From S2P Require Import Bytes.
From S2P Require Import Messages.
From S2P Require Import OpenAI.
From S2P Require Import ClientStreams.
Local Open Scope Z_scope.

(** ** The body the balancer streams

    [format!("{chunk}\n")] for chunks and errors alike. *)

Definition line_bytes (text : string) : bytes := String.list_byte_of_string text ++ [newline].

Definition http_stream_bytes (outputs : list TransformResult) : list bytes :=
  omap (fun output => match output with
                      | Chunk chunk => Some (line_bytes chunk)
                      | TransformError error => Some (line_bytes error)
                      | Discard => None
                      end) outputs.

(** [IdentityTransformer]: every message as its JSON text. *)
Inductive IdentityTransformer : Type := identity_transformer_new.

Class MessageJson `{LlamaTypes} : Type :=
  message_to_string : OutgoingMessage -> result string string.

#[export] Instance identity_transform `{MessageJson} :
    TransformsOutgoingMessage IdentityTransformer unit TransformResult := fun _ s message =>
  (s, let? serialized := message_to_string message in Ok [Chunk serialized]).

Section Decoding.
Context {ParseError TransportError : Type}.
Local Abbreviation Error := (StreamError ParseError TransportError).

Lemma ndjson_end_shrinks {TItem : Type} (from_str : bytes -> result TItem ParseError)
    (buffer : LineBuffer) (item : result TItem Error) (rest : LineBuffer) :
  on_end (ndjson from_str) buffer = Some (item, rest) ->
  (length (buffered rest) <= length (buffered buffer))%nat.
Proof.
  cbn. unfold take_remainder. intros H. case_bool_decide; [done|].
  destruct (parse_line from_str _); simplify_eq; simpl; lia.
Qed.

Lemma sse_end_shrinks (buffer : LineBuffer) (item : result bytes Error) (rest : LineBuffer) :
  on_end sse buffer = Some (item, rest) ->
  (length (buffered rest) <= length (buffered buffer))%nat.
Proof. done. Qed.

(** The remainder that follows the last line of a body. *)
Definition remainder_line (body : bytes) : list bytes :=
  if bool_decide (snd (split_lines body) = []) then [] else [snd (split_lines body)].

Definition non_utf8 {A : Type} (item : result A Error) : bool :=
  match item with Err (NonUtf8StreamLine _) => true | _ => false end.

Lemma valid_lines_decode (s : bytes) (Hs : valid_utf8 s = true) :
  Forall (fun line => from_utf8 line = Ok line) (fst (split_lines s) ++ remainder_line s).
Proof.
  rewrite valid_utf8_lines in Hs. apply andb_prop in Hs as [Hl Hr].
  rewrite forallb_forall in Hl. apply Forall_app. split.
  - apply Forall_forall. intros l Hin. apply list_elem_of_In in Hin.
    unfold from_utf8. by rewrite (Hl l Hin).
  - unfold remainder_line. case_bool_decide; [constructor|]. repeat constructor.
    unfold from_utf8. by rewrite Hr.
Qed.

Lemma omap_items_utf8 {A : Type} (f : result bytes bytes -> option (result A Error))
    (lines : list bytes)
    (Hf : forall line item, f (Ok line) = Some item -> non_utf8 item = false)
    (Hlines : Forall (fun line => from_utf8 line = Ok line) lines) :
  Forall (fun item => non_utf8 item = false) (omap f (map from_utf8 lines)).
Proof.
  induction Hlines as [|l ls Hl _ IH]; [constructor|]. simpl. rewrite Hl.
  destruct (f (Ok l)) eqn:Hfl; [|done]. constructor; [by eapply Hf | done].
Qed.

Lemma parse_line_utf8 {TItem : Type} (from_str : bytes -> result TItem ParseError)
    (line : bytes) (item : result TItem Error) :
  parse_line from_str (Ok line) = Some item -> non_utf8 item = false.
Proof.
  simpl. case_bool_decide; [done|]. destruct (from_str (trim line)); intros; by simplify_eq.
Qed.

Lemma sse_line_utf8 (line : bytes) (item : result bytes Error) :
  on_line sse (Ok line) = Some item -> non_utf8 item = false.
Proof. cbn [on_line sse]. case_match; intros; by simplify_eq. Qed.

Lemma complete_items_line {A : Type} (format : @LineFormat ParseError TransportError A) (line rest : bytes)
    (Hline : newline ∉ line) :
  complete_items format (line ++ newline :: rest)
  = option_list (on_line format (from_utf8 line)) ++ complete_items format rest.
Proof.
  unfold complete_items. rewrite split_lines_line by done. simpl.
  by destruct (on_line format (from_utf8 line)).
Qed.

(** What is decoded of a body once the chunks of it have been read. *)
Lemma poll_body {A : Type} (format : @LineFormat ParseError TransportError A) (chunks : list bytes)
    (turns : list (@Turn TransportError))
    (Hshrinks : forall buffer item rest, on_end format buffer = Some (item, rest) ->
      (length (buffered rest) <= length (buffered buffer))%nat) :
  poll_to_end format None stream_new (map NextChunk chunks ++ turns)
  = prepend (complete_items format (concat chunks))
      (decode format (snd (split_lines (concat chunks))) turns).
Proof. rewrite poll_to_end_decodes by done. apply decode_chunks. Qed.

Lemma complete_items_remainder {A : Type} (format : @LineFormat ParseError TransportError A)
    (body : bytes) :
  complete_items format (snd (split_lines body)) = [] /\
  snd (split_lines (snd (split_lines body))) = snd (split_lines body).
Proof. apply complete_items_nil, split_lines_clean. Qed.

(** C19. The streams decode a body however the network cuts it into chunks,
    also in the middle of a character: NDJSON gives the items of all its lines
    and of what follows the last newline, server-sent events the data fields
    of its complete lines, in order, and then the end; a valid UTF-8 body is
    never reported as broken. *)
Theorem stream_decodes_body {TItem : Type} (from_str : bytes -> result TItem ParseError)
    (chunks : list bytes) (rest : list (@Turn TransportError)) :
  let body := concat chunks in
  let items : list (result TItem Error) := omap (parse_line from_str)
    (map from_utf8 (fst (split_lines body) ++ remainder_line body)) in
  let data : list (result bytes Error) := omap (on_line sse) (map from_utf8 (fst (split_lines body))) in
  poll_to_end (ndjson from_str) None stream_new
    (map NextChunk chunks ++ EndOfBody :: EndOfBody :: rest) = (items, Finished) /\
  poll_to_end sse None stream_new (map NextChunk chunks ++ EndOfBody :: rest) = (data, Finished) /\
  (valid_utf8 body = true ->
   Forall (fun item => non_utf8 item = false) items /\
   Forall (fun item => non_utf8 item = false) data).
Proof.
  intros body items data. split_and!.
  - rewrite poll_body by apply ndjson_end_shrinks. fold body. subst items. unfold remainder_line.
    destruct (complete_items_remainder (ndjson from_str) body) as [Hnone Hrest].
    cbn [decode]. rewrite Hnone, Hrest, prepend_nil. cbn [on_end ndjson take_remainder].
    unfold take_remainder. cbn [buffered]. rewrite map_app, omap_app.
    case_bool_decide; [reflexivity|]. cbn [map]. simpl omap.
    by destruct (parse_line from_str _).
  - rewrite poll_body by apply sse_end_shrinks. fold body.
    destruct (complete_items_remainder sse body) as [Hnone Hrest].
    cbn [decode]. rewrite Hnone, Hrest, prepend_nil. unfold prepend. simpl. by rewrite app_nil_r.
  - intros Hvalid%valid_lines_decode. split; apply omap_items_utf8.
    + apply parse_line_utf8.
    + done.
    + apply sse_line_utf8.
    + by apply Forall_app in Hvalid as [? _].
Qed.

(** An interrupted stream keeps what it has decoded and ends: after a
    failure of the transport comes the failure and nothing else, after a
    cancellation nothing, and polls after a cancellation only cut the items
    short. *)
Theorem stream_interrupted {A : Type} (format : @LineFormat ParseError TransportError A) (chunks : list bytes)
    (cause : TransportError) (rest turns : list Turn) (polls : nat)
    (Hshrinks : forall buffer item rest, on_end format buffer = Some (item, rest) ->
      (length (buffered rest) <= length (buffered buffer))%nat) :
  let items : list (result A Error) := complete_items format (concat chunks) in
  poll_to_end format None stream_new (map NextChunk chunks ++ TransportFailed cause :: rest)
  = (items ++ [Err (HttpRequestFailed cause)], Finished) /\
  poll_to_end format None stream_new (map NextChunk chunks ++ CancelledWhileReading :: rest)
  = (items, Finished) /\
  fst (poll_to_end format (Some polls) stream_new turns)
  = take polls (fst (poll_to_end format None stream_new turns)).
Proof.
  intros items. destruct (complete_items_remainder format (concat chunks)) as [Hnone Hrest].
  split_and!.
  - rewrite poll_body by done. cbn [decode]. by rewrite Hnone.
  - rewrite poll_body by done. cbn [decode]. rewrite Hnone. unfold prepend. simpl.
    by rewrite app_nil_r.
  - unfold poll_to_end. generalize (S (stream_size stream_new turns)) as fuel.
    generalize stream_new as s. intros s fuel. revert polls s turns.
    induction fuel as [|fuel IH]; intros polls s turns; [by destruct polls|].
    cbn [poll_all]. rewrite (bool_decide_false (None = Some 0%nat)) by done.
    destruct polls as [|polls].
    + rewrite bool_decide_true by done. unfold next_item. by rewrite orb_true_r.
    + rewrite bool_decide_false by done.
      destruct (next_item format false s turns) as [item s' turns'| | |]; try done.
      specialize (IH polls s' turns'). change (pred <$> Some (S polls)) with (Some polls).
      change (pred <$> @None nat) with (@None nat).
      destruct (poll_all format fuel (Some polls) s' turns'),
        (poll_all format fuel None s' turns'). simpl in *. by f_equal.
Qed.
End Decoding.

(** ** Messages over HTTP

    The laws of [serde_json] the trip relies on: the compact text of a message
    is not empty, has no newline and no white space around it, is valid UTF-8
    and parses to the message. *)
Section RoundTrip.
Context `{MessageJson} {ParseError TransportError : Type}.
Context (from_str : bytes -> result OutgoingMessage ParseError).

Record JsonText (text : string) (message : OutgoingMessage) : Prop := {
  json_one_line : newline ∉ String.list_byte_of_string text;
  json_utf8 : valid_utf8 (String.list_byte_of_string text) = true;
  json_trimmed : trim (String.list_byte_of_string text) = String.list_byte_of_string text;
  json_not_empty : text <> ""%string;
  json_parses : from_str (String.list_byte_of_string text) = Ok message;
}.

Lemma json_text_line (text : string) (message : OutgoingMessage) (Htext : JsonText text message) :
  parse_line (TransportError := TransportError) from_str
    (from_utf8 (String.list_byte_of_string text)) = Some (Ok message).
Proof.
  destruct Htext as [_ Hutf8 Htrim Hnot_empty Hparse]. unfold from_utf8. rewrite Hutf8. simpl.
  rewrite Htrim, bool_decide_false, Hparse; [done|]. by destruct text.
Qed.

Lemma json_text_lines (texts : list string) (messages : list OutgoingMessage)
    (Htexts : Forall2 (fun message text => JsonText text message) messages texts) :
  omap (parse_line (TransportError := TransportError) from_str)
    (map from_utf8 (map String.list_byte_of_string texts)) = map Ok messages.
Proof.
  induction Htexts as [|m t ms ts Ht _ IH]; [done|]. cbn [map]. rewrite <- IH. cbn.
  by rewrite (json_text_line t m Ht).
Qed.

Lemma identity_outputs (messages : list OutgoingMessage) (outputs : list TransformResult) :
  snd (transform_all identity_transformer_new () messages) = Ok outputs ->
  exists texts, outputs = map Chunk texts /\
    Forall2 (fun message text => message_to_string message = Ok text) messages texts.
Proof.
  revert outputs. induction messages as [|m ms IH]; intros outputs Hrun; cbn [transform_all] in Hrun.
  - simplify_eq/=. by exists [].
  - destruct (transform identity_transformer_new () m) as [[] [out|e]] eqn:Ht; [|done].
    unfold transform, identity_transform in Ht.
    destruct (message_to_string m) as [text|e] eqn:Hm; simplify_eq/=.
    destruct (transform_all identity_transformer_new () ms) as [[] [more|e]]; simpl in *; [|done].
    destruct (IH more eq_refl) as (texts & -> & Hall). simplify_eq. exists (text :: texts). split; [done|].
    by constructor.
Qed.

(** C18. The messages of the balancer arrive as they were sent: the NDJSON
    stream of the client gives exactly the messages the balancer streamed, in
    order, and then ends, however the network cuts the lines into chunks. *)
Theorem ndjson_roundtrip (messages : list OutgoingMessage) (outputs : list TransformResult)
    (chunks : list bytes) (rest : list (@Turn TransportError))
    (Hjson : forall message text, message ∈ messages -> message_to_string message = Ok text ->
      JsonText text message)
    (Hsent : snd (transform_all identity_transformer_new () messages) = Ok outputs)
    (Hnetwork : concat chunks = concat (http_stream_bytes outputs)) :
  poll_to_end (ndjson from_str) None stream_new
    (map NextChunk chunks ++ EndOfBody :: EndOfBody :: rest)
  = (map Ok messages, Finished).
Proof.
  apply identity_outputs in Hsent as (texts & -> & Htexts).
  rewrite poll_body by apply ndjson_end_shrinks. rewrite Hnetwork.
  assert (Hlines : http_stream_bytes (map Chunk texts)
    = map ended (map String.list_byte_of_string texts)).
  { clear. induction texts as [|t ts IH]; [done|]. simpl. by f_equal. }
  assert (Htext : Forall2 (fun message text => JsonText text message) messages texts).
  { apply Forall2_same_length_lookup in Htexts as [Hlen Htexts].
    apply Forall2_same_length_lookup. split; [done|]. intros i m t Hm Ht.
    apply Hjson; [by eapply list_elem_of_lookup_2 | by eapply Htexts]. }
  clear Hjson Hnetwork Htexts. rewrite Hlines. clear Hlines.
  pose proof (split_lines_prefix (map String.list_byte_of_string texts) []) as Hsplit.
  rewrite app_nil_r in Hsplit. unfold complete_items. rewrite Hsplit.
  - cbn [fst snd on_line ndjson split_lines]. rewrite app_nil_r.
    rewrite (json_text_lines texts messages Htext). unfold prepend. cbn. by rewrite app_nil_r.
  - clear Hsplit. induction Htext as [|m t ms ts Ht _ IH]; [constructor|].
    constructor; [apply Ht | done].
Qed.
End RoundTrip.

(** ** Witnesses

    JSON texts of two messages, and a parser that knows them. *)

Definition plain_message : OutgoingMessage :=
  OutgoingMessageResponse
    {| generated_by := None; response_request_id := "r"; response := OutgoingTimeout |}.

#[export] Instance plain_message_json : MessageJson := fun message =>
  match message with
  | OutgoingMessageNotification NotifyTokenGenerationDisabled => Ok "{off}"%string
  | OutgoingMessageResponse
      {| generated_by := None; response_request_id := "r"; response := OutgoingTimeout |} =>
      Ok "{r}"%string
  | _ => Err "unknown"%string
  end.

Definition plain_from_str (text : bytes) : result OutgoingMessage unit :=
  if bool_decide (text = String.list_byte_of_string "{off}")
  then Ok (OutgoingMessageNotification NotifyTokenGenerationDisabled)
  else if bool_decide (text = String.list_byte_of_string "{r}") then Ok plain_message
  else Err tt.

(** "é" is cut between its two bytes. *)
Definition example_chunks : list bytes :=
  [String.list_byte_of_string "data: h" ++ ["195"%byte];
   ["169"%byte; "013"%byte; newline] ++ String.list_byte_of_string "rest"].

Example example_sse :
  fst (poll_to_end (TransportError := unit) (ParseError := unit) sse None stream_new
         (map NextChunk example_chunks ++ [EndOfBody]))
  = [Ok (String.list_byte_of_string "h" ++ ["195"%byte; "169"%byte])].
Proof. vm_compute. reflexivity. Qed.

Lemma stream_decodes_body_witness :
  valid_utf8 (concat example_chunks) = true /\
  Forall (fun item => non_utf8 item = false)
    (omap (parse_line (TransportError := unit) plain_from_str)
       (map from_utf8 (fst (split_lines (concat example_chunks)) ++
          remainder_line (concat example_chunks)))).
Proof.
  split; [vm_compute; reflexivity|].
  apply (stream_decodes_body plain_from_str example_chunks []). vm_compute. reflexivity.
Defined.

Lemma stream_interrupted_witness :
  poll_to_end (ParseError := unit) sse None stream_new
    (map NextChunk example_chunks ++ [TransportFailed tt])
  = ([Ok (String.list_byte_of_string "h" ++ ["195"%byte; "169"%byte]);
      Err (HttpRequestFailed tt)], Finished).
Proof. apply (stream_interrupted sse example_chunks tt [] [] 0). intros ? ? ?. apply sse_end_shrinks. Defined.

Lemma ndjson_roundtrip_witness :
  poll_to_end (TransportError := unit) (ndjson plain_from_str) None stream_new
    (map NextChunk (map (fun b => [b])
       (String.list_byte_of_string "{off}" ++ newline :: String.list_byte_of_string "{r}" ++ [newline]))
     ++ [EndOfBody; EndOfBody])
  = ([Ok (OutgoingMessageNotification NotifyTokenGenerationDisabled); Ok plain_message], Finished).
Proof.
  apply (ndjson_roundtrip plain_from_str
    [OutgoingMessageNotification NotifyTokenGenerationDisabled; plain_message]
    [Chunk "{off}"; Chunk "{r}"]).
  - intros message text Hin Htext.
    apply elem_of_cons in Hin as [->|[->|[]%not_elem_of_nil]%elem_of_cons];
      vm_compute in Htext; injection Htext as <-; split; try done;
      apply (bool_decide_unpack _); vm_compute; exact I.
  - reflexivity.
  - reflexivity.
Defined.
