(* ===== verification/InferenceSocket.v ===== *)
(** * The inference socket of the client

    [paddler_client/src/inference_socket/]: one websocket shared by many
    requests.  A [Connection] ([connection.rs]) has a map from request ids to
    the senders of their response channels and a channel of outgoing texts;
    its read task ([spawn_read_task.rs]) routes every message to the request
    it names, its write task ([spawn_write_task.rs]) writes the texts out, and
    a response stream ([response_stream.rs]) reads one channel and asks the
    balancer to stop when it is dropped before its end.

    The response channels live in a store, since the map and the stream share
    them; a channel keeps everything that was sent into it.  The tasks and
    the clients are operations on the connection, in any order. *)

From S2P Require Import Prelude.
From S2P Require Import Messages.
Local Open Scope Z_scope.

Section Socket.
Context `{LlamaTypes}.

(** The errors of [error.rs] that the socket raises; a connection attempt
    fails with an error of the websocket library. *)
Inductive SocketError : Type :=
| ConnectionDropped (request_id : string)
| ConnectionSlotEmpty
| ReconnectionFailed (request_id : string) (source : SocketError)
| InferenceRequestCancelled (request_id : string)
| SerializationFailed (message : string)
| ConnectFailed (message : string).

Record ResponseChannel : Type := {
  sent_into : list (result OutgoingMessage SocketError);
  receiver_alive : bool;
}.

(** The read task: in its loop, before the loop that tells the pending
    requests, before [pending.clear()], ended. *)
Inductive ReadTask : Type := Reading | Notifying | Clearing | ReadFinished.
#[export] Instance read_task_eq_dec : EqDecision ReadTask.
Proof. solve_decision. Defined.

Record Connection : Type := {
  pending : gmap string nat;
  channels : gmap nat ResponseChannel;
  next_channel : nat;
  write_open : bool;
  queued : list string;
  read_task : ReadTask;
  notifications : list InferenceClientNotification;
}.

(** What [Connection::connect] returns once the websocket is open. *)
Definition connection_new : Connection := {|
  pending := ∅; channels := ∅; next_channel := 0; write_open := true; queued := [];
  read_task := Reading; notifications := [];
|}.

Definition put_pending (p : gmap string nat) (c : Connection) : Connection := {|
  pending := p; channels := channels c; next_channel := next_channel c;
  write_open := write_open c; queued := queued c; read_task := read_task c;
  notifications := notifications c;
|}.

Definition put_channels (m : gmap nat ResponseChannel) (c : Connection) : Connection := {|
  pending := pending c; channels := m; next_channel := next_channel c;
  write_open := write_open c; queued := queued c; read_task := read_task c;
  notifications := notifications c;
|}.

Definition put_read_task (t : ReadTask) (c : Connection) : Connection := {|
  pending := pending c; channels := channels c; next_channel := next_channel c;
  write_open := write_open c; queued := queued c; read_task := t;
  notifications := notifications c;
|}.

(** [write_tx.send(json)]: an error once the write task has ended. *)
Definition write_send (json : string) (c : Connection) : option Connection :=
  if write_open c then
    Some {| pending := pending c; channels := channels c; next_channel := next_channel c;
            write_open := true; queued := queued c ++ [json]; read_task := read_task c;
            notifications := notifications c |}
  else None.

(** [sender.send(..)] on a response channel: an error without a receiver. *)
Definition channel_send (channel : nat) (item : result OutgoingMessage SocketError)
    (c : Connection) : Connection * bool :=
  match channels c !! channel with
  | Some ch =>
      if receiver_alive ch then
        (put_channels (<[channel := {| sent_into := sent_into ch ++ [item];
                                       receiver_alive := true |}]> (channels c)) c, true)
      else (c, false)
  | None => (c, false)
  end.

(** ** [Connection] *)

Definition is_disconnected (c : Connection) : bool :=
  negb (write_open c) || bool_decide (read_task c = ReadFinished).

(** [mpsc::unbounded_channel()] and the insertion into [pending]. *)
Definition open_channel (request_id : string) (c : Connection) : Connection := {|
  pending := <[request_id := next_channel c]> (pending c);
  channels := <[next_channel c := {| sent_into := []; receiver_alive := true |}]> (channels c);
  next_channel := S (next_channel c);
  write_open := write_open c; queued := queued c; read_task := read_task c;
  notifications := notifications c;
|}.

Definition connection_send (request_id json : string) (c : Connection)
    : Connection * result nat SocketError :=
  let channel := next_channel c in
  let c := open_channel request_id c in
  match write_send json c with
  | None => (put_pending (delete request_id (pending c)) c, Err (ConnectionDropped request_id))
  | Some c => (c, Ok channel)
  end.

(** [stop_json] prints the notification [StopRespondingTo]. *)
Context (stop_json : string -> result string string).

Definition stop_responding_to (request_id : string) (c : Connection)
    : Connection * result unit SocketError :=
  let c := put_pending (delete request_id (pending c)) c in
  match stop_json request_id with
  | Err e => (c, Err (SerializationFailed e))
  | Ok json =>
      match write_send json c with
      | None => (c, Err (ConnectionDropped request_id))
      | Some c => (c, Ok tt)
      end
  end.

(** ** The read task *)

Definition response_is_terminal (r : OutgoingResponse) : bool :=
  match r with
  | OutgoingEmbedding result => is_done result
  | OutgoingGeneratedToken result => is_done result
  | OutgoingTimeout | OutgoingTooManyBufferedRequests => true
  end.

(** [RequestScopedMessage]: whether the message is the last one of its
    request, and which request that is. *)
Definition request_scoped (message : OutgoingMessage) : option (bool * string) :=
  match message with
  | OutgoingMessageError envelope => Some (true, error_request_id envelope)
  | OutgoingMessageNotification _ => None
  | OutgoingMessageResponse envelope =>
      Some (response_is_terminal (response envelope), response_request_id envelope)
  end.

Definition broadcast (n : InferenceClientNotification) (c : Connection) : Connection := {|
  pending := pending c; channels := channels c; next_channel := next_channel c;
  write_open := write_open c; queued := queued c; read_task := read_task c;
  notifications := notifications c ++ [n];
|}.

Definition route_message (message : OutgoingMessage) (c : Connection) : Connection :=
  match message with
  | OutgoingMessageNotification notification => broadcast notification c
  | _ =>
      match request_scoped message with
      | None => c
      | Some (is_done, request_id) =>
          match pending c !! request_id with
          | Some sender =>
              let '(c, sent) := channel_send sender (Ok message) c in
              if is_done || negb sent then put_pending (delete request_id (pending c)) c else c
          | None => c
          end
      end
  end.

(** What [ws_read.next()] gives. *)
Inductive ReadEvent : Type :=
| ReadText (message : result OutgoingMessage string)
| ReadClose
| ReadPingPong
| ReadBinary
| ReadFailed
| ReadEnd.

Definition read_event (event : ReadEvent) (c : Connection) : Connection :=
  match event with
  | ReadText (Ok message) => route_message message c
  | ReadText (Err _) | ReadPingPong | ReadBinary => c
  | ReadClose | ReadFailed | ReadEnd => put_read_task Notifying c
  end.

(** The loop over [pending.iter()]. *)
Definition notify_dropped (c : Connection) : Connection :=
  map_fold (fun request_id sender c =>
    fst (channel_send sender (Err (ConnectionDropped request_id)) c)) c (pending c).

(** ** The operations in any order *)

Inductive Operation : Type :=
| Send (request_id json : string)
| Stop (request_id : string)
| DropReceiver (channel : nat)
| Read (event : ReadEvent)
| NotifyPending
| ClearPending
| WriteTaskEnds.

Definition drop_receiver (channel : nat) (c : Connection) : Connection :=
  match channels c !! channel with
  | Some ch => put_channels (<[channel := {| sent_into := sent_into ch;
                                             receiver_alive := false |}]> (channels c)) c
  | None => c
  end.

Definition end_write_task (c : Connection) : Connection := {|
  pending := pending c; channels := channels c; next_channel := next_channel c;
  write_open := false; queued := queued c; read_task := read_task c;
  notifications := notifications c;
|}.

Definition operate (op : Operation) (c : Connection) : Connection :=
  match op with
  | Send request_id json => fst (connection_send request_id json c)
  | Stop request_id => fst (stop_responding_to request_id c)
  | DropReceiver channel => drop_receiver channel c
  | Read event => if bool_decide (read_task c = Reading) then read_event event c else c
  | NotifyPending =>
      if bool_decide (read_task c = Notifying) then put_read_task Clearing (notify_dropped c) else c
  | ClearPending =>
      if bool_decide (read_task c = Clearing)
      then put_read_task ReadFinished (put_pending ∅ c) else c
  | WriteTaskEnds => end_write_task c
  end.

Definition operate_all (ops : list Operation) (c : Connection) : Connection :=
  fold_left (fun c op => operate op c) ops c.

(** ** [response_stream]

    The state of the [unfold]; [read_so_far] is the position of the receiver
    in its channel. *)
Record ResponseStream : Type := {
  stream_request_id : string;
  response_channel : nat;
  read_so_far : nat;
  is_complete : bool;
}.

Definition response_stream (request_id : string) (channel : nat) : ResponseStream :=
  {| stream_request_id := request_id; response_channel := channel; read_so_far := 0;
     is_complete := false |}.

Definition mark_complete (s : ResponseStream) : ResponseStream :=
  {| stream_request_id := stream_request_id s; response_channel := response_channel s;
     read_so_far := read_so_far s; is_complete := true |}.

(** [StreamState::drop], and then the drop of its receiver. *)
Definition drop_stream (s : ResponseStream) (c : Connection) : Connection :=
  drop_receiver (response_channel s)
    (if is_complete s then c else fst (stop_responding_to (stream_request_id s) c)).

Inductive StreamPoll : Type :=
| StreamItem (item : result OutgoingMessage SocketError) (s : ResponseStream)
| StreamEnd
| StreamPending.

(** A sender of the channel exists while the connection has it. *)
Definition channel_closed (s : ResponseStream) (c : Connection) : bool :=
  bool_decide (pending c !! stream_request_id s <> Some (response_channel s)).

Definition stream_next (is_cancelled : bool) (s : ResponseStream) (c : Connection)
    : Connection * StreamPoll :=
  if is_cancelled then (drop_stream s c, StreamEnd)
  else
    match channels c !! response_channel s ≫= fun ch => sent_into ch !! read_so_far s with
    | Some item =>
        (c, StreamItem item
              {| stream_request_id := stream_request_id s;
                 response_channel := response_channel s;
                 read_so_far := S (read_so_far s);
                 is_complete := is_complete s |})
    | None =>
        if channel_closed s c then (drop_stream (mark_complete s) c, StreamEnd)
        else (c, StreamPending)
    end.

(** ** [Pool]

    Connections are shared by the pool and the streams: they live in a store.
    [connected] is the outcome of an attempt to connect. *)
Record Pool : Type := {
  connections : list (option nat);
  store : gmap nat Connection;
  next_connection : nat;
  capacity : nat;
  next_idx : Z;
}.

Definition pool_new (capacity_ : nat) : Pool := {|
  connections := replicate capacity_ None; store := ∅; next_connection := 0;
  capacity := capacity_; next_idx := 0;
|}.

Definition next_connection_index (p : Pool) : Pool * nat :=
  ({| connections := connections p; store := store p; next_connection := next_connection p;
      capacity := capacity p; next_idx := wrap_u64 (next_idx p + 1) |},
   Z.to_nat (next_idx p mod Z.of_nat (capacity p))).

(** The connection of a slot; an index is always in range. *)
Definition slot (index : nat) (p : Pool) : option nat := mjoin (connections p !! index).

Definition put_connection (k : nat) (c : Connection) (p : Pool) : Pool :=
  {| connections := connections p; store := <[k := c]> (store p);
     next_connection := next_connection p; capacity := capacity p; next_idx := next_idx p |}.

Definition ensure_connection (connected : result unit string) (index : nat) (p : Pool)
    : Pool * result unit SocketError :=
  let needs_connect :=
    match slot index p ≫= fun k => store p !! k with
    | None => true
    | Some connection => is_disconnected connection
    end in
  if needs_connect then
    match connected with
    | Err e => (p, Err (ConnectFailed e))
    | Ok _ =>
        ({| connections := <[index := Some (next_connection p)]> (connections p);
            store := <[next_connection p := connection_new]> (store p);
            next_connection := S (next_connection p);
            capacity := capacity p; next_idx := next_idx p |}, Ok tt)
    end
  else (p, Ok tt).

Definition get_connection (index : nat) (p : Pool) : result nat SocketError :=
  match slot index p with
  | Some k => Ok k
  | None => Err ConnectionSlotEmpty
  end.

Record EstablishedRequest : Type := {
  connection : nat;
  response_rx : nat;
}.

(** [get_connection] and [send] on it: nothing can happen in between. *)
Definition send_over_slot (index : nat) (request_id json : string) (p : Pool)
    : Pool * result EstablishedRequest SocketError :=
  match get_connection index p with
  | Err e => (p, Err e)
  | Ok k =>
      let '(c, sent) := connection_send request_id json (default connection_new (store p !! k)) in
      (put_connection k c p,
       match sent with
       | Ok channel => Ok {| connection := k; response_rx := channel |}
       | Err e => Err e
       end)
  end.

(** [first] and [second] are what happens to the pool between making sure of
    the connection and using it, the two times. *)
Definition establish_request (first second : Pool -> Pool)
    (connected reconnected : result unit string) (index : nat) (json request_id : string)
    (p : Pool) : Pool * result EstablishedRequest SocketError :=
  match ensure_connection connected index p with
  | (p, Err e) => (p, Err e)
  | (p, Ok _) =>
      match send_over_slot index request_id json (first p) with
      | (p, Err (ConnectionDropped _)) =>
          match ensure_connection reconnected index p with
          | (p, Err e) => (p, Err e)
          | (p, Ok _) =>
              match get_connection index (second p) with
              | Err e => (second p, Err e)
              | Ok _ =>
                  match send_over_slot index request_id json (second p) with
                  | (p, Ok established) => (p, Ok established)
                  | (p, Err reconnection_error) =>
                      (p, Err (ReconnectionFailed request_id reconnection_error))
                  end
              end
          end
      | (p, other) => (p, other)
      end
  end.

(** [message] is the request as [to_string] prints it.  A cancellation before
    the request is established leaves it unsent. *)
Definition send_request (is_cancelled : bool) (first second : Pool -> Pool)
    (connected reconnected : result unit string) (message : result string string)
    (request_id : string) (p : Pool) : Pool * result (nat * ResponseStream) SocketError :=
  match message with
  | Err e => (p, Err (SerializationFailed e))
  | Ok json =>
      let '(p, conn_idx) := next_connection_index p in
      if is_cancelled then (p, Err (InferenceRequestCancelled request_id))
      else
        match establish_request first second connected reconnected conn_idx json request_id p with
        | (p, Err e) => (p, Err e)
        | (p, Ok established) =>
            (p, Ok (connection established, response_stream request_id (response_rx established)))
        end
  end.

End Socket.
