(* ===== verification/InferenceSocketFacts.v ===== *)
(** * What a request sees of the inference socket

    The view of one request on a connection of [InferenceSocket]: what was
    sent into its channel, whether the connection still has its sender, and
    how far the read task is.  Every operation of the other requests, of the
    tasks and of the network acts on this view as [view_step] says. *)

From S2P Require Import Prelude.
From S2P Require Import Messages.
From S2P Require Import InferenceSocket.
Local Open Scope Z_scope.

Section Facts.
Context `{LlamaTypes} (stop_json : string -> result string string).

(** ** The abstract view *)

Record RequestView : Type := {
  seen : list (result OutgoingMessage SocketError);
  waiting : bool;
  task : ReadTask;
}.

Definition message_for (request_id : string) (message : OutgoingMessage) : option bool :=
  match request_scoped message with
  | Some (is_done, id) => if bool_decide (id = request_id) then Some is_done else None
  | None => None
  end.

Definition view_read (request_id : string) (event : ReadEvent) (v : RequestView) : RequestView :=
  match event with
  | ReadText (Ok message) =>
      match message_for request_id message with
      | Some is_done =>
          if waiting v then
            {| seen := seen v ++ [Ok message]; waiting := negb is_done; task := task v |}
          else v
      | None => v
      end
  | ReadText (Err _) | ReadPingPong | ReadBinary => v
  | ReadClose | ReadFailed | ReadEnd =>
      {| seen := seen v; waiting := waiting v; task := Notifying |}
  end.

Definition view_step (request_id : string) (op : Operation) (v : RequestView) : RequestView :=
  match op with
  | Read event => if bool_decide (task v = Reading) then view_read request_id event v else v
  | NotifyPending =>
      if bool_decide (task v = Notifying) then
        {| seen := seen v ++ (if waiting v then [Err (ConnectionDropped request_id)] else []);
           waiting := waiting v; task := Clearing |}
      else v
  | ClearPending =>
      if bool_decide (task v = Clearing) then
        {| seen := seen v; waiting := false; task := ReadFinished |}
      else v
  | _ => v
  end.

(** The operations of everybody but the request itself. *)
Definition leaves_alone (request_id : string) (channel : nat) (op : Operation) : Prop :=
  match op with
  | Send id _ | Stop id => id <> request_id
  | DropReceiver ch => ch <> channel
  | _ => True
  end.

(** [v] is what the request [request_id] with the channel [channel] sees. *)
Record viewed (request_id : string) (channel : nat) (c : Connection) (v : RequestView) : Prop := {
  viewed_seen : channels c !! channel = Some {| sent_into := seen v; receiver_alive := true |};
  viewed_waiting : pending c !! request_id = Some channel <-> waiting v = true;
  viewed_only : forall id, pending c !! id = Some channel -> id = request_id;
  viewed_task : read_task c = task v;
  viewed_old : (channel < next_channel c)%nat;
}.

Lemma channel_send_spec (channel : nat) (item : result OutgoingMessage SocketError) (c c' : Connection)
    (sent : bool) (Hsend : channel_send channel item c = (c', sent)) :
  c' = put_channels (channels c') c /\
  (forall other, other <> channel -> channels c' !! other = channels c !! other) /\
  (forall log, channels c !! channel = Some {| sent_into := log; receiver_alive := true |} ->
     sent = true /\
     channels c' !! channel = Some {| sent_into := log ++ [item]; receiver_alive := true |}).
Proof.
  unfold channel_send in Hsend.
  destruct (channels c !! channel) as [[log []]|] eqn:Hch; simpl in Hsend; simplify_eq;
    split_and!; try (by destruct c'); try done.
  - intros other Hother. simpl. by rewrite lookup_insert_ne.
  - intros log' [= ->]. simpl. by rewrite lookup_insert_eq.
Qed.

(** What the loop over the pending requests does to the channel of one. *)
Lemma notify_dropped_spec (request_id : string) (channel : nat) (c : Connection)
    (log : list (result OutgoingMessage SocketError))
    (Hlog : channels c !! channel = Some {| sent_into := log; receiver_alive := true |})
    (Honly : forall id, pending c !! id = Some channel -> id = request_id) :
  notify_dropped c = put_channels (channels (notify_dropped c)) c /\
  channels (notify_dropped c) !! channel =
    Some {| sent_into := log ++ (if decide (pending c !! request_id = Some channel)
                                 then [Err (ConnectionDropped request_id)] else []);
            receiver_alive := true |}.
Proof.
  unfold notify_dropped. revert Honly. generalize (pending c) as m.
  apply (map_fold_weak_ind (fun r m => (forall id, m !! id = Some channel -> id = request_id) ->
    r = put_channels (channels r) c /\
    channels r !! channel =
      Some {| sent_into := log ++ (if decide (m !! request_id = Some channel)
                                   then [Err (ConnectionDropped request_id)] else []);
              receiver_alive := true |})).
  - intros _. rewrite decide_False, app_nil_r by (by rewrite lookup_empty). by destruct c.
  - intros id sender m r Hnew IH Honly.
    destruct IH as [Hr IH].
    { intros id' Hid'. apply Honly. rewrite lookup_insert_ne; [done|]. congruence. }
    destruct (channel_send sender (Err (ConnectionDropped id)) r) as [r' sent] eqn:Hsend.
    destruct (channel_send_spec _ _ _ _ _ Hsend) as (Hr' & Hothers & Hown). simpl. split.
    { rewrite Hr', Hr. done. }
    destruct (decide (sender = channel)) as [->|Hne].
    + assert (id = request_id) as -> by (apply Honly, lookup_insert_eq).
      destruct (Hown _ IH) as [_ ->]. rewrite (decide_False (P := m !! _ = _)) by congruence.
      rewrite app_nil_r, decide_True by apply lookup_insert_eq. done.
    + rewrite Hothers, IH by done. do 2 f_equal.
      destruct (decide (id = request_id)) as [->|Hid].
      * rewrite lookup_insert_eq, !decide_False; congruence.
      * by rewrite lookup_insert_ne.
Qed.

(** Operations that do not touch the request keep its view. *)
Lemma viewed_kept (request_id : string) (channel : nat) (c c' : Connection) (v : RequestView) :
  viewed request_id channel c v ->
  channels c' !! channel = channels c !! channel ->
  pending c' !! request_id = pending c !! request_id ->
  (forall id, pending c' !! id = Some channel -> pending c !! id = Some channel) ->
  read_task c' = read_task c -> (next_channel c <= next_channel c')%nat ->
  viewed request_id channel c' v.
Proof.
  intros [Hseen Hwaiting Honly Htask Hold] Hch Hp Hback Ht Hn.
  split; rewrite ?Hch, ?Hp, ?Ht; eauto. lia.
Qed.

Lemma viewed_send (request_id : string) (channel : nat) (id json : string) (c : Connection)
    (v : RequestView) (Hv : viewed request_id channel c v) (Hid : id <> request_id) :
  viewed request_id channel (fst (connection_send id json c)) v.
Proof.
  pose proof (viewed_old _ _ _ _ Hv) as Hold.
  assert (Hback : forall id', (<[id:=next_channel c]> (pending c)) !! id' = Some channel ->
    pending c !! id' = Some channel).
  { intros id' Hid'. destruct (decide (id = id')) as [->|Hne].
    - rewrite lookup_insert_eq in Hid'. injection Hid' as <-. lia.
    - by rewrite lookup_insert_ne in Hid'. }
  unfold connection_send, write_send, open_channel. simpl.
  destruct (write_open c); simpl; apply (viewed_kept _ _ _ _ _ Hv); simpl;
    rewrite ?delete_insert_eq, ?lookup_delete_ne, ?lookup_insert_ne by (lia || done);
    try done; try lia; try exact Hback.
  by intros id' [_ ?]%lookup_delete_Some.
Qed.

Lemma viewed_stop (request_id : string) (channel : nat) (id : string) (c : Connection)
    (v : RequestView) (Hv : viewed request_id channel c v) (Hid : id <> request_id) :
  viewed request_id channel (fst (stop_responding_to stop_json id c)) v.
Proof.
  assert (Hback : forall id', delete id (pending c) !! id' = Some channel ->
    pending c !! id' = Some channel) by (by intros id' [_ ?]%lookup_delete_Some).
  unfold stop_responding_to, write_send. simpl.
  destruct (stop_json id); [destruct (write_open c)|]; simpl; apply (viewed_kept _ _ _ _ _ Hv);
    simpl; rewrite ?lookup_delete_ne by done; done.
Qed.

Lemma viewed_drop_receiver (request_id : string) (channel ch : nat) (c : Connection)
    (v : RequestView) (Hv : viewed request_id channel c v) (Hch : ch <> channel) :
  viewed request_id channel (drop_receiver ch c) v.
Proof.
  unfold drop_receiver. destruct (channels c !! ch); [|done].
  apply (viewed_kept _ _ _ _ _ Hv); simpl; rewrite ?lookup_insert_ne by done; done.
Qed.

Lemma viewed_route (request_id : string) (channel : nat) (message : OutgoingMessage)
    (c : Connection) (v : RequestView) (Hv : viewed request_id channel c v) :
  viewed request_id channel (route_message message c)
    (view_read request_id (ReadText (Ok message)) v).
Proof.
  assert (Hroute : forall is_done id, request_scoped message = Some (is_done, id) ->
    viewed request_id channel
      match pending c !! id with
      | Some sender =>
          let '(c, sent) := channel_send sender (Ok message) c in
          if is_done || negb sent then put_pending (delete id (pending c)) c else c
      | None => c
      end (view_read request_id (ReadText (Ok message)) v)).
  { intros is_done id Hscoped. simpl. unfold message_for. rewrite Hscoped.
    destruct (pending c !! id) as [sender|] eqn:Hid.
    - destruct (channel_send sender (Ok message) c) as [c' sent] eqn:Hsend.
      destruct (channel_send_spec _ _ _ _ _ Hsend) as (Hc' & Hothers & Hown). rewrite Hc'.
      destruct (decide (sender = channel)) as [->|Hsender].
      + assert (id = request_id) as -> by (by apply (viewed_only _ _ _ _ Hv)).
        rewrite bool_decide_true by done. destruct Hv as [Hseen Hwaiting Honly Htask Hold].
        destruct (Hown _ Hseen) as [-> Hch]. rewrite (proj1 Hwaiting Hid), orb_false_r.
        destruct is_done; split; simpl; try done; rewrite ?lookup_delete_eq; try done.
        intros id [_ Hid']%lookup_delete_Some. by apply Honly.
      + assert (Hkept : viewed request_id channel (put_channels (channels c') c) v)
          by (apply (viewed_kept _ _ _ _ _ Hv); simpl; rewrite ?Hothers; done).
        assert (Hdone : viewed request_id channel
          (if is_done || negb sent
           then put_pending (delete id (pending (put_channels (channels c') c)))
                  (put_channels (channels c') c)
           else put_channels (channels c') c) v).
        { destruct (is_done || negb sent); [|done].
          destruct Hkept as [Hseen Hwaiting Honly Htask Hold]. split; simpl in *; try done.
          * destruct (decide (id = request_id)) as [->|Hne]; [|by rewrite lookup_delete_ne].
            rewrite lookup_delete_eq. split; [done|]. intros Hw%Hwaiting. congruence.
          * intros id' [_ Hid']%lookup_delete_Some. by apply Honly. }
        case_bool_decide; [subst|done]. destruct (waiting v) eqn:Hw; [|done].
        apply (viewed_waiting _ _ _ _ Hv) in Hw. congruence.
    - case_bool_decide as Hsame; [|done]. subst id.
      destruct (waiting v) eqn:Hw; [|done].
      apply (viewed_waiting _ _ _ _ Hv) in Hw. congruence. }
  destruct message as [e|n|e]; try (by apply Hroute). by apply (viewed_kept _ _ _ _ _ Hv).
Qed.

Lemma viewed_step (request_id : string) (channel : nat) (op : Operation) (c : Connection)
    (v : RequestView) (Hv : viewed request_id channel c v)
    (Halone : leaves_alone request_id channel op) :
  viewed request_id channel (operate stop_json op c) (view_step request_id op v).
Proof.
  pose proof (viewed_task _ _ _ _ Hv) as Htask.
  destruct op as [id json|id|ch|event| | |]; cbn [operate view_step leaves_alone] in *.
  - by apply viewed_send.
  - by apply viewed_stop.
  - by apply viewed_drop_receiver.
  - rewrite Htask. case_bool_decide as Ht; [|done]. 
    destruct event as [[message|?]| | | | |]; try done; try (by apply viewed_route);
    destruct Hv; by split.
  - rewrite Htask. case_bool_decide as Ht; [|done].
    destruct Hv as [Hseen Hwaiting Honly _ Hold].
    destruct (notify_dropped_spec request_id channel c _ Hseen Honly) as [Hn Hch]. rewrite Hn.
    split; simpl; try done. rewrite Hch. do 3 f_equal. destruct (waiting v).
    + rewrite decide_True; [done|]. by apply Hwaiting.
    + rewrite decide_False; [done|]. intros Hw%Hwaiting. done.
  - rewrite Htask. case_bool_decide as Ht; [|done].
    destruct Hv as [Hseen Hwaiting Honly _ Hold]. split; simpl; try done.
  - destruct Hv; by split.
Qed.
Lemma viewed_steps (request_id : string) (channel : nat) (ops : list Operation) (c : Connection)
    (v : RequestView) (Hv : viewed request_id channel c v)
    (Halone : Forall (leaves_alone request_id channel) ops) :
  viewed request_id channel (operate_all stop_json ops c)
    (fold_left (fun v op => view_step request_id op v) ops v).
Proof.
  revert c v Hv. induction Halone as [|op ops Hop _ IH]; intros c v Hv; [done|].
  simpl. apply IH. by apply viewed_step.
Qed.

(** *** Reachable connections *)

Definition channels_old (c : Connection) : Prop :=
  forall id channel, pending c !! id = Some channel -> (channel < next_channel c)%nat.

Lemma channels_old_kept (c c' : Connection) :
  channels_old c -> (forall id channel, pending c' !! id = Some channel -> pending c !! id = Some channel) ->
  (next_channel c <= next_channel c')%nat -> channels_old c'.
Proof. intros Hold Hp Hn id channel Hid%Hp%Hold. lia. Qed.

Lemma channel_send_pending (channel : nat) (item : result OutgoingMessage SocketError)
    (c : Connection) :
  pending (fst (channel_send channel item c)) = pending c /\
  next_channel (fst (channel_send channel item c)) = next_channel c.
Proof.
  unfold channel_send. destruct (channels c !! channel) as [[? []]|]; by split.
Qed.

Lemma notify_dropped_pending (c : Connection) :
  pending (notify_dropped c) = pending c /\ next_channel (notify_dropped c) = next_channel c.
Proof.
  unfold notify_dropped. generalize (pending c) at 1 3 as m.
  apply (map_fold_weak_ind (fun r _ => pending r = pending c /\ next_channel r = next_channel c));
    [done|]. intros id sender m r _ [Hp Hn].
  destruct (channel_send_pending sender (Err (ConnectionDropped id)) r) as [-> ->]. by split.
Qed.

Lemma route_message_pending (message : OutgoingMessage) (c : Connection) (id : string) (channel : nat) :
  pending (route_message message c) !! id = Some channel -> pending c !! id = Some channel.
Proof.
  unfold route_message. destruct message; try done; simpl; intros Hid;
    repeat (case_match; simplify_eq/=; try done);
    match goal with
    | Hs : channel_send ?ch ?i c = _ |- _ =>
        pose proof (proj1 (channel_send_pending ch i c)) as Hp; rewrite Hs in Hp; simpl in Hp
    end; simplify_map_eq; try apply lookup_delete_Some in Hid as [_ Hid]; congruence.
Qed.

Lemma channels_old_operate (op : Operation) (c : Connection) :
  channels_old c -> channels_old (operate stop_json op c).
Proof.
  intros Hold. destruct op as [id json|id|ch|event| | |]; cbn [operate].
  - unfold connection_send, write_send. simpl.
    assert (Hnew : channels_old (open_channel id c)).
    { intros id' channel. simpl. rewrite lookup_insert. case_decide; [intros [= <-]; lia|].
      intros Hid%Hold. lia. }
    destruct (write_open c); simpl; apply (channels_old_kept _ _ Hnew); simpl; try done.
    by intros id' channel [_ ?]%lookup_delete_Some.
  - unfold stop_responding_to, write_send. simpl.
    destruct (stop_json id); [destruct (write_open c)|]; simpl;
      apply (channels_old_kept _ _ Hold); simpl; try done;
      by intros id' channel [_ ?]%lookup_delete_Some.
  - unfold drop_receiver. by destruct (channels c !! ch).
  - case_bool_decide; [|done]. destruct event as [[message|?]| | | | |]; try done.
    apply (channels_old_kept _ _ Hold).
    + apply route_message_pending.
    + simpl. unfold route_message. destruct message; try done; simpl;
        repeat (case_match; simplify_eq/=; try done);
        match goal with
        | Hs : channel_send ?ch ?i c = _ |- _ =>
            pose proof (proj2 (channel_send_pending ch i c)) as Hp; rewrite Hs in Hp; simpl in *
        end; lia.
  - case_bool_decide; [|done]. destruct (notify_dropped_pending c) as [Hp Hn].
    apply (channels_old_kept _ _ Hold); simpl; rewrite ?Hp, ?Hn; done.
  - case_bool_decide; [|done]. intros id channel. simpl. by rewrite lookup_empty.
  - done.
Qed.

Lemma channels_old_reachable (ops : list Operation) :
  channels_old (operate_all stop_json ops connection_new).
Proof.
  assert (Hgen : forall c, channels_old c -> channels_old (operate_all stop_json ops c)).
  { induction ops as [|op ops IH]; intros c Hc; [done|]. simpl. apply IH.
    by apply channels_old_operate. }
  apply Hgen. intros id channel. simpl. by rewrite lookup_empty.
Qed.

Lemma viewed_after_send (request_id json : string) (c c' : Connection) (channel : nat)
    (Hold : channels_old c)
    (Hsend : connection_send request_id json c = (c', Ok channel)) :
  viewed request_id channel c' {| seen := []; waiting := true; task := read_task c |}.
Proof.
  unfold connection_send, write_send in Hsend. simpl in Hsend.
  destruct (write_open c); simplify_eq. split; simpl; try lia; try done.
  - by rewrite lookup_insert_eq.
  - by rewrite lookup_insert_eq.
  - intros id. rewrite lookup_insert. case_decide; [done|]. intros Hid%Hold. lia.
Qed.
(** *** The view in closed form

    How far the read task is, and the messages it has read. *)
Fixpoint task_after (ops : list Operation) (t : ReadTask) : ReadTask :=
  match ops with
  | [] => t
  | op :: ops =>
      task_after ops
        match op, t with
        | Read (ReadClose | ReadFailed | ReadEnd), Reading => Notifying
        | NotifyPending, Notifying => Clearing
        | ClearPending, Clearing => ReadFinished
        | _, _ => t
        end
  end.

Fixpoint messages_read (ops : list Operation) : list OutgoingMessage :=
  match ops with
  | [] => []
  | Read (ReadText (Ok message)) :: ops => message :: messages_read ops
  | Read (ReadClose | ReadFailed | ReadEnd) :: _ => []
  | _ :: ops => messages_read ops
  end.

(** The messages of a request, up to its last one, and whether that came. *)
Fixpoint answers (request_id : string) (messages : list OutgoingMessage)
    : list OutgoingMessage * bool :=
  match messages with
  | [] => ([], false)
  | message :: messages =>
      match message_for request_id message with
      | None => answers request_id messages
      | Some true => ([message], true)
      | Some false =>
          let '(answered, ended) := answers request_id messages in (message :: answered, ended)
      end
  end.

Definition was_told (t : ReadTask) : bool :=
  match t with Reading | Notifying => false | Clearing | ReadFinished => true end.

(** [pending.clear()] takes the senders that were there before it. *)
Definition keeps_sender (t t' : ReadTask) : bool :=
  match t, t' with
  | (Reading | Notifying | Clearing), ReadFinished => false
  | _, _ => true
  end.

Definition final_view (request_id : string) (ops : list Operation)
    (log : list (result OutgoingMessage SocketError)) (t : ReadTask) : RequestView :=
  let '(answered, ended) :=
    match t with Reading => answers request_id (messages_read ops) | _ => ([], false) end in
  {| seen := log ++ map Ok answered ++
       (if negb ended && negb (was_told t) && was_told (task_after ops t)
        then [Err (ConnectionDropped request_id)] else []);
     waiting := negb ended && keeps_sender t (task_after ops t);
     task := task_after ops t |}.

Lemma view_steps_settled (request_id : string) (ops : list Operation)
    (log : list (result OutgoingMessage SocketError)) (t : ReadTask) :
  fold_left (fun v op => view_step request_id op v) ops {| seen := log; waiting := false; task := t |}
  = {| seen := log; waiting := false; task := task_after ops t |}.
Proof.
  revert t. induction ops as [|op ops IH]; intros t; [done|]. cbn [fold_left task_after].
  rewrite <- IH. f_equal.
  destruct op as [| | |[[m|]| | | | |]| | |], t; simpl; rewrite ?app_nil_r; try done;
    by destruct (message_for request_id m).
Qed.

Lemma was_told_after (ops : list Operation) (t : ReadTask) :
  was_told t = true -> was_told (task_after ops t) = true.
Proof.
  revert t. induction ops as [|op ops IH]; intros t Ht; [done|]. simpl. apply IH.
  by destruct op as [| | |[[m|]| | | | |]| | |], t.
Qed.

Lemma finished_after (ops : list Operation) : task_after ops ReadFinished = ReadFinished.
Proof.
  induction ops as [|op ops IH]; [done|].
  by destruct op as [| | |[[m|]| | | | |]| | |].
Qed.

Lemma view_steps_final (request_id : string) (ops : list Operation)
    (log : list (result OutgoingMessage SocketError)) (t : ReadTask) :
  fold_left (fun v op => view_step request_id op v) ops {| seen := log; waiting := true; task := t |}
  = final_view request_id ops log t.
Proof.
  revert log t. induction ops as [|op ops IH]; intros log t.
  - unfold final_view. destruct t; simpl; by rewrite ?app_nil_r.
  - cbn [fold_left].
    destruct op as [| | |[[m|]| | | | |]| | |], t; simpl; rewrite ?IH; try done; unfold final_view; simpl.
    + destruct (message_for request_id m) as [[]|]; simpl.
      * by rewrite view_steps_settled.
      * rewrite IH. unfold final_view. destruct (answers request_id (messages_read ops)).
        simpl. by rewrite <- app_assoc.
      * by rewrite IH.
    + by rewrite (was_told_after ops Clearing), app_nil_r.
    + by rewrite view_steps_settled, finished_after, app_nil_r.
Qed.

(** C17. A request on the socket sees its own answers and nothing else: the
    channel of a request that was sent gets exactly the messages the balancer
    sends for it, in order, up to the last one; if the socket ends first, the
    error of the dropped connection follows; and the connection lets go of
    the channel when the answer is complete or the socket is gone.  Whatever
    the other requests do in between does not matter. *)
Theorem socket_request_stream (before after : list Operation) (request_id json : string)
    (c : Connection) (channel : nat)
    (Hreading : read_task (operate_all stop_json before connection_new) = Reading)
    (Hsend : connection_send request_id json (operate_all stop_json before connection_new)
             = (c, Ok channel))
    (Halone : Forall (leaves_alone request_id channel) after) :
  let c' := operate_all stop_json after c in
  let '(answered, ended) := answers request_id (messages_read after) in
  let told := was_told (task_after after Reading) in
  channels c' !! channel =
    Some {| sent_into := map Ok answered ++
              (if negb ended && told then [Err (ConnectionDropped request_id)] else []);
            receiver_alive := true |} /\
  (pending c' !! request_id = Some channel <->
   ended = false /\ task_after after Reading <> ReadFinished) /\
  read_task c' = task_after after Reading.
Proof.
  pose proof (viewed_after_send _ _ _ _ _ (channels_old_reachable before) Hsend) as Hv.
  rewrite Hreading in Hv. apply (viewed_steps _ _ after) in Hv; [|done].
  rewrite view_steps_final in Hv. unfold final_view in Hv.
  destruct (answers request_id (messages_read after)) as [answered ended].
  destruct Hv as [Hseen Hwaiting _ Htask _]. simpl in *. split_and!; [|rewrite Hwaiting|done].
  - rewrite Hseen. by rewrite andb_true_r.
  - destruct ended, (task_after after Reading); simpl; naive_solver.
Qed.

(** A request that is sent when the read task is gone is never answered:
    the socket ends between the look of the pool at the connection and the
    request, which is accepted all the same; nothing is ever sent into its
    channel, and the channel is never closed, so its stream waits until
    somebody cancels it.  Sent between the loop that tells the requests and
    the clearing of the map, when the connection does not even look
    disconnected, its stream ends without a message and without an error. *)
Theorem late_request_never_answered (before after : list Operation) (request_id json : string)
    (c : Connection) (channel : nat)
    (Hreading : read_task (operate_all stop_json before connection_new) = Reading)
    (Halone : Forall (leaves_alone request_id channel) after) :
  let c0 := operate_all stop_json (before ++ [Read ReadClose; NotifyPending]) connection_new in
  (connection_send request_id json (operate stop_json ClearPending c0) = (c, Ok channel) ->
   channels (operate_all stop_json after c) !! channel
     = Some {| sent_into := []; receiver_alive := true |} /\
   pending (operate_all stop_json after c) !! request_id = Some channel) /\
  (connection_send request_id json c0 = (c, Ok channel) ->
   is_disconnected c0 = false /\
   channels (operate_all stop_json (ClearPending :: after) c) !! channel
     = Some {| sent_into := []; receiver_alive := true |} /\
   pending (operate_all stop_json (ClearPending :: after) c) !! request_id <> Some channel).
Proof.
  intros c0.
  assert (Hold : channels_old c0) by apply channels_old_reachable.
  assert (Htask : read_task c0 = Clearing).
  { subst c0. unfold operate_all in *. rewrite fold_left_app. simpl.
    rewrite (bool_decide_true (read_task _ = Reading)) by done. by rewrite bool_decide_true. }
  split; intros Hsend.
  - apply viewed_after_send in Hsend; [|by apply channels_old_operate].
    simpl in Hsend. rewrite (bool_decide_true (read_task c0 = Clearing)) in Hsend by done.
    apply (viewed_steps _ _ after) in Hsend; [|done]. rewrite view_steps_final in Hsend.
    destruct Hsend as [Hseen Hwaiting _ _ _]. simpl in *. split.
    + by rewrite Hseen.
    + by apply Hwaiting.
  - assert (Hopen : is_disconnected c0 = false).
    { unfold is_disconnected. rewrite Htask. unfold connection_send, write_send in Hsend.
      simpl in Hsend. by destruct (write_open c0). }
    apply viewed_after_send in Hsend; [|done]. rewrite Htask in Hsend.
    apply (viewed_steps _ _ (ClearPending :: after)) in Hsend; [|by constructor].
    rewrite view_steps_final in Hsend.
    destruct Hsend as [Hseen Hwaiting _ _ _]. simpl in *. rewrite finished_after in *. split_and!.
    + done.
    + by rewrite Hseen.
    + intros Hp%Hwaiting. done.
Qed.

(** ** The stream of a request *)

Fixpoint poll_stream (polls : nat) (s : ResponseStream) (c : Connection)
    : Connection * list (result OutgoingMessage SocketError) * option ResponseStream :=
  match polls with
  | O => (c, [], Some s)
  | S polls =>
      match stream_next stop_json false s c with
      | (c, StreamItem item s) =>
          let '(c, items, s) := poll_stream polls s c in (c, item :: items, s)
      | (c, StreamEnd) => (c, [], None)
      | (c, StreamPending) => (c, [], Some s)
      end
  end.

Definition stream_at (request_id : string) (channel position : nat) : ResponseStream :=
  {| stream_request_id := request_id; response_channel := channel; read_so_far := position;
     is_complete := false |}.

Lemma stream_next_item (request_id : string) (channel position : nat) (c : Connection)
    (v : RequestView) (item : result OutgoingMessage SocketError)
    (Hv : viewed request_id channel c v) (Hitem : seen v !! position = Some item) :
  stream_next stop_json false (stream_at request_id channel position) c
  = (c, StreamItem item (stream_at request_id channel (S position))).
Proof. unfold stream_next. simpl. rewrite (viewed_seen _ _ _ _ Hv). simpl. by rewrite Hitem. Qed.

Lemma poll_stream_items (request_id : string) (channel position polls : nat) (c : Connection)
    (v : RequestView) (Hv : viewed request_id channel c v)
    (Hpolls : (position + polls <= length (seen v))%nat) :
  poll_stream polls (stream_at request_id channel position) c
  = (c, take polls (drop position (seen v)), Some (stream_at request_id channel (position + polls))).
Proof.
  revert position Hpolls. induction polls as [|polls IH]; intros position Hpolls.
  - simpl. by rewrite Nat.add_0_r.
  - destruct (lookup_lt_is_Some_2 (seen v) position) as [item Hitem]; [lia|].
    cbn [poll_stream]. rewrite (stream_next_item _ _ _ _ _ _ Hv Hitem), IH by lia.
    rewrite (drop_S _ _ _ Hitem). simpl. by rewrite Nat.add_succ_r.
Qed.

Lemma poll_stream_app (polls more : nat) (s s' : ResponseStream) (c c' : Connection)
    (items : list (result OutgoingMessage SocketError))
    (Hpoll : poll_stream polls s c = (c', items, Some s')) (Hlen : length items = polls) :
  poll_stream (polls + more) s c
  = let '(c2, items', s2) := poll_stream more s' c' in (c2, items ++ items', s2).
Proof.
  revert s c items Hpoll Hlen. induction polls as [|polls IH]; intros s c items Hpoll Hlen;
    cbn [poll_stream plus] in *.
  - simplify_eq. by destruct (poll_stream more s' c') as [[? ?] ?].
  - destruct (stream_next stop_json false s c) as [c1 [item s1| |]]; [|by simplify_eq..].
    destruct (poll_stream polls s1 c1) as [[c2 rest] s2] eqn:Hrest. simplify_eq/=.
    rewrite (IH _ _ _ Hrest) by done. by destruct (poll_stream more s' c') as [[? ?] ?].
Qed.

(** A response stream that is read to its end gives everything the
    request was sent and asks for nothing; dropped or cancelled at any point
    before that it asks the balancer once to stop responding, and lets go of
    the request, so that nothing more is routed to it. *)
Theorem response_stream_stops (request_id json : string) (channel polls : nat) (c : Connection)
    (v : RequestView) (Hv : viewed request_id channel c v) (Hwrite : write_open c = true)
    (Hjson : stop_json request_id = Ok json) (Hpolls : (polls <= length (seen v))%nat) :
  (waiting v = false ->
   poll_stream (S (length (seen v))) (response_stream request_id channel) c
   = (drop_receiver channel c, seen v, None) /\
   queued (drop_receiver channel c) = queued c) /\
  exists s, poll_stream polls (response_stream request_id channel) c = (c, take polls (seen v), Some s) /\
    fst (stream_next stop_json true s c) = drop_stream stop_json s c /\
    queued (drop_stream stop_json s c) = queued c ++ [json] /\
    pending (drop_stream stop_json s c) = delete request_id (pending c) /\
    (forall message sent, request_scoped message = Some (sent, request_id) ->
       route_message message (drop_stream stop_json s c) = drop_stream stop_json s c).
Proof.
  split.
  - intros Hdone. split; [|by unfold drop_receiver; destruct (channels c !! channel)].
    change (response_stream request_id channel) with (stream_at request_id channel 0).
    replace (S (length (seen v))) with (length (seen v) + 1)%nat by lia.
    erewrite poll_stream_app; [|by apply (poll_stream_items _ _ 0 _ _ _ Hv)|].
    2: { rewrite length_take, length_drop. lia. }
    simpl. rewrite drop_0, firstn_all. unfold stream_next. simpl.
    rewrite (viewed_seen _ _ _ _ Hv). simpl. rewrite lookup_ge_None_2 by lia.
    unfold channel_closed. simpl. rewrite bool_decide_true.
    + by rewrite app_nil_r.
    + intros Hp%(viewed_waiting _ _ _ _ Hv). congruence.
  - exists (stream_at request_id channel polls). split_and!.
    + by apply (poll_stream_items _ _ 0 _ _ _ Hv).
    + done.
    + unfold drop_stream, stop_responding_to, write_send, drop_receiver. simpl.
      rewrite Hjson, Hwrite. simpl. by destruct (channels c !! channel).
    + unfold drop_stream, stop_responding_to, write_send, drop_receiver. simpl.
      rewrite Hjson, Hwrite. simpl. by destruct (channels c !! channel).
    + intros message sent Hscoped.
      assert (Hp : pending (drop_stream stop_json (stream_at request_id channel polls) c) !! request_id
        = None).
      { unfold drop_stream, stop_responding_to, write_send, drop_receiver. simpl.
        rewrite Hjson, Hwrite. simpl. destruct (channels c !! channel); simpl; by rewrite lookup_delete_eq. }
      unfold route_message. rewrite Hscoped, Hp. by destruct message.
Qed.
End Facts.
