(* ===== verification/InferencePool.v ===== *)
(** * The pool of connections of the client

    What [pool.rs] promises about a request: it goes to the connection of its
    slot, registered and queued, or fails for a reason the caller can see,
    whatever the other users of the pool do in between.  And the witnesses of
    the theorems about the inference socket. *)

From S2P Require Import Prelude.
From S2P Require Import Messages.
From S2P Require Import InferenceSocket.
From S2P Require Import InferenceSocketFacts.
Local Open Scope Z_scope.

Section PoolFacts.
Context `{LlamaTypes}.

(** The slots are as many as the capacity, and name connections of the store. *)
Record pool_ok (p : Pool) : Prop := {
  pool_slots : length (connections p) = capacity p;
  pool_stored : forall index k, slot index p = Some k -> is_Some (store p !! k);
}.

(** What the other users of a pool do: it stays well-formed and no slot is
    emptied. *)
Definition interferes (f : Pool -> Pool) : Prop :=
  forall p, pool_ok p ->
    pool_ok (f p) /\ capacity (f p) = capacity p /\
    forall index, is_Some (slot index p) -> is_Some (slot index (f p)).

Lemma slot_insert (index other : nat) (k : nat) (l : list (option nat)) :
  (index < length l)%nat ->
  mjoin (<[index := Some k]> l !! other) = if decide (other = index) then Some k else mjoin (l !! other).
Proof.
  intros Hlen. case_decide as Hother.
  - subst. by rewrite list_lookup_insert_eq.
  - by rewrite list_lookup_insert_ne.
Qed.

Lemma ensure_connection_ok (connected : result unit string) (index : nat) (p p' : Pool)
    (r : result unit SocketError) (Hp : pool_ok p) (Hindex : (index < capacity p)%nat)
    (Hensure : ensure_connection connected index p = (p', r)) :
  pool_ok p' /\ capacity p' = capacity p /\
  (forall other, is_Some (slot other p) -> is_Some (slot other p')) /\
  match r with
  | Ok _ => is_Some (slot index p')
  | Err e => exists message, e = ConnectFailed message /\ connected = Err message
  end.
Proof.
  unfold ensure_connection in Hensure. destruct Hp as [Hslots Hstored].
  destruct (match slot index p ≫= _ with None => true | Some connection => _ end) eqn:Hneeds.
  - destruct connected as [[]|e]; simplify_eq; split_and!; try done; try (by eexists).
    + split; simpl; [by rewrite length_insert|]. intros other k. unfold slot. simpl.
      rewrite slot_insert by lia. case_decide; intros Hk.
      * simplify_eq. rewrite lookup_insert_eq. by eexists.
      * destruct (decide (k = next_connection p)) as [->|Hne].
        -- rewrite lookup_insert_eq. by eexists.
        -- rewrite lookup_insert_ne by done. by apply (Hstored other).
    + intros other Hother. unfold slot. simpl. rewrite slot_insert by lia. by case_decide.
    + unfold slot. simpl. rewrite slot_insert by lia. by rewrite decide_True.
  - simplify_eq. split_and!; try done. destruct (slot index p'); [by eexists|done].
Qed.

Lemma put_connection_ok (k : nat) (c : Connection) (p : Pool) :
  pool_ok p -> pool_ok (put_connection k c p).
Proof.
  intros [Hslots Hstored]. split; [done|]. intros index k' Hk'. simpl.
  destruct (decide (k' = k)) as [->|Hne]; [rewrite lookup_insert_eq; by eexists|].
  rewrite lookup_insert_ne by done. by apply (Hstored index).
Qed.

(** A request that was established: in its slot, registered and queued. *)
Definition established_at (index : nat) (request_id json : string) (e : EstablishedRequest)
    (p : Pool) : Prop :=
  slot index p = Some (connection e) /\
  exists c, store p !! connection e = Some c /\
    pending c !! request_id = Some (response_rx e) /\
    channels c !! response_rx e = Some {| sent_into := []; receiver_alive := true |} /\
    last (queued c) = Some json.

Lemma send_over_slot_ok (index : nat) (request_id json : string) (p p' : Pool)
    (r : result EstablishedRequest SocketError) (Hp : pool_ok p) (Hslot : is_Some (slot index p))
    (Hsend : send_over_slot index request_id json p = (p', r)) :
  pool_ok p' /\ capacity p' = capacity p /\
  (forall other, slot other p' = slot other p) /\
  match r with
  | Ok e => established_at index request_id json e p'
  | Err e => e = ConnectionDropped request_id
  end.
Proof.
  unfold send_over_slot, get_connection in Hsend. destruct Hslot as [k Hk]. rewrite Hk in Hsend.
  unfold connection_send, write_send in Hsend. simpl in Hsend.
  destruct (write_open (default connection_new (store p !! k))); simplify_eq/=;
    (split_and!; [by apply put_connection_ok | done | done|]).
  - split; [done|]. eexists. split; [apply lookup_insert_eq|]. simpl.
    by rewrite !lookup_insert_eq, last_snoc.
  - done.
Qed.

(** What [establish_request] returns, whatever the other users of the pool
    do between making sure of the connection and using it: either the request
    is registered on the connection of its slot and its text is the last one
    queued there, or connecting failed, or the connection was dropped twice
    in a row; a slot is never found empty. *)
Theorem pool_establish_request (first second : Pool -> Pool)
    (connected reconnected : result unit string) (index : nat) (json request_id : string)
    (p p' : Pool) (r : result EstablishedRequest SocketError)
    (Hp : pool_ok p) (Hindex : (index < capacity p)%nat)
    (Hfirst : interferes first) (Hsecond : interferes second)
    (Hestablish : establish_request first second connected reconnected index json request_id p
                  = (p', r)) :
  pool_ok p' /\
  match r with
  | Ok e => established_at index request_id json e p'
  | Err (ConnectFailed message) => connected = Err message \/ reconnected = Err message
  | Err (ReconnectionFailed id source) => id = request_id /\ source = ConnectionDropped request_id
  | Err _ => False
  end.
Proof.
  unfold establish_request in Hestablish.
  destruct (ensure_connection connected index p) as [p1 r1] eqn:Hensure1.
  destruct (ensure_connection_ok _ _ _ _ _ Hp Hindex Hensure1) as (Hp1 & Hcap1 & _ & Hr1).
  destruct r1 as [[]|e1]; [|destruct Hr1 as (m & -> & ->); simplify_eq; by eauto].
  destruct (Hfirst p1 Hp1) as (Hf1 & Hcapf1 & Hkeep1). apply Hkeep1 in Hr1.
  destruct (send_over_slot index request_id json (first p1)) as [p2 r2] eqn:Hsend1.
  destruct (send_over_slot_ok _ _ _ _ _ _ Hf1 Hr1 Hsend1) as (Hp2 & Hcap2 & _ & Hr2).
  destruct r2 as [e|e]; [by simplify_eq|]. subst e.
  destruct (ensure_connection reconnected index p2) as [p3 r3] eqn:Hensure2.
  assert (Hindex2 : (index < capacity p2)%nat) by lia.
  destruct (ensure_connection_ok _ _ _ _ _ Hp2 Hindex2 Hensure2) as (Hp3 & Hcap3 & _ & Hr3).
  destruct r3 as [[]|e3]; [|destruct Hr3 as (m & -> & ->); simplify_eq; by eauto].
  destruct (Hsecond p3 Hp3) as (Hf3 & _ & Hkeep3). apply Hkeep3 in Hr3.
  destruct (get_connection index (second p3)) as [k|e] eqn:Hget.
  - destruct (send_over_slot index request_id json (second p3)) as [p4 r4] eqn:Hsend2.
    destruct (send_over_slot_ok _ _ _ _ _ _ Hf3 Hr3 Hsend2) as (Hp4 & _ & _ & Hr4).
    destruct r4 as [e|e]; simplify_eq; by split.
  - unfold get_connection in Hget. destruct Hr3 as [k Hk]. by rewrite Hk in Hget.
Qed.

(** Requests take the slots in turn; the index is in range even when the
    counter wraps around. *)
Lemma next_connection_index_range (p : Pool) (Hcapacity : (0 < capacity p)%nat) :
  (snd (next_connection_index p) < capacity p)%nat.
Proof.
  simpl. pose proof (Z.mod_pos_bound (next_idx p) (Z.of_nat (capacity p)) ltac:(lia)). lia.
Qed.

Lemma next_connection_index_turns (p : Pool) (Hcapacity : (0 < capacity p)%nat)
    (Hidx : 0 <= next_idx p < u64_max) :
  let '(p', index) := next_connection_index p in
  snd (next_connection_index p') = (if decide (S index = capacity p) then 0 else S index)%nat.
Proof.
  simpl. rewrite wrap_u64_id by (unfold in_u64; lia).
  set (n := Z.of_nat (capacity p)). assert (0 < n) by (subst n; lia).
  pose proof (Z.mod_pos_bound (next_idx p) n ltac:(lia)).
  rewrite <- Z.add_mod_idemp_l by lia.
  case_decide as Hlast.
  - replace (next_idx p mod n + 1) with n by (subst n; lia). by rewrite Z.mod_same by lia.
  - rewrite Z.mod_small by (subst n; lia). lia.
Qed.
End PoolFacts.

(** ** Witnesses *)

Definition example_answer (request_id : string) (r : @OutgoingResponse plain_llama)
    : OutgoingMessage :=
  OutgoingMessageResponse
    {| generated_by := None; response_request_id := request_id; response := r |}.

Definition stop_text (request_id : string) : result string string :=
  Ok ("stop " +:+ request_id)%string.

(** Another request is answered in between, and the socket closes. *)
Definition example_operations : list Operation :=
  [Send "b" "request b"; Read (ReadText (Ok (example_answer "b" OutgoingTimeout)));
   Read (ReadText (Ok (example_answer "a" (OutgoingGeneratedToken (ContentToken "hi")))));
   Read ReadClose; NotifyPending; ClearPending].

Definition sent_a : Connection * result nat SocketError :=
  connection_send "a" "request a" (operate_all stop_text [] connection_new).

Lemma socket_request_stream_witness :
  channels (operate_all stop_text example_operations (fst sent_a)) !! 0%nat
  = Some {| sent_into :=
              [Ok (example_answer "a" (OutgoingGeneratedToken (ContentToken "hi")));
               Err (ConnectionDropped "a")];
            receiver_alive := true |}.
Proof.
  pose proof (socket_request_stream stop_text [] example_operations "a" "request a" (fst sent_a) 0
    eq_refl eq_refl) as Hstream.
  apply Hstream. repeat constructor; simpl; congruence.
Defined.

Definition lost_connection : Connection :=
  operate_all stop_text [Read ReadClose; NotifyPending; ClearPending] connection_new.

Lemma late_request_never_answered_witness :
  pending (fst (connection_send "a" "request a" lost_connection)) !! "a"%string = Some 0%nat /\
  channels (fst (connection_send "a" "request a" lost_connection)) !! 0%nat
  = Some {| sent_into := []; receiver_alive := true |}.
Proof.
  destruct (late_request_never_answered stop_text [] [] "a" "request a"
    (fst (connection_send "a" "request a" lost_connection)) 0 eq_refl (Forall_nil_2 _)) as [Hlate _].
  destruct (Hlate eq_refl) as [Hchannel Hpending]. split; [exact Hpending | exact Hchannel].
Defined.

Definition example_view : @RequestView plain_llama :=
  {| seen := [Ok (example_answer "a" OutgoingTimeout)]; waiting := false; task := Reading |}.

Definition answered_a : Connection :=
  operate_all stop_text [Read (ReadText (Ok (example_answer "a" OutgoingTimeout)))] (fst sent_a).

Lemma response_stream_stops_witness :
  poll_stream stop_text 2 (response_stream "a" 0) answered_a
  = (drop_receiver 0 answered_a, [Ok (example_answer "a" OutgoingTimeout)], None).
Proof.
  assert (Hv : viewed "a" 0 answered_a example_view).
  { split; [done | by split | | done | vm_compute; lia]. intros id.
    change (pending answered_a)
      with (delete "a"%string ({["a"%string := 0%nat]} : gmap string nat)).
    intros [Hid Hin]%lookup_delete_Some. by rewrite lookup_singleton_ne in Hin. }
  by apply (response_stream_stops stop_text "a" "stop a" 0 1 answered_a example_view Hv
    eq_refl eq_refl (le_n 1)).
Defined.

(** Somebody else's write task ends before the request is sent. *)
Definition others_lose_connection `{LlamaTypes} (p : Pool) : Pool :=
  {| connections := connections p; store := end_write_task <$> store p;
     next_connection := next_connection p; capacity := capacity p; next_idx := next_idx p |}.

Lemma pool_establish_request_witness :
  match snd (establish_request (@others_lose_connection plain_llama) id (Ok tt) (Ok tt) 1
               "request a" "a" (pool_new 2)) with
  | Ok e => connection e = 1%nat
  | Err _ => False
  end.
Proof.
  assert (Hok : pool_ok (@pool_new plain_llama 2)).
  { split; [done|]. intros [|[|index]] k; done. }
  assert (Hothers : interferes (@others_lose_connection plain_llama)).
  { intros p [Hslots Hstored]. split_and!; [|done|done]. split; [done|]. intros index k Hk.
    simpl. rewrite lookup_fmap, fmap_is_Some. by apply (Hstored index). }
  assert (Hnobody : interferes (id : @Pool plain_llama -> Pool)) by done.
  destruct (establish_request others_lose_connection id (Ok tt) (Ok tt) 1 "request a" "a" (pool_new 2))
    as [p' r] eqn:Hrun.
  pose proof (pool_establish_request _ _ _ _ _ _ _ _ _ _ Hok (le_n 2) Hothers Hnobody Hrun) as [_ Hr].
  vm_compute in Hrun. injection Hrun as <- <-. reflexivity.
Defined.
