(* ===== verification/Downloads.v ===== *)
(** * The download manager

    [paddler_download_manager/src/]: one attempt to download a file over HTTP
    into a partial file next to it, resuming where the partial file ends
    ([download_manager.rs], [partial_file.rs], [stream_to_partial_file.rs],
    [response_classification.rs]).

    The file system and the server are inputs: an [Attempt] says how every
    call to them turns out.  The partial and the final file are threaded as
    [Files]; the progress sink collects its calls. *)

From S2P Require Import Prelude.
From S2P Require Import Bytes.
Local Open Scope Z_scope.

(** ** Errors *)

Inductive IoErrorKind : Type := IoNotFound | IoPermissionDenied | IoOther.
Record IoError : Type := {
  io_kind : IoErrorKind;
  raw_os_error : option Z;
}.

Inductive DownloadAttemptError : Type :=
| AttemptClientError (status : Z)
| AttemptIo (source : IoError)
| AttemptNotFound
| AttemptPartialFileStale
| AttemptPermissionDenied (status : Z)
| AttemptServerError (status : Z)
| AttemptInterrupted (source : string)
| AttemptUnreachable (source : string).

Inductive DownloadError : Type :=
| InvalidUrl (source : string)
| UnsupportedUrlScheme (scheme : string)
| NotFound
| PermissionDenied (status : Z)
| PartialFileStale
| DownloadServerIsUnreachable (source : string)
| DownloadServerErrored (status : Z)
| DownloadServerRejectedRequest (status : Z)
| DownloadInterrupted (source : string)
| DownloadIo (source : IoError)
| CachePermissionDenied (source : IoError)
| CacheDiskFull (source : IoError).

Inductive DownloadOutcome : Type := DownloadCompleted | DownloadCancelled.

(** The error number of a full disk, on Unix. *)
Definition is_disk_full (error : IoError) : bool := bool_decide (raw_os_error error = Some 28).

Definition classify_cache_failure (source : IoError) : DownloadError :=
  match io_kind source with
  | IoPermissionDenied => CachePermissionDenied source
  | _ => if is_disk_full source then CacheDiskFull source else DownloadIo source
  end.

(** ** [ResponseClassification] *)

Inductive ResponseClassification : Type :=
| ClassClientError (status : Z)
| ClassNotFound
| ClassPartialFileStale
| ClassPermissionDenied (status : Z)
| ClassServerError (status : Z)
| StreamFromCurrentOffset
| StreamFromStart
| StreamFromStartIgnoringRange.

Definition is_client_error (status : Z) : bool := (400 <=? status) && (status <? 500).

Definition from_status (status : Z) (sent_range_header : bool) : ResponseClassification :=
  if status =? 206 then StreamFromCurrentOffset
  else if status =? 200 then
    if sent_range_header then StreamFromStartIgnoringRange else StreamFromStart
  else if status =? 404 then ClassNotFound
  else if (status =? 401) || (status =? 403) then ClassPermissionDenied status
  else if status =? 416 then ClassPartialFileStale
  else if is_client_error status then ClassClientError status
  else ClassServerError status.

(** ** [PartialFile] *)

Record Files : Type := {
  partial : option bytes;
  final : option bytes;
}.

Definition put_partial (content : option bytes) (f : Files) : Files :=
  {| partial := content; final := final f |}.

(** [current_size]: a missing file has none; [failure] is the error of
    [metadata], if it fails. *)
Definition current_size (failure : option IoError) (f : Files) : result Z IoError :=
  match failure with
  | Some error => match io_kind error with IoNotFound => Ok 0 | _ => Err error end
  | None => Ok (match partial f with Some content => Z.of_nat (length content) | None => 0 end)
  end.

(** [open_for_append] creates the file; [truncate] empties it. *)
Definition open_for_append (failure : option IoError) (f : Files) : Files * result unit IoError :=
  match failure with
  | Some error => (f, Err error)
  | None => (put_partial (Some (default [] (partial f))) f, Ok tt)
  end.

Definition truncate (failure : option IoError) (f : Files) : Files * result unit IoError :=
  match failure with
  | Some error => (f, Err error)
  | None => (put_partial (Some []) f, Ok tt)
  end.

Definition finalize (failure : option IoError) (f : Files) : Files * result unit IoError :=
  match failure, partial f with
  | Some error, _ => (f, Err error)
  | None, None => (f, Err {| io_kind := IoNotFound; raw_os_error := Some 2 |})
  | None, Some content => ({| partial := None; final := Some content |}, Ok tt)
  end.

Definition remove (failure : option IoError) (f : Files) : Files * result unit IoError :=
  match failure with
  | Some error => match io_kind error with IoNotFound => (f, Ok tt) | _ => (f, Err error) end
  | None => (put_partial None f, Ok tt)
  end.

Definition append (chunk : bytes) (f : Files) : Files :=
  put_partial (Some (default [] (partial f) ++ chunk)) f.

(** ** The progress sink *)

Inductive ProgressEvent : Type :=
| OnStarted (total_bytes : option Z) (already_downloaded : Z)
| OnChunk (additional_bytes : Z)
| OnFinished.

(** ** [stream_to_partial_file]

    What one [run_until_cancelled(body_stream.next())] gives; a write that
    fails may have written some of the chunk. *)
Inductive BodyTurn : Type :=
| BodyCancelled
| BodyEnd
| BodyFailed (source : string)
| BodyChunk (chunk : bytes) (write_failure : option (nat * IoError)).

Inductive StreamToPartialFileError : Type :=
| StreamError (source : string)
| WriteError (source : IoError).

Definition flush (failure : option IoError) (outcome : DownloadOutcome)
    : result DownloadOutcome StreamToPartialFileError :=
  match failure with
  | Some error => Err (WriteError error)
  | None => Ok outcome
  end.

(** [None]: the body has nothing to read yet. *)
Fixpoint stream_to_partial_file (flush_failure : option IoError) (body : list BodyTurn) (f : Files)
    : Files * list ProgressEvent * option (result DownloadOutcome StreamToPartialFileError) :=
  match body with
  | [] => (f, [], None)
  | BodyCancelled :: _ => (f, [], Some (flush flush_failure DownloadCancelled))
  | BodyEnd :: _ => (f, [], Some (flush flush_failure DownloadCompleted))
  | BodyFailed source :: _ => (f, [], Some (Err (StreamError source)))
  | BodyChunk chunk (Some (written, error)) :: _ =>
      (append (take written chunk) f, [], Some (Err (WriteError error)))
  | BodyChunk chunk None :: body =>
      let '(f, events, outcome) := stream_to_partial_file flush_failure body (append chunk f) in
      (f, OnChunk (Z.of_nat (length chunk)) :: events, outcome)
  end.

(** ** [DownloadManager] *)

Record Response : Type := {
  status : Z;
  content_range_start : option Z;
  content_length : option Z;
  body : list BodyTurn;
}.

Inductive Sent : Type :=
| SendCancelled
| SendFailed (source : string)
| Responded (response : Response).

(** How the calls of one attempt turn out.  [requested] answers the request,
    given the offset of its [Range] header, if it has one. *)
Record Attempt : Type := {
  size_failure : option IoError;
  requested : option Z -> Sent;
  remove_failure : option IoError;
  truncate_failure : option IoError;
  open_failure : option IoError;
  flush_failure : option IoError;
  rename_failure : option IoError;
}.

(** The result of an attempt with the calls of the sink; [None] while the
    body has nothing to read. *)
Definition AttemptResult : Type :=
  Files * list ProgressEvent * option (result DownloadOutcome DownloadAttemptError).

(** From [partial.open_for_append()] to the end. *)
Definition receive_body (a : Attempt) (response : Response) (offset : Z) (f : Files) : AttemptResult :=
  let started :=
    OnStarted ((fun length_ => wrap_u64 (offset + length_)) <$> content_length response) offset in
  match open_for_append (open_failure a) f with
  | (f, Err error) => (f, [started], Some (Err (AttemptIo error)))
  | (f, Ok _) =>
      match stream_to_partial_file (flush_failure a) (body response) f with
      | (f, events, None) => (f, started :: events, None)
      | (f, events, Some (Err (StreamError source))) =>
          (f, started :: events, Some (Err (AttemptInterrupted source)))
      | (f, events, Some (Err (WriteError error))) =>
          (f, started :: events, Some (Err (AttemptIo error)))
      | (f, events, Some (Ok DownloadCancelled)) =>
          (f, started :: events, Some (Ok DownloadCancelled))
      | (f, events, Some (Ok DownloadCompleted)) =>
          match finalize (rename_failure a) f with
          | (f, Err error) => (f, started :: events, Some (Err (AttemptIo error)))
          | (f, Ok _) => (f, started :: events ++ [OnFinished], Some (Ok DownloadCompleted))
          end
      end
  end.

Definition stale (a : Attempt) (f : Files) : AttemptResult :=
  match remove (remove_failure a) f with
  | (f, Err error) => (f, [], Some (Err (AttemptIo error)))
  | (f, Ok _) => (f, [], Some (Err AttemptPartialFileStale))
  end.

Definition attempt_download (a : Attempt) (f : Files) : AttemptResult :=
  match current_size (size_failure a) f with
  | Err error => (f, [], Some (Err (AttemptIo error)))
  | Ok offset =>
      let sent_range_header := 0 <? offset in
      match requested a (if sent_range_header then Some offset else None) with
      | SendCancelled => (f, [], Some (Ok DownloadCancelled))
      | SendFailed source => (f, [], Some (Err (AttemptUnreachable source)))
      | Responded response =>
          match from_status (status response) sent_range_header with
          | ClassNotFound => (f, [], Some (Err AttemptNotFound))
          | ClassPermissionDenied status => (f, [], Some (Err (AttemptPermissionDenied status)))
          | ClassPartialFileStale => stale a f
          | ClassServerError status => (f, [], Some (Err (AttemptServerError status)))
          | ClassClientError status => (f, [], Some (Err (AttemptClientError status)))
          | StreamFromStartIgnoringRange =>
              match truncate (truncate_failure a) f with
              | (f, Err error) => (f, [], Some (Err (AttemptIo error)))
              | (f, Ok _) => receive_body a response 0 f
              end
          | StreamFromCurrentOffset =>
              if bool_decide (content_range_start response = Some offset)
              then receive_body a response offset f
              else stale a f
          | StreamFromStart => receive_body a response offset f
          end
      end
  end.

Definition download_error (error : DownloadAttemptError) : DownloadError :=
  match error with
  | AttemptUnreachable source => DownloadServerIsUnreachable source
  | AttemptServerError status => DownloadServerErrored status
  | AttemptClientError status => DownloadServerRejectedRequest status
  | AttemptInterrupted source => DownloadInterrupted source
  | AttemptNotFound => NotFound
  | AttemptPermissionDenied status => PermissionDenied status
  | AttemptPartialFileStale => PartialFileStale
  | AttemptIo source => classify_cache_failure source
  end.

(** [parse_url] gives the scheme of a URL. *)
Definition download (parse_url : string -> result string string) (url : string) (a : Attempt)
    (f : Files) : Files * list ProgressEvent * option (result DownloadOutcome DownloadError) :=
  match parse_url url with
  | Err source => (f, [], Some (Err (InvalidUrl source)))
  | Ok scheme =>
      if bool_decide (scheme = "http"%string) || bool_decide (scheme = "https"%string) then
        match attempt_download a f with
        | (f, events, None) => (f, events, None)
        | (f, events, Some (Ok outcome)) => (f, events, Some (Ok outcome))
        | (f, events, Some (Err error)) => (f, events, Some (Err (download_error error)))
        end
      else (f, [], Some (Err (UnsupportedUrlScheme scheme)))
  end.

(** Attempts one after the other, as the retries of the agent make them. *)
Fixpoint attempts (l : list Attempt) (f : Files)
    : Files * list (option (result DownloadOutcome DownloadAttemptError)) :=
  match l with
  | [] => (f, [])
  | a :: l =>
      let '(f, _, outcome) := attempt_download a f in
      let '(f, outcomes) := attempts l f in (f, outcome :: outcomes)
  end.

(** ** A server with one content

    What HTTP promises of the answers: a body that ends is all of what the
    status says, one that does not is the beginning of it. *)
Fixpoint honest_body (rest : bytes) (turns : list BodyTurn) : Prop :=
  match turns with
  | [] | BodyCancelled :: _ | BodyFailed _ :: _ => True
  | BodyEnd :: _ => rest = []
  | BodyChunk chunk _ :: turns => exists rest', rest = chunk ++ rest' /\ honest_body rest' turns
  end.

Definition honest (content : bytes) (a : Attempt) : Prop :=
  forall range response, requested a range = Responded response ->
    (status response = 200 -> honest_body content (body response)) /\
    (status response = 206 -> forall start, content_range_start response = Some start ->
       honest_body (drop (Z.to_nat start) content) (body response)).

Definition downloading (content : bytes) (f : Files) : Prop :=
  forall p, partial f = Some p -> p `prefix_of` content.

Definition contents (f : Files) : bytes := default [] (partial f).

Lemma downloading_contents (content : bytes) (f : Files) :
  downloading content f -> contents f `prefix_of` content.
Proof.
  intros Hf. unfold contents. destruct (partial f) as [p|] eqn:Hp; [by apply Hf|].
  apply prefix_nil.
Qed.

Lemma stream_honest (content rest : bytes) (flush_failure : option IoError) (turns : list BodyTurn)
    (f f' : Files) (events : list ProgressEvent)
    (r : option (result DownloadOutcome StreamToPartialFileError))
    (Hbody : honest_body rest turns) (Hcontent : contents f ++ rest = content)
    (Hopen : is_Some (partial f))
    (Hstream : stream_to_partial_file flush_failure turns f = (f', events, r)) :
  downloading content f' /\ is_Some (partial f') /\ final f' = final f /\
  (r = Some (Ok DownloadCompleted) -> contents f' = content).
Proof.
  assert (Hprefix : downloading content f).
  { intros p Hp. exists rest. unfold contents in Hcontent. by rewrite Hp in Hcontent. }
  revert rest f events r Hbody Hcontent Hopen Hstream Hprefix.
  induction turns as [|turn turns IH]; intros rest f events r Hbody Hcontent Hopen Hstream Hprefix;
    simpl in Hstream; [by simplify_eq; split_and!|].
  destruct turn as [| |source|chunk failure]; simpl in Hbody.
  - destruct flush_failure; by simplify_eq; split_and!.
  - subst rest. rewrite app_nil_r in Hcontent. destruct flush_failure; by simplify_eq; split_and!.
  - by simplify_eq; split_and!.
  - destruct Hbody as (rest' & -> & Hbody). destruct failure as [[written error]|].
    + simplify_eq. split_and!; [|by eexists|done|done]. intros p [= <-].
      fold (contents f). exists (drop written chunk ++ rest').
      by rewrite <- app_assoc, (app_assoc (take written chunk)), take_drop.
    + destruct (stream_to_partial_file flush_failure turns (append chunk f)) as [[f1 e1] r1] eqn:Hs.
      simplify_eq. apply (IH rest' (append chunk f) e1 r Hbody); try done.
      * unfold contents, append. simpl. by rewrite <- app_assoc.
      * intros p [= <-]. fold (contents f). exists rest'. by rewrite <- app_assoc.
Qed.

Lemma prefix_length_eq (content p : bytes) :
  p `prefix_of` content -> p ++ drop (length p) content = content.
Proof. intros [rest ->]. by rewrite drop_app_length. Qed.

(** What an attempt can do to the files. *)
Definition attempted (content : bytes) (f f' : Files) (completed : bool) : Prop :=
  downloading content f' /\
  if completed then partial f' = None /\ final f' = Some content else final f' = final f.

Definition completed {E : Type} (r : option (result DownloadOutcome E)) : bool :=
  match r with Some (Ok DownloadCompleted) => true | _ => false end.

Lemma receive_body_honest (content : bytes) (a : Attempt) (response : Response) (offset : Z)
    (f f' : Files) (events : list ProgressEvent)
    (r : option (result DownloadOutcome DownloadAttemptError))
    (Hprefix : downloading content f)
    (Hbody : honest_body (drop (length (contents f)) content) (body response))
    (Hreceive : receive_body a response offset f = (f', events, r)) :
  attempted content f f' (completed r).
Proof.
  unfold receive_body, open_for_append in Hreceive.
  destruct (open_failure a); [by simplify_eq|].
  set (f0 := put_partial (Some (default [] (partial f))) f) in *.
  assert (Hopen : is_Some (partial f0)) by (by eexists).
  assert (Hcontent : contents f0 ++ drop (length (contents f)) content = content)
    by (apply prefix_length_eq, downloading_contents, Hprefix).
  destruct (stream_to_partial_file (flush_failure a) (body response) f0) as [[f1 e1] r1] eqn:Hs.
  destruct (stream_honest _ _ _ _ _ _ _ _ Hbody Hcontent Hopen Hs) as (Hp1 & [p Hpart] & Hf1 & Hdone).
  change (final f0) with (final f) in Hf1.
  destruct r1 as [[[]|[]]|]; simplify_eq; try done.
  unfold finalize in Hreceive. rewrite Hpart in Hreceive.
  destruct (rename_failure a); simplify_eq; [done|]. split; [by intros ? [=]|]. split; [done|].
  specialize (Hdone eq_refl). unfold contents in Hdone. rewrite Hpart in Hdone. simpl in *. congruence.
Qed.

Lemma stale_honest (content : bytes) (a : Attempt) (f f' : Files) (events : list ProgressEvent)
    (r : option (result DownloadOutcome DownloadAttemptError))
    (Hprefix : downloading content f) (Hstale : stale a f = (f', events, r)) :
  attempted content f f' (completed r).
Proof.
  unfold stale, remove in Hstale.
  destruct (remove_failure a) as [error|]; [destruct (io_kind error)|]; by simplify_eq.
Qed.

(** The attempt sees the file system as it is: a file it has is not missing. *)
Definition sees_files (a : Attempt) : Prop :=
  forall error, size_failure a = Some error -> io_kind error <> IoNotFound.

Lemma current_size_contents (a : Attempt) (f : Files) (offset : Z) (Hsees : sees_files a)
    (Hsize : current_size (size_failure a) f = Ok offset) :
  offset = Z.of_nat (length (contents f)).
Proof.
  unfold current_size, contents in *. destruct (size_failure a) as [error|] eqn:He.
  - specialize (Hsees _ He). by destruct (io_kind error).
  - destruct (partial f); by simplify_eq.
Qed.

Lemma attempt_download_honest (content : bytes) (a : Attempt) (f f' : Files)
    (events : list ProgressEvent) (r : option (result DownloadOutcome DownloadAttemptError))
    (Hhonest : honest content a) (Hsees : sees_files a) (Hprefix : downloading content f)
    (Hattempt : attempt_download a f = (f', events, r)) :
  attempted content f f' (completed r).
Proof.
  unfold attempt_download in Hattempt.
  destruct (current_size (size_failure a) f) as [offset|error] eqn:Hsize; [|by simplify_eq].
  apply current_size_contents in Hsize; [|done].
  destruct (requested a (if 0 <? offset then Some offset else None)) as [|source|response] eqn:Hreq;
    [by simplify_eq..|].
  destruct (Hhonest _ _ Hreq) as [Hfull Hpart].
  unfold from_status in Hattempt.
  destruct (Z.eqb_spec (status response) 206) as [H206|_].
  { case_bool_decide as Hstart; [|by eapply stale_honest].
    eapply receive_body_honest; [done| |done]. rewrite <- (Nat2Z.id (length (contents f))), <- Hsize.
    by apply Hpart. }
  destruct (Z.eqb_spec (status response) 200) as [H200|_].
  { destruct (Z.ltb_spec 0 offset).
    - unfold truncate in Hattempt. destruct (truncate_failure a); [by simplify_eq|].
      assert (Hf : final f = final (put_partial (Some []) f)) by done.
      unfold attempted. rewrite Hf. eapply receive_body_honest; [| |exact Hattempt].
      + intros p [= <-]. apply prefix_nil.
      + by apply Hfull.
    - eapply receive_body_honest; [done| |done].
      replace (length (contents f)) with 0%nat by lia. by apply Hfull. }
  destruct (status response =? 404); [by simplify_eq|].
  destruct ((status response =? 401) || (status response =? 403)); [by simplify_eq|].
  destruct (status response =? 416); [by eapply stale_honest|].
  destruct (is_client_error (status response)); by simplify_eq.
Qed.

Lemma attempts_honest (content : bytes) (l : list Attempt) (f f' : Files)
    (outcomes : list (option (result DownloadOutcome DownloadAttemptError)))
    (Hhonest : Forall (honest content) l) (Hsees : Forall sees_files l)
    (Hprefix : downloading content f) (Hattempts : attempts l f = (f', outcomes)) :
  downloading content f' /\
  (if existsb completed outcomes then final f' = Some content else final f' = final f).
Proof.
  revert f outcomes Hprefix Hattempts.
  induction l as [|a l IH]; intros f outcomes Hprefix Hattempts; simpl in Hattempts; [by simplify_eq|].
  inversion Hhonest; subst. inversion Hsees; subst.
  destruct (attempt_download a f) as [[f1 events] outcome] eqn:Ha.
  destruct (attempts l f1) as [f2 outcomes'] eqn:Hl. simplify_eq. simpl.
  eapply attempt_download_honest in Ha as [Hp1 Hf1]; [|done..].
  destruct (IH ltac:(done) ltac:(done) _ _ Hp1 Hl) as [Hp2 Hf2]. split; [done|].
  destruct (completed outcome); simpl; [|by destruct (existsb completed outcomes'); congruence].
  destruct Hf1 as [_ Hf1]. by destruct (existsb completed outcomes'); congruence.
Qed.


(** A completed attempt has told the sink, and has left the final file. *)
Lemma attempt_completed (a : Attempt) (f f' : Files) (events : list ProgressEvent)
    (Hattempt : attempt_download a f = (f', events, Some (Ok DownloadCompleted))) :
  is_Some (final f') /\ exists earlier, events = earlier ++ [OnFinished].
Proof.
  assert (Hreceive : forall response offset g,
    receive_body a response offset g = (f', events, Some (Ok DownloadCompleted)) ->
    is_Some (final f') /\ exists earlier, events = earlier ++ [OnFinished]).
  { intros response offset g. unfold receive_body, finalize. intros Hr.
    repeat (case_match; simplify_eq/=); (split; [by eexists|]); rewrite app_comm_cons; by eexists. }
  unfold attempt_download, stale in Hattempt.
  repeat (case_match; simplify_eq/=); by eapply Hreceive.
Qed.

(** ** Resuming *)

Definition chunk_events (chunks : list bytes) : list ProgressEvent :=
  map (fun chunk => OnChunk (Z.of_nat (length chunk))) chunks.

(** Everything the sink was told has been downloaded. *)
Definition reported (events : list ProgressEvent) : Z :=
  foldr (fun event total => match event with
                            | OnStarted _ already => already + total
                            | OnChunk additional => additional + total
                            | OnFinished => total
                            end) 0 events.

Lemma stream_chunks (chunks : list bytes) (f : Files) (p : bytes) (Hp : partial f = Some p) :
  stream_to_partial_file None (map (fun chunk => BodyChunk chunk None) chunks ++ [BodyEnd]) f
  = (put_partial (Some (p ++ concat chunks)) f, chunk_events chunks, Some (Ok DownloadCompleted)).
Proof.
  revert f p Hp. induction chunks as [|chunk chunks IH]; intros f p Hp; simpl.
  - rewrite app_nil_r, <- Hp. by destruct f.
  - rewrite (IH (append chunk f) (p ++ chunk)), <- app_assoc; [done|].
    unfold append. simpl. by rewrite Hp.
Qed.

Lemma reported_started (total : option Z) (already : Z) (events : list ProgressEvent) :
  reported (OnStarted total already :: events) = already + reported events.
Proof. done. Qed.

Lemma reported_chunks (chunks : list bytes) :
  reported (chunk_events chunks ++ [OnFinished]) = Z.of_nat (length (concat chunks)).
Proof.
  induction chunks as [|chunk chunks IH]; [done|].
  change (reported (chunk_events (chunk :: chunks) ++ [OnFinished]))
    with (Z.of_nat (length chunk) + reported (chunk_events chunks ++ [OnFinished])).
  rewrite IH. simpl. rewrite length_app. lia.
Qed.

(** A server that answers the range of a partial file with the rest of it,
    and a file system that does what it is asked. *)
Record resumable (a : Attempt) (offset : nat) (chunks : list bytes) : Prop := {
  resumable_server : exists length_, requested a (Some (Z.of_nat offset)) = Responded {|
    status := 206; content_range_start := Some (Z.of_nat offset); content_length := length_;
    body := map (fun chunk => BodyChunk chunk None) chunks ++ [BodyEnd] |};
  resumable_files : size_failure a = None /\ open_failure a = None /\ flush_failure a = None /\
    rename_failure a = None;
}.

Lemma resumed_download (a : Attempt) (f : Files) (p : bytes) (chunks : list bytes)
    (Hp : partial f = Some p) (Hsome : p <> []) (Hresumable : resumable a (length p) chunks) :
  exists total,
    attempt_download a f
    = ({| partial := None; final := Some (p ++ concat chunks) |},
       OnStarted total (Z.of_nat (length p)) :: chunk_events chunks ++ [OnFinished],
       Some (Ok DownloadCompleted)).
Proof.
  destruct Hresumable as [[length_ Hserver] (Hsize & Hopen & Hflush & Hrename)].
  unfold attempt_download, current_size. rewrite Hsize, Hp.
  assert (Hoffset : (0 <? Z.of_nat (length p)) = true) by (destruct p; [done | apply Z.ltb_lt; simpl; lia]).
  rewrite Hoffset, Hserver. simpl. rewrite bool_decide_true by done.
  unfold receive_body, open_for_append. rewrite Hopen, Hflush, Hrename, Hp. simpl.
  rewrite (stream_chunks chunks _ p) by done. simpl. by eexists.
Qed.

(** A download resumes where it stopped: with a partial file, the rest of
    the content is asked for and nothing else; when the server sends it, in
    whatever chunks, the final file is the content, the partial file is gone,
    and the progress that was reported is its whole size. *)
Theorem download_resumes (a : Attempt) (f : Files) (p content : bytes) (chunks : list bytes)
    (Hp : partial f = Some p) (Hsome : p <> []) (Hcontent : p ++ concat chunks = content)
    (Hresumable : resumable a (length p) chunks) :
  exists events,
    attempt_download a f
    = ({| partial := None; final := Some content |}, events, Some (Ok DownloadCompleted)) /\
    last events = Some OnFinished /\
    reported events = Z.of_nat (length content).
Proof.
  destruct (resumed_download a f p chunks Hp Hsome Hresumable) as [total Hdone]. subst content.
  eexists. split_and!; [exact Hdone| |].
  - by rewrite app_comm_cons, last_snoc.
  - rewrite reported_started, reported_chunks, length_app. lia.
Qed.

(** The request names no version of the file: when the content changes on the
    server between two attempts, the beginning of the old content and the end
    of the new one are a completed download. *)
Lemma download_mixes_versions (a : Attempt) (old new : bytes) (n : nat)
    (Hn : (0 < n <= length old)%nat) (Hresumable : resumable a n [drop n new]) :
  exists events,
    attempt_download a {| partial := Some (take n old); final := None |}
    = ({| partial := None; final := Some (take n old ++ drop n new) |}, events,
       Some (Ok DownloadCompleted)).
Proof.
  assert (Hlen : length (take n old) = n) by (rewrite length_take; lia).
  assert (Hsome : take n old <> []) by (intros Hnil; rewrite Hnil in Hlen; simpl in Hlen; lia).
  destruct (resumed_download a {| partial := Some (take n old); final := None |} (take n old)
    [drop n new] eq_refl Hsome) as [total Hdone]; [by rewrite Hlen|].
  simpl in Hdone. rewrite app_nil_r in Hdone. by eexists.
Qed.

(** ** Witnesses

    Two attempts at "abc": the first is cut after "ab", the second resumes. *)

Definition example_content : bytes := String.list_byte_of_string "abc".

Definition example_attempt (answer : option Z -> Sent) : Attempt := {|
  size_failure := None; requested := answer; remove_failure := None; truncate_failure := None;
  open_failure := None; flush_failure := None; rename_failure := None |}.

Definition cut_attempt : Attempt := example_attempt (fun _ => Responded {|
  status := 200; content_range_start := None; content_length := Some 3;
  body := [BodyChunk (take 2 example_content) None; BodyFailed "reset"] |}).

Definition resumed_attempt : Attempt := example_attempt (fun range =>
  match range with
  | Some 2 => Responded {|
      status := 206; content_range_start := Some 2; content_length := Some 1;
      body := [BodyChunk (drop 2 example_content) None; BodyEnd] |}
  | _ => SendFailed "unreachable"
  end).


Lemma download_resumes_witness :
  exists events,
    attempt_download resumed_attempt {| partial := Some (take 2 example_content); final := None |}
    = ({| partial := None; final := Some example_content |}, events, Some (Ok DownloadCompleted)) /\
    last events = Some OnFinished /\ reported events = 3.
Proof.
  apply (download_resumes resumed_attempt _ (take 2 example_content) example_content
    [drop 2 example_content]); try done.
  split; [by exists (Some 1) | done].
Defined.
