(* ===== verification/ModelSources.v ===== *)
(** * Where the agent gets a model from

    [resolve_desired_model.rs] and [model_source/]: a local path
    ([local.rs]), a URL that is downloaded into the cache ([url.rs], over
    [Downloads] and [paddler_cache_dir/src/cached_downloaded_model.rs]) and
    Hugging Face ([huggingface.rs], whose client is a library).  Resolving
    changes the status of the agent: its issues and its download progress. *)

From Stdlib Require Import Ascii.
From S2P Require Import Prelude.
From S2P Require Import Bytes.
From S2P Require Import Tokio.
From S2P Require Import Messages.
From S2P Require Import AgentIssues.
From S2P Require Import SlotStatus.
From S2P Require Import Downloads.
Local Open Scope Z_scope.

Inductive DesiredModelResolution : Type :=
| Cancelled
| NotConfigured
| Resolved (path : string)
| LocalFileMissing (path : string).

(** ** The cache directory *)

Record CacheDir : Type := {
  explicit : option string;
  home : option string;
  xdg : option string;
}.

(** [PathBuf::join] of a relative name, on Unix. *)
Definition path_join (root name : string) : string :=
  if bool_decide (root = ""%string) || bool_decide (last (String.list_byte_of_string root) = Some "047"%byte)
  then root +:+ name
  else root +:+ "/" +:+ name.

Definition cache_dir_resolve (c : CacheDir) : result string string :=
  match explicit c with
  | Some explicit => Ok explicit
  | None =>
      match xdg c with
      | Some xdg => Ok (path_join xdg "paddler")
      | None =>
          match home c with
          | Some home => Ok (path_join (path_join home ".cache") "paddler")
          | None => Err "HOME not set; cannot derive paddler cache directory"%string
          end
      end
  end.

(** On Windows; joining a name follows its own rules there. *)
Record WindowsCacheDir : Type := {
  windows_explicit : option string;
  localappdata : option string;
  userprofile : option string;
}.

Definition windows_cache_dir_resolve (join : string -> string -> string) (c : WindowsCacheDir)
    : result string string :=
  match windows_explicit c with
  | Some explicit => Ok explicit
  | None =>
      match localappdata c with
      | Some localappdata => Ok (join localappdata "paddler"%string)
      | None =>
          match userprofile c with
          | Some userprofile => Ok (join (join (join userprofile "AppData") "Local") "paddler")%string
          | None => Err "USERPROFILE not set; cannot derive paddler cache directory"%string
          end
      end
  end.

Definition hex_digit (n : Z) : ascii := ascii_of_N (Z.to_N (if n <? 10 then 48 + n else 87 + n)).

(** [format!("{byte:02x}")] for every byte. *)
Definition hex_lowercase (l : bytes) : string :=
  foldr (fun b acc => String (hex_digit (Bytes.code b / 16)) (String (hex_digit (Bytes.code b mod 16)) acc))
    EmptyString l.

Record CachedDownloadedModel : Type := {
  cache_file_path : string;
  cache_subdir : string;
  lock_file_path : string;
}.

Definition DOWNLOADED_MODELS_SUBDIR : string := "downloaded-models".

(** [sha256] is the digest of the [sha2] crate. *)
Definition cached_downloaded_model_new (sha256 : bytes -> bytes) (c : CacheDir) (url_string : string)
    : result CachedDownloadedModel string :=
  let? cache_root := cache_dir_resolve c in
  let basename := hex_lowercase (sha256 (String.list_byte_of_string url_string)) in
  let cache_subdir := path_join cache_root DOWNLOADED_MODELS_SUBDIR in
  Ok {| cache_file_path := path_join cache_subdir basename;
        cache_subdir := cache_subdir;
        lock_file_path := path_join cache_subdir (basename +:+ ".lock") |}.

Section Sources.
Context {sender receiver : Type} `{!WatchChannel sender receiver}.
Local Abbreviation Status := (@SlotAggregatedStatus sender).

(** ** A local file *)

Definition local_resolve (exists_ : result bool string) (path : string)
    : result DesiredModelResolution string :=
  let? found := exists_ in
  Ok (if found : bool then Resolved path else LocalFileMissing path).

(** ** A URL *)

Definition url_issue_path (url_string : string) : ModelPath := {| AgentIssues.model_path := url_string |}.

Definition classify_cache_io_error (url_string : string) (error : IoError) : AgentIssue :=
  match io_kind error with
  | IoPermissionDenied => CacheDirectoryIsNotWritable (url_issue_path url_string)
  | _ =>
      if is_disk_full error then CacheStorageIsFull (url_issue_path url_string)
      else ModelCacheIsCorrupted (url_issue_path url_string)
  end.

Definition agent_issue_for (error : Downloads.DownloadError) (url_string : string) : AgentIssue :=
  let model_path := url_issue_path url_string in
  match error with
  | InvalidUrl _ | UnsupportedUrlScheme _ => DownloadUrlIsMalformed model_path
  | NotFound => ModelDoesNotExistAtUrl model_path
  | PermissionDenied _ => DownloadServerDeniedAccess model_path
  | Downloads.DownloadServerIsUnreachable _ => AgentIssues.DownloadServerIsUnreachable model_path
  | Downloads.DownloadServerErrored _ => AgentIssues.DownloadServerErrored model_path
  | Downloads.DownloadServerRejectedRequest _ => AgentIssues.DownloadServerRejectedRequest model_path
  | Downloads.DownloadInterrupted _ => AgentIssues.DownloadInterrupted model_path
  | CachePermissionDenied _ => CacheDirectoryIsNotWritable model_path
  | CacheDiskFull _ => CacheStorageIsFull model_path
  | PartialFileStale | DownloadIo _ => ModelCacheIsCorrupted model_path
  end.

(** [SlotAggregatedStatusSink] *)
Definition sink_event (url_string : string) (basename : option string) (event : ProgressEvent)
    (s : Status) : Status :=
  match event with
  | OnStarted total_bytes already_downloaded =>
      register_fix (ModelDownloadStarted (url_issue_path url_string))
        (set_download_status already_downloaded total_bytes basename s)
  | OnChunk additional_bytes => increment_download_current additional_bytes s
  | OnFinished => reset_download (register_fix (ModelDownloadCompleted (url_issue_path url_string)) s)
  end.

Definition sink_events (url_string : string) (basename : option string)
    (events : list ProgressEvent) (s : Status) : Status :=
  fold_left (fun s event => sink_event url_string basename event s) events s.

Inductive DownloadLockAcquisitionError : Type :=
| AnotherProcessIsDownloading
| LockIo (source : IoError).

(** How the calls of one resolution turn out.  The cached file is the final
    file of [Downloads]. *)
Record UrlEnvironment : Type := {
  parse_url : string -> result string string;
  cached : result CachedDownloadedModel string;
  cached_file_failure : option IoError;
  subdir_failure : option IoError;
  lock_failure : option DownloadLockAcquisitionError;
  basename : option string;
  manager_failure : option string;
  attempt : Attempt;
}.

(** [reset_download] and [register_issue], as on every early return. *)
Definition report (issue : AgentIssue) (s : Status) : Status := register_issue issue (reset_download s).

(** The part of [resolve_url_into_cache] that holds the download lock;
    [None] while the download has nothing to read. *)
Definition download_into_cache (env : UrlEnvironment) (url_string : string)
    (model : CachedDownloadedModel) (f : Files) (s : Status)
    : Status * Files * option (result DesiredModelResolution string) :=
  match manager_failure env with
  | Some error => (s, f, Some (Err error))
  | None =>
      let '(f, events, outcome) := download (parse_url env) url_string (attempt env) f in
      let s := sink_events url_string (basename env) events s in
      match outcome with
      | None => (s, f, None)
      | Some (Ok DownloadCompleted) => (s, f, Some (Ok (Resolved (cache_file_path model))))
      | Some (Ok DownloadCancelled) => (s, f, Some (Ok Cancelled))
      | Some (Err error) =>
          (report (agent_issue_for error url_string) s, f, Some (Err "download failed"%string))
      end
  end.

Definition resolve_url_into_cache (env : UrlEnvironment) (url_string : string) (f : Files) (s : Status)
    : Status * Files * option (result DesiredModelResolution string) :=
  let malformed := DownloadUrlIsMalformed (url_issue_path url_string) in
  match parse_url env url_string with
  | Err error => (report malformed s, f, Some (Err error))
  | Ok scheme =>
      if negb (bool_decide (scheme = "http"%string) || bool_decide (scheme = "https"%string))
      then (report malformed s, f, Some (Err "unsupported URL scheme"%string))
      else
        match cached env with
        | Err error => (s, f, Some (Err error))
        | Ok model =>
            match cached_file_failure env with
            | Some error =>
                (report (classify_cache_io_error url_string error) s, f, Some (Err "cache"%string))
            | None =>
                if bool_decide (is_Some (final f)) then
                  (register_fix (ModelDownloadCompleted (url_issue_path url_string))
                     (reset_download s), f, Some (Ok (Resolved (cache_file_path model))))
                else
                  match subdir_failure env with
                  | Some error =>
                      (report (classify_cache_io_error url_string error) s, f,
                       Some (Err "cache"%string))
                  | None =>
                      match lock_failure env with
                      | Some AnotherProcessIsDownloading =>
                          (report (CacheCannotAcquireLock (url_issue_path url_string)) s, f,
                           Some (Err "another agent is downloading"%string))
                      | Some (LockIo error) =>
                          (report (classify_cache_io_error url_string error) s, f,
                           Some (Err "cache"%string))
                      | None => download_into_cache env url_string model f s
                      end
                  end
            end
        end
  end.

(** ** Hugging Face *)

Definition huggingface_model_path (reference : HuggingFaceModelReference) : string :=
  repo_id reference +:+ "/" +:+ revision reference +:+ "/" +:+ filename reference.

(** The calls the library makes to the [Progress] it is given; it names the
    file as it was asked for it. *)
Inductive HubProgress : Type :=
| HubInit (size_ : Z) (filename_ : string)
| HubUpdate (size_ : Z)
| HubFinish.

Definition hub_progress (event : HubProgress) (s : Status) : Status :=
  match event with
  | HubInit size_ filename_ => progress_init size_ filename_ s
  | HubUpdate size_ => progress_update size_ s
  | HubFinish => progress_finish s
  end.

Inductive HubDownload : Type :=
| HubCancelled
| HubDownloaded (path : string)
| HubLockAcquisition (lock_path : string) (cancelled_while_waiting : bool)
| HubRequestError (status : option Z)
| HubOtherError (error : string).

(** *** Waiting for the lock of a download *)

Inductive DownloadLockRetryError : Type :=
| RetryCancelled (lock_path model_path : string)
| LockStillUnavailable (lock_path : string).

Definition download_lock_retry_error_message (e : DownloadLockRetryError) : string :=
  match e with
  | RetryCancelled lock_path model_path =>
      "Hugging Face model download for '" +:+ model_path
      +:+ "' was cancelled while waiting for the download lock '" +:+ lock_path +:+ "'"
  | LockStillUnavailable lock_path =>
      "Failed to acquire download lock '" +:+ lock_path
      +:+ "'. Is more than one agent running on this machine?"
  end.

(** [cancelled] is the other side of [run_until_cancelled]. *)
Definition wait_for_download_lock_retry (cancelled : bool) (lock_path model_path : string)
    : DownloadLockRetryError :=
  if cancelled then RetryCancelled lock_path model_path else LockStillUnavailable lock_path.

(** [cached_path repo_id filename] is the lookup in the cache; the repository
    it names carries no revision, so the library takes that of [main]. *)
Record HubEnvironment : Type := {
  api : result unit string;
  cached_path : string -> string -> option string;
  hub_events : list HubProgress;
  hub_download : HubDownload;
}.

Definition huggingface_resolve (env : HubEnvironment) (reference : HuggingFaceModelReference)
    (s : Status) : Status * result DesiredModelResolution string :=
  let path := {| AgentIssues.model_path := huggingface_model_path reference |} in
  if has_issue (HuggingFaceModelDoesNotExist path) s
  then (s, Err "does not exist on Hugging Face"%string)
  else
    match api env with
    | Err error => (s, Err error)
    | Ok _ =>
        match cached_path env (repo_id reference) (filename reference) with
        | Some cached_path => (reset_download s, Ok (Resolved cached_path))
        | None =>
            let s := fold_left (fun s event => hub_progress event s) (hub_events env) s in
            match hub_download env with
            | HubCancelled => (s, Ok Cancelled)
            | HubDownloaded resolved_filename =>
                (register_fix (HuggingFaceDownloadedModel path) s, Ok (Resolved resolved_filename))
            | HubLockAcquisition lock_path_ cancelled =>
                let s := register_issue (HuggingFaceCannotAcquireLock
                  {| lock_path := lock_path_; lock_model_path := path |}) s in
                (s, match wait_for_download_lock_retry cancelled lock_path_
                            (huggingface_model_path reference) with
                    | RetryCancelled _ _ => Ok Cancelled
                    | LockStillUnavailable _ as error => Err (download_lock_retry_error_message error)
                    end)
            | HubRequestError (Some 404) =>
                (register_issue (HuggingFaceModelDoesNotExist path) s,
                 Err "does not exist on Hugging Face"%string)
            | HubRequestError (Some 403) | HubRequestError (Some 401) =>
                (register_issue (HuggingFacePermissions path) s, Err "not enough permissions"%string)
            | HubRequestError _ => (s, Err "request failed"%string)
            | HubOtherError error => (s, Err error)
            end
        end
    end.

(** ** [resolve_desired_model] *)

Record ResolutionEnvironment : Type := {
  hub_environment : HubEnvironment;
  local_exists : result bool string;
  url_environment : UrlEnvironment;
}.

Definition resolve_desired_model (env : ResolutionEnvironment) (desired : AgentDesiredModel)
    (f : Files) (s : Status) : Status * Files * option (result DesiredModelResolution string) :=
  match desired with
  | HuggingFace reference =>
      let '(s, r) := huggingface_resolve (hub_environment env) reference s in (s, f, Some r)
  | LocalToAgent path => (s, f, Some (local_resolve (local_exists env) path))
  | Url reference => resolve_url_into_cache (url_environment env) (url reference) f s
  | NoModel => (s, f, Some (Ok NotConfigured))
  end.

(** ** Facts *)

Lemma register_fix_issues (fix_ : AgentIssueFix) (s : Status) (issue : AgentIssue) :
  issue ∈ issues (register_fix fix_ s) <-> issue ∈ issues s /\ can_fix fix_ issue = false.
Proof.
  unfold register_fix. simpl.
  assert (Hfilter : issue ∈ filter (fun issue => negb (can_fix fix_ issue) = true) (issues s)
    <-> issue ∈ issues s /\ can_fix fix_ issue = false).
  { rewrite elem_of_filter. destruct (can_fix fix_ issue); naive_solver. }
  by destruct (_ <? _)%nat.
Qed.

Lemma register_issue_issues (new issue : AgentIssue) (s : Status) :
  issue ∈ issues (register_issue new s) <-> issue = new \/ issue ∈ issues s.
Proof.
  unfold register_issue. case_decide as Hin; simpl; [|set_solver].
  split; [by right|]. by intros [->|].
Qed.

(** The download progress of a status that downloads nothing. *)
Definition idle (s : Status) : Prop :=
  download_current s = 0 /\ download_total s = 0 /\ download_indeterminate s = true /\
  download_filename s = None.

Lemma register_keeps_progress (new : AgentIssue) (fix_ : AgentIssueFix) (s : Status) :
  idle s -> idle (register_issue new s) /\ idle (register_fix fix_ s).
Proof.
  intros Hidle. unfold register_issue, register_fix. simpl. split.
  - by case_decide.
  - by destruct (_ <? _)%nat.
Qed.

Lemma report_spec (issue : AgentIssue) (s : Status) :
  idle (report issue s) /\ issue ∈ issues (report issue s).
Proof.
  unfold report. split; [by apply (register_keeps_progress issue (SlotStarted 0))|].
  rewrite register_issue_issues. by left.
Qed.

(** The issues of a URL: what its download would settle. *)
Definition url_issue (url_string : string) (issue : AgentIssue) : Prop :=
  can_fix (ModelDownloadCompleted (url_issue_path url_string)) issue = true.

Definition reported_issue (url_string : string) (s : Status) : Prop :=
  idle s /\ exists issue, issue ∈ issues s /\ url_issue url_string issue.

Lemma reported_report (url_string : string) (issue : AgentIssue) (s : Status)
    (Hissue : url_issue url_string issue) : reported_issue url_string (report issue s).
Proof. destruct (report_spec issue s) as [Hidle Hin]. split; [done|]. by exists issue. Qed.

Lemma classified_url_issue (url_string : string) (error : IoError) :
  url_issue url_string (classify_cache_io_error url_string error).
Proof.
  unfold url_issue, classify_cache_io_error.
  destruct (io_kind error), (is_disk_full error); simpl; by rewrite bool_decide_true.
Qed.

Lemma download_url_issue (url_string : string) (error : Downloads.DownloadError) :
  url_issue url_string (agent_issue_for error url_string).
Proof. unfold url_issue. destruct error; simpl; by rewrite bool_decide_true. Qed.

Definition settled (url_string : string) (s : Status) : Prop :=
  idle s /\ forall issue, issue ∈ issues s -> ~ url_issue url_string issue.

Lemma settled_fix (url_string : string) (s : Status) :
  idle s -> settled url_string (register_fix (ModelDownloadCompleted (url_issue_path url_string)) s).
Proof.
  intros Hidle. split.
  - by apply (register_keeps_progress (ModelCannotBeLoaded (url_issue_path ""))).
  - intros issue [_ Hfixed]%register_fix_issues. unfold url_issue. congruence.
Qed.

Lemma settled_finished (url_string : string) (basename_ : option string)
    (earlier : list ProgressEvent) (s : Status) :
  settled url_string (sink_events url_string basename_ (earlier ++ [OnFinished]) s).
Proof.
  unfold sink_events. rewrite fold_left_app. simpl. split; [done|].
  intros issue [_ Hfixed]%register_fix_issues. unfold url_issue. congruence.
Qed.

Lemma download_completed (parse : string -> result string string) (url_string : string) (a : Attempt)
    (f f' : Files) (events : list ProgressEvent)
    (Hdownload : download parse url_string a f = (f', events, Some (Ok DownloadCompleted))) :
  is_Some (final f') /\ exists earlier, events = earlier ++ [OnFinished].
Proof.
  unfold download in Hdownload. destruct (parse url_string) as [scheme|]; [|done].
  destruct (_ || _); [|done].
  destruct (attempt_download a f) as [[f1 e1] [[[]|]|]] eqn:Ha; simplify_eq.
  by eapply attempt_completed.
Qed.

(** What resolving a URL leaves behind.  A resolved model is in the cache,
    the download progress is idle and no issue of the URL is left; an error
    is visible: the progress is idle and the status has an issue that only a
    download of this URL settles, unless the agent could not even name the
    cache file or build its HTTP client; and nothing else is returned but a
    cancellation. *)
Theorem url_resolution_outcome (env : UrlEnvironment) (url_string : string) (f f' : Files)
    (s s' : Status) (r : result DesiredModelResolution string)
    (Hresolve : resolve_url_into_cache env url_string f s = (s', f', Some r)) :
  match r with
  | Ok (Resolved path) =>
      is_Some (final f') /\ cache_file_path <$> (match cached env with Ok m => Some m | Err _ => None end)
        = Some path /\ settled url_string s'
  | Ok Cancelled => True
  | Ok (NotConfigured | LocalFileMissing _) => False
  | Err error =>
      reported_issue url_string s' \/
      (s' = s /\ (cached env = Err error \/ manager_failure env = Some error))
  end.
Proof.
  unfold resolve_url_into_cache in Hresolve.
  assert (Hmalformed : forall t, reported_issue url_string
    (report (DownloadUrlIsMalformed (url_issue_path url_string)) t)).
  { intros t. apply reported_report. unfold url_issue. simpl. by rewrite bool_decide_true. }
  destruct (parse_url env url_string) as [scheme|error]; [|simplify_eq; by left].
  destruct (negb _); [simplify_eq; by left|].
  destruct (cached env) as [model|error] eqn:Hcached; [|simplify_eq; right; by auto].
  destruct (cached_file_failure env) as [error|];
    [simplify_eq; left; apply reported_report, classified_url_issue|].
  case_bool_decide as Hfinal.
  { simplify_eq. split_and!; [done|done|]. by apply settled_fix. }
  destruct (subdir_failure env) as [error|];
    [simplify_eq; left; apply reported_report, classified_url_issue|].
  destruct (lock_failure env) as [[|error]|].
  - simplify_eq. left. apply reported_report. unfold url_issue. simpl. by rewrite bool_decide_true.
  - simplify_eq. left. apply reported_report, classified_url_issue.
  - unfold download_into_cache in Hresolve.
    destruct (manager_failure env) as [error|]; [simplify_eq; right; by auto|].
    destruct (download (parse_url env) url_string (attempt env) f) as [[f1 events] [[[]|error]|]] eqn:Hd;
      simplify_eq; try done.
    + apply download_completed in Hd as [Hfile (earlier & ->)].
      split_and!; [done|done|]. apply settled_finished.
    + left. apply reported_report, download_url_issue.
Qed.

Lemma string_length_app (a b : string) :
  String.length (a +:+ b) = (String.length a + String.length b)%nat.
Proof. induction a as [|c a IH]; [done|]. simpl. by rewrite IH. Qed.

(** The library names the file it downloads without its repository, so the
    start of a download never settles the issue of its lock. *)
Lemma start_never_fixes_lock (reference : HuggingFaceModelReference) (lock : string) :
  can_fix (HuggingFaceStartedDownloading {| AgentIssues.model_path := filename reference |})
    (HuggingFaceCannotAcquireLock
       {| lock_path := lock;
          lock_model_path := {| AgentIssues.model_path := huggingface_model_path reference |} |})
  = false.
Proof.
  simpl. apply bool_decide_false. intros [= Hsame]. unfold huggingface_model_path in Hsame.
  apply (f_equal String.length) in Hsame. rewrite !string_length_app in Hsame. simpl in Hsame. lia.
Qed.
End Sources.

(** ** Witnesses *)

Definition example_url : string := "http://h/m".

Definition example_environment : UrlEnvironment := {|
  parse_url := fun _ => Ok "http"%string;
  cached := Ok {| cache_file_path := "/c/m"; cache_subdir := "/c"; lock_file_path := "/c/m.lock" |};
  cached_file_failure := None; subdir_failure := None; lock_failure := None;
  basename := Some "m"%string; manager_failure := None; attempt := resumed_attempt |}.

(** The second attempt finds the partial file of the first; the issue of the
    first is gone afterwards. *)
Definition interrupted_status : @SlotAggregatedStatus nat :=
  register_issue (AgentIssues.DownloadInterrupted (url_issue_path example_url)) (status_new 0 1).

Lemma url_resolution_outcome_witness :
  let '(s, f, r) := resolve_url_into_cache example_environment example_url
    {| partial := Some (take 2 example_content); final := None |} interrupted_status in
  r = Some (Ok (Resolved "/c/m")) /\ is_Some (final f) /\ settled example_url s.
Proof.
  destruct (resolve_url_into_cache example_environment example_url
    {| partial := Some (take 2 example_content); final := None |} interrupted_status)
    as [[s f] r] eqn:Hresolve.
  assert (Hr : r = Some (Ok (Resolved "/c/m")))
    by (apply (f_equal snd) in Hresolve; vm_compute in Hresolve; by rewrite <- Hresolve).
  subst r. apply url_resolution_outcome in Hresolve as (Hfile & _ & Hsettled). by split_and!.
Defined.
