(* ===== verification/AgentStartup.v ===== *)
(** * Starting the scheduler of an agent

    [continuous_batch_arbiter.rs]: [spawn] starts a thread that loads the
    model, the chat template, the projection and the context, and waits for
    three signals of it ([send_startup_signal.rs]); both report to the status
    of the agent.  The thread and the waiting task run in any order, as the
    schedule says; what the libraries answer is an environment. *)

From S2P Require Import Prelude.
From S2P Require Import Tokio.
From S2P Require Import Messages.
From S2P Require Import AgentIssues.
From S2P Require Import SlotStatus.
From S2P Require Import AgentController.
Local Open Scope Z_scope.

(** ** The state an agent applies *)

Record AgentApplicableState : Type := {
  applicable_chat_template_override : option ChatTemplate;
  applicable_inference_parameters : InferenceParameters;
  applicable_model_path : option string;
  applicable_multimodal_projection_path : option string;
}.

Record ContinuousBatchArbiter : Type := {
  arbiter_chat_template_override : option ChatTemplate;
  arbiter_desired_slots_total : Z;
  arbiter_gpu_devices : list Z;
  arbiter_inference_parameters : InferenceParameters;
  arbiter_multimodal_projection_path : option string;
  arbiter_model_path : string;
}.

Inductive ContinuousBatchArbiterBuildOutcome : Type :=
| ReadyToSpawn (arbiter : ContinuousBatchArbiter)
| NoModelConfigured.

Definition build_from_applicable_state (applicable_state : AgentApplicableState)
    (desired_slots_total_ : Z) (gpu_devices : list Z) : ContinuousBatchArbiterBuildOutcome :=
  match applicable_model_path applicable_state with
  | None => NoModelConfigured
  | Some model_path =>
      ReadyToSpawn {|
        arbiter_chat_template_override := applicable_chat_template_override applicable_state;
        arbiter_desired_slots_total := desired_slots_total_;
        arbiter_gpu_devices := gpu_devices;
        arbiter_inference_parameters := applicable_inference_parameters applicable_state;
        arbiter_multimodal_projection_path := applicable_multimodal_projection_path applicable_state;
        arbiter_model_path := model_path |}
  end.

Inductive ChatTemplateLoadStatus : Type := Loaded | SkippedForEmbeddings.

(** ** The scheduler thread

    What it does that others see: operations on the status, the metadata of
    the model and the signals. *)
Inductive ThreadEvent : Type :=
| ThreadOp (op : StatusOp)
| ThreadMetadata (metadata_ : ModelMetadata)
| SignalModelLoaded
| SignalChatTemplate (status : ChatTemplateLoadStatus)
| SignalRunning.

(** What llama.cpp and the renderer answer; [None] is success. *)
Record ThreadEnvironment : Type := {
  backend_failure : option string;
  devices_failure : option string;
  model_failure : option string;
  model_metadata : result (list (string * string)) string;
  model_chat_template : result string string;
  renderer_failure : string -> option string;
  projection_failure : option string;
  piece_failure : option string;
  context_failure : option string;
}.

(** A step of the thread: what it did, or the error it ended with; the signals
    are heard, since the task that waits for them only goes away with it. *)
Definition ThreadRun : Type := list ThreadEvent * option string.

Definition and_then (first rest : ThreadRun) : ThreadRun :=
  match first with
  | (events, Some error) => (events, Some error)
  | (events, None) => (events ++ fst rest, snd rest)
  end.

Definition does (events : list ThreadEvent) : ThreadRun := (events, None).
Definition checks (failure : option string) : ThreadRun := ([], failure).

Definition set_meta_field (key value : string) (m : ModelMetadata) : ModelMetadata :=
  {| metadata := <[key := value]> (metadata m) |}.

(** The loop over the metadata fields of the model. *)
Definition metadata_of (fields : list (string * string)) : ModelMetadata :=
  fold_left (fun m '(key, value) => set_meta_field key value m) fields {| metadata := ∅ |}.

Section Thread.
Context (env : ThreadEnvironment) (a : ContinuousBatchArbiter).

Definition arbiter_path : ModelPath := {| AgentIssues.model_path := arbiter_model_path a |}.

(** The backend, the numbers of the context parameters, the devices, the
    model file. *)
Definition thread_load_model : ThreadRun :=
  and_then (checks (backend_failure env))
  (and_then (checks (match try_u32 (arbiter_desired_slots_total a) with
                     | Some _ => None
                     | None => Some "desired_slots_total does not fit in u32"%string
                     end))
  (and_then (checks (match try_u32 (n_batch (arbiter_inference_parameters a)) with
                     | Some _ => None
                     | None => Some "n_batch does not fit in u32"%string
                     end))
  (and_then (checks (if bool_decide (arbiter_gpu_devices a = []) then None else devices_failure env))
  (and_then (checks (model_failure env)) (does [SignalModelLoaded]))))).

Definition thread_metadata : ThreadRun :=
  match model_metadata env with
  | Err error => checks (Some error)
  | Ok fields => does [ThreadMetadata (metadata_of fields)]
  end.

Definition thread_chat_template : ThreadRun :=
  if enable_embeddings (arbiter_inference_parameters a) &&
     bool_decide (arbiter_chat_template_override a = None)
  then does [SignalChatTemplate SkippedForEmbeddings]
  else
    match match arbiter_chat_template_override a with
          | Some chat_template => Ok (Messages.content chat_template)
          | None => model_chat_template env
          end with
    | Err error => checks (Some error)
    | Ok template =>
        and_then (does [SignalChatTemplate Loaded])
          match renderer_failure env template with
          | None => does [ThreadOp (OpRegisterFix (ChatTemplateIsCompiled arbiter_path))]
          | Some error =>
              ([ThreadOp (OpRegisterIssue (ChatTemplateDoesNotCompile
                  {| compile_error := error; compile_model_path := arbiter_path;
                     template_content := template |}))], Some error)
          end
    end.

Definition thread_projection : ThreadRun :=
  match arbiter_multimodal_projection_path a with
  | None => does []
  | Some path =>
      match projection_failure env with
      | None =>
          does [ThreadOp (OpRegisterFix
                  (MultimodalProjectionIsLoaded {| AgentIssues.model_path := path |}))]
      | Some error =>
          ([ThreadOp (OpRegisterIssue
              (MultimodalProjectionCannotBeLoaded {| AgentIssues.model_path := path |}))],
           Some error)
      end
  end.

Definition slot_issues (error : string) (slots : nat) : list ThreadEvent :=
  map (fun slot_index_ => ThreadOp (OpRegisterIssue
         (SlotCannotStart {| start_error := error; slot_index := Z.of_nat slot_index_ |})))
    (seq 0 slots).

Definition thread_context : ThreadRun :=
  match context_failure env with
  | None => does []
  | Some error => (slot_issues error (Z.to_nat (arbiter_desired_slots_total a)), Some error)
  end.

(** The closure of [thread::spawn], up to [scheduler.run()].  The warm-up
    decode only logs its errors. *)
Definition scheduler_thread : ThreadRun :=
  and_then thread_load_model
  (and_then thread_metadata
  (and_then thread_chat_template
  (and_then (does [ThreadOp (OpSetModelPath (Some (arbiter_model_path a)))])
  (and_then thread_projection
  (and_then (checks (piece_failure env))
  (and_then thread_context
    (does [SignalRunning]))))))).
End Thread.

(** ** The waiting task *)

Section Startup.
Context {sender receiver : Type} `{!WatchChannel sender receiver}.
Local Abbreviation Status := (@SlotAggregatedStatus sender).

(** Where [await_startup_signals] is. *)
Inductive AwaitPhase : Type :=
| AwaitModelLoaded
| AwaitChatTemplate
| AwaitRunning
| StartupEnded (r : result unit string).

Record StartupState : Type := {
  status : Status;
  metadata_holder : option ModelMetadata;
  todo : list ThreadEvent;
  heard_model_loaded : bool;
  heard_chat_template : option ChatTemplateLoadStatus;
  heard_running : bool;
  phase : AwaitPhase;
}.

Definition put_status (s : Status) (y : StartupState) : StartupState := {|
  status := s; metadata_holder := metadata_holder y; todo := todo y;
  heard_model_loaded := heard_model_loaded y; heard_chat_template := heard_chat_template y;
  heard_running := heard_running y; phase := phase y |}.

Definition thread_step (y : StartupState) : StartupState :=
  match todo y with
  | [] => y
  | event :: rest =>
      let y := {|
        status := status y; metadata_holder := metadata_holder y; todo := rest;
        heard_model_loaded := heard_model_loaded y; heard_chat_template := heard_chat_template y;
        heard_running := heard_running y; phase := phase y |} in
      match event with
      | ThreadOp op => put_status (run_status_op op (status y)) y
      | ThreadMetadata metadata_ => {|
          status := status y; metadata_holder := Some metadata_; todo := rest;
          heard_model_loaded := heard_model_loaded y; heard_chat_template := heard_chat_template y;
          heard_running := heard_running y; phase := phase y |}
      | SignalModelLoaded => {|
          status := status y; metadata_holder := metadata_holder y; todo := rest;
          heard_model_loaded := true; heard_chat_template := heard_chat_template y;
          heard_running := heard_running y; phase := phase y |}
      | SignalChatTemplate template_status => {|
          status := status y; metadata_holder := metadata_holder y; todo := rest;
          heard_model_loaded := heard_model_loaded y;
          heard_chat_template := Some template_status;
          heard_running := heard_running y; phase := phase y |}
      | SignalRunning => {|
          status := status y; metadata_holder := metadata_holder y; todo := rest;
          heard_model_loaded := heard_model_loaded y; heard_chat_template := heard_chat_template y;
          heard_running := true; phase := phase y |}
      end
  end.

Definition put_phase (p : AwaitPhase) (s : Status) (y : StartupState) : StartupState := {|
  status := s; metadata_holder := metadata_holder y; todo := todo y;
  heard_model_loaded := heard_model_loaded y; heard_chat_template := heard_chat_template y;
  heard_running := heard_running y; phase := p |}.

(** The senders of the signals go away with the thread. *)
Definition thread_ended (y : StartupState) : bool := bool_decide (todo y = []).

Definition await_step (a : ContinuousBatchArbiter) (y : StartupState) : StartupState :=
  let path := arbiter_path a in
  match phase y with
  | AwaitModelLoaded =>
      if heard_model_loaded y
      then put_phase AwaitChatTemplate (register_fix (ModelIsLoaded path) (status y)) y
      else if thread_ended y
      then put_phase AwaitChatTemplate (register_issue (ModelCannotBeLoaded path) (status y)) y
      else y
  | AwaitChatTemplate =>
      match heard_chat_template y with
      | Some Loaded =>
          put_phase AwaitRunning (register_fix (ModelChatTemplateIsLoaded path) (status y)) y
      | Some SkippedForEmbeddings => put_phase AwaitRunning (status y) y
      | None =>
          if thread_ended y then
            put_phase AwaitRunning
              (if has_issue (ModelCannotBeLoaded path) (status y) then status y
               else register_issue (UnableToFindChatTemplate path) (status y)) y
          else y
      end
  | AwaitRunning =>
      if heard_running y then put_phase (StartupEnded (Ok tt)) (status y) y
      else if thread_ended y
      then put_phase (StartupEnded (Err "Scheduler thread did not signal"%string)) (status y) y
      else y
  | StartupEnded _ => y
  end.

(** A schedule: [true] is a step of the thread. *)
Definition startup_run (a : ContinuousBatchArbiter) (schedule : list bool) (y : StartupState)
    : StartupState :=
  fold_left (fun y (thread : bool) => if thread then thread_step y else await_step a y) schedule y.

Definition startup_initial (env : ThreadEnvironment) (a : ContinuousBatchArbiter) (s : Status)
    (m : option ModelMetadata) : StartupState := {|
  status := s; metadata_holder := m; todo := fst (scheduler_thread env a);
  heard_model_loaded := false; heard_chat_template := None; heard_running := false;
  phase := AwaitModelLoaded |}.

(** The loop over the slots once the scheduler runs. *)
Definition start_slots (slots : nat) (s : Status) : Status :=
  fold_left (fun s slot_index_ => register_fix (SlotStarted (Z.of_nat slot_index_))
                                    (increment_total_slots s)) (seq 0 slots) s.

Inductive SpawnOutcome : Type := SpawnReady | SpawnCancelled.

(** A thread that nobody listens to any more goes on to its next signal,
    which it cannot send. *)
Fixpoint finish_unheard (todo_ : list ThreadEvent) (s : Status) (m : option ModelMetadata)
    : Status * option ModelMetadata :=
  match todo_ with
  | ThreadOp op :: rest => finish_unheard rest (run_status_op op s) m
  | ThreadMetadata metadata_ :: rest => finish_unheard rest s (Some metadata_)
  | _ => (s, m)
  end.

(** The end of [spawn]: [None] while the signals are awaited; [cancelled] is
    the other side of [run_until_cancelled], after which the thread is joined. *)
Definition spawn (env : ThreadEnvironment) (parallelism_failure : option string) (cancelled : bool)
    (schedule : list bool) (a : ContinuousBatchArbiter) (s : Status) (m : option ModelMetadata)
    : Status * option ModelMetadata * option (result SpawnOutcome string) :=
  match parallelism_failure with
  | Some error => (s, m, Some (Err error))
  | None =>
      let y := startup_run a schedule (startup_initial env a s m) in
      if cancelled then
        (finish_unheard (todo y) (status y) (metadata_holder y), Some (Ok SpawnCancelled))
      else
        match phase y with
        | StartupEnded (Err error) => (status y, metadata_holder y, Some (Err error))
        | StartupEnded (Ok _) =>
            match try_u32 (arbiter_desired_slots_total a) with
            | None =>
                (status y, metadata_holder y, Some (Err "desired_slots_total does not fit in u32"%string))
            | Some slots =>
                (start_slots (Z.to_nat slots) (status y), metadata_holder y, Some (Ok SpawnReady))
            end
        | _ => (status y, metadata_holder y, None)
        end
  end.
End Startup.
