(* ===== verification/AgentStartupFacts.v ===== *)
(** * What a start of the scheduler reports

    Whatever the order of the thread and of the task that waits for it, the
    issues of the agent after a start of [AgentStartup] are those its failure
    calls for. *)

From S2P Require Import Prelude.
From S2P Require Import Tokio.
From S2P Require Import Messages.
From S2P Require Import AgentIssues.
From S2P Require Import SlotStatus.
From S2P Require Import AgentController.
From S2P Require Import ModelSources.
From S2P Require Import AgentStartup.
Local Open Scope Z_scope.

(** ** The specification *)

Section Specification.
Context (env : ThreadEnvironment) (a : ContinuousBatchArbiter).

Definition slots_cannot_start (error : string) : gset AgentIssue :=
  list_to_set (map (fun i => SlotCannotStart {| start_error := error; slot_index := Z.of_nat i |})
    (seq 0 (Z.to_nat (arbiter_desired_slots_total a)))).

(** After the chat template: a token that cannot be printed is not reported. *)
Definition late_issues : gset AgentIssue :=
  match arbiter_multimodal_projection_path a, projection_failure env with
  | Some path, Some _ => {[MultimodalProjectionCannotBeLoaded {| AgentIssues.model_path := path |}]}
  | _, _ =>
      match piece_failure env, context_failure env with
      | None, Some error => slots_cannot_start error
      | _, _ => ∅
      end
  end.

Definition chat_template_skipped : bool :=
  enable_embeddings (arbiter_inference_parameters a) &&
  bool_decide (arbiter_chat_template_override a = None).

Definition startup_issues : gset AgentIssue :=
  match snd (thread_load_model env a), model_metadata env with
  | Some _, _ => {[ModelCannotBeLoaded (arbiter_path a)]}
  | None, Err _ => {[UnableToFindChatTemplate (arbiter_path a)]}
  | None, Ok _ =>
      if chat_template_skipped then late_issues
      else
        match match arbiter_chat_template_override a with
              | Some chat_template => Ok (Messages.content chat_template)
              | None => model_chat_template env
              end with
        | Err _ => {[UnableToFindChatTemplate (arbiter_path a)]}
        | Ok template =>
            match renderer_failure env template with
            | Some error => {[ChatTemplateDoesNotCompile
                {| compile_error := error; compile_model_path := arbiter_path a;
                   template_content := template |}]}
            | None => late_issues
            end
        end
  end.
End Specification.

(** ** Issues of a thread *)

Definition registers (event : ThreadEvent) : option AgentIssue :=
  match event with ThreadOp (OpRegisterIssue issue) => Some issue | _ => None end.

Definition registered (events : list ThreadEvent) : gset AgentIssue :=
  list_to_set (omap registers events).

Definition only_issues (events : list ThreadEvent) : Prop :=
  Forall (fun event => is_Some (registers event)) events.

(** The events that leave the issues of a status without issues alone. *)
Definition harmless (event : ThreadEvent) : Prop :=
  match event with
  | ThreadOp (OpRegisterFix _ | OpSetModelPath _) | ThreadMetadata _ | SignalModelLoaded
  | SignalChatTemplate _ | SignalRunning => True
  | ThreadOp _ => False
  end.

(** A thread that reports an issue ends with it. *)
Definition issues_last (events : list ThreadEvent) : Prop :=
  exists first final, events = first ++ final /\ Forall harmless first /\ only_issues final.

Lemma registered_app (l1 l2 : list ThreadEvent) : registered (l1 ++ l2) = registered l1 ∪ registered l2.
Proof. unfold registered. by rewrite omap_app, list_to_set_app_L. Qed.

Lemma harmless_registered (events : list ThreadEvent) : Forall harmless events -> registered events = ∅.
Proof.
  induction 1 as [|event events Hevent _ IH]; [done|].
  change (event :: events) with ([event] ++ events). rewrite registered_app, IH.
  destruct event as [[]| | | |]; try done; unfold registered; simpl; set_solver.
Qed.

Lemma slot_issues_only (error : string) (n : nat) : only_issues (slot_issues error n).
Proof. apply Forall_forall. intros event Hin. apply list_elem_of_fmap in Hin as (i & -> & _). by eexists. Qed.

Lemma slot_issues_registered (error : string) (a : ContinuousBatchArbiter) :
  registered (slot_issues error (Z.to_nat (arbiter_desired_slots_total a))) = slots_cannot_start a error.
Proof.
  unfold registered, slot_issues, slots_cannot_start. f_equal.
  induction (seq 0 _) as [|i l IH]; [done|]. simpl. by f_equal.
Qed.

(** The signals among some events. *)
Definition hears_model (events : list ThreadEvent) : bool :=
  existsb (fun event => match event with SignalModelLoaded => true | _ => false end) events.
Definition hears_template (events : list ThreadEvent) : option ChatTemplateLoadStatus :=
  last (omap (fun event => match event with SignalChatTemplate status => Some status | _ => None end)
          events).
Definition hears_running (events : list ThreadEvent) : bool :=
  existsb (fun event => match event with SignalRunning => true | _ => false end) events.

Definition is_none {A : Type} (o : option A) : bool := match o with None => true | Some _ => false end.

(** What the waiting task reports, by what it has heard. *)
Definition awaited_issues (path : ModelPath) (model : bool) (template : option ChatTemplateLoadStatus)
    : gset AgentIssue :=
  if model then
    match template with Some _ => ∅ | None => {[UnableToFindChatTemplate path]} end
  else {[ModelCannotBeLoaded path]}.

Record thread_shape (env : ThreadEnvironment) (a : ContinuousBatchArbiter) (r : ThreadRun) : Prop := {
  shape_last : issues_last (fst r);
  shape_running : hears_running (fst r) = is_none (snd r);
  shape_issues : startup_issues env a
    = registered (fst r) ∪ awaited_issues (arbiter_path a) (hears_model (fst r)) (hears_template (fst r));
}.

Lemma load_model_events (env : ThreadEnvironment) (a : ContinuousBatchArbiter) :
  thread_load_model env a = ([SignalModelLoaded], None) \/
  exists error, thread_load_model env a = ([], Some error).
Proof.
  unfold thread_load_model, checks, does, and_then.
  repeat (case_match; simplify_eq/=); eauto.
Qed.

Lemma slot_issues_quiet (error : string) (n : nat) :
  hears_running (slot_issues error n) = false /\ hears_model (slot_issues error n) = false /\
  hears_template (slot_issues error n) = None.
Proof. unfold slot_issues. by induction (seq 0 n). Qed.

Lemma hears_template_app (l1 l2 : list ThreadEvent) :
  hears_template (l1 ++ l2)
  = match hears_template l2 with Some status => Some status | None => hears_template l1 end.
Proof. unfold hears_template. by rewrite omap_app, last_app. Qed.

Lemma hears_template_cons (event : ThreadEvent) (l : list ThreadEvent) :
  hears_template (event :: l)
  = match hears_template l with
    | Some status => Some status
    | None => match event with SignalChatTemplate status => Some status | _ => None end
    end.
Proof.
  change (event :: l) with ([event] ++ l). rewrite hears_template_app.
  by destruct (hears_template l), event.
Qed.

Lemma hears_model_app (l1 l2 : list ThreadEvent) :
  hears_model (l1 ++ l2) = hears_model l1 || hears_model l2.
Proof. apply existsb_app. Qed.

Lemma hears_running_app (l1 l2 : list ThreadEvent) :
  hears_running (l1 ++ l2) = hears_running l1 || hears_running l2.
Proof. apply existsb_app. Qed.

Lemma issues_last_cons (event : ThreadEvent) (rest : list ThreadEvent) :
  harmless event -> issues_last rest -> issues_last (event :: rest).
Proof.
  intros Hevent (h & o & -> & Hh & Ho). exists (event :: h), o. split_and!; [done| |done].
  by constructor.
Qed.

Lemma issues_last_only (events : list ThreadEvent) : only_issues events -> issues_last events.
Proof. intros Ho. by exists [], events. Qed.

(** The rest of the thread after the chat template. *)
Definition late_thread (env : ThreadEnvironment) (a : ContinuousBatchArbiter) : ThreadRun :=
  and_then (does [ThreadOp (OpSetModelPath (Some (arbiter_model_path a)))])
  (and_then (thread_projection env a)
  (and_then (checks (piece_failure env))
  (and_then (thread_context env a) (does [SignalRunning])))).

Lemma late_thread_shape (env : ThreadEnvironment) (a : ContinuousBatchArbiter) :
  let r := late_thread env a in
  issues_last (fst r) /\ hears_running (fst r) = is_none (snd r) /\
  hears_model (fst r) = false /\
  hears_template (fst r) = None /\
  registered (fst r) = late_issues env a.
Proof.
  unfold late_thread, thread_projection, late_issues, thread_context, checks, does, and_then.
  destruct (arbiter_multimodal_projection_path a) as [path|], (projection_failure env) as [e|]; simpl;
    try (destruct (piece_failure env) as [e1|], (context_failure env) as [e2|]; simpl).
  all: destruct (slot_issues_quiet e2 (Z.to_nat (arbiter_desired_slots_total a))) as (Hr & Hm & Ht)
    || idtac.
  all: rewrite ?app_nil_r, ?hears_template_cons, ?Hr, ?Hm, ?Ht; split_and!; try done.
  all: try (by repeat (apply issues_last_cons; [exact I|]); apply issues_last_only;
    first [apply slot_issues_only | constructor | repeat constructor; by eexists]).
  all: repeat change (registered (?e :: ?l)) with (registered l).
  all: first [apply slot_issues_registered | unfold registered; simpl; set_solver].
Qed.

Lemma thread_shaped (env : ThreadEnvironment) (a : ContinuousBatchArbiter) :
  thread_shape env a (scheduler_thread env a).
Proof.
  destruct (late_thread_shape env a) as (Hlast & Hrun & Hmodel & Htemplate & Hissues).
  assert (Hthread : scheduler_thread env a = and_then (thread_load_model env a)
    (and_then (thread_metadata env) (and_then (thread_chat_template env a) (late_thread env a)))) by done.
  rewrite Hthread. clear Hthread. destruct (late_thread env a) as [late failure]. simpl in *.
  destruct (load_model_events env a) as [Hload|[error Hload]]; rewrite Hload.
  2: { split; simpl; [apply issues_last_only; constructor | done |]. unfold startup_issues. rewrite Hload.
       unfold registered. simpl. set_solver. }
  unfold thread_metadata. destruct (model_metadata env) as [fields|error] eqn:Hmeta; simpl.
  2: { split; simpl; [|done|].
       - by repeat (apply issues_last_cons; [exact I|]); apply issues_last_only; constructor.
       - unfold startup_issues. rewrite Hload, Hmeta. unfold registered. simpl. set_solver. }
  unfold thread_chat_template. fold (chat_template_skipped a).
  destruct (chat_template_skipped a) eqn:Hskip.
  { split; simpl.
    - by repeat (apply issues_last_cons; [exact I|]).
    - done.
    - unfold startup_issues. rewrite Hload, Hmeta, Hskip, <- Hissues.
      rewrite !hears_template_cons, Htemplate. simpl. by rewrite union_empty_r_L. }
  destruct (match arbiter_chat_template_override a with
            | Some chat_template => Ok (Messages.content chat_template)
            | None => model_chat_template env
            end) as [template|error] eqn:Htext.
  2: { split; simpl; [|done|].
       - by repeat (apply issues_last_cons; [exact I|]); apply issues_last_only; constructor.
       - unfold startup_issues. rewrite Hload, Hmeta, Hskip, Htext. unfold registered. simpl. set_solver. }
  destruct (renderer_failure env template) as [error|] eqn:Hrender; split; simpl.
  - repeat (apply issues_last_cons; [exact I|]). apply issues_last_only. repeat constructor. by eexists.
  - done.
  - unfold startup_issues. rewrite Hload, Hmeta, Hskip, Htext, Hrender. unfold registered. simpl. set_solver.
  - by repeat (apply issues_last_cons; [exact I|]).
  - done.
  - unfold startup_issues. rewrite Hload, Hmeta, Hskip, Htext, Hrender, <- Hissues.
    rewrite !hears_template_cons, Htemplate. simpl. by rewrite union_empty_r_L.
Qed.

(** The thread itself never reports what the waiting task reports. *)
Definition thread_kind (issue : AgentIssue) : Prop :=
  match issue with
  | ChatTemplateDoesNotCompile _ | MultimodalProjectionCannotBeLoaded _ | SlotCannotStart _ => True
  | _ => False
  end.

Definition thread_kinds (events : list ThreadEvent) : Prop :=
  forall issue, issue ∈ registered events -> thread_kind issue.

Lemma and_then_kinds (r1 r2 : ThreadRun) :
  thread_kinds (fst r1) -> thread_kinds (fst r2) -> thread_kinds (fst (and_then r1 r2)).
Proof.
  destruct r1 as [l1 [error|]]; simpl; [done|]. intros H1 H2 issue. rewrite registered_app.
  intros [?|?]%elem_of_union; auto.
Qed.

Lemma late_kinds (env : ThreadEnvironment) (a : ContinuousBatchArbiter) :
  thread_kinds (fst (late_thread env a)).
Proof.
  destruct (late_thread_shape env a) as (_ & _ & _ & _ & Hissues).
  intros issue. rewrite Hissues. unfold late_issues, slots_cannot_start.
  repeat case_match; try set_solver;
    intros Hin; first [apply elem_of_singleton in Hin | apply elem_of_empty in Hin |
      apply elem_of_list_to_set, list_elem_of_fmap in Hin as (? & Hin & _)]; by subst.
Qed.

Lemma thread_has_kinds (env : ThreadEnvironment) (a : ContinuousBatchArbiter) :
  thread_kinds (fst (scheduler_thread env a)).
Proof.
  change (scheduler_thread env a) with (and_then (thread_load_model env a)
    (and_then (thread_metadata env) (and_then (thread_chat_template env a) (late_thread env a)))).
  apply and_then_kinds; [|apply and_then_kinds; [|apply and_then_kinds; [|apply late_kinds]]].
  - destruct (load_model_events env a) as [->|[? ->]]; done.
  - unfold thread_metadata. by case_match.
  - unfold thread_chat_template. repeat (case_match; simpl; try done).
    all: intros issue Hin; unfold registered in Hin; simpl in Hin;
      rewrite ?union_empty_r_L in Hin; try by apply elem_of_empty in Hin.
    all: apply elem_of_singleton in Hin; by subst.
Qed.

(** The last signal is the last thing the thread does before it serves. *)
Definition ends_running (events : list ThreadEvent) : Prop :=
  forall h rest, events = h ++ rest -> hears_running h = true -> rest = [].

Lemma quiet_ends (events : list ThreadEvent) : hears_running events = false -> ends_running events.
Proof. intros Hquiet h rest ->. rewrite hears_running_app in Hquiet. by destruct (hears_running h). Qed.

Lemma and_then_ends (r1 r2 : ThreadRun) :
  hears_running (fst r1) = false -> ends_running (fst r2) -> ends_running (fst (and_then r1 r2)).
Proof.
  destruct r1 as [l1 [error|]]; simpl; [by intros ?%quiet_ends|].
  intros Hquiet Hends h rest Heq Hh. apply app_eq_inv in Heq as [(k & Hl & Hk)|(k & Hl & Hk)].
  - subst l1. by rewrite hears_running_app, Hh in Hquiet.
  - subst h. rewrite hears_running_app, Hquiet in Hh. by apply (Hends k rest).
Qed.

Lemma thread_ends_running (env : ThreadEnvironment) (a : ContinuousBatchArbiter) :
  ends_running (fst (scheduler_thread env a)).
Proof.
  repeat apply and_then_ends; try done.
  - by destruct (load_model_events env a) as [->|[? ->]].
  - unfold thread_metadata. by case_match.
  - unfold thread_chat_template. by repeat (case_match; simpl).
  - unfold thread_projection. by repeat case_match.
  - unfold thread_context. case_match; [apply slot_issues_quiet|done].
  - intros [|event h] rest Heq Hh; [done|]. simpl in Heq. injection Heq as _ Heq.
    by destruct h.
Qed.

(** ** Any order of the thread and the task *)

Section Orders.
Context {sender receiver : Type} `{!WatchChannel sender receiver}.
Local Abbreviation State := (@StartupState sender).

Definition past_model (p : AwaitPhase) : bool :=
  match p with AwaitModelLoaded => false | _ => true end.
Definition past_template (p : AwaitPhase) : bool :=
  match p with AwaitModelLoaded | AwaitChatTemplate => false | _ => true end.

(** What the task has reported so far. *)
Definition awaited_so_far (a : ContinuousBatchArbiter) (y : State) : gset AgentIssue :=
  if past_template (phase y)
  then awaited_issues (arbiter_path a) (heard_model_loaded y) (heard_chat_template y)
  else if past_model (phase y)
  then awaited_issues (arbiter_path a) (heard_model_loaded y) (Some Loaded)
  else ∅.

Record startup_inv (a : ContinuousBatchArbiter) (events : list ThreadEvent) (y : State) : Prop := {
  inv_done : exists done, events = done ++ todo y /\
    heard_model_loaded y = hears_model done /\ heard_chat_template y = hears_template done /\
    heard_running y = hears_running done /\
    issues (status y) = registered done ∪ awaited_so_far a y /\
    (Forall harmless done \/ only_issues (todo y));
  inv_ended : (past_model (phase y) = true -> heard_model_loaded y = false -> todo y = []) /\
    (past_template (phase y) = true -> heard_chat_template y = None -> todo y = []);
  inv_result : match phase y with
               | StartupEnded (Ok _) => heard_running y = true
               | StartupEnded (Err _) => todo y = [] /\ heard_running y = false
               | _ => True
               end;
}.

Lemma startup_inv_initial (env : ThreadEnvironment) (a : ContinuousBatchArbiter)
    (s : @SlotAggregatedStatus sender) (m : option ModelMetadata) (Hs : issues s = ∅) :
  startup_inv a (fst (scheduler_thread env a)) (startup_initial env a s m).
Proof.
  split; simpl; [|done|done]. exists []. split_and!; try done. by left.
Qed.

(** While the thread has work left, the task has reported nothing. *)
Lemma unawaited (a : ContinuousBatchArbiter) (events : list ThreadEvent) (y : State)
    (Hinv : startup_inv a events y) (Htodo : todo y ≠ []) :
  (past_model (phase y) = true -> heard_model_loaded y = true) /\
  (past_template (phase y) = true -> is_Some (heard_chat_template y)).
Proof.
  destruct Hinv as [_ [Hm Ht] _]. split.
  - intros Hp. destruct (heard_model_loaded y); [done|]. by destruct Htodo; apply Hm.
  - intros Hp. destruct (heard_chat_template y); [by eexists|]. by destruct Htodo; apply Ht.
Qed.

Lemma past_template_model (p : AwaitPhase) : past_template p = true -> past_model p = true.
Proof. by destruct p. Qed.

Lemma awaited_nothing (a : ContinuousBatchArbiter) (y : State)
    (Hm : past_model (phase y) = true -> heard_model_loaded y = true)
    (Ht : past_template (phase y) = true -> is_Some (heard_chat_template y)) :
  awaited_so_far a y = ∅.
Proof.
  unfold awaited_so_far, awaited_issues. destruct (past_template (phase y)) eqn:Hp.
  - rewrite (Hm (past_template_model _ Hp)). by destruct (Ht eq_refl) as [? ->].
  - destruct (past_model (phase y)); [|done]. by rewrite Hm.
Qed.

(** Once an issue is reported, only issues follow. *)
Lemma next_event (h : list ThreadEvent) (event : ThreadEvent) (rest : list ThreadEvent)
    (Hlast : issues_last (h ++ event :: rest)) :
  harmless event \/ (is_Some (registers event) /\ only_issues rest).
Proof.
  destruct Hlast as (first & final & Heq & Hfirst & Hfinal).
  apply app_eq_inv in Heq as [(k & Hh & Hk)|(k & Hh & Hk)].
  - subst final. right. apply Forall_app in Hfinal as [_ Hfinal]. by apply Forall_cons in Hfinal.
  - destruct k as [|e' k]; simpl in Hk.
    + subst final. right. by apply Forall_cons in Hfinal.
    + injection Hk as <- _. subst first. left. rewrite Forall_app, Forall_cons in Hfirst.
      by destruct Hfirst as (_ & ? & _).
Qed.

Lemma thread_step_fields (y : State) (event : ThreadEvent) (rest : list ThreadEvent)
    (Htodo : todo y = event :: rest) :
  todo (thread_step y) = rest /\ phase (thread_step y) = phase y /\
  heard_model_loaded (thread_step y) = heard_model_loaded y || hears_model [event] /\
  heard_chat_template (thread_step y)
    = match hears_template [event] with
      | Some status => Some status
      | None => heard_chat_template y
      end /\
  heard_running (thread_step y) = heard_running y || hears_running [event].
Proof.
  unfold thread_step. rewrite Htodo.
  destruct event; simpl; split_and!; try done; by rewrite ?orb_false_r, ?orb_true_r.
Qed.

Lemma register_fix_nothing (fix_ : AgentIssueFix) (s : @SlotAggregatedStatus sender)
    (Hnone : forall issue, issue ∈ issues s -> can_fix fix_ issue = false) :
  issues (register_fix fix_ s) = issues s.
Proof. apply set_eq. intros issue. rewrite register_fix_issues. naive_solver. Qed.

Lemma register_issue_eq (issue : AgentIssue) (s : @SlotAggregatedStatus sender) :
  issues (register_issue issue s) = issues s ∪ {[issue]}.
Proof. apply set_eq. intros other. rewrite register_issue_issues. set_solver. Qed.

Lemma thread_step_issues (y : State) (event : ThreadEvent) (rest : list ThreadEvent)
    (Htodo : todo y = event :: rest)
    (Hevent : (harmless event /\ issues (status y) = ∅) \/ is_Some (registers event)) :
  issues (status (thread_step y)) = issues (status y) ∪ registered [event].
Proof.
  unfold thread_step. rewrite Htodo.
  destruct Hevent as [[Hharmless Hempty]|[issue Hissue]].
  - rewrite (harmless_registered [event]) by (by constructor). rewrite union_empty_r_L.
    destruct event as [[]| | | |]; try done; simpl.
    apply register_fix_nothing. rewrite Hempty. set_solver.
  - destruct event as [[]| | | |]; simplify_eq/=. rewrite register_issue_eq.
    unfold registered. simpl. set_solver.
Qed.

Lemma thread_step_inv (a : ContinuousBatchArbiter) (events : list ThreadEvent) (y : State)
    (Hlast : issues_last events) (Hinv : startup_inv a events y) :
  startup_inv a events (thread_step y).
Proof.
  destruct (todo y) as [|event rest] eqn:Htodo; [unfold thread_step; by rewrite Htodo|].
  destruct (unawaited a events y Hinv ltac:(by rewrite Htodo)) as [Hm Ht].
  destruct (thread_step_fields y event rest Htodo) as (Ft & Fp & Fm & Fc & Fr).
  assert (Hm' : past_model (phase (thread_step y)) = true -> heard_model_loaded (thread_step y) = true)
    by (rewrite Fp, Fm; intros Hp; by rewrite Hm).
  assert (Ht' : past_template (phase (thread_step y)) = true ->
    is_Some (heard_chat_template (thread_step y))).
  { rewrite Fp, Fc. intros Hp. destruct (hears_template [event]); [by eexists|by apply Ht]. }
  pose proof (awaited_nothing a y Hm Ht) as Hnothing.
  destruct Hinv as [(h & Hevents & Im & Ic & Ir & Issues & Hside) _ Hresult].
  rewrite Htodo in Hevents, Hside, Hresult. split.
  - exists (h ++ [event]). rewrite Ft, Fm, Fc, Fr, Im, Ic, Ir.
    rewrite hears_model_app, hears_template_app, hears_running_app.
    assert (Hnext : (harmless event /\ issues (status y) = ∅) \/ is_Some (registers event)).
    { destruct Hside as [Hside|Hside]; [|right; by apply Forall_cons in Hside as [? _]].
      rewrite Issues, Hnothing, harmless_registered by done. subst events.
      destruct (next_event h event rest Hlast) as [?|[? _]]; [left; split; [done|set_solver]|by right]. }
    split_and!; try done.
    + by rewrite <- app_assoc.
    + rewrite (thread_step_issues y event rest Htodo Hnext), Issues, Hnothing.
      rewrite registered_app, (awaited_nothing a _ Hm' Ht'). set_solver.
    + destruct Hside as [Hside|Hside]; [|right; by apply Forall_cons in Hside as [_ ?]].
      destruct Hnext as [[? _]|Hissue]; [left|right].
      * apply Forall_app. by split; [|constructor].
      * subst events. destruct (next_event h event rest Hlast) as [Hh|[_ ?]]; [|done].
        destruct Hissue. by destruct event as [[]| | | |].
  - split; intros Hp Hh; [by rewrite Hm' in Hh|].
    destruct (Ht' Hp) as [? ?]. congruence.
  - rewrite Fp, Fr. destruct (phase y) as [| | |[]]; try done; [by rewrite Hresult|].
    by destruct Hresult.
Qed.

Lemma registered_prefix (h rest : list ThreadEvent) :
  thread_kinds (h ++ rest) -> thread_kinds h.
Proof. intros Hk issue Hin. apply Hk. rewrite registered_app. set_solver. Qed.

Lemma template_lookup_keeps (path : ModelPath) (issue : AgentIssue)
    (Hissue : thread_kind issue \/ issue = ModelCannotBeLoaded path) :
  can_fix (ModelChatTemplateIsLoaded path) issue = false.
Proof. destruct Hissue as [Hissue| ->]; [by destruct issue|done]. Qed.

Lemma await_step_inv (a : ContinuousBatchArbiter) (events : list ThreadEvent) (y : State)
    (Hkinds : thread_kinds events) (Hinv : startup_inv a events y) :
  startup_inv a events (await_step a y).
Proof.
  pose proof Hinv as [(h & Hevents & Im & Ic & Ir & Issues & Hside) [Em Et] Hresult].
  subst events. apply registered_prefix in Hkinds. unfold awaited_so_far in Issues.
  unfold await_step, thread_ended. destruct (phase y) eqn:Hphase; simpl in *.
  - destruct (heard_model_loaded y) eqn:Hm; [|case_bool_decide as Htodo; [|done]].
    all: split; [exists h | split; simpl; intros; first [congruence | by apply Em] | done]; split_and!; simpl; try congruence; try done;
      unfold awaited_so_far; simpl; rewrite Hm.
    + rewrite register_fix_nothing, Issues; [done|].
      rewrite Issues. intros issue [Hin|Hin]%elem_of_union; [|set_solver].
      apply Hkinds in Hin. by destruct issue.
    + rewrite register_issue_eq, Issues. simpl. set_solver.
  - destruct (heard_chat_template y) as [[]|] eqn:Hc; [| |case_bool_decide as Htodo; [|done]].
    all: split; [exists h | split; simpl; intros; first [congruence | by apply Em] | done]; split_and!; simpl; try congruence; try done;
      unfold awaited_so_far; simpl; rewrite Hc; try done.
    + rewrite register_fix_nothing, Issues; [done|].
      rewrite Issues. intros issue [Hin|Hin]%elem_of_union; apply template_lookup_keeps; [left; auto|].
      right. unfold awaited_issues in Hin. destruct (heard_model_loaded y); set_solver.
    + unfold has_issue. destruct (heard_model_loaded y) eqn:Hm; simpl in *.
      * rewrite bool_decide_eq_false_2, register_issue_eq, Issues; [set_solver|].
        rewrite Issues. intros [Hin|?]%elem_of_union; [by apply Hkinds in Hin|set_solver].
      * rewrite bool_decide_eq_true_2; [done|]. rewrite Issues. set_solver.
  - destruct (heard_running y) eqn:Hr; [|case_bool_decide as Htodo; [|done]].
    all: split; [exists h | done | simpl; split_and?; congruence]; split_and!; simpl; try congruence; done.
  - done.
Qed.

Lemma startup_run_inv (a : ContinuousBatchArbiter) (events : list ThreadEvent)
    (schedule : list bool) (y : State)
    (Hlast : issues_last events) (Hkinds : thread_kinds events) (Hinv : startup_inv a events y) :
  startup_inv a events (startup_run a schedule y).
Proof.
  revert y Hinv. induction schedule as [|[] schedule IH]; intros y Hinv; [done| |]; apply IH.
  - by apply thread_step_inv.
  - by apply await_step_inv.
Qed.

Lemma startup_result (env : ThreadEnvironment) (a : ContinuousBatchArbiter)
    (s : @SlotAggregatedStatus sender) (m : option ModelMetadata) (schedule : list bool)
    (r : result unit string)
    (Hs : issues s = ∅)
    (Hended : phase (startup_run a schedule (startup_initial env a s m)) = StartupEnded r) :
  issues (status (startup_run a schedule (startup_initial env a s m))) = startup_issues env a /\
  is_none (snd (scheduler_thread env a)) = is_ok r.
Proof.
  pose proof (thread_shaped env a) as [Hlast Hrunning Hissues].
  pose proof (startup_run_inv a _ schedule _ Hlast (thread_has_kinds env a)
    (startup_inv_initial env a s m Hs)) as Hinv.
  set (y := startup_run a schedule (startup_initial env a s m)) in *.
  destruct Hinv as [(h & Hevents & Im & Ic & Ir & Issues & _) _ Hresult].
  rewrite Hended in Hresult. unfold awaited_so_far in Issues. rewrite Hended in Issues. simpl in Issues.
  assert (Hall : todo y = [] /\ heard_running y = is_ok r).
  { destruct r as [[]|]; simpl; [|by destruct Hresult as [? ->]]. split; [|done].
    apply (thread_ends_running env a h _ Hevents). congruence. }
  destruct Hall as [Htodo Hr]. rewrite Htodo, app_nil_r in Hevents.
  rewrite Hevents, Issues, Im, Ic in *. split; [done|].
  congruence.
Qed.
(** C22. However the scheduler thread and the task that awaits its signals
    interleave, a start that ends on an agent without issues leaves exactly
    the issues its first failure calls for, and succeeds if and only if
    nothing failed. *)
Theorem startup_reports_failure (env : ThreadEnvironment) (a : ContinuousBatchArbiter)
    (s : @SlotAggregatedStatus sender) (m : option ModelMetadata) (schedule : list bool)
    (r : result unit string)
    (Hs : issues s = ∅)
    (Hended : phase (startup_run a schedule (startup_initial env a s m)) = StartupEnded r) :
  issues (status (startup_run a schedule (startup_initial env a s m))) = startup_issues env a /\
  (is_ok r = true <-> snd (scheduler_thread env a) = None).
Proof.
  destruct (startup_result env a s m schedule r Hs Hended) as [Hissues Hr]. split; [done|].
  rewrite <- Hr. by destruct (snd (scheduler_thread env a)).
Qed.
End Orders.

(** ** A start whose template does not compile *)

Definition sample_environment : ThreadEnvironment := {|
  backend_failure := None; devices_failure := None; model_failure := None;
  model_metadata := Ok [("general.name", "Qwen")%string]; model_chat_template := Ok "{{ x"%string;
  renderer_failure := fun _ => Some "unexpected end of input"%string;
  projection_failure := None; piece_failure := None; context_failure := None |}.

Definition sample_arbiter : ContinuousBatchArbiter := {|
  arbiter_chat_template_override := None; arbiter_desired_slots_total := 2;
  arbiter_gpu_devices := []; arbiter_inference_parameters := inference_parameters_default;
  arbiter_multimodal_projection_path := None; arbiter_model_path := "model.gguf" |}.

(** The thread is two steps ahead before the task first looks. *)
Definition sample_schedule : list bool := [true; true; false; true; true; false; false].

Lemma startup_reports_failure_witness :
  let y := startup_run sample_arbiter sample_schedule
    (startup_initial sample_environment sample_arbiter (status_new 0 2 : @SlotAggregatedStatus nat) None) in
  issues (status y)
    = {[ChatTemplateDoesNotCompile {| compile_error := "unexpected end of input";
          compile_model_path := arbiter_path sample_arbiter; template_content := "{{ x" |}]} /\
  phase y = StartupEnded (Err "Scheduler thread did not signal"%string).
Proof.
  destruct (startup_reports_failure sample_environment sample_arbiter
    (status_new 0 2 : @SlotAggregatedStatus nat) None sample_schedule
    (Err "Scheduler thread did not signal"%string)) as [Hissues _];
    [reflexivity|vm_compute; reflexivity|].
  split; [exact Hissues|vm_compute; reflexivity].
Defined.

(** A start that only fails to print a token of the model fails without any
    issue. *)
Example silent_failure :
  let env := {| backend_failure := None; devices_failure := None; model_failure := None;
    model_metadata := Ok []; model_chat_template := Ok "x"%string; renderer_failure := fun _ => None;
    projection_failure := None; piece_failure := Some "unknown token"%string;
    context_failure := None |} in
  startup_issues env sample_arbiter = ∅ /\ snd (scheduler_thread env sample_arbiter) = Some "unknown token"%string.
Proof. done. Qed.
