(* ===== verification/AgentArbiter.v ===== *)
(** * From a desired state to a running model

    [agent_desired_state_converter.rs], the agent's [reconciliation_service.rs],
    [agent_applicable_state_holder.rs], [drain_in_flight_requests.rs] and
    [llamacpp_arbiter_service.rs]: one task turns the desired state into an
    applicable one and publishes it, the other stops the running scheduler and
    starts one for it.  A handler of either task is one step; what the other
    tasks of the agent do meanwhile are operations on the status. *)

From S2P Require Import Prelude.
From S2P Require Import Tokio.
From S2P Require Import Messages.
From S2P Require Import AgentIssues.
From S2P Require Import SlotStatus.
From S2P Require Import AgentController.
From S2P Require Import Downloads.
From S2P Require Import ModelSources.
From S2P Require Import AgentStartup.
Local Open Scope Z_scope.

Inductive ContinuousBatchSchedulerCommand (Conversation Prompt Embeddings : Type) : Type :=
| ContinueFromConversationHistory (request : Conversation)
| ContinueFromRawPrompt (request : Prompt)
| GenerateEmbeddingBatch (request : Embeddings)
| Shutdown.
Arguments ContinueFromConversationHistory {_ _ _} _.
Arguments ContinueFromRawPrompt {_ _ _} _.
Arguments GenerateEmbeddingBatch {_ _ _} _.
Arguments Shutdown {_ _ _}.

(** ** Draining *)

Section Drain.
Context {sender receiver : Type} `{!WatchChannel sender receiver}.
Local Abbreviation Status := (@SlotAggregatedStatus sender).

(** What the [select!] of the drain wakes up for; before an update the other
    tasks changed the status. *)
Inductive DrainEvent : Type :=
| DrainShutdown
| DrainChanged (ops : list StatusOp)
| DrainClosed.

(** The result is [None] while requests are still in flight. *)
Fixpoint drain_in_flight_requests (events : list DrainEvent) (s : Status)
    : Status * option (result unit string) :=
  if 0 <? slots_processing_count s then
    match events with
    | [] => (s, None)
    | DrainShutdown :: _ => (s, Some (Ok tt))
    | DrainChanged ops :: rest => drain_in_flight_requests rest (run_status_ops ops s)
    | DrainClosed :: _ => (s, Some (Err "update channel closed while draining in-flight requests"%string))
    end
  else (s, Some (Ok tt)).

(** ** Conversion *)

(** [resolve_into_optional_path] *)
Definition resolve_into_optional_path (env : ResolutionEnvironment) (f : Files)
    (desired : AgentDesiredModel) (on_local_missing : ModelPath -> AgentIssue) (s : Status)
    : Status * option (result (option string) string) :=
  let '(s, _, r) := resolve_desired_model env desired f s in
  match r with
  | None => (s, None)
  | Some (Err error) => (s, Some (Err error))
  | Some (Ok (Cancelled | NotConfigured)) => (s, Some (Ok None))
  | Some (Ok (Resolved path)) => (s, Some (Ok (Some path)))
  | Some (Ok (LocalFileMissing path)) =>
      (register_issue (on_local_missing {| AgentIssues.model_path := path |}) s,
       Some (Err ("Local file does not exist: " +:+ path)%string))
  end.

(** The answers of the libraries, and the cached files, of the two models. *)
Record ConversionEnvironment : Type := {
  model_environment : ResolutionEnvironment;
  model_files : Files;
  projection_environment : ResolutionEnvironment;
  projection_files : Files;
}.

Definition to_applicable_state (env : ConversionEnvironment) (desired : AgentDesiredState) (s : Status)
    : Status * option (result AgentApplicableState string) :=
  let '(s, r) := resolve_into_optional_path (model_environment env) (model_files env)
                   (Messages.model desired) ModelFileDoesNotExist s in
  match r with
  | None => (s, None)
  | Some (Err error) => (s, Some (Err error))
  | Some (Ok model_path_) =>
      let '(s, r) := resolve_into_optional_path (projection_environment env) (projection_files env)
                       (Messages.multimodal_projection desired) MultimodalProjectionCannotBeLoaded s in
      match r with
      | None => (s, None)
      | Some (Err error) => (s, Some (Err error))
      | Some (Ok projection_path) =>
          (s, Some (Ok {|
            applicable_chat_template_override := Messages.chat_template_override desired;
            applicable_inference_parameters := Messages.inference_parameters desired;
            applicable_model_path := model_path_;
            applicable_multimodal_projection_path := projection_path |}))
      end
  end.
End Drain.

(** ** The agent process *)

(** Where a task is: it waits once a call it makes does not return. *)
Inductive TaskPhase : Type := TaskRuns | TaskWaits | TaskStopped.

Section Process.
Context {sender receiver : Type} `{!WatchChannel sender receiver}.
Context {chan : Type -> Type} `{!UnboundedChannel chan}.
Context {vsender vreceiver : Type} `{!ValueWatch (option AgentApplicableState) vsender vreceiver}.
Context {Conversation Prompt Embeddings : Type}.
Context (slots : Z) (devices : list Z).
Local Abbreviation Status := (@SlotAggregatedStatus sender).
Local Abbreviation Command := (ContinuousBatchSchedulerCommand Conversation Prompt Embeddings).

(** *** The holder *)

Record AgentApplicableStateHolder : Type := {
  held_state : option AgentApplicableState;
  change_notifier : vsender;
}.

Definition applicable_holder_default : AgentApplicableStateHolder :=
  {| held_state := None; change_notifier := watched_new None |}.

Definition set_agent_applicable_state (state : option AgentApplicableState)
    (h : AgentApplicableStateHolder) : AgentApplicableStateHolder * result unit string :=
  match watched_send state (change_notifier h) with
  | Some notifier => ({| held_state := state; change_notifier := notifier |}, Ok tt)
  | None => ({| held_state := state; change_notifier := change_notifier h |},
             Err "channel closed"%string)
  end.

(** *** The tasks *)

Record ReconciliationTask : Type := {
  desired_state : option AgentDesiredState;
  is_converted : bool;
  reconciliation_phase : TaskPhase;
}.

(** A thread is what it was spawned for. *)
Record ContinuousBatchArbiterHandle : Type := {
  command_tx : chan Command;
  scheduler_thread_handle : ContinuousBatchArbiter;
}.

Record ArbiterTask : Type := {
  agent_applicable_state : option AgentApplicableState;
  reconciled_state : option vreceiver;
  continuous_batch_arbiter_handle : option ContinuousBatchArbiterHandle;
  arbiter_phase : TaskPhase;
}.

Record AgentProcess : Type := {
  slot_status : Status;
  metadata_held : option ModelMetadata;
  applicable_holder : AgentApplicableStateHolder;
  reconciliation : ReconciliationTask;
  arbiter : ArbiterTask;
  shutdown_cancelled : bool;
}.

Definition agent_process_new (now : Z) : AgentProcess := {|
  slot_status := status_new now slots; metadata_held := None;
  applicable_holder := applicable_holder_default;
  reconciliation := {| desired_state := None; is_converted := false; reconciliation_phase := TaskRuns |};
  arbiter := {| agent_applicable_state := None; reconciled_state := None;
                continuous_batch_arbiter_handle := None; arbiter_phase := TaskRuns |};
  shutdown_cancelled := false |}.

Definition set_status (s : Status) (p : AgentProcess) : AgentProcess := {|
  slot_status := s; metadata_held := metadata_held p; applicable_holder := applicable_holder p;
  reconciliation := reconciliation p; arbiter := arbiter p;
  shutdown_cancelled := shutdown_cancelled p |}.

Definition set_reconciliation (h : AgentApplicableStateHolder) (r : ReconciliationTask)
    (p : AgentProcess) : AgentProcess := {|
  slot_status := slot_status p; metadata_held := metadata_held p; applicable_holder := h;
  reconciliation := r; arbiter := arbiter p; shutdown_cancelled := shutdown_cancelled p |}.

Definition set_arbiter (a : ArbiterTask) (p : AgentProcess) : AgentProcess := {|
  slot_status := slot_status p; metadata_held := metadata_held p;
  applicable_holder := applicable_holder p; reconciliation := reconciliation p; arbiter := a;
  shutdown_cancelled := shutdown_cancelled p |}.

(** *** Reconciliation *)

Definition phase_reconciliation (phase : TaskPhase) (r : ReconciliationTask) : ReconciliationTask :=
  {| desired_state := desired_state r; is_converted := is_converted r; reconciliation_phase := phase |}.

(** The end of [convert_to_applicable_state]. *)
Definition publish_applicable_state (state : option AgentApplicableState) (p : AgentProcess)
    : AgentProcess * result unit string :=
  let uses := match state with
              | Some state => bool_decide (is_Some (applicable_chat_template_override state))
              | None => false
              end in
  let s := register_fix ModelStateIsReconciled
             (set_uses_chat_template_override uses (slot_status p)) in
  let '(h, r) := set_agent_applicable_state state (applicable_holder p) in
  let converted := match r with Ok _ => true | Err _ => is_converted (reconciliation p) end in
  (set_reconciliation h
     {| desired_state := desired_state (reconciliation p); is_converted := converted;
        reconciliation_phase := reconciliation_phase (reconciliation p) |} (set_status s p), r).

(** [convert_to_applicable_state]; [None] while the conversion waits. *)
Definition convert_to_applicable_state (env : ConversionEnvironment) (p : AgentProcess)
    : AgentProcess * option (result unit string) :=
  match desired_state (reconciliation p) with
  | None => let '(p, r) := publish_applicable_state None p in (p, Some r)
  | Some desired =>
      let '(s, r) := to_applicable_state env desired (slot_status p) in
      let p := set_status s p in
      match r with
      | None => (p, None)
      | Some (Err error) => (p, Some (Err error))
      | Some (Ok state) => let '(p, r) := publish_applicable_state (Some state) p in (p, Some r)
      end
  end.

(** Errors are logged. *)
Definition try_convert_to_applicable_state (env : ConversionEnvironment) (p : AgentProcess)
    : AgentProcess :=
  match convert_to_applicable_state env p with
  | (p, None) =>
      set_reconciliation (applicable_holder p) (phase_reconciliation TaskWaits (reconciliation p)) p
  | (p, Some _) => p
  end.

(** [next] is [None] when the channel is closed. *)
Definition receive_desired_state (env : ConversionEnvironment) (next : option AgentDesiredState)
    (p : AgentProcess) : AgentProcess :=
  match next with
  | None =>
      set_reconciliation (applicable_holder p)
        {| desired_state := desired_state (reconciliation p); is_converted := false;
           reconciliation_phase := TaskStopped |} p
  | Some next =>
      try_convert_to_applicable_state env
        (set_reconciliation (applicable_holder p)
           {| desired_state := Some next; is_converted := false;
              reconciliation_phase := TaskRuns |} p)
  end.

(** *** Applying *)

Record ApplyEnvironment : Type := {
  drain_events : list DrainEvent;
  join_failure : option string;
  thread_environment : ThreadEnvironment;
  parallelism_failure : option string;
  load_cancelled : bool;
  startup_schedule : list bool;
}.

(** The shutdown comes while the state is applied. *)
Definition apply_sees_shutdown (env : ApplyEnvironment) : bool :=
  load_cancelled env
  || existsb (fun event => match event with DrainShutdown => true | _ => false end) (drain_events env).

Definition set_handle (handle : option ContinuousBatchArbiterHandle) (p : AgentProcess) : AgentProcess :=
  set_arbiter {|
    agent_applicable_state := agent_applicable_state (arbiter p);
    reconciled_state := reconciled_state (arbiter p);
    continuous_batch_arbiter_handle := handle;
    arbiter_phase := arbiter_phase (arbiter p) |} p.

Definition put_spawned (s : Status) (m : option ModelMetadata) (p : AgentProcess) : AgentProcess := {|
  slot_status := s; metadata_held := m; applicable_holder := applicable_holder p;
  reconciliation := reconciliation p; arbiter := arbiter p;
  shutdown_cancelled := shutdown_cancelled p |}.

Definition wait_for_in_flight_requests_to_finish (env : ApplyEnvironment) (p : AgentProcess)
    : AgentProcess * option (result unit string) :=
  match continuous_batch_arbiter_handle (arbiter p) with
  | Some _ =>
      let '(s, r) := drain_in_flight_requests (drain_events env) (slot_status p) in
      (set_status s p, r)
  | None => (p, Some (Ok tt))
  end.

(** The handle is gone whatever the join says; the command it sends has no
    other reader than the thread it joins. *)
Definition shutdown_arbiter_handle (env : ApplyEnvironment) (p : AgentProcess)
    : AgentProcess * result unit string :=
  match continuous_batch_arbiter_handle (arbiter p) with
  | None => (p, Ok tt)
  | Some _ =>
      (set_handle None p,
       match join_failure env with
       | Some _ => Err "Arbiter shutdown returned an error"%string
       | None => Ok tt
       end)
  end.

(** The part of [apply_state] that starts a scheduler. *)
Definition start_arbiter (env : ApplyEnvironment) (state : AgentApplicableState) (p : AgentProcess)
    : AgentProcess * option (result unit string) :=
  let p := set_status (reset (slot_status p)) p in
  match build_from_applicable_state state slots devices with
  | NoModelConfigured => (p, Some (Ok tt))
  | ReadyToSpawn a =>
      let '(s, m, r) := spawn (thread_environment env) (parallelism_failure env) (load_cancelled env)
                          (startup_schedule env) a (slot_status p) (metadata_held p) in
      let p := put_spawned s m p in
      match r with
      | None => (p, None)
      | Some (Err error) => (p, Some (Err error))
      | Some (Ok SpawnReady) =>
          (set_handle (Some {| command_tx := chan_new; scheduler_thread_handle := a |}) p, Some (Ok tt))
      | Some (Ok SpawnCancelled) => (p, Some (Ok tt))
      end
  end.

Definition apply_state (env : ApplyEnvironment) (p : AgentProcess)
    : AgentProcess * option (result unit string) :=
  match wait_for_in_flight_requests_to_finish env p with
  | (p, Some (Ok _)) =>
      match shutdown_arbiter_handle env p with
      | (p, Err error) => (p, Some (Err error))
      | (p, Ok _) =>
          match match agent_applicable_state (arbiter p) with
                | Some state => start_arbiter env state p
                | None => (p, Some (Ok tt))
                end with
          | (p, Some (Ok _)) =>
              (set_status (set_state_application_status Applied (slot_status p)) p, Some (Ok tt))
          | unfinished => unfinished
          end
      end
  | unfinished => unfinished
  end.

Definition phase_arbiter (phase : TaskPhase) (p : AgentProcess) : AgentProcess :=
  set_arbiter {|
    agent_applicable_state := agent_applicable_state (arbiter p);
    reconciled_state := reconciled_state (arbiter p);
    continuous_batch_arbiter_handle := continuous_batch_arbiter_handle (arbiter p);
    arbiter_phase := phase |} p.

Definition note_shutdown (seen : bool) (p : AgentProcess) : AgentProcess := {|
  slot_status := slot_status p; metadata_held := metadata_held p;
  applicable_holder := applicable_holder p; reconciliation := reconciliation p;
  arbiter := arbiter p; shutdown_cancelled := shutdown_cancelled p || seen |}.

Definition try_to_apply_state (env : ApplyEnvironment) (p : AgentProcess) : AgentProcess :=
  note_shutdown (apply_sees_shutdown env)
    match apply_state env p with
    | (p, None) => phase_arbiter TaskWaits p
    | (p, Some _) => p
    end.

(** [ticker.tick()] *)
Definition arbiter_tick (env : ApplyEnvironment) (p : AgentProcess) : AgentProcess :=
  match get_state_application_status (slot_status p) with
  | Err _ => phase_arbiter TaskStopped p
  | Ok current_status =>
      if should_try_to_apply current_status then
        try_to_apply_state env
          (set_status (set_state_application_status
             (match current_status with
              | AttemptedAndRetrying => Stuck
              | _ => AttemptedAndRetrying
              end) (slot_status p)) p)
      else p
  end.

(** [reconciled_state.changed()] *)
Definition arbiter_changed (env : ApplyEnvironment) (p : AgentProcess) : AgentProcess :=
  match reconciled_state (arbiter p) with
  | None => p
  | Some rx =>
      if watched_changed (change_notifier (applicable_holder p)) rx then
        let '(rx, state) := watched_borrow_and_update (change_notifier (applicable_holder p)) rx in
        try_to_apply_state env
          (set_status (set_state_application_status Fresh (slot_status p))
             (set_arbiter {|
                agent_applicable_state := state; reconciled_state := Some rx;
                continuous_batch_arbiter_handle := continuous_batch_arbiter_handle (arbiter p);
                arbiter_phase := arbiter_phase (arbiter p) |} p))
      else p
  end.

(** A command without a scheduler is dropped, with the request in it. *)
Definition forward_command (command : Command) (p : AgentProcess) : AgentProcess :=
  match continuous_batch_arbiter_handle (arbiter p) with
  | None => p
  | Some handle =>
      match chan_send (command_tx handle) command with
      | None => p
      | Some tx =>
          set_handle (Some {| command_tx := tx;
                              scheduler_thread_handle := scheduler_thread_handle handle |}) p
      end
  end.

(** *** The process *)

Inductive AgentEvent : Type :=
| ReconciliationTick (env : ConversionEnvironment)
| DesiredStateReceived (env : ConversionEnvironment) (next : option AgentDesiredState)
| ArbiterStarts
| ArbiterTick (env : ApplyEnvironment)
| ArbiterChanged (env : ApplyEnvironment)
| CommandReceived (command : Command)
| ShutdownCancelled
| ReconciliationStops
| ArbiterStops (env : ApplyEnvironment)
| OthersRun (ops : list StatusOp).

Definition reconciliation_runs (p : AgentProcess) : bool :=
  match reconciliation_phase (reconciliation p) with
  | TaskRuns => true
  | _ => false
  end.

Definition reconciliation_stops (p : AgentProcess) : AgentProcess :=
  set_reconciliation (applicable_holder p) (phase_reconciliation TaskStopped (reconciliation p)) p.

(** The arbiter shuts its handle down on its way out, and logs the error. *)
Definition arbiter_stops (env : ApplyEnvironment) (p : AgentProcess) : AgentProcess :=
  phase_arbiter TaskStopped (fst (shutdown_arbiter_handle env p)).

(** The [select!] of the arbiter is biased to the shutdown. *)
Definition arbiter_runs (p : AgentProcess) : bool :=
  match arbiter_phase (arbiter p), reconciled_state (arbiter p) with
  | TaskRuns, Some _ => negb (shutdown_cancelled p)
  | _, _ => false
  end.

Definition arbiter_starts (p : AgentProcess) : AgentProcess :=
  match reconciled_state (arbiter p) with
  | Some _ => p
  | None =>
      let '(notifier, rx) := watched_subscribe (change_notifier (applicable_holder p)) in
      set_arbiter {|
        agent_applicable_state := agent_applicable_state (arbiter p); reconciled_state := Some rx;
        continuous_batch_arbiter_handle := continuous_batch_arbiter_handle (arbiter p);
        arbiter_phase := arbiter_phase (arbiter p) |}
        (set_reconciliation {| held_state := held_state (applicable_holder p);
                               change_notifier := notifier |} (reconciliation p) p)
  end.

Definition agent_step (event : AgentEvent) (p : AgentProcess) : AgentProcess :=
  match event with
  | ReconciliationTick env =>
      if reconciliation_runs p && negb (is_converted (reconciliation p))
      then try_convert_to_applicable_state env p else p
  | DesiredStateReceived env next =>
      if reconciliation_runs p then receive_desired_state env next p else p
  | ArbiterStarts => arbiter_starts p
  | ArbiterTick env => if arbiter_runs p then arbiter_tick env p else p
  | ArbiterChanged env => if arbiter_runs p then arbiter_changed env p else p
  | CommandReceived command => if arbiter_runs p then forward_command command p else p
  | ShutdownCancelled => note_shutdown true p
  | ReconciliationStops =>
      if reconciliation_runs p && shutdown_cancelled p then reconciliation_stops p else p
  | ArbiterStops env =>
      match arbiter_phase (arbiter p) with
      | TaskRuns => if shutdown_cancelled p then arbiter_stops env p else p
      | _ => p
      end
  | OthersRun ops => set_status (run_status_ops ops (slot_status p)) p
  end.

Definition agent_run (events : list AgentEvent) (p : AgentProcess) : AgentProcess :=
  fold_left (fun p event => agent_step event p) events p.
End Process.
