(* ===== verification/AgentArbiterFacts.v ===== *)
(** * The model that runs is the model that is desired

    Facts about [AgentArbiter]: what every run of the agent's two tasks keeps,
    and how the arbiter retries. *)

From S2P Require Import Prelude.
From S2P Require Import Tokio.
From S2P Require Import Messages.
From S2P Require Import AtomicValue.
From S2P Require Import AgentIssues.
From S2P Require Import SlotStatus.
From S2P Require Import AgentController.
From S2P Require Import Downloads.
From S2P Require Import ModelSources.
From S2P Require Import AgentStartup.
From S2P Require Import AgentStartupFacts.
From S2P Require Import AgentArbiter.
Local Open Scope Z_scope.

(** ** The application status is the arbiter's

    No other operation of the agent changes it. *)

Section Code.
Context {sender receiver : Type} `{!WatchChannel sender receiver}.
Local Abbreviation Status := (@SlotAggregatedStatus sender).
Local Abbreviation code := (@state_application_status_code sender).

Definition keeps_code (op : StatusOp) : bool :=
  match op with OpSetStateApplicationStatus _ => false | _ => true end.

Lemma run_status_op_code (op : StatusOp) (s : Status) :
  keeps_code op = true -> code (run_status_op op s) = code s.
Proof.
  destruct op as [| | |issue|fix_| | |c t f| | | | | |]; simpl; try done; intros _.
  - unfold register_issue. by case_decide.
  - unfold register_fix. by case_match.
  - by destruct t.
Qed.

Lemma run_status_ops_code (ops : list StatusOp) (s : Status) :
  Forall (fun op => keeps_code op = true) ops -> code (run_status_ops ops s) = code s.
Proof.
  intros Hops. revert s. induction Hops as [|op ops Hop _ IH]; intros s; [done|].
  unfold run_status_ops in *. simpl. rewrite IH. by apply run_status_op_code.
Qed.

Lemma register_issue_code (issue : AgentIssue) (s : Status) : code (register_issue issue s) = code s.
Proof. by apply (run_status_op_code (OpRegisterIssue issue)). Qed.
Lemma register_fix_code (fix_ : AgentIssueFix) (s : Status) : code (register_fix fix_ s) = code s.
Proof. by apply (run_status_op_code (OpRegisterFix fix_)). Qed.
Lemma set_download_status_code (c : Z) (t : option Z) (f : option string) (s : Status) :
  code (set_download_status c t f s) = code s.
Proof. by apply (run_status_op_code (OpSetDownloadStatus c t f)). Qed.
Lemma report_code (issue : AgentIssue) (s : Status) : code (report issue s) = code s.
Proof. unfold report. by rewrite register_issue_code. Qed.

Lemma sink_events_code (url_string : string) (basename_ : option string) (events : list ProgressEvent)
    (s : Status) :
  code (sink_events url_string basename_ events s) = code s.
Proof.
  unfold sink_events. revert s. induction events as [|event events IH]; intros s; simpl; [done|].
  rewrite IH. destruct event; simpl; by rewrite ?register_fix_code, ?set_download_status_code.
Qed.

Lemma hub_events_code (events : list HubProgress) (s : Status) :
  code (fold_left (fun s event => hub_progress event s) events s) = code s.
Proof.
  revert s. induction events as [|event events IH]; intros s; simpl; [done|].
  rewrite IH. destruct event; simpl; unfold progress_init, progress_update, progress_finish;
    by rewrite ?register_fix_code, ?set_download_status_code.
Qed.

Lemma resolve_desired_model_code (env : ResolutionEnvironment) (desired : AgentDesiredModel) (f : Files)
    (s : Status) :
  code (resolve_desired_model env desired f s).1.1 = code s.
Proof.
  unfold resolve_desired_model, huggingface_resolve, resolve_url_into_cache, download_into_cache.
  repeat (case_match; simplify_eq/=; try done);
    rewrite ?report_code, ?register_issue_code, ?register_fix_code, ?sink_events_code,
      ?hub_events_code; try done.
Qed.

Lemma to_applicable_state_code (env : ConversionEnvironment) (desired : AgentDesiredState) (s : Status) :
  code (to_applicable_state env desired s).1 = code s.
Proof.
  assert (Hpath : forall env f desired issue (s : Status),
    code (resolve_into_optional_path env f desired issue s).1 = code s).
  { clear. intros env f desired issue s. unfold resolve_into_optional_path.
    pose proof (resolve_desired_model_code env desired f s) as Hcode.
    destruct (resolve_desired_model env desired f s) as [[s' f'] r]. simpl in Hcode.
    repeat (case_match; simplify_eq/=; try done). by rewrite register_issue_code. }
  unfold to_applicable_state.
  destruct (resolve_into_optional_path _ _ _ _ s) as [s1 r1] eqn:H1.
  pose proof (Hpath (model_environment env) (model_files env) (Messages.model desired)
    ModelFileDoesNotExist s) as Hs1. rewrite H1 in Hs1. simpl in Hs1.
  destruct r1 as [[path|]|]; try done.
  destruct (resolve_into_optional_path _ _ _ _ s1) as [s2 r2] eqn:H2.
  pose proof (Hpath (projection_environment env) (projection_files env)
    (Messages.multimodal_projection desired) MultimodalProjectionCannotBeLoaded s1) as Hs2.
  rewrite H2 in Hs2. simpl in Hs2. destruct r2 as [[|]|]; simpl; congruence.
Qed.

Definition event_keeps_code (event : ThreadEvent) : Prop :=
  match event with ThreadOp op => keeps_code op = true | _ => True end.

Lemma thread_keeps_code (env : ThreadEnvironment) (a : ContinuousBatchArbiter) :
  Forall event_keeps_code (fst (scheduler_thread env a)).
Proof.
  destruct (thread_shaped env a) as [(first & final & -> & Hfirst & Hfinal) _ _].
  apply Forall_app. split.
  - eapply Forall_impl; [exact Hfirst|]. by intros [[]| | | |].
  - eapply Forall_impl; [exact Hfinal|]. intros [[]| | | |] [? ?]; done.
Qed.

Lemma startup_run_code (a : ContinuousBatchArbiter) (schedule : list bool)
    (y : @StartupState sender) (Htodo : Forall event_keeps_code (todo y)) :
  code (status (startup_run a schedule y)) = code (status y) /\
  Forall event_keeps_code (todo (startup_run a schedule y)).
Proof.
  revert y Htodo. induction schedule as [|[] schedule IH]; intros y Htodo; [done| |].
  - change (startup_run a (true :: schedule) y) with (startup_run a schedule (thread_step y)).
    unfold thread_step. destruct (todo y) as [|event rest] eqn:Hy.
    { apply IH. by rewrite Hy. }
    apply Forall_cons in Htodo as [Hevent Hrest].
    destruct event; simpl; (edestruct IH as [-> ?]; [|split; [|done]]); simpl; try done.
    by apply run_status_op_code.
  - change (startup_run a (false :: schedule) y) with (startup_run a schedule (await_step a y)).
    edestruct (IH (await_step a y)) as [-> ?]; [|split; [|done]]; unfold await_step;
      repeat case_match; simpl; by rewrite ?register_issue_code, ?register_fix_code.
Qed.

Lemma finish_unheard_code (todo_ : list ThreadEvent) (s : Status) (m : option ModelMetadata)
    (Htodo : Forall event_keeps_code todo_) :
  code (finish_unheard todo_ s m).1 = code s.
Proof.
  revert s m. induction Htodo as [|[] todo_ Hevent _ IH]; intros s m; simpl; try done.
  rewrite IH. by apply run_status_op_code.
Qed.

Lemma start_slots_code (n : nat) (s : Status) : code (start_slots n s) = code s.
Proof.
  unfold start_slots. revert s. induction (seq 0 n) as [|i l IH]; intros s; simpl; [done|].
  by rewrite IH, register_fix_code.
Qed.

Lemma spawn_code (env : ThreadEnvironment) (parallelism : option string) (cancelled : bool)
    (schedule : list bool) (a : ContinuousBatchArbiter) (s : Status) (m : option ModelMetadata) :
  code (spawn env parallelism cancelled schedule a s m).1.1 = code s.
Proof.
  unfold spawn. destruct parallelism; [done|].
  destruct (startup_run_code a schedule (startup_initial env a s m) (thread_keeps_code env a))
    as [Hcode Htodo].
  destruct cancelled; [simpl; by rewrite finish_unheard_code|].
  repeat case_match; simpl; rewrite ?start_slots_code; done.
Qed.

Definition drain_keeps_code (event : DrainEvent) : Prop :=
  match event with DrainChanged ops => Forall (fun op => keeps_code op = true) ops | _ => True end.

Lemma drain_code (events : list DrainEvent) (s : Status) (Hevents : Forall drain_keeps_code events) :
  code (drain_in_flight_requests events s).1 = code s.
Proof.
  revert s. induction Hevents as [|[] events Hevent _ IH]; intros s; simpl; case_match; try done.
  rewrite IH. by apply run_status_ops_code.
Qed.
End Code.

(** ** The applicable state of a desired state

    What was asked for, with the path a local model has and none where none
    is desired. *)

Definition path_for (desired : AgentDesiredModel) (path : option string) : Prop :=
  match desired with
  | NoModel => path = None
  | LocalToAgent local_path => path = Some local_path
  | _ => True
  end.

Definition state_for (desired : option AgentDesiredState) (state : option AgentApplicableState) : Prop :=
  match desired, state with
  | None, None => True
  | Some desired, Some state =>
      applicable_chat_template_override state = Messages.chat_template_override desired /\
      applicable_inference_parameters state = Messages.inference_parameters desired /\
      path_for (Messages.model desired) (applicable_model_path state) /\
      path_for (Messages.multimodal_projection desired) (applicable_multimodal_projection_path state)
  | _, _ => False
  end.

Section Facts.
Context {sender receiver : Type} `{!WatchChannel sender receiver}.
Context {chan : Type -> Type} `{!UnboundedChannel chan}.
Context {vsender vreceiver : Type} `{!ValueWatch (option AgentApplicableState) vsender vreceiver}.
Context {Conversation Prompt Embeddings : Type}.
Context (slots : Z) (devices : list Z).
Local Abbreviation Status := (@SlotAggregatedStatus sender).
Local Abbreviation code := (@state_application_status_code sender).
Local Abbreviation Process :=
  (@AgentProcess sender chan vsender vreceiver Conversation Prompt Embeddings).
Local Abbreviation Event := (@AgentEvent Conversation Prompt Embeddings).

Lemma resolve_path_for (env : ResolutionEnvironment) (f : Files) (desired : AgentDesiredModel)
    (issue : ModelPath -> AgentIssue) (s s' : Status) (path : option string)
    (Hresolve : resolve_into_optional_path env f desired issue s = (s', Some (Ok path))) :
  path_for desired path.
Proof.
  unfold resolve_into_optional_path, resolve_desired_model in Hresolve.
  destruct desired; simpl; try done.
  - unfold local_resolve in Hresolve. destruct (local_exists env) as [[]|]; by simplify_eq/=.
  - by simplify_eq/=.
Qed.

Lemma to_applicable_state_for (env : ConversionEnvironment) (desired : AgentDesiredState) (s s' : Status)
    (state : AgentApplicableState)
    (Hconvert : to_applicable_state env desired s = (s', Some (Ok state))) :
  state_for (Some desired) (Some state).
Proof.
  unfold to_applicable_state in Hconvert.
  destruct (resolve_into_optional_path _ _ _ _ s) as [s1 [[path|]|]] eqn:H1; try done.
  destruct (resolve_into_optional_path _ _ _ _ s1) as [s2 [[path2|]|]] eqn:H2; try done.
  simplify_eq/=. split_and!; try done; by eapply resolve_path_for.
Qed.

(** ** What every run keeps *)

(** The scheduler that runs is the one the state calls for. *)
Definition serves (state : option AgentApplicableState)
    (handle : option (@ContinuousBatchArbiterHandle chan Conversation Prompt Embeddings)) : Prop :=
  match state with
  | None => handle = None
  | Some state =>
      match build_from_applicable_state state slots devices with
      | NoModelConfigured => handle = None
      | ReadyToSpawn a => exists h, handle = Some h /\ scheduler_thread_handle h = a
      end
  end.

Definition published (p : Process) : option AgentApplicableState :=
  watched_value (change_notifier (applicable_holder p)).

Definition arbiter_follows (p : Process) : Prop :=
  match reconciled_state (arbiter p) with
  | Some rx =>
      watched_has_receivers (change_notifier (applicable_holder p)) = true /\
      watched_valid (change_notifier (applicable_holder p)) rx /\
      (watched_changed (change_notifier (applicable_holder p)) rx = false ->
       agent_applicable_state (arbiter p) = published p)
  | None =>
      watched_has_receivers (change_notifier (applicable_holder p)) = false /\
      published p = None /\ agent_applicable_state (arbiter p) = None
  end.

Record agent_inv (p : Process) : Prop := {
  inv_converted : is_converted (reconciliation p) = true ->
    state_for (desired_state (reconciliation p)) (published p) /\
    held_state (applicable_holder p) = published p;
  inv_follows : arbiter_follows p;
  inv_applied : code (slot_status p) = status_code Applied ->
    shutdown_cancelled p = true \/
    serves (agent_applicable_state (arbiter p)) (continuous_batch_arbiter_handle (arbiter p));
}.

(** What applying a state leaves alone. *)
Record same_frame (p p' : Process) : Prop := {
  frame_holder : applicable_holder p' = applicable_holder p;
  frame_reconciliation : reconciliation p' = reconciliation p;
  frame_state : agent_applicable_state (arbiter p') = agent_applicable_state (arbiter p);
  frame_receiver : reconciled_state (arbiter p') = reconciled_state (arbiter p);
  frame_shutdown : shutdown_cancelled p' = shutdown_cancelled p;
}.

Lemma same_frame_refl (p : Process) : same_frame p p.
Proof. done. Qed.

Lemma same_frame_trans (p q r : Process) : same_frame p q -> same_frame q r -> same_frame p r.
Proof. intros [] []. split; congruence. Qed.

Lemma same_frame_status (s : Status) (p q : Process) : same_frame p q -> same_frame p (set_status s q).
Proof. by intros []. Qed.

Definition apply_keeps_code (env : ApplyEnvironment) : Prop := Forall drain_keeps_code (drain_events env).

Lemma wait_spec (env : ApplyEnvironment) (p p' : Process) (r : option (result unit string))
    (Henv : apply_keeps_code env)
    (Hwait : wait_for_in_flight_requests_to_finish env p = (p', r)) :
  same_frame p p' /\ code (slot_status p') = code (slot_status p) /\
  continuous_batch_arbiter_handle (arbiter p') = continuous_batch_arbiter_handle (arbiter p).
Proof.
  unfold wait_for_in_flight_requests_to_finish in Hwait.
  destruct (continuous_batch_arbiter_handle (arbiter p)) eqn:Hhandle; simplify_eq/=; [|done].
  pose proof (drain_code (drain_events env) (slot_status p) Henv) as Hcode.
  destruct (drain_in_flight_requests _ _) as [s r']. simplify_eq/=. done.
Qed.

Lemma shutdown_spec (env : ApplyEnvironment) (p p' : Process) (r : result unit string)
    (Hshutdown : shutdown_arbiter_handle env p = (p', r)) :
  same_frame p p' /\ slot_status p' = slot_status p /\
  continuous_batch_arbiter_handle (arbiter p') = None.
Proof.
  unfold shutdown_arbiter_handle in Hshutdown.
  by destruct (continuous_batch_arbiter_handle (arbiter p)) eqn:Hhandle; simplify_eq/=.
Qed.

Lemma start_spec (env : ApplyEnvironment) (state : AgentApplicableState) (p p' : Process)
    (r : option (result unit string))
    (Hhandle : continuous_batch_arbiter_handle (arbiter p) = None)
    (Hstart : start_arbiter slots devices env state p = (p', r)) :
  same_frame p p' /\ code (slot_status p') = code (slot_status p) /\
  (r = Some (Ok tt) -> load_cancelled env = true \/
     serves (Some state) (continuous_batch_arbiter_handle (arbiter p'))).
Proof.
  unfold start_arbiter in Hstart. simpl. unfold serves.
  destruct (build_from_applicable_state state slots devices) as [a|].
  2: { simplify_eq/=. split_and!; try done. by right. }
  match type of Hstart with context [spawn ?e ?pf ?c ?sch a ?s ?m] =>
    pose proof (spawn_code e pf c sch a s m) as Hcode;
    assert (Hready : forall x, spawn e pf c sch a s m = (x, Some (Ok SpawnCancelled)) -> c = true)
      by (intros x; unfold spawn; by repeat (case_match; simplify_eq/=));
    destruct (spawn e pf c sch a s m) as [[s' m'] [[[]|]|]]
  end; simplify_eq/=; split_and!; try done; intros _.
  - right. by eexists.
  - left. by eapply Hready.
Qed.

Lemma apply_state_spec (env : ApplyEnvironment) (p p' : Process) (r : option (result unit string))
    (Henv : apply_keeps_code env) (Happly : apply_state slots devices env p = (p', r)) :
  same_frame p p' /\
  match r with
  | Some (Ok _) =>
      code (slot_status p') = status_code Applied /\
      (load_cancelled env = true \/
       serves (agent_applicable_state (arbiter p')) (continuous_batch_arbiter_handle (arbiter p')))
  | _ => code (slot_status p') = code (slot_status p)
  end.
Proof.
  unfold apply_state in Happly.
  destruct (wait_for_in_flight_requests_to_finish env p) as [p1 [[[]|]|]] eqn:Hwait;
    (apply wait_spec in Hwait as (Hf1 & Hc1 & Hh1); [|done]); simplify_eq/=; try done.
  destruct (shutdown_arbiter_handle env p1) as [p2 [[]|]] eqn:Hshut;
    apply shutdown_spec in Hshut as (Hf2 & Hs2 & Hh2); simplify_eq/=.
  2: { split; [by eapply same_frame_trans|]. by rewrite Hs2. }
  pose proof (same_frame_trans _ _ _ Hf1 Hf2) as Hf12.
  destruct (agent_applicable_state (arbiter p2)) as [state|] eqn:Hstate.
  - destruct (start_arbiter slots devices env state p2) as [p3 [[[]|]|]] eqn:Hstart;
      apply start_spec in Hstart as (Hf3 & Hc3 & Hok); try done; simplify_eq/=.
    + split; [apply same_frame_status; by eapply same_frame_trans|]. split; [done|]. simpl.
      rewrite (frame_state _ _ Hf3), Hstate. by apply Hok.
    + split; [by eapply same_frame_trans|]. by rewrite Hc3, Hs2.
    + split; [by eapply same_frame_trans|]. by rewrite Hc3, Hs2.
  - simplify_eq/=. split; [by apply same_frame_status|]. split; [done|]. simpl. right.
    by rewrite Hstate, Hh2.
Qed.

Lemma agent_inv_new (now : Z) : agent_inv (agent_process_new slots now : Process).
Proof.
  split; simpl; [done| |done]. unfold arbiter_follows, published. simpl.
  by rewrite watched_new_alone, watched_new_value.
Qed.

(** Operations on the status. *)
Lemma agent_inv_status (s : Status) (p : Process) (Hcode : code s = code (slot_status p)) :
  agent_inv p -> agent_inv (set_status s p).
Proof. intros [Hc Hf Ha]. split; [done|done|]. simpl. rewrite Hcode. exact Ha. Qed.

Lemma publish_inv (state : option AgentApplicableState) (p : Process)
    (Hinv : agent_inv p) (Hunconverted : is_converted (reconciliation p) = false)
    (Hfor : state_for (desired_state (reconciliation p)) state) :
  agent_inv (publish_applicable_state state p).1.
Proof.
  destruct Hinv as [_ Hfollows Happlied].
  unfold publish_applicable_state, set_agent_applicable_state.
  destruct (watched_send state (change_notifier (applicable_holder p))) as [notifier|] eqn:Hsend;
    simpl; (split; simpl; [| |rewrite register_fix_code; exact Happlied]).
  - intros _. unfold published. simpl. apply watched_send_some in Hsend as [Hvalue _].
    by rewrite Hvalue.
  - unfold arbiter_follows in *. simpl. destruct (reconciled_state (arbiter p)) as [rx|].
    + destruct Hfollows as (_ & Hvalid & _). apply watched_send_some in Hsend as Hhas.
      destruct (watched_send_changed _ _ _ _ Hsend Hvalid) as [? ->]. by destruct Hhas.
    + destruct Hfollows as (Hnone & _). apply (watched_send_none state) in Hnone. congruence.
  - by rewrite Hunconverted.
  - done.
Qed.

Lemma try_convert_inv (env : ConversionEnvironment) (p : Process)
    (Hinv : agent_inv p) (Hunconverted : is_converted (reconciliation p) = false) :
  agent_inv (try_convert_to_applicable_state env p).
Proof.
  unfold try_convert_to_applicable_state, convert_to_applicable_state.
  destruct (desired_state (reconciliation p)) as [desired|] eqn:Hdesired.
  - pose proof (to_applicable_state_code env desired (slot_status p)) as Hcode.
    destruct (to_applicable_state env desired (slot_status p)) as [s r] eqn:Hconvert. simpl in Hcode.
    pose proof (agent_inv_status s p Hcode Hinv) as Hinv'.
    destruct r as [[state|]|]; [| done |].
    + apply to_applicable_state_for in Hconvert.
      pose proof (publish_inv (Some state) (set_status s p) Hinv') as Hpub. simpl in Hpub.
      rewrite Hdesired in Hpub. specialize (Hpub Hunconverted Hconvert).
      by destruct (publish_applicable_state (Some state) (set_status s p)).
    + destruct Hinv' as [Hc Hf Ha]. split; simpl in *; [by rewrite Hunconverted|done|done].
  - pose proof (publish_inv None p Hinv Hunconverted) as Hpub. rewrite Hdesired in Hpub.
    specialize (Hpub I). by destruct (publish_applicable_state None p).
Qed.

Lemma receive_inv (env : ConversionEnvironment) (next : option AgentDesiredState) (p : Process)
    (Hinv : agent_inv p) :
  agent_inv (receive_desired_state env next p).
Proof.
  destruct Hinv as [Hc Hf Ha]. destruct next as [next|]; simpl; [|by split].
  by apply try_convert_inv.
Qed.

(** The invariant without the running scheduler, while a state is applied. *)
Lemma try_to_apply_inv (env : ApplyEnvironment) (p : Process) (Henv : apply_keeps_code env)
    (Hconverted : is_converted (reconciliation p) = true ->
      state_for (desired_state (reconciliation p)) (published p) /\
      held_state (applicable_holder p) = published p)
    (Hfollows : arbiter_follows p)
    (Hcode : code (slot_status p) <> status_code Applied) :
  agent_inv (try_to_apply_state slots devices env p).
Proof.
  unfold try_to_apply_state.
  destruct (apply_state slots devices env p) as [p' r] eqn:Happly.
  apply apply_state_spec in Happly as [[Hh Hr Hs Hx Hsd] Hresult]; [|done].
  assert (Hsplit : forall q : Process, applicable_holder q = applicable_holder p' ->
    reconciliation q = reconciliation p' ->
    agent_applicable_state (arbiter q) = agent_applicable_state (arbiter p') ->
    reconciled_state (arbiter q) = reconciled_state (arbiter p') ->
    (code (slot_status q) = status_code Applied -> shutdown_cancelled q = true \/
       serves (agent_applicable_state (arbiter q)) (continuous_batch_arbiter_handle (arbiter q))) ->
    agent_inv q).
  { intros q E1 E2 E3 E4 E5. split; [| |exact E5]; unfold arbiter_follows, published in *;
      rewrite ?E1, ?E2, ?E3, ?E4, ?Hh, ?Hr, ?Hs, ?Hx; done. }
  destruct r as [[[]|]|]; simpl; apply Hsplit; simpl; try done;
    try (intros Hzero; destruct Hcode; by rewrite <- Hresult).
  destruct Hresult as [_ [Hcancelled|?]]; intros _; [left|by right].
  unfold apply_sees_shutdown. rewrite Hcancelled. by rewrite orb_true_r.
Qed.

(** What the rest of the agent does to the status. *)
Definition event_keeps_status (event : Event) : Prop :=
  match event with
  | ArbiterTick env | ArbiterChanged env => apply_keeps_code env
  | OthersRun ops => Forall (fun op => keeps_code op = true) ops
  | _ => True
  end.

Lemma agent_step_inv (event : Event) (p : Process) (Hevent : event_keeps_status event)
    (Hinv : agent_inv p) :
  agent_inv (agent_step slots devices event p).
Proof.
  pose proof Hinv as [Hc Hf Ha].
  destruct event as [env|env next| |env|env|command| | |env|ops]; simpl in *.
  - destruct (is_converted (reconciliation p)) eqn:E; rewrite ?andb_false_r; [done|].
    case_match; [by apply try_convert_inv|done].
  - case_match; [by apply receive_inv|done].
  - unfold arbiter_starts. unfold arbiter_follows in Hf.
    destruct (reconciled_state (arbiter p)) eqn:Hrx; [done|].
    destruct (watched_subscribe _) as [notifier rx] eqn:Hsub.
    apply watched_subscribe_new in Hsub as (Hvalue & Hhas & Hvalid & Hchanged).
    destruct Hf as (_ & Hnone & Hstate). unfold published in *.
    split; simpl; unfold arbiter_follows, published; simpl; rewrite ?Hvalue; try done.
    split_and!; try done. intros _. congruence.
  - case_match; [|done]. unfold arbiter_tick.
    destruct (get_state_application_status (slot_status p)) as [status|]; [|by split].
    case_match; [|done]. apply try_to_apply_inv; try done.
    simpl. by destruct status.
  - case_match; [|done]. unfold arbiter_changed.
    destruct (reconciled_state (arbiter p)) as [rx|] eqn:Hrx; [|done].
    case_match; [|done].
    destruct (watched_borrow_and_update _ rx) as [rx' state] eqn:Hupdate.
    unfold arbiter_follows in Hf. rewrite Hrx in Hf. destruct Hf as (Hhas & Hvalid & _).
    apply watched_update_seen in Hupdate as (-> & Hvalid' & Hseen); [|done].
    apply try_to_apply_inv; try done.
  - case_match; [|done]. unfold forward_command.
    destruct (continuous_batch_arbiter_handle (arbiter p)) as [handle|] eqn:Hhandle; [|done].
    destruct (chan_send _ _); [|done]. split; [done|done|]. simpl. intros Happlied.
    destruct (Ha Happlied) as [?|Hserves]; [by left|right]. unfold serves in *.
    destruct (agent_applicable_state (arbiter p)) as [state|]; [|done].
    destruct (build_from_applicable_state _ _ _); [|done].
    destruct Hserves as (h & [= ->] & ?). by eexists.
  - split; simpl; [done|done|]. intros _. left. by rewrite orb_true_r.
  - case_match; [|done]. by split.
  - case_match; [|done..]. destruct (shutdown_cancelled p) eqn:Hshut; [|done].
    unfold arbiter_stops, shutdown_arbiter_handle.
    destruct (continuous_batch_arbiter_handle (arbiter p)); simpl; split; simpl; auto.
  - apply agent_inv_status; [|done]. by apply run_status_ops_code.
Qed.

Lemma agent_run_inv (events : list Event) (p : Process) (Hevents : Forall event_keeps_status events)
    (Hinv : agent_inv p) :
  agent_inv (agent_run slots devices events p).
Proof.
  revert p Hinv. induction Hevents as [|event events Hevent _ IH]; intros p Hinv; [done|].
  apply IH. by apply agent_step_inv.
Qed.

(** What the invariant says of a process that has nothing left to do. *)
Lemma settled_serves (p : Process) (rx : vreceiver) (Hinv : agent_inv p) :
  is_converted (reconciliation p) = true ->
  reconciled_state (arbiter p) = Some rx ->
  watched_changed (change_notifier (applicable_holder p)) rx = false ->
  get_state_application_status (slot_status p) = Ok Applied ->
  shutdown_cancelled p = false ->
  exists state, state_for (desired_state (reconciliation p)) state /\
    serves state (continuous_batch_arbiter_handle (arbiter p)).
Proof.
  intros Hconverted Hrx Hseen Hstatus Hshutdown.
  destruct Hinv as [Hc Hf Ha]. destruct (Hc Hconverted) as [Hfor _].
  unfold arbiter_follows in Hf. rewrite Hrx in Hf. destruct Hf as (_ & _ & Hfollows).
  exists (agent_applicable_state (arbiter p)). rewrite (Hfollows Hseen) at 1. split; [done|].
  destruct Ha as [?|?]; [|congruence|done].
  unfold get_state_application_status, status_try_from in Hstatus.
  destruct (Z.eqb_spec (state_application_status_code (slot_status p)) 0); [done|].
  by repeat case_match; simplify_eq/=.
Qed.

(** An agent that is settled runs what it was asked to run: in every run
    of its tasks from the start, once the desired state is converted, the
    arbiter has seen what was published, and its status says applied, the
    scheduler that serves requests was started for an applicable state of the
    last desired state, and there is none exactly when that has no model. *)
Theorem settled_agent_runs_desired (now : Z) (events : list Event) (rx : vreceiver)
    (Hevents : Forall event_keeps_status events) :
  let p : Process := agent_run slots devices events (agent_process_new slots now) in
  is_converted (reconciliation p) = true ->
  reconciled_state (arbiter p) = Some rx ->
  watched_changed (change_notifier (applicable_holder p)) rx = false ->
  get_state_application_status (slot_status p) = Ok Applied ->
  shutdown_cancelled p = false ->
  exists state, state_for (desired_state (reconciliation p)) state /\
    serves state (continuous_batch_arbiter_handle (arbiter p)).
Proof.
  intros p. apply settled_serves. apply agent_run_inv; [done|apply agent_inv_new].
Qed.

(** ** How the arbiter retries *)

(** The arbiter retries until it succeeds: a tick leaves an applied state
    alone; otherwise it applies the state again, and the status is applied if
    and only if that succeeded, else it alternates between retrying and
    stuck. *)
Theorem arbiter_tick_status (env : ApplyEnvironment) (p : Process)
    (current : AgentStateApplicationStatus) (Henv : apply_keeps_code env)
    (Hcurrent : get_state_application_status (slot_status p) = Ok current) :
  let attempted := match current with AttemptedAndRetrying => Stuck | _ => AttemptedAndRetrying end in
  let p' := arbiter_tick slots devices env p in
  if should_try_to_apply current then
    get_state_application_status (slot_status p')
    = Ok (match (apply_state slots devices env
                   (set_status (set_state_application_status attempted (slot_status p)) p)).2 with
          | Some (Ok _) => Applied
          | _ => attempted
          end)
  else p' = p.
Proof.
  simpl. unfold arbiter_tick. rewrite Hcurrent.
  destruct (should_try_to_apply current); [|done].
  unfold try_to_apply_state.
  set (attempted := match current with AttemptedAndRetrying => Stuck | _ => AttemptedAndRetrying end).
  destruct (apply_state _ _ env _) as [p' r] eqn:Happly.
  apply apply_state_spec in Happly as [_ Hresult]; [|done].
  unfold get_state_application_status.
  destruct r as [[]|]; simpl; [destruct Hresult as [-> _]; done| |];
    rewrite Hresult; by destruct current.
Qed.

(** What a start needs to succeed. *)
Record can_start (env : ApplyEnvironment) (a : ContinuousBatchArbiter) : Prop := {
  start_joins : join_failure env = None;
  start_parallel : parallelism_failure env = None;
  start_kept : load_cancelled env = false;
  start_slots_fit : is_Some (try_u32 (arbiter_desired_slots_total a));
  start_thread : snd (scheduler_thread (thread_environment env) a) = None;
}.

(** The schedule runs until the task has all its answers. *)
Definition schedule_ends (env : ApplyEnvironment) (a : ContinuousBatchArbiter) (s : Status)
    (m : option ModelMetadata) : Prop :=
  exists r, phase (startup_run a (startup_schedule env)
    (startup_initial (thread_environment env) a s m)) = StartupEnded r.

Lemma spawn_succeeds (env : ApplyEnvironment) (a : ContinuousBatchArbiter) (s : Status)
    (m : option ModelMetadata) (Hs : issues s = ∅) (Hstart : can_start env a)
    (Hends : schedule_ends env a s m) :
  exists s' m', spawn (thread_environment env) (parallelism_failure env) (load_cancelled env)
    (startup_schedule env) a s m = (s', m', Some (Ok SpawnReady)).
Proof.
  destruct Hstart as [_ Hparallel Hkept [slots' Hslots] Hthread]. destruct Hends as [r Hended].
  assert (Hok : is_ok r = true).
  { destruct (startup_result (thread_environment env) a s m (startup_schedule env) r Hs Hended)
      as [_ <-]. by rewrite Hthread. }
  unfold spawn. rewrite Hparallel, Hkept, Hended, Hslots.
  destruct r as [[]|]; [by eexists _, _|done].
Qed.

Lemma receive_spec (env : ConversionEnvironment) (desired : AgentDesiredState) (p : Process)
    (s : Status) (state : AgentApplicableState) (rx : vreceiver)
    (Hinv : agent_inv p) (Hrx : reconciled_state (arbiter p) = Some rx)
    (Hconvert : to_applicable_state env desired (slot_status p) = (s, Some (Ok state))) :
  let p' := receive_desired_state env (Some desired) p in
  arbiter p' = arbiter p /\ shutdown_cancelled p' = shutdown_cancelled p /\
  is_converted (reconciliation p') = true /\ desired_state (reconciliation p') = Some desired /\
  published p' = Some state /\
  watched_valid (change_notifier (applicable_holder p')) rx /\
  watched_changed (change_notifier (applicable_holder p')) rx = true.
Proof.
  destruct Hinv as [_ Hf _]. unfold arbiter_follows in Hf. rewrite Hrx in Hf.
  destruct Hf as (Hhas & Hvalid & _).
  unfold receive_desired_state, try_convert_to_applicable_state, convert_to_applicable_state.
  cbn -[to_applicable_state register_fix]. rewrite Hconvert.
  unfold publish_applicable_state, set_agent_applicable_state. simpl.
  destruct (watched_send (Some state) (change_notifier (applicable_holder p))) as [notifier|] eqn:Hsend.
  2: { apply (watched_send_none (Some state)) in Hsend. congruence. }
  destruct (watched_send_changed _ _ _ _ Hsend Hvalid) as [Hvalid' Hchanged].
  apply watched_send_some in Hsend as [Hvalue _]. by split_and!.
Qed.

(** What starting the scheduler of a state needs. *)
Definition state_starts (env : ApplyEnvironment) (state : AgentApplicableState) (p : Process) : Prop :=
  load_cancelled env = false /\
  match build_from_applicable_state state slots devices with
  | NoModelConfigured => join_failure env = None
  | ReadyToSpawn a => can_start env a /\ schedule_ends env a (reset (slot_status p)) (metadata_held p)
  end.

Lemma apply_succeeds (env : ApplyEnvironment) (p : Process) (state : AgentApplicableState)
    (Hidle : slots_processing (slot_status p) = 0)
    (Hstate : agent_applicable_state (arbiter p) = Some state)
    (Hstarts : state_starts env state p) :
  exists p', apply_state slots devices env p = (p', Some (Ok tt)).
Proof.
  assert (Hwait : wait_for_in_flight_requests_to_finish env p = (p, Some (Ok tt))
    \/ exists q, wait_for_in_flight_requests_to_finish env p = (q, Some (Ok tt)) /\
         slot_status q = slot_status p /\ metadata_held q = metadata_held p /\ arbiter q = arbiter p).
  { unfold wait_for_in_flight_requests_to_finish.
    destruct (continuous_batch_arbiter_handle (arbiter p)); [right|by left].
    assert (Hdrain : drain_in_flight_requests (drain_events env) (slot_status p)
      = (slot_status p, Some (Ok tt))).
    { destruct (drain_events env); simpl; unfold slots_processing_count; by rewrite Hidle. }
    rewrite Hdrain. by eexists. }
  assert (Hcommon : exists q, wait_for_in_flight_requests_to_finish env p = (q, Some (Ok tt)) /\
    slot_status q = slot_status p /\ metadata_held q = metadata_held p /\ arbiter q = arbiter p)
    by (destruct Hwait as [->|(q & -> & ?)]; by eexists).
  destruct Hcommon as (q & Hq & Hs & Hm & Ha). unfold apply_state. rewrite Hq.
  assert (Hjoin : join_failure env = None).
  { destruct Hstarts as [_ Hstarts]. destruct (build_from_applicable_state _ _ _); [|done].
    by destruct Hstarts as [[] _]. }
  assert (Hshut : exists q', shutdown_arbiter_handle env q = (q', Ok tt) /\
    slot_status q' = slot_status p /\ metadata_held q' = metadata_held p /\
    agent_applicable_state (arbiter q') = Some state).
  { unfold shutdown_arbiter_handle. rewrite Hjoin.
    destruct (continuous_batch_arbiter_handle (arbiter q)); eexists; (split; [done|]); simpl;
      split_and!; congruence. }
  destruct Hshut as (q' & -> & Hs' & Hm' & ->). unfold start_arbiter. simpl.
  destruct Hstarts as [_ Hstarts].
  destruct (build_from_applicable_state _ _ _) as [a|]; [|by eexists].
  destruct Hstarts as [Hstart Hends]. rewrite Hs', Hm'.
  destruct (spawn_succeeds env a (reset (slot_status p)) (metadata_held p) eq_refl Hstart Hends)
    as (s' & m' & ->). by eexists.
Qed.

(** C20. A desired state takes effect: when an agent that runs receives one
    whose models resolve and start, and no request is in flight, then after
    one step of each task it is marked converted, the status says applied, and
    the scheduler that runs is the one of the new state, whatever the agent
    ran before. *)
Theorem desired_state_takes_effect (now : Z) (events : list Event) (cenv : ConversionEnvironment)
    (aenv : ApplyEnvironment) (desired : AgentDesiredState) (state : AgentApplicableState) (s : Status)
    (Hevents : Forall event_keeps_status events) (Henv : apply_keeps_code aenv) :
  let p : Process := agent_run slots devices events (agent_process_new slots now) in
  let p1 := agent_step slots devices (DesiredStateReceived cenv (Some desired)) p in
  let p2 := agent_step slots devices (ArbiterChanged aenv) p1 in
  reconciliation_runs p = true -> arbiter_runs p = true ->
  to_applicable_state cenv desired (slot_status p) = (s, Some (Ok state)) ->
  slots_processing (slot_status p1) = 0 ->
  state_starts aenv state (set_status (set_state_application_status Fresh (slot_status p1)) p1) ->
  is_converted (reconciliation p2) = true /\ desired_state (reconciliation p2) = Some desired /\
  get_state_application_status (slot_status p2) = Ok Applied /\
  serves (Some state) (continuous_batch_arbiter_handle (arbiter p2)).
Proof.
  intros p p1 p2 Hrec Harb Hconvert Hidle Hstarts.
  assert (Hinv : agent_inv p) by (apply agent_run_inv; [done|apply agent_inv_new]).
  assert (Hrx : exists rx, reconciled_state (arbiter p) = Some rx).
  { unfold arbiter_runs in Harb. destruct (arbiter_phase _), (reconciled_state (arbiter p)); try done.
    by eexists. }
  destruct Hrx as [rx Hrx].
  assert (Hp1 : p1 = receive_desired_state cenv (Some desired) p) by (unfold p1; simpl; by rewrite Hrec).
  destruct (receive_spec cenv desired p s state rx Hinv Hrx Hconvert)
    as (Earb & Eshut & Econv & Edes & Epub & Hvalid & Hchanged).
  rewrite <- Hp1 in *. unfold p2. simpl.
  assert (Harb1 : arbiter_runs p1 = true) by (unfold arbiter_runs in *; by rewrite Earb, Eshut).
  rewrite Harb1. unfold arbiter_changed. rewrite Earb, Hrx, Hchanged.
  destruct (watched_borrow_and_update _ rx) as [rx' v] eqn:Hupdate.
  apply watched_update_seen in Hupdate as (-> & _ & _); [|done].
  unfold try_to_apply_state.
  match goal with |- context [apply_state slots devices aenv ?q] =>
    destruct (apply_succeeds aenv q state) as [p' Happly];
      [exact Hidle|exact Epub|exact Hstarts|]; rewrite Happly
  end.
  apply apply_state_spec in Happly as [[_ Hr Hs _ _] [Hcode Hserves]]; [|done].
  simpl in *. rewrite Hr, Econv, Edes. unfold get_state_application_status. simpl. rewrite Hcode.
  split_and!; try done. destruct Hstarts as [Hkept _]. destruct Hserves as [?|Hserves]; [congruence|].
  rewrite Hs in Hserves. fold (published p1) in Hserves. by rewrite Epub in Hserves.
Qed.
End Facts.

(** ** A request that waits behind a drain

    A request takes its slot when it arrives, before the arbiter forwards it;
    the arbiter that drains forwards nothing. *)

Inductive DrainTurn : Type :=
| RequestArrives
| RequestFinishes
| StatusChanges (op : StatusOp).

Definition turn_ops (turn : DrainTurn) : list StatusOp :=
  match turn with
  | RequestArrives => [OpTakeSlot]
  | RequestFinishes => [OpReleaseSlot]
  | StatusChanges op => [op]
  end.

(** Only the [active] requests of the scheduler can finish. *)
Fixpoint turns_possible (active : nat) (turns : list DrainTurn) : Prop :=
  match turns with
  | [] => True
  | RequestArrives :: rest => turns_possible active rest
  | RequestFinishes :: rest =>
      match active with O => False | S active => turns_possible active rest end
  | StatusChanges op :: rest => touches_slots op = false /\ turns_possible active rest
  end.

(** An agent can wait for ever to apply a new state: while a request waits
    in a channel of the arbiter, the requests the scheduler finishes never
    bring the slots in use to zero, so draining does not end whatever happens
    short of a shutdown. *)
Theorem drain_waits_for_queued_request {sender receiver : Type} `{!WatchChannel sender receiver}
    (turns : list DrainTurn) (active waiting : nat) (s : @SlotAggregatedStatus sender)
    (Hwaiting : (0 < waiting)%nat)
    (Hslots : slots_processing s = Z.of_nat (active + waiting))
    (Hbound : Z.of_nat (active + waiting + length turns) <= i32_max)
    (Hpossible : turns_possible active turns) :
  (drain_in_flight_requests (map (fun turn => DrainChanged (turn_ops turn)) turns) s).2 = None.
Proof.
  revert active waiting s Hwaiting Hslots Hbound Hpossible.
  induction turns as [|turn turns IH]; intros active waiting s Hwaiting Hslots Hbound Hpossible; simpl;
    unfold slots_processing_count; rewrite (proj2 (Z.ltb_lt 0 _)) by lia; [done|].
  unfold run_status_ops. simpl in Hbound. destruct turn as [| |op]; simpl in *.
  - apply (IH active (S waiting)); [lia| |lia|done]. simpl.
    rewrite Hslots, i32_increment_small; unfold i32_min, i32_max in *; lia.
  - destruct active as [|active]; [done|].
    apply (IH active waiting); [lia| |lia|done]. simpl.
    rewrite Hslots, i32_decrement_small; unfold i32_min, i32_max in *; lia.
  - destruct Hpossible as [Hop Hpossible].
    apply (IH active waiting); [lia| |lia|done]. by rewrite run_status_op_slots.
Qed.

(** ** An agent that is given a local model *)

Definition sample_resolution : ResolutionEnvironment := {|
  hub_environment := {| api := Ok tt; cached_path := fun _ _ => None; hub_events := [];
                        hub_download := HubCancelled |};
  local_exists := Ok true;
  url_environment := example_environment |}.

Definition sample_conversion : ConversionEnvironment := {|
  model_environment := sample_resolution; model_files := {| partial := None; final := None |};
  projection_environment := sample_resolution;
  projection_files := {| partial := None; final := None |} |}.

Definition sample_desired : AgentDesiredState := {|
  Messages.chat_template_override := None;
  Messages.inference_parameters := inference_parameters_default;
  Messages.model := LocalToAgent "model.gguf"; Messages.multimodal_projection := NoModel |}.

Definition working_environment : ThreadEnvironment := {|
  backend_failure := None; devices_failure := None; model_failure := None;
  model_metadata := Ok []; model_chat_template := Ok "x"%string; renderer_failure := fun _ => None;
  projection_failure := None; piece_failure := None; context_failure := None |}.

Definition sample_apply : ApplyEnvironment := {|
  drain_events := []; join_failure := None; thread_environment := working_environment;
  parallelism_failure := None; load_cancelled := false;
  startup_schedule := replicate 9 true ++ replicate 3 false |}.

Local Abbreviation SampleProcess :=
  (@AgentProcess nat QueueChannel (WatchedValue (option AgentApplicableState)) nat unit unit unit).

Definition sample_events : list (@AgentEvent unit unit unit) :=
  [ArbiterStarts; DesiredStateReceived sample_conversion (Some sample_desired);
   ArbiterChanged sample_apply].

Lemma settled_agent_runs_desired_witness :
  let p : SampleProcess := agent_run 2 [] sample_events (agent_process_new 2 0) in
  exists state, state_for (Some sample_desired) state /\
    serves 2 [] state (continuous_batch_arbiter_handle (arbiter p)).
Proof.
  intros p.
  assert (Hdesired : desired_state (reconciliation p) = Some sample_desired)
    by (vm_compute; reflexivity).
  rewrite <- Hdesired.
  apply (settled_agent_runs_desired 2 [] 0 sample_events 1%nat);
    [repeat constructor|vm_compute; reflexivity..].
Defined.

Lemma arbiter_tick_status_witness :
  let p : SampleProcess := agent_run 2 [] [ArbiterStarts] (agent_process_new 2 0) in
  get_state_application_status (slot_status (arbiter_tick 2 [] sample_apply p)) = Ok Applied.
Proof.
  pose proof (arbiter_tick_status 2 [] sample_apply
    (agent_run 2 [] [ArbiterStarts] (agent_process_new 2 0) : SampleProcess) Fresh
    ltac:(constructor) eq_refl) as H.
  exact H.
Defined.

Lemma desired_state_takes_effect_witness :
  let p2 : SampleProcess := agent_run 2 [] sample_events (agent_process_new 2 0) in
  get_state_application_status (slot_status p2) = Ok Applied /\
  desired_state (reconciliation p2) = Some sample_desired.
Proof.
  edestruct (desired_state_takes_effect (vreceiver := nat)
    (vsender := WatchedValue (option AgentApplicableState)) (sender := nat) (chan := QueueChannel)
    2 [] 0 [ArbiterStarts : @AgentEvent unit unit unit]
    sample_conversion sample_apply sample_desired) as (_ & Hdesired & Happlied & _);
    [repeat constructor|constructor|reflexivity|reflexivity|reflexivity|reflexivity| |].
  - split; [reflexivity|]. split; [split; try reflexivity; eexists; reflexivity|].
    eexists. vm_compute. reflexivity.
  - split; [exact Happlied|exact Hdesired].
Defined.

Lemma drain_waits_for_queued_request_witness :
  (drain_in_flight_requests
     (map (fun turn => DrainChanged (turn_ops turn)) [RequestArrives; RequestFinishes])
     (slot_guard_new (slot_guard_new (status_new 0 4 : @SlotAggregatedStatus nat)))).2 = None.
Proof.
  apply (drain_waits_for_queued_request _ 1 1); [lia|reflexivity|vm_compute; discriminate|exact I].
Defined.
