(* ===== verification/AgentSocket.v ===== *)
(** * The agent's end of the management socket

    [management_socket_client_service.rs], [receive_stream_stopper_collection.rs],
    [receive_stream_stopper_drop_guard.rs] and the [FromRequestParams] of the
    three requests, for one connection: the loop that reads the socket, the
    task that writes it, and a forwarding task per request.  The events of a
    run say which task moves next and what the runtime answers it. *)

From S2P Require Import Prelude.
From S2P Require Import Tokio.
From S2P Require Import Messages.
From S2P Require Import Requests.
From S2P Require Import AgentIssues.
From S2P Require Import SlotStatus.
From S2P Require Import AgentController.
From S2P Require Import AgentStartup.
Local Open Scope Z_scope.

Inductive ReceiveStreamStopOutcome : Type := RequestAlreadyFinished | StopSignalled.

Section AgentSocket.
Context `{JsonTypes} `{LlamaTypes} {chan : Type -> Type} `{!UnboundedChannel chan}.
Context {sender receiver : Type} `{!WatchChannel sender receiver}.
(** [serde_json::from_str] of a message of the balancer. *)
Context (from_str : string -> result AgentMessage string).
Local Abbreviation Status := (@SlotAggregatedStatus sender).

(** ** Messages of an agent *)

Inductive AgentResponse : Type :=
| ResponseChatTemplateOverride (chat_template : option ChatTemplate)
| ResponseEmbedding (embedding_result : EmbeddingResult)
| ResponseGeneratedToken (generated_token_result : GeneratedTokenResult)
| ResponseModelMetadata (model_metadata : option ModelMetadata).

Inductive ManagementNotification : Type :=
| DeregisterAgent
| RegisterAgent (name : option string) (snapshot : Snapshot.SlotAggregatedStatusSnapshot)
| UpdateAgentStatus (snapshot : Snapshot.SlotAggregatedStatusSnapshot).

Inductive ManagementMessage : Type :=
| ManagementError (envelope : ErrorEnvelope JsonRpcError)
| ManagementNotificationMessage (notification : ManagementNotification)
| ManagementResponse (envelope : ResponseEnvelope AgentResponse).

Definition response_to (id : string) (response : AgentResponse) : ManagementMessage :=
  ManagementResponse {| generated_by := None; response_request_id := id;
                        Messages.response := response |}.

(** ** State *)

(** The receiving half of the responses of a request, by their type, and
    whether the request still holds the sending half. *)
Inductive ResponseChannel : Type :=
| TokenChannel (channel : chan GeneratedTokenResult)
| EmbeddingChannel (channel : chan EmbeddingResult).

(** A request: its response and stop channels, and whether its forwarding
    task runs. *)
Record ResponseStream : Type := {
  stream_request_id : string;
  response_rx : ResponseChannel;
  response_tx_held : bool;
  stop_channel : chan unit;
  forwarding : bool;
}.

(** [TRequest]: the parameters, the stream it answers on, and its slot guard,
    which the status counts. *)
Record SchedulerRequest (Params : Type) : Type := {
  request_params : Params;
  request_stream : nat;
}.
Arguments Build_SchedulerRequest {Params} _ _.

(** The loop that reads; past it, [DeregisterAgent] is still to be sent. *)
Inductive LoopPhase : Type := InLoop | PastLoop | LoopGone.

Record AgentSocket : Type := {
  receive_stoppers : gmap string nat;
  streams : gmap nat ResponseStream;
  next_stream : nat;
  continue_from_conversation_history_request_tx :
    chan (SchedulerRequest (ContinueFromConversationHistoryParams ValidatedParametersSchema));
  continue_from_raw_prompt_request_tx : chan (SchedulerRequest ContinueFromRawPromptParams);
  generate_embedding_batch_request_tx : chan (SchedulerRequest GenerateEmbeddingBatchParams);
  agent_desired_state_tx : chan AgentDesiredState;
  message_tx : chan ManagementMessage;
  pong_tx : chan string;
  written : list ManagementMessage;
  connection_close : bool;
  socket_status : Status;
  chat_template_applied : option AgentApplicableState;
  model_metadata_held : option ModelMetadata;
  loop_phase : LoopPhase;
}.

Definition put_stoppers (x : gmap string nat) (y : AgentSocket) : AgentSocket :=
  Build_AgentSocket x (streams y) (next_stream y)
    (continue_from_conversation_history_request_tx y) (continue_from_raw_prompt_request_tx y)
    (generate_embedding_batch_request_tx y) (agent_desired_state_tx y) (message_tx y) (pong_tx y)
    (written y) (connection_close y) (socket_status y) (chat_template_applied y)
    (model_metadata_held y) (loop_phase y).
Definition put_streams (x : gmap nat ResponseStream) (y : AgentSocket) : AgentSocket :=
  Build_AgentSocket (receive_stoppers y) x (next_stream y)
    (continue_from_conversation_history_request_tx y) (continue_from_raw_prompt_request_tx y)
    (generate_embedding_batch_request_tx y) (agent_desired_state_tx y) (message_tx y) (pong_tx y)
    (written y) (connection_close y) (socket_status y) (chat_template_applied y)
    (model_metadata_held y) (loop_phase y).
Definition put_next_stream (x : nat) (y : AgentSocket) : AgentSocket :=
  Build_AgentSocket (receive_stoppers y) (streams y) x
    (continue_from_conversation_history_request_tx y) (continue_from_raw_prompt_request_tx y)
    (generate_embedding_batch_request_tx y) (agent_desired_state_tx y) (message_tx y) (pong_tx y)
    (written y) (connection_close y) (socket_status y) (chat_template_applied y)
    (model_metadata_held y) (loop_phase y).
Definition put_conversation_tx
    (x : chan (SchedulerRequest (ContinueFromConversationHistoryParams ValidatedParametersSchema)))
    (y : AgentSocket) : AgentSocket :=
  Build_AgentSocket (receive_stoppers y) (streams y) (next_stream y) x
    (continue_from_raw_prompt_request_tx y)
    (generate_embedding_batch_request_tx y) (agent_desired_state_tx y) (message_tx y) (pong_tx y)
    (written y) (connection_close y) (socket_status y) (chat_template_applied y)
    (model_metadata_held y) (loop_phase y).
Definition put_raw_prompt_tx (x : chan (SchedulerRequest ContinueFromRawPromptParams))
    (y : AgentSocket) : AgentSocket :=
  Build_AgentSocket (receive_stoppers y) (streams y) (next_stream y)
    (continue_from_conversation_history_request_tx y) x
    (generate_embedding_batch_request_tx y) (agent_desired_state_tx y) (message_tx y) (pong_tx y)
    (written y) (connection_close y) (socket_status y) (chat_template_applied y)
    (model_metadata_held y) (loop_phase y).
Definition put_embedding_tx (x : chan (SchedulerRequest GenerateEmbeddingBatchParams))
    (y : AgentSocket) : AgentSocket :=
  Build_AgentSocket (receive_stoppers y) (streams y) (next_stream y)
    (continue_from_conversation_history_request_tx y) (continue_from_raw_prompt_request_tx y)
    x (agent_desired_state_tx y) (message_tx y) (pong_tx y)
    (written y) (connection_close y) (socket_status y) (chat_template_applied y)
    (model_metadata_held y) (loop_phase y).
Definition put_desired_state_tx (x : chan AgentDesiredState) (y : AgentSocket) : AgentSocket :=
  Build_AgentSocket (receive_stoppers y) (streams y) (next_stream y)
    (continue_from_conversation_history_request_tx y) (continue_from_raw_prompt_request_tx y)
    (generate_embedding_batch_request_tx y) x (message_tx y) (pong_tx y)
    (written y) (connection_close y) (socket_status y) (chat_template_applied y)
    (model_metadata_held y) (loop_phase y).
Definition put_message_tx (x : chan ManagementMessage) (y : AgentSocket) : AgentSocket :=
  Build_AgentSocket (receive_stoppers y) (streams y) (next_stream y)
    (continue_from_conversation_history_request_tx y) (continue_from_raw_prompt_request_tx y)
    (generate_embedding_batch_request_tx y) (agent_desired_state_tx y) x (pong_tx y)
    (written y) (connection_close y) (socket_status y) (chat_template_applied y)
    (model_metadata_held y) (loop_phase y).
Definition put_pong_tx (x : chan string) (y : AgentSocket) : AgentSocket :=
  Build_AgentSocket (receive_stoppers y) (streams y) (next_stream y)
    (continue_from_conversation_history_request_tx y) (continue_from_raw_prompt_request_tx y)
    (generate_embedding_batch_request_tx y) (agent_desired_state_tx y) (message_tx y) x
    (written y) (connection_close y) (socket_status y) (chat_template_applied y)
    (model_metadata_held y) (loop_phase y).
Definition put_written (x : list ManagementMessage) (y : AgentSocket) : AgentSocket :=
  Build_AgentSocket (receive_stoppers y) (streams y) (next_stream y)
    (continue_from_conversation_history_request_tx y) (continue_from_raw_prompt_request_tx y)
    (generate_embedding_batch_request_tx y) (agent_desired_state_tx y) (message_tx y) (pong_tx y)
    x (connection_close y) (socket_status y) (chat_template_applied y)
    (model_metadata_held y) (loop_phase y).
Definition put_connection_close (x : bool) (y : AgentSocket) : AgentSocket :=
  Build_AgentSocket (receive_stoppers y) (streams y) (next_stream y)
    (continue_from_conversation_history_request_tx y) (continue_from_raw_prompt_request_tx y)
    (generate_embedding_batch_request_tx y) (agent_desired_state_tx y) (message_tx y) (pong_tx y)
    (written y) x (socket_status y) (chat_template_applied y)
    (model_metadata_held y) (loop_phase y).
Definition put_socket_status (x : Status) (y : AgentSocket) : AgentSocket :=
  Build_AgentSocket (receive_stoppers y) (streams y) (next_stream y)
    (continue_from_conversation_history_request_tx y) (continue_from_raw_prompt_request_tx y)
    (generate_embedding_batch_request_tx y) (agent_desired_state_tx y) (message_tx y) (pong_tx y)
    (written y) (connection_close y) x (chat_template_applied y)
    (model_metadata_held y) (loop_phase y).
Definition put_loop_phase (x : LoopPhase) (y : AgentSocket) : AgentSocket :=
  Build_AgentSocket (receive_stoppers y) (streams y) (next_stream y)
    (continue_from_conversation_history_request_tx y) (continue_from_raw_prompt_request_tx y)
    (generate_embedding_batch_request_tx y) (agent_desired_state_tx y) (message_tx y) (pong_tx y)
    (written y) (connection_close y) (socket_status y) (chat_template_applied y)
    (model_metadata_held y) x.

(** ** [ReceiveStreamStopperCollection] *)

Definition deregister_stopper (request_id : string) (y : AgentSocket) : AgentSocket * result unit string :=
  match receive_stoppers y !! request_id with
  | Some _ => (put_stoppers (delete request_id (receive_stoppers y)) y, Ok tt)
  | None => (y, Err ("No stopper found for request_id " +:+ request_id)%string)
  end.

Definition register_stopper (request_id : string) (stream : nat) (y : AgentSocket)
    : AgentSocket * result unit string :=
  match receive_stoppers y !! request_id with
  | Some _ => (y, Err ("Stopper for request_id " +:+ request_id +:+ " already exists")%string)
  | None => (put_stoppers (<[request_id := stream]> (receive_stoppers y)) y, Ok tt)
  end.

(** The drop of [ReceiveStreamStopperDropGuard] logs the error. *)
Definition drop_stopper_guard (request_id : string) (y : AgentSocket) : AgentSocket :=
  fst (deregister_stopper request_id y).

Definition put_stop_channel (c : chan unit) (s : ResponseStream) : ResponseStream :=
  {| stream_request_id := stream_request_id s; response_rx := response_rx s;
     response_tx_held := response_tx_held s; stop_channel := c; forwarding := forwarding s |}.

Definition stop (request_id : string) (y : AgentSocket)
    : AgentSocket * result ReceiveStreamStopOutcome string :=
  match receive_stoppers y !! request_id with
  | None => (y, Ok RequestAlreadyFinished)
  | Some n =>
      match streams y !! n with
      | None => (y, Err "channel closed"%string)
      | Some s =>
          match chan_send (stop_channel s) tt with
          | None => (y, Err "channel closed"%string)
          | Some c => (put_streams (<[n := put_stop_channel c s]> (streams y)) y, Ok StopSignalled)
          end
      end
  end.

(** ** Requests *)

Definition new_stream (id : string) (rx : ResponseChannel) : ResponseStream :=
  {| stream_request_id := id; response_rx := rx; response_tx_held := true;
     stop_channel := chan_new; forwarding := true |}.

(** [generate_responses] up to the [spawn]; [request_tx] and [put_tx] are the
    channel of the kind of request.  [from_request_params] takes the slot
    guard; a request that cannot be sent is dropped with it. *)
Definition generate_responses {Params : Type} (id : string) (params : Params) (rx : ResponseChannel)
    (request_tx : AgentSocket -> chan (SchedulerRequest Params))
    (put_tx : chan (SchedulerRequest Params) -> AgentSocket -> AgentSocket)
    (y : AgentSocket) : AgentSocket * result unit string :=
  let n := next_stream y in
  match register_stopper id n y with
  | (y, Err error) => (y, Err error)
  | (y, Ok _) =>
      let y := put_socket_status (slot_guard_new (socket_status y)) y in
      match chan_send (request_tx y) {| request_params := params; request_stream := n |} with
      | None =>
          (drop_stopper_guard id
             (put_socket_status (slot_guard_drop (socket_status y)) y), Err "channel closed"%string)
      | Some tx =>
          (put_next_stream (S n) (put_streams (<[n := new_stream id rx]> (streams y)) (put_tx tx y)),
           Ok tt)
      end
  end.

Definition send_message (message : ManagementMessage) (y : AgentSocket) : AgentSocket * result unit string :=
  match chan_send (message_tx y) message with
  | Some tx => (put_message_tx tx y, Ok tt)
  | None => (y, Err "channel closed"%string)
  end.

Definition handle_deserialized_message (message : AgentMessage) (y : AgentSocket)
    : AgentSocket * result unit string :=
  match message with
  | AgentMessageError _ => (y, Ok tt)
  | AgentMessageNotification (SetState desired_state) =>
      match chan_send (agent_desired_state_tx y) desired_state with
      | Some tx => (put_desired_state_tx tx y, Ok tt)
      | None => (y, Err "channel closed"%string)
      end
  | AgentMessageNotification (StopRespondingTo request_id) =>
      match stop request_id y with
      | (y, Ok _) => (y, Ok tt)
      | (y, Err error) => (y, Err error)
      end
  | AgentMessageNotification (Version _) => (y, Ok tt)
  | AgentMessageRequest envelope =>
      let id := request_envelope_id envelope in
      match request envelope with
      | RequestContinueFromConversationHistory params =>
          generate_responses id params (TokenChannel chan_new)
            continue_from_conversation_history_request_tx put_conversation_tx y
      | RequestContinueFromRawPrompt params =>
          generate_responses id params (TokenChannel chan_new)
            continue_from_raw_prompt_request_tx put_raw_prompt_tx y
      | RequestGenerateEmbeddingBatch params =>
          generate_responses id params (EmbeddingChannel chan_new)
            generate_embedding_batch_request_tx put_embedding_tx y
      | RequestGetChatTemplateOverride =>
          send_message (response_to id (ResponseChatTemplateOverride
            (match chat_template_applied y with
             | Some state => applicable_chat_template_override state
             | None => None
             end))) y
      | RequestGetModelMetadata =>
          send_message (response_to id (ResponseModelMetadata (model_metadata_held y))) y
      end
  end.

(** A message of the websocket library. *)
Inductive WebSocketMessage : Type :=
| WsText (text : string)
| WsBinary
| WsClose
| WsFrame
| WsPing (payload : string)
| WsPong.

Definition handle_incoming_message (message : WebSocketMessage) (y : AgentSocket)
    : AgentSocket * result unit string :=
  match message with
  | WsText text =>
      match from_str text with
      | Err _ => (y, Ok tt)
      | Ok message => (fst (handle_deserialized_message message y), Ok tt)
      end
  | WsPing payload =>
      match chan_send (pong_tx y) payload with
      | Some tx => (put_pong_tx tx y, Ok tt)
      | None => (y, Err "channel closed"%string)
      end
  | WsBinary | WsClose | WsFrame | WsPong => (y, Ok tt)
  end.

(** ** The task that forwards the responses of a request *)

Definition response_recv (rx : ResponseChannel) : option (AgentResponse * ResponseChannel) :=
  match rx with
  | TokenChannel c =>
      match chan_try_recv c with
      | Some (r, c) => Some (ResponseGeneratedToken r, TokenChannel c)
      | None => None
      end
  | EmbeddingChannel c =>
      match chan_try_recv c with
      | Some (r, c) => Some (ResponseEmbedding r, EmbeddingChannel c)
      | None => None
      end
  end.

Definition response_drop (rx : ResponseChannel) : ResponseChannel :=
  match rx with
  | TokenChannel c => TokenChannel (chan_drop_receiver c)
  | EmbeddingChannel c => EmbeddingChannel (chan_drop_receiver c)
  end.

Definition put_response_rx (rx : ResponseChannel) (s : ResponseStream) : ResponseStream :=
  {| stream_request_id := stream_request_id s; response_rx := rx;
     response_tx_held := response_tx_held s; stop_channel := stop_channel s;
     forwarding := forwarding s |}.

(** The end of the task: the guard, the receiver and the stopper go. *)
Definition end_forwarding (n : nat) (s : ResponseStream) (y : AgentSocket) : AgentSocket :=
  drop_stopper_guard (stream_request_id s)
    (put_streams (<[n := {| stream_request_id := stream_request_id s;
                            response_rx := response_drop (response_rx s);
                            response_tx_held := response_tx_held s;
                            stop_channel := stop_channel s; forwarding := false |}]> (streams y)) y).

(** Which branch of the [select!] the task takes. *)
Inductive ForwardTurn : Type := SeesClose | Receives.

Definition forward_response_turn (n : nat) (turn : ForwardTurn) (y : AgentSocket) : AgentSocket :=
  match streams y !! n with
  | Some s =>
      if forwarding s then
        match turn with
        | SeesClose => if connection_close y then end_forwarding n s y else y
        | Receives =>
            match response_recv (response_rx s) with
            | Some (response, rx) =>
                let s := put_response_rx rx s in
                match send_message (response_to (stream_request_id s) response)
                        (put_streams (<[n := s]> (streams y)) y) with
                | (y, Ok _) => y
                | (y, Err _) => end_forwarding n s y
                end
            | None => if response_tx_held s then y else end_forwarding n s y
            end
        end
      else y
  | None => y
  end.

(** ** The request at the scheduler *)

(** A send of the request's response half; it fails once the forwarding task
    is gone. *)
Inductive SchedulerResponse : Type :=
| SendsToken (result_ : GeneratedTokenResult)
| SendsEmbedding (result_ : EmbeddingResult).

Definition response_send (r : SchedulerResponse) (rx : ResponseChannel) : option ResponseChannel :=
  match r, rx with
  | SendsToken r, TokenChannel c => TokenChannel <$> chan_send c r
  | SendsEmbedding r, EmbeddingChannel c => EmbeddingChannel <$> chan_send c r
  | _, _ => None
  end.

Definition scheduler_sends (n : nat) (r : SchedulerResponse) (y : AgentSocket) : AgentSocket :=
  match streams y !! n with
  | Some s =>
      if response_tx_held s then
        match response_send r (response_rx s) with
        | Some rx => put_streams (<[n := put_response_rx rx s]> (streams y)) y
        | None => y
        end
      else y
  | None => y
  end.

(** The request is dropped: its sending half, its stop receiver and its slot
    guard. *)
Definition scheduler_drops (n : nat) (y : AgentSocket) : AgentSocket :=
  match streams y !! n with
  | Some s =>
      if response_tx_held s then
        put_socket_status (slot_guard_drop (socket_status y))
          (put_streams (<[n := {| stream_request_id := stream_request_id s;
                                  response_rx := response_rx s; response_tx_held := false;
                                  stop_channel := chan_drop_receiver (stop_channel s);
                                  forwarding := forwarding s |}]> (streams y)) y)
      else y
  | None => y
  end.

(** ** The task that writes the socket *)

Inductive WriteOutcome : Type := WriteOk | SerializationFailed | WriteFailed.

(** The task ends, and both its receivers go. *)
Definition end_writer (y : AgentSocket) : AgentSocket :=
  put_pong_tx (chan_drop_receiver (pong_tx y))
    (put_message_tx (chan_drop_receiver (message_tx y)) y).

(** One message of [message_rx], while the task runs; a write that fails ends
    it. *)
Definition write_turn (outcome : WriteOutcome) (y : AgentSocket) : AgentSocket :=
  if chan_receiver_alive (message_tx y) then
    match chan_try_recv (message_tx y) with
    | None => y
    | Some (message, rx) =>
        let y := put_message_tx rx y in
        match outcome with
        | WriteOk => put_written (written y ++ [message]) y
        | SerializationFailed => y
        | WriteFailed => end_writer y
        end
    end
  else y.

(** A pong that cannot be written is only logged. *)
Definition pong_turn (y : AgentSocket) : AgentSocket :=
  if chan_receiver_alive (pong_tx y) then
    match chan_try_recv (pong_tx y) with
    | Some (_, rx) => put_pong_tx rx y
    | None => y
    end
  else y.

(** The flush once the connection is closed; [fuel] is the number of messages
    that are pending. *)
Fixpoint flush_messages (fuel : nat) (outcomes : nat -> WriteOutcome) (y : AgentSocket) : AgentSocket :=
  match fuel with
  | O => end_writer y
  | S fuel =>
      match outcomes fuel with
      | WriteFailed => write_turn WriteFailed y
      | outcome => flush_messages fuel outcomes (write_turn outcome y)
      end
  end.

Definition writer_sees_close (outcomes : nat -> WriteOutcome) (y : AgentSocket) : AgentSocket :=
  if connection_close y && chan_receiver_alive (message_tx y)
  then flush_messages (length (chan_pending (message_tx y))) outcomes y else y.

(** ** The connection *)

Definition do_send_status_update (now : Z) (y : AgentSocket) : AgentSocket :=
  match status_make_snapshot now (socket_status y) with
  | Ok snapshot => fst (send_message (ManagementNotificationMessage (UpdateAgentStatus snapshot)) y)
  | Err _ => y
  end.

(** The start of [keep_connection_alive] once it is connected. *)
Definition register_agent (name : option string) (now : Z) (y : AgentSocket)
    : AgentSocket * result unit string :=
  match status_make_snapshot now (socket_status y) with
  | Ok snapshot =>
      (fst (send_message (ManagementNotificationMessage (RegisterAgent name snapshot)) y), Ok tt)
  | Err error => (y, Err error)
  end.

(** The end of [keep_connection_alive], past the loop. *)
Definition leave_connection (y : AgentSocket) : AgentSocket :=
  match loop_phase y with
  | PastLoop =>
      put_loop_phase LoopGone
        (put_connection_close true
           (fst (send_message (ManagementNotificationMessage DeregisterAgent) y)))
  | _ => y
  end.

(** What the runtime does next.  The loop stops when it reads an error or the
    end of the stream, at a shutdown, or when the status channel closes. *)
Inductive SocketEvent : Type :=
| Reads (message : WebSocketMessage)
| ReadsEnd
| SeesShutdown
| StatusUpdated (now : Z)
| Ticks (now : Z)
| Leaves
| Forwards (n : nat) (turn : ForwardTurn)
| SchedulerSends (n : nat) (response : SchedulerResponse)
| SchedulerDrops (n : nat)
| Writes (outcome : WriteOutcome)
| WritesPong
| WriterCloses (outcomes : nat -> WriteOutcome)
| StatusRuns (ops : list StatusOp).

Definition in_loop (f : AgentSocket -> AgentSocket) (y : AgentSocket) : AgentSocket :=
  match loop_phase y with InLoop => f y | _ => y end.

Definition socket_step (event : SocketEvent) (y : AgentSocket) : AgentSocket :=
  match event with
  | Reads message => in_loop (fun y => fst (handle_incoming_message message y)) y
  | ReadsEnd => in_loop (fun y => put_loop_phase PastLoop (put_connection_close true y)) y
  | SeesShutdown => in_loop (put_loop_phase PastLoop) y
  | Leaves => leave_connection y
  | StatusUpdated now | Ticks now => in_loop (do_send_status_update now) y
  | Forwards n turn => forward_response_turn n turn y
  | SchedulerSends n response => scheduler_sends n response y
  | SchedulerDrops n => scheduler_drops n y
  | Writes outcome => write_turn outcome y
  | WritesPong => pong_turn y
  | WriterCloses outcomes => writer_sees_close outcomes y
  | StatusRuns ops => put_socket_status (run_status_ops ops (socket_status y)) y
  end.

Definition socket_run (events : list SocketEvent) (y : AgentSocket) : AgentSocket :=
  fold_left (fun y event => socket_step event y) events y.
End AgentSocket.
