(* ===== verification/AgentSocketFacts.v ===== *)
(** * What the agent's end of the socket promises

    Facts about [AgentSocket]: the stoppers are the requests being forwarded,
    a stop reaches its request alone, and responses are forwarded in order. *)

From S2P Require Import Prelude.
From S2P Require Import Tokio.
From S2P Require Import Messages.
From S2P Require Import Requests.
From S2P Require Import AgentIssues.
From S2P Require Import SlotStatus.
From S2P Require Import AgentController.
From S2P Require Import AgentStartup.
From S2P Require Import AgentSocket.
Local Open Scope Z_scope.

Section Facts.
Context `{JsonTypes} `{LlamaTypes} {chan : Type -> Type} `{!UnboundedChannel chan}.
Context {sender receiver : Type} `{!WatchChannel sender receiver}.
Context (from_str : string -> result AgentMessage string).
Local Abbreviation Socket := (@AgentSocket _ _ chan sender).

(** ** Stoppers *)

Definition forwards (y : Socket) (n : nat) (id : string) : Prop :=
  exists s, streams y !! n = Some s /\ forwarding s = true /\ stream_request_id s = id.

Record stoppers_inv (y : Socket) : Prop := {
  stoppers_exact (id : string) (n : nat) : receive_stoppers y !! id = Some n <-> forwards y n id;
  streams_fresh (n : nat) : (next_stream y <= n)%nat -> streams y !! n = None;
}.

(** The parts of the state the stoppers speak of. *)
Lemma stoppers_inv_frame (y y' : Socket) :
  receive_stoppers y' = receive_stoppers y -> streams y' = streams y ->
  next_stream y' = next_stream y -> stoppers_inv y -> stoppers_inv y'.
Proof. intros E1 E2 E3 [Hx Hf]. split; unfold forwards in *; rewrite ?E1, ?E2, ?E3; done. Qed.

(** A change of a stream that keeps its request and its task. *)
Lemma stoppers_inv_update (y : Socket) (n : nat) (s s' : ResponseStream)
    (Hs : streams y !! n = Some s) (Hid : stream_request_id s' = stream_request_id s)
    (Hforwarding : forwarding s' = forwarding s) (Hinv : stoppers_inv y) :
  stoppers_inv (put_streams (<[n := s']> (streams y)) y).
Proof.
  destruct Hinv as [Hx Hf]. split; simpl.
  - intros id m. rewrite Hx. unfold forwards. simpl.
    destruct (decide (m = n)) as [->|Hne].
    + rewrite lookup_insert_eq, Hs. split; intros (s0 & [= <-] & Ha & Hb).
      * exists s'. split_and!; congruence.
      * exists s. split_and!; congruence.
    + by rewrite lookup_insert_ne.
  - intros m Hm. rewrite lookup_insert_ne; [by apply Hf|]. intros <-. rewrite Hf in Hs; done.
Qed.

Lemma end_forwarding_inv (y : Socket) (n : nat) (s : ResponseStream)
    (Hs : streams y !! n = Some s) (Hforwarding : forwarding s = true) (Hinv : stoppers_inv y) :
  stoppers_inv (end_forwarding n s y).
Proof.
  destruct Hinv as [Hx Hf]. unfold end_forwarding, drop_stopper_guard, deregister_stopper. simpl.
  assert (Hn : receive_stoppers y !! stream_request_id s = Some n) by (apply Hx; by exists s).
  rewrite Hn. simpl. split; simpl.
  - intros id m. unfold forwards. simpl. destruct (decide (m = n)) as [->|Hne].
    + rewrite lookup_insert_eq. split; [|by intros (s0 & [= <-] & ? & _)].
      intros [Hid Hm]%lookup_delete_Some. apply Hx in Hm as (s0 & Hs0 & _ & Hid0). congruence.
    + rewrite lookup_insert_ne by done. rewrite lookup_delete_Some, Hx. unfold forwards.
      split; [by intros [_ ?]|]. intros Hm. split; [|done]. intros Hid.
      assert (receive_stoppers y !! id = Some m) by (by apply Hx). congruence.
  - intros m Hm. rewrite lookup_insert_ne; [by apply Hf|]. intros <-. rewrite Hf in Hs; done.
Qed.

Lemma generate_responses_inv {Params : Type} (id : string) (params : Params) (rx : ResponseChannel)
    (request_tx : Socket -> chan (SchedulerRequest Params))
    (put_tx : chan (SchedulerRequest Params) -> Socket -> Socket) (y : Socket)
    (Hput : forall tx y, receive_stoppers (put_tx tx y) = receive_stoppers y /\
      streams (put_tx tx y) = streams y /\ next_stream (put_tx tx y) = next_stream y)
    (Hinv : stoppers_inv y) :
  stoppers_inv (generate_responses id params rx request_tx put_tx y).1.
Proof.
  unfold generate_responses, register_stopper.
  destruct (receive_stoppers y !! id) as [k|] eqn:Hid; [done|].
  destruct Hinv as [Hx Hf]. destruct (chan_send _ _) as [tx|]; simpl.
  - match goal with |- context [put_tx tx ?q] => destruct (Hput tx q) as (E1 & E2 & E3) end.
    simpl in *. split; simpl.
    + intros id' m. unfold forwards. simpl. rewrite E1. simpl.
      destruct (decide (m = next_stream y)) as [->|Hne].
      * rewrite lookup_insert_eq. split.
        -- intros [[-> _]|[_ Hm]]%lookup_insert_Some; [by exists (new_stream id' rx)|].
           apply Hx in Hm as (s0 & Hs0 & _). by rewrite Hf in Hs0.
        -- intros (s0 & [= <-] & _ & Hid0). simpl in Hid0. subst id'. by rewrite lookup_insert_eq.
      * rewrite lookup_insert_Some, (lookup_insert_ne (streams y)) by done. rewrite Hx. unfold forwards.
        split; [intros [[_ ?]|[_ ?]]; [by subst|done]|]. intros Hm. right. split; [|done].
        intros <-. assert (receive_stoppers y !! id = Some m) by (by apply Hx). congruence.
    + intros m Hm. rewrite lookup_insert_ne by lia. apply Hf. lia.
  - unfold drop_stopper_guard, deregister_stopper. simpl. rewrite lookup_insert_eq. simpl.
    apply (stoppers_inv_frame y); simpl; try done. by rewrite delete_insert_id.
Qed.

Lemma send_message_inv (message : ManagementMessage) (y : Socket) :
  stoppers_inv y -> stoppers_inv (send_message message y).1.
Proof.
  unfold send_message. destruct (chan_send _ _); [|done]. by apply stoppers_inv_frame.
Qed.

Lemma send_message_streams (message : ManagementMessage) (y : Socket) :
  streams (send_message message y).1 = streams y.
Proof. unfold send_message. by destruct (chan_send _ _). Qed.

Lemma stop_inv (id : string) (y : Socket) : stoppers_inv y -> stoppers_inv (stop id y).1.
Proof.
  intros Hinv. unfold stop. destruct (receive_stoppers y !! id) as [n|]; [|done].
  destruct (streams y !! n) as [s|] eqn:Hs; [|done].
  destruct (chan_send _ _); [|done]. by apply (stoppers_inv_update y n s).
Qed.

Lemma handle_message_inv (message : AgentMessage) (y : Socket) (Hinv : stoppers_inv y) :
  stoppers_inv (handle_deserialized_message message y).1.
Proof.
  destruct message as [|[]|[id []]]; simpl; try done.
  - destruct (chan_send _ _); [|done]. by apply (stoppers_inv_frame y).
  - pose proof (stop_inv id y Hinv). by destruct (stop id y) as [? []].
  - by apply generate_responses_inv.
  - by apply generate_responses_inv.
  - by apply generate_responses_inv.
  - by apply send_message_inv.
  - by apply send_message_inv.
Qed.

Lemma handle_incoming_inv (message : WebSocketMessage) (y : Socket) (Hinv : stoppers_inv y) :
  stoppers_inv (handle_incoming_message from_str message y).1.
Proof.
  destruct message as [text| | | |payload|]; simpl; try done.
  - destruct (from_str text); [by apply handle_message_inv|done].
  - destruct (chan_send _ _); [|done]. by apply (stoppers_inv_frame y).
Qed.

Lemma forward_turn_inv (n : nat) (turn : ForwardTurn) (y : Socket) (Hinv : stoppers_inv y) :
  stoppers_inv (forward_response_turn n turn y).
Proof.
  unfold forward_response_turn. destruct (streams y !! n) as [s|] eqn:Hs; [|done].
  destruct (forwarding s) eqn:Hforwarding; [|done]. destruct turn.
  - destruct (connection_close y); [by apply end_forwarding_inv|done].
  - destruct (response_recv (response_rx s)) as [[response rx]|].
    + set (s' := put_response_rx rx s).
      set (y' := put_streams (<[n:=s']> (streams y)) y).
      assert (Hinv' : stoppers_inv y') by by apply (stoppers_inv_update y n s).
      pose proof (send_message_inv (response_to (stream_request_id s) response) y' Hinv') as Hsent.
      pose proof (send_message_streams (response_to (stream_request_id s) response) y') as Hstreams.
      destruct (send_message _ y') as [y'' []]; simpl in *; [done|].
      apply end_forwarding_inv; [|done|done]. rewrite Hstreams. apply lookup_insert_eq.
    + destruct (response_tx_held s); [done|by apply end_forwarding_inv].
Qed.

Lemma write_turn_frame (outcome : WriteOutcome) (y : Socket) :
  receive_stoppers (write_turn outcome y) = receive_stoppers y /\
  streams (write_turn outcome y) = streams y /\ next_stream (write_turn outcome y) = next_stream y.
Proof.
  unfold write_turn. destruct (chan_receiver_alive _); [|done].
  destruct (chan_try_recv _) as [[message rx]|]; [|done]. by destruct outcome.
Qed.

Lemma flush_frame (fuel : nat) (outcomes : nat -> WriteOutcome) (y : Socket) :
  receive_stoppers (flush_messages fuel outcomes y) = receive_stoppers y /\
  streams (flush_messages fuel outcomes y) = streams y /\
  next_stream (flush_messages fuel outcomes y) = next_stream y.
Proof.
  revert y. induction fuel as [|fuel IH]; intros y; simpl; [done|].
  destruct (outcomes fuel) eqn:E; [| |apply write_turn_frame].
  - destruct (IH (write_turn WriteOk y)) as (-> & -> & ->). apply write_turn_frame.
  - destruct (IH (write_turn SerializationFailed y)) as (-> & -> & ->). apply write_turn_frame.
Qed.

Lemma socket_step_inv (event : SocketEvent) (y : Socket) (Hinv : stoppers_inv y) :
  stoppers_inv (socket_step from_str event y).
Proof.
  assert (Hloop : forall f : Socket -> Socket, stoppers_inv (f y) -> stoppers_inv (in_loop f y))
    by (intros f Hf; unfold in_loop; by destruct (loop_phase y)).
  destruct event as [message| | |now|now| |n turn|n r|n|outcome| |outcomes|ops]; simpl.
  - apply Hloop. by apply handle_incoming_inv.
  - apply Hloop. by apply (stoppers_inv_frame y).
  - apply Hloop. by apply (stoppers_inv_frame y).
  - apply Hloop. unfold do_send_status_update. case_match; [by apply send_message_inv|done].
  - apply Hloop. unfold do_send_status_update. case_match; [by apply send_message_inv|done].
  - unfold leave_connection. destruct (loop_phase y); try done.
    by apply (stoppers_inv_frame (send_message (ManagementNotificationMessage DeregisterAgent) y).1),
      send_message_inv.
  - by apply forward_turn_inv.
  - unfold scheduler_sends. destruct (streams y !! n) as [s|] eqn:Hs; [|done].
    destruct (response_tx_held s); [|done]. destruct (response_send r (response_rx s)); [|done].
    by apply (stoppers_inv_update y n s).
  - unfold scheduler_drops. destruct (streams y !! n) as [s|] eqn:Hs; [|done].
    destruct (response_tx_held s); [|done].
    match goal with |- stoppers_inv (put_socket_status _ ?q) => apply (stoppers_inv_frame q) end; try done.
    by apply (stoppers_inv_update y n s).
  - destruct (write_turn_frame outcome y) as (? & ? & ?). by apply (stoppers_inv_frame y).
  - unfold pong_turn. destruct (chan_receiver_alive _); [|done].
    destruct (chan_try_recv _) as [[]|]; [by apply (stoppers_inv_frame y)|done].
  - unfold writer_sees_close. case_match; [|done].
    destruct (flush_frame (length (chan_pending (message_tx y))) outcomes y) as (? & ? & ?).
    by apply (stoppers_inv_frame y).
  - by apply (stoppers_inv_frame y).
Qed.

Lemma socket_run_inv (events : list SocketEvent) (y : Socket) (Hinv : stoppers_inv y) :
  stoppers_inv (socket_run from_str events y).
Proof.
  revert y Hinv. induction events as [|event events IH]; intros y Hinv; [done|].
  apply IH. by apply socket_step_inv.
Qed.

(** A connection on which nothing was read yet. *)
Definition quiet (y : Socket) : Prop := receive_stoppers y = ∅ /\ streams y = ∅.

Lemma quiet_inv (y : Socket) : quiet y -> stoppers_inv y.
Proof.
  intros [Hx Hs]. split; unfold forwards; rewrite ?Hx, ?Hs; [|done].
  intros id n. rewrite lookup_empty. split; [done|]. by intros (s & ? & _).
Qed.

(** A stop reaches exactly the request it names: after any run of the
    agent's end of the socket, a stop for a request that is being forwarded,
    and whose scheduler still listens, adds one signal to its channel and
    touches no other stream; a stop for any other id changes nothing. *)
Theorem stop_reaches_its_request (events : list SocketEvent) (y0 : Socket) (id : string)
    (Hquiet : quiet y0) :
  let y := socket_run from_str events y0 in
  let '(y', r) := stop id y in
  (forall n, forwards y n id ->
     (forall m, m <> n -> streams y' !! m = streams y !! m) /\
     exists s, streams y !! n = Some s /\
       match r with
       | Ok outcome =>
           outcome = StopSignalled /\
           exists s', streams y' !! n = Some s' /\
             chan_pending (stop_channel s') = chan_pending (stop_channel s) ++ [tt] /\
             response_rx s' = response_rx s
       | Err _ => y' = y /\ chan_receiver_alive (stop_channel s) = false
       end) /\
  ((forall n, ~ forwards y n id) -> y' = y /\ r = Ok RequestAlreadyFinished).
Proof.
  intros y. pose proof (socket_run_inv events y0 (quiet_inv y0 Hquiet)) as [Hx _]. fold y in Hx.
  unfold stop. destruct (receive_stoppers y !! id) as [n|] eqn:Hn.
  - destruct (proj1 (Hx id n) Hn) as (s & Hs & Hforwarding & Hid). rewrite Hs.
    assert (Hunique : forall m, forwards y m id -> m = n) by (intros m ?%Hx; congruence).
    destruct (chan_send (stop_channel s) tt) as [c|] eqn:Hsend; (split; [intros m ->%Hunique|]).
    + split; [intros m Hm; simpl; by rewrite lookup_insert_ne|].
      exists s. split; [done|]. split; [done|]. exists (put_stop_channel c s). simpl.
      rewrite lookup_insert_eq. apply chan_send_some in Hsend as [? _]. done.
    + intros Hnone. destruct (Hnone n). by exists s.
    + split; [done|]. exists s. split; [done|]. split; [done|]. by apply (chan_send_none _ tt).
    + intros Hnone. destruct (Hnone n). by exists s.
  - split; [|done]. intros n Hforwards%Hx. congruence.
Qed.

(** ** Responses *)

Definition answer (id : string) (message : ManagementMessage) : option AgentResponse :=
  match message with
  | ManagementResponse e =>
      if bool_decide (response_request_id e = id) then Some (Messages.response e) else None
  | _ => None
  end.

Definition answers (id : string) (messages : list ManagementMessage) : list AgentResponse :=
  omap (answer id) messages.

(** Everything that was or will be written, while the writer runs. *)
Definition outbox (y : Socket) : list ManagementMessage :=
  written y ++ (if chan_receiver_alive (message_tx y) then chan_pending (message_tx y) else []).

Definition pending_responses (rx : @ResponseChannel _ chan) : list AgentResponse :=
  match rx with
  | TokenChannel c => ResponseGeneratedToken <$> chan_pending c
  | EmbeddingChannel c => ResponseEmbedding <$> chan_pending c
  end.

Definition response_alive (rx : @ResponseChannel _ chan) : bool :=
  match rx with
  | TokenChannel c => chan_receiver_alive c
  | EmbeddingChannel c => chan_receiver_alive c
  end.

Definition sent_response (r : SchedulerResponse) : AgentResponse :=
  match r with
  | SendsToken r => ResponseGeneratedToken r
  | SendsEmbedding r => ResponseEmbedding r
  end.

(** What the scheduler manages to send on stream [n] with an event. *)
Definition sent_by (n : nat) (event : SocketEvent) (y : Socket) : list AgentResponse :=
  match event with
  | SchedulerSends m r =>
      if bool_decide (m = n) then
        match streams y !! n with
        | Some s =>
            if response_tx_held s && bool_decide (is_Some (response_send r (response_rx s)))
            then [sent_response r] else []
        | None => []
        end
      else []
  | _ => []
  end.

Fixpoint sent_in_run (n : nat) (events : list SocketEvent) (y : Socket) : list AgentResponse :=
  match events with
  | [] => []
  | event :: events => sent_by n event y ++ sent_in_run n events (socket_step from_str event y)
  end.

Definition asks_for (id : string) (message : AgentMessage) : Prop :=
  match message with
  | AgentMessageRequest envelope => request_envelope_id envelope = id
  | _ => False
  end.

(** No other request with the id, and a network that takes what is written. *)
Definition event_calm (id : string) (event : SocketEvent) : Prop :=
  match event with
  | Reads (WsText text) => forall message, from_str text = Ok message -> ~ asks_for id message
  | Writes outcome => outcome = WriteOk
  | WriterCloses outcomes => forall n, outcomes n = WriteOk
  | _ => True
  end.

(** The stream [n] of request [id], of whose responses [sent] were sent, after
    the answers [before] that the id already had. *)
Record stream_inv (n : nat) (id : string) (before sent : list AgentResponse) (y : Socket)
    (s : ResponseStream) : Prop := {
  inv_stream : streams y !! n = Some s;
  inv_id : stream_request_id s = id;
  inv_others : forall m, m <> n -> ~ forwards y m id;
  inv_bound : (n < next_stream y)%nat;
  inv_forwarding : forwarding s = true ->
    before ++ sent = answers id (outbox y) ++ pending_responses (response_rx s);
  inv_ended : forwarding s = false ->
    response_alive (response_rx s) = false /\
    exists lost, before ++ sent = answers id (outbox y) ++ lost /\
      (lost = [] \/ connection_close y = true \/ chan_receiver_alive (message_tx y) = false);
}.

Lemma answers_app (id : string) (l1 l2 : list ManagementMessage) :
  answers id (l1 ++ l2) = answers id l1 ++ answers id l2.
Proof. apply omap_app. Qed.

(** What one message does to the outbox. *)
Lemma send_message_outbox (message : ManagementMessage) (y y' : Socket) (r : result unit string)
    (Hsend : send_message message y = (y', r)) :
  match r with
  | Ok _ => outbox y' = outbox y ++ [message] /\ chan_receiver_alive (message_tx y') = true
  | Err _ => y' = y /\ chan_receiver_alive (message_tx y) = false
  end.
Proof.
  unfold send_message in Hsend. destruct (chan_send (message_tx y) message) as [tx|] eqn:E; simplify_eq/=.
  - assert (Halive : chan_receiver_alive (message_tx y) = true).
    { destruct (chan_receiver_alive (message_tx y)) eqn:Ha; [done|].
      apply (chan_send_none _ message) in Ha. congruence. }
    apply chan_send_some in E as [Hp Ha]. unfold outbox. simpl. rewrite Ha, Halive, Hp.
    by rewrite app_assoc.
  - split; [done|]. by apply chan_send_none in E.
Qed.

Lemma response_recv_pending (rx rx' : ResponseChannel) (response : AgentResponse)
    (Hrecv : response_recv rx = Some (response, rx')) :
  pending_responses rx = response :: pending_responses rx'.
Proof.
  destruct rx as [c|c]; simpl in Hrecv; destruct (chan_try_recv c) as [[r c']|] eqn:E; simplify_eq/=;
    by apply chan_recv_some in E as [-> _].
Qed.

Lemma response_recv_empty (rx : ResponseChannel) :
  response_recv rx = None -> pending_responses rx = [].
Proof.
  destruct rx as [c|c]; simpl; destruct (chan_try_recv c) as [[]|] eqn:E; try done; intros _;
    apply chan_recv_none in E; by rewrite E.
Qed.

Lemma response_send_pending (r : SchedulerResponse) (rx rx' : ResponseChannel)
    (Hsend : response_send r rx = Some rx') :
  pending_responses rx' = pending_responses rx ++ [sent_response r] /\
  response_alive rx = true /\ response_alive rx' = true.
Proof.
  assert (Halive : forall V (c c' : chan V) v, chan_send c v = Some c' -> chan_receiver_alive c = true).
  { intros V c c' v E. destruct (chan_receiver_alive c) eqn:Ha; [done|].
    apply (chan_send_none _ v) in Ha. congruence. }
  destruct r, rx as [c|c]; simpl in Hsend; try done; destruct (chan_send c _) as [c'|] eqn:E;
    simplify_eq/=; pose proof (Halive _ _ _ _ E); apply chan_send_some in E as [-> ?];
    by rewrite fmap_app.
Qed.

Lemma response_drop_alive (rx : ResponseChannel) : response_alive (response_drop rx) = false.
Proof. destruct rx; apply chan_drop_alive. Qed.

(** *** What keeps the invariant of a stream *)

Record same_answers (id : string) (y y' : Socket) : Prop := {
  same_outbox : answers id (outbox y') = answers id (outbox y);
  same_close : connection_close y = true -> connection_close y' = true;
  same_dead : chan_receiver_alive (message_tx y) = false ->
    chan_receiver_alive (message_tx y') = false;
}.

Lemma same_answers_refl (id : string) (y : Socket) : same_answers id y y.
Proof. done. Qed.

Lemma same_answers_trans (id : string) (y1 y2 y3 : Socket) :
  same_answers id y1 y2 -> same_answers id y2 y3 -> same_answers id y1 y3.
Proof. intros [] []. split; [congruence|auto|auto]. Qed.

Lemma stream_inv_frame (n : nat) (id : string) (before sent : list AgentResponse) (y y' : Socket)
    (s s' : ResponseStream) (Hsame : same_answers id y y')
    (Hs' : streams y' !! n = Some s')
    (Hkept : stream_request_id s' = stream_request_id s /\ forwarding s' = forwarding s /\
      response_rx s' = response_rx s)
    (Hothers : forall m, m <> n -> forwards y' m id -> forwards y m id)
    (Hnext : (next_stream y <= next_stream y')%nat)
    (Hinv : stream_inv n id before sent y s) :
  stream_inv n id before sent y' s'.
Proof.
  destruct Hsame as [So Sc Sd]. destruct Hkept as (Kid & Kf & Krx).
  destruct Hinv as [Hs Hid Ho Hb Hf He]. split; rewrite ?Kid, ?Kf, ?Krx, ?So; try done.
  - intros m Hm Hforwards. apply (Ho m Hm). auto.
  - lia.
  - intros Hended. destruct (He Hended) as (Hdead & lost & Heq & Hcase). split; [done|].
    exists lost. split; [done|]. destruct Hcase as [|[|]]; auto.
Qed.

Lemma send_message_same (id : string) (message : ManagementMessage) (y : Socket)
    (Hanswer : answer id message = None) :
  same_answers id y (send_message message y).1.
Proof.
  destruct (send_message message y) as [y' r] eqn:Hsend. pose proof Hsend as Hcopy. simpl.
  apply send_message_outbox in Hsend. destruct r as [|].
  - destruct Hsend as [Houtbox Halive]. unfold send_message in Hcopy.
    destruct (chan_send (message_tx y) message) eqn:E; simplify_eq/=. split; simpl; [|done|].
    + rewrite Houtbox, answers_app. unfold answers at 2. simpl. rewrite Hanswer. by rewrite app_nil_r.
    + intros Hdead. apply (chan_send_none _ message) in Hdead. congruence.
  - destruct Hsend as [-> _]. done.
Qed.

Lemma send_message_fields (message : ManagementMessage) (y : Socket) :
  receive_stoppers (send_message message y).1 = receive_stoppers y /\
  next_stream (send_message message y).1 = next_stream y.
Proof. unfold send_message. by destruct (chan_send _ _). Qed.

Lemma send_message_stream_inv (n : nat) (id : string) (before sent : list AgentResponse)
    (message : ManagementMessage) (y : Socket) (s : ResponseStream)
    (Hanswer : answer id message = None) (Hinv : stream_inv n id before sent y s) :
  stream_inv n id before sent (send_message message y).1 s.
Proof.
  destruct (send_message_fields message y) as [_ Hnext].
  apply (stream_inv_frame n id before sent y _ s s); rewrite ?Hnext; try done.
  - by apply send_message_same.
  - rewrite send_message_streams. apply Hinv.
  - intros m _. unfold forwards. by rewrite send_message_streams.
Qed.

Lemma update_stream_inv (n m : nat) (id : string) (before sent : list AgentResponse) (y : Socket)
    (s sm sm' : ResponseStream) (Hinv : stream_inv n id before sent y s)
    (Hsm : streams y !! m = Some sm)
    (Hkept : stream_request_id sm' = stream_request_id sm /\ forwarding sm' = forwarding sm)
    (Hrx : m = n -> response_rx sm' = response_rx sm) :
  exists s', stream_inv n id before sent (put_streams (<[m := sm']> (streams y)) y) s'.
Proof.
  destruct Hkept as [Kid Kf]. pose proof (inv_stream _ _ _ _ _ _ Hinv) as Hs.
  exists (if decide (m = n) then sm' else s).
  apply (stream_inv_frame n id before sent y _ s); [done| | | |done|done].
  - simpl. case_decide as Hm; [subst; apply lookup_insert_eq|by rewrite lookup_insert_ne].
  - case_decide as Hm; [|done]. subst. rewrite Hs in Hsm. injection Hsm as <-. auto.
  - intros k Hk (s0 & Hs0 & Hf0 & Hid0). simpl in Hs0. unfold forwards.
    destruct (decide (m = k)) as [->|Hne].
    + rewrite lookup_insert_eq in Hs0. injection Hs0 as <-. exists sm. split_and!; congruence.
    + rewrite lookup_insert_ne in Hs0 by done. by exists s0.
Qed.

Lemma end_other_inv (n m : nat) (id : string) (before sent : list AgentResponse) (y : Socket)
    (s sm : ResponseStream) (Hm : m <> n) (Hinv : stream_inv n id before sent y s) :
  stream_inv n id before sent (end_forwarding m sm y) s.
Proof.
  assert (Hstreams : forall k, k <> m -> streams (end_forwarding m sm y) !! k = streams y !! k).
  { intros k Hk. unfold end_forwarding, drop_stopper_guard, deregister_stopper.
    case_match; simpl; by rewrite lookup_insert_ne. }
  assert (Hdone : forall sk, streams (end_forwarding m sm y) !! m = Some sk -> forwarding sk = false).
  { intros sk. unfold end_forwarding, drop_stopper_guard, deregister_stopper.
    case_match; simpl; rewrite lookup_insert_eq; by intros [= <-]. }
  apply (stream_inv_frame n id before sent y _ s s); try done.
  - unfold end_forwarding, drop_stopper_guard, deregister_stopper. by case_match.
  - rewrite Hstreams by done. apply Hinv.
  - intros k Hk (s0 & Hs0 & Hf0 & Hid0). destruct (decide (k = m)) as [->|Hne].
    + apply Hdone in Hs0. congruence.
    + rewrite Hstreams in Hs0 by done. by exists s0.
  - unfold end_forwarding, drop_stopper_guard, deregister_stopper. by case_match.
Qed.

Lemma end_own_inv (n : nat) (id : string) (before sent lost : list AgentResponse) (y : Socket)
    (s : ResponseStream) (Hid : stream_request_id s = id)
    (Hothers : forall m, m <> n -> ~ forwards y m id) (Hbound : (n < next_stream y)%nat)
    (Heq : before ++ sent = answers id (outbox y) ++ lost)
    (Hcause : lost = [] \/ connection_close y = true \/ chan_receiver_alive (message_tx y) = false) :
  exists s', stream_inv n id before sent (end_forwarding n s y) s'.
Proof.
  eexists {| stream_request_id := stream_request_id s; response_rx := response_drop (response_rx s);
             response_tx_held := response_tx_held s; stop_channel := stop_channel s;
             forwarding := false |}.
  unfold end_forwarding, drop_stopper_guard, deregister_stopper.
  assert (Hgoal : forall q : Socket,
    streams q = <[n := {| stream_request_id := stream_request_id s;
      response_rx := response_drop (response_rx s); response_tx_held := response_tx_held s;
      stop_channel := stop_channel s; forwarding := false |}]> (streams y) ->
    outbox q = outbox y -> connection_close q = connection_close y -> message_tx q = message_tx y ->
    next_stream q = next_stream y ->
    stream_inv n id before sent q {| stream_request_id := stream_request_id s;
      response_rx := response_drop (response_rx s); response_tx_held := response_tx_held s;
      stop_channel := stop_channel s; forwarding := false |}).
  { intros q E1 E2 E3 E4 E5. split; rewrite ?E1, ?E2, ?E3, ?E4, ?E5; try done.
    - apply lookup_insert_eq.
    - intros m Hm (s0 & Hs0 & Hf0 & Hid0). rewrite E1, lookup_insert_ne in Hs0 by done.
      apply (Hothers m Hm). by exists s0.
    - intros _. split; [apply response_drop_alive|]. by exists lost. }
  case_match; by apply Hgoal.
Qed.

Lemma answers_response (id other : string) (r : AgentResponse) :
  answer id (response_to other r) = if bool_decide (other = id) then Some r else None.
Proof. done. Qed.

(** One response of a stream, read and handed to the writer. *)
Lemma forward_own_inv (n : nat) (id : string) (before sent : list AgentResponse)
    (response : AgentResponse) (rx : ResponseChannel) (y : Socket) (s : ResponseStream)
    (Hforwarding : forwarding s = true) (Hrecv : response_recv (response_rx s) = Some (response, rx))
    (Hinv : stream_inv n id before sent y s) :
  exists s', stream_inv n id before sent
    (match send_message (response_to (stream_request_id s) response)
             (put_streams (<[n := put_response_rx rx s]> (streams y)) y) with
     | (y, Ok _) => y
     | (y, Err _) => end_forwarding n (put_response_rx rx s) y
     end) s'.
Proof.
  destruct Hinv as [Hs Hid Ho Hb Hf _].
  specialize (Hf Hforwarding). rewrite (response_recv_pending _ _ _ Hrecv) in Hf.
  set (s' := put_response_rx rx s). set (y' := put_streams (<[n:=s']> (streams y)) y).
  assert (Ho' : forall m, m <> n -> ~ forwards y' m id).
  { intros m Hm (s0 & Hs0 & Hf0 & Hid0). simpl in Hs0. rewrite lookup_insert_ne in Hs0 by done.
    apply (Ho m Hm). by exists s0. }
  destruct (send_message _ y') as [y'' [|]] eqn:Hsend.
  - pose proof (send_message_streams (response_to (stream_request_id s) response) y') as Hstr.
    pose proof (send_message_fields (response_to (stream_request_id s) response) y') as [_ Hnext].
    rewrite Hsend in Hstr, Hnext. simpl in Hstr, Hnext.
    apply send_message_outbox in Hsend as [Houtbox _].
    exists s'. split; unfold forwards; rewrite ?Hstr, ?Hnext; try done.
    + apply lookup_insert_eq.
    + intros _. rewrite Houtbox, answers_app. unfold answers at 2. simpl.
      rewrite (bool_decide_eq_true_2 (stream_request_id s = id)) by done. simpl.
      by rewrite <- app_assoc.
    + simpl. congruence.
  - apply send_message_outbox in Hsend as [-> Hdead].
    apply (end_own_inv n id before sent (response :: pending_responses rx) y' s'); try done.
    right. by right.
Qed.

Lemma forward_turn_stream_inv (n m : nat) (turn : ForwardTurn) (id : string)
    (before sent : list AgentResponse) (y : Socket) (s : ResponseStream)
    (Hinv : stream_inv n id before sent y s) :
  exists s', stream_inv n id before sent (forward_response_turn m turn y) s'.
Proof.
  unfold forward_response_turn. pose proof Hinv as [Hs Hid Ho Hb Hf _].
  destruct (streams y !! m) as [sm|] eqn:Hsm; [|by exists s].
  destruct (forwarding sm) eqn:Hforwarding; [|by exists s].
  destruct (decide (m = n)) as [->|Hne].
  - rewrite Hs in Hsm. injection Hsm as <-. specialize (Hf Hforwarding). destruct turn.
    + destruct (connection_close y) eqn:Hclose; [|by exists s].
      apply (end_own_inv n id before sent (pending_responses (response_rx s)) y s); auto.
    + destruct (response_recv (response_rx s)) as [[response rx]|] eqn:Hrecv.
      * by apply (forward_own_inv n id before sent response rx y s).
      * destruct (response_tx_held s); [by exists s|].
        rewrite (response_recv_empty _ Hrecv) in Hf.
        apply (end_own_inv n id before sent [] y s); auto.
  - destruct turn; [destruct (connection_close y); [|by exists s]; exists s; by apply end_other_inv|].
    destruct (response_recv (response_rx sm)) as [[response rx]|] eqn:Hrecv.
    2: { destruct (response_tx_held sm); [by exists s|]. exists s. by apply end_other_inv. }
    destruct (update_stream_inv n m id before sent y s sm (put_response_rx rx sm) Hinv Hsm)
      as [s1 Hinv1]; [done|done|].
    assert (Hother : stream_request_id sm <> id).
    { intros Heq. apply (Ho m Hne). by exists sm. }
    pose proof (send_message_stream_inv n id before sent
      (response_to (stream_request_id sm) response)
      (put_streams (<[m:=put_response_rx rx sm]> (streams y)) y) s1) as Hsent.
    rewrite answers_response, bool_decide_eq_false_2 in Hsent by done.
    specialize (Hsent eq_refl Hinv1).
    destruct (send_message _ _) as [y' [|]]; exists s1; [done|by apply end_other_inv].
Qed.

Lemma generate_stream_inv {Params : Type} (n : nat) (id other : string)
    (before sent : list AgentResponse) (params : Params) (rx : ResponseChannel)
    (request_tx : Socket -> chan (SchedulerRequest Params))
    (put_tx : chan (SchedulerRequest Params) -> Socket -> Socket) (y : Socket) (s : ResponseStream)
    (Hput : forall tx y, streams (put_tx tx y) = streams y /\
      next_stream (put_tx tx y) = next_stream y /\ outbox (put_tx tx y) = outbox y /\
      connection_close (put_tx tx y) = connection_close y /\ message_tx (put_tx tx y) = message_tx y)
    (Hother : other <> id) (Hinv : stream_inv n id before sent y s) :
  stream_inv n id before sent (generate_responses other params rx request_tx put_tx y).1 s.
Proof.
  unfold generate_responses, register_stopper.
  destruct (receive_stoppers y !! other) as [k|] eqn:Hid; [done|].
  pose proof (inv_bound _ _ _ _ _ _ Hinv) as Hb. pose proof (inv_stream _ _ _ _ _ _ Hinv) as Hs.
  destruct (chan_send _ _) as [tx|]; simpl.
  - match goal with |- context [put_tx tx ?q] => destruct (Hput tx q) as (E1 & E2 & E3 & E4 & E5) end.
    simpl in *. apply (stream_inv_frame n id before sent y _ s s); try done; simpl.
    + split; simpl; [|by rewrite E4|by rewrite E5].
      by match goal with |- answers id (outbox ?q) = _ =>
           change (outbox q) with (outbox (put_tx tx (put_socket_status (slot_guard_new (socket_status y))
             (put_stoppers (<[other:=next_stream y]> (receive_stoppers y)) y)))) end; rewrite E3.
    + rewrite lookup_insert_ne by lia. done.
    + intros m Hm (s0 & Hs0 & Hf0 & Hid0). simpl in Hs0. unfold forwards.
      destruct (decide (next_stream y = m)) as [<-|Hne].
      * rewrite lookup_insert_eq in Hs0. injection Hs0 as <-. done.
      * rewrite lookup_insert_ne in Hs0 by done. by exists s0.
    + lia.
  - apply (stream_inv_frame n id before sent y _ s s); try done;
      unfold drop_stopper_guard, deregister_stopper; simpl; rewrite ?lookup_insert_eq; done.
Qed.

Lemma handle_message_stream_inv (n : nat) (id : string) (before sent : list AgentResponse)
    (message : AgentMessage) (y : Socket) (s : ResponseStream) (Hcalm : ~ asks_for id message)
    (Hinv : stream_inv n id before sent y s) :
  exists s', stream_inv n id before sent (handle_deserialized_message message y).1 s'.
Proof.
  assert (Hrefl : exists s', stream_inv n id before sent y s') by by exists s.
  destruct message as [|[]|[other []]]; simpl in *; try done.
  - destruct (chan_send _ _); [|done]. exists s. apply (stream_inv_frame n id before sent y _ s s); try done.
    apply Hinv.
  - unfold stop. destruct (receive_stoppers y !! id0) as [m|]; [|done].
    destruct (streams y !! m) as [sm|] eqn:Hsm; [|done]. destruct (chan_send _ _); [|done].
    by apply (update_stream_inv n m id before sent y s sm).
  - exists s. by apply generate_stream_inv.
  - exists s. by apply generate_stream_inv.
  - exists s. by apply generate_stream_inv.
  - exists s. apply send_message_stream_inv; [|done]. rewrite answers_response.
    by rewrite bool_decide_eq_false_2.
  - exists s. apply send_message_stream_inv; [|done]. rewrite answers_response.
    by rewrite bool_decide_eq_false_2.
Qed.

Lemma write_outbox (y : Socket) : outbox (write_turn WriteOk y) = outbox y.
Proof.
  unfold write_turn. destruct (chan_receiver_alive (message_tx y)) eqn:Halive; [|done].
  destruct (chan_try_recv (message_tx y)) as [[message rx]|] eqn:Hrecv; [|done].
  apply chan_recv_some in Hrecv as [Hp Ha]. unfold outbox. simpl. rewrite Ha, Halive, Hp.
  by rewrite <- app_assoc.
Qed.

Lemma write_dead (y : Socket) :
  chan_receiver_alive (message_tx (write_turn WriteOk y)) = chan_receiver_alive (message_tx y) /\
  connection_close (write_turn WriteOk y) = connection_close y /\
  (length (chan_pending (message_tx (write_turn WriteOk y)))
   <= pred (length (chan_pending (message_tx y))) \/ chan_receiver_alive (message_tx y) = false)%nat.
Proof.
  unfold write_turn. destruct (chan_receiver_alive (message_tx y)) eqn:Halive; [|by auto].
  destruct (chan_try_recv (message_tx y)) as [[message rx]|] eqn:Hrecv.
  - apply chan_recv_some in Hrecv as [Hp Ha]. simpl. rewrite Ha, Hp, Halive. split_and!; try done.
    left. simpl. lia.
  - apply chan_recv_none in Hrecv. rewrite Hrecv, Halive. split_and!; try done. by left.
Qed.

(** The flush writes all that is pending. *)
Lemma flush_outbox (fuel : nat) (outcomes : nat -> WriteOutcome) (y : Socket)
    (Houtcomes : forall n, outcomes n = WriteOk)
    (Halive : chan_receiver_alive (message_tx y) = true)
    (Hfuel : (length (chan_pending (message_tx y)) <= fuel)%nat) :
  outbox (flush_messages fuel outcomes y) = outbox y /\
  written (flush_messages fuel outcomes y) = outbox y /\
  connection_close (flush_messages fuel outcomes y) = connection_close y.
Proof.
  revert y Halive Hfuel. induction fuel as [|fuel IH]; intros y Halive Hfuel; simpl.
  - unfold outbox. simpl. rewrite chan_drop_alive, Halive.
    destruct (chan_pending (message_tx y)); simpl in *; [by rewrite app_nil_r|lia].
  - rewrite Houtcomes. destruct (write_dead y) as (Ha & Hc & Hl).
    destruct (IH (write_turn WriteOk y)) as (-> & -> & ->).
    + congruence.
    + destruct Hl as [Hl|]; [lia|congruence].
    + by rewrite write_outbox.
Qed.

Lemma socket_step_stream_inv (event : SocketEvent) (n : nat) (id : string)
    (before sent : list AgentResponse) (y : Socket) (s : ResponseStream)
    (Hcalm : event_calm id event) (Hinv : stream_inv n id before sent y s) :
  exists s', stream_inv n id before (sent ++ sent_by n event y) (socket_step from_str event y) s'.
Proof.
  assert (Hrefl : exists s', stream_inv n id before sent y s') by by exists s.
  pose proof (inv_stream _ _ _ _ _ _ Hinv) as Hs.
  assert (Hframe : forall y' : Socket, same_answers id y y' -> streams y' = streams y ->
    next_stream y' = next_stream y -> exists s', stream_inv n id before sent y' s').
  { intros y' Hsame E1 E2. exists s. apply (stream_inv_frame n id before sent y _ s s);
      unfold forwards; rewrite ?E1, ?E2; done. }
  assert (Hloop : forall f : Socket -> Socket, (exists s', stream_inv n id before sent (f y) s') ->
    exists s', stream_inv n id before sent (in_loop f y) s')
    by (intros f Hf; unfold in_loop; by destruct (loop_phase y)).
  assert (Hupdate : forall now, exists s', stream_inv n id before sent (do_send_status_update now y) s').
  { intros now. unfold do_send_status_update. case_match; [|done]. exists s.
    by apply send_message_stream_inv. }
  destruct event as [message| | |now|now| |m turn|m r|m|outcome| |outcomes|ops]; simpl;
    rewrite ?app_nil_r.
  - apply Hloop. destruct message as [text| | | |payload|]; simpl in *; try done.
    + destruct (from_str text) as [message|] eqn:Hparse; [|done].
      apply (handle_message_stream_inv n id before sent message y s); auto.
    + destruct (chan_send _ _); [|done]. by apply Hframe.
  - apply Hloop. by apply Hframe.
  - apply Hloop. by apply Hframe.
  - by apply Hloop.
  - by apply Hloop.
  - unfold leave_connection. destruct (loop_phase y); try done. exists s.
    pose proof (send_message_stream_inv n id before sent
      (ManagementNotificationMessage DeregisterAgent) y s eq_refl Hinv) as Hsent.
    eapply (stream_inv_frame n id before sent
      (send_message (ManagementNotificationMessage DeregisterAgent) y).1 _ s s); try done. apply Hsent.
  - by apply (forward_turn_stream_inv n m turn id before sent y s).
  - unfold scheduler_sends. destruct (streams y !! m) as [sm|] eqn:Hsm.
    2: { rewrite bool_decide_eq_false_2 by congruence. by rewrite app_nil_r. }
    destruct (decide (m = n)) as [->|Hne].
    + rewrite Hs in Hsm. injection Hsm as <-. rewrite bool_decide_eq_true_2, Hs by done.
      destruct (response_tx_held s); simpl; [|by rewrite app_nil_r].
      destruct (response_send r (response_rx s)) as [rx|] eqn:Hsend; simpl; [|by rewrite app_nil_r].
      apply response_send_pending in Hsend as (Hp & Ha & Ha').
      destruct Hinv as [_ Hid Ho Hb Hf He]. exists (put_response_rx rx s). split; simpl; try done.
      * apply lookup_insert_eq.
      * intros k Hk (s0 & Hs0 & Hf0 & Hid0). simpl in Hs0. rewrite lookup_insert_ne in Hs0 by done.
        apply (Ho k Hk). by exists s0.
      * intros Hforwarding. rewrite Hp, !app_assoc. f_equal. by apply Hf.
      * intros Hended. destruct (He Hended). congruence.
    + rewrite bool_decide_eq_false_2, app_nil_r by done.
      destruct (response_tx_held sm); [|done].
      destruct (response_send r (response_rx sm)); [|done].
      by apply (update_stream_inv n m id before sent y s sm).
  - unfold scheduler_drops. destruct (streams y !! m) as [sm|] eqn:Hsm; [|done].
    destruct (response_tx_held sm); [|done].
    match goal with |- context [put_streams (<[m := ?sm']> _)] =>
      destruct (update_stream_inv n m id before sent y s sm sm' Hinv Hsm) as [s' Hinv']; [done|done|] end.
    exists s'. eapply stream_inv_frame; [..|exact Hinv']; try done. apply Hinv'.
  - simpl in Hcalm. subst outcome. destruct (write_turn_frame WriteOk y) as (_ & E1 & E2).
    apply Hframe; [|done|done]. destruct (write_dead y) as (Ha & Hc & _).
    split; rewrite ?write_outbox, ?Ha, ?Hc; done.
  - unfold pong_turn. destruct (chan_receiver_alive _); [|done].
    destruct (chan_try_recv _) as [[]|]; [by apply Hframe|done].
  - unfold writer_sees_close. destruct (connection_close y && _) eqn:Hgo; [|done].
    apply andb_true_iff in Hgo as [Hclose Halive].
    destruct (flush_frame (length (chan_pending (message_tx y))) outcomes y) as (_ & E1 & E2).
    apply Hframe; [|done|done].
    destruct (flush_outbox (length (chan_pending (message_tx y))) outcomes y Hcalm Halive)
      as (Ho & _ & Hc); [lia|]. split; rewrite ?Ho, ?Hc; try done. congruence.
  - by apply Hframe.
Qed.

Lemma socket_run_stream_inv (events : list SocketEvent) (n : nat) (id : string)
    (before sent : list AgentResponse) (y : Socket) (s : ResponseStream)
    (Hcalm : Forall (event_calm id) events) (Hinv : stream_inv n id before sent y s) :
  exists s', stream_inv n id before (sent ++ sent_in_run n events y) (socket_run from_str events y) s'.
Proof.
  revert sent y s Hinv. induction Hcalm as [|event events Hevent _ IH]; intros sent y s Hinv.
  - exists s. simpl. by rewrite app_nil_r.
  - destruct (socket_step_stream_inv event n id before sent y s Hevent Hinv) as [s' Hinv'].
    simpl. rewrite app_assoc. by apply (IH _ _ s').
Qed.

(** A request that is being forwarded, with the answers it already had. *)
Lemma forwarding_stream_inv (n : nat) (y : Socket) (s : ResponseStream) (Hinv : stoppers_inv y)
    (Hs : streams y !! n = Some s) (Hforwarding : forwarding s = true) :
  stream_inv n (stream_request_id s) (answers (stream_request_id s) (outbox y))
    (pending_responses (response_rx s)) y s.
Proof.
  destruct Hinv as [Hx Hfresh]. split; try done.
  - intros m Hm Hforwards. apply Hx in Hforwards.
    assert (receive_stoppers y !! stream_request_id s = Some n) by (apply Hx; by exists s). congruence.
  - destruct (decide (next_stream y <= n)%nat); [|lia]. by rewrite Hfresh in Hs.
  - congruence.
Qed.

(** What was sent is what was answered and what still waits or was lost. *)
Lemma stream_inv_answers (n : nat) (id : string) (before sent : list AgentResponse) (y : Socket)
    (s : ResponseStream) (Hinv : stream_inv n id before sent y s) :
  exists waiting, before ++ sent = answers id (outbox y) ++ waiting.
Proof.
  destruct (forwarding s) eqn:Hf.
  - eexists. by apply Hinv.
  - destruct (inv_ended _ _ _ _ _ _ Hinv Hf) as (_ & waiting & Heq & _). by exists waiting.
Qed.

(** C21. Responses reach the balancer in order and none is lost: from any
    moment of a run at which a request is being forwarded, the answers that
    carry its id are, in the order in which the scheduler sent them, those it
    has sent, and what is missing of them still waits in the channel of the
    request; the forwarding task only ends early when the connection does. *)
Theorem responses_forwarded_in_order (events0 events : list SocketEvent) (y0 : Socket) (n : nat)
    (s : ResponseStream) (Hquiet : quiet y0) :
  let y := socket_run from_str events0 y0 in
  let id := stream_request_id s in
  streams y !! n = Some s -> forwarding s = true -> Forall (event_calm id) events ->
  let y' := socket_run from_str events y in
  exists s' waiting, streams y' !! n = Some s' /\
    answers id (outbox y) ++ pending_responses (response_rx s) ++ sent_in_run n events y
    = answers id (outbox y') ++ waiting /\
    if forwarding s' then waiting = pending_responses (response_rx s')
    else waiting = [] \/ connection_close y' = true \/ chan_receiver_alive (message_tx y') = false.
Proof.
  intros y id Hs Hforwarding Hcalm y'.
  pose proof (forwarding_stream_inv n y s (socket_run_inv events0 y0 (quiet_inv y0 Hquiet)) Hs Hforwarding)
    as Hinv.
  destruct (socket_run_stream_inv events n id _ _ y s Hcalm Hinv) as [s' [Hs' _ _ _ Hf He]].
  exists s'. destruct (forwarding s').
  - eexists. split; [exact Hs'|]. split; [by apply Hf|done].
  - destruct (He eq_refl) as (_ & waiting & Heq & Hcase). by exists waiting.
Qed.

(** A request that the scheduler's side drops unanswered ends silently: the
    balancer is told nothing about it. *)
Lemma dropped_request_unanswered (y : Socket) (n : nat) (s : ResponseStream)
    (Hs : streams y !! n = Some s) (Hforwarding : forwarding s = true)
    (Hheld : response_tx_held s = true) (Hempty : response_recv (response_rx s) = None) :
  let y' := forward_response_turn n Receives (scheduler_drops n y) in
  outbox y' = outbox y /\ exists s', streams y' !! n = Some s' /\ forwarding s' = false.
Proof.
  simpl. unfold scheduler_drops. rewrite Hs, Hheld. unfold forward_response_turn. simpl.
  rewrite lookup_insert_eq. simpl. rewrite Hforwarding, Hempty. unfold end_forwarding.
  unfold drop_stopper_guard, deregister_stopper. simpl.
  case_match; simpl; (split; [done|]); rewrite lookup_insert_eq; by eexists.
Qed.

(** Leaving a connection writes everything, the goodbye last. *)
Lemma leaving_flushes (y : Socket) (outcomes : nat -> WriteOutcome)
    (Hphase : loop_phase y = PastLoop) (Halive : chan_receiver_alive (message_tx y) = true)
    (Houtcomes : forall n, outcomes n = WriteOk) :
  written (writer_sees_close outcomes (leave_connection y))
  = outbox y ++ [ManagementNotificationMessage DeregisterAgent].
Proof.
  unfold leave_connection. rewrite Hphase.
  destruct (send_message (ManagementNotificationMessage DeregisterAgent) y) as [y1 r] eqn:Hsend. simpl.
  apply send_message_outbox in Hsend. destruct r; [|destruct Hsend; congruence].
  destruct Hsend as [Houtbox Halive1].
  unfold writer_sees_close. simpl. rewrite Halive1.
  edestruct flush_outbox as (_ & -> & _); [exact Houtcomes| |reflexivity|]; simpl; [done|].
  by rewrite <- Houtbox.
Qed.
End Facts.

(** ** A prompt answered with two tokens *)

#[local] Instance sample_json : JsonTypes := {| JsonValue := unit |}.
#[local] Instance sample_llama : LlamaTypes := {| TokenUsage := unit; ParsedToolCall := unit |}.

Definition sample_parse (text : string) : result AgentMessage string :=
  if bool_decide (text = "prompt"%string) then
    Ok (AgentMessageRequest {| request_envelope_id := "r"; request :=
      RequestContinueFromRawPrompt {| raw_grammar := None; raw_max_tokens := 8; raw_prompt := "p" |} |})
  else Err "unexpected text"%string.

Definition sample_socket : @AgentSocket _ _ QueueChannel nat :=
  Build_AgentSocket ∅ ∅ 0 chan_new chan_new chan_new chan_new chan_new chan_new [] false
    (status_new 0 4) None None InLoop.

Definition sample_stream : ResponseStream := new_stream "r" (TokenChannel chan_new).

Lemma stop_reaches_its_request_witness :
  let y := socket_run sample_parse [Reads (WsText "prompt")] sample_socket in
  streams (stop "r" y).1 !! 7%nat = streams y !! 7%nat.
Proof.
  intros y.
  pose proof (stop_reaches_its_request sample_parse [Reads (WsText "prompt")] sample_socket "r"
    ltac:(by split)) as Hr.
  fold y in Hr. cbv zeta in Hr. destruct (stop "r" y) as [y' r].
  apply (proj1 Hr 0%nat); [|done]. exists sample_stream. split_and!; reflexivity.
Defined.

Lemma responses_forwarded_in_order_witness :
  let y := socket_run sample_parse [Reads (WsText "prompt")] sample_socket in
  let events := [SchedulerSends 0 (SendsToken (ContentToken "a")); Forwards 0 Receives;
                 SchedulerSends 0 (SendsToken (ContentToken "b")); Writes WriteOk] in
  let y' := socket_run sample_parse events y in
  exists waiting,
    [ResponseGeneratedToken (ContentToken "a"); ResponseGeneratedToken (ContentToken "b")]
    = answers "r" (outbox y') ++ waiting.
Proof.
  intros y events y'.
  destruct (responses_forwarded_in_order sample_parse [Reads (WsText "prompt")] events sample_socket 0
    sample_stream) as (s' & waiting & _ & Heq & _);
    [by split|vm_compute; reflexivity|reflexivity|by repeat constructor|].
  exists waiting. exact Heq.
Defined.
