(* ===== verification/AgentService.v ===== *)
(** * The agent keeps its connection alive

    [ManagementSocketClientService::run] and [keep_connection_alive]: a
    connection after the other, with the tasks of the earlier ones, which may
    still run when the next connection is made.  What a connection is inside
    is [AgentSocket]; here its part of the state, its two channels, what it
    wrote, its token and its loop, is put next to that of the other
    connections, while the stoppers, the requests, the channels to the other
    services and the status are shared by all. *)

From S2P Require Import Prelude.
From S2P Require Import Tokio.
From S2P Require Import Messages.
From S2P Require Import Requests.
From S2P Require Import AgentIssues.
From S2P Require Import SlotStatus.
From S2P Require Import AgentController.
From S2P Require Import AgentStartup.
From S2P Require Import AgentSocket.
From S2P Require Import AgentSocketFacts.
Local Open Scope Z_scope.

Section AgentService.
Context `{JsonTypes} `{LlamaTypes} {chan : Type -> Type} `{!UnboundedChannel chan}.
Context {sender receiver : Type} `{!WatchChannel sender receiver}.
Context (from_str : string -> result AgentMessage string).
Context (name : option string).
Local Abbreviation Socket := (@AgentSocket _ _ chan sender).

(** What belongs to one connection. *)
Record ConnectionLocal : Type := {
  local_message_tx : chan ManagementMessage;
  local_pong_tx : chan string;
  local_written : list ManagementMessage;
  local_close : bool;
  local_phase : LoopPhase;
}.

Definition local_of (y : Socket) : ConnectionLocal :=
  {| local_message_tx := message_tx y; local_pong_tx := pong_tx y; local_written := written y;
     local_close := connection_close y; local_phase := loop_phase y |}.

Definition with_local (l : ConnectionLocal) (y : Socket) : Socket :=
  put_message_tx (local_message_tx l)
    (put_pong_tx (local_pong_tx l)
       (put_written (local_written l)
          (put_connection_close (local_close l) (put_loop_phase (local_phase l) y)))).

(** The channels and the token a connection is made with. *)
Definition local_new : ConnectionLocal :=
  {| local_message_tx := chan_new; local_pong_tx := chan_new; local_written := [];
     local_close := false; local_phase := InLoop |}.

Inductive ServicePhase : Type :=
| AwaitsTick
| Connecting
| KeepsAlive
| ServiceReturned.

(** [shared_socket] holds what is shared; [owners] says which connection a
    request came over. *)
Record ServiceState : Type := {
  shared_socket : Socket;
  locals : list ConnectionLocal;
  owners : gmap nat nat;
  service_phase : ServicePhase;
  shutdown_seen : bool;
}.

Definition put_service_phase (p : ServicePhase) (s : ServiceState) : ServiceState :=
  {| shared_socket := shared_socket s; locals := locals s; owners := owners s; service_phase := p;
     shutdown_seen := shutdown_seen s |}.

(** A task of connection [k] only forwards the requests of [k], and its loop
    sees a shutdown only when there is one. *)
Definition event_of (k : nat) (event : SocketEvent) (s : ServiceState) : bool :=
  match event with
  | Forwards n _ => bool_decide (owners s !! n = Some k)
  | SeesShutdown => shutdown_seen s
  | _ => true
  end.

(** Connection [k] does its next step on the shared state. *)
Definition keep_alive_step (k : nat) (event : SocketEvent) (s : ServiceState) : ServiceState :=
  match locals s !! k with
  | Some l =>
      if event_of k event s then
        let y := with_local l (shared_socket s) in
        let y' := socket_step from_str event y in
        {| shared_socket := y'; locals := <[k := local_of y']> (locals s);
           owners := if decide (next_stream y' = next_stream y) then owners s
                     else <[next_stream y := k]> (owners s);
           service_phase := service_phase s; shutdown_seen := shutdown_seen s |}
      else s
  | None => s
  end.

(** A connection is made: the agent registers on it.  When its status has no
    snapshot, [keep_connection_alive] returns and the writer ends, since
    nobody sends to it. *)
Definition connect (now : Z) (s : ServiceState) : ServiceState :=
  match register_agent name now (with_local local_new (shared_socket s)) with
  | (y, Ok _) =>
      {| shared_socket := y; locals := locals s ++ [local_of y]; owners := owners s;
         service_phase := KeepsAlive; shutdown_seen := shutdown_seen s |}
  | (y, Err _) =>
      let y := end_writer (put_loop_phase LoopGone y) in
      {| shared_socket := y; locals := locals s ++ [local_of y]; owners := owners s;
         service_phase := AwaitsTick; shutdown_seen := shutdown_seen s |}
  end.

Inductive ServiceEvent : Type :=
| ServiceTicks
| ShutdownCancelled
| ServiceSeesShutdown
| ConnectFails
| Connects (now : Z)
| ConnectionSteps (k : nat) (event : SocketEvent)
| KeepAliveReturns.

(** The last connection, whose loop was left and whose writer was joined. *)
Definition keep_alive_done (s : ServiceState) : bool :=
  match last (locals s) with
  | Some l =>
      match local_phase l with
      | LoopGone => negb (chan_receiver_alive (local_message_tx l))
      | _ => false
      end
  | None => false
  end.

Definition agent_service_step (event : ServiceEvent) (s : ServiceState) : ServiceState :=
  match event with
  | ShutdownCancelled =>
      {| shared_socket := shared_socket s; locals := locals s; owners := owners s;
         service_phase := service_phase s; shutdown_seen := true |}
  | ServiceTicks =>
      match service_phase s with AwaitsTick => put_service_phase Connecting s | _ => s end
  | ServiceSeesShutdown =>
      if shutdown_seen s then
        match service_phase s with
        | AwaitsTick => put_service_phase ServiceReturned s
        | Connecting => put_service_phase AwaitsTick s
        | _ => s
        end
      else s
  | ConnectFails =>
      match service_phase s with Connecting => put_service_phase AwaitsTick s | _ => s end
  | Connects now => match service_phase s with Connecting => connect now s | _ => s end
  | ConnectionSteps k event => keep_alive_step k event s
  | KeepAliveReturns =>
      match service_phase s with
      | KeepsAlive => if keep_alive_done s then put_service_phase AwaitsTick s else s
      | _ => s
      end
  end.

Definition agent_service_run (events : list ServiceEvent) (s : ServiceState) : ServiceState :=
  fold_left (fun s event => agent_service_step event s) events s.

(** The service as the bundle makes it: no request, no connection. *)
Definition agent_service_start (y : Socket) : ServiceState :=
  {| shared_socket := y; locals := []; owners := ∅; service_phase := AwaitsTick; shutdown_seen := false |}.
End AgentService.

(** ** What keeping the connection alive guarantees

    Over any number of connections, with the tasks of the earlier ones still
    running: the agent introduces itself on each of them before it says
    anything else, only the last one is read, the stoppers are exact across
    connections, and the service returns only after a shutdown. *)

Section Facts.
Context `{JsonTypes} `{LlamaTypes} {chan : Type -> Type} `{!UnboundedChannel chan}.
Context {sender receiver : Type} `{!WatchChannel sender receiver}.
Context (from_str : string -> result AgentMessage string) (name : option string).
Local Abbreviation Socket := (@AgentSocket _ _ chan sender).
Local Abbreviation State := (@ServiceState _ _ chan sender).

(** ** What one connection says *)

Definition writer_alive (y : Socket) : bool := chan_receiver_alive (message_tx y).

(** A step says more at the end, or the writer ends and drops what was not
    written. *)
Definition says (y y' : Socket) : Prop :=
  (writer_alive y' = writer_alive y /\
   exists more, outbox y' = outbox y ++ more /\ (writer_alive y = false -> more = [])) \/
  (writer_alive y' = false /\ outbox y' `prefix_of` outbox y).

Lemma says_frame (y y' : Socket) :
  written y' = written y -> message_tx y' = message_tx y -> says y y'.
Proof.
  intros Hw Ht. left. unfold writer_alive, outbox. rewrite Hw, Ht. split; [done|].
  exists []. by rewrite app_nil_r.
Qed.

Lemma says_refl (y : Socket) : says y y.
Proof. by apply says_frame. Qed.

Lemma send_message_says (message : ManagementMessage) (y : Socket) : says y (send_message message y).1.
Proof.
  destruct (send_message message y) as [y' r] eqn:Hsend. pose proof Hsend as Hcopy.
  apply send_message_outbox in Hsend. simpl.
  destruct r; [|destruct Hsend as [-> _]; apply says_refl]. destruct Hsend as [Ho Ha].
  assert (Halive : chan_receiver_alive (message_tx y) = true).
  { destruct (chan_receiver_alive (message_tx y)) eqn:E; [done|].
    apply (chan_send_none _ message) in E. unfold send_message in Hcopy. by rewrite E in Hcopy. }
  left. unfold writer_alive. rewrite Ha, Halive. split; [done|]. by exists [message].
Qed.

Lemma says_after (y y1 y2 : Socket) :
  says y y1 -> written y2 = written y1 -> message_tx y2 = message_tx y1 -> says y y2.
Proof. unfold says, writer_alive, outbox. by intros Hs -> ->. Qed.

Lemma says_before (y y1 y2 : Socket) :
  written y1 = written y -> message_tx y1 = message_tx y -> says y1 y2 -> says y y2.
Proof. unfold says, writer_alive, outbox. by intros -> ->. Qed.

(** A step that never fails to serialize a message. *)
Definition serializable (event : SocketEvent) : Prop :=
  match event with
  | Writes outcome => outcome <> SerializationFailed
  | WriterCloses outcomes => forall n, outcomes n <> SerializationFailed
  | _ => True
  end.

Lemma generate_says {Params : Type} (id : string) (params : Params) (rx : ResponseChannel)
    (request_tx : Socket -> chan (SchedulerRequest Params))
    (put_tx : chan (SchedulerRequest Params) -> Socket -> Socket) (y : Socket)
    (Hput : forall tx y, written (put_tx tx y) = written y /\ message_tx (put_tx tx y) = message_tx y) :
  says y (generate_responses id params rx request_tx put_tx y).1.
Proof.
  unfold generate_responses, register_stopper.
  destruct (receive_stoppers y !! id); [apply says_refl|].
  destruct (chan_send _ _) as [tx|]; simpl.
  - match goal with |- context [put_tx tx ?q] => destruct (Hput tx q) as [Hw Ht] end.
    by apply says_frame.
  - unfold drop_stopper_guard, deregister_stopper. simpl. rewrite lookup_insert_eq. by apply says_frame.
Qed.

Lemma handle_message_says (message : AgentMessage) (y : Socket) :
  says y (handle_deserialized_message message y).1.
Proof.
  destruct message as [|[state|target|v]|[id []]]; simpl; try apply says_refl;
    try apply send_message_says; try by apply generate_says.
  - destruct (chan_send _ _); [by apply says_frame|apply says_refl].
  - assert (Hstop : says y (stop target y).1).
    { apply says_frame; unfold stop; repeat (case_match; try done). }
    by destruct (stop target y) as [? []].
Qed.

Lemma end_forwarding_says (n : nat) (s : ResponseStream) (y : Socket) : says y (end_forwarding n s y).
Proof.
  apply says_frame; unfold end_forwarding, drop_stopper_guard, deregister_stopper; simpl; by case_match.
Qed.

Lemma forward_turn_says (n : nat) (turn : ForwardTurn) (y : Socket) :
  says y (forward_response_turn n turn y).
Proof.
  unfold forward_response_turn. destruct (streams y !! n) as [s|]; [|apply says_refl].
  destruct (forwarding s); [|apply says_refl]. destruct turn.
  - destruct (connection_close y); [apply end_forwarding_says|apply says_refl].
  - destruct (response_recv (response_rx s)) as [[response rx]|].
    2: { destruct (response_tx_held s); [apply says_refl|apply end_forwarding_says]. }
    set (y1 := put_streams _ y). pose proof (send_message_says (response_to (stream_request_id s) response) y1).
    destruct (send_message _ y1) as [y2 [[]|e]] eqn:Hsend; simpl in *.
    + by apply (says_before y y1).
    + apply send_message_outbox in Hsend as [-> _]. apply (says_before y y1); [done..|].
      apply end_forwarding_says.
Qed.

Lemma write_turn_says (outcome : WriteOutcome) (y : Socket) (Houtcome : outcome <> SerializationFailed) :
  says y (write_turn outcome y).
Proof.
  destruct outcome; [|done|].
  - left. destruct (write_dead y) as (Ha & _ & _). unfold writer_alive. rewrite Ha. split; [done|].
    exists []. by rewrite write_outbox, app_nil_r.
  - unfold write_turn. destruct (chan_receiver_alive (message_tx y)); [|apply says_refl].
    destruct (chan_try_recv (message_tx y)) as [[message rx]|]; [|apply says_refl].
    right. unfold writer_alive, outbox. simpl. rewrite chan_drop_alive, app_nil_r. split; [done|].
    by apply prefix_app_r.
Qed.

Lemma end_writer_says (y : Socket) :
  writer_alive (end_writer y) = false /\ outbox (end_writer y) `prefix_of` outbox y.
Proof.
  unfold writer_alive, outbox. simpl. rewrite chan_drop_alive, app_nil_r. split; [done|].
  by apply prefix_app_r.
Qed.

Lemma flush_says (fuel : nat) (outcomes : nat -> WriteOutcome) (y : Socket)
    (Halive : writer_alive y = true) (Houtcomes : forall n, outcomes n <> SerializationFailed)
    (Hfuel : (length (chan_pending (message_tx y)) <= fuel)%nat) :
  says y (flush_messages fuel outcomes y).
Proof.
  revert y Halive Hfuel. induction fuel as [|fuel IH]; intros y Halive Hfuel; simpl.
  - right. apply end_writer_says.
  - pose proof (Houtcomes fuel) as Houtcome. destruct (outcomes fuel); [|done|by apply write_turn_says].
    destruct (write_dead y) as (Ha & _ & Hl). unfold writer_alive in *.
    assert (Hsays : says (write_turn WriteOk y) (flush_messages fuel outcomes (write_turn WriteOk y))).
    { apply IH; [congruence|]. destruct Hl as [Hl|]; [lia|congruence]. }
    revert Hsays. unfold says, writer_alive. by rewrite write_outbox, Ha.
Qed.

Lemma socket_step_says (event : SocketEvent) (y : Socket) (Hevent : serializable event) :
  says y (socket_step from_str event y).
Proof.
  assert (Hloop : forall f : Socket -> Socket, says y (f y) -> says y (in_loop f y))
    by (intros f Hf; unfold in_loop; destruct (loop_phase y); done || apply says_refl).
  assert (Hupdate : forall now, says y (do_send_status_update now y)).
  { intros now. unfold do_send_status_update. case_match; [apply send_message_says|apply says_refl]. }
  destruct event as [message| | |now|now| |n turn|n r|n|outcome| |outcomes|ops]; simpl in *.
  - apply Hloop. destruct message as [text| | | |payload|]; simpl; try apply says_refl.
    + destruct (from_str text); [apply handle_message_says|apply says_refl].
    + destruct (chan_send _ _); [by apply says_frame|apply says_refl].
  - apply Hloop. by apply says_frame.
  - apply Hloop. by apply says_frame.
  - by apply Hloop.
  - by apply Hloop.
  - unfold leave_connection. destruct (loop_phase y); try apply says_refl.
    eapply says_after; [apply send_message_says|done..].
  - apply forward_turn_says.
  - apply says_frame; unfold scheduler_sends; repeat (case_match; try done).
  - apply says_frame; unfold scheduler_drops; repeat (case_match; try done).
  - by apply write_turn_says.
  - apply says_frame; unfold pong_turn; repeat (case_match; try done).
  - unfold writer_sees_close. destruct (connection_close y && _) eqn:Hgo; [|apply says_refl].
    apply andb_true_iff in Hgo as [_ Halive]. by apply flush_says.
  - by apply says_frame.
Qed.
(** A loop that was left stays left. *)
Lemma write_turn_phase (outcome : WriteOutcome) (y : Socket) :
  loop_phase (write_turn outcome y) = loop_phase y.
Proof. unfold write_turn. by repeat (case_match; try done). Qed.

Lemma flush_phase (fuel : nat) (outcomes : nat -> WriteOutcome) (y : Socket) :
  loop_phase (flush_messages fuel outcomes y) = loop_phase y.
Proof.
  revert y. induction fuel as [|fuel IH]; intros y; simpl; [done|].
  destruct (outcomes fuel); by rewrite ?IH, write_turn_phase.
Qed.

Lemma socket_step_gone (event : SocketEvent) (y : Socket) (Hgone : loop_phase y = LoopGone) :
  loop_phase (socket_step from_str event y) = LoopGone.
Proof.
  destruct event as [message| | |now|now| |n turn|n r|n|outcome| |outcomes|ops]; simpl;
    unfold in_loop, leave_connection, scheduler_sends, scheduler_drops, pong_turn; rewrite ?Hgone; try done.
  - unfold forward_response_turn, end_forwarding, drop_stopper_guard, deregister_stopper, send_message.
    repeat (case_match; simplify_eq/=; try done).
  - by repeat (case_match; try done).
  - by repeat (case_match; try done).
  - by rewrite write_turn_phase.
  - by repeat (case_match; try done).
  - unfold writer_sees_close. case_match; [|done]. by rewrite flush_phase.
Qed.

(** ** What all connections keep *)

Definition local_alive (l : ConnectionLocal) : bool := chan_receiver_alive (local_message_tx l).

Definition local_outbox (l : ConnectionLocal) : list ManagementMessage :=
  local_written l ++ (if local_alive l then chan_pending (local_message_tx l) else []).

(** The agent registered first, or the writer ended before it wrote. *)
Definition introduced (l : ConnectionLocal) : Prop :=
  (exists snapshot rest,
     local_outbox l = ManagementNotificationMessage (RegisterAgent name snapshot) :: rest) \/
  (local_alive l = false /\ local_outbox l = []).

(** A connection that is over: not read, and nothing can be written. *)
Definition is_over (l : ConnectionLocal) : Prop := local_phase l = LoopGone /\ local_alive l = false.

Record service_ok (s : State) : Prop := {
  service_stoppers : stoppers_inv (shared_socket s);
  service_introduced (k : nat) (l : ConnectionLocal) : locals s !! k = Some l -> introduced l;
  service_left (k : nat) (l : ConnectionLocal) : locals s !! k = Some l ->
    service_phase s = KeepsAlive /\ S k = length (locals s) \/ is_over l;
  service_alive : service_phase s = KeepsAlive -> locals s <> [];
  service_returned : service_phase s = ServiceReturned -> shutdown_seen s = true;
}.

Definition event_serializable (event : ServiceEvent) : Prop :=
  match event with ConnectionSteps _ event => serializable event | _ => True end.

Lemma local_of_with (l : ConnectionLocal) (y : Socket) : local_of (with_local l y) = l.
Proof. by destruct l. Qed.

Lemma says_introduced (l : ConnectionLocal) (y y' : Socket) (Hsays : says (with_local l y) y')
    (Hl : introduced l) : introduced (local_of y').
Proof.
  unfold introduced, local_outbox, local_alive in *. unfold says, writer_alive, outbox in Hsays. simpl in *.
  destruct Hsays as [(Ha & more & -> & Hmore)|[Ha [tail Htail]]].
  - destruct Hl as [(snapshot & rest & ->)|[Hdead ->]]; [left; eauto|].
    right. split; [by rewrite Ha|]. by apply Hmore.
  - rewrite Ha in Htail |- *. destruct Hl as [(snapshot & rest & Ho)|[_ Ho]]; rewrite Ho in Htail.
    + destruct (written y') as [|message rest'] eqn:E; simpl in Htail; [by right|].
      left. exists snapshot. simplify_eq/=. eauto.
    + right. split; [done|]. symmetry in Htail. by apply app_eq_nil in Htail as [-> _].
Qed.

Lemma says_left (l : ConnectionLocal) (event : SocketEvent) (y : Socket) (Hevent : serializable event)
    (Hl : is_over l) : is_over (local_of (socket_step from_str event (with_local l y))).
Proof.
  destruct Hl as [Hphase Hdead]. split; [by apply socket_step_gone|].
  destruct (socket_step_says event (with_local l y) Hevent) as [[Ha _]|[Ha _]];
    unfold writer_alive, local_alive in *; simpl in *; congruence.
Qed.

Lemma connection_step_ok (k : nat) (event : SocketEvent) (s : State) (Hevent : serializable event)
    (Hok : service_ok s) : service_ok (keep_alive_step from_str k event s).
Proof.
  unfold keep_alive_step. destruct (locals s !! k) as [l|] eqn:Hl; [|done].
  destruct (event_of k event s); [|done]. destruct Hok as [Hst Hin Hle Hal Hre]. split; simpl; try done.
  - apply socket_step_inv. by apply (stoppers_inv_frame (shared_socket s)).
  - intros m lm [(<- & <- & _)|[_ Hm]]%list_lookup_insert_Some; [|by apply (Hin m lm)].
    eapply says_introduced; [by apply socket_step_says|by apply (Hin k l)].
  - intros m lm. rewrite length_insert.
    intros [(<- & <- & _)|[_ Hm]]%list_lookup_insert_Some; [|by apply (Hle m lm)].
    destruct (Hle k l Hl); [by left|]. right. by apply says_left.
  - intros Hphase Hnil. apply (Hal Hphase). apply nil_length_inv.
    assert (Hlen : length (<[k := local_of (socket_step from_str event (with_local l (shared_socket s)))]>
      (locals s)) = 0%nat) by by rewrite Hnil.
    by rewrite length_insert in Hlen.
Qed.

Lemma register_agent_says (now : Z) (y : Socket) :
  match register_agent name now (with_local local_new y) with
  | (y', Ok _) => exists snapshot, status_make_snapshot now (socket_status y) = Ok snapshot /\
      local_outbox (local_of y') = [ManagementNotificationMessage (RegisterAgent name snapshot)] /\
      receive_stoppers y' = receive_stoppers y /\ streams y' = streams y /\ next_stream y' = next_stream y
  | (y', Err _) => y' = with_local local_new y
  end.
Proof.
  unfold register_agent. simpl. destruct (status_make_snapshot _ _) as [snapshot|]; [|done].
  exists snapshot. split_and!; try done; unfold send_message; simpl;
    destruct (chan_send chan_new _) as [tx|] eqn:E;
    try (apply chan_send_none in E; by rewrite chan_new_alive in E); try done.
  apply chan_send_some in E as [Hp Ha]. unfold local_outbox, local_alive. simpl.
  by rewrite Ha, Hp, chan_new_pending.
Qed.

Lemma connect_ok (now : Z) (s : State) (Hphase : service_phase s = Connecting) (Hok : service_ok s) :
  service_ok (connect name now s).
Proof.
  unfold connect. pose proof (register_agent_says now (shared_socket s)) as Hr.
  destruct Hok as [Hst Hin Hle Hal Hre].
  assert (Hleft : forall k l, locals s !! k = Some l -> is_over l).
  { intros k l Hl. destruct (Hle k l Hl) as [[Hp _]|]; [by rewrite Hphase in Hp|done]. }
  destruct (register_agent _ _ _) as [y [_u|e]].
  - destruct Hr as (snapshot & _ & Ho & E1 & E2 & E3). split; simpl; try done.
    + by apply (stoppers_inv_frame (shared_socket s)).
    + intros k l [Hl|[_ Hl]]%lookup_app_Some; [by apply (Hin k l)|].
      apply list_lookup_singleton_Some in Hl as [_ <-]. left. eauto.
    + intros k l [Hl|[Hk Hl]]%lookup_app_Some; [right; by eapply Hleft|].
      apply list_lookup_singleton_Some in Hl as [Hk' <-]. left. split; [done|]. rewrite length_app. simpl. lia.
    + intros _ ?%app_nil. naive_solver.
  - subst y. split; simpl; try done.
    + by apply (stoppers_inv_frame (shared_socket s)).
    + intros k l [Hl|[_ Hl]]%lookup_app_Some; [by apply (Hin k l)|].
      apply list_lookup_singleton_Some in Hl as [_ <-]. right. unfold local_outbox, local_alive. simpl.
      by rewrite chan_drop_alive.
    + intros k l [Hl|[_ Hl]]%lookup_app_Some; right; [by eapply Hleft|].
      apply list_lookup_singleton_Some in Hl as [_ <-]. split; [done|]. apply chan_drop_alive.
Qed.

(** Only what the phase says changes. *)
Lemma put_phase_ok (p : ServicePhase) (s : State) (Hp : p <> KeepsAlive)
    (Hreturned : p = ServiceReturned -> shutdown_seen s = true)
    (Hleft : forall k l, locals s !! k = Some l -> is_over l) (Hok : service_ok s) :
  service_ok (put_service_phase p s).
Proof. destruct Hok as [Hst Hin Hle Hal Hre]. split; simpl; try done. intros k l Hl. right. eauto. Qed.

Lemma all_left (s : State) (Hok : service_ok s) (Hphase : service_phase s <> KeepsAlive) (k : nat)
    (l : ConnectionLocal) : locals s !! k = Some l -> is_over l.
Proof. intros Hl. by destruct (service_left s Hok k l Hl) as [[? _]|]. Qed.

Lemma keep_alive_done_left (s : State) (Hok : service_ok s) (Hdone : keep_alive_done s = true) (k : nat)
    (l : ConnectionLocal) : locals s !! k = Some l -> is_over l.
Proof.
  intros Hl. destruct (service_left s Hok k l Hl) as [[_ Hk]|]; [|done].
  unfold keep_alive_done in Hdone. rewrite last_lookup, <- Hk in Hdone. simpl in Hdone. rewrite Hl in Hdone.
  destruct (local_phase l) eqn:Hphase; try done. split; [done|]. by apply negb_true_iff.
Qed.

Lemma service_step_ok (event : ServiceEvent) (s : State) (Hevent : event_serializable event)
    (Hok : service_ok s) : service_ok (agent_service_step from_str name event s).
Proof.
  pose proof (all_left s Hok) as Hleft.
  destruct event as [| | | |now|k event|]; simpl.
  - destruct (service_phase s) eqn:Hp; try done. apply put_phase_ok; try done. by apply Hleft.
  - destruct Hok as [Hst Hin Hle Hal Hre]. by split.
  - destruct (shutdown_seen s) eqn:Hs; [|done].
    destruct (service_phase s) eqn:Hp; try done; apply put_phase_ok; try done; by apply Hleft.
  - destruct (service_phase s) eqn:Hp; try done. apply put_phase_ok; try done. by apply Hleft.
  - destruct (service_phase s) eqn:Hp; try done. by apply connect_ok.
  - by apply connection_step_ok.
  - destruct (service_phase s) eqn:Hp; try done. destruct (keep_alive_done s) eqn:Hd; [|done].
    apply put_phase_ok; try done. by apply keep_alive_done_left.
Qed.

Lemma service_run_ok (events : list ServiceEvent) (s : State) (Hevents : Forall event_serializable events)
    (Hok : service_ok s) : service_ok (agent_service_run from_str name events s).
Proof.
  revert s Hok. induction Hevents as [|event events Hevent _ IH]; intros s Hok; [done|].
  simpl. apply IH. by apply service_step_ok.
Qed.

Lemma service_start_ok (y : Socket) (Hquiet : quiet y) : service_ok (agent_service_start y).
Proof. split; simpl; try done. by apply quiet_inv. Qed.

(** A connection on which the agent could register. *)
Lemma connect_registers (now : Z) (s : State) (snapshot : Snapshot.SlotAggregatedStatusSnapshot)
    (Hsnapshot : status_make_snapshot now (socket_status (shared_socket s)) = Ok snapshot) :
  let s' := connect name now s in
  service_phase s' = KeepsAlive /\
  streams (shared_socket s') = streams (shared_socket s) /\
  receive_stoppers (shared_socket s') = receive_stoppers (shared_socket s) /\
  exists l, locals s' = locals s ++ [l] /\
    local_outbox l = [ManagementNotificationMessage (RegisterAgent name snapshot)].
Proof.
  unfold connect. pose proof (register_agent_says now (shared_socket s)) as Hr.
  destruct (register_agent _ _ _) as [y [_u|e]] eqn:E.
  - destruct Hr as (snapshot' & Hs & Ho & E1 & E2 & _). rewrite Hsnapshot in Hs. injection Hs as <-.
    split_and!; [done|exact E2|exact E1|]. by exists (local_of y).
  - unfold register_agent in E. change (socket_status (with_local local_new (shared_socket s)))
      with (socket_status (shared_socket s)) in E. by rewrite Hsnapshot in E.
Qed.

Lemma keep_alive_returns_step (s : State) (Hphase : service_phase s = KeepsAlive)
    (Hdone : keep_alive_done s = true) :
  agent_service_step from_str name KeepAliveReturns s = put_service_phase AwaitsTick s.
Proof. unfold agent_service_step. by rewrite Hphase, Hdone. Qed.

Lemma reconnect_run (now : Z) (s : State) (Hphase : service_phase s = KeepsAlive)
    (Hdone : keep_alive_done s = true) :
  agent_service_run from_str name [KeepAliveReturns; ServiceTicks; Connects now] s
  = connect name now (put_service_phase Connecting (put_service_phase AwaitsTick s)).
Proof.
  unfold agent_service_run. cbn [fold_left]. by rewrite (keep_alive_returns_step s Hphase Hdone).
Qed.

(** C38. The agent keeps itself known to the balancer, whatever happens to its
    connections.  In every state the service reaches: each connection begins
    with the registration of the agent, unless its writer ended before it
    wrote anything; every connection but the last is over, it is not read and
    nothing is written to it; a stopper is held for exactly the requests that
    are being forwarded, over any connection; and the service has returned
    only after a shutdown.  When the last connection is over, the next tick
    and connect register the agent, with its status at that time, on a new
    connection, and leave the requests alone. *)
Theorem agent_service_reconnects (events : list ServiceEvent) (y : Socket) (Hquiet : quiet y)
    (Hevents : Forall event_serializable events) :
  let s := agent_service_run from_str name events (agent_service_start y) in
  Forall introduced (locals s) /\
  (forall k l, locals s !! k = Some l -> (S k < length (locals s))%nat -> is_over l) /\
  (forall id n, receive_stoppers (shared_socket s) !! id = Some n <-> forwards (shared_socket s) n id) /\
  (service_phase s = ServiceReturned -> shutdown_seen s = true) /\
  (service_phase s = KeepsAlive -> keep_alive_done s = true ->
   forall now snapshot, status_make_snapshot now (socket_status (shared_socket s)) = Ok snapshot ->
   let s' := agent_service_run from_str name [KeepAliveReturns; ServiceTicks; Connects now] s in
   service_phase s' = KeepsAlive /\
   streams (shared_socket s') = streams (shared_socket s) /\
   receive_stoppers (shared_socket s') = receive_stoppers (shared_socket s) /\
   exists l, locals s' = locals s ++ [l] /\
     local_outbox l = [ManagementNotificationMessage (RegisterAgent name snapshot)]).
Proof.
  intros s. pose proof (service_run_ok events _ Hevents (service_start_ok y Hquiet)) as Hok. fold s in Hok.
  split_and!.
  - apply Forall_lookup. apply Hok.
  - intros k l Hl Hk. destruct (service_left s Hok k l Hl) as [[_ ?]|]; [lia|done].
  - apply Hok.
  - apply Hok.
  - intros Hphase Hdone now snapshot Hsnapshot. cbv zeta. rewrite (reconnect_run now s Hphase Hdone).
    by apply (connect_registers now (put_service_phase Connecting (put_service_phase AwaitsTick s))).
Qed.
End Facts.

(** ** A connection that is lost and made again *)

#[local] Existing Instances AgentSocketFacts.sample_json AgentSocketFacts.sample_llama.

Definition lost_connection : list ServiceEvent :=
  [ServiceTicks; Connects 0; ConnectionSteps 0 ReadsEnd; ConnectionSteps 0 Leaves;
   ConnectionSteps 0 (WriterCloses (fun _ => WriteOk))].

Local Abbreviation lost_state :=
  (agent_service_run sample_parse (Some "a"%string) lost_connection (agent_service_start sample_socket)).

Lemma lost_connection_over : service_phase lost_state = KeepsAlive /\ keep_alive_done lost_state = true.
Proof. split; lazy; reflexivity. Qed.

Lemma lost_connection_serializable : Forall event_serializable lost_connection.
Proof. unfold lost_connection. rewrite !Forall_cons. split_and!; done. Qed.

Lemma lost_connection_snapshot :
  exists snapshot, status_make_snapshot 5 (socket_status (shared_socket lost_state)) = Ok snapshot.
Proof. eexists. lazy. reflexivity. Qed.

Lemma agent_service_reconnects_witness :
  let s := agent_service_run sample_parse (Some "a"%string)
             [KeepAliveReturns; ServiceTicks; Connects 5] lost_state in
  service_phase s = KeepsAlive /\ exists l, locals s = locals lost_state ++ [l].
Proof.
  destruct (agent_service_reconnects sample_parse (Some "a"%string) lost_connection sample_socket
    (conj eq_refl eq_refl) lost_connection_serializable) as (_ & _ & _ & _ & Hagain).
  destruct lost_connection_snapshot as [snapshot Hsnapshot].
  destruct lost_connection_over as [Hphase Hover].
  destruct (Hagain Hphase Hover 5 snapshot Hsnapshot) as (Hp & _ & _ & l & Hl & _).
  split; [exact Hp|]. exists l. exact Hl.
Defined.
