(* ===== verification/WebSocketEndpoint.v ===== *)
(** * Websocket endpoints of the balancer

    [controls_websocket_endpoint.rs] with [continuation_decision.rs]: what an
    endpoint does with the messages of a session, when it ends it, and with
    which reason.  Each message that parses is handled by a task of its own,
    so the loop only spawns; what a handler decides comes back later. *)

From S2P Require Import Prelude.
From S2P Require Import Tokio.
Local Open Scope Z_scope.

Definition MAX_FRAME_SIZE : Z := 50 * 1024 * 1024.
Definition MAX_CONTINUATION_SIZE : Z := 50 * 1024 * 1024.

Inductive CloseCode : Type := CloseSize | CloseAway.

Record CloseReason : Type := { close_code : CloseCode; close_description : string }.

Inductive ContinuationDecision : Type :=
| ContinueSession
| StopSession (close_reason : option CloseReason).

(** What the stream of the websocket library yields; a ping carries whether
    the pong could be written. *)
Inductive ProtocolError : Type :=
| ProtocolOverflow
| ProtocolIo (description : string)
| ProtocolOther (description : string).

Inductive AggregatedMessage : Type :=
| AggregatedBinary
| AggregatedClose
| AggregatedPing (pong_written : bool)
| AggregatedPong
| AggregatedText (text : string).

(** [str::contains] *)
Fixpoint string_contains (pattern text : string) : bool :=
  String.prefix pattern text
  || match text with EmptyString => false | String _ rest => string_contains pattern rest end.

Section Endpoint.
Context {Incoming : Type} (from_str : string -> result Incoming string).
(** The sizes as they are printed. *)
Context (print_size : Z -> string).

Definition size_reason (what : string) (size_ : Z) : CloseReason :=
  {| close_code := CloseSize;
     close_description := ("Message exceeded the maximum allowed " +:+ what +:+ " size of "
       +:+ print_size size_ +:+ " bytes")%string |}.

(** [handle_text_message]: the message to spawn a handler for; the default
    [handle_serialization_error] goes on. *)
Definition handle_text_message (text : string) : option Incoming * ContinuationDecision :=
  match from_str text with
  | Ok message => (Some message, ContinueSession)
  | Err _ => (None, ContinueSession)
  end.

Definition handle_aggregated_message (msg : option (result AggregatedMessage ProtocolError))
    : option Incoming * ContinuationDecision :=
  match msg with
  | Some (Ok AggregatedBinary) => (None, ContinueSession)
  | Some (Ok AggregatedClose) | None => (None, StopSession None)
  | Some (Ok (AggregatedPing pong_written)) =>
      (None, if pong_written then ContinueSession else StopSession None)
  | Some (Ok AggregatedPong) => (None, ContinueSession)
  | Some (Ok (AggregatedText text)) => handle_text_message text
  | Some (Err ProtocolOverflow) => (None, StopSession (Some (size_reason "frame" MAX_FRAME_SIZE)))
  | Some (Err (ProtocolIo description)) =>
      if string_contains "Exceeded maximum continuation size" description
      then (None, StopSession (Some (size_reason "continuation" MAX_CONTINUATION_SIZE)))
      else (None, StopSession None)
  | Some (Err (ProtocolOther _)) => (None, StopSession None)
  end.

(** ** The session *)

Inductive SessionPhase : Type :=
| SessionOpen
| SessionClosed (close_reason : option CloseReason).

(** The task of [respond], the handlers it spawned that have not run yet,
    and the token that closes the connection. *)
Record Session : Type := {
  session_phase : SessionPhase;
  session_close : bool;
  spawned : list Incoming;
}.

(** [on_connection_start] decided. *)
Definition session_start (decision : result ContinuationDecision string) : Session :=
  match decision with
  | Ok ContinueSession =>
      {| session_phase := SessionOpen; session_close := false; spawned := [] |}
  | Ok (StopSession close_reason) =>
      {| session_phase := SessionClosed close_reason; session_close := true; spawned := [] |}
  | Err _ => {| session_phase := SessionClosed None; session_close := true; spawned := [] |}
  end.

(** The end of the loop. *)
Definition end_session (close_reason : option CloseReason) (s : Session) : Session :=
  {| session_phase := SessionClosed close_reason; session_close := true; spawned := spawned s |}.

(** Which branch of the [select!] the loop takes. *)
Inductive SessionTurn : Type :=
| NextMessage (msg : option (result AggregatedMessage ProtocolError))
| PingTicks (ping_written : bool)
| SeesClose
| SeesShutdown.

Definition session_turn (turn : SessionTurn) (s : Session) : Session :=
  match session_phase s with
  | SessionClosed _ => s
  | SessionOpen =>
      match turn with
      | NextMessage msg =>
          match handle_aggregated_message msg with
          | (Some message, ContinueSession) =>
              {| session_phase := SessionOpen; session_close := session_close s;
                 spawned := spawned s ++ [message] |}
          | (None, ContinueSession) => s
          | (_, StopSession close_reason) => end_session close_reason s
          end
      | PingTicks ping_written => if ping_written then s else end_session None s
      | SeesClose => if session_close s then end_session None s else s
      | SeesShutdown =>
          end_session (Some {| close_code := CloseAway;
                               close_description := "Server shutting down" |}) s
      end
  end.

(** What the spawned task does with the decision of the handler. *)
Definition handled (decision : result ContinuationDecision string) (s : Session) : Session :=
  match decision with
  | Ok ContinueSession => s
  | Ok (StopSession _) | Err _ =>
      {| session_phase := session_phase s; session_close := true; spawned := spawned s |}
  end.

(** A handler starts: any of those that wait. *)
Definition take_spawned (index : nat) (s : Session) : option (Incoming * Session) :=
  match spawned s !! index with
  | Some message =>
      Some (message, {| session_phase := session_phase s; session_close := session_close s;
                        spawned := delete index (spawned s) |})
  | None => None
  end.
End Endpoint.
Arguments Session : clear implicits.
