(* ===== verification/BalancerSocket.v ===== *)
(** * The balancer's end of the management socket

    [ws_agent_socket/mod.rs] and [agent_socket_controller_context.rs]: the
    connections of agents over the shared pool, holder and sender collections.
    The handlers of a connection run one at a time, in any order; the context
    of a connection is dropped once its loop, its handlers and its forwarding
    task are done, and takes the agent out of the pool. *)

From S2P Require Import Prelude.
From S2P Require Import Tokio.
From S2P Require Import Messages.
From S2P Require Import Requests.
From S2P Require Import AgentIssues.
From S2P Require Import Senders.
From S2P Require Import SlotStatus.
From S2P Require Import AgentController.
From S2P Require Import AgentPool.
From S2P Require Import DesiredState.
From S2P Require Import AgentStartup.
From S2P Require Import AgentSocket.
From S2P Require Import WebSocketEndpoint.
Local Open Scope Z_scope.

Section BalancerSocket.
Context `{JsonTypes} `{LlamaTypes} {chan : Type -> Type} `{!UnboundedChannel chan} {token : Type}.
Context {sender receiver : Type} `{!WatchChannel sender receiver}.
Local Abbreviation AgentController := (Controller.AgentController chan token).
Local Abbreviation Pool := (AgentControllerPool chan token sender).
Local Abbreviation Holder := (@BalancerApplicableStateHolder sender).

(** [forwarder] is the controller whose messages the connection's forwarding
    task writes, and [sent] is what it has written.  An agent registers once
    per connection; a second registration, which the pool refuses unless the
    agent was taken out in between, replaces the task here. *)
Record AgentConnection : Type := {
  agent_id : string;
  close_token : token;
  session : Session ManagementMessage;
  forwarder : option nat;
  sent : list AgentMessage;
  context_held : bool;
}.

Record BalancerAgents : Type := {
  agent_controller_pool : Pool;
  balancer_applicable_state_holder : Holder;
  chat_template_overrides : SenderCollection chan (option ChatTemplate);
  embeddings : SenderCollection chan EmbeddingResult;
  generated_tokens : SenderCollection chan GeneratedTokenResult;
  model_metadatas : SenderCollection chan (option ModelMetadata);
  connections : gmap nat AgentConnection;
  next_controller : nat;
}.

Definition put_pool (p : Pool) (y : BalancerAgents) : BalancerAgents := {|
  agent_controller_pool := p;
  balancer_applicable_state_holder := balancer_applicable_state_holder y;
  chat_template_overrides := chat_template_overrides y; embeddings := embeddings y;
  generated_tokens := generated_tokens y; model_metadatas := model_metadatas y;
  connections := connections y; next_controller := next_controller y |}.

Definition put_connection (n : nat) (c : AgentConnection) (y : BalancerAgents) : BalancerAgents := {|
  agent_controller_pool := agent_controller_pool y;
  balancer_applicable_state_holder := balancer_applicable_state_holder y;
  chat_template_overrides := chat_template_overrides y; embeddings := embeddings y;
  generated_tokens := generated_tokens y; model_metadatas := model_metadatas y;
  connections := <[n := c]> (connections y); next_controller := next_controller y |}.

Definition put_next_controller (x : nat) (y : BalancerAgents) : BalancerAgents := {|
  agent_controller_pool := agent_controller_pool y;
  balancer_applicable_state_holder := balancer_applicable_state_holder y;
  chat_template_overrides := chat_template_overrides y; embeddings := embeddings y;
  generated_tokens := generated_tokens y; model_metadatas := model_metadatas y;
  connections := connections y; next_controller := x |}.

Definition put_collections (t : SenderCollection chan (option ChatTemplate))
    (e : SenderCollection chan EmbeddingResult) (g : SenderCollection chan GeneratedTokenResult)
    (m : SenderCollection chan (option ModelMetadata)) (y : BalancerAgents) : BalancerAgents := {|
  agent_controller_pool := agent_controller_pool y;
  balancer_applicable_state_holder := balancer_applicable_state_holder y;
  chat_template_overrides := t; embeddings := e; generated_tokens := g; model_metadatas := m;
  connections := connections y; next_controller := next_controller y |}.

Definition put_session (s : Session ManagementMessage) (c : AgentConnection) : AgentConnection :=
  {| agent_id := agent_id c; close_token := close_token c; session := s; forwarder := forwarder c;
     sent := sent c; context_held := context_held c |}.

Definition put_forwarder (f : option nat) (c : AgentConnection) : AgentConnection :=
  {| agent_id := agent_id c; close_token := close_token c; session := session c; forwarder := f;
     sent := sent c; context_held := context_held c |}.

(** ** Registration *)

(** The controller of a registration: the snapshot's fields, a fresh channel,
    and the collections of the context. *)
Definition registered_controller (c : AgentConnection) (name_ : option string)
    (snapshot : Snapshot.SlotAggregatedStatusSnapshot) (y : BalancerAgents) : AgentController := {|
  Controller.agent_message_tx := chan_new;
  Controller.chat_template_override_sender_collection := chat_template_overrides y;
  Controller.connection_close := close_token c;
  Controller.desired_slots_total := Snapshot.desired_slots_total snapshot;
  Controller.download_current := Snapshot.download_current snapshot;
  Controller.download_filename := Snapshot.download_filename snapshot;
  Controller.download_indeterminate := Snapshot.download_indeterminate snapshot;
  Controller.download_total := Snapshot.download_total snapshot;
  Controller.embedding_sender_collection := embeddings y;
  Controller.generate_tokens_sender_collection := generated_tokens y;
  Controller.id := agent_id c;
  Controller.issues := Snapshot.issues snapshot;
  Controller.model_metadata_sender_collection := model_metadatas y;
  Controller.model_path := Snapshot.model_path snapshot;
  Controller.name := name_;
  Controller.newest_update_version := Snapshot.version snapshot;
  Controller.slots_processing := Snapshot.slots_processing snapshot;
  Controller.slots_total := Snapshot.slots_total snapshot;
  Controller.state_application_status_code :=
    status_code (Snapshot.state_application_status snapshot);
  Controller.tokens_per_second := Snapshot.tokens_per_second snapshot;
  Controller.uses_chat_template_override := Snapshot.uses_chat_template_override snapshot;
|}.

(** The receiving half of a controller's channel goes. *)
Definition drop_agent_message_rx (loc : nat) (p : Pool) : Pool :=
  store_controllers
    (alter (fun a => Controller.put_agent_message_tx
                       (chan_drop_receiver (Controller.agent_message_tx a)) a) loc (controllers p)) p.

(** The handler of [RegisterAgent]; the forwarding task starts last. *)
Definition handle_register_agent (n : nat) (c : AgentConnection) (name_ : option string)
    (snapshot : Snapshot.SlotAggregatedStatusSnapshot) (y : BalancerAgents)
    : BalancerAgents * result ContinuationDecision string :=
  let loc := next_controller y in
  let y := put_next_controller (S loc) y in
  match register_insert (agent_id c) loc (registered_controller c name_ snapshot y)
          (agent_controller_pool y) with
  | (p, Err error) =>
      (put_pool (drop_agent_message_rx loc p) y, Err "Unable to register agent controller"%string)
  | (p, Ok _) =>
      match register_send_state loc (balancer_applicable_state_holder y) p with
      | (p, Err error) =>
          (put_pool (drop_agent_message_rx loc p) y, Err "Unable to set desired state"%string)
      | (p, Ok _) =>
          (put_connection n (put_forwarder (Some loc) c) (put_pool p y), Ok ContinueSession)
      end
  end.

(** ** The handler of a message *)

Definition handle_update (c : AgentConnection) (snapshot : Snapshot.SlotAggregatedStatusSnapshot)
    (p : Pool) : Pool :=
  match get_agent_controller (agent_id c) p with
  | None => p
  | Some loc =>
      match controllers p !! loc with
      | None => p
      | Some a =>
          let '(a, r) := Controller.update_from_slot_aggregated_status_snapshot snapshot a in
          let p := store_controllers (<[loc := a]> (controllers p)) p in
          match r with
          | NoMeaningfulChanges => p
          | Updated => signal_update p
          end
      end
  end.

Definition handle_response (envelope : ResponseEnvelope AgentResponse) (y : BalancerAgents)
    : BalancerAgents :=
  let id := response_request_id envelope in
  let t := chat_template_overrides y in
  let e := embeddings y in
  let g := generated_tokens y in
  let m := model_metadatas y in
  match Messages.response envelope with
  | ResponseChatTemplateOverride r => put_collections (forward_response_safe id r t) e g m y
  | ResponseEmbedding r => put_collections t (forward_response_safe id r e) g m y
  | ResponseGeneratedToken r => put_collections t e (forward_response_safe id r g) m y
  | ResponseModelMetadata r => put_collections t e g (forward_response_safe id r m) y
  end.

(** A [DeregisterAgent] also cancels the token itself. *)
Definition handle_agent_message (n : nat) (c : AgentConnection) (message : ManagementMessage)
    (y : BalancerAgents) : BalancerAgents * result ContinuationDecision string :=
  match message with
  | ManagementError _ => (y, Ok ContinueSession)
  | ManagementNotificationMessage DeregisterAgent => (y, Ok (StopSession None))
  | ManagementNotificationMessage (RegisterAgent name_ snapshot) =>
      handle_register_agent n c name_ snapshot y
  | ManagementNotificationMessage (UpdateAgentStatus snapshot) =>
      (put_pool (handle_update c snapshot (agent_controller_pool y)) y, Ok ContinueSession)
  | ManagementResponse envelope => (handle_response envelope y, Ok ContinueSession)
  end.

(** ** Connections *)

Context (from_str : string -> result ManagementMessage string) (print_size : Z -> string).
Context (VERSION : string).

(** A connection opens; [version_written] is the send of [on_connection_start]. *)
Definition open_connection (n : nat) (id : string) (close : token) (version_written : bool)
    (y : BalancerAgents) : BalancerAgents :=
  put_connection n
    {| agent_id := id; close_token := close;
       session := session_start
                    (Ok (if version_written then ContinueSession else StopSession None));
       forwarder := None;
       sent := if version_written then [AgentMessageNotification (Version VERSION)] else [];
       context_held := true |} y.

(** A handler runs, and its decision comes back to the session. *)
Definition run_handler (n index : nat) (y : BalancerAgents) : BalancerAgents :=
  match connections y !! n with
  | None => y
  | Some c =>
      match take_spawned index (session c) with
      | None => y
      | Some (message, s) =>
          let c := put_session s c in
          let '(y, decision) := handle_agent_message n c message (put_connection n c y) in
          match connections y !! n with
          | None => y
          | Some c => put_connection n (put_session (handled decision (session c)) c) y
          end
      end
  end.

(** A turn of the forwarding task; a failed write is logged. *)
Definition run_forwarder (n : nat) (written : bool) (y : BalancerAgents) : BalancerAgents :=
  match connections y !! n with
  | None => y
  | Some c =>
      match forwarder c with
      | None => y
      | Some loc =>
          if session_close (session c)
          then put_connection n (put_forwarder None c)
                 (put_pool (drop_agent_message_rx loc (agent_controller_pool y)) y)
          else
            match controllers (agent_controller_pool y) !! loc with
            | None => y
            | Some a =>
                match chan_try_recv (Controller.agent_message_tx a) with
                | None => y
                | Some (message, tx) =>
                    put_connection n
                      {| agent_id := agent_id c; close_token := close_token c;
                         session := session c; forwarder := forwarder c;
                         sent := if written then sent c ++ [message] else sent c;
                         context_held := context_held c |}
                      (put_pool (store_controllers
                         (<[loc := Controller.put_agent_message_tx tx a]>
                            (controllers (agent_controller_pool y))) (agent_controller_pool y)) y)
                end
            end
      end
  end.

(** [Drop for AgentSocketControllerContext], once nothing holds the context. *)
Definition drop_context (n : nat) (y : BalancerAgents) : BalancerAgents :=
  match connections y !! n with
  | None => y
  | Some c =>
      match session_phase (session c), spawned (session c), forwarder c with
      | SessionClosed _, [], None =>
          if context_held c then
            put_connection n
              {| agent_id := agent_id c; close_token := close_token c; session := session c;
                 forwarder := None; sent := sent c; context_held := false |}
              (put_pool (fst (remove_agent_controller (agent_id c) (agent_controller_pool y))) y)
          else y
      | _, _, _ => y
      end
  end.

Inductive BalancerEvent : Type :=
| Opens (n : nat) (id : string) (close : token) (version_written : bool)
| SessionTurns (n : nat) (turn : SessionTurn)
| HandlerRuns (n index : nat)
| ForwarderRuns (n : nat) (written : bool)
| ContextDrops (n : nat).

Definition balancer_step (event : BalancerEvent) (y : BalancerAgents) : BalancerAgents :=
  match event with
  | Opens n id close version_written =>
      match connections y !! n with
      | Some _ => y
      | None => open_connection n id close version_written y
      end
  | SessionTurns n turn =>
      match connections y !! n with
      | None => y
      | Some c => put_connection n (put_session (session_turn from_str print_size turn (session c)) c) y
      end
  | HandlerRuns n index => run_handler n index y
  | ForwarderRuns n written => run_forwarder n written y
  | ContextDrops n => drop_context n y
  end.

Definition balancer_run (events : list BalancerEvent) (y : BalancerAgents) : BalancerAgents :=
  fold_left (fun y event => balancer_step event y) events y.
End BalancerSocket.
