(* ===== verification/BalancerSocketFacts.v ===== *)
(** * What the balancer's end of the management socket promises

    Facts about [BalancerSocket]: the agents of the pool are connected, a
    closed connection leaves the pool, answers reach their request in the
    order in which their handlers run, and what goes wrong when two
    connections of one agent overlap. *)

From S2P Require Import Prelude.
From S2P Require Import Tokio.
From S2P Require Import Messages.
From S2P Require Import Requests.
From S2P Require Import AgentIssues.
From S2P Require Import Senders.
From S2P Require Import SlotStatus.
From S2P Require Import AgentController.
From S2P Require Import AgentPool.
From S2P Require Import DesiredState.
From S2P Require Import AgentStartup.
From S2P Require Import AgentSocket.
From S2P Require Import AgentSocketFacts.
From S2P Require Import WebSocketEndpoint.
From S2P Require Import BalancerSocket.
Local Open Scope Z_scope.

Section Facts.
Context `{JsonTypes} `{LlamaTypes} {chan : Type -> Type} `{!UnboundedChannel chan} {token : Type}.
Context {sender receiver : Type} `{!WatchChannel sender receiver}.
Context (from_str : string -> result ManagementMessage string) (print_size : Z -> string).
Context (VERSION : string).
Local Abbreviation Agents := (@BalancerAgents _ _ chan token sender).
Local Abbreviation Connection := (@AgentConnection _ _ token).
Local Abbreviation Pool := (AgentControllerPool chan token sender).
Local Abbreviation step := (balancer_step from_str print_size VERSION).
Local Abbreviation run := (balancer_run from_str print_size VERSION).
Local Abbreviation Event := (@BalancerEvent token).

(** ** What handlers do to the pool *)

Definition pooled (y : Agents) (id : string) : option nat := agents (agent_controller_pool y) !! id.

Lemma register_insert_agents (id : string) (loc : nat) (a : Controller.AgentController chan token)
    (p : Pool) :
  agents (register_insert id loc a p).1 = <[id := loc]> (agents p).
Proof. unfold register_insert, register_agent_controller. simpl. by destruct (agents p !! id). Qed.

Lemma register_send_agents (loc : nat) (h : @BalancerApplicableStateHolder sender) (p : Pool) :
  agents (register_send_state loc h p).1 = agents p.
Proof.
  unfold register_send_state. destruct (get_agent_desired_state h); [|done].
  destruct (controllers p !! loc); [|done]. by destruct (Controller.set_desired_state _ _).
Qed.

Lemma handle_update_agents (c : Connection) (snapshot : Snapshot.SlotAggregatedStatusSnapshot) (p : Pool) :
  agents (handle_update c snapshot p) = agents p.
Proof.
  unfold handle_update. destruct (get_agent_controller _ p); [|done].
  destruct (controllers p !! _); [|done].
  destruct (Controller.update_from_slot_aggregated_status_snapshot _ _) as [? []]; done.
Qed.

Definition registers_agent (message : ManagementMessage) : bool :=
  match message with ManagementNotificationMessage (RegisterAgent _ _) => true | _ => false end.

(** A handler only enters the agent of its connection. *)
Lemma handle_message_pooled (n : nat) (c : Connection) (message : ManagementMessage) (y : Agents)
    (id : string) :
  pooled (handle_agent_message n c message y).1 id = pooled y id \/
  (registers_agent message = true /\ id = agent_id c /\
   pooled (handle_agent_message n c message y).1 id = Some (next_controller y)).
Proof.
  unfold pooled. destruct message as [e|[|name_ snapshot|snapshot]|e]; simpl.
  - by left.
  - by left.
  - unfold handle_register_agent. simpl.
    match goal with |- context [register_insert ?i ?l ?a ?p] =>
      pose proof (register_insert_agents i l a p) as Hins; destruct (register_insert i l a p) as [p1 [|]]
    end; simpl in *.
    + match goal with |- context [register_send_state ?l ?h ?p] =>
        pose proof (register_send_agents l h p) as Hsend; destruct (register_send_state l h p) as [p2 [|]]
      end; simpl in *; rewrite Hsend, Hins, lookup_insert; case_decide; auto.
    + rewrite Hins, lookup_insert. case_decide; auto.
  - rewrite handle_update_agents. by left.
  - unfold handle_response. destruct (Messages.response e); by left.
Qed.

Lemma handle_message_connections (n : nat) (c : Connection) (message : ManagementMessage) (y : Agents)
    (m : nat) :
  connections (handle_agent_message n c message y).1 !! m = connections y !! m \/
  (m = n /\ exists loc, connections (handle_agent_message n c message y).1 !! m
                        = Some (put_forwarder (Some loc) c)).
Proof.
  destruct message as [e|[|name_ snapshot|snapshot]|e]; simpl; try by left.
  - unfold handle_register_agent. simpl.
    destruct (register_insert _ _ _ _) as [p1 [|]]; [|by left].
    destruct (register_send_state _ _ _) as [p2 [|]]; [|by left].
    simpl. destruct (decide (n = m)) as [->|Hne].
    + right. split; [done|]. rewrite lookup_insert_eq. by eexists.
    + left. by rewrite lookup_insert_ne.
  - unfold handle_response. destruct (Messages.response e); by left.
Qed.

(** ** Agents of the pool are connected *)

(** A context that was dropped has nothing left that could register. *)
Definition connection_ok (c : Connection) : Prop :=
  (match session_phase (session c) with SessionClosed _ => session_close (session c) = true | _ => True end) /\
  (context_held c = false ->
     spawned (session c) = [] /\ forwarder c = None /\
     exists close_reason, session_phase (session c) = SessionClosed close_reason).

Record agents_inv (y : Agents) : Prop := {
  agents_connected (id : string) (loc : nat) : pooled y id = Some loc ->
    exists n c, connections y !! n = Some c /\ agent_id c = id /\ context_held c = true;
  connections_ok (n : nat) (c : Connection) : connections y !! n = Some c -> connection_ok c;
}.

Lemma put_connection_inv (n : nat) (c c' : Connection) (y : Agents)
    (Hc : connections y !! n = Some c) (Hid : agent_id c' = agent_id c)
    (Hheld : context_held c' = context_held c) (Hok : connection_ok c') (Hinv : agents_inv y) :
  agents_inv (put_connection n c' y).
Proof.
  destruct Hinv as [Ha Ho]. split; simpl.
  - intros id loc Hpooled. destruct (Ha id loc Hpooled) as (m & cm & Hm & Hidm & Hheldm).
    destruct (decide (n = m)) as [->|Hne].
    + exists m, c'. rewrite lookup_insert_eq. rewrite Hc in Hm. injection Hm as <-.
      split_and!; congruence.
    + exists m, cm. by rewrite lookup_insert_ne.
  - intros m cm [[-> <-]|[_ Hm]]%lookup_insert_Some; [done|by eapply Ho].
Qed.

Lemma agents_inv_pool (p : Pool) (y : Agents)
    (Hagents : forall id loc, agents p !! id = Some loc -> exists loc', pooled y id = Some loc')
    (Hinv : agents_inv y) :
  agents_inv (put_pool p y).
Proof.
  destruct Hinv as [Ha Ho]. split; simpl; [|exact Ho].
  intros id loc Hpooled. destruct (Hagents id loc Hpooled) as [loc' ?]. by apply (Ha id loc').
Qed.

Lemma session_turn_ok (turn : SessionTurn) (c : Connection) (Hok : connection_ok c) :
  connection_ok (put_session (session_turn from_str print_size turn (session c)) c).
Proof.
  destruct Hok as [Hclose Hdropped]. unfold connection_ok. simpl.
  destruct (session_phase (session c)) as [|reason] eqn:Hphase.
  - assert (Hheld : context_held c = true).
    { destruct (context_held c); [done|]. destruct (Hdropped eq_refl) as (_ & _ & ? & ?). congruence. }
    split; [|congruence]. unfold session_turn. rewrite Hphase.
    destruct turn as [msg|written| |]; simpl.
    + destruct (handle_aggregated_message from_str print_size msg) as [[message|] [|]]; simpl;
        rewrite ?Hphase; done.
    + destruct written; simpl; by rewrite ?Hphase.
    + destruct (session_close (session c)); simpl; by rewrite ?Hphase.
    + done.
  - unfold session_turn. rewrite Hphase. by rewrite Hphase.
Qed.

Lemma handled_ok (decision : result ContinuationDecision string) (c : Connection)
    (Hheld : context_held c = true) (Hok : connection_ok c) :
  connection_ok (put_session (handled decision (session c)) c).
Proof.
  destruct Hok as [Hclose _]. split; simpl; [|congruence].
  destruct decision as [[|]|]; simpl; [done| |]; by destruct (session_phase (session c)).
Qed.

Lemma take_spawned_ok (index : nat) (message : ManagementMessage) (s : Session ManagementMessage)
    (c : Connection) (Hok : connection_ok c) (Htake : take_spawned index (session c) = Some (message, s)) :
  context_held c = true /\ connection_ok (put_session s c) /\
  spawned (session c) !! index = Some message.
Proof.
  destruct Hok as [Hclose Hdropped]. unfold take_spawned in Htake.
  destruct (spawned (session c) !! index) eqn:Hindex; [|done]. simplify_eq/=.
  assert (Hheld : context_held c = true).
  { destruct (context_held c); [done|]. destruct (Hdropped eq_refl) as (Hnil & _).
    by rewrite Hnil in Hindex. }
  split; [done|]. split; [|done]. split; simpl; [done|congruence].
Qed.

Lemma handle_agent_message_inv (n : nat) (c : Connection) (message : ManagementMessage) (y : Agents)
    (Hc : connections y !! n = Some c) (Hheld : context_held c = true) (Hinv : agents_inv y) :
  agents_inv (handle_agent_message n c message y).1.
Proof.
  pose proof Hinv as [Ha Ho].
  assert (Hconn : forall m cm, connections y !! m = Some cm ->
    exists cm', connections (handle_agent_message n c message y).1 !! m = Some cm' /\
      agent_id cm' = agent_id cm /\ context_held cm' = context_held cm).
  { intros m cm Hm. destruct (handle_message_connections n c message y m) as [->|(-> & loc & ->)].
    - by exists cm.
    - exists (put_forwarder (Some loc) c). rewrite Hc in Hm. by injection Hm as <-. }
  split.
  - intros id loc Hpooled.
    destruct (handle_message_pooled n c message y id) as [Hsame|(_ & -> & _)].
    + rewrite Hsame in Hpooled. destruct (Ha id loc Hpooled) as (m & cm & Hm & Hid & Hh).
      destruct (Hconn m cm Hm) as (cm' & ? & ? & ?). exists m, cm'. split_and!; congruence.
    + destruct (Hconn n c Hc) as (c' & ? & ? & ?). exists n, c'. split_and!; congruence.
  - intros m cm Hm.
    destruct (handle_message_connections n c message y m) as [E|(-> & loc & E)]; rewrite E in Hm.
    + by apply (Ho m).
    + injection Hm as <-. destruct (Ho n c Hc) as [Hclose _]. split; simpl; [done|congruence].
Qed.

Lemma run_handler_inv (n index : nat) (y : Agents) (Hinv : agents_inv y) :
  agents_inv (run_handler n index y).
Proof.
  unfold run_handler. destruct (connections y !! n) as [c|] eqn:Hc; [|done].
  destruct (take_spawned index (session c)) as [[message s]|] eqn:Htake; [|done].
  destruct (take_spawned_ok index message s c (connections_ok _ Hinv n c Hc) Htake) as (Hheld & Hok & _).
  assert (Hinv1 : agents_inv (put_connection n (put_session s c) y))
    by by apply (put_connection_inv n c).
  pose proof (handle_agent_message_inv n (put_session s c) message (put_connection n (put_session s c) y)) as Hinv2.
  specialize (Hinv2 (lookup_insert_eq _ _ _) Hheld Hinv1).
  pose proof (handle_message_connections n (put_session s c) message
    (put_connection n (put_session s c) y) n) as Hconn.
  destruct (handle_agent_message _ _ _ _) as [y2 decision]. simpl in *.
  destruct (connections y2 !! n) as [c2|] eqn:Hc2; [|done].
  assert (Hheld2 : context_held c2 = true).
  { rewrite lookup_insert_eq in Hconn. destruct Hconn as [[= ->]|(_ & loc & [= ->])]; done. }
  apply (put_connection_inv n c2); try done.
  apply handled_ok; [done|]. by apply (connections_ok _ Hinv2 n).
Qed.

Lemma run_forwarder_inv (n : nat) (written : bool) (y : Agents) (Hinv : agents_inv y) :
  agents_inv (run_forwarder n written y).
Proof.
  unfold run_forwarder. destruct (connections y !! n) as [c|] eqn:Hc; [|done].
  destruct (forwarder c) as [loc|] eqn:Hf; [|done].
  pose proof (connections_ok _ Hinv n c Hc) as [Hclose Hdropped].
  assert (Hheld : context_held c = true).
  { destruct (context_held c); [done|]. destruct (Hdropped eq_refl) as (_ & ? & _). congruence. }
  destruct (session_close (session c)) eqn:Hsc.
  - apply (put_connection_inv n c); simpl; try done.
    + split; simpl; [|congruence]. rewrite Hsc. by destruct (session_phase (session c)).
    + apply agents_inv_pool; [|done]. simpl. intros id loc' Hid. by exists loc'.
  - destruct (controllers (agent_controller_pool y) !! loc) as [a|]; [|done].
    destruct (chan_try_recv _) as [[message tx]|]; [|done].
    apply (put_connection_inv n c); simpl; try done.
    + split; simpl; [by rewrite Hsc|congruence].
    + apply agents_inv_pool; [|done]. simpl. intros id loc' Hid. by exists loc'.
Qed.

Lemma remove_agents (id : string) (p : Pool) :
  agents (remove_agent_controller id p).1 = delete id (agents p).
Proof. unfold remove_agent_controller. by destruct (agents p !! id). Qed.

Lemma drop_context_inv (n : nat) (y : Agents) (Hinv : agents_inv y) : agents_inv (drop_context n y).
Proof.
  unfold drop_context. destruct (connections y !! n) as [c|] eqn:Hc; [|done].
  destruct (session_phase (session c)) as [|close_reason] eqn:Hphase; [done|].
  destruct (spawned (session c)) as [|] eqn:Hspawned; [|done].
  destruct (forwarder c) eqn:Hf; [done|]. destruct (context_held c) eqn:Hheld; [|done].
  destruct Hinv as [Ha Ho]. split; simpl.
  - intros id loc. unfold pooled. simpl. rewrite remove_agents.
    intros [Hne Hpooled]%lookup_delete_Some.
    destruct (Ha id loc Hpooled) as (m & cm & Hm & Hid & Hhm).
    destruct (decide (n = m)) as [->|Hnm]; [congruence|].
    exists m, cm. by rewrite lookup_insert_ne.
  - intros m cm [[-> <-]|[_ Hm]]%lookup_insert_Some; [|by eapply Ho].
    destruct (Ho m c Hc) as [Hclose _]. split; simpl; [done|]. intros _. split_and!; try done.
    by exists close_reason.
Qed.

Lemma open_connection_inv (n : nat) (id : string) (close : token) (version_written : bool) (y : Agents)
    (Hn : connections y !! n = None) (Hinv : agents_inv y) :
  agents_inv (open_connection VERSION n id close version_written y).
Proof.
  destruct Hinv as [Ha Ho]. split; simpl.
  - intros id' loc Hpooled. destruct (Ha id' loc Hpooled) as (m & cm & Hm & Hid & Hh).
    exists m, cm. rewrite lookup_insert_ne; [done|congruence].
  - intros m cm [[-> <-]|[_ Hm]]%lookup_insert_Some; [|by eapply Ho].
    split; simpl; [by destruct version_written|done].
Qed.

Lemma balancer_step_inv (event : BalancerEvent) (y : Agents) (Hinv : agents_inv y) :
  agents_inv (step event y).
Proof.
  destruct event as [n id close version_written|n turn|n index|n written|n]; simpl.
  - destruct (connections y !! n) eqn:Hn; [done|by apply open_connection_inv].
  - destruct (connections y !! n) as [c|] eqn:Hc; [|done].
    apply (put_connection_inv n c); try done. apply session_turn_ok. by apply (connections_ok _ Hinv n).
  - by apply run_handler_inv.
  - by apply run_forwarder_inv.
  - by apply drop_context_inv.
Qed.

Lemma balancer_run_inv (events : list BalancerEvent) (y : Agents) (Hinv : agents_inv y) :
  agents_inv (run events y).
Proof.
  revert y Hinv. induction events as [|event events IH]; intros y Hinv; [done|].
  apply IH. by apply balancer_step_inv.
Qed.

(** No agent and no connection yet. *)
Definition no_agents (y : Agents) : Prop :=
  agents (agent_controller_pool y) = ∅ /\ connections y = ∅.

Lemma no_agents_inv (y : Agents) : no_agents y -> agents_inv y.
Proof.
  intros [Hagents Hconns]. split; unfold pooled; rewrite ?Hagents, ?Hconns; intros *; by rewrite lookup_empty.
Qed.

(** ** A connection that ends *)

Definition session_ended (c : Connection) : Prop :=
  exists close_reason, session_phase (session c) = SessionClosed close_reason.

(** A handler that ran, on a session that ended. *)
Lemma run_handler_ended (n : nat) (y : Agents) (c : Connection) (message : ManagementMessage)
    (rest : list ManagementMessage) (Hc : connections y !! n = Some c)
    (Hspawned : spawned (session c) = message :: rest) (Hended : session_ended c)
    (Hheld : context_held c = true) :
  exists c', connections (run_handler n 0 y) !! n = Some c' /\ agent_id c' = agent_id c /\
    spawned (session c') = rest /\ session_ended c' /\ context_held c' = true.
Proof.
  unfold run_handler, take_spawned. rewrite Hc, Hspawned. simpl.
  match goal with |- context [handle_agent_message n ?c1 message ?y1] =>
    pose proof (handle_message_connections n c1 message y1 n) as Hconn;
    destruct (handle_agent_message n c1 message y1) as [y2 decision]
  end.
  simpl in Hconn. rewrite lookup_insert_eq in Hconn. destruct Hended as [close_reason Hphase].
  assert (Hhandled : forall s : Session ManagementMessage, session_phase s = SessionClosed close_reason ->
    session_phase (handled decision s) = SessionClosed close_reason /\
    spawned (handled decision s) = spawned s) by (intros s Hs; by destruct decision as [[|]|]).
  destruct Hconn as [->|(_ & loc & ->)]; eexists; simpl; rewrite lookup_insert_eq;
    (split; [done|]); simpl; (split; [done|]);
    match goal with |- context [handled decision ?s] => destruct (Hhandled s Hphase) as [E1 E2] end;
    (split; [done|]); (split; [by exists close_reason|done]).
Qed.

Lemma run_handlers_ended (messages : list ManagementMessage) (n : nat) (y : Agents) (c : Connection)
    (Hc : connections y !! n = Some c) (Hspawned : spawned (session c) = messages)
    (Hended : session_ended c) (Hheld : context_held c = true) :
  exists c', connections (run (replicate (length messages) (HandlerRuns n 0)) y) !! n = Some c' /\
    agent_id c' = agent_id c /\ spawned (session c') = [] /\ session_ended c' /\
    context_held c' = true.
Proof.
  revert y c Hc Hspawned Hended Hheld.
  induction messages as [|message messages IH]; intros y c Hc Hspawned Hended Hheld; [by exists c|].
  destruct (run_handler_ended n y c message messages Hc Hspawned Hended Hheld)
    as (c1 & Hc1 & Hid1 & Hs1 & He1 & Hh1).
  destruct (IH (run_handler n 0 y) c1 Hc1 Hs1 He1 Hh1) as (c2 & Hc2 & Hid2 & ?).
  exists c2. split; [exact Hc2|]. split; [congruence|done].
Qed.

Lemma run_app (events1 events2 : list BalancerEvent) (y : Agents) :
  run (events1 ++ events2) y = run events2 (run events1 y).
Proof. apply fold_left_app. Qed.

(** C24. The pool follows the connections: in every run of the balancer's
    sockets every agent of the pool has a connection whose context is alive;
    and once the session of a connection ended, its waiting handlers, one turn
    of its forwarding task and the drop of its context take its agent out of
    the pool, whatever the handlers do. *)
Theorem pool_follows_connections (events : list BalancerEvent) (y0 : Agents) (Hstart : no_agents y0) :
  let y := run events y0 in
  (forall id loc, pooled y id = Some loc ->
     exists n c, connections y !! n = Some c /\ agent_id c = id /\ context_held c = true) /\
  (forall n c, connections y !! n = Some c -> session_ended c -> context_held c = true ->
     pooled (run (replicate (length (spawned (session c))) (HandlerRuns n 0)
                  ++ [ForwarderRuns n true; ContextDrops n]) y) (agent_id c) = None).
Proof.
  intros y. pose proof (balancer_run_inv events y0 (no_agents_inv y0 Hstart)) as Hinv. fold y in Hinv.
  split; [apply Hinv|]. intros n c Hc Hended Hheld. rewrite run_app.
  destruct (run_handlers_ended (spawned (session c)) n y c Hc eq_refl Hended Hheld)
    as (c1 & Hc1 & Hid1 & Hs1 & He1 & Hh1).
  pose proof (balancer_run_inv (replicate (length (spawned (session c))) (HandlerRuns n 0)) y Hinv) as Hinv1.
  set (y1 := run (replicate _ _) y) in *.
  destruct (connections_ok _ Hinv1 n c1 Hc1) as [Hclose _].
  destruct He1 as [close_reason Hphase]. rewrite Hphase in Hclose.
  assert (Hforward : exists c2, connections (run_forwarder n true y1) !! n = Some c2 /\
    agent_id c2 = agent_id c /\ spawned (session c2) = [] /\ forwarder c2 = None /\
    session_phase (session c2) = SessionClosed close_reason /\ context_held c2 = true).
  { unfold run_forwarder. rewrite Hc1. destruct (forwarder c1) eqn:Hf; [|by exists c1].
    rewrite Hclose. eexists. simpl. rewrite lookup_insert_eq. split; [done|]. by split_and!. }
  destruct Hforward as (c2 & Hc2 & Hid2 & Hs2 & Hf2 & Hp2 & Hh2).
  simpl. unfold drop_context. rewrite Hc2, Hp2, Hs2, Hf2, Hh2. unfold pooled. simpl.
  rewrite remove_agents, <- Hid2. apply lookup_delete_eq.
Qed.

(** ** Answers reach their request *)

Definition token_answer (id : string) (message : ManagementMessage) : option GeneratedTokenResult :=
  match answer id message with Some (ResponseGeneratedToken r) => Some r | _ => None end.

(** The controller of a request, with the channel it receives on. *)
Definition receives_on (id : string) (rx : nat) (s : SenderCollection chan GeneratedTokenResult) : Prop :=
  senders s !! id = Some rx /\
  (forall other, senders s !! other = Some rx -> other = id) /\
  exists c, channels s !! rx = Some c /\ chan_receiver_alive c = true.

Definition pending_tokens (rx : nat) (s : SenderCollection chan GeneratedTokenResult)
    : list GeneratedTokenResult :=
  match channels s !! rx with Some c => chan_pending c | None => [] end.

Lemma forward_response_receives (id other : string) (rx : nat) (r : GeneratedTokenResult)
    (s : SenderCollection chan GeneratedTokenResult) (Hreceives : receives_on id rx s) :
  receives_on id rx (forward_response_safe other r s) /\
  pending_tokens rx (forward_response_safe other r s)
  = pending_tokens rx s ++ (if bool_decide (other = id) then [r] else []).
Proof.
  destruct Hreceives as (Hid & Hunique & c & Hc & Halive).
  assert (Hkeep : receives_on id rx s) by by split_and!; eauto.
  unfold forward_response_safe, forward_response.
  destruct (senders s !! other) as [ch|] eqn:Hother.
  2: { rewrite bool_decide_eq_false_2 by congruence. by rewrite app_nil_r. }
  case_bool_decide as Heq.
  - subst other. rewrite Hid in Hother. injection Hother as <-. rewrite Hc. simpl.
    destruct (chan_send c r) as [c'|] eqn:Hsend.
    + apply chan_send_some in Hsend as [Hp Ha]. unfold pending_tokens. simpl.
      rewrite lookup_insert_eq, Hc, Hp. split; [|done]. unfold receives_on. simpl.
      split_and!; [done|done|]. exists c'. by rewrite lookup_insert_eq.
    + apply (chan_send_none c r) in Hsend. congruence.
  - rewrite app_nil_r. assert (Hne : ch <> rx) by (intros ->; by apply Heq, Hunique).
    destruct (channels s !! ch ≫= _) as [c'|]; [|done].
    unfold pending_tokens, receives_on. simpl. rewrite lookup_insert_ne by done.
    split; [|done]. split_and!; [done|done|]. by exists c.
Qed.

Lemma handle_message_tokens (n : nat) (c : Connection) (message : ManagementMessage) (y : Agents)
    (id : string) (rx : nat) (Hreceives : receives_on id rx (generated_tokens y)) :
  let y' := (handle_agent_message n c message y).1 in
  receives_on id rx (generated_tokens y') /\
  pending_tokens rx (generated_tokens y')
  = pending_tokens rx (generated_tokens y) ++ option_list (token_answer id message).
Proof.
  assert (Hsame : forall y' : Agents, generated_tokens y' = generated_tokens y ->
    token_answer id message = None ->
    receives_on id rx (generated_tokens y') /\
    pending_tokens rx (generated_tokens y')
    = pending_tokens rx (generated_tokens y) ++ option_list (token_answer id message)).
  { intros y' -> ->. by rewrite app_nil_r. }
  destruct message as [e|[|name_ snapshot|snapshot]|e]; simpl; try (by apply Hsame).
  - apply Hsame; [|done]. unfold handle_register_agent.
    destruct (register_insert _ _ _ _) as [p1 [|]]; [|done].
    by destruct (register_send_state _ _ _) as [p2 [|]].
  - unfold handle_response, token_answer, answer.
    destruct (Messages.response e) as [r|r|r|r] eqn:Hr; simpl;
      try (case_bool_decide; simpl; by rewrite app_nil_r).
    destruct (forward_response_receives id (response_request_id e) rx r (generated_tokens y) Hreceives)
      as [Hk ->]. split; [done|]. by case_bool_decide.
Qed.

(** What the loop of connection [n] reads with an event. *)
Definition read_by (n : nat) (event : Event) (y : Agents) : list ManagementMessage :=
  match event with
  | SessionTurns m (NextMessage msg) =>
      if bool_decide (m = n) then
        match connections y !! n with
        | Some c =>
            match session_phase (session c), (handle_aggregated_message from_str print_size msg) with
            | SessionOpen, (Some message, ContinueSession) => [message]
            | _, _ => []
            end
        | None => []
        end
      else []
  | _ => []
  end.

Fixpoint read_in_run (n : nat) (events : list Event) (y : Agents) : list ManagementMessage :=
  match events with
  | [] => []
  | event :: events => read_by n event y ++ read_in_run n events (step event y)
  end.

(** The handlers of [n] run in the order of their messages, and no other agent
    answers the request. *)
Definition event_in_order (n : nat) (id : string) (event : Event) : Prop :=
  match event with
  | HandlerRuns m index => m = n -> index = 0%nat
  | SessionTurns m (NextMessage (Some (Ok (AggregatedText text)))) =>
      m <> n -> forall message, from_str text = Ok message -> token_answer id message = None
  | _ => True
  end.

Record delivery_inv (n : nat) (id : string) (rx : nat) (waiting : list ManagementMessage)
    (pending : list GeneratedTokenResult) (y : Agents) : Prop := {
  deliver_waiting : exists c, connections y !! n = Some c /\ spawned (session c) = waiting;
  deliver_others (m : nat) (c : Connection) : m <> n -> connections y !! m = Some c ->
    Forall (fun message => token_answer id message = None) (spawned (session c));
  deliver_rx : receives_on id rx (generated_tokens y);
  deliver_pending : pending_tokens rx (generated_tokens y) = pending;
}.

(** A connection is replaced by one that waits for the same handlers. *)
Lemma delivery_put (n m : nat) (id : string) (rx : nat) (waiting waiting' : list ManagementMessage)
    (pending : list GeneratedTokenResult) (y : Agents) (c : Connection)
    (Hn : m = n -> spawned (session c) = waiting') (Hkeep : m <> n -> waiting' = waiting)
    (Hm : m <> n -> Forall (fun message => token_answer id message = None) (spawned (session c)))
    (Hinv : delivery_inv n id rx waiting pending y) :
  delivery_inv n id rx waiting' pending (put_connection m c y).
Proof.
  destruct Hinv as [(cn & Hcn & Hw) Ho Hr Hp]. split; simpl; try done.
  - destruct (decide (m = n)) as [->|Hne].
    + exists c. rewrite lookup_insert_eq. auto.
    + exists cn. rewrite lookup_insert_ne by done. rewrite Hkeep by done. done.
  - intros k ck Hk [[-> <-]|[_ Hck]]%lookup_insert_Some; [by apply Hm|by apply (Ho k)].
Qed.

Lemma delivery_pool (n : nat) (id : string) (rx : nat) (waiting : list ManagementMessage)
    (pending : list GeneratedTokenResult) (y : Agents) (p : Pool) :
  delivery_inv n id rx waiting pending y -> delivery_inv n id rx waiting pending (put_pool p y).
Proof. intros [Hw Ho Hr Hp]. by split. Qed.

Lemma session_turn_spawned (turn : SessionTurn) (s : Session ManagementMessage) :
  spawned (session_turn from_str print_size turn s) = spawned s ++
    match session_phase s, turn with
    | SessionOpen, NextMessage msg =>
        match handle_aggregated_message from_str print_size msg with
        | (Some message, ContinueSession) => [message]
        | _ => []
        end
    | _, _ => []
    end.
Proof.
  unfold session_turn. destruct (session_phase s); [|by rewrite app_nil_r].
  destruct turn as [msg|written| |]; simpl.
  - destruct (handle_aggregated_message from_str print_size msg) as [[message|] [|]]; simpl;
      by rewrite ?app_nil_r.
  - destruct written; by rewrite app_nil_r.
  - destruct (session_close s); by rewrite app_nil_r.
  - by rewrite app_nil_r.
Qed.

(** Only a text that parses is handled. *)
Lemma read_text (msg : option (result AggregatedMessage ProtocolError)) (message : ManagementMessage)
    (decision : ContinuationDecision)
    (Hread : handle_aggregated_message from_str print_size msg = (Some message, decision)) :
  exists text, msg = Some (Ok (AggregatedText text)) /\ from_str text = Ok message.
Proof.
  unfold handle_aggregated_message, handle_text_message in Hread.
  repeat (case_match; simplify_eq/=); by eexists.
Qed.

Lemma handled_spawned (decision : result ContinuationDecision string) (s : Session ManagementMessage) :
  spawned (handled decision s) = spawned s.
Proof. by destruct decision as [[|]|]. Qed.

(** A handler of connection [m] runs. *)
Lemma run_handler_delivers (m index n : nat) (id : string) (rx : nat)
    (waiting : list ManagementMessage) (pending : list GeneratedTokenResult) (y : Agents)
    (Hindex : m = n -> index = 0%nat) (Hinv : delivery_inv n id rx waiting pending y) :
  exists handled waiting', waiting = handled ++ waiting' /\
    delivery_inv n id rx waiting' (pending ++ omap (token_answer id) handled) (run_handler m index y).
Proof.
  assert (Hsame : exists handled waiting', waiting = handled ++ waiting' /\
    delivery_inv n id rx waiting' (pending ++ omap (token_answer id) handled) y).
  { exists [], waiting. simpl. by rewrite app_nil_r. }
  unfold run_handler. destruct (connections y !! m) as [c|] eqn:Hc; [|done].
  unfold take_spawned. destruct (spawned (session c) !! index) as [message|] eqn:Hmessage; [|done].
  set (s := {| session_phase := _; session_close := _; spawned := delete index (spawned (session c)) |}).
  set (y1 := put_connection m (put_session s c) y).
  pose proof Hinv as [(cn & Hcn & Hw) Ho Hr Hp].
  pose proof (handle_message_tokens m (put_session s c) message y1 id rx Hr) as [Hr2 Hp2].
  pose proof (fun k => handle_message_connections m (put_session s c) message y1 k) as Hconn.
  destruct (handle_agent_message m (put_session s c) message y1) as [y2 decision].
  simpl in Hr2, Hp2, Hconn.
  assert (Hm2 : exists c2, connections y2 !! m = Some c2 /\
    spawned (session c2) = delete index (spawned (session c))).
  { specialize (Hconn m). rewrite lookup_insert_eq in Hconn.
    destruct Hconn as [->|(_ & loc & ->)]; by eexists. }
  destruct Hm2 as (c2 & Hc2 & Hs2). rewrite Hc2.
  assert (Hothers : forall k ck, k <> m -> connections y2 !! k = Some ck -> connections y !! k = Some ck).
  { intros k ck Hk Hck. destruct (Hconn k) as [E|(-> & _)]; [|done].
    rewrite lookup_insert_ne in E by done. congruence. }
  destruct (decide (m = n)) as [->|Hne].
  - rewrite (Hindex eq_refl) in *. rewrite Hc in Hcn. injection Hcn as <-.
    destruct waiting as [|message' waiting]; rewrite Hw in Hmessage; simplify_eq/=.
    exists [message], waiting. split; [done|]. split; simpl.
    + eexists. rewrite lookup_insert_eq. split; [done|]. simpl.
      by rewrite handled_spawned, Hs2, Hw.
    + intros k ck Hk [[-> <-]|[_ Hck]]%lookup_insert_Some; [done|]. apply (Ho k); auto.
    + done.
    + rewrite Hp2. simpl. by destruct (token_answer id message).
  - exists [], waiting. simpl. rewrite app_nil_r. split; [done|].
    pose proof (Ho m c Hne Hc) as Hall.
    assert (Hanswer : token_answer id message = None) by (by eapply Forall_lookup_1 in Hall).
    split; simpl.
    + exists cn. rewrite lookup_insert_ne by done. split; [|done].
      destruct (Hconn n) as [->|(-> & _)]; [|done]. by rewrite lookup_insert_ne.
    + intros k ck Hk [[-> <-]|[Hkm Hck]]%lookup_insert_Some; [|apply (Ho k); auto].
      simpl. rewrite handled_spawned, Hs2. by apply Forall_delete.
    + done.
    + rewrite Hp2, Hanswer. simpl. by rewrite app_nil_r.
Qed.

Lemma balancer_step_delivers (event : Event) (n : nat) (id : string) (rx : nat)
    (waiting : list ManagementMessage) (pending : list GeneratedTokenResult) (y : Agents)
    (Hevent : event_in_order n id event) (Hinv : delivery_inv n id rx waiting pending y) :
  exists handled waiting', waiting ++ read_by n event y = handled ++ waiting' /\
    delivery_inv n id rx waiting' (pending ++ omap (token_answer id) handled) (step event y).
Proof.
  pose proof Hinv as [(cn & Hcn & Hw) Ho Hr Hp].
  assert (Hsame : forall y', delivery_inv n id rx waiting pending y' ->
    exists handled waiting', waiting ++ [] = handled ++ waiting' /\
      delivery_inv n id rx waiting' (pending ++ omap (token_answer id) handled) y').
  { intros y' Hy'. exists [], waiting. simpl. by rewrite !app_nil_r. }
  destruct event as [m other close version_written|m turn|m index|m written|m]; simpl.
  - apply Hsame. destruct (connections y !! m) as [|] eqn:Hm; [done|].
    apply (delivery_put n m id rx waiting waiting); simpl; try done; [congruence|].
    intros _. by destruct version_written.
  - destruct (connections y !! m) as [c|] eqn:Hm.
    2: { destruct turn as [msg| | |]; try by apply Hsame.
         rewrite bool_decide_eq_false_2 by congruence. by apply Hsame. }
    pose proof (session_turn_spawned turn (session c)) as Hspawned.
    destruct (decide (m = n)) as [->|Hne].
    + rewrite Hcn in Hm. injection Hm as <-.
      exists [], (spawned (session_turn from_str print_size turn (session cn))). split.
      * rewrite Hspawned, Hw. simpl. f_equal. destruct turn as [msg| | |];
          try (by destruct (session_phase (session cn))).
        rewrite bool_decide_eq_true_2, Hcn by done. by destruct (session_phase (session cn)).
      * simpl. rewrite app_nil_r. by apply (delivery_put n n id rx waiting).
    + assert (Hread : read_by n (SessionTurns m turn) y = []).
      { simpl. destruct turn; [|done..]. by rewrite bool_decide_eq_false_2. }
      simpl in Hread. rewrite Hread. apply Hsame.
      apply (delivery_put n m id rx waiting waiting); try done. intros _. simpl. rewrite Hspawned.
      apply Forall_app. split; [by apply (Ho m)|].
      destruct (session_phase (session c)); [|constructor]. destruct turn as [msg| | |]; try constructor.
      destruct (handle_aggregated_message from_str print_size msg) as [[message|] [|]] eqn:Ha;
        try constructor; [|constructor].
      apply read_text in Ha as (text & -> & Hparse). simpl in Hevent. auto.
  - rewrite app_nil_r. by apply run_handler_delivers.
  - apply Hsame. unfold run_forwarder. destruct (connections y !! m) as [c|] eqn:Hm; [|done].
    destruct (forwarder c) as [loc|]; [|done].
    assert (Hkeep : forall c' p, session c' = session c ->
      delivery_inv n id rx waiting pending (put_connection m c' (put_pool p y))).
    { intros c' p Hs. apply (delivery_put n m id rx waiting waiting); [|done| |by apply delivery_pool].
      - intros ->. rewrite Hcn in Hm. injection Hm as <-. by rewrite Hs.
      - intros Hne. rewrite Hs. by apply (Ho m). }
    destruct (session_close (session c)); [by apply Hkeep|].
    destruct (controllers _ !! loc) as [a|]; [|done]. destruct (chan_try_recv _) as [[message tx]|]; [|done].
    by apply Hkeep.
  - apply Hsame. unfold drop_context. destruct (connections y !! m) as [c|] eqn:Hm; [|done].
    destruct (session_phase (session c)); [done|]. destruct (spawned (session c)) eqn:Hs; [|done].
    destruct (forwarder c); [done|]. destruct (context_held c); [|done].
    apply (delivery_put n m id rx waiting waiting); simpl; try done; [| |by apply delivery_pool].
    + intros ->. rewrite Hcn in Hm. injection Hm as <-. done.
    + intros Hne. by apply (Ho m).
Qed.

Lemma balancer_run_delivers (events : list Event) (n : nat) (id : string) (rx : nat)
    (waiting : list ManagementMessage) (pending : list GeneratedTokenResult) (y : Agents)
    (Hevents : Forall (event_in_order n id) events) (Hinv : delivery_inv n id rx waiting pending y) :
  exists handled waiting', waiting ++ read_in_run n events y = handled ++ waiting' /\
    delivery_inv n id rx waiting' (pending ++ omap (token_answer id) handled) (run events y).
Proof.
  revert waiting pending y Hinv.
  induction Hevents as [|event events Hevent _ IH]; intros waiting pending y Hinv.
  - exists [], waiting. simpl. by rewrite !app_nil_r.
  - destruct (balancer_step_delivers event n id rx waiting pending y Hevent Hinv)
      as (handled1 & waiting1 & Heq1 & Hinv1).
    destruct (IH waiting1 _ (step event y) Hinv1) as (handled2 & waiting2 & Heq2 & Hinv2).
    exists (handled1 ++ handled2), waiting2. split.
    + simpl. by rewrite app_assoc, Heq1, <- !app_assoc, Heq2.
    + rewrite omap_app, app_assoc. exact Hinv2.
Qed.

(** C25. The tokens of an agent reach their request in order: while the
    handlers of a connection run in the order of their messages, the request
    has received, after what it had, exactly the tokens for its id among the
    messages that were handled, in the order in which they were read; nothing
    is lost, repeated or taken from another request. *)
Theorem tokens_delivered_in_order (events : list Event) (n : nat) (id : string) (rx : nat)
    (y : Agents) (c : Connection) (Hc : connections y !! n = Some c)
    (Hothers : forall m cm, m <> n -> connections y !! m = Some cm ->
       Forall (fun message => token_answer id message = None) (spawned (session cm)))
    (Hrx : receives_on id rx (generated_tokens y))
    (Hevents : Forall (event_in_order n id) events) :
  exists handled c', connections (run events y) !! n = Some c' /\
    spawned (session c) ++ read_in_run n events y = handled ++ spawned (session c') /\
    pending_tokens rx (generated_tokens (run events y))
    = pending_tokens rx (generated_tokens y) ++ omap (token_answer id) handled.
Proof.
  assert (Hinv : delivery_inv n id rx (spawned (session c)) (pending_tokens rx (generated_tokens y)) y)
    by (split; eauto).
  destruct (balancer_run_delivers events n id rx _ _ y Hevents Hinv)
    as (handled & waiting' & Heq & [(c' & Hc' & Hw') _ _ Hp]).
  exists handled, c'. by rewrite Hw'.
Qed.

(** ** Connections of one agent that overlap *)

Definition handles_registration (id : string) (event : Event) (y : Agents) : bool :=
  match event with
  | HandlerRuns n index =>
      match connections y !! n with
      | Some c =>
          bool_decide (agent_id c = id) &&
          match spawned (session c) !! index with
          | Some message => registers_agent message
          | None => false
          end
      | None => false
      end
  | _ => false
  end.

Fixpoint no_registration (id : string) (events : list Event) (y : Agents) : bool :=
  match events with
  | [] => true
  | event :: events => negb (handles_registration id event y) && no_registration id events (step event y)
  end.

(** Only a registration puts an agent into the pool. *)
Lemma joins_by_registering (event : Event) (y : Agents) (id : string)
    (Hout : pooled y id = None) (Hnone : handles_registration id event y = false) :
  pooled (step event y) id = None.
Proof.
  destruct event as [n other close version_written|n turn|n index|n written|n]; simpl in *.
  - by destruct (connections y !! n).
  - by destruct (connections y !! n).
  - unfold run_handler. destruct (connections y !! n) as [c|]; [|done]. unfold take_spawned.
    destruct (spawned (session c) !! index) as [message|]; [|done].
    match goal with |- context [handle_agent_message n ?c1 message ?y1] =>
      pose proof (handle_message_pooled n c1 message y1 id) as Hpool;
      destruct (handle_agent_message n c1 message y1) as [y2 decision]
    end.
    simpl in Hpool. assert (Hy2 : pooled y2 id = None).
    { destruct Hpool as [-> |(Hregisters & -> & _)]; [done|].
      by rewrite bool_decide_eq_true_2, Hregisters in Hnone. }
    by destruct (connections y2 !! n).
  - unfold run_forwarder. destruct (connections y !! n) as [c|]; [|done].
    destruct (forwarder c) as [loc|]; [|done]. destruct (session_close (session c)); [done|].
    destruct (controllers _ !! loc); [|done]. by destruct (chan_try_recv _) as [[? ?]|].
  - unfold drop_context. destruct (connections y !! n) as [c|]; [|done].
    destruct (session_phase (session c)); [done|]. destruct (spawned (session c)); [|done].
    destruct (forwarder c); [done|]. destruct (context_held c); [|done].
    unfold pooled in *. simpl. rewrite remove_agents. apply lookup_delete_None. by right.
Qed.

Lemma joins_by_registering_run (events : list Event) (y : Agents) (id : string)
    (Hout : pooled y id = None) (Hnone : no_registration id events y = true) :
  pooled (run events y) id = None.
Proof.
  revert y Hout Hnone. induction events as [|event events IH]; intros y Hout Hnone; [done|].
  simpl in Hnone. apply andb_true_iff in Hnone as [Hevent Hnone]. apply IH; [|done].
  apply joins_by_registering; [done|]. by apply negb_true_iff.
Qed.

(** The end of an old connection forgets the agent of a new one: when the
    context of a connection is dropped after the agent registered again on
    another connection, the agent leaves the pool although that connection is
    open and its forwarding task holds the controller, and it stays out of
    the pool in every run in which it does not register once more. *)
Theorem late_drop_forgets_agent (old new : nat) (cold cnew : Connection) (loc : nat) (y : Agents)
    (events : list Event) (Hnew : connections y !! new = Some cnew) (Hne : old <> new)
    (Hold : connections y !! old = Some cold) (Hheld : context_held cold = true)
    (Hended : session_ended cold) (Hidle : spawned (session cold) = [] /\ forwarder cold = None)
    (Hsame : agent_id cold = agent_id cnew) (Hpooled : pooled y (agent_id cnew) = Some loc)
    (Hforwarder : forwarder cnew = Some loc) (Hopen : session_phase (session cnew) = SessionOpen)
    (Hevents : no_registration (agent_id cnew) events (step (ContextDrops old) y) = true) :
  let y' := step (ContextDrops old) y in
  connections y' !! new = Some cnew /\
  controllers (agent_controller_pool y') = controllers (agent_controller_pool y) /\
  pooled (run events y') (agent_id cnew) = None.
Proof.
  intros y'. destruct Hidle as [Hs Hf]. destruct Hended as [close_reason Hphase].
  assert (Hy' : connections y' !! new = Some cnew /\
    controllers (agent_controller_pool y') = controllers (agent_controller_pool y) /\
    pooled y' (agent_id cnew) = None).
  { unfold y', pooled. simpl. unfold drop_context. rewrite Hold, Hphase, Hs, Hf, Hheld. simpl.
    rewrite remove_agents, Hsame, lookup_delete_eq, lookup_insert_ne by done.
    unfold remove_agent_controller. by destruct (agents _ !! agent_id cnew). }
  destruct Hy' as (Hconn & Hcontrollers & Hout). split; [done|]. split; [done|].
  by apply joins_by_registering_run.
Qed.
End Facts.

(** ** Runs *)

#[local] Instance sample_json : JsonTypes := {| JsonValue := unit |}.
#[local] Instance sample_llama : LlamaTypes := {| TokenUsage := unit; ParsedToolCall := unit |}.

Definition sample_snapshot : Snapshot.SlotAggregatedStatusSnapshot :=
  Snapshot.Build_SlotAggregatedStatusSnapshot 4 0 None false 0 ∅ None 0 4 Applied f64_zero false 1.

Definition token_of (text : string) : ManagementMessage :=
  ManagementResponse {| generated_by := None; response_request_id := "r";
    Messages.response := ResponseGeneratedToken (ContentToken text) |}.

(** "register" registers, any other text is a token for the request. *)
Definition sample_incoming (text : string) : result ManagementMessage string :=
  if bool_decide (text = "register"%string) then
    Ok (ManagementNotificationMessage (RegisterAgent None sample_snapshot))
  else Ok (token_of text).

Definition sample_collection : SenderCollection QueueChannel GeneratedTokenResult :=
  {| senders := {["r" := 0%nat]}; channels := {[0%nat := chan_new]}; next_channel := 1 |}.

Definition sample_agents : @BalancerAgents _ _ QueueChannel unit nat := {|
  agent_controller_pool := pool_default; balancer_applicable_state_holder := holder_default;
  chat_template_overrides := empty_collection; embeddings := empty_collection;
  generated_tokens := sample_collection; model_metadatas := empty_collection;
  connections := ∅; next_controller := 0%nat |}.

Definition sample_run : list BalancerEvent -> BalancerAgents -> BalancerAgents :=
  balancer_run (chan := QueueChannel) (token := unit) sample_incoming (fun _ => "") "1.0".

Definition reads (n : nat) (text : string) : @BalancerEvent unit :=
  SessionTurns n (NextMessage (Some (Ok (AggregatedText text)))).

Definition registers (n : nat) : list (@BalancerEvent unit) :=
  [Opens n "a" tt true; reads n "register"; HandlerRuns n 0].

(** Connection 1 finds connection 0 still registered and closes, which takes
    the agent out; connection 2 registers it again; then 0 times out. *)
Definition sample_reconnects : list (@BalancerEvent unit) :=
  registers 0 ++ registers 1 ++ [SessionTurns 1 SeesClose; ContextDrops 1] ++ registers 2
  ++ [SessionTurns 0 (PingTicks false); ForwarderRuns 0 true].

Lemma pool_follows_connections_witness :
  let y := sample_run (registers 0) sample_agents in
  pooled y "a" = Some 0%nat /\
  exists n c, connections y !! n = Some c /\ agent_id c = "a"%string /\ context_held c = true.
Proof.
  intros y. assert (Hpooled : pooled y "a" = Some 0%nat) by (vm_compute; reflexivity).
  split; [exact Hpooled|].
  exact (proj1 (pool_follows_connections sample_incoming (fun _ => "") "1.0" (registers 0) sample_agents
    (conj eq_refl eq_refl)) "a"%string 0%nat Hpooled).
Defined.

Lemma tokens_delivered_in_order_witness :
  let y := sample_run (registers 0) sample_agents in
  let y' := sample_run [reads 0 "x"; reads 0 "y"; HandlerRuns 0 0] y in
  exists handled waiting,
    [token_of "x"; token_of "y"] = handled ++ waiting /\
    pending_tokens 0 (generated_tokens y') = omap (token_answer "r") handled.
Proof.
  intros y y'. destruct (connections y !! 0%nat) as [c|] eqn:Hc; [|by vm_compute in Hc].
  destruct (tokens_delivered_in_order sample_incoming (fun _ => "") "1.0"
    [reads 0 "x"; reads 0 "y"; HandlerRuns 0 0] 0 "r" 0 y c Hc) as (handled & c' & Hc' & Heq & Hp).
  - intros m cm Hm Hcm.
    assert (Hy : connections y = {[0%nat := default c (connections y !! 0%nat)]})
      by (vm_compute; reflexivity).
    rewrite Hy in Hcm. by apply lookup_singleton_Some in Hcm as [<- _].
  - split_and!; [vm_compute; reflexivity| |].
    + intros other Ho. assert (Hs : senders (generated_tokens y) = {["r"%string := 0%nat]})
        by (vm_compute; reflexivity).
      rewrite Hs in Ho. by apply lookup_singleton_Some in Ho as [<- _].
    + exists chan_new. split; vm_compute; reflexivity.
  - apply Forall_cons. split; [by intros ?|]. apply Forall_cons. split; [by intros ?|].
    apply Forall_singleton. by intros _.
  - exists handled, (spawned (session c')). split.
    + rewrite <- Heq. vm_compute in Hc. injection Hc as <-. vm_compute. reflexivity.
    + etransitivity; [exact Hp|].
      assert (Hnone : pending_tokens 0 (generated_tokens y) = []) by (vm_compute; reflexivity).
      by rewrite Hnone.
Defined.

Lemma late_drop_forgets_agent_witness :
  let y := sample_run sample_reconnects sample_agents in
  let y' := sample_run [ContextDrops 0] y in
  pooled y "a" = Some 2%nat /\ pooled (sample_run [ForwarderRuns 2 true; reads 2 "x"; HandlerRuns 2 0] y') "a" = None.
Proof.
  intros y y'. split; [vm_compute; reflexivity|].
  destruct (connections y !! 0%nat) as [cold|] eqn:Hold; [|by vm_compute in Hold].
  destruct (connections y !! 2%nat) as [cnew|] eqn:Hnew; [|by vm_compute in Hnew].
  pose proof (late_drop_forgets_agent sample_incoming (fun _ => "") "1.0" 0 2 cold cnew 2 y
    [ForwarderRuns 2 true; reads 2 "x"; HandlerRuns 2 0] Hnew ltac:(done) Hold) as Hforgets.
  vm_compute in Hold. injection Hold as <-. vm_compute in Hnew. injection Hnew as <-.
  destruct Hforgets as (_ & _ & Hforgets); try (vm_compute; reflexivity); try done. by eexists.
Defined.

(** Handlers are tasks of their own: when they run in another order, so do the
    tokens. *)
Example handlers_reorder_tokens :
  let y := sample_run (registers 0) sample_agents in
  pending_tokens 0 (generated_tokens
    (sample_run [reads 0 "x"; reads 0 "y"; HandlerRuns 0 1; HandlerRuns 0 0] y))
  = [ContentToken "y"; ContentToken "x"].
Proof. vm_compute. reflexivity. Qed.
