(* ===== verification/StatusReporting.v ===== *)
(** * Status reporting: from the agent's status to the balancer's controller

    The agent registers with a snapshot of its status, from which the balancer
    makes the controller ([registered_controller] of [BalancerSocket]), and
    then sends a snapshot whenever its status announces a change (and once a
    second); the balancer applies the snapshots of a connection in the order
    they arrive, while it claims and releases slots of the controller itself.
    This file composes the components. *)

From S2P Require Import Prelude Tokio Messages AtomicValue AgentIssues Requests.
From S2P Require Import TokenThroughput Senders SlotStatus AgentController AgentPool.
From S2P Require Import DesiredState AgentSocket WebSocketEndpoint BalancerSocket BalancerSocketFacts.
Import Controller.
Local Open Scope Z_scope.

Section StatusReporting.
Context `{JsonTypes} `{LlamaTypes} {chan : Type -> Type} `{!UnboundedChannel chan} {token : Type}.
Context {sender receiver : Type} `{!WatchChannel sender receiver}.

(** What the balancer does to the load of a controller: [try_claim], and the
    guard's [Drop]. *)
Inductive LoadChange : Type := SlotClaimed | SlotReleased.

Definition change_load (load : Z) (c : LoadChange) : Z :=
  match c with
  | SlotClaimed => wrap_i32 (load + 1)
  | SlotReleased => i32_decrement load
  end.

Definition change_loads (changes : list LoadChange) (a : AgentController chan token)
    : AgentController chan token :=
  put_slots_processing (fold_left change_load changes (slots_processing a)) a.

(** A report: the operations on the agent's status since the last one, when it
    is made, and what the balancer did to the controller before it arrived. *)
Record Report : Type := {
  report_ops : list StatusOp;
  report_now : Z;
  report_load : list LoadChange;
}.

Definition run_report (r : Report) (y : SlotAggregatedStatus sender * AgentController chan token)
    : SlotAggregatedStatus sender * AgentController chan token :=
  let s := run_status_ops (report_ops r) (fst y) in
  let a := change_loads (report_load r) (snd y) in
  match status_make_snapshot (report_now r) s with
  | Ok snapshot => (s, fst (update_from_slot_aggregated_status_snapshot snapshot a))
  | Err _ => (s, a)
  end.

Definition run_reports (reports : list Report)
    (y : SlotAggregatedStatus sender * AgentController chan token)
    : SlotAggregatedStatus sender * AgentController chan token :=
  fold_left (fun y r => run_report r y) reports y.

Definition reports_version_steps (reports : list Report) : Z :=
  foldr (fun r acc => total_version_steps (report_ops r) + acc) 0 reports.

(** ** Facts *)

Definition valid_code (s : SlotAggregatedStatus sender) : Prop :=
  exists status, SlotStatus.state_application_status_code s = status_code status.

Lemma run_status_op_valid_code (op : StatusOp) (s : SlotAggregatedStatus sender) :
  valid_code s -> valid_code (run_status_op op s).
Proof.
  intros [st Hst]. destruct op as [| | |issue|fix_| | |c t f| |st'| | | |]; simpl;
    try (by exists st); try (by eexists).
  - unfold register_issue. case_decide; by exists st.
  - unfold register_fix. case_match; by exists st.
  - destruct t; by exists st.
Qed.

Lemma run_status_ops_valid_code (ops : list StatusOp) (s : SlotAggregatedStatus sender) :
  valid_code s -> valid_code (run_status_ops ops s).
Proof.
  revert s. induction ops as [|op ops IH]; intros s Hs; [done|].
  apply IH. by apply run_status_op_valid_code.
Qed.

Lemma status_make_snapshot_valid (now : Z) (s : SlotAggregatedStatus sender) :
  valid_code s -> exists snapshot, status_make_snapshot now s = Ok snapshot /\
    Snapshot.version snapshot = SlotStatus.version s.
Proof.
  intros [st Hst]. unfold status_make_snapshot. rewrite Hst.
  replace (status_try_from (status_code st)) with (Ok (E := string) st) by by destruct st.
  simpl. eauto.
Qed.

Lemma total_version_steps_reports_nonneg (reports : list Report) :
  0 <= reports_version_steps reports.
Proof.
  induction reports as [|r reports IH]; simpl; [lia|].
  pose proof (total_version_steps_nonneg (report_ops r)). lia.
Qed.

(** What a report leaves: the controller mirrors the snapshot it carried, its
    newest version is the status's, and its load is the balancer's count. *)
Lemma run_report_mirrors (r : Report) (s : SlotAggregatedStatus sender)
    (a : AgentController chan token) :
  valid_code s -> 0 <= SlotStatus.version s -> newest_update_version a <= SlotStatus.version s ->
  SlotStatus.version s + total_version_steps (report_ops r) <= i32_max ->
  let y := run_report r (s, a) in
  fst y = run_status_ops (report_ops r) s /\
  valid_code (fst y) /\
  SlotStatus.version (fst y) = SlotStatus.version s + total_version_steps (report_ops r) /\
  newest_update_version (snd y) = SlotStatus.version (fst y) /\
  slots_processing (snd y) = fold_left change_load (report_load r) (slots_processing a) /\
  exists snapshot, status_make_snapshot (report_now r) (fst y) = Ok snapshot /\
    mirrored (snd y) = mirrored_snapshot snapshot /\
    rate_close (Snapshot.tokens_per_second snapshot) (Controller.tokens_per_second (snd y)).
Proof.
  intros Hcode Hz Hnew Hmax y. unfold y, run_report. simpl.
  pose proof (run_status_ops_valid_code (report_ops r) s Hcode) as Hcode'.
  pose proof (run_status_ops_version (report_ops r) s Hz Hmax) as Hv.
  pose proof (total_version_steps_nonneg (report_ops r)).
  destruct (status_make_snapshot_valid (report_now r) _ Hcode') as (snap & Hsnap & Hsv).
  rewrite Hsnap. simpl.
  assert (Hle : newest_update_version (change_loads (report_load r) a) <= Snapshot.version snap)
    by (simpl; lia).
  destruct (update_fresh snap _ Hle) as [Heq _].
  split_and!; [done|done|done| | |].
  - rewrite Heq. simpl. done.
  - by rewrite Heq.
  - exists snap. split; [done|]. rewrite Heq. split; [done | apply updated_rate_close].
Qed.

Lemma run_reports_mirror (reports : list Report) (last : Report)
    (s : SlotAggregatedStatus sender) (a : AgentController chan token) :
  valid_code s -> 0 <= SlotStatus.version s -> newest_update_version a <= SlotStatus.version s ->
  SlotStatus.version s + reports_version_steps (reports ++ [last]) <= i32_max ->
  let '(s', a') := run_reports (reports ++ [last]) (s, a) in
  s' = run_status_ops (flat_map report_ops (reports ++ [last])) s /\
  slots_processing a' = fold_left change_load (flat_map report_load (reports ++ [last]))
                          (slots_processing a) /\
  exists snapshot, status_make_snapshot (report_now last) s' = Ok snapshot /\
    mirrored a' = mirrored_snapshot snapshot /\
    rate_close (Snapshot.tokens_per_second snapshot) (Controller.tokens_per_second a').
Proof.
  revert s a. induction reports as [|r reports IH]; intros s a Hc Hz Hn Hm; simpl in Hm.
  - destruct (run_report_mirrors last s a Hc Hz Hn ltac:(lia)) as (Hs & _ & _ & _ & Hlast).
    simpl. rewrite !app_nil_r. destruct (run_report last (s, a)) as [s' a']. simpl in *. done.
  - pose proof (total_version_steps_reports_nonneg (reports ++ [last])).
    pose proof (total_version_steps_nonneg (report_ops r)).
    destruct (run_report_mirrors r s a Hc Hz Hn ltac:(lia)) as (Hs & Hc' & Hv & Hn' & Hl & _).
    simpl. destruct (run_report r (s, a)) as [s1 a1]. simpl in *.
    specialize (IH s1 a1 Hc' ltac:(lia) ltac:(lia) ltac:(lia)).
    unfold run_reports in *. destruct (fold_left _ _ (s1, a1)) as [s' a'].
    rewrite fold_left_app, <- Hl. unfold run_status_ops in *.
    rewrite fold_left_app, <- Hs. done.
Qed.

(** C13. The balancer's view of an agent converges.  An agent registers after
    any operations on its status, with the snapshot of that moment, and then
    reports: any sequence of reports, each after any operations on its status,
    delivered in order (the handlers of a connection run in no fixed order, a
    finding), while the balancer claims and releases slots in between.  Then
    the controller shows what the last report said: every field of the status
    exactly, but for the rate of tokens, which is only within [RATE_TOLERANCE]
    (0.01) of it, and the load, which is not taken from the reports: it is the
    load of the registration with the balancer's own claims and releases.
    The condition is that the version counter of the status, an [i32] that
    every change increments, has not wrapped around. *)
Theorem agent_status_converges (start desired : Z) (before : list StatusOp) (now : Z)
    (registered : Snapshot.SlotAggregatedStatusSnapshot) (c : @AgentConnection _ _ token)
    (agent_name : option string)
    (y : @BalancerAgents _ _ chan token sender) (reports : list Report) (last : Report)
    (Hregistered : status_make_snapshot now
                     (run_status_ops before (status_new start desired : SlotAggregatedStatus sender))
                   = Ok registered)
    (Hmax : total_version_steps before + reports_version_steps (reports ++ [last]) <= i32_max) :
  let s := run_status_ops (before ++ flat_map report_ops (reports ++ [last]))
             (status_new start desired : SlotAggregatedStatus sender) in
  let '(s', a') :=
    run_reports (reports ++ [last])
      (run_status_ops before (status_new start desired),
       registered_controller c agent_name registered y) in
  s' = s /\
  slots_processing a' = fold_left change_load (flat_map report_load (reports ++ [last]))
                          (Snapshot.slots_processing registered) /\
  exists snapshot, status_make_snapshot (report_now last) s = Ok snapshot /\
    mirrored a' = mirrored_snapshot snapshot /\
    rate_close (Snapshot.tokens_per_second snapshot) (Controller.tokens_per_second a').
Proof.
  set (s0 := status_new start desired) in *. intros s.
  pose proof (total_version_steps_reports_nonneg (reports ++ [last])).
  pose proof (total_version_steps_nonneg before).
  pose proof (run_status_ops_version before s0 ltac:(done) ltac:(simpl in *; lia)) as Hv.
  pose proof (run_status_ops_valid_code before s0 (ex_intro _ Fresh eq_refl)) as Hc.
  destruct (status_make_snapshot_valid now _ Hc) as (snap & Hsnap & Hver).
  rewrite Hregistered in Hsnap. injection Hsnap as <-. simpl in Hv.
  pose proof (run_reports_mirror reports last (run_status_ops before s0)
    (registered_controller c agent_name registered y) Hc ltac:(lia)
    ltac:(simpl; lia) ltac:(lia)) as Hrun.
  destruct (run_reports _ _) as [s' a']. destruct Hrun as (Hs & Hl & Hrest).
  assert (Hss : s' = s) by (rewrite Hs; unfold s, run_status_ops; by rewrite fold_left_app).
  rewrite <- Hss. done.
Qed.

End StatusReporting.

Definition sample_connection : @AgentConnection sample_json sample_llama unit := {|
  agent_id := "agent"; close_token := tt; session := session_start (Ok ContinueSession);
  forwarder := None; sent := []; context_held := true |}.

(** An agent that registers with one slot, applies its model and reports twice,
    while the balancer gives it a request. *)
Lemma agent_status_converges_witness :
  let before := [OpIncrementTotalSlots] in
  let r := {| report_ops := [OpSetStateApplicationStatus Applied]; report_now := 5;
              report_load := [SlotClaimed] |} in
  exists registered,
  status_make_snapshot 3 (run_status_ops before (status_new 0 4 : SlotAggregatedStatus nat))
  = Ok registered /\
  let '(s', a') :=
    run_reports [r; r]
      (run_status_ops before (status_new 0 4 : SlotAggregatedStatus nat),
       registered_controller sample_connection None registered sample_agents) in
  slots_processing a' = 2 /\
  exists snapshot, status_make_snapshot 5 s' = Ok snapshot /\
    mirrored a' = mirrored_snapshot snapshot.
Proof.
  intros before r. eexists. split; [reflexivity|].
  pose proof (agent_status_converges (sender := nat) 0 4 before 3 _ sample_connection None
    sample_agents [r] r eq_refl ltac:(vm_compute; discriminate)) as Hc.
  simpl app in Hc. destruct (run_reports _ _) as [s' a'].
  destruct Hc as (-> & -> & snapshot & Hs & Hm & _). split; [reflexivity|]. by exists snapshot.
Defined.
