(* ===== verification/RequestTask.v ===== *)
(** * The task that serves one request

    The future of [request_from_agent] as the balancer's endpoints spawn it:
    how far it is, and its steps, the wait for an agent and the turns of the
    forwarding loop ([RequestFromAgent]).  The task sees its connection closed
    when the token it was given is cancelled. *)

From S2P Require Import Prelude.
From S2P Require Import Tokio.
From S2P Require Import Messages.
From S2P Require Import Requests.
From S2P Require Import Senders.
From S2P Require Import SlotStatus.
From S2P Require Import AgentController.
From S2P Require Import AgentPool.
From S2P Require Import BufferedRequests.
From S2P Require Import RequestFromAgent.
Local Open Scope Z_scope.

Section RequestTask.
Context `{LlamaTypes} {R : Type} `{!StreamableResult R} `{!IntoOutgoingResponse R}.
Context (inference_item_timeout : N).

(** [task_agent] is the name of the agent, once there is one. *)
Record RequestTask : Type := {
  task_progress : @ForwardState _ R;
  task_agent : option (option string);
  task_running : bool;
}.

Definition task_new : RequestTask :=
  {| task_progress := forward_initial; task_agent := None; task_running := true |}.

(** The biased [select!] of the wait sees the task's token before the result
    of the wait, and sees it closed only when it is cancelled. *)
Definition select_wait (cancelled : bool) (w : WaitSelect) : option WaitSelect :=
  match w with
  | WaitShutdown => Some WaitShutdown
  | WaitConnectionClosed => if cancelled then Some WaitConnectionClosed else None
  | WaitResult _ => Some (if cancelled then WaitConnectionClosed else w)
  end.

(** The task waits for an agent and hands it the request. *)
Definition task_waits (id : string) (cancelled : bool) (t : Turn (R := R)) (w : WaitSelect)
    (establish : result ManagesSendersController string) (name_ : option string)
    (task : RequestTask) : RequestTask :=
  match task_running task, task_agent task with
  | true, None =>
      match select_wait cancelled w with
      | None => task
      | Some w =>
          match wait_for_agent_controller id t w (task_progress task) with
          | (s, None) => {| task_progress := s; task_agent := None; task_running := false |}
          | (s, Some _) =>
              match establish with
              | Err _ =>
                  {| task_progress := respond_with_error id t 500 "Failed to generate response" s;
                     task_agent := None; task_running := false |}
              | Ok _ => {| task_progress := s; task_agent := Some name_; task_running := true |}
              end
          end
      end
  | _, _ => task
  end.

Definition with_connection_closed (cancelled : bool) (t : Turn (R := R)) : Turn := {|
  shutdown_cancelled := shutdown_cancelled t; agent_connection_closed := agent_connection_closed t;
  client_connection_closed := cancelled; timer_elapsed := timer_elapsed t;
  response_ready := response_ready t; client_accepts := client_accepts t;
  agent_reachable := agent_reachable t |}.

(** A turn of [forward_responses_stream]. *)
Definition task_turns (id : string) (cancelled : bool) (t : Turn) (task : RequestTask)
    : RequestTask :=
  match task_running task, task_agent task with
  | true, Some name_ =>
      match forward_turn id name_ inference_item_timeout (with_connection_closed cancelled t)
              (task_progress task) with
      | (s, ExitLoop) => {| task_progress := s; task_agent := Some name_; task_running := false |}
      | (s, _) => {| task_progress := s; task_agent := Some name_; task_running := true |}
      end
  | _, _ => task
  end.

(** What the client accepted of a log, and of what was added to it. *)
Definition written_messages (l : list ForwardAction) : list OutgoingMessage :=
  omap (fun sent : OutgoingMessage * bool => if sent.2 then Some sent.1 else None) (client_log l).

Definition newly_written (before after : RequestTask) : list OutgoingMessage :=
  written_messages (drop (length (log (task_progress before))) (log (task_progress after))).

(** ** Facts *)

(** A message is an error or a response to the request [id]. *)
Definition request_message (id : string) (message : OutgoingMessage) : Prop :=
  match message with
  | OutgoingMessageError envelope => error_request_id envelope = id
  | OutgoingMessageNotification _ => False
  | OutgoingMessageResponse envelope => response_request_id envelope = id
  end.

Definition request_action (id : string) (a : ForwardAction) : Prop :=
  match a with ClientSend message _ => request_message id message | AgentStop _ => True end.

(** The log grew by messages of the request. *)
Definition log_extends (id : string) (s s' : @ForwardState _ R) : Prop :=
  exists actions, log s' = log s ++ actions /\ Forall (request_action id) actions.

Lemma log_extends_same (id : string) (s s' : ForwardState) (Hlog : log s' = log s) :
  log_extends id s s'.
Proof. exists []. by rewrite app_nil_r. Qed.

#[local] Instance log_extends_trans (id : string) : Transitive (log_extends id).
Proof.
  intros s1 s2 s3 (a1 & E1 & H1) (a2 & E2 & H2). exists (a1 ++ a2).
  rewrite E2, E1, app_assoc. split; [done|]. by apply Forall_app.
Qed.

Lemma log_extends_error (id : string) (t : Turn) (c : Z) (d : string) (s : ForwardState) :
  log_extends id s (respond_with_error id t c d s).
Proof. eexists. split; [done|]. by repeat constructor. Qed.

Lemma log_extends_stop (id : string) (t : Turn) (s : ForwardState) :
  log_extends id s (stop_and_drain t s).1.
Proof.
  unfold stop_and_drain, request_stop. destruct (agent_reachable t); simpl;
    (eexists; split; [done|]; by repeat constructor).
Qed.

Lemma log_extends_turn (id : string) (name_ : option string) (t : Turn) (s : ForwardState) :
  log_extends id s (forward_turn id name_ inference_item_timeout t s).1.
Proof.
  unfold forward_turn. destruct (shutdown_cancelled t).
  { destruct (is_forwarding s); [|by apply log_extends_same]. simpl.
    etransitivity; [apply log_extends_error|]. eexists. split; [done|]. by repeat constructor. }
  destruct (agent_connection_closed t).
  { destruct (is_forwarding s); [apply log_extends_error|by apply log_extends_same]. }
  destruct (client_connection_closed t && is_forwarding s); [apply log_extends_stop|].
  destruct (timer_elapsed t).
  { destruct (is_forwarding s); [|by apply log_extends_same].
    etransitivity; [apply log_extends_error|apply log_extends_stop]. }
  destruct (response_ready t) as [[r|]|]; [| |by apply log_extends_same].
  - unfold is_forwarding. simpl. destruct (forwarding_mode s) eqn:Hmode.
    + destruct (is_done r); by apply log_extends_same.
    + assert (Hsend : log_extends id s (send_response_to_client id name_ t r (add_received r s)).1)
        by (eexists; split; [done|]; by repeat constructor).
      simpl in Hsend. destruct (is_done r); [exact Hsend|]. destruct (client_accepts t); [exact Hsend|].
      etransitivity; [exact Hsend|apply log_extends_stop].
  - destruct (is_forwarding s); [apply log_extends_error|by apply log_extends_same].
Qed.

Lemma log_extends_wait (id : string) (t : Turn) (w : WaitSelect) (s : ForwardState) :
  log_extends id s (wait_for_agent_controller id t w s).1.
Proof.
  destruct w as [| |[[| |]|]]; first [apply log_extends_error|by apply log_extends_same].
Qed.

Lemma task_waits_extends (id : string) (cancelled : bool) (t : Turn) (w : WaitSelect)
    (establish : result ManagesSendersController string) (name_ : option string) (task : RequestTask) :
  log_extends id (task_progress task)
    (task_progress (task_waits id cancelled t w establish name_ task)).
Proof.
  unfold task_waits. destruct (task_running task); [|by apply log_extends_same].
  destruct (task_agent task); [by apply log_extends_same|].
  destruct (select_wait cancelled w) as [w'|]; [|by apply log_extends_same].
  pose proof (log_extends_wait id t w' (task_progress task)) as Hwait.
  destruct (wait_for_agent_controller id t w' (task_progress task)) as [s [agent|]]; [|exact Hwait].
  destruct establish; [exact Hwait|]. etransitivity; [exact Hwait|apply log_extends_error].
Qed.

Lemma task_turns_extends (id : string) (cancelled : bool) (t : Turn) (task : RequestTask) :
  log_extends id (task_progress task) (task_progress (task_turns id cancelled t task)).
Proof.
  unfold task_turns. destruct (task_running task); [|by apply log_extends_same].
  destruct (task_agent task) as [name_|]; [|by apply log_extends_same].
  pose proof (log_extends_turn id name_ (with_connection_closed cancelled t) (task_progress task)) as Ht.
  by destruct (forward_turn _ _ _ _ _) as [s []].
Qed.

Lemma written_messages_app (l1 l2 : list ForwardAction) :
  written_messages (l1 ++ l2) = written_messages l1 ++ written_messages l2.
Proof. unfold written_messages. by rewrite client_log_app, omap_app. Qed.

Lemma written_messages_request (id : string) (actions : list ForwardAction)
    (Hactions : Forall (request_action id) actions) :
  Forall (request_message id) (written_messages actions).
Proof.
  unfold written_messages, client_log. induction Hactions as [|a actions Ha _ IH]; [done|].
  destruct a as [message [|]|reached]; [|exact IH|exact IH]. apply Forall_cons. by split.
Qed.

(** What a step wrote, in terms of the whole log. *)
Lemma newly_written_extends (id : string) (before after : RequestTask)
    (Hextends : log_extends id (task_progress before) (task_progress after)) :
  Forall (request_message id) (newly_written before after) /\
  written_messages (log (task_progress after))
  = written_messages (log (task_progress before)) ++ newly_written before after.
Proof.
  destruct Hextends as (actions & Hlog & Hactions). unfold newly_written.
  rewrite Hlog, drop_app_length, written_messages_app. split; [|done].
  by apply written_messages_request.
Qed.

(** A forwarding task whose token is cancelled asks its agent to stop and
    writes nothing. *)
Lemma cancelled_task_turn (id : string) (name_ : option string) (t : Turn) (task : RequestTask)
    (Hrunning : task_running task = true) (Hagent : task_agent task = Some name_)
    (Hforwarding : is_forwarding (task_progress task) = true)
    (Hcalm : shutdown_cancelled t = false /\ agent_connection_closed t = false) :
  let task' := task_turns id true t task in
  newly_written task task' = [] /\
  log (task_progress task') = log (task_progress task) ++ [AgentStop (agent_reachable t)] /\
  task_running task' = agent_reachable t.
Proof.
  destruct Hcalm as [Hshutdown Hclosed]. simpl. unfold task_turns, newly_written.
  rewrite Hrunning, Hagent. unfold forward_turn. simpl. rewrite Hshutdown, Hclosed, Hforwarding. simpl.
  unfold stop_and_drain, request_stop. simpl.
  destruct (agent_reachable t); simpl; by rewrite drop_app_length.
Qed.
End RequestTask.
Arguments RequestTask {_} R.
