(* ===== verification/InferenceEndpoint.v ===== *)
(** * The balancer's inference socket

    [ws_inference_socket/mod.rs] and [spawn_token_generation_mode_watcher.rs]:
    one connection of an inference client, with its session
    ([WebSocketEndpoint]), the cancellation tokens of its requests
    ([RequestCancellation]), the tasks that serve them ([RequestTask]) and
    the task that tells the client whether tokens are generated. *)

From S2P Require Import Prelude.
From S2P Require Import Tokio.
From S2P Require Import Messages.
From S2P Require Import Requests.
From S2P Require Import Senders.
From S2P Require Import SlotStatus.
From S2P Require Import AgentController.
From S2P Require Import AgentPool.
From S2P Require Import DesiredState.
From S2P Require Import BufferedRequests.
From S2P Require Import RequestFromAgent.
From S2P Require Import RequestTask.
From S2P Require Import RequestCancellation.
From S2P Require Import WebSocketEndpoint.
Local Open Scope Z_scope.

Inductive InferenceServerNotification : Type :=
| StopInference (request_id : string).

Section Messages.
Context `{JsonTypes}.

Inductive InferenceServerRequest : Type :=
| InferFromConversationHistory (params : ContinueFromConversationHistoryParams RawParametersSchema)
| InferFromRawPrompt (params : ContinueFromRawPromptParams).

Inductive InferenceServerMessage : Type :=
| InferenceServerError (envelope : ErrorEnvelope JsonRpcError)
| InferenceNotification (notification : InferenceServerNotification)
| InferenceRequest (envelope : RequestEnvelope InferenceServerRequest).
End Messages.

Section InferenceEndpoint.
Context `{JsonTypes} `{LlamaTypes} {registry token : Type} `{!CancellationTokens registry token}.
Context {sender receiver : Type} `{!WatchChannel sender receiver}.
(** [quoted] is the debug format of a string. *)
Context (from_str : string -> result InferenceServerMessage string) (print_size : Z -> string).
Context (quoted : string -> string) (inference_item_timeout : N) (connection_close : token).
Local Abbreviation Holder := (@BalancerApplicableStateHolder sender).
Local Abbreviation Tokens := (RequestCancellationTokens registry token).
Local Abbreviation RequestTurn := (@Turn GeneratedTokenResult).

(** A request in flight: the guard its task owns, what it asks of an agent,
    and the task. *)
Record RunningRequest : Type := {
  request_guard : @RequestCancellationTokenGuard token;
  request_params : AgentRequest;
  request_task : RequestTask GeneratedTokenResult;
}.

Inductive ModeWatcher : Type :=
| WatcherSpawned
| WatcherWaits (update_rx : receiver) (last_mode : ClusterTokenGenerationMode)
| WatcherEnded.

(** [outgoing] is what the session has written; [running] holds the tasks by
    the id of their request. *)
Record InferenceConnection : Type := {
  applicable_state_holder : Holder;
  endpoint : Session InferenceServerMessage;
  request_tokens : Tokens;
  running : gmap string RunningRequest;
  mode_watcher : ModeWatcher;
  outgoing : list OutgoingMessage;
}.

Definition set_holder (h : Holder) (y : InferenceConnection) : InferenceConnection := {|
  applicable_state_holder := h; endpoint := endpoint y; request_tokens := request_tokens y;
  running := running y; mode_watcher := mode_watcher y; outgoing := outgoing y |}.

Definition set_endpoint (s : Session InferenceServerMessage) (y : InferenceConnection)
    : InferenceConnection := {|
  applicable_state_holder := applicable_state_holder y; endpoint := s;
  request_tokens := request_tokens y; running := running y; mode_watcher := mode_watcher y;
  outgoing := outgoing y |}.

Definition set_requests (t : Tokens) (r : gmap string RunningRequest) (y : InferenceConnection)
    : InferenceConnection := {|
  applicable_state_holder := applicable_state_holder y; endpoint := endpoint y;
  request_tokens := t; running := r; mode_watcher := mode_watcher y; outgoing := outgoing y |}.

Definition set_watcher (w : ModeWatcher) (y : InferenceConnection) : InferenceConnection := {|
  applicable_state_holder := applicable_state_holder y; endpoint := endpoint y;
  request_tokens := request_tokens y; running := running y; mode_watcher := w;
  outgoing := outgoing y |}.

Definition add_outgoing (messages : list OutgoingMessage) (y : InferenceConnection)
    : InferenceConnection := {|
  applicable_state_holder := applicable_state_holder y; endpoint := endpoint y;
  request_tokens := request_tokens y; running := running y; mode_watcher := mode_watcher y;
  outgoing := outgoing y ++ messages |}.

(** A failure to write is logged. *)
Definition send_outgoing (written : bool) (message : OutgoingMessage) (y : InferenceConnection)
    : InferenceConnection :=
  if written then add_outgoing [message] y else y.

(** The session's [connection_close] is the parent of the requests' tokens. *)
Definition propagate_close (y : InferenceConnection) : InferenceConnection :=
  if session_close (endpoint y)
  then set_requests (close_connection connection_close (request_tokens y)) (running y) y
  else y.

(** ** Handlers *)

Definition send_token_generation_disabled (written : bool) (id : string) (y : InferenceConnection)
    : InferenceConnection :=
  send_outgoing written
    (OutgoingMessageResponse {| generated_by := None; response_request_id := id;
       response := OutgoingGeneratedToken
                     (TokenGenerationDisabled TOKEN_GENERATION_DISABLED_MESSAGE) |}) y.

Definition duplicate_error (id : string) : OutgoingMessage :=
  error_message id 400 ("Request id " +:+ quoted id +:+ " is already in flight on this connection").

(** [handle_inference_request]; [written] says how its own write ends. *)
Definition handle_inference_request {Params : Type} `{!IntoAgentRequest Params} (written : bool)
    (params : Params) (id : string) (y : InferenceConnection) : InferenceConnection :=
  match mode_from_applicable_state_holder (applicable_state_holder y) with
  | DisabledForEmbeddings => send_token_generation_disabled written id y
  | Enabled =>
      match register_guard connection_close id (request_tokens y) with
      | (RegisteredGuard guard, t) =>
          set_requests t
            (<[id := {| request_guard := guard; request_params := into_request params;
                        request_task := task_new |}]> (running y)) y
      | (DuplicateRequest, t) => send_outgoing written (duplicate_error id) (set_requests t (running y) y)
      end
  end.

Definition handle_deserialized_message (written : bool) (message : InferenceServerMessage)
    (y : InferenceConnection) : InferenceConnection * result ContinuationDecision string :=
  match message with
  | InferenceServerError _ => (y, Ok ContinueSession)
  | InferenceNotification (StopInference id) =>
      (set_requests (cancel_token id (request_tokens y)) (running y) y, Ok ContinueSession)
  | InferenceRequest envelope =>
      let id := request_envelope_id envelope in
      match request envelope with
      | InferFromConversationHistory params =>
          match validate_conversation_params params with
          | Err error => (y, Err error)
          | Ok validated_params =>
              (handle_inference_request written validated_params id y, Ok ContinueSession)
          end
      | InferFromRawPrompt params =>
          (handle_inference_request written params id y, Ok ContinueSession)
      end
  end.

(** ** The session *)

(** [respond]: the context is created and [on_connection_start] spawns the
    watcher. *)
Definition endpoint_new (g : registry) (h : Holder) : InferenceConnection := {|
  applicable_state_holder := h; endpoint := session_start (Ok ContinueSession);
  request_tokens := {| cancellation_tokens := ∅; token_registry := g |}; running := ∅;
  mode_watcher := WatcherSpawned; outgoing := [] |}.

Definition endpoint_turn (turn : SessionTurn) (y : InferenceConnection) : InferenceConnection :=
  propagate_close (set_endpoint (session_turn from_str print_size turn (endpoint y)) y).

Definition handler_runs (index : nat) (written : bool) (y : InferenceConnection)
    : InferenceConnection :=
  match take_spawned index (endpoint y) with
  | None => y
  | Some (message, s) =>
      let '(y, decision) := handle_deserialized_message written message (set_endpoint s y) in
      propagate_close (set_endpoint (handled decision (endpoint y)) y)
  end.

(** ** The tasks of the requests *)

(** A task went on; when it returns it drops its guard. *)
Definition store_task (id : string) (r : RunningRequest) (task : RequestTask GeneratedTokenResult)
    (y : InferenceConnection) : InferenceConnection :=
  let y := add_outgoing (newly_written (request_task r) task) y in
  if task_running task then
    set_requests (request_tokens y)
      (<[id := {| request_guard := request_guard r; request_params := request_params r;
                  request_task := task |}]> (running y)) y
  else set_requests (drop_guard (request_guard r) (request_tokens y)) (delete id (running y)) y.

Definition request_closed (r : RunningRequest) (y : InferenceConnection) : bool :=
  request_cancelled (cancellation_token (request_guard r)) (request_tokens y).

Definition request_waits (id : string) (t : RequestTurn) (w : WaitSelect)
    (establish : result ManagesSendersController string) (name_ : option string)
    (y : InferenceConnection) : InferenceConnection :=
  match running y !! id with
  | Some r => store_task id r (task_waits id (request_closed r y) t w establish name_ (request_task r)) y
  | None => y
  end.

Definition request_turns (id : string) (t : RequestTurn) (y : InferenceConnection)
    : InferenceConnection :=
  match running y !! id with
  | Some r =>
      store_task id r (task_turns inference_item_timeout id (request_closed r y) t (request_task r)) y
  | None => y
  end.

(** ** The watcher of the mode *)

Definition mode_notification (mode : ClusterTokenGenerationMode) : InferenceClientNotification :=
  match mode with
  | Enabled => NotifyTokenGenerationEnabled
  | DisabledForEmbeddings => NotifyTokenGenerationDisabled
  end.

Definition mode_eqb (x y : ClusterTokenGenerationMode) : bool :=
  match x, y with
  | Enabled, Enabled | DisabledForEmbeddings, DisabledForEmbeddings => true
  | _, _ => false
  end.

(** The watcher up to its next [select!]. *)
Definition watcher_turn (sees_close written : bool) (y : InferenceConnection) : InferenceConnection :=
  let h := applicable_state_holder y in
  let mode := mode_from_applicable_state_holder h in
  match mode_watcher y with
  | WatcherSpawned =>
      let waits := WatcherWaits (watch_subscribe (holder_update_tx h)) mode in
      match mode with
      | Enabled => set_watcher waits y
      | DisabledForEmbeddings =>
          set_watcher (if written then waits else WatcherEnded)
            (send_outgoing written (OutgoingMessageNotification (mode_notification mode)) y)
      end
  | WatcherWaits update_rx last_mode =>
      if sees_close && session_close (endpoint y) then set_watcher WatcherEnded y
      else if watch_has_changed (holder_update_tx h) update_rx then
        let update_rx := watch_mark_seen (holder_update_tx h) update_rx in
        if mode_eqb mode last_mode then set_watcher (WatcherWaits update_rx last_mode) y
        else
          set_watcher (if written then WatcherWaits update_rx mode else WatcherEnded)
            (send_outgoing written (OutgoingMessageNotification (mode_notification mode)) y)
      else y
  | WatcherEnded => y
  end.

(** ** Runs *)

(** Setting the state of the balancer is two events, its write and its
    announcement; setters interleave. *)
Inductive EndpointEvent : Type :=
| EndpointTurns (turn : SessionTurn)
| EndpointHandles (index : nat) (written : bool)
| RequestWaits (id : string) (t : RequestTurn) (w : WaitSelect)
    (establish : result ManagesSendersController string) (name_ : option string)
| RequestTurns (id : string) (t : RequestTurn)
| HolderWrites (state : option BalancerApplicableState)
| HolderAnnounces
| WatcherTurns (sees_close written : bool).

Definition endpoint_step (event : EndpointEvent) (y : InferenceConnection) : InferenceConnection :=
  match event with
  | EndpointTurns turn => endpoint_turn turn y
  | EndpointHandles index written => handler_runs index written y
  | RequestWaits id t w establish name_ => request_waits id t w establish name_ y
  | RequestTurns id t => request_turns id t y
  | HolderWrites state => set_holder (write_applicable_state state (applicable_state_holder y)) y
  | HolderAnnounces => set_holder (announce_applicable_state (applicable_state_holder y)) y
  | WatcherTurns sees_close written => watcher_turn sees_close written y
  end.

Definition endpoint_run (events : list EndpointEvent) (y : InferenceConnection)
    : InferenceConnection :=
  fold_left (fun y event => endpoint_step event y) events y.
End InferenceEndpoint.
