(* ===== verification/InferenceEndpointFacts.v ===== *)
(** * What the balancer's inference socket promises

    Facts about [InferenceEndpoint]: the socket is an implementation of the
    abstract connection of [RequestCancellation], one invalid request ends
    them all, and the client always knows the current mode. *)

From S2P Require Import Prelude.
From S2P Require Import Tokio.
From S2P Require Import Messages.
From S2P Require Import Requests.
From S2P Require Import Senders.
From S2P Require Import SlotStatus.
From S2P Require Import AgentController.
From S2P Require Import AgentPool.
From S2P Require Import DesiredState.
From S2P Require Import BufferedRequests.
From S2P Require Import RequestFromAgent.
From S2P Require Import RequestTask.
From S2P Require Import RequestCancellation.
From S2P Require Import WebSocketEndpoint.
From S2P Require Import InferenceEndpoint.
Local Open Scope Z_scope.

Section Facts.
Context `{JsonTypes} `{LlamaTypes} {registry token : Type} `{!CancellationTokens registry token}.
Context {sender receiver : Type} `{!WatchChannel sender receiver}.
Context (from_str : string -> result InferenceServerMessage string) (print_size : Z -> string).
Context (quoted : string -> string) (inference_item_timeout : N) (connection_close : token).
Local Abbreviation Endpoint := (@InferenceConnection _ _ registry token sender receiver).
Local Abbreviation Running := (@RunningRequest _ _ token).
Local Abbreviation Event := (@EndpointEvent _).
Local Abbreviation Holder := (@BalancerApplicableStateHolder sender).
Local Abbreviation step := (endpoint_step from_str print_size quoted inference_item_timeout connection_close).
Local Abbreviation run := (endpoint_run from_str print_size quoted inference_item_timeout connection_close).
Local Abbreviation abstract_step := (connection_step (registry := registry) connection_close).

(** ** The socket refines the abstract connection *)

Definition request_token (r : Running) : token := cancellation_token (request_guard r).

Definition abstract_connection (y : Endpoint) : Connection registry token :=
  {| tokens := request_tokens y; guards := request_token <$> running y |}.

Definition guards_ok (y : Endpoint) : Prop :=
  forall id r, running y !! id = Some r -> guard_request_id (request_guard r) = id.

(** What a step does to the requests, whatever else it changes. *)
Definition simulates (y y' : Endpoint) : Prop :=
  guards_ok y' /\ rtc abstract_step (abstract_connection y) (abstract_connection y').

Lemma simulates_same (y y' : Endpoint) (Hok : guards_ok y)
    (Ht : request_tokens y' = request_tokens y) (Hr : running y' = running y) : simulates y y'.
Proof.
  split; [by unfold guards_ok; rewrite Hr|]. unfold abstract_connection. by rewrite Ht, Hr.
Qed.

Lemma simulates_trans (y1 y2 y3 : Endpoint) : simulates y1 y2 -> simulates y2 y3 -> simulates y1 y3.
Proof. intros [_ H1] [Hok H2]. split; [done|]. by etransitivity. Qed.

Lemma simulates_requests (y y' : Endpoint) (Hok : guards_ok y')
    (Hstep : abstract_step (abstract_connection y) (abstract_connection y')) : simulates y y'.
Proof. split; [done|]. by apply rtc_once. Qed.

Lemma propagate_close_simulates (s : Session InferenceServerMessage) (y : Endpoint)
    (Hok : guards_ok y) :
  simulates y (propagate_close connection_close (set_endpoint s y)).
Proof.
  unfold propagate_close. destruct (session_close _); [|by apply simulates_same].
  apply simulates_requests; [done|]. apply step_close.
Qed.

Lemma store_task_simulates (id : string) (r : Running) (task : RequestTask GeneratedTokenResult)
    (y : Endpoint) (Hr : running y !! id = Some r) (Hok : guards_ok y) :
  simulates y (store_task id r task y).
Proof.
  unfold store_task. destruct (task_running task).
  - split.
    + intros id' r'. simpl. intros [[<- <-]|[_ Hid']]%lookup_insert_Some; simpl; by apply Hok.
    + unfold abstract_connection. simpl. rewrite fmap_insert, insert_id; [done|].
      by rewrite lookup_fmap, Hr.
  - apply simulates_requests.
    + intros id' r'. simpl. intros [_ Hid']%lookup_delete_Some. by apply Hok.
    + unfold abstract_connection. simpl. rewrite fmap_delete.
      assert (Hguard : request_guard r
        = {| cancellation_token := request_token r; guard_request_id := id |}).
      { rewrite <- (Hok id r Hr). unfold request_token. by destruct (request_guard r). }
      rewrite Hguard. apply step_finish. by rewrite lookup_fmap, Hr.
Qed.

Lemma handle_inference_simulates {Params : Type} `{!IntoAgentRequest Params} (written : bool)
    (params : Params) (id : string) (y : Endpoint) (Hok : guards_ok y) :
  simulates y (handle_inference_request quoted connection_close written params id y).
Proof.
  unfold handle_inference_request, send_token_generation_disabled, send_outgoing.
  destruct (mode_from_applicable_state_holder _).
  - destruct (register_guard connection_close id (request_tokens y)) as [[|guard] t] eqn:Hguard.
    + apply simulates_requests; [by destruct written|].
      unfold abstract_connection at 2.
      destruct written; simpl; by eapply step_duplicate.
    + apply simulates_requests.
      * intros id' r'. simpl. intros [[<- <-]|[_ Hid']]%lookup_insert_Some; [|by apply Hok]. simpl.
        unfold register_guard in Hguard. by destruct (register_token _ _ _) as [[|] ?]; simplify_eq/=.
      * unfold abstract_connection. simpl. rewrite fmap_insert. by eapply step_register.
  - destruct written; by apply simulates_same.
Qed.

Lemma handle_message_simulates (written : bool) (message : InferenceServerMessage) (y : Endpoint)
    (Hok : guards_ok y) :
  simulates y (handle_deserialized_message quoted connection_close written message y).1.
Proof.
  destruct message as [e|[id]|[id [params|params]]]; simpl.
  - by apply simulates_same.
  - apply simulates_requests; [done|]. apply step_cancel.
  - destruct (validate_conversation_params params); simpl; [|by apply simulates_same].
    by apply handle_inference_simulates.
  - by apply handle_inference_simulates.
Qed.

Lemma endpoint_step_simulates (event : Event) (y : Endpoint) (Hok : guards_ok y) :
  simulates y (step event y).
Proof.
  destruct event as [turn|index written|id t w establish name_|id t|state| |sees_close written]; simpl.
  - unfold endpoint_turn. by apply propagate_close_simulates.
  - unfold handler_runs. destruct (take_spawned index (endpoint y)) as [[message s]|];
      [|by apply simulates_same].
    pose proof (handle_message_simulates written message (set_endpoint s y) Hok) as Hhandle.
    destruct (handle_deserialized_message _ _ written message (set_endpoint s y)) as [y' decision].
    apply (simulates_trans y y'); [done|]. apply propagate_close_simulates. apply Hhandle.
  - unfold request_waits. destruct (running y !! id) as [r|] eqn:Hr; [|by apply simulates_same].
    by apply store_task_simulates.
  - unfold request_turns. destruct (running y !! id) as [r|] eqn:Hr; [|by apply simulates_same].
    by apply store_task_simulates.
  - by apply simulates_same.
  - by apply simulates_same.
  - unfold watcher_turn, send_outgoing. destruct (mode_watcher y) as [|update_rx last_mode|].
    + destruct (mode_from_applicable_state_holder _); destruct written; by apply simulates_same.
    + destruct (sees_close && _); [by apply simulates_same|].
      destruct (watch_has_changed _ _); [|by apply simulates_same].
      destruct (mode_eqb _ _); [by apply simulates_same|]. destruct written; by apply simulates_same.
    + by apply simulates_same.
Qed.

Lemma endpoint_run_simulates (events : list Event) (y : Endpoint) (Hok : guards_ok y) :
  simulates y (run events y).
Proof.
  revert y Hok. induction events as [|event events IH]; intros y Hok; [by apply simulates_same|].
  pose proof (endpoint_step_simulates event y Hok) as Hstep.
  apply (simulates_trans y (step event y)); [done|]. apply IH. apply Hstep.
Qed.

(** The states of a socket that started with [g] and [h]. *)
Lemma endpoint_reachable (g : registry) (h : Holder) (events : list Event) :
  rtc abstract_step (connection_initial g) (abstract_connection (run events (endpoint_new g h))).
Proof.
  assert (Hok : guards_ok (endpoint_new (receiver := receiver) g h)) by (intros id r Hid; done).
  destruct (endpoint_run_simulates events _ Hok) as [_ Hsteps].
  assert (Hinitial : abstract_connection (endpoint_new (receiver := receiver) g h) = connection_initial g)
    by (unfold abstract_connection, connection_initial; simpl; by rewrite fmap_empty).
  by rewrite Hinitial in Hsteps.
Qed.

(** C26. The inference socket refines the abstract connection of the request
    cancellation: whatever the session reads, in whatever order handlers and
    requests run, the tokens of the socket and the requests in flight go
    through steps of that connection, so every request in flight has the one
    entry of its id, and no entry outlives its request. *)
Theorem socket_refines_connection (g : registry) (h : Holder) (events : list Event)
    (Hknown : token_known g connection_close = true) :
  let y := run events (endpoint_new g h) in
  rtc abstract_step (connection_initial g) (abstract_connection y) /\
  cancellation_tokens (request_tokens y) = request_token <$> running y.
Proof.
  intros y. pose proof (endpoint_reachable g h events) as Hsteps. fold y in Hsteps. split; [done|].
  apply (cwf_map _ _ (connection_reachable_wf connection_close g _ Hknown Hsteps)).
Qed.

(** ** A request with invalid parameters *)

(** One invalid request ends every request of its connection: when the
    parameters of a request do not validate, its handler writes no answer but
    closes the connection and so cancels all the requests in flight on it; each
    of them then asks its agent to stop without telling the client. *)
Theorem invalid_request_ends_all (g : registry) (h : Holder) (events : list Event)
    (Hknown : token_known g connection_close = true) (index : nat) (written : bool) (id : string)
    (params : ContinueFromConversationHistoryParams RawParametersSchema) (error : string) :
  let y := run events (endpoint_new g h) in
  let y' := step (EndpointHandles index written) y in
  spawned (endpoint y) !! index
    = Some (InferenceRequest {| request_envelope_id := id;
                                request := InferFromConversationHistory params |}) ->
  validate_conversation_params params = Err error ->
  outgoing y' = outgoing y /\ running y' = running y /\ session_close (endpoint y') = true /\
  (forall other r, running y' !! other = Some r ->
     request_cancelled (request_token r) (request_tokens y') = true /\
     forall name_ t, task_running (request_task r) = true -> task_agent (request_task r) = Some name_ ->
       is_forwarding (task_progress (request_task r)) = true ->
       shutdown_cancelled t = false /\ agent_connection_closed t = false ->
       outgoing (step (RequestTurns other t) y') = outgoing y').
Proof.
  intros y y' Hspawned Hinvalid.
  destruct (connection_reachable_wf connection_close g _ Hknown (endpoint_reachable g h events))
    as [_ Hroot Htokens Habove _]. fold y in Hroot, Htokens, Habove. simpl in Hroot, Htokens, Habove.
  assert (Hy' : outgoing y' = outgoing y /\ running y' = running y /\
    session_close (endpoint y') = true /\
    request_tokens y' = close_connection connection_close (request_tokens y)).
  { unfold y'. simpl. unfold handler_runs, take_spawned. rewrite Hspawned. simpl. rewrite Hinvalid.
    by unfold propagate_close. }
  destruct Hy' as (Hout & Hrunning & Hclose & Htok). split_and!; [done|done|done|].
  intros other r Hr.
  assert (Hcancelled : request_cancelled (request_token r) (request_tokens y') = true).
  { rewrite Hrunning in Hr. rewrite Htok. unfold request_cancelled, close_connection. simpl.
    assert (Hg : (request_token <$> running y) !! other = Some (request_token r))
      by by rewrite lookup_fmap, Hr.
    rewrite token_cancel_state by done.
    destruct (Habove other (request_token r) Hg) as [-> _]. apply orb_true_r. }
  split; [done|]. intros name_ t Hon Hagent Hforwarding Hcalm.
  change (step (RequestTurns other t) y') with (request_turns inference_item_timeout other t y').
  unfold request_turns. rewrite Hr. unfold request_closed. unfold request_token in Hcancelled.
  rewrite Hcancelled.
  destruct (cancelled_task_turn inference_item_timeout other name_ t (request_task r) Hon Hagent
    Hforwarding Hcalm) as (Hwritten & _ & _).
  unfold store_task. simpl in Hwritten. rewrite Hwritten.
  by case_match; simpl; rewrite app_nil_r.
Qed.

(** ** The watcher of the mode *)

Definition mode_of (notification : InferenceClientNotification) : ClusterTokenGenerationMode :=
  match notification with
  | NotifyTokenGenerationEnabled => Enabled
  | NotifyTokenGenerationDisabled => DisabledForEmbeddings
  end.

(** The mode a client knows: enabled, until it is told. *)
Definition known_mode (messages : list OutgoingMessage) : ClusterTokenGenerationMode :=
  fold_left (fun mode message =>
    match message with
    | OutgoingMessageNotification notification => mode_of notification
    | _ => mode
    end) messages Enabled.

Definition not_notification (message : OutgoingMessage) : Prop :=
  match message with OutgoingMessageNotification _ => False | _ => True end.

Definition current_mode (y : Endpoint) : ClusterTokenGenerationMode :=
  mode_from_applicable_state_holder (applicable_state_holder y).

(** Whether the state of the balancer was written since the last
    announcement. *)
Definition note_write (unannounced_write : bool) (event : Event) : bool :=
  match event with
  | HolderWrites _ => true
  | HolderAnnounces => false
  | _ => unannounced_write
  end.

Definition write_unannounced (events : list Event) : bool := fold_left note_write events false.

(** While the watcher lives the client knows the mode it saw last, and what
    it saw last is current unless a change waits for it, or for its
    announcement. *)
Definition watcher_ok (unannounced_write : bool) (y : Endpoint) : Prop :=
  match mode_watcher y with
  | WatcherSpawned => known_mode (outgoing y) = Enabled
  | WatcherWaits update_rx last_mode =>
      known_mode (outgoing y) = last_mode /\
      watch_valid (holder_update_tx (applicable_state_holder y)) update_rx /\
      (watch_has_changed (holder_update_tx (applicable_state_holder y)) update_rx = false ->
       unannounced_write = false -> last_mode = current_mode y)
  | WatcherEnded => True
  end.

Lemma known_mode_app (l1 l2 : list OutgoingMessage) (Hl2 : Forall not_notification l2) :
  known_mode (l1 ++ l2) = known_mode l1.
Proof.
  unfold known_mode. rewrite fold_left_app.
  revert Hl2. generalize (fold_left (fun mode message =>
    match message with
    | OutgoingMessageNotification notification => mode_of notification
    | _ => mode
    end) l1 Enabled).
  induction l2 as [|message l2 IH]; intros mode Hl2; [done|].
  apply Forall_cons in Hl2 as [Hm Hl2]. simpl. destruct message; [by apply IH|done|by apply IH].
Qed.

Lemma known_mode_snoc (l : list OutgoingMessage) (mode : ClusterTokenGenerationMode) :
  known_mode (l ++ [OutgoingMessageNotification (mode_notification mode)]) = mode.
Proof. unfold known_mode. rewrite fold_left_app. by destruct mode. Qed.

(** What leaves the watcher and the holder alone and writes no notification. *)
Definition quiet_change (y y' : Endpoint) : Prop :=
  mode_watcher y' = mode_watcher y /\ applicable_state_holder y' = applicable_state_holder y /\
  exists messages, outgoing y' = outgoing y ++ messages /\ Forall not_notification messages.

Lemma quiet_change_ok (b : bool) (y y' : Endpoint) :
  quiet_change y y' -> watcher_ok b y -> watcher_ok b y'.
Proof.
  intros (Hw & Hh & messages & Hout & Hquiet). unfold watcher_ok, current_mode.
  by rewrite Hw, Hh, Hout, known_mode_app.
Qed.

Lemma quiet_same (y y' : Endpoint) (Hw : mode_watcher y' = mode_watcher y)
    (Hh : applicable_state_holder y' = applicable_state_holder y) (Hout : outgoing y' = outgoing y) :
  quiet_change y y'.
Proof. split_and!; [done|done|]. exists []. by rewrite app_nil_r. Qed.

Lemma store_task_quiet (id : string) (r : Running) (task : RequestTask GeneratedTokenResult)
    (y : Endpoint)
    (Hextends : log_extends id (task_progress (request_task r)) (task_progress task)) :
  quiet_change y (store_task id r task y).
Proof.
  destruct (newly_written_extends id (request_task r) task Hextends) as [Hquiet _].
  unfold store_task. destruct (task_running task); (split_and!; [done|done|]);
    (eexists; split; [done|]); apply (Forall_impl _ _ _ Hquiet); by intros [].
Qed.

Lemma send_outgoing_quiet (written : bool) (message : OutgoingMessage) (y y0 : Endpoint)
    (Hmessage : not_notification message) (Hsame : quiet_change y0 y) (Hout : outgoing y = outgoing y0) :
  quiet_change y0 (send_outgoing written message y).
Proof.
  destruct written; [|done]. destruct Hsame as (Hw & Hh & _). split_and!; [done|done|].
  simpl. rewrite Hout. eexists. split; [done|]. by constructor.
Qed.

Lemma propagate_close_watcher (y : Endpoint) :
  mode_watcher (propagate_close connection_close y) = mode_watcher y /\
  applicable_state_holder (propagate_close connection_close y) = applicable_state_holder y /\
  outgoing (propagate_close connection_close y) = outgoing y.
Proof. unfold propagate_close. by destruct (session_close (endpoint y)). Qed.

Lemma handle_inference_quiet {Params : Type} `{!IntoAgentRequest Params} (written : bool)
    (params : Params) (id : string) (y : Endpoint) :
  quiet_change y (handle_inference_request quoted connection_close written params id y).
Proof.
  unfold handle_inference_request. destruct (mode_from_applicable_state_holder _).
  - destruct (register_guard connection_close id (request_tokens y)) as [[|guard] t].
    + by apply send_outgoing_quiet; [|apply quiet_same|].
    + by apply quiet_same.
  - by apply send_outgoing_quiet; [|apply quiet_same|].
Qed.

Lemma handler_runs_quiet (index : nat) (written : bool) (y : Endpoint) :
  quiet_change y (handler_runs quoted connection_close index written y).
Proof.
  unfold handler_runs. destruct (take_spawned index (endpoint y)) as [[message s]|]; [|by apply quiet_same].
  assert (Hhandle : quiet_change (set_endpoint s y)
    (handle_deserialized_message quoted connection_close written message (set_endpoint s y)).1).
  { destruct message as [e|[id]|[id [params|params]]]; simpl; [by apply quiet_same..| |].
    - destruct (validate_conversation_params params); [apply handle_inference_quiet|by apply quiet_same].
    - apply handle_inference_quiet. }
  destruct (handle_deserialized_message _ _ _ _ _) as [y1 decision].
  unfold quiet_change. destruct (propagate_close_watcher (set_endpoint (handled decision (endpoint y1)) y1))
    as (-> & -> & ->). exact Hhandle.
Qed.

Lemma watcher_turn_ok (b sees_close written : bool) (y : Endpoint) (Hok : watcher_ok b y) :
  watcher_ok b (watcher_turn sees_close written y).
Proof.
  unfold watcher_turn. destruct (mode_watcher y) as [|update_rx last_mode|] eqn:Hw.
  - unfold watcher_ok in Hok. rewrite Hw in Hok.
    destruct (mode_from_applicable_state_holder _) eqn:Hmode.
    + unfold watcher_ok. simpl. split_and!; [done|apply watch_subscribe_valid|].
      intros _ _. unfold current_mode. simpl. by rewrite Hmode.
    + destruct written; unfold watcher_ok; simpl; [|done].
      split_and!; [by apply (known_mode_snoc _ DisabledForEmbeddings)|apply watch_subscribe_valid|].
      intros _ _. unfold current_mode. simpl. by rewrite Hmode.
  - destruct (sees_close && _); [done|]. destruct (watch_has_changed _ _) eqn:Hchanged; [|done].
    unfold watcher_ok in Hok. rewrite Hw in Hok. destruct Hok as (Hknown & Hvalid & _).
    destruct (mode_eqb (mode_from_applicable_state_holder _) last_mode) eqn:Heq.
    + unfold watcher_ok. simpl. split_and!; [done|by apply watch_mark_seen_valid|].
      intros _ _. unfold current_mode. simpl.
      by destruct (mode_from_applicable_state_holder _), last_mode.
    + destruct written; unfold watcher_ok; simpl; [|done].
      split_and!; [apply known_mode_snoc|by apply watch_mark_seen_valid|done].
  - unfold watcher_ok. by rewrite Hw.
Qed.

Lemma endpoint_step_watcher (event : Event) (b : bool) (y : Endpoint) (Hok : watcher_ok b y) :
  watcher_ok (note_write b event) (step event y).
Proof.
  destruct event as [turn|index written|id t w establish name_|id t|state| |sees_close written]; simpl.
  - apply (quiet_change_ok b y); [|done]. unfold endpoint_turn.
    destruct (propagate_close_watcher (set_endpoint (session_turn from_str print_size turn (endpoint y)) y))
      as (Hw & Hh & Hout). by apply quiet_same.
  - apply (quiet_change_ok b y); [apply handler_runs_quiet|done].
  - apply (quiet_change_ok b y); [|done]. unfold request_waits.
    destruct (running y !! id) as [r|]; [|by apply quiet_same].
    apply store_task_quiet, task_waits_extends.
  - apply (quiet_change_ok b y); [|done]. unfold request_turns.
    destruct (running y !! id) as [r|]; [|by apply quiet_same].
    apply store_task_quiet, task_turns_extends.
  - unfold watcher_ok in *. simpl. destruct (mode_watcher y) as [|update_rx last_mode|]; [done| |done].
    destruct Hok as (Hknown & Hvalid & _). by split_and!.
  - unfold watcher_ok in *. simpl. destruct (mode_watcher y) as [|update_rx last_mode|]; [done| |done].
    destruct Hok as (Hknown & Hvalid & _). split_and!; [done|by apply watch_send_valid|].
    by rewrite watch_send_changed.
  - by apply watcher_turn_ok.
Qed.

(** C27. A client knows whether tokens are generated: in every state of the
    socket the notifications written so far give the mode its watcher saw
    last, and unless a change of the state waits for the watcher, or was written
    and not announced yet, this is the mode that requests are judged by; changes
    that come together are told as one. *)
Theorem client_knows_mode (g : registry) (h : Holder) (events : list Event) (update_rx : receiver)
    (last_mode : ClusterTokenGenerationMode) :
  let y := run events (endpoint_new g h) in
  mode_watcher y = WatcherWaits update_rx last_mode ->
  known_mode (outgoing y) = last_mode /\
  (watch_has_changed (holder_update_tx (applicable_state_holder y)) update_rx = false ->
   write_unannounced events = false -> known_mode (outgoing y) = current_mode y).
Proof.
  intros y Hwaits.
  assert (Hok : watcher_ok (write_unannounced events) y).
  { assert (Hstart : watcher_ok false (endpoint_new (receiver := receiver) g h)) by reflexivity.
    unfold y, write_unannounced. clear y Hwaits. revert Hstart. generalize false.
    generalize (endpoint_new (receiver := receiver) g h : Endpoint).
    induction events as [|event events IH]; intros y0 b Hy0; [done|].
    apply IH. by apply endpoint_step_watcher. }
  unfold watcher_ok in Hok. rewrite Hwaits in Hok. destruct Hok as (Hknown & _ & Hcurrent).
  split; [done|]. intros Hseen Hwritten. rewrite Hknown. by apply Hcurrent.
Qed.
End Facts.

(** ** Runs *)

#[local] Instance sample_json : JsonTypes := {| JsonValue := unit |}.
#[local] Instance sample_llama : LlamaTypes := {| TokenUsage := unit; ParsedToolCall := unit |}.

Definition raw_request (id : string) : InferenceServerMessage :=
  InferenceRequest {| request_envelope_id := id; request :=
    InferFromRawPrompt {| raw_grammar := None; raw_max_tokens := 8; raw_prompt := "p" |} |}.

(** A tool whose one required field is not among its properties. *)
Definition invalid_tool : Tool RawParametersSchema :=
  FunctionTool {| function := {| function_name := "f"; function_description := "";
    function_parameters := SchemaParameters
      {| raw_schema_type := "object"; raw_properties := Some ∅; raw_required := Some ["x"%string];
         raw_additional_properties := None |} |} |}.

Definition invalid_params : ContinueFromConversationHistoryParams RawParametersSchema := {|
  add_generation_prompt := true; conversation_history := {| messages := [] |};
  enable_thinking := false; history_grammar := None; history_max_tokens := 8;
  parse_tool_calls := true; tools := [invalid_tool] |}.

Definition sample_incoming (text : string) : result InferenceServerMessage string :=
  if bool_decide (text = "invalid"%string) then
    Ok (InferenceRequest {| request_envelope_id := "bad";
                            request := InferFromConversationHistory invalid_params |})
  else Ok (raw_request text).

Definition embedding_state : BalancerApplicableState := {| agent_desired_state := {|
  chat_template_override := None; model := NoModel; multimodal_projection := NoModel;
  inference_parameters := Build_InferenceParameters 2048 8192 256 true 1024 Q80 Q80 f64_zero
    0 f64_zero (-1) f64_zero f64_zero PoolingLast f64_zero 80
    f64_zero |} |}.

Definition reads (text : string) : EndpointEvent :=
  EndpointTurns (NextMessage (Some (Ok (AggregatedText text)))).

Definition sample_new : @InferenceConnection _ _ TokenForest (list nat) nat nat :=
  endpoint_new sample_forest holder_default.

Definition sample_run : list EndpointEvent -> InferenceConnection -> InferenceConnection :=
  endpoint_run sample_incoming (fun _ => "") (fun s => s) 1000 [].

(** One request runs, and an invalid one waits for its handler. *)
Definition sample_events : list EndpointEvent :=
  [reads "a"; EndpointHandles 0 true; reads "invalid"].

Lemma sample_known : token_known sample_forest ([] : list nat) = true.
Proof. reflexivity. Qed.

Lemma socket_refines_connection_witness :
  cancellation_tokens (request_tokens (sample_run sample_events sample_new))
  = {["a"%string := [0%nat]]}.
Proof.
  destruct (socket_refines_connection sample_incoming (fun _ => "") (fun s => s) 1000 [] sample_forest
    holder_default sample_events sample_known) as [_ Htokens].
  etransitivity; [exact Htokens|]. vm_compute. reflexivity.
Defined.

Lemma invalid_request_ends_all_witness :
  let y := sample_run sample_events sample_new in
  let y' := sample_run [EndpointHandles 0 true] y in
  outgoing y' = [] /\ exists r, running y' !! "a"%string = Some r /\
    request_cancelled (request_token r) (request_tokens y') = true.
Proof.
  intros y y'.
  destruct (invalid_request_ends_all sample_incoming (fun _ => "") (fun s => s) 1000 [] sample_forest
    holder_default sample_events sample_known 0 true "bad" invalid_params
    "Required field 'x' not found in properties") as (Hout & _ & _ & Hall);
    [vm_compute; reflexivity|vm_compute; reflexivity|].
  split; [etransitivity; [exact Hout|]; vm_compute; reflexivity|].
  destruct (running y' !! "a"%string) as [r|] eqn:Hr; [|by vm_compute in Hr].
  exists r. split; [done|]. exact (proj1 (Hall "a"%string r Hr)).
Defined.

Definition sample_switches : list EndpointEvent :=
  [WatcherTurns false true; HolderWrites (Some embedding_state); HolderAnnounces;
   WatcherTurns false true; HolderWrites None; HolderAnnounces].

Lemma client_knows_mode_witness :
  let y := sample_run sample_switches sample_new in
  known_mode (outgoing y) = DisabledForEmbeddings /\ current_mode y = Enabled /\
  known_mode (outgoing (sample_run [WatcherTurns false true] y)) = Enabled.
Proof.
  intros y. split; [|split; vm_compute; reflexivity].
  refine (proj1 (client_knows_mode sample_incoming (fun _ => "") (fun s => s) 1000 [] sample_forest
    holder_default sample_switches _ DisabledForEmbeddings _)).
  vm_compute. reflexivity.
Defined.
