(* ===== verification/InferenceRoutes.v ===== *)
(** * The inference service over HTTP

    [post_continue_from_conversation_history.rs],
    [post_continue_from_raw_prompt.rs], [post_generate_embedding_batch.rs],
    [unbounded_stream_from_agent.rs], [http_stream_from_agent.rs] and
    [cancellation_token_stream_guard.rs]: the
    guards of the routes, and the streams of their bodies over the tasks of
    [RequestTask]. *)

From S2P Require Import Prelude.
From S2P Require Import Tokio.
From S2P Require Import Messages.
From S2P Require Import Requests.
From S2P Require Import Senders.
From S2P Require Import SlotStatus.
From S2P Require Import AgentController.
From S2P Require Import AgentPool.
From S2P Require Import DesiredState.
From S2P Require Import BufferedRequests.
From S2P Require Import RequestFromAgent.
From S2P Require Import RequestTask.
From S2P Require Import ToolCalls.
From S2P Require Import OpenAI.
From S2P Require Import ClientDecoding.
From S2P Require Import Bytes.
Local Open Scope Z_scope.

(** An error response of a route. *)
Record HttpError : Type := { error_status : Z; error_body : string }.

Section InferenceRoutes.
Context `{JsonTypes} `{MessageJson} {sender receiver : Type} `{!WatchChannel sender receiver}.
Context (inference_item_timeout : N).
Local Abbreviation Holder := (@BalancerApplicableStateHolder sender).

(** ** What a session makes of a message *)

Inductive EmbeddingChunkBodyTransformer : Type := embedding_chunk_transformer_new.

Definition is_embedding_done (message : OutgoingMessage) : bool :=
  match message with
  | OutgoingMessageResponse envelope =>
      match response envelope with OutgoingEmbedding EmbeddingDone => true | _ => false end
  | _ => false
  end.

#[export] Instance embedding_chunk_transform :
    TransformsOutgoingMessage EmbeddingChunkBodyTransformer unit TransformResult :=
  fun _ s message =>
    if is_embedding_done message then (s, Ok [Discard])
    else (s, let? serialized := message_to_string message in Ok [Chunk serialized]).

(** ** Streams over one request *)

Definition respond_conversation (h : Holder)
    (params : ContinueFromConversationHistoryParams RawParametersSchema)
    : result (ContinueFromConversationHistoryParams ValidatedParametersSchema) HttpError :=
  match require_token_generation_enabled h with
  | Err message => Err {| error_status := 501; error_body := message |}
  | Ok _ =>
      match validate_conversation_params params with
      | Ok validated_params => Ok validated_params
      | Err validation_error =>
          Err {| error_status := 400;
                 error_body := "Invalid request parameters: " +:+ validation_error |}
      end
  end.

Definition respond_raw_prompt (h : Holder) (params : ContinueFromRawPromptParams)
    : result ContinueFromRawPromptParams HttpError :=
  match require_token_generation_enabled h with
  | Err message => Err {| error_status := 501; error_body := message |}
  | Ok _ => Ok params
  end.

(** ** Streams over tasks

    The tasks of a response share the channel of its body, [chunks], and the
    token that [CancellationTokenStreamGuard] cancels when the body is
    dropped. [written] remembers which task wrote which message; the program
    does not keep it. *)

Section Tasks.
Context {R : Type} `{!StreamableResult R} `{!IntoOutgoingResponse R}.
Context {T : Type} (t : T) `{!TransformsOutgoingMessage T unit TransformResult}.

Record ResponseBody : Type := {
  chunk_tasks : list (string * RequestTask R);
  chunks : list TransformResult;
  body_open : bool;
  written : list (nat * OutgoingMessage);
}.

Definition body_new (ids : list string) : ResponseBody :=
  {| chunk_tasks := map (fun id => (id, task_new)) ids; chunks := []; body_open := true;
     written := [] |}.

Definition transformed (messages : list OutgoingMessage) : list TransformResult :=
  messages ≫= fun message =>
    match (transform t tt message).2 with Ok outputs => outputs | Err _ => [] end.

(** A task went on: what it wrote goes into the channel. *)
Definition store_chunk_task (index : nat) (id : string) (before after : RequestTask R)
    (b : ResponseBody) : ResponseBody := {|
  chunk_tasks := <[index := (id, after)]> (chunk_tasks b);
  chunks := chunks b ++ transformed (newly_written before after);
  body_open := body_open b;
  written := written b ++ map (fun message => (index, message)) (newly_written before after) |}.

(** A send to the body needs the body open; the turn says whether the message
    could be printed. *)
Definition with_client_accepts (accepts : bool) (turn : Turn (R := R)) : Turn := {|
  shutdown_cancelled := shutdown_cancelled turn;
  agent_connection_closed := agent_connection_closed turn;
  client_connection_closed := client_connection_closed turn; timer_elapsed := timer_elapsed turn;
  response_ready := response_ready turn; client_accepts := accepts && client_accepts turn;
  agent_reachable := agent_reachable turn |}.

Inductive BodyEvent : Type :=
| TaskWaits (index : nat) (turn : Turn (R := R)) (w : WaitSelect)
    (establish : result ManagesSendersController string) (name_ : option string)
| TaskTurns (index : nat) (turn : Turn (R := R))
| BodyDropped.

Definition body_step (event : BodyEvent) (b : ResponseBody) : ResponseBody :=
  match event with
  | TaskWaits index turn w establish name_ =>
      match chunk_tasks b !! index with
      | Some (id, task) =>
          store_chunk_task index id task
            (task_waits id (negb (body_open b)) (with_client_accepts (body_open b) turn) w establish
               name_ task) b
      | None => b
      end
  | TaskTurns index turn =>
      match chunk_tasks b !! index with
      | Some (id, task) =>
          store_chunk_task index id task
            (task_turns inference_item_timeout id (negb (body_open b))
               (with_client_accepts (body_open b) turn) task) b
      | None => b
      end
  | BodyDropped =>
      {| chunk_tasks := chunk_tasks b; chunks := chunks b; body_open := false; written := written b |}
  end.

Definition body_run (events : list BodyEvent) (b : ResponseBody) : ResponseBody :=
  fold_left (fun b event => body_step event b) events b.

Definition tasks_ended (b : ResponseBody) : bool :=
  forallb (fun task => negb (task_running task.2)) (chunk_tasks b).
End Tasks.

(** [unbounded_stream_from_agent] and [http_stream_from_agent]: one task. *)
Definition http_stream_from_agent (id : string) : ResponseBody (R := GeneratedTokenResult) :=
  body_new [id].

(** ** Batches of embeddings *)

(** [respond] of the route up to its tasks; [agent_count] is the size of the
    pool. *)
Definition respond_embedding_batch (h : Holder) (agent_count : nat)
    (params : GenerateEmbeddingBatchParams) : result (list GenerateEmbeddingBatchParams) HttpError :=
  match get_agent_desired_state h with
  | None =>
      Err {| error_status := 503; error_body := "Balancer applicable state is not yet set" |}
  | Some agent_desired_state =>
      if negb (enable_embeddings (inference_parameters agent_desired_state)) then
        Err {| error_status := 501;
               error_body := "Embedding generation is not enabled in the inference parameters" |}
      else
        match chunk_evenly_with_cap params agent_count
                (Z.to_nat (embedding_batch_size (inference_parameters agent_desired_state))) with
        | Ok batches => Ok batches
        | Err ZeroAgentCount =>
            Err {| error_status := 503; error_body := "No agents are currently connected" |}
        | Err ZeroMaxDocumentsPerChunk =>
            Err {| error_status := 500;
                   error_body := "embedding_batch_size is zero despite validation" |}
        end
  end.

(** The task that waits for the others and writes the one end of the stream. *)
Definition final_done (final_request_id : string) : OutgoingMessage :=
  OutgoingMessageResponse {| generated_by := None; response_request_id := final_request_id;
                             response := OutgoingEmbedding EmbeddingDone |}.

Definition final_chunks (final_request_id : string) (b : ResponseBody (R := EmbeddingResult))
    : option (list TransformResult) :=
  if tasks_ended b then
    Some (if body_open b
          then chunks b ++ transformed identity_transformer_new [final_done final_request_id]
          else chunks b)
  else None.
End InferenceRoutes.

(** ** What the inference routes promise

    Facts about [InferenceRoutes]: which answer a route gives before a task
    starts, and what the body of a response carries. *)

(** ** Bodies *)

Section Bodies.
Context `{JsonTypes} `{MessageJson} {sender receiver : Type} `{!WatchChannel sender receiver}.
Context (inference_item_timeout : N).
Context {R : Type} `{!StreamableResult R} `{!IntoOutgoingResponse R}.
Context {T : Type} (t : T) `{!TransformsOutgoingMessage T unit TransformResult}.
Local Abbreviation Body := (@ResponseBody _ R).
Local Abbreviation step := (body_step inference_item_timeout t).
Local Abbreviation run := (body_run inference_item_timeout t).

(** The messages a task wrote. *)
Definition written_by (index : nat) (b : Body) : list OutgoingMessage :=
  omap (fun w : nat * OutgoingMessage => if bool_decide (w.1 = index) then Some w.2 else None)
    (written b).

(** The body carries what was written, transformed, and each task wrote what
    its log says the client accepted, all of it about its own request. *)
Record body_ok (ids : list string) (b : Body) : Prop := {
  body_ids : map fst (chunk_tasks b) = ids;
  body_chunks : chunks b = transformed t (map snd (written b));
  body_written (index : nat) (id : string) (task : RequestTask R) :
    chunk_tasks b !! index = Some (id, task) ->
    written_by index b = written_messages (log (task_progress task)) /\
    Forall (request_message id) (written_by index b);
}.

Lemma transformed_app (l1 l2 : list OutgoingMessage) :
  transformed t (l1 ++ l2) = transformed t l1 ++ transformed t l2.
Proof. apply bind_app. Qed.

Lemma written_by_store (index other : nat) (id : string) (before after : RequestTask R) (b : Body) :
  written_by other (store_chunk_task t index id before after b)
  = written_by other b ++ (if bool_decide (index = other) then newly_written before after else []).
Proof.
  unfold written_by. simpl. rewrite omap_app. f_equal.
  induction (newly_written before after) as [|message messages IH]; [by case_bool_decide|].
  simpl. case_bool_decide; [f_equal; exact IH|exact IH].
Qed.

Lemma store_chunk_task_ok (ids : list string) (index : nat) (id : string)
    (before after : RequestTask R) (b : Body)
    (Htask : chunk_tasks b !! index = Some (id, before))
    (Hextends : log_extends id (task_progress before) (task_progress after))
    (Hok : body_ok ids b) : body_ok ids (store_chunk_task t index id before after b).
Proof.
  destruct Hok as [Hids Hchunks Hwritten].
  destruct (newly_written_extends id before after Hextends) as [Hnew Hlog]. split; simpl.
  - rewrite list_fmap_insert, list_insert_id; [exact Hids|]. by rewrite list_lookup_fmap, Htask.
  - rewrite map_app, transformed_app, Hchunks, map_map, map_id. done.
  - intros other id' task' Hlookup. rewrite written_by_store.
    destruct (decide (index = other)) as [->|Hne].
    + rewrite list_lookup_insert_eq in Hlookup by by eapply lookup_lt_Some.
      injection Hlookup as <- <-. destruct (Hwritten other id before Htask) as [Hw Hall].
      rewrite bool_decide_eq_true_2, Hlog, Hw by done. split; [done|].
      apply Forall_app. by rewrite <- Hw.
    + rewrite list_lookup_insert_ne in Hlookup by done.
      rewrite bool_decide_eq_false_2, app_nil_r by done. by apply Hwritten.
Qed.

Lemma body_new_ok (ids : list string) : body_ok ids (body_new ids).
Proof.
  split; simpl; [by rewrite map_map, map_id|done|].
  intros index id task Hlookup. rewrite list_lookup_fmap in Hlookup.
  destruct (ids !! index); simplify_eq/=. by split.
Qed.

Lemma body_step_ok (ids : list string) (event : BodyEvent) (b : Body) (Hok : body_ok ids b) :
  body_ok ids (step event b).
Proof.
  destruct event as [index turn w establish name_|index turn|]; simpl.
  - destruct (chunk_tasks b !! index) as [[id task]|] eqn:Htask; [|done].
    apply store_chunk_task_ok; [done|apply task_waits_extends|done].
  - destruct (chunk_tasks b !! index) as [[id task]|] eqn:Htask; [|done].
    apply store_chunk_task_ok; [done|apply task_turns_extends|done].
  - destruct Hok as [Hids Hchunks Hwritten]. by split.
Qed.

Lemma body_run_ok (ids : list string) (events : list BodyEvent) (b : Body) (Hok : body_ok ids b) :
  body_ok ids (run events b).
Proof.
  revert b Hok. induction events as [|event events IH]; intros b Hok; [done|].
  apply IH. by apply body_step_ok.
Qed.

(** A client that leaves stops its request: once the body of a response is
    dropped, the next turn of each of its tasks that still forwards asks the
    agent to stop and writes nothing, and the task goes on only to wait for the
    agent's confirmation. *)
Theorem dropped_body_stops_tasks (ids : list string) (events : list BodyEvent) (index : nat)
    (id : string) (task : RequestTask R) (name_ : option string) (turn : Turn) :
  let b := step BodyDropped (run events (body_new ids)) in
  chunk_tasks b !! index = Some (id, task) -> task_running task = true ->
  task_agent task = Some name_ -> is_forwarding (task_progress task) = true ->
  shutdown_cancelled turn = false /\ agent_connection_closed turn = false ->
  let b' := step (TaskTurns index turn) b in
  chunks b' = chunks b /\
  exists task', chunk_tasks b' !! index = Some (id, task') /\
    log (task_progress task') = log (task_progress task) ++ [AgentStop (agent_reachable turn)] /\
    task_running task' = agent_reachable turn.
Proof.
  intros b Htask Hrunning Hagent Hforwarding Hcalm b'.
  destruct (cancelled_task_turn inference_item_timeout id name_ (with_client_accepts false turn) task
    Hrunning Hagent Hforwarding Hcalm) as (Hnew & Hlog & Hends).
  assert (Hb' : b' = store_chunk_task t index id task (task_turns inference_item_timeout id true
    (with_client_accepts false turn) task) b) by (unfold b'; simpl in *; by rewrite Htask).
  rewrite Hb'. simpl. rewrite Hnew. split; [apply app_nil_r|].
  eexists. rewrite list_lookup_insert_eq by by eapply lookup_lt_Some.
  split; [done|]. by split.
Qed.
End Bodies.

(** ** Batches of embeddings *)

Section Embeddings.
Context `{JsonTypes} `{MessageJson} {sender receiver : Type} `{!WatchChannel sender receiver}.
Context (inference_item_timeout : N).
Local Abbreviation Holder := (@BalancerApplicableStateHolder sender).
Local Abbreviation run := (body_run (R := EmbeddingResult) inference_item_timeout
  embedding_chunk_transformer_new).

(** The lines of a body that carries [messages]. *)
Definition message_lines (messages : list OutgoingMessage) : list bytes :=
  messages ≫= fun message =>
    match message_to_string message with Ok text => [line_bytes text] | Err _ => [] end.

Lemma http_stream_bytes_app (l1 l2 : list TransformResult) :
  http_stream_bytes (l1 ++ l2) = http_stream_bytes l1 ++ http_stream_bytes l2.
Proof. apply omap_app. Qed.

(** A chunk's messages are the lines of the body, without their [Done]s. *)
Lemma embedding_lines (messages : list OutgoingMessage) :
  http_stream_bytes (transformed embedding_chunk_transformer_new messages)
  = message_lines (filter (fun message => is_embedding_done message = false) messages).
Proof.
  unfold transformed, message_lines. induction messages as [|message messages IH]; [done|].
  rewrite bind_cons, http_stream_bytes_app, IH, filter_cons.
  unfold transform, embedding_chunk_transform. destruct (is_embedding_done message); simpl; [done|].
  by destruct (message_to_string message).
Qed.

(** A batch of embeddings ends once: when the last task of an open body
    returned, the body carries a line for every message its tasks wrote, their
    own [Done]s left out, and then the one [Done] of the batch; each task wrote
    what its client accepted, in order, under its own request id. *)
Theorem embedding_batch_ends_once (ids : list string) (events : list BodyEvent)
    (final_request_id : string) (cs : list TransformResult) :
  let b := run events (body_new ids) in
  final_chunks final_request_id b = Some cs -> body_open b = true ->
  http_stream_bytes cs
  = message_lines (filter (fun message => is_embedding_done message = false) (map snd (written b)))
    ++ message_lines [final_done final_request_id] /\
  forall index id task, chunk_tasks b !! index = Some (id, task) ->
    task_running task = false /\ ids !! index = Some id /\
    written_by index b = written_messages (log (task_progress task)) /\
    Forall (request_message id) (written_by index b).
Proof.
  intros b Hfinal Hopen.
  destruct (body_run_ok inference_item_timeout embedding_chunk_transformer_new ids events _
    (body_new_ok embedding_chunk_transformer_new ids)) as [Hids Hchunks Hwritten].
  fold b in Hids, Hchunks, Hwritten. unfold final_chunks in Hfinal.
  destruct (tasks_ended b) eqn:Hended; [|done]. rewrite Hopen in Hfinal. injection Hfinal as <-.
  rewrite http_stream_bytes_app, Hchunks, embedding_lines. split.
  { f_equal. unfold transformed, transform, identity_transform, message_lines. simpl.
    by destruct (message_to_string _). }
  intros index id task Htask. split.
  - unfold tasks_ended in Hended. rewrite forallb_forall in Hended.
    specialize (Hended (id, task)). apply negb_true_iff. apply Hended.
    apply list_elem_of_In. by eapply list_elem_of_lookup_2.
  - split; [|by apply Hwritten]. rewrite <- Hids, list_lookup_fmap. by rewrite Htask.
Qed.

(** A batch is answered before its tasks start by exactly the error of
    the first guard it fails, and otherwise split among the agents: the parts
    put together are its documents in order, none is empty and none larger
    than the configured size. *)
Theorem embedding_batch_split (h : Holder) (agent_count : nat) (params : GenerateEmbeddingBatchParams) :
  match respond_embedding_batch h agent_count params with
  | Ok batches =>
      exists state, get_agent_desired_state h = Some state /\
        enable_embeddings (inference_parameters state) = true /\
        concat (map input_batch batches) = input_batch params /\
        Forall (fun batch =>
          (1 <= length (input_batch batch)
             <= Z.to_nat (embedding_batch_size (inference_parameters state)))%nat) batches
  | Err error =>
      match get_agent_desired_state h with
      | None => error_status error = 503
      | Some state =>
          if enable_embeddings (inference_parameters state) then
            if (agent_count =? 0)%nat then error_status error = 503
            else error_status error = 500 /\ embedding_batch_size (inference_parameters state) <= 0
          else error_status error = 501
      end
  end.
Proof.
  unfold respond_embedding_batch. destruct (get_agent_desired_state h) as [state|] eqn:Hstate; [|done].
  destruct (enable_embeddings (inference_parameters state)) eqn:Henabled; [|done]. simpl.
  pose proof (chunk_evenly_partition params agent_count
    (Z.to_nat (embedding_batch_size (inference_parameters state)))) as Hpart.
  destruct (chunk_evenly_with_cap _ _ _) as [batches|[|]].
  - destruct Hpart as (Hconcat & Hall & _). exists state. split_and!; [done|done|done|].
    apply (Forall_impl _ _ _ Hall). by intros batch [? _].
  - subst agent_count. done.
  - destruct Hpart as [Hagents Hcap]. rewrite (proj2 (Nat.eqb_neq _ _) Hagents). split; [done|]. lia.
Qed.
End Embeddings.

(** ** Runs *)

#[local] Instance sample_json : JsonTypes := {| JsonValue := unit |}.
#[local] Instance sample_llama : LlamaTypes := {| TokenUsage := unit; ParsedToolCall := unit |}.

#[local] Instance sample_message_json : MessageJson := fun _ => Ok "m"%string.

Definition sample_turn {R : Type} (r : option (option R)) : Turn :=
  {| shutdown_cancelled := false; agent_connection_closed := false;
     client_connection_closed := false; timer_elapsed := false; response_ready := r;
     client_accepts := true; agent_reachable := true |}.

Definition sample_found : WaitSelect :=
  WaitResult (Ok (Found {| dispatched_controller := 0;
                           slot_guard := {| guarded_controller := 0 |} |})).

Definition sample_established : result ManagesSendersController string :=
  Ok {| Senders.request_id := "r"; response_rx := 0 |}.

Definition sample_start {R : Type} : BodyEvent (R := R) :=
  TaskWaits 0 (sample_turn None) sample_found sample_established (Some "agent"%string).

Lemma dropped_body_stops_tasks_witness :
  let b := body_step (R := GeneratedTokenResult) 1000 identity_transformer_new BodyDropped
             (body_run 1000 identity_transformer_new
                [sample_start; TaskTurns 0 (sample_turn (Some (Some (ContentToken "a"))))]
                (body_new ["r"%string])) in
  chunks (body_step 1000 identity_transformer_new
            (TaskTurns 0 (sample_turn None)) b) = [Chunk "m"].
Proof.
  intros b. destruct (chunk_tasks b !! 0%nat) as [[id task]|] eqn:Htask; [|by vm_compute in Htask].
  pose proof (dropped_body_stops_tasks 1000 identity_transformer_new
    ["r"%string] [sample_start; TaskTurns 0 (sample_turn (Some (Some (ContentToken "a"))))] 0 id task
    (Some "agent"%string) (sample_turn None) Htask) as Hstops.
  vm_compute in Htask. injection Htask as <- <-.
  destruct Hstops as [Hchunks _]; [done|done|done|done|]. etransitivity; [exact Hchunks|].
  vm_compute. reflexivity.
Defined.

(** A batch of one chunk whose agent produces nothing but its [Done]. *)
Lemma embedding_batch_ends_once_witness :
  let b := body_run (R := EmbeddingResult) 1000 embedding_chunk_transformer_new
             [sample_start; TaskTurns 0 (sample_turn (Some (Some EmbeddingDone)))]
             (body_new ["r"%string]) in
  exists cs, final_chunks "f" b = Some cs /\ http_stream_bytes cs = [line_bytes "m"].
Proof.
  intros b. destruct (final_chunks "f" b) as [cs|] eqn:Hfinal;
    [|by vm_compute in Hfinal].
  exists cs. split; [done|].
  destruct (embedding_batch_ends_once 1000 ["r"%string]
    [sample_start; TaskTurns 0 (sample_turn (Some (Some EmbeddingDone)))] "f" cs Hfinal eq_refl)
    as [Hlines _].
  etransitivity; [exact Hlines|]. vm_compute. reflexivity.
Defined.
