(* ===== verification/EndToEnd.v ===== *)
(** * A token, from the scheduler of an agent to the client that asked

    The parts a generated token goes through, composed: the agent's end of the
    management socket ([AgentSocket]), the balancer's end ([BalancerSocket])
    with its sender collection ([Senders]), the forwarding loop of the request
    ([RequestFromAgent]) and the inference socket of the client
    ([InferenceSocket]).  Each part is run by its own events, in any
    interleaving with the other requests it serves.  What lies between two
    parts, a TCP connection or a channel, gives the reader a prefix of what
    was put in: these are the only hypotheses that relate two runs. *)

From S2P Require Import Prelude.
From S2P Require Import Tokio.
From S2P Require Import Messages.
From S2P Require Import InferenceSocket.
From S2P Require Import InferenceSocketFacts.
From S2P Require Import Requests.
From S2P Require Import AgentIssues.
From S2P Require Import Senders.
From S2P Require Import SlotStatus.
From S2P Require Import AgentController.
From S2P Require Import AgentPool.
From S2P Require Import BufferedRequests.
From S2P Require Import RequestFromAgent.
From S2P Require Import DesiredState.
From S2P Require Import AgentStartup.
From S2P Require Import AgentSocket.
From S2P Require Import AgentSocketFacts.
From S2P Require Import WebSocketEndpoint.
From S2P Require Import BalancerSocket.
From S2P Require Import BalancerSocketFacts.
From S2P Require Import RequestTask.
Local Open Scope Z_scope.

(** ** What a client is given

    The answers of a request are responses of the agent, and at most one error
    of the balancer after them. *)
Section Relayed.
Context `{LlamaTypes} {R : Type} `{!StreamableResult R} `{!IntoOutgoingResponse R}.
Context (id : string) (name_ : option string).

Definition relayed (responses : list R) (messages : list OutgoingMessage) : Prop :=
  exists tail, messages = map (response_message id name_) responses ++ tail /\
    (tail = [] \/ exists e, tail = [OutgoingMessageError e]).

Lemma relayed_prefix (responses : list R) (messages messages' : list OutgoingMessage)
    (Hrelayed : relayed responses messages) (Hprefix : messages' `prefix_of` messages) :
  exists responses', responses' `prefix_of` responses /\ relayed responses' messages'.
Proof.
  destruct Hrelayed as (tail & -> & Htail).
  revert messages' Hprefix. induction responses as [|r responses IH]; intros messages' Hprefix.
  - exists []. split; [done|]. exists messages'. split; [done|]. simpl in Hprefix.
    destruct Hprefix as [rest Hrest], messages' as [|m messages']; [by left|right].
    destruct Htail as [->|[e ->]]; [done|]. simplify_eq/=.
    match goal with Hnil : [] = _ ++ _ |- _ => symmetry in Hnil; apply app_nil in Hnil as [-> _] end.
    by exists e.
  - destruct messages' as [|m messages'].
    + exists []. split; [apply prefix_nil|]. exists []. auto.
    + pose proof (prefix_cons_inv_1 _ _ _ _ Hprefix) as ->.
      apply prefix_cons_inv_2, IH in Hprefix as (responses' & Hp & tail' & -> & Ht).
      exists (r :: responses'). split; [by apply prefix_cons|]. by exists tail'.
Qed.

Lemma relayed_last (responses : list R) (messages : list OutgoingMessage) (message : OutgoingMessage)
    (Hrelayed : relayed responses messages) (Hlast : last messages = Some message) :
  (exists e, message = OutgoingMessageError e) \/
  (exists r, message = response_message id name_ r /\ last responses = Some r).
Proof.
  destruct Hrelayed as (tail & -> & [->|[e ->]]).
  - rewrite app_nil_r in Hlast. change (map ?f ?l) with (f <$> l) in Hlast. rewrite fmap_last in Hlast.
    apply fmap_Some in Hlast as (r & Hr & ->). eauto.
  - rewrite last_snoc in Hlast. simplify_eq. eauto.
Qed.

(** What the forwarding loop writes. *)
Lemma run_relays (timeout : N) (turns : list (@Turn R)) :
  let s := (forward_responses_stream id name_ timeout turns).1 in
  exists responses, responses `prefix_of` received s /\ relayed responses (written_messages (log s)).
Proof.
  intros s. destruct (run_turns_ok id name_ timeout turns forward_initial (forward_initial_ok id name_))
    as (delivered & tail & Hlog & _ & Hprefix & _ & Htail).
  change (fst (run_turns id name_ timeout turns forward_initial)) with s in Hlog, Hprefix, Htail.
  assert (Hdelivered : omap (fun sent : OutgoingMessage * bool => if sent.2 then Some sent.1 else None)
    (map (fun r => (response_message id name_ r, true)) delivered)
    = map (response_message id name_) delivered).
  { clear. induction delivered; simpl; [done|]. by f_equal. }
  unfold written_messages. rewrite Hlog, omap_app, Hdelivered.
  destruct Htail as [->|(m & ok & -> & Hm)].
  - exists delivered. split; [done|]. exists []. auto.
  - destruct ok; [destruct Hm as [[e ->]|(r & -> & Hr & _)]|].
    + exists delivered. split; [done|]. exists [OutgoingMessageError e]. eauto.
    + exists (delivered ++ [r]). split; [done|]. exists []. simpl.
      rewrite map_app, app_nil_r. auto.
    + exists delivered. split; [done|]. exists []. auto.
Qed.
End Relayed.

(** ** The messages of a request on the client's socket *)
Section Answers.
Context `{LlamaTypes} (stop_json : string -> result string string).

Definition messages_for (id : string) (messages : list OutgoingMessage) : list OutgoingMessage :=
  filter (fun message => is_Some (message_for id message)) messages.

Lemma answers_messages_for (id : string) (messages : list OutgoingMessage) :
  (InferenceSocketFacts.answers id messages).1 `prefix_of` messages_for id messages.
Proof.
  unfold messages_for. induction messages as [|message messages IH]; [done|]. simpl.
  destruct (message_for id message) as [[|]|] eqn:Hm.
  - rewrite filter_cons_True by (rewrite Hm; done). apply prefix_cons, prefix_nil.
  - rewrite filter_cons_True by (rewrite Hm; done).
    destruct (InferenceSocketFacts.answers id messages). by apply prefix_cons.
  - rewrite filter_cons_False; [done|]. rewrite Hm. by intros [? ?].
Qed.

(** An answer that ended did so with its last message. *)
Lemma answers_ended (id : string) (messages : list OutgoingMessage)
    (Hended : (InferenceSocketFacts.answers id messages).2 = true) :
  exists message, last (InferenceSocketFacts.answers id messages).1 = Some message /\
    message_for id message = Some true.
Proof.
  induction messages as [|message messages IH]; [done|]. simpl in *.
  destruct (message_for id message) as [[|]|] eqn:Hm; [by exists message| |by apply IH].
  destruct (InferenceSocketFacts.answers id messages) as [answered ended]. simpl in *.
  destruct (IH Hended) as (final & Hfinal & ?). exists final. split; [|done].
  by destruct answered.
Qed.

(** What a request that was sent while the socket was read is sent. *)
Lemma request_sent_into (before after : list Operation) (id json : string)
    (c : InferenceSocket.Connection) (channel : nat)
    (Hreading : read_task (operate_all stop_json before connection_new) = Reading)
    (Hsend : connection_send id json (operate_all stop_json before connection_new) = (c, Ok channel))
    (Halone : Forall (leaves_alone id channel) after) :
  let c' := operate_all stop_json after c in
  exists dropped, (dropped = [] \/ dropped = [Err (ConnectionDropped id)]) /\
    sent_into <$> InferenceSocket.channels c' !! channel
    = Some (map Ok (InferenceSocketFacts.answers id (messages_read after)).1 ++ dropped) /\
    (read_task c' = Reading -> InferenceSocket.pending c' !! id <> Some channel ->
     (InferenceSocketFacts.answers id (messages_read after)).2 = true).
Proof.
  cbv zeta. pose proof (viewed_after_send _ _ _ _ _ (channels_old_reachable stop_json before) Hsend) as Hv.
  rewrite Hreading in Hv. apply (viewed_steps stop_json _ _ after) in Hv; [|done].
  rewrite view_steps_final in Hv. unfold final_view in Hv.
  destruct (InferenceSocketFacts.answers id (messages_read after)) as [answered ended].
  rewrite (viewed_seen _ _ _ _ Hv), (viewed_task _ _ _ _ Hv). simpl.
  eexists. split; [|split; [done|]].
  - destruct (negb ended && true && _); auto.
  - intros Htask Hgone. destruct ended; [done|]. destruct Hgone.
    apply (viewed_waiting _ _ _ _ Hv). simpl. by rewrite Htask.
Qed.
End Answers.

(** ** The whole way *)
Section EndToEnd.
Context `{JsonTypes} `{LlamaTypes}.
Context {achan bchan : Type -> Type} `{!UnboundedChannel achan} `{!UnboundedChannel bchan}.
Context {asender areceiver : Type} `{!WatchChannel asender areceiver}.
Context {bsender breceiver : Type} `{!WatchChannel bsender breceiver} {token : Type}.
Context (agent_from_str : string -> result AgentMessage string).
Context (balancer_from_str : string -> result ManagementMessage string) (print_size : Z -> string).
Context (VERSION : string) (stop_json : string -> result string string).
Local Abbreviation agent_run := (socket_run agent_from_str).
Local Abbreviation balancer_runs := (balancer_run balancer_from_str print_size VERSION).
Local Abbreviation balancer_reads := (read_in_run balancer_from_str print_size VERSION).

Definition generated_token (response : AgentResponse) : option GeneratedTokenResult :=
  match response with ResponseGeneratedToken r => Some r | _ => None end.

Lemma token_answers (id : string) (messages : list ManagementMessage) :
  omap (token_answer id) messages = omap generated_token (AgentSocketFacts.answers id messages).
Proof.
  unfold AgentSocketFacts.answers. induction messages as [|message messages IH]; [done|]. simpl.
  unfold token_answer, generated_token in *. destruct (answer id message) as [[]|]; simpl; by f_equal.
Qed.

Lemma token_answers_prefix (id : string) (l1 l2 : list ManagementMessage) (Hprefix : l1 `prefix_of` l2) :
  omap (token_answer id) l1 `prefix_of` omap (token_answer id) l2.
Proof. destruct Hprefix as [l ->]. rewrite omap_app. by eexists. Qed.

(** What the agent wrote for a request is what its scheduler sent. *)
Lemma agent_writes_tokens (events0 events : list SocketEvent) (y0 : @AgentSocket _ _ achan asender)
    (n : nat) (s : AgentSocket.ResponseStream) (Hquiet : quiet y0) :
  let y := agent_run events0 y0 in
  let id := AgentSocket.stream_request_id s in
  streams y !! n = Some s -> forwarding s = true ->
  AgentSocketFacts.answers id (outbox y) = [] -> Forall (event_calm agent_from_str id) events ->
  omap (token_answer id) (written (agent_run events y)) `prefix_of`
  omap generated_token (pending_responses (AgentSocket.response_rx s) ++ sent_in_run agent_from_str n events y).
Proof.
  intros y id Hs Hforwarding Hfresh Hcalm.
  pose proof (socket_run_inv agent_from_str events0 y0 (quiet_inv y0 Hquiet)) as Hinv.
  destruct (socket_run_stream_inv agent_from_str events n id [] (pending_responses (AgentSocket.response_rx s)) y s
    Hcalm) as [s' Hinv'].
  { rewrite <- Hfresh. by apply forwarding_stream_inv. }
  rewrite token_answers. destruct (stream_inv_answers _ _ _ _ _ _ Hinv') as [waiting Heq].
  simpl in Heq. rewrite Heq. unfold outbox. rewrite AgentSocketFacts.answers_app, <- !app_assoc, omap_app.
  by eexists.
Qed.

(** What the balancer gives a request is what it read for it. *)
Lemma balancer_gives_tokens (events : list BalancerEvent) (n : nat) (id : string) (rx : nat)
    (y : @BalancerAgents _ _ bchan token bsender) (Hconnected : is_Some (connections y !! n))
    (Hspawned : forall m c, connections y !! m = Some c ->
       Forall (fun message => token_answer id message = None) (spawned (session c)))
    (Hrx : receives_on id rx (generated_tokens y)) (Hempty : pending_tokens rx (generated_tokens y) = [])
    (Hevents : Forall (event_in_order balancer_from_str n id) events) :
  pending_tokens rx (generated_tokens (balancer_runs events y)) `prefix_of`
  omap (token_answer id) (balancer_reads n events y).
Proof.
  destruct Hconnected as [c Hc].
  assert (Hinv : delivery_inv n id rx (spawned (session c)) [] y) by (split; eauto).
  destruct (balancer_run_delivers balancer_from_str print_size VERSION events n id rx _ _ y Hevents Hinv)
    as (handled & waiting & Heq & Hinv').
  rewrite (deliver_pending _ _ _ _ _ _ Hinv'). simpl.
  apply (f_equal (omap (token_answer id))) in Heq. rewrite !omap_app in Heq.
  replace (omap (token_answer id) (spawned (session c))) with (@nil GeneratedTokenResult) in Heq.
  - simpl in Heq. rewrite Heq. by eexists.
  - symmetry. by apply omap_none, (Hspawned n).
Qed.

(** C1. End to end: what a client of the inference socket is sent for a request
    is what the scheduler of the agent generated for it.  Its answer is the
    tokens the scheduler sent, from the first on, in order, none missing in
    between, none repeated and none of another request, and after them at most
    one error of the balancer; and when the open socket lets go of the request,
    its answer ended, with that error or with the token that ends the
    generation.  The request is fresh when
    the agent starts to forward it and when the balancer starts to listen, the
    connections and channels between the parts lose at most the end of what
    they carry, and the handlers of the agent's messages run in their order. *)
Theorem tokens_reach_client (id json : string)
    (* the agent *)
    (before_a events_a : list SocketEvent) (y0 : @AgentSocket _ _ achan asender) (n : nat)
    (s : AgentSocket.ResponseStream)
    (* the balancer's socket, and what it read from the agent before *)
    (earlier : list ManagementMessage) (events_b : list BalancerEvent) (rx m : nat)
    (b : @BalancerAgents _ _ bchan token bsender)
    (* the forwarding loop *)
    (name_ : option string) (timeout : N) (turns : list (@Turn GeneratedTokenResult))
    (* the client *)
    (before_c events_c : list Operation) (c : InferenceSocket.Connection) (channel : nat) :
  let a := agent_run before_a y0 in
  let a' := agent_run events_a a in
  let b' := balancer_runs events_b b in
  let loop := (forward_responses_stream id name_ timeout turns).1 in
  let c' := operate_all stop_json events_c c in
  quiet y0 -> streams a !! n = Some s -> forwarding s = true -> AgentSocket.stream_request_id s = id ->
  AgentSocketFacts.answers id (outbox a) = [] -> Forall (event_calm agent_from_str id) events_a ->
  (* the management socket *)
  earlier `prefix_of` outbox a -> earlier ++ balancer_reads m events_b b `prefix_of` written a' ->
  is_Some (connections b !! m) ->
  (forall k ck, connections b !! k = Some ck ->
     Forall (fun message => token_answer id message = None) (spawned (session ck))) ->
  receives_on id rx (generated_tokens b) -> pending_tokens rx (generated_tokens b) = [] ->
  Forall (event_in_order balancer_from_str m id) events_b ->
  (* the channel of the request *)
  received loop `prefix_of` pending_tokens rx (generated_tokens b') ->
  (* the inference socket *)
  messages_for id (messages_read events_c) `prefix_of` written_messages (log loop) ->
  read_task (operate_all stop_json before_c connection_new) = Reading ->
  connection_send id json (operate_all stop_json before_c connection_new) = (c, Ok channel) ->
  Forall (leaves_alone id channel) events_c ->
  exists tokens answered dropped,
    sent_into <$> InferenceSocket.channels c' !! channel = Some (map Ok answered ++ dropped) /\
    (dropped = [] \/ dropped = [Err (ConnectionDropped id)]) /\
    relayed id name_ tokens answered /\
    tokens `prefix_of` omap generated_token
      (pending_responses (AgentSocket.response_rx s) ++ sent_in_run agent_from_str n events_a a) /\
    (read_task c' = Reading -> InferenceSocket.pending c' !! id <> Some channel ->
     (exists e, last answered = Some (OutgoingMessageError e)) \/
     (exists r, last tokens = Some r /\ is_done r = true)).
Proof.
  intros a a' b' loop c' Hquiet Hs Hforwarding <- Hfresh Hcalm Hearlier Hlink Hconnected Hspawned Hrx Hempty
    Hevents Hchannel Hsocket Hreading Hsend Halone.
  set (id := AgentSocket.stream_request_id s) in *.
  pose proof (agent_writes_tokens before_a events_a y0 n s Hquiet Hs Hforwarding Hfresh Hcalm) as Hagent.
  pose proof (balancer_gives_tokens events_b m id rx b Hconnected Hspawned Hrx Hempty Hevents) as Hbalancer.
  apply (token_answers_prefix id) in Hlink, Hearlier. rewrite omap_app in Hlink.
  rewrite (token_answers id (outbox a)), Hfresh in Hearlier. apply prefix_nil_inv in Hearlier.
  rewrite Hearlier in Hlink. simpl in Hlink.
  destruct (run_relays id name_ timeout turns) as (responses & Hresponses & Hrelayed).
  destruct (request_sent_into stop_json before_c events_c id json c channel Hreading Hsend Halone)
    as (dropped & Hdropped & Hsent & Hwhole).
  destruct (relayed_prefix id name_ responses _ (InferenceSocketFacts.answers id (messages_read events_c)).1
    Hrelayed) as (tokens & Htokens & Hanswered); [by etrans; [apply answers_messages_for|]|].
  exists tokens, (InferenceSocketFacts.answers id (messages_read events_c)).1, dropped.
  split_and!; [done|done|done| |].
  - repeat (etrans; [eassumption|]). done.
  - intros Hopen Hgone. destruct (answers_ended _ _ (Hwhole Hopen Hgone)) as (message & Hlast & Hfor).
    destruct (relayed_last id name_ tokens _ message Hanswered Hlast) as [[e ->]|(r & -> & Hr)];
      [by left; exists e|right]. exists r. split; [done|].
    unfold message_for in Hfor. simpl in Hfor. case_bool_decide; congruence.
Qed.
End EndToEnd.

(** ** A prompt answered with a token and the end *)

#[local] Instance sample_json : JsonTypes := {| JsonValue := unit |}.
#[local] Instance sample_llama : LlamaTypes := {| TokenUsage := unit; ParsedToolCall := unit |}.

Definition sample_tokens : list GeneratedTokenResult := [ContentToken "a"; Done {| usage := tt |}].

(** "register" registers, "done" ends the generation, any other text is a token. *)
Definition sample_incoming (text : string) : result ManagementMessage string :=
  if bool_decide (text = "register"%string) then
    Ok (ManagementNotificationMessage (RegisterAgent None sample_snapshot))
  else Ok (response_to "r" (ResponseGeneratedToken
             (if bool_decide (text = "done"%string) then Done {| usage := tt |} else ContentToken text))).

Definition sample_agent_events : list SocketEvent :=
  [SchedulerSends 0 (SendsToken (ContentToken "a")); Forwards 0 Receives; Writes WriteOk;
   SchedulerSends 0 (SendsToken (Done {| usage := tt |})); Forwards 0 Receives; Writes WriteOk].

Definition sample_agents : @BalancerAgents _ _ QueueChannel unit nat :=
  balancer_run sample_incoming (fun _ => "") "1.0" (registers 0) BalancerSocketFacts.sample_agents.

Definition sample_balancer_events : list (@BalancerEvent unit) :=
  [reads 0 "a"; HandlerRuns 0 0; reads 0 "done"; HandlerRuns 0 0].

Definition sample_turn (r : GeneratedTokenResult) : Turn :=
  {| shutdown_cancelled := false; agent_connection_closed := false; client_connection_closed := false;
     timer_elapsed := false; response_ready := Some (Some r); client_accepts := true;
     agent_reachable := true |}.

Definition sample_operations : list Operation :=
  map (fun r => Read (ReadText (Ok (response_message "r" None r)))) sample_tokens.

Definition sample_connection : InferenceSocket.Connection * result nat SocketError :=
  connection_send "r" "{}" connection_new.

Lemma tokens_reach_client_witness :
  exists tokens answered (dropped : list (result OutgoingMessage SocketError)),
    map Ok (map (response_message "r" None) sample_tokens) = map Ok answered ++ dropped /\
    relayed "r" None tokens answered /\ tokens `prefix_of` sample_tokens.
Proof.
  destruct (tokens_reach_client (achan := QueueChannel) (bchan := QueueChannel) sample_parse sample_incoming
    (fun _ => "") "1.0" (fun _ => Ok "stop"%string) "r" "{}"
    [Reads (WsText "prompt")] sample_agent_events sample_socket 0 sample_stream
    [] sample_balancer_events 0 0 sample_agents
    None 1000 (map sample_turn sample_tokens)
    [] sample_operations sample_connection.1 0) as (tokens & answered & dropped & Hsent & _ & Hrelayed & Hp & _).
  - by split.
  - vm_compute. reflexivity.
  - reflexivity.
  - reflexivity.
  - vm_compute. reflexivity.
  - by repeat constructor.
  - apply prefix_nil.
  - exists []. vm_compute. reflexivity.
  - vm_compute. by eexists.
  - intros k ck Hk.
    assert (Hall : connections sample_agents = {[0%nat := default ck (connections sample_agents !! 0%nat)]})
      by (vm_compute; reflexivity).
    assert (Hone := eq_trans (f_equal (lookup k) (eq_sym Hall)) Hk).
    apply lookup_singleton_Some in Hone as [_ <-]. vm_compute. constructor.
  - split_and!; [vm_compute; reflexivity| |by exists chan_new; split; vm_compute].
    intros other Hother.
    assert (Hall : senders (generated_tokens sample_agents) = {["r"%string := 0%nat]})
      by (vm_compute; reflexivity).
    assert (Hone := eq_trans (f_equal (lookup other) (eq_sym Hall)) Hother).
    by apply lookup_singleton_Some in Hone as [<- _].
  - vm_compute. reflexivity.
  - do 2 (apply Forall_cons; split; [by intros ?|]; apply Forall_cons; split; [by intros _|]).
    apply Forall_nil_2.
  - exists []. vm_compute. reflexivity.
  - exists []. vm_compute. reflexivity.
  - reflexivity.
  - reflexivity.
  - by repeat constructor.
  - exists tokens, answered, dropped. split_and!; [|exact Hrelayed|exact Hp].
    vm_compute in Hsent. injection Hsent as Hsent. exact Hsent.
Defined.
