(* ===== verification/Normalization.v ===== *)
(** * Normalization of embeddings

    [normalization/] of the agent and [embedding_normalization_method.rs], in
    binary32: the numbers are the [spec_float]s of the Standard Library with 24
    bits of precision and [emax] 128, and [f32::mul_add] is their fused
    multiply-add, which rounds the exact sum once. *)

From Stdlib Require Import Floats.SpecFloat.
From S2P Require Import Prelude.
From S2P Require Import Messages.
Local Open Scope Z_scope.

(** ** Binary32 *)

Definition f32_add : f32 -> f32 -> f32 := SFadd 24 128.
Definition f32_div : f32 -> f32 -> f32 := SFdiv 24 128.
Definition f32_sqrt : f32 -> f32 := SFsqrt 24 128.
Definition f32_zero : f32 := S754_zero false.
Definition f32_of_Z (n : Z) : f32 := binary_normalize 24 128 n 0 false.

(** The exact product of two finite numbers is [mx * my * 2 ^ (ex + ey)]. *)
Definition f32_mul_add (x y z : f32) : f32 :=
  match x, y with
  | S754_finite sx mx ex, S754_finite sy my ey =>
      let s := xorb sx sy in
      let m := (mx * my)%positive in
      let e := ex + ey in
      match z with
      | S754_nan => S754_nan
      | S754_infinity _ => z
      | S754_zero _ => binary_normalize 24 128 (cond_Zopp s (Zpos m)) e false
      | S754_finite sz mz ez =>
          let e' := Z.min e ez in
          binary_normalize 24 128
            (cond_Zopp s (Zpos (fst (shl_align m e e')))
             + cond_Zopp sz (Zpos (fst (shl_align mz ez e')))) e' false
      end
  | _, _ => SFadd 24 128 (SFmul 24 128 x y) z
  end.

Definition sum_of_squares (embedding_ : list f32) : f32 :=
  fold_left (fun acc val => f32_mul_add val val acc) embedding_ f32_zero.

(** ** The norms *)

Definition l2 (embedding_ : list f32) : list f32 :=
  let magnitude := f32_sqrt (sum_of_squares embedding_) in
  if SFeqb magnitude f32_zero then replicate (length embedding_) f32_zero
  else map (fun val => f32_div val magnitude) embedding_.

Definition u16_max : Z := 65535.

Definition rms_norm (embedding_ : list f32) (eps : f32) : result (list f32) string :=
  match embedding_ with
  | [] => Ok []
  | _ :: _ =>
      if Z.of_nat (length embedding_) <=? u16_max then
        let mean_square :=
          f32_div (sum_of_squares embedding_) (f32_of_Z (Z.of_nat (length embedding_))) in
        let rms := f32_sqrt (f32_add mean_square eps) in
        if SFeqb rms f32_zero then Ok (replicate (length embedding_) f32_zero)
        else Ok (map (fun val => f32_div val rms) embedding_)
      else Err "embedding length exceeds the supported maximum for normalization"%string
  end.

(** ** Methods *)

Definition can_transform_to (from to : EmbeddingNormalizationMethod) : bool :=
  match from with NormalizeNone => true | NormalizeL2 | NormalizeRmsNorm _ => false end.

(** Their discriminants differ. *)
Definition needs_transformation_to (from to : EmbeddingNormalizationMethod) : bool :=
  match from, to with
  | NormalizeL2, NormalizeL2 | NormalizeNone, NormalizeNone
  | NormalizeRmsNorm _, NormalizeRmsNorm _ => false
  | _, _ => true
  end.

Definition normalize_embedding (e : Embedding) (method_ : EmbeddingNormalizationMethod)
    : result Embedding string :=
  if negb (can_transform_to (normalization_method e) method_) then
    Err "Cannot transform between normalization methods"%string
  else if negb (needs_transformation_to (normalization_method e) method_) then Ok e
  else
    let? normalized :=
      match method_ with
      | NormalizeNone => Ok (embedding e)
      | NormalizeL2 => Ok (l2 (embedding e))
      | NormalizeRmsNorm epsilon => rms_norm (embedding e) epsilon
      end in
    Ok {| embedding := normalized; normalization_method := method_;
          pooling_type := pooling_type e; source_document_id := source_document_id e |}.

(** ** Facts: no NaN *)

Definition not_nan (x : f32) : Prop := x <> S754_nan.
Definition finite (x : f32) : Prop :=
  match x with S754_zero _ | S754_finite _ _ _ => True | _ => False end.

(** Not negative, a zero of either sign included. *)
Definition nonnegative (x : f32) : Prop :=
  match x with
  | S754_zero _ | S754_infinity false | S754_finite false _ _ => True
  | _ => False
  end.

Lemma nonnegative_not_nan (x : f32) : nonnegative x -> not_nan x.
Proof. by destruct x as [|[|]| |[|]]. Qed.

Lemma iter_pos_ind {A : Type} (P : A -> Prop) (f : A -> A) (n : positive) (x : A)
    (Hf : forall y, P y -> P (f y)) (Hx : P x) : P (SpecFloat.iter_pos f n x).
Proof. revert x Hx. induction n as [n IH|n IH|]; intros x Hx; simpl; auto. Qed.

Lemma shr_fexp_nonneg (m e : Z) (l : location) (Hm : 0 <= m) :
  0 <= shr_m (fst (shr_fexp 24 128 m e l)).
Proof.
  unfold shr_fexp. set (n := _ - e).
  assert (Hstart : 0 <= shr_m (shr_record_of_loc m l)) by by destruct l as [|[]].
  unfold shr. destruct n as [|p|p]; [done| |done]. simpl.
  apply (iter_pos_ind (fun mrs : shr_record => 0 <= shr_m mrs)); [|done].
  intros [k r s] Hk. simpl in *. destruct k as [|[k|k|]|k]; simpl; lia.
Qed.

(** Rounding a mantissa that is not negative never fails. *)
Lemma round_aux_sign (sx : bool) (m e : Z) (l : location) (Hm : 0 <= m) :
  match binary_round_aux 24 128 sx m e l with
  | S754_nan => False
  | S754_zero s | S754_infinity s | S754_finite s _ _ => s = sx
  end.
Proof.
  unfold binary_round_aux.
  pose proof (shr_fexp_nonneg m e l Hm) as H1. destruct (shr_fexp 24 128 m e l) as [r1 e1].
  simpl in H1.
  assert (Hround : 0 <= round_nearest_even (shr_m r1) (loc_of_shr_record r1)).
  { unfold round_nearest_even. repeat case_match; lia. }
  pose proof (shr_fexp_nonneg _ e1 loc_Exact Hround) as H2.
  destruct (shr_fexp 24 128 _ e1 loc_Exact) as [r2 e2]. simpl in H2.
  destruct (shr_m r2); [done| |lia]. by destruct (e2 <=? 128 - 24).
Qed.

Lemma normalize_nonnegative (m e : Z) (Hm : 0 <= m) :
  nonnegative (binary_normalize 24 128 m e false).
Proof.
  destruct m as [|p|p]; [done| |lia]. simpl. unfold binary_round.
  destruct (shl_align p e _) as [mz ez].
  pose proof (round_aux_sign false (Zpos mz) ez loc_Exact ltac:(lia)) as H.
  by destruct (binary_round_aux _ _ _ _ _ _) as [|[|]| |[|]].
Qed.

Lemma sum_step_nonnegative (val acc : f32) (Hval : finite val) (Hacc : nonnegative acc) :
  nonnegative (f32_mul_add val val acc).
Proof.
  destruct val as [s|s| |s m e]; try done.
  - destruct s, acc as [[|]|[|]| |[|]]; done.
  - simpl. rewrite xorb_nilpotent. destruct acc as [sa|[|]| |[|] ma ea]; try done; simpl cond_Zopp.
    + apply normalize_nonnegative. lia.
    + apply normalize_nonnegative. lia.
Qed.

Lemma sum_of_squares_nonnegative (vals : list f32) (Hvals : Forall finite vals) :
  nonnegative (sum_of_squares vals).
Proof.
  unfold sum_of_squares. assert (Hacc : nonnegative f32_zero) by done. revert Hacc.
  generalize f32_zero. induction Hvals as [|val vals Hval _ IH]; intros acc Hacc; [done|].
  apply IH. by apply sum_step_nonnegative.
Qed.

Lemma sqrt_nonnegative (x : f32) (Hx : nonnegative x) : nonnegative (f32_sqrt x).
Proof.
  destruct x as [s|[|]| |[|] m e]; try done. unfold f32_sqrt, SFsqrt.
  destruct (SFsqrt_core_binary 24 128 (Zpos m) e) as [[mz ez] lz] eqn:Hcore.
  assert (Hmz : 0 <= mz).
  { unfold SFsqrt_core_binary in Hcore. set (m' := match _ with 0 => _ | _ => _ end) in Hcore.
    pose proof (Z.sqrtrem_sqrt m') as Hq. destruct (Z.sqrtrem m') as [q r]. simplify_eq/=.
    apply Z.sqrt_nonneg. }
  pose proof (round_aux_sign false mz ez lz Hmz) as H.
  by destruct (binary_round_aux _ _ _ _ _ _) as [|[|]| |[|]].
Qed.

Lemma div_mantissa_nonneg (m1 m2 : positive) (e1 e2 : Z) :
  0 <= (SFdiv_core_binary 24 128 (Zpos m1) e1 (Zpos m2) e2).1.1.
Proof.
  unfold SFdiv_core_binary. set (m' := match _ with 0 => _ | _ => _ end).
  assert (Hm' : 0 <= m').
  { unfold m'. case_match; [lia| |lia]. apply Z.shiftl_nonneg. lia. }
  pose proof (Z.div_pos m' (Zpos m2) Hm' ltac:(lia)) as Hq. unfold Z.div in Hq.
  by destruct (Z.div_eucl m' (Zpos m2)) as [q r].
Qed.

(** Dividing a finite number by a positive one gives a number. *)
Lemma div_not_nan (val norm : f32) (Hval : finite val) (Hnorm : nonnegative norm)
    (Hnonzero : SFeqb norm f32_zero = false) : not_nan (f32_div val norm).
Proof.
  destruct norm as [sn|[|]| |[|] mn en]; try done; destruct val as [s|s| |s m e]; try done.
  unfold f32_div, SFdiv. pose proof (div_mantissa_nonneg m mn e en) as Hq.
  destruct (SFdiv_core_binary _ _ _ _ _ _) as [[mz ez] lz]. simpl in Hq.
  pose proof (round_aux_sign (xorb s false) mz ez lz Hq) as H.
  by destruct (binary_round_aux _ _ _ _ _ _).
Qed.

Lemma div_nonnegative (x norm : f32) (Hx : nonnegative x) (m : positive) (e : Z)
    (Hnorm : norm = S754_finite false m e) : nonnegative (f32_div x norm).
Proof.
  subst norm. destruct x as [s|[|]| |[|] mx ex]; try done.
  unfold f32_div, SFdiv. pose proof (div_mantissa_nonneg mx m ex e) as Hq.
  destruct (SFdiv_core_binary _ _ _ _ _ _) as [[mz ez] lz]. simpl in Hq.
  pose proof (round_aux_sign false mz ez lz Hq) as H. simpl.
  by destruct (binary_round_aux _ _ _ _ _ _) as [|[|]| |[|]].
Qed.

Lemma add_nonnegative (x y : f32) (Hx : nonnegative x) (Hy : nonnegative y) :
  nonnegative (f32_add x y).
Proof.
  unfold f32_add.
  destruct x as [[|]|[|]| |[|] mx ex], y as [[|]|[|]| |[|] my ey]; try done.
  all: apply normalize_nonnegative; simpl; lia.
Qed.

Lemma digits_bound (p : positive) (k : Z) (Hp : Zpos p < 2 ^ k) (Hk : 0 <= k) :
  Zpos (digits2_pos p) <= k.
Proof.
  revert k Hp Hk. induction p as [p IH|p IH|]; intros k Hp Hk; simpl.
  1, 2: assert (Hk1 : 0 < k) by (destruct (decide (k = 0)) as [->|]; lia);
    replace k with (Z.succ (k - 1)) in Hp by lia; rewrite Z.pow_succ_r in Hp by lia;
    specialize (IH (k - 1) ltac:(lia) ltac:(lia)); lia.
  destruct (decide (k = 0)) as [->|]; lia.
Qed.

Lemma digits_shifted (p d : positive) :
  digits2_pos (Pos.iter xO p d) = (digits2_pos p + d)%positive.
Proof.
  induction d as [|d IH] using Pos.peano_ind; simpl; [lia|].
  rewrite Pos.iter_succ. simpl. rewrite IH. lia.
Qed.

(** The length of an embedding is a positive number: it has fewer than 24
    digits, so its rounding is exact. *)
Lemma of_length_positive (n : Z) (Hn : 0 < n <= u16_max) :
  exists m e, f32_of_Z n = S754_finite false m e.
Proof.
  unfold u16_max in Hn. destruct n as [|p|p]; [lia| |lia].
  pose proof (digits_bound p 16 ltac:(simpl; lia) ltac:(lia)) as Hd.
  unfold f32_of_Z, binary_normalize, binary_round.
  assert (Hfexp : fexp 24 128 (Zpos (digits2_pos p) + 0) = Zpos (digits2_pos p) - 24).
  { unfold fexp, SpecFloat.emin. lia. }
  rewrite Hfexp. unfold shl_align.
  replace (Zpos (digits2_pos p) - 24 - 0) with (Zneg (24 - digits2_pos p)) by lia.
  set (mz := Pos.iter xO p (24 - digits2_pos p)).
  assert (Hmz : Zpos (digits2_pos mz) = 24).
  { unfold mz. rewrite digits_shifted. lia. }
  assert (Hshr : forall l, shr_fexp 24 128 (Zpos mz) (Zpos (digits2_pos p) - 24) l
    = (shr_record_of_loc (Zpos mz) l, Zpos (digits2_pos p) - 24)).
  { intros l. unfold shr_fexp. simpl Zdigits2. rewrite Hmz. unfold fexp, SpecFloat.emin.
    replace (_ - (Zpos (digits2_pos p) - 24)) with 0 by lia. done. }
  unfold binary_round_aux. rewrite Hshr. simpl. rewrite Hshr. simpl.
  rewrite (proj2 (Z.leb_le _ _)) by lia. by eexists _, _.
Qed.

Lemma map_div_not_nan (vals : list f32) (norm : f32) (Hvals : Forall finite vals)
    (Hnorm : nonnegative norm) (Hnonzero : SFeqb norm f32_zero = false) :
  Forall not_nan (map (fun val => f32_div val norm) vals).
Proof.
  apply Forall_fmap. eapply Forall_impl; [exact Hvals|]. intros val Hval. by apply div_not_nan.
Qed.

Lemma l2_not_nan (vals : list f32) (Hvals : Forall finite vals) :
  length (l2 vals) = length vals /\ Forall not_nan (l2 vals).
Proof.
  unfold l2. pose proof (sqrt_nonnegative _ (sum_of_squares_nonnegative vals Hvals)) as Hnorm.
  destruct (SFeqb _ f32_zero) eqn:Hzero.
  - rewrite length_replicate. split; [done|]. by apply Forall_replicate.
  - rewrite length_map. split; [done|]. by apply map_div_not_nan.
Qed.

Lemma rms_norm_not_nan (vals : list f32) (eps : f32) (Hvals : Forall finite vals)
    (Heps : nonnegative eps) :
  match rms_norm vals eps with
  | Ok normalized => length normalized = length vals /\ Forall not_nan normalized
  | Err _ => u16_max < Z.of_nat (length vals)
  end.
Proof.
  unfold rms_norm. destruct vals as [|val vals]; [by split|].
  remember (val :: vals) as all eqn:Hall.
  destruct (Z.leb_spec (Z.of_nat (length all)) u16_max) as [Hlen|Hlen]; [|done].
  destruct (of_length_positive (Z.of_nat (length all))) as (m & e & Hm).
  { split; [rewrite Hall; simpl; lia|done]. }
  pose proof (div_nonnegative _ _ (sum_of_squares_nonnegative all Hvals) m e Hm) as Hmean.
  pose proof (sqrt_nonnegative _ (add_nonnegative _ _ Hmean Heps)) as Hrms.
  destruct (SFeqb _ f32_zero) eqn:Hzero.
  - rewrite length_replicate. split; [done|]. by apply Forall_replicate.
  - rewrite length_map. split; [done|]. by apply map_div_not_nan.
Qed.

(** Normalizing gives numbers: an embedding of finite numbers that is not
    normalized yet is normalized to one of the same length and document, with
    the method asked for and no NaN in it, also where its squares overflow;
    the only error is an embedding too long for the root mean square. *)
Theorem normalized_embedding (e : Embedding) (method_ : EmbeddingNormalizationMethod)
    (Hraw : normalization_method e = NormalizeNone) (Hfinite : Forall finite (embedding e))
    (Heps : forall epsilon, method_ = NormalizeRmsNorm epsilon -> nonnegative epsilon) :
  match normalize_embedding e method_ with
  | Ok normalized =>
      length (embedding normalized) = length (embedding e) /\
      Forall not_nan (embedding normalized) /\
      normalization_method normalized = method_ /\
      pooling_type normalized = pooling_type e /\
      source_document_id normalized = source_document_id e
  | Err _ => u16_max < Z.of_nat (length (embedding e)) /\ exists epsilon, method_ = NormalizeRmsNorm epsilon
  end.
Proof.
  unfold normalize_embedding. rewrite Hraw. simpl. destruct method_ as [| |epsilon]; simpl.
  - destruct (l2_not_nan _ Hfinite). by split_and!.
  - split_and!; [done| |done|done|done]. eapply Forall_impl; [exact Hfinite|]. by intros [].
  - pose proof (rms_norm_not_nan (embedding e) epsilon Hfinite (Heps epsilon eq_refl)) as Hrms.
    destruct (rms_norm (embedding e) epsilon); simpl; [destruct Hrms; by split_and!|].
    split; [done|by exists epsilon].
Qed.

(** ** What the norms do at the edges *)

Definition sample_embedding (vals : list f32) : Embedding :=
  {| embedding := vals; normalization_method := NormalizeNone; pooling_type := PoolingMean;
     source_document_id := "d" |}.

(** 2 ^ -80, whose square is below every number of binary32. *)
Definition tiny : f32 := S754_finite false 8388608 (-103).

(** A tiny embedding is taken for the zero vector. *)
Example tiny_embedding_vanishes : l2 [tiny; tiny] = [f32_zero; f32_zero].
Proof. vm_compute. reflexivity. Qed.

(** A negative epsilon, which nothing rejects, makes every entry a NaN. *)
Example negative_epsilon_nan :
  rms_norm [f32_of_Z 1] (f32_of_Z (-2)) = Ok [S754_nan].
Proof. vm_compute. reflexivity. Qed.

Lemma normalized_embedding_witness :
  length (l2 [f32_of_Z 3; f32_of_Z 4]) = 2%nat /\ Forall not_nan (l2 [f32_of_Z 3; f32_of_Z 4]).
Proof.
  pose proof (normalized_embedding (sample_embedding [f32_of_Z 3; f32_of_Z 4]) NormalizeL2 eq_refl
    ltac:(repeat constructor) ltac:(done)) as H.
  destruct H as (Hlength & Hnumbers & _). split; [exact Hlength|exact Hnumbers].
Defined.
