(* ===== verification/EmbeddingProcessor.v ===== *)
(** * Processing a batch of embeddings

    [continuous_batch_embedding_processor.rs] of the agent, with
    [embedding_input_tokenized.rs] and [generate_embedding_batch_request.rs]:
    the documents of a request are tokenized, those that do not fit in a batch
    are answered with a notice, the others are decoded in the planned batches
    and their embeddings sent in order, then the end of the stream.

    The class [EmbeddingBackend] has the operations of llama.cpp that only
    this path uses.  Its observation [batch_sequence] is what a batch holds for
    a sequence, and [embeds] relates tokens to the embeddings the model may
    give for them; that a decoded sequence gives an embedding of its own tokens
    is what the program relies on.

    A request names what its client does meanwhile: before which batches a
    stop signal is waiting, and after how many results the receiver is gone. *)

From S2P Require Import Prelude.
From S2P Require Import Tokio.
From S2P Require Import Messages.
From S2P Require Import AtomicValue.
From S2P Require Import Requests.
From S2P Require Import SlotStatus.
From S2P Require Import ToolCalls.
From S2P Require Import Llama.
From S2P Require Import EmbeddingBatches.
From S2P Require Import Normalization.
Local Open Scope Z_scope.

Class EmbeddingBackend `{LlamaBackend} : Type := {
  batch_add_sequence : LlamaBatch -> list LlamaToken -> Z -> bool -> result LlamaBatch string;
  batch_clear : LlamaBatch -> LlamaBatch;
  clear_kv_cache : LlamaContext -> LlamaContext;
  embeddings_seq_ith : LlamaContext -> Z -> result (list f32) string;
  batch_sequence : LlamaBatch -> Z -> list LlamaToken;
  embeds : list LlamaToken -> list f32 -> Prop;
  (** a new or cleared batch has no sequences *)
  batch_new_sequence n m b k : batch_new n m = Ok b -> batch_sequence b k = [];
  batch_clear_ok b k :
    batch_entries (batch_clear b) = [] /\ batch_capacity (batch_clear b) = batch_capacity b /\
    batch_sequence (batch_clear b) k = [];
  (** adding a sequence appends its tokens, and only fails for lack of room *)
  batch_add_sequence_ok b tokens_ id logits b' :
    batch_add_sequence b tokens_ id logits = Ok b' ->
    (length (batch_entries b') = length (batch_entries b) + length tokens_)%nat /\
    batch_capacity b' = batch_capacity b /\
    (forall k, batch_sequence b' k
               = if decide (k = id) then batch_sequence b k ++ tokens_ else batch_sequence b k);
  batch_add_sequence_room b tokens_ id logits :
    (length (batch_entries b) + length tokens_ <= batch_capacity b)%nat ->
    is_ok (batch_add_sequence b tokens_ id logits) = true;
  (** with nothing in the cache, the embedding of a sequence is one of the
      tokens the batch has for it *)
  embeddings_seq_ith_ok c b c' k v :
    decode (clear_kv_cache c) b = (c', Ok tt) -> embeddings_seq_ith c' k = Ok v ->
    embeds (batch_sequence b k) v;
}.

(** Why the processing fails, where the source has an [anyhow::Error]. *)
Inductive ProcessingError : Type :=
| EmbeddingsNotEnabled
| TokenizationFailed (message : string)
| TokenCountTooLarge
| ReceiverGone
| BatchRefused (message : string)
| SequenceIndexTooLarge
| BatchDecodeFailed (error : DecodeError)
| NoEmbeddingOfSequence (message : string)
| NormalizationFailed (message : string).

(** The fields of [ContinuousBatchSchedulerContext] that are read. *)
Record EmbeddingContext : Type := {
  embedding_inference_parameters : InferenceParameters;
  desired_slots_total : Z;
}.

Record GenerateEmbeddingBatchRequest : Type := {
  stopped_before : nat -> bool;
  receiver_drops_after : option nat;
  embedding_params : GenerateEmbeddingBatchParams;
}.

Section EmbeddingProcessor.
Context `{EmbeddingBackend}.
Context {sender receiver : Type} `{!WatchChannel sender receiver}.

Record EmbeddingInputTokenized : Type := { tokenized_id : string; tokens : list LlamaToken }.

(** The model's context, what the client was sent, and the status that counts
    the slot of the request. *)
Record Processing : Type := {
  processing_context : LlamaContext;
  sent : list EmbeddingResult;
  processing_status : SlotAggregatedStatus sender;
}.

Definition put_sent (l : list EmbeddingResult) (y : Processing) : Processing :=
  {| processing_context := processing_context y; sent := l;
     processing_status := processing_status y |}.

Definition put_processing_context (c : LlamaContext) (y : Processing) : Processing :=
  {| processing_context := c; sent := sent y; processing_status := processing_status y |}.

Section Request.
Variable c : EmbeddingContext.
Variable request : GenerateEmbeddingBatchRequest.

Definition context_n_batch : nat := Z.to_nat (n_batch (embedding_inference_parameters c)).

(** [generated_embedding_tx.send] *)
Definition embedding_send (event : EmbeddingResult) (y : Processing)
    : Processing * result unit ProcessingError :=
  match receiver_drops_after request with
  | Some k =>
      if (k <=? length (sent y))%nat then (y, Err ReceiverGone)
      else (put_sent (sent y ++ [event]) y, Ok tt)
  | None => (put_sent (sent y ++ [event]) y, Ok tt)
  end.

Fixpoint tokenize_inputs (documents : list EmbeddingInputDocument)
    : result (list EmbeddingInputTokenized) ProcessingError :=
  match documents with
  | [] => Ok []
  | input :: rest =>
      match str_to_token (document_content input) with
      | Ok tokens_ =>
          let? inputs := tokenize_inputs rest in
          Ok ({| tokenized_id := document_id input; tokens := tokens_ |} :: inputs)
      | Err err => Err (TokenizationFailed err)
      end
  end.

Definition exceeds_batch (input : EmbeddingInputTokenized) : bool :=
  (context_n_batch <? length (tokens input))%nat.

Definition oversized_details (input : EmbeddingInputTokenized)
    : result OversizedEmbeddingDocumentDetails ProcessingError :=
  match try_u32 (Z.of_nat (length (tokens input))), try_u32 (Z.of_nat context_n_batch) with
  | Some count, Some n =>
      Ok {| document_tokens := count; oversized_document_n_batch := n;
            oversized_document_id := tokenized_id input |}
  | None, _ | _, None => Err TokenCountTooLarge
  end.

(** The loop that keeps the documents that fit. *)
Fixpoint skip_oversized (inputs : list EmbeddingInputTokenized) (y : Processing)
    : Processing * result (list EmbeddingInputTokenized) ProcessingError :=
  match inputs with
  | [] => (y, Ok [])
  | input :: rest =>
      if exceeds_batch input then
        match oversized_details input with
        | Err e => (y, Err e)
        | Ok details =>
            match embedding_send (DocumentExceedsBatchSize details) y with
            | (y, Err e) => (y, Err e)
            | (y, Ok _) => skip_oversized rest y
            end
        end
      else
        let '(y, fitting) := skip_oversized rest y in
        (y, let? kept := fitting in Ok (input :: kept))
  end.

Fixpoint add_sequences (b : LlamaBatch) (inputs : list EmbeddingInputTokenized)
    (sequence_index : nat) : result LlamaBatch ProcessingError :=
  match inputs with
  | [] => Ok b
  | input :: rest =>
      match try_i32 (Z.of_nat sequence_index) with
      | None => Err SequenceIndexTooLarge
      | Some id =>
          match batch_add_sequence b (tokens input) id true with
          | Err e => Err (BatchRefused e)
          | Ok b => add_sequences b rest (S sequence_index)
          end
      end
  end.

Definition raw_embedding (input : EmbeddingInputTokenized) (v : list f32) : Embedding :=
  {| embedding := v;
     normalization_method := NormalizeNone;
     pooling_type := inference_pooling_type (embedding_inference_parameters c);
     source_document_id := tokenized_id input |}.

Definition request_normalization : EmbeddingNormalizationMethod :=
  batch_normalization_method (embedding_params request).

(** The loop of [embedding_batch_decode]. *)
Fixpoint emit_embeddings (inputs : list EmbeddingInputTokenized) (index : nat) (y : Processing)
    : Processing * result unit ProcessingError :=
  match inputs with
  | [] => (y, Ok tt)
  | input :: rest =>
      match try_i32 (Z.of_nat index) with
      | None => (y, Err SequenceIndexTooLarge)
      | Some id =>
          match embeddings_seq_ith (processing_context y) id with
          | Err e => (y, Err (NoEmbeddingOfSequence e))
          | Ok v =>
              match normalize_embedding (raw_embedding input v) request_normalization with
              | Err e => (y, Err (NormalizationFailed e))
              | Ok normalized =>
                  match embedding_send (EmbeddingProduced normalized) y with
                  | (y, Err e) => (y, Err e)
                  | (y, Ok _) => emit_embeddings rest (S index) y
                  end
              end
          end
      end
  end.

Definition embedding_batch_decode (b : LlamaBatch)
    (current_batch_embeddings : list EmbeddingInputTokenized) (y : Processing)
    : Processing * result LlamaBatch ProcessingError :=
  match decode (clear_kv_cache (processing_context y)) b with
  | (ctx, Err e) => (put_processing_context ctx y, Err (BatchDecodeFailed e))
  | (ctx, Ok _) =>
      match emit_embeddings current_batch_embeddings 0 (put_processing_context ctx y) with
      | (y, Err e) => (y, Err e)
      | (y, Ok _) => (y, Ok (batch_clear b))
      end
  end.

(** [tokens_lines_list_within_batch[planned_batch]] *)
Definition planned_slice (inputs : list EmbeddingInputTokenized) (planned : Range)
    : list EmbeddingInputTokenized :=
  take (snd planned - fst planned) (drop (fst planned) inputs).

(** The loop over the planned batches; it returns [embeddings_emitted]. *)
Fixpoint process_planned (inputs : list EmbeddingInputTokenized) (planned : list Range)
    (index emitted : nat) (b : LlamaBatch) (y : Processing)
    : Processing * result nat ProcessingError :=
  match planned with
  | [] => (y, Ok emitted)
  | planned_batch :: rest =>
      if stopped_before request index then (y, Ok emitted)
      else
        let batch_inputs := planned_slice inputs planned_batch in
        match add_sequences b batch_inputs 0 with
        | Err e => (y, Err e)
        | Ok b =>
            match embedding_batch_decode b batch_inputs y with
            | (y, Err e) => (y, Err e)
            | (y, Ok b) =>
                process_planned inputs rest (S index) (emitted + length batch_inputs) b y
            end
        end
  end.

Definition plan_inputs (inputs : list EmbeddingInputTokenized) : list Range :=
  plan_embedding_batches (map (fun input => length (tokens input)) inputs) context_n_batch
    (desired_slots_total c).

(** From the documents that fit on. *)
Definition embed_fitting (inputs : list EmbeddingInputTokenized) (y : Processing)
    : Processing * result unit ProcessingError :=
  match batch_new context_n_batch (desired_slots_total c) with
  | Err e => (y, Err (BatchRefused e))
  | Ok b =>
      match process_planned inputs (plan_inputs inputs) 0 0 b y with
      | (y, Err e) => (y, Err e)
      | (y, Ok emitted) =>
          embedding_send (if (emitted =? 0)%nat then NoEmbeddingsProduced else EmbeddingDone) y
      end
  end.

Definition embed_documents (y : Processing) : Processing * result unit ProcessingError :=
  if negb (enable_embeddings (embedding_inference_parameters c)) then
    match embedding_send EmbeddingsDisabled y with
    | (y, Err e) => (y, Err e)
    | (y, Ok _) => (y, Err EmbeddingsNotEnabled)
    end
  else
    match tokenize_inputs (input_batch (embedding_params request)) with
    | Err e => (y, Err e)
    | Ok inputs =>
        match skip_oversized inputs y with
        | (y, Err e) => (y, Err e)
        | (y, Ok fitting) => embed_fitting fitting y
        end
    end.

(** Every way out drops the slot guard. *)
Definition process_embedding_batch (y : Processing) : Processing * result unit ProcessingError :=
  let '(y, outcome) := embed_documents y in
  ({| processing_context := processing_context y; sent := sent y;
      processing_status := slot_guard_drop (processing_status y) |}, outcome).

End Request.
End EmbeddingProcessor.

(** ** A concrete backend

    The embedding of some tokens is their sum. *)

Definition plain_token (t : SampledToken Z) : Z :=
  match t with
  | SampledContent t | SampledReasoning t | SampledToolCall t | SampledUndeterminable t => t
  end.

Definition plain_sequence (l : list (BatchEntry Z)) (k : Z) : list Z :=
  map (fun e => plain_token (entry_token e)) (List.filter (fun e => entry_sequence e =? k) l).

Definition plain_embedding_of (tokens_ : list Z) : list f32 :=
  [f32_of_Z (foldr Z.add 0 tokens_)].

Definition plain_entries_of (tokens_ : list Z) (id : Z) (logits : bool) : list (BatchEntry Z) :=
  imap (fun i t => {| entry_token := SampledContent t; entry_position := Z.of_nat i;
                      entry_sequence := id; entry_logits := logits |}) tokens_.

Lemma plain_sequence_entries (tokens_ : list Z) (id k : Z) (logits : bool) :
  plain_sequence (plain_entries_of tokens_ id logits) k = if decide (k = id) then tokens_ else [].
Proof.
  unfold plain_entries_of. generalize 0%nat. revert k.
  assert (Hgen : forall k (f : nat -> nat), plain_sequence
    (imap (fun i t => {| entry_token := SampledContent t; entry_position := Z.of_nat (f i);
                         entry_sequence := id; entry_logits := logits |}) tokens_) k
    = if decide (k = id) then tokens_ else []).
  { intros k. unfold plain_sequence. induction tokens_ as [|t tokens_ IH]; intros f; simpl.
    - by case_decide.
    - unfold compose. rewrite (Z.eqb_sym id k). specialize (IH (fun i => f (S i))).
      case_decide as Hk.
      + subst k. rewrite Z.eqb_refl. simpl. f_equal. exact IH.
      + apply Z.eqb_neq in Hk. rewrite Hk. exact IH. }
  intros k _. apply (Hgen k (fun i => i)).
Qed.

#[local] Obligation Tactic := idtac.

#[export] Program Instance plain_embeddings : EmbeddingBackend := {
  batch_add_sequence b tokens_ id logits :=
    if (length (plain_entries b) + length tokens_ <=? plain_capacity b)%nat
    then Ok {| plain_entries := plain_entries b ++ plain_entries_of tokens_ id logits;
               plain_capacity := plain_capacity b |}
    else Err "insufficient space"%string;
  batch_clear b := {| plain_entries := []; plain_capacity := plain_capacity b |};
  clear_kv_cache ctx := ctx;
  embeddings_seq_ith ctx k := Ok (plain_embedding_of (plain_sequence (plain_last ctx) k));
  batch_sequence b := plain_sequence (plain_entries b);
  embeds tokens_ v := v = plain_embedding_of tokens_;
}.
Next Obligation. intros n m b k [= <-]. done. Qed.
Next Obligation. done. Qed.
Next Obligation.
  intros b tokens_ id logits b'. simpl. destruct (_ <=? _)%nat; [|done]. intros [= <-]. simpl.
  split_and!; [unfold plain_entries_of; by rewrite length_app, length_imap|done|].
  intros k. unfold plain_sequence at 1. rewrite List.filter_app, map_app.
  change (map _ (List.filter _ (plain_entries_of _ _ _)))
    with (plain_sequence (plain_entries_of tokens_ id logits) k).
  rewrite plain_sequence_entries. by case_decide; [|rewrite app_nil_r].
Qed.
Next Obligation. intros b tokens_ id logits Hroom. simpl in *. by rewrite (proj2 (Nat.leb_le _ _) Hroom). Qed.
Next Obligation. intros c b c' k v [= <-] [= <-]. done. Qed.
