(* ===== verification/EmbeddingProcessorFacts.v ===== *)
(** * What a batch of embeddings is answered with

    The results of a request are the notices of its oversized documents, then
    the embeddings of a prefix of the others in order, each of its own
    document's tokens, then the end; a failure ends the results without an end
    of the stream; and when llama.cpp does what it is asked, nothing fails. *)

From S2P Require Import Prelude.
From S2P Require Import Tokio.
From S2P Require Import Messages.
From S2P Require Import AtomicValue.
From S2P Require Import Requests.
From S2P Require Import SlotStatus.
From S2P Require Import ToolCalls.
From S2P Require Import Llama.
From S2P Require Import EmbeddingBatches.
From S2P Require Import Normalization.
From S2P Require Import EmbeddingProcessor.
Local Open Scope Z_scope.

Section EmbeddingProcessorFacts.
Context `{EmbeddingBackend}.
Context {sender receiver : Type} `{!WatchChannel sender receiver}.

Notation Processing := (Processing (sender := sender)).

Section Request.
Variable c : EmbeddingContext.
Variable request : GenerateEmbeddingBatchRequest.

Definition fitting_inputs (inputs : list EmbeddingInputTokenized) : list EmbeddingInputTokenized :=
  List.filter (fun input => negb (exceeds_batch c input)) inputs.

Definition oversized_inputs (inputs : list EmbeddingInputTokenized) : list EmbeddingInputTokenized :=
  List.filter (exceeds_batch c) inputs.

(** The embedding of a document: one the model gives for its tokens,
    normalized as the request asks. *)
Definition produced_for (input : EmbeddingInputTokenized) (produced : Embedding) : Prop :=
  exists v, embeds (tokens input) v /\
            normalize_embedding (raw_embedding c input v) (request_normalization request) = Ok produced.

(** The first documents have these embeddings. *)
Definition produced_for_first (inputs : list EmbeddingInputTokenized) (es : list Embedding) : Prop :=
  Forall2 produced_for (take (length es) inputs) es.

Lemma produced_for_first_nil (inputs : list EmbeddingInputTokenized) : produced_for_first inputs [].
Proof. unfold produced_for_first. simpl. constructor. Qed.

Lemma produced_for_first_app (first rest : list EmbeddingInputTokenized) (es es' : list Embedding) :
  length es = length first -> produced_for_first first es -> produced_for_first rest es' ->
  produced_for_first (first ++ rest) (es ++ es').
Proof.
  intros Hlen Hfirst Hrest. unfold produced_for_first in *. rewrite length_app, Hlen in *.
  rewrite take_app_add. rewrite firstn_all in Hfirst. by apply Forall2_app.
Qed.

Lemma produced_for_first_more (first rest : list EmbeddingInputTokenized) (es : list Embedding) :
  (length es <= length first)%nat -> produced_for_first first es ->
  produced_for_first (first ++ rest) es.
Proof. intros Hlen Hp. unfold produced_for_first in *. by rewrite take_app_le. Qed.

(** ** Sending *)

Lemma embedding_send_spec (event : EmbeddingResult) (y y' : Processing)
    (r : result unit ProcessingError) :
  embedding_send request event y = (y', r) ->
  match r with
  | Ok _ => y' = put_sent (sent y ++ [event]) y
  | Err _ => y' = y
  end.
Proof. unfold embedding_send. intros Hsend. by repeat case_match; simplify_eq. Qed.

Lemma embedding_send_open (event : EmbeddingResult) (y : Processing) :
  receiver_drops_after request = None ->
  embedding_send request event y = (put_sent (sent y ++ [event]) y, Ok tt).
Proof. unfold embedding_send. by intros ->. Qed.

(** The notices of the first oversized documents. *)
Definition notices_of (inputs : list EmbeddingInputTokenized)
    (notices : list OversizedEmbeddingDocumentDetails) : Prop :=
  Forall2 (fun input details => oversized_details c input = Ok details)
    (take (length notices) (oversized_inputs inputs)) notices.

Lemma notices_of_nil (inputs : list EmbeddingInputTokenized) : notices_of inputs [].
Proof. unfold notices_of. simpl. constructor. Qed.

Hint Resolve produced_for_first_nil notices_of_nil : core.

Lemma skip_oversized_spec (inputs : list EmbeddingInputTokenized) (y y' : Processing)
    (r : result (list EmbeddingInputTokenized) ProcessingError) :
  skip_oversized c request inputs y = (y', r) ->
  exists notices,
    sent y' = sent y ++ map DocumentExceedsBatchSize notices /\ notices_of inputs notices /\
    match r with
    | Ok fitting => fitting = fitting_inputs inputs /\ length notices = length (oversized_inputs inputs)
    | Err _ => True
    end.
Proof.
  revert y y' r. induction inputs as [|input inputs IH]; intros y y' r Hskip; simpl in Hskip.
  { simplify_eq. exists []. rewrite app_nil_r. by split_and!. }
  destruct (exceeds_batch c input) eqn:Hexceeds.
  - assert (Hnone : sent y = sent y ++ map DocumentExceedsBatchSize []) by by rewrite app_nil_r.
    destruct (oversized_details c input) as [details|e] eqn:Hdetails;
      [|simplify_eq; exists []; by split_and!].
    destruct (embedding_send _ _ _) as [y1 [[]|e]] eqn:Hsend; apply embedding_send_spec in Hsend;
      [|simplify_eq; exists []; by split_and!].
    destruct (IH _ _ _ Hskip) as (notices & Hsent & Hof & Hr). exists (details :: notices).
    subst y1. simpl in *. rewrite <- app_assoc in Hsent. unfold notices_of, oversized_inputs, fitting_inputs in *.
    simpl. rewrite Hexceeds. simpl. split_and!; [done|by constructor|].
    destruct r; [|done]. destruct Hr. by split; [|f_equal].
  - destruct (skip_oversized c request inputs y) as [y1 r1] eqn:Hrest. simplify_eq.
    destruct (IH _ _ _ Hrest) as (notices & Hsent & Hof & Hr). exists notices.
    unfold notices_of, oversized_inputs, fitting_inputs in *. simpl. rewrite Hexceeds. simpl.
    split_and!; [done|done|]. destruct r1; simpl in *; [|done]. by destruct Hr as [-> ?].
Qed.

(** ** One batch *)

Lemma try_i32_some (z id : Z) : try_i32 z = Some id -> id = z.
Proof. unfold try_i32. intros Hz. by case_match; simplify_eq. Qed.

(** The batch has the tokens of every document in a sequence of its own. *)
Lemma add_sequences_spec (inputs : list EmbeddingInputTokenized) (b b' : LlamaBatch)
    (index k : nat) :
  add_sequences b inputs index = Ok b' ->
  batch_sequence b' (Z.of_nat k)
  = batch_sequence b (Z.of_nat k)
    ++ (if decide (index <= k)%nat then from_option tokens [] (inputs !! (k - index)%nat) else []).
Proof.
  revert b index. induction inputs as [|input inputs IH]; intros b index Hadd; simpl in Hadd.
  { simplify_eq. rewrite lookup_nil. simpl. by case_decide; rewrite app_nil_r. }
  destruct (try_i32 _) as [id|] eqn:Hid; [|done]. apply try_i32_some in Hid. subst id.
  destruct (batch_add_sequence _ _ _ _) as [b1|] eqn:Hb1; [|done].
  destruct (batch_add_sequence_ok _ _ _ _ _ Hb1) as (_ & _ & Hseq).
  rewrite (IH _ _ Hadd), Hseq. destruct (decide (k = index)) as [->|Hne].
  - rewrite decide_True, decide_False, decide_True by lia.
    by rewrite Nat.sub_diag, app_nil_r.
  - rewrite decide_False by lia. f_equal. destruct (decide (S index <= k)%nat) as [Hle|Hle].
    + rewrite decide_True by lia. by replace (k - index)%nat with (S (k - S index)) by lia.
    + by rewrite decide_False by lia.
Qed.

Lemma emit_embeddings_spec (inputs : list EmbeddingInputTokenized) (index : nat)
    (y y' : Processing) (r : result unit ProcessingError) :
  (forall i input v, inputs !! i = Some input ->
   embeddings_seq_ith (processing_context y) (Z.of_nat (index + i)) = Ok v ->
   embeds (tokens input) v) ->
  emit_embeddings c request inputs index y = (y', r) ->
  exists es, sent y' = sent y ++ map EmbeddingProduced es /\ produced_for_first inputs es /\
             (length es <= length inputs)%nat /\ (is_ok r = true -> length es = length inputs).
Proof.
  revert index y. induction inputs as [|input inputs IH]; intros index y Hembeds Hemit;
    simpl in Hemit.
  { simplify_eq. exists []. rewrite app_nil_r. by split_and!. }
  assert (Hstop : forall (r' : result unit ProcessingError), is_ok r' = false ->
    exists es, sent y = sent y ++ map EmbeddingProduced es /\ produced_for_first (input :: inputs) es /\
               (length es <= length (input :: inputs))%nat /\
               (is_ok r' = true -> length es = length (input :: inputs))).
  { intros r' Hr'. exists []. rewrite app_nil_r. split_and!; [done|done|simpl; lia|].
    by rewrite Hr'. }
  destruct (try_i32 _) as [id|] eqn:Hid; [|simplify_eq; by apply Hstop].
  apply try_i32_some in Hid. subst id.
  destruct (embeddings_seq_ith _ _) as [v|e] eqn:Hv; [|simplify_eq; by apply Hstop].
  destruct (normalize_embedding _ _) as [normalized|e] eqn:Hnorm; [|simplify_eq; by apply Hstop].
  destruct (embedding_send _ _ _) as [y1 [[]|e]] eqn:Hsend; apply embedding_send_spec in Hsend;
    subst y1; [|simplify_eq; by apply Hstop].
  destruct (IH (S index) (put_sent (sent y ++ [EmbeddingProduced normalized]) y)) as (es & Hsent & Hes & Hle & Hlen); [|done|].
  { intros i input' v' Hi Hv'. simpl in Hv'. apply (Hembeds (S i) input' v' Hi).
    by replace (index + S i)%nat with (S index + i)%nat by lia. }
  exists (normalized :: es). simpl in *. rewrite <- app_assoc in Hsent.
  split_and!; [done| |lia|intros Hr; by rewrite (Hlen Hr)].
  constructor; [|done]. exists v. split; [|done]. apply (Hembeds 0%nat input v eq_refl).
  by rewrite Nat.add_0_r.
Qed.

Lemma batch_decode_spec (b b' : LlamaBatch) (inputs : list EmbeddingInputTokenized)
    (y y' : Processing) (r : result LlamaBatch ProcessingError) :
  (forall k, batch_sequence b k = []) -> add_sequences b inputs 0 = Ok b' ->
  embedding_batch_decode c request b' inputs y = (y', r) ->
  exists es, sent y' = sent y ++ map EmbeddingProduced es /\ produced_for_first inputs es /\
             (length es <= length inputs)%nat /\
             match r with
             | Ok b'' => length es = length inputs /\ b'' = batch_clear b'
             | Err _ => True
             end.
Proof.
  intros Hempty Hadd Hdecode. unfold embedding_batch_decode in Hdecode.
  destruct (decode _ _) as [ctx [[]|e]] eqn:Hctx.
  2: { simplify_eq. exists []. rewrite app_nil_r. split_and!; [done|done|simpl; lia|done]. }
  destruct (emit_embeddings _ _ _ _ _) as [y1 r1] eqn:Hemit.
  assert (Hown : forall i input v, inputs !! i = Some input ->
    embeddings_seq_ith ctx (Z.of_nat (0 + i)) = Ok v -> embeds (tokens input) v).
  { intros i input v Hi Hv. rewrite Nat.add_0_l in Hv. pose proof (embeddings_seq_ith_ok _ _ _ _ _ Hctx Hv) as Hof.
    rewrite (add_sequences_spec inputs b b' 0 i Hadd), Hempty, decide_True in Hof by lia.
    by rewrite Nat.sub_0_r, Hi in Hof. }
  destruct (emit_embeddings_spec inputs 0 (put_processing_context ctx y) _ _ Hown Hemit)
    as (es & Hsent & Hes & Hle & Hlen).
  exists es. simpl in Hsent. destruct r1 as [[]|e]; simplify_eq; split_and!; try done.
  by apply Hlen.
Qed.

(** ** All batches *)

Lemma planned_slice_rest (inputs : list EmbeddingInputTokenized) (start stop : nat) :
  (start <= stop)%nat -> planned_slice inputs (start, stop) ++ drop stop inputs = drop start inputs.
Proof.
  intros Hle. unfold planned_slice. simpl.
  replace (drop stop inputs) with (drop (stop - start) (drop start inputs)).
  - apply take_drop.
  - rewrite drop_drop. f_equal. lia.
Qed.

(** The plan from a document on covers the rest, batch by batch. *)
Lemma plan_cons (planned : list Range) (r : Range) (start count : nat) :
  concat (map range_indices (r :: planned)) = seq start count -> (fst r < snd r)%nat ->
  fst r = start /\ (snd r <= start + count)%nat /\
  concat (map range_indices planned) = seq (snd r) (start + count - snd r).
Proof.
  destruct r as [a b]. simpl. change (range_indices (a, b)) with (seq a (b - a)). intros Hcat Hlt.
  assert (Hlen : (b - a <= count)%nat).
  { apply (f_equal length) in Hcat. rewrite length_app, !length_seq in Hcat. lia. }
  replace count with ((b - a) + (count - (b - a)))%nat in Hcat by lia.
  rewrite seq_app in Hcat. apply app_inj_1 in Hcat as [Hfirst Hrest]; [|by rewrite !length_seq].
  destruct (b - a)%nat as [|n] eqn:Hn; [lia|]. simpl in Hfirst. injection Hfirst as -> _.
  split_and!; [done|lia|]. rewrite Hrest. f_equal; lia.
Qed.

Lemma process_planned_spec (inputs : list EmbeddingInputTokenized) (planned : list Range)
    (index emitted start : nat) (b : LlamaBatch) (y y' : Processing)
    (r : result nat ProcessingError) :
  (forall k, batch_sequence b k = []) ->
  concat (map range_indices planned) = seq start (length inputs - start) ->
  Forall (fun p : Range => fst p < snd p)%nat planned -> (start <= length inputs)%nat ->
  process_planned c request inputs planned index emitted b y = (y', r) ->
  exists es, sent y' = sent y ++ map EmbeddingProduced es /\
             produced_for_first (drop start inputs) es /\
             match r with
             | Ok n => n = (emitted + length es)%nat /\
                       ((forall k, stopped_before request k = false) ->
                        length es = (length inputs - start)%nat)
             | Err _ => True
             end.
Proof.
  revert index emitted start b y.
  induction planned as [|p planned IH]; intros index emitted start b y Hempty Hcat Hpos Hle Hrun;
    simpl in Hrun.
  { simplify_eq. exists []. rewrite app_nil_r. split_and!; [done|done|simpl; lia|].
    intros _. apply (f_equal length) in Hcat. rewrite length_seq in Hcat. simpl in *. lia. }
  apply Forall_cons in Hpos as [Hp Hpos].
  destruct (plan_cons _ _ _ _ Hcat Hp) as (Hstart & Hend & Hcat').
  destruct (stopped_before request index) eqn:Hstop.
  { simplify_eq. exists []. rewrite app_nil_r. split_and!; [done|done|simpl; lia|].
    intros Hnever. by rewrite Hnever in Hstop. }
  assert (Hnothing : exists es, sent y = sent y ++ map EmbeddingProduced es /\
                                produced_for_first (drop start inputs) es /\ True).
  { exists []. rewrite app_nil_r. by split_and!. }
  destruct (add_sequences _ _ _) as [b1|e] eqn:Hadd; [|by simplify_eq].
  destruct (embedding_batch_decode _ _ _ _ _) as [y1 r1] eqn:Hdecode.
  destruct (batch_decode_spec _ _ _ _ _ _ Hempty Hadd Hdecode) as (es & Hsent & Hes & Hfew & Hr1).
  assert (Hslice : planned_slice inputs p ++ drop (snd p) inputs = drop start inputs).
  { rewrite <- Hstart. destruct p. apply planned_slice_rest. simpl in *. lia. }
  assert (Hlength : length (planned_slice inputs p) = (snd p - start)%nat).
  { unfold planned_slice. rewrite length_take, length_drop. lia. }
  destruct r1 as [b2|e].
  2: { simplify_eq. exists es. split_and!; [done| |done]. rewrite <- Hslice.
       by apply produced_for_first_more. }
  destruct Hr1 as [Hlen ->].
  destruct (IH (S index) (emitted + length (planned_slice inputs p))%nat (snd p) (batch_clear b1) y1)
    as (es' & Hsent' & Hes' & Hr); try done.
  { intros k. apply (batch_clear_ok b1 k). }
  { rewrite Hcat'. f_equal. lia. }
  { lia. }
  exists (es ++ es'). rewrite Hsent', Hsent, map_app, <- app_assoc. split_and!; [done| |].
  - rewrite <- Hslice. by apply produced_for_first_app.
  - destruct r as [n|e]; [|done]. destruct Hr as [-> Hall]. rewrite length_app. split; [lia|].
    intros Hnever. rewrite (Hall Hnever). lia.
Qed.

Lemma plan_inputs_covers (inputs : list EmbeddingInputTokenized)
    (Hmax : desired_slots_total c <= i32_max) :
  concat (map range_indices (plan_inputs c inputs)) = seq 0 (length inputs - 0) /\
  Forall (range_planned (map (fun input => length (tokens input)) inputs) (context_n_batch c)
            (desired_slots_total c)) (plan_inputs c inputs).
Proof.
  destruct (embedding_plan_covers (map (fun input => length (tokens input)) inputs)
              (context_n_batch c) (desired_slots_total c) Hmax) as [Hcat Hall].
  split; [|exact Hall]. unfold plan_inputs. by rewrite Hcat, length_map, Nat.sub_0_r.
Qed.

Lemma range_planned_pos (counts : list nat) (n : nat) (m : Z) (planned : list Range) :
  Forall (range_planned counts n m) planned -> Forall (fun p : Range => fst p < snd p)%nat planned.
Proof.
  intros Hall. eapply Forall_impl; [exact Hall|]. intros p Hp. apply (range_nonempty _ _ _ _ Hp).
Qed.

(** The last result, after so many embeddings. *)
Definition stream_end (es : list Embedding) : EmbeddingResult :=
  match es with [] => NoEmbeddingsProduced | _ :: _ => EmbeddingDone end.

Lemma embed_fitting_spec (inputs : list EmbeddingInputTokenized) (y y' : Processing)
    (r : result unit ProcessingError) (Hmax : desired_slots_total c <= i32_max) :
  embed_fitting c request inputs y = (y', r) ->
  exists es, produced_for_first inputs es /\
  match r with
  | Ok _ =>
      sent y' = sent y ++ map EmbeddingProduced es ++ [stream_end es] /\
      ((forall k, stopped_before request k = false) -> length es = length inputs)
  | Err _ => sent y' = sent y ++ map EmbeddingProduced es
  end.
Proof.
  unfold embed_fitting. intros Hrun.
  destruct (batch_new _ _) as [b|e] eqn:Hb.
  2: { simplify_eq. exists []. rewrite app_nil_r. by split. }
  destruct (process_planned _ _ _ _ _ _ _ _) as [y1 r1] eqn:Hplanned.
  destruct (plan_inputs_covers inputs Hmax) as [Hcat Hall].
  destruct (process_planned_spec inputs (plan_inputs c inputs) 0 0 0 b y y1 r1)
    as (es & Hsent & Hes & Hr1); try done.
  { intros k. by eapply batch_new_sequence. }
  { by eapply range_planned_pos. }
  { lia. }
  exists es. rewrite drop_0 in Hes. destruct r1 as [n|e]; [|by simplify_eq].
  destruct Hr1 as [-> Hwhole]. simpl in Hrun. rewrite Nat.sub_0_r in Hwhole.
  apply embedding_send_spec in Hrun. destruct r as [[]|e]; [|by subst y'].
  split; [done|]. split; [|done]. subst y'. simpl. rewrite Hsent, <- app_assoc. by destruct es.
Qed.

End Request.

(** C28. What a client of an embedding batch receives: a notice for every
    document too large for a batch, then embeddings of the first of the other
    documents, in their order, each computed from the tokens of that document
    and no other, although they share batches, and normalized as asked; then
    one end of the stream, which tells whether there were any.  Without a stop
    signal no document is left out.  When the processing fails, the client has
    received a part of this, and no end of the stream. *)
Theorem embedding_results_in_order (c : EmbeddingContext) (request : GenerateEmbeddingBatchRequest)
    (y y' : Processing) (r : result unit ProcessingError) (inputs : list EmbeddingInputTokenized)
    (Henabled : enable_embeddings (embedding_inference_parameters c) = true)
    (Hinputs : tokenize_inputs (input_batch (embedding_params request)) = Ok inputs)
    (Hmax : desired_slots_total c <= i32_max)
    (Hrun : process_embedding_batch c request y = (y', r)) :
  exists notices es,
    notices_of c inputs notices /\ produced_for_first c request (fitting_inputs c inputs) es /\
    match r with
    | Ok _ =>
        sent y' = sent y ++ map DocumentExceedsBatchSize notices
                  ++ map EmbeddingProduced es ++ [stream_end es] /\
        length notices = length (oversized_inputs c inputs) /\
        ((forall k, stopped_before request k = false) ->
         length es = length (fitting_inputs c inputs))
    | Err _ => sent y' = sent y ++ map DocumentExceedsBatchSize notices ++ map EmbeddingProduced es
    end.
Proof.
  unfold process_embedding_batch, embed_documents in Hrun. rewrite Henabled, Hinputs in Hrun.
  simpl in Hrun. destruct (skip_oversized _ _ _ _) as [y1 r1] eqn:Hskip.
  destruct (skip_oversized_spec _ _ _ _ _ _ Hskip) as (notices & Hnotices & Hof & Hr1).
  exists notices. destruct r1 as [fitting|e].
  2: { exists []. simplify_eq. rewrite app_nil_r. by split_and!; [|apply produced_for_first_nil|]. }
  destruct Hr1 as [-> Hlen].
  destruct (embed_fitting _ _ _ _) as [y2 r2] eqn:Hfitting.
  destruct (embed_fitting_spec _ _ _ _ _ _ Hmax Hfitting) as (es & Hes & Hr2). exists es.
  split_and!; [done|done|]. injection Hrun as <- ->. simpl.
  destruct r as [u|e]; [destruct Hr2 as [Hsent Hall]|rename Hr2 into Hsent];
    rewrite Hsent, Hnotices, <- app_assoc; [by split_and!|done].
Qed.

(** ** The end of an answer *)

(** Only the last result can end the stream. *)
Definition answer_ends_last (l : list EmbeddingResult) : Prop :=
  Forall (fun event => is_done event = false) (removelast l).

Lemma answer_open_ends (l : list EmbeddingResult) :
  Forall (fun event => is_done event = false) l -> answer_ends_last l.
Proof.
  unfold answer_ends_last. intros Hl. induction Hl as [|x l Hx Hl IH]; [constructor|].
  destruct l; [constructor|]. simpl. by constructor.
Qed.

Lemma answer_snoc_ends (l : list EmbeddingResult) (event : EmbeddingResult) :
  Forall (fun event => is_done event = false) l -> answer_ends_last (l ++ [event]).
Proof. unfold answer_ends_last. by rewrite removelast_last. Qed.

Lemma answered_events_open (notices : list OversizedEmbeddingDocumentDetails) (es : list Embedding) :
  Forall (fun event => is_done event = false)
    (map DocumentExceedsBatchSize notices ++ map EmbeddingProduced es).
Proof.
  apply Forall_app. by split; apply List.Forall_forall; intros event Hin;
    apply in_map_iff in Hin as (x & <- & _).
Qed.

Lemma rejection_ends_last (request : GenerateEmbeddingBatchRequest) (event : EmbeddingResult)
    (y y' : Processing) (r : result unit ProcessingError) :
  sent y = [] -> embedding_send request event y = (y', r) -> answer_ends_last (sent y').
Proof.
  intros Hy Hsend. apply embedding_send_spec in Hsend. destruct r as [u|e]; subst y'; simpl;
    rewrite Hy; [apply (answer_snoc_ends []); constructor|constructor].
Qed.

Lemma processed_ends_last (c : EmbeddingContext) (request : GenerateEmbeddingBatchRequest)
    (y y' : Processing) (r : result unit ProcessingError) :
  desired_slots_total c <= i32_max -> sent y = [] ->
  process_embedding_batch c request y = (y', r) -> answer_ends_last (sent y').
Proof.
  intros Hmax Hy Hrun. unfold process_embedding_batch, embed_documents in Hrun.
  destruct (enable_embeddings _); simpl in Hrun.
  2: { destruct (embedding_send _ _ _) as [y1 r1] eqn:Hsend.
       pose proof (rejection_ends_last _ _ _ _ _ Hy Hsend) as Hends. by destruct r1; simplify_eq. }
  destruct (tokenize_inputs _) as [inputs|e]; [|simplify_eq/=; rewrite Hy; constructor].
  destruct (skip_oversized _ _ _ _) as [y1 r1] eqn:Hskip.
  destruct (skip_oversized_spec _ _ _ _ _ _ Hskip) as (notices & Hnotices & _ & _).
  rewrite Hy in Hnotices. simpl in Hnotices. destruct r1 as [fitting|e].
  2: { simplify_eq/=. rewrite Hnotices. apply answer_open_ends.
       pose proof (answered_events_open notices []) as Hopen. by rewrite app_nil_r in Hopen. }
  destruct (embed_fitting _ _ _ _) as [y2 r2] eqn:Hfitting.
  destruct (embed_fitting_spec _ _ _ _ _ _ Hmax Hfitting) as (es & _ & Hr2).
  injection Hrun as <- <-. simpl. rewrite Hnotices in Hr2.
  destruct r2 as [u|e]; [destruct Hr2 as [Hr2 _]|]; rewrite Hr2.
  - rewrite app_assoc. apply answer_snoc_ends, answered_events_open.
  - apply answer_open_ends, answered_events_open.
Qed.

(** ** The slot of the request *)

Section Slot.
Variable c : EmbeddingContext.
Variable request : GenerateEmbeddingBatchRequest.

Lemma embedding_send_status (event : EmbeddingResult) (y : Processing) :
  processing_status (fst (embedding_send request event y)) = processing_status y.
Proof. unfold embedding_send. by repeat case_match. Qed.

Lemma skip_oversized_status (inputs : list EmbeddingInputTokenized) (y : Processing) :
  processing_status (fst (skip_oversized c request inputs y)) = processing_status y.
Proof.
  revert y. induction inputs as [|input inputs IH]; intros y; simpl; [done|].
  destruct (exceeds_batch c input).
  - destruct (oversized_details c input) as [details|]; [|done].
    pose proof (embedding_send_status (DocumentExceedsBatchSize details) y) as Hsend.
    destruct (embedding_send _ _ y) as [y1 [|]]; simpl in *; [|done]. by rewrite IH.
  - specialize (IH y). by destruct (skip_oversized _ _ _ y).
Qed.

Lemma emit_embeddings_status (inputs : list EmbeddingInputTokenized) (index : nat) (y : Processing) :
  processing_status (fst (emit_embeddings c request inputs index y)) = processing_status y.
Proof.
  revert index y. induction inputs as [|input inputs IH]; intros index y; simpl; [done|].
  destruct (try_i32 _); [|done]. destruct (embeddings_seq_ith _ _) as [v|]; [|done].
  destruct (normalize_embedding _ _) as [normalized|]; [|done].
  pose proof (embedding_send_status (EmbeddingProduced normalized) y) as Hsend.
  destruct (embedding_send _ _ y) as [y1 [|]]; simpl in *; [|done]. by rewrite IH.
Qed.

Lemma process_planned_status (inputs : list EmbeddingInputTokenized) (planned : list Range)
    (index emitted : nat) (b : LlamaBatch) (y : Processing) :
  processing_status (fst (process_planned c request inputs planned index emitted b y))
  = processing_status y.
Proof.
  revert index emitted b y. induction planned as [|p planned IH]; intros index emitted b y; simpl; [done|].
  destruct (stopped_before request index); [done|]. destruct (add_sequences _ _ _) as [b1|]; [|done].
  unfold embedding_batch_decode. destruct (decode _ _) as [ctx [|]]; [|done].
  pose proof (emit_embeddings_status (planned_slice inputs p) 0 (put_processing_context ctx y)) as Hemit.
  destruct (emit_embeddings _ _ _ _ _) as [y1 [|]]; simpl in *; [|done]. by rewrite IH.
Qed.

(** Whatever happens, the processing releases the slot of its request once. *)
Lemma process_embedding_batch_status (y : Processing) :
  processing_status (fst (process_embedding_batch c request y)) = slot_guard_drop (processing_status y).
Proof.
  assert (Hstatus : processing_status (fst (embed_documents c request y)) = processing_status y).
  { unfold embed_documents. destruct (negb _).
    - pose proof (embedding_send_status EmbeddingsDisabled y) as Hsend.
      by destruct (embedding_send _ _ _) as [y1 [|]].
    - destruct (tokenize_inputs _) as [inputs|]; [|done].
      pose proof (skip_oversized_status inputs y) as Hskip.
      destruct (skip_oversized _ _ _ _) as [y1 [fitting|]]; simpl in *; [|done].
      rewrite <- Hskip. unfold embed_fitting. destruct (batch_new _ _) as [b|]; [|done].
      pose proof (process_planned_status fitting (plan_inputs c fitting) 0 0 b y1) as Hplanned.
      destruct (process_planned _ _ _ _ _ _ _ _) as [y2 [emitted|]]; simpl in *; [|done].
      by rewrite embedding_send_status. }
  unfold process_embedding_batch. destruct (embed_documents _ _ _) as [y1 r]. simpl in *. by rewrite Hstatus.
Qed.

End Slot.

(** ** Nothing fails by itself *)

Section Completion.
Variable c : EmbeddingContext.
Variable request : GenerateEmbeddingBatchRequest.

Definition u32_max : Z := 2 ^ 32 - 1.

(** llama.cpp does what it is asked, and the client stays. *)
Record cooperative : Prop := {
  every_document_tokenized : Forall (fun document =>
    exists tokens_, str_to_token (document_content document) = Ok tokens_ /\
                    0 < Z.of_nat (length tokens_) <= u32_max) (input_batch (embedding_params request));
  batch_allocated : is_ok (batch_new (context_n_batch c) (desired_slots_total c)) = true;
  batches_decoded : forall ctx b, (length (batch_entries b) <= batch_capacity b)%nat ->
    is_ok (snd (decode (clear_kv_cache ctx) b)) = true;
  sequences_embedded : forall ctx b ctx' k,
    decode (clear_kv_cache ctx) b = (ctx', Ok tt) -> batch_sequence b k <> [] ->
    exists v, embeddings_seq_ith ctx' k = Ok v /\ Z.of_nat (length v) <= u16_max;
  client_stays : receiver_drops_after request = None;
}.

Hypothesis Hcooperative : cooperative.
Hypothesis Hslots : desired_slots_total c <= i32_max.

Definition proper_input (input : EmbeddingInputTokenized) : Prop :=
  0 < Z.of_nat (length (tokens input)) <= u32_max.

Lemma tokenize_inputs_ok :
  exists inputs, tokenize_inputs (input_batch (embedding_params request)) = Ok inputs /\
                 Forall proper_input inputs.
Proof.
  induction (every_document_tokenized Hcooperative)
    as [|document documents (tokens_ & Htokens & Hlen) _ (inputs & Hinputs & Hproper)]; simpl.
  { by exists []. }
  rewrite Htokens, Hinputs. simpl. eexists. split; [done|by constructor].
Qed.

Lemma skip_oversized_ok (inputs : list EmbeddingInputTokenized) (y : Processing) :
  Forall proper_input inputs -> is_ok (snd (skip_oversized c request inputs y)) = true.
Proof.
  intros Hproper. revert y. induction Hproper as [|input inputs Hinput _ IH]; intros y; simpl; [done|].
  destruct (exceeds_batch c input) eqn:Hexceeds.
  - apply Nat.ltb_lt in Hexceeds. unfold oversized_details, try_u32, proper_input, u32_max in *.
    rewrite !decide_True by lia. rewrite embedding_send_open by apply (client_stays Hcooperative). apply IH.
  - specialize (IH y). by destruct (skip_oversized _ _ _ _) as [y1 [|]].
Qed.

(** The tokens of some documents. *)
Definition tokens_total (inputs : list EmbeddingInputTokenized) : nat :=
  sum_list (map (fun input => length (tokens input)) inputs).

Lemma try_i32_index (k : nat) : Z.of_nat k <= i32_max -> try_i32 (Z.of_nat k) = Some (Z.of_nat k).
Proof. unfold try_i32, i32_min, i32_max. intros Hk. case_match; [done|lia]. Qed.

Lemma add_sequences_ok (inputs : list EmbeddingInputTokenized) (b : LlamaBatch) (index : nat) :
  (length (batch_entries b) + tokens_total inputs <= batch_capacity b)%nat ->
  Z.of_nat (index + length inputs) <= i32_max ->
  exists b', add_sequences b inputs index = Ok b' /\ batch_capacity b' = batch_capacity b /\
             (length (batch_entries b') <= batch_capacity b')%nat.
Proof.
  revert b index. induction inputs as [|input inputs IH]; intros b index Hroom Hindex; simpl in *.
  { exists b. split_and!; [done|done|]. unfold tokens_total in Hroom. simpl in Hroom. lia. }
  change (tokens_total (input :: inputs)) with (length (tokens input) + tokens_total inputs)%nat in Hroom.
  rewrite try_i32_index by lia.
  pose proof (batch_add_sequence_room b (tokens input) (Z.of_nat index) true ltac:(lia)) as Hok.
  destruct (batch_add_sequence _ _ _ _) as [b1|] eqn:Hb1; [|done].
  destruct (batch_add_sequence_ok _ _ _ _ _ Hb1) as (Hlen & Hcap & _).
  destruct (IH b1 (S index)) as (b2 & Hb2 & Hcap2 & Hfit); [lia|lia|].
  exists b2. rewrite Hb2, Hcap2, Hcap. split_and!; [done|done|lia].
Qed.

Lemma normalize_raw_ok (input : EmbeddingInputTokenized) (v : list f32)
    (method_ : EmbeddingNormalizationMethod) :
  Z.of_nat (length v) <= u16_max -> is_ok (normalize_embedding (raw_embedding c input v) method_) = true.
Proof.
  intros Hlen. unfold normalize_embedding. destruct method_ as [| |epsilon]; simpl; [done|done|].
  unfold rms_norm. destruct v as [|x v]; [done|]. rewrite (proj2 (Z.leb_le _ _) Hlen).
  by case_match.
Qed.

Lemma emit_embeddings_ok (inputs : list EmbeddingInputTokenized) (index : nat) (y : Processing) :
  (forall i, (i < length inputs)%nat -> exists v,
     embeddings_seq_ith (processing_context y) (Z.of_nat (index + i)) = Ok v /\
     Z.of_nat (length v) <= u16_max) ->
  Z.of_nat (index + length inputs) <= i32_max ->
  is_ok (snd (emit_embeddings c request inputs index y)) = true.
Proof.
  revert index y. induction inputs as [|input inputs IH]; intros index y Hv Hindex; simpl; [done|].
  simpl in *. rewrite try_i32_index by lia. destruct (Hv 0%nat ltac:(lia)) as (v & Hseq & Hlen).
  rewrite Nat.add_0_r in Hseq. rewrite Hseq.
  pose proof (normalize_raw_ok input v (request_normalization request) Hlen) as Hok.
  destruct (normalize_embedding _ _) as [normalized|]; [|done].
  rewrite embedding_send_open by apply (client_stays Hcooperative).
  apply IH; [|lia]. intros i Hi.
  replace (S index + i)%nat with (index + S i)%nat by lia. apply Hv. lia.
Qed.

Lemma batch_decode_ok (b b' : LlamaBatch) (inputs : list EmbeddingInputTokenized) (y : Processing) :
  Forall proper_input inputs -> (length (batch_entries b') <= batch_capacity b')%nat ->
  Z.of_nat (length inputs) <= i32_max -> add_sequences b inputs 0 = Ok b' ->
  exists y', embedding_batch_decode c request b' inputs y = (y', Ok (batch_clear b')).
Proof.
  intros Hproper Hfit Hcount Hadd. unfold embedding_batch_decode.
  pose proof (batches_decoded Hcooperative (processing_context y) b' Hfit) as Hok.
  destruct (decode _ _) as [ctx [[]|e]] eqn:Hctx; [|done].
  assert (Hemit : is_ok (snd (emit_embeddings c request inputs 0 (put_processing_context ctx y))) = true).
  { apply emit_embeddings_ok; [|done]. intros i Hi.
    apply (sequences_embedded Hcooperative _ _ _ _ Hctx).
    rewrite (add_sequences_spec inputs b b' 0 (0 + i) Hadd), decide_True by lia.
    rewrite Nat.sub_0_r. destruct (lookup_lt_is_Some_2 inputs i Hi) as [input Hinput].
    simpl. rewrite Hinput. simpl. rewrite Forall_lookup in Hproper.
    specialize (Hproper _ _ Hinput). unfold proper_input in Hproper.
    destruct (tokens input); [simpl in *; lia|]. by destruct (batch_sequence b _). }
  destruct (emit_embeddings _ _ _ _ _) as [y1 [[]|e]]; [|done]. by eexists.
Qed.

Lemma process_planned_ok (inputs : list EmbeddingInputTokenized) (planned : list Range)
    (index emitted : nat) (b : LlamaBatch) (y : Processing) :
  Forall proper_input inputs ->
  Forall (fun p : Range =>
    (tokens_total (planned_slice inputs p) <= context_n_batch c)%nat /\
    Z.of_nat (length (planned_slice inputs p)) <= i32_max) planned ->
  batch_entries b = [] -> batch_capacity b = context_n_batch c ->
  is_ok (snd (process_planned c request inputs planned index emitted b y)) = true.
Proof.
  intros Hproper Hplanned. revert index emitted b y.
  induction Hplanned as [|p planned [Hfits Hcount] _ IH]; intros index emitted b y Hb Hcap;
    simpl; [done|].
  destruct (stopped_before request index); [done|].
  destruct (add_sequences_ok (planned_slice inputs p) b 0) as (b1 & Hadd & Hcap1 & Hroom).
  { rewrite Hb, Hcap. simpl. lia. }
  { lia. }
  rewrite Hadd.
  destruct (batch_decode_ok b b1 (planned_slice inputs p) y) as [y1 Hy1]; try done.
  { unfold planned_slice. by apply Forall_take, Forall_drop. }
  rewrite Hy1. destruct (batch_clear_ok b1 0) as (Hclear & Hcap2 & _).
  apply IH; [done|]. by rewrite Hcap2, Hcap1.
Qed.

(** A planned batch has room for its documents. *)
Lemma planned_fits (inputs : list EmbeddingInputTokenized) (p : Range) :
  Forall (fun input => exceeds_batch c input = false) inputs ->
  range_planned (map (fun input => length (tokens input)) inputs) (context_n_batch c)
    (desired_slots_total c) p ->
  (tokens_total (planned_slice inputs p) <= context_n_batch c)%nat /\
  Z.of_nat (length (planned_slice inputs p)) <= i32_max.
Proof.
  intros Hfit [[Hpos Hend] Hcount Hfits _]. rewrite length_map in Hend.
  assert (Hlen : length (planned_slice inputs p) = (snd p - fst p)%nat).
  { unfold planned_slice. rewrite length_take, length_drop. lia. }
  split; [|unfold i32_max in *; lia].
  assert (Htotal : tokens_total (planned_slice inputs p)
    = range_tokens (map (fun input => length (tokens input)) inputs) p).
  { unfold tokens_total, range_tokens, planned_slice. by rewrite <- firstn_map, <- skipn_map. }
  destruct Hfits as [Hfits|Hone]; [lia|].
  assert (Hslice : Forall (fun input => exceeds_batch c input = false) (planned_slice inputs p))
    by (by apply Forall_take, Forall_drop).
  rewrite Hone in Hlen. destruct (planned_slice inputs p) as [|input [|]]; simpl in Hlen; [lia| |lia].
  apply Forall_cons_1 in Hslice as [Hinput _]. apply Nat.ltb_ge in Hinput.
  unfold tokens_total. simpl. lia.
Qed.

End Completion.

(** C29. An embedding batch is always answered in full when llama.cpp does what
    it is asked and the client stays: no planned batch is too large for the
    batch it is put into, no index overflows and no normalization is refused;
    so with enabled embeddings the processing succeeds. *)
Theorem embedding_batch_completes (c : EmbeddingContext) (request : GenerateEmbeddingBatchRequest)
    (y : Processing)
    (Henabled : enable_embeddings (embedding_inference_parameters c) = true)
    (Hcooperative : cooperative c request) (Hslots : desired_slots_total c <= i32_max) :
  snd (process_embedding_batch c request y) = Ok tt.
Proof.
  assert (Hok : is_ok (snd (process_embedding_batch c request y)) = true).
  2: { by destruct (snd (process_embedding_batch c request y)) as [[]|]. }
  unfold process_embedding_batch, embed_documents. rewrite Henabled. simpl.
  destruct (tokenize_inputs_ok _ _ Hcooperative) as (inputs & -> & Hproper).
  pose proof (skip_oversized_ok _ _ Hcooperative inputs y Hproper) as Hskip.
  destruct (skip_oversized _ _ _ _) as [y1 [fitting|]] eqn:Hrun; [|done].
  destruct (skip_oversized_spec _ _ _ _ _ _ Hrun) as (_ & _ & _ & -> & _).
  assert (Hfit : Forall (fun input => exceeds_batch c input = false) (fitting_inputs c inputs)).
  { apply List.Forall_forall. intros input Hin. apply filter_In in Hin as [_ Hin].
    by apply negb_true_iff in Hin. }
  assert (Hproper' : Forall proper_input (fitting_inputs c inputs)).
  { rewrite List.Forall_forall in *. intros input Hin. apply filter_In in Hin as [Hin _]. by apply Hproper. }
  destruct (plan_inputs_covers c (fitting_inputs c inputs) Hslots) as [_ Hplan].
  unfold embed_fitting. pose proof (batch_allocated _ _ Hcooperative) as Hbatch.
  destruct (batch_new _ _) as [b|] eqn:Hb; [|done]. destruct (batch_new_ok _ _ _ Hb) as [Hempty Hcap].
  assert (Hplanned : is_ok (snd (process_planned c request (fitting_inputs c inputs)
    (plan_inputs c (fitting_inputs c inputs)) 0 0 b y1)) = true).
  { apply process_planned_ok; try done. eapply Forall_impl; [exact Hplan|].
    intros p Hp. by apply planned_fits. }
  destruct (process_planned _ _ _ _ _ _ _ _) as [y2 [emitted|]]; [|done].
  by rewrite embedding_send_open by apply (client_stays _ _ Hcooperative).
Qed.

End EmbeddingProcessorFacts.

(** ** Witnesses

    Batches of four tokens and two sequences; a token per character. *)

Definition sample_embedding_context : EmbeddingContext :=
  {| embedding_inference_parameters :=
       {| n_batch := 4; context_size := 8192; embedding_batch_size := 256;
          enable_embeddings := true; image_resize_to_fit := 1024; k_cache_dtype := Q80;
          v_cache_dtype := Q80; min_p := f32_zero; n_gpu_layers := 0;
          penalty_frequency := f32_zero; penalty_last_n := -1; penalty_presence := f32_zero;
          penalty_repeat := f32_zero; inference_pooling_type := PoolingMean;
          temperature := f32_zero; top_k := 80; top_p := f32_zero |};
     desired_slots_total := 2 |}.

Definition sample_document (content id : string) : EmbeddingInputDocument :=
  {| document_content := content; document_id := id |}.

Definition sample_batch_request : GenerateEmbeddingBatchRequest :=
  {| stopped_before := fun _ => false; receiver_drops_after := None;
     embedding_params :=
       {| input_batch := [sample_document "ab" "1"; sample_document "too long" "2";
                          sample_document "abc" "3"; sample_document "a" "4"];
          batch_normalization_method := NormalizeNone |} |}.

Definition sample_processing : Processing (sender := nat) :=
  {| processing_context := ({| plain_decoded := 0; plain_last := []; plain_external := None |} : PlainContext);
     sent := []; processing_status := status_new 0 2 |}.

Definition sample_produced (n : Z) (id : string) : EmbeddingResult :=
  EmbeddingProduced
    {| embedding := [f32_of_Z n]; normalization_method := NormalizeNone;
       pooling_type := PoolingMean; source_document_id := id |}.

Example sample_batch_answer :
  sent (fst (process_embedding_batch sample_embedding_context sample_batch_request sample_processing))
  = [DocumentExceedsBatchSize {| document_tokens := 8; oversized_document_n_batch := 4;
                                 oversized_document_id := "2" |};
     sample_produced 3 "1"; sample_produced 6 "3"; sample_produced 1 "4"; EmbeddingDone].
Proof. vm_compute. reflexivity. Qed.

Definition sample_tokenized (id : string) (tokens_ : list Z)
    : @EmbeddingInputTokenized _ plain_backend :=
  {| tokenized_id := id; tokens := tokens_ : list (@LlamaToken _ plain_backend) |}.

Lemma sample_cooperative : cooperative sample_embedding_context sample_batch_request.
Proof.
  split; try done.
  - repeat (constructor; [eexists; split; [reflexivity|vm_compute; split; [reflexivity|discriminate]]|]).
    constructor.
  - intros ctx b ctx' k _ _. eexists. split; [reflexivity|]. vm_compute. discriminate.
Qed.

Lemma embedding_results_in_order_witness :
  exists notices es,
    sent (fst (process_embedding_batch sample_embedding_context sample_batch_request sample_processing))
    = map DocumentExceedsBatchSize notices ++ map EmbeddingProduced es ++ [stream_end es] /\
    length notices = 1%nat /\ length es = 3%nat.
Proof.
  destruct (process_embedding_batch sample_embedding_context sample_batch_request sample_processing)
    as [y' r] eqn:Hrun.
  destruct (embedding_results_in_order sample_embedding_context sample_batch_request
              sample_processing y' r
              [sample_tokenized "1" [1; 2];
               sample_tokenized "2" [1; 2; 3; 4; 5; 6; 7; 8];
               sample_tokenized "3" [1; 2; 3];
               sample_tokenized "4" [1]])
    as (notices & es & _ & _ & Hr);
    [reflexivity|vm_compute; reflexivity|vm_compute; discriminate|exact Hrun|].
  assert (Hok : r = Ok tt).
  { change r with (snd (y', r)). rewrite <- Hrun. vm_compute. reflexivity. }
  subst r. destruct Hr as (Hsent & Hnotices & Hall). exists notices, es.
  split; [exact Hsent|]. split; [exact Hnotices|]. apply Hall. done.
Defined.

Lemma embedding_batch_completes_witness :
  snd (process_embedding_batch sample_embedding_context sample_batch_request sample_processing) = Ok tt.
Proof.
  apply (embedding_batch_completes sample_embedding_context sample_batch_request sample_processing);
    [reflexivity|exact sample_cooperative|vm_compute; discriminate].
Defined.
