(* ===== verification/SchedulerLoop.v ===== *)
(** * The loop of the scheduler's thread

    [run], [accept_new_commands], [process_command] and
    [try_process_embedding_request] of [continuous_batch_scheduler/mod.rs],
    with [continuous_batch_scheduler_command.rs].  The loop is a machine with
    a program counter, so that commands, disconnections and stop signals can
    arrive between any two of its phases.  It refines the transition system of
    [SchedulerSystem], and it stops once it is told to or nobody can tell it
    anything any more. *)

From S2P Require Import Prelude.
From S2P Require Import Tokio.
From S2P Require Import Messages.
From S2P Require Import AtomicValue.
From S2P Require Import Requests.
From S2P Require Import SlotStatus.
From S2P Require Import ToolCalls.
From S2P Require Import Llama.
From S2P Require Import Scheduler.
From S2P Require Import SchedulerCommands.
From S2P Require Import SchedulerBatch.
From S2P Require Import SchedulerStreams.
From S2P Require Import SchedulerLifecycle.
From S2P Require Import Images.
From S2P Require Import Conversation.
From S2P Require Import SchedulerSystem.
From S2P Require Import EmbeddingProcessor.
From S2P Require Import EmbeddingProcessorFacts.
Local Open Scope Z_scope.

Section SchedulerLoop.
Context `{JsonTypes} `{LlamaTypes} `{!ToolCallBackend} `{!LlamaBackend} `{!MultimodalBackend}.
Context `{!EmbeddingBackend} `{!ImageBackend} `{!ChatTemplates}.
Context {chan : Type -> Type} `{!UnboundedChannel chan}.
Context {sender receiver : Type} `{!WatchChannel sender receiver}.

Notation Scheduler := (ContinuousBatchScheduler (chan := chan) (sender := sender)).
Notation System := (SchedulerSystem (chan := chan) (sender := sender)).
Notation Processing := (Processing (sender := sender)).

(** ** State *)

(** A request names its channel, or its place in the answers. *)
Inductive ContinuousBatchSchedulerCommand : Type :=
| ContinueFromConversationHistory (tx : nat)
    (params : ContinueFromConversationHistoryParams ValidatedParametersSchema)
| ContinueFromRawPrompt (tx : nat) (params : ContinueFromRawPromptParams)
| GenerateEmbeddingBatch (id : nat) (request : GenerateEmbeddingBatchRequest)
| Shutdown.

(** Where the loop is; after [AtShutDown] it returned, and then the scheduler
    was dropped. *)
Inductive LoopPhase : Type :=
| AtCheckStop
| AtRemove
| AtAccept
| AtEmbedding
| AtExecute
| AtWait
| AtShutDown
| Returned
| Dropped.

Record LoopState : Type := {
  core : Scheduler;
  command_rx : list ContinuousBatchSchedulerCommand;
  senders_alive : bool;
  pending_embedding_requests : list (nat * GenerateEmbeddingBatchRequest);
  embedding_answers : gmap nat (list EmbeddingResult);
  running : bool;
  loop_phase : LoopPhase;
}.

Definition loop_new (s : Scheduler) : LoopState :=
  {| core := s; command_rx := []; senders_alive := true; pending_embedding_requests := [];
     embedding_answers := ∅; running := true; loop_phase := AtCheckStop |}.

Definition put_core (s : Scheduler) (l : LoopState) : LoopState :=
  {| core := s; command_rx := command_rx l; senders_alive := senders_alive l;
     pending_embedding_requests := pending_embedding_requests l;
     embedding_answers := embedding_answers l; running := running l; loop_phase := loop_phase l |}.

Definition put_commands (q : list ContinuousBatchSchedulerCommand) (l : LoopState) : LoopState :=
  {| core := core l; command_rx := q; senders_alive := senders_alive l;
     pending_embedding_requests := pending_embedding_requests l;
     embedding_answers := embedding_answers l; running := running l; loop_phase := loop_phase l |}.

Definition put_pending (q : list (nat * GenerateEmbeddingBatchRequest)) (l : LoopState) : LoopState :=
  {| core := core l; command_rx := command_rx l; senders_alive := senders_alive l;
     pending_embedding_requests := q; embedding_answers := embedding_answers l;
     running := running l; loop_phase := loop_phase l |}.

Definition put_answer (id : nat) (answer : list EmbeddingResult) (l : LoopState) : LoopState :=
  {| core := core l; command_rx := command_rx l; senders_alive := senders_alive l;
     pending_embedding_requests := pending_embedding_requests l;
     embedding_answers := <[id := answer]> (embedding_answers l);
     running := running l; loop_phase := loop_phase l |}.

Definition stop_running (l : LoopState) : LoopState :=
  {| core := core l; command_rx := command_rx l; senders_alive := senders_alive l;
     pending_embedding_requests := pending_embedding_requests l;
     embedding_answers := embedding_answers l; running := false; loop_phase := loop_phase l |}.

Definition put_phase (p : LoopPhase) (l : LoopState) : LoopState :=
  {| core := core l; command_rx := command_rx l; senders_alive := senders_alive l;
     pending_embedding_requests := pending_embedding_requests l;
     embedding_answers := embedding_answers l; running := running l; loop_phase := p |}.

Definition disconnect (l : LoopState) : LoopState :=
  {| core := core l; command_rx := command_rx l; senders_alive := false;
     pending_embedding_requests := pending_embedding_requests l;
     embedding_answers := embedding_answers l; running := running l; loop_phase := loop_phase l |}.

(** The configuration, as far as the loop's calls read it. *)
Record LoopContext : Type := {
  loop_conversation : ConversationContext;
  loop_slots_total : Z;
}.

Section Loop.
Variable c : LoopContext.

Definition loop_parameters : InferenceParameters :=
  context_inference_parameters (scheduler_context (loop_conversation c)).

Definition loop_embedding_context : EmbeddingContext :=
  {| embedding_inference_parameters := loop_parameters; desired_slots_total := loop_slots_total c |}.

(** What the outside decides during a phase: the number a sampler is seeded
    with, whether a stop signal came with a request, and the clock. *)
Record TurnInput : Type := {
  turn_seed : Z;
  turn_stop_rx : StopSignal;
  turn_clock : nat -> Z * Z;
}.

(** ** Phases *)

Definition process_command (input : TurnInput) (command : ContinuousBatchSchedulerCommand)
    (l : LoopState) : LoopState :=
  match command with
  | ContinueFromConversationHistory tx params =>
      put_core
        (accept_conversation_history_request (loop_conversation c) (turn_seed input) params tx
           (turn_stop_rx input) (core l)) l
  | ContinueFromRawPrompt tx params =>
      put_core
        (accept_raw_prompt_request (scheduler_context (loop_conversation c)) (turn_seed input) params
           tx (turn_stop_rx input) (core l)) l
  | GenerateEmbeddingBatch id request =>
      put_pending (pending_embedding_requests l ++ [(id, request)]) l
  | Shutdown => stop_running l
  end.

Definition processing_of (s : Scheduler) : Processing :=
  {| processing_context := llama_context s; sent := [];
     processing_status := slot_aggregated_status s |}.

(** The request is dropped on every way out, with its slot guard. *)
Definition try_process_embedding_request (l : LoopState) : LoopState :=
  match pending_embedding_requests l with
  | [] => l
  | (id, request) :: rest =>
      let l := put_pending rest l in
      if has_active_requests (core l) then
        let '(y, _) :=
          embedding_send request EmbeddingRejectedDueToActiveTokenGeneration
            (processing_of (core l)) in
        put_answer id (sent y) (put_core (drop_request (core l)) l)
      else
        let '(y, _) :=
          process_embedding_batch loop_embedding_context request (processing_of (core l)) in
        put_answer id (sent y)
          (put_core (put_status (processing_status y) (put_context (processing_context y) (core l))) l)
  end.

(** The head of [while self.running]. *)
Definition loop_head (l : LoopState) : LoopState :=
  put_phase (if running l then AtCheckStop else AtShutDown) l.

(** The commands and requests that are dropped with the scheduler release
    their slots. *)
Definition command_guards (q : list ContinuousBatchSchedulerCommand) : nat :=
  length (List.filter (fun command => match command with Shutdown => false | _ => true end) q).

Definition drop_scheduler (l : LoopState) : LoopState :=
  let guards := (command_guards (command_rx l) + length (pending_embedding_requests l))%nat in
  put_phase Dropped
    (put_pending [] (put_commands [] (put_core (Nat.iter guards drop_request (core l)) (disconnect l)))).

(** One phase of the loop; a command taken from the channel is a phase. *)
Definition own_turn (input : TurnInput) (l : LoopState) : LoopState :=
  match loop_phase l with
  | AtCheckStop => put_phase AtRemove (put_core (check_stop_signals (core l)) l)
  | AtRemove =>
      match remove_completed_requests (core l) with
      | Some s => put_phase AtAccept (put_core s l)
      | None => l
      end
  | AtAccept =>
      match command_rx l with
      | command :: rest => process_command input command (put_commands rest l)
      | [] => put_phase AtEmbedding (if senders_alive l then l else stop_running l)
      end
  | AtEmbedding => put_phase AtExecute (try_process_embedding_request l)
  | AtExecute =>
      if has_active_requests (core l) then
        loop_head
          (put_core
             (fst (execute_one_iteration (Z.to_nat (n_batch loop_parameters)) (turn_clock input)
                     (core l))) l)
      else put_phase AtWait l
  | AtWait =>
      match command_rx l with
      | command :: rest => loop_head (process_command input command (put_commands rest l))
      | [] => loop_head (if senders_alive l then l else stop_running l)
      end
  | AtShutDown =>
      match active_requests (core l) with
      | [] => put_phase Returned l
      | _ :: _ => put_core (cleanup_completed_request 0 (core l)) l
      end
  | Returned => drop_scheduler l
  | Dropped => l
  end.

(** ** Steps *)

Definition submitted_channel (command : ContinuousBatchSchedulerCommand) : option nat :=
  match command with
  | ContinueFromConversationHistory tx _ | ContinueFromRawPrompt tx _ => Some tx
  | GenerateEmbeddingBatch _ _ | Shutdown => None
  end.

(** A command that is sent: a request for tokens comes with a new channel,
    and every request with a slot guard. *)
Definition deliver (command : ContinuousBatchSchedulerCommand) (l : LoopState) : LoopState :=
  let s := core l in
  put_commands (command_rx l ++ [command])
    (match command with
     | ContinueFromConversationHistory tx _ | ContinueFromRawPrompt tx _ =>
         put_core (put_channels (<[tx := chan_new]> (client_channels s))
                     (put_status (slot_guard_new (slot_aggregated_status s)) s)) l
     | GenerateEmbeddingBatch _ _ =>
         put_core (put_status (slot_guard_new (slot_aggregated_status s)) s) l
     | Shutdown => l
     end).

Inductive loop_step : LoopState -> LoopState -> Prop :=
| loop_own l input : loop_step l (own_turn input l)
| loop_deliver l command :
    senders_alive l = true ->
    (forall tx, submitted_channel command = Some tx -> client_channels (core l) !! tx = None) ->
    loop_step l (deliver command l)
| loop_hang_up l tx ch ch' :
    client_channels (core l) !! tx = Some ch ->
    chan_pending ch' = chan_pending ch -> chan_receiver_alive ch' = false ->
    loop_step l (put_core (put_channels (<[tx := ch']> (client_channels (core l))) (core l)) l)
| loop_stop_signal l index x :
    loop_step l
      (put_core
         (put_requests (alter (put_stop_signal x) index (active_requests (core l))) (core l)) l)
| loop_disconnect l : loop_step l (disconnect l).

End Loop.
End SchedulerLoop.
