(* ===== verification/SchedulerLoopFacts.v ===== *)
(** * What the loop of the scheduler guarantees

    Every phase is a step of [SchedulerSystem], or none: so the invariants of
    its reachable states hold whatever arrives between the phases.  The loop
    stops, and leaves nothing behind. *)

From S2P Require Import Prelude.
From S2P Require Import Tokio.
From S2P Require Import Messages.
From S2P Require Import AtomicValue.
From S2P Require Import Requests.
From S2P Require Import SlotStatus.
From S2P Require Import ToolCalls.
From S2P Require Import Llama.
From S2P Require Import Scheduler.
From S2P Require Import SchedulerCommands.
From S2P Require Import SchedulerBatch.
From S2P Require Import SchedulerStreams.
From S2P Require Import SchedulerLifecycle.
From S2P Require Import Images.
From S2P Require Import Conversation.
From S2P Require Import SchedulerSystem.
From S2P Require Import EmbeddingProcessor.
From S2P Require Import EmbeddingProcessorFacts.
From S2P Require Import SchedulerLoop.
Local Open Scope Z_scope.

Section SchedulerLoopFacts.
Context `{JsonTypes} `{LlamaTypes} `{!ToolCallBackend} `{!LlamaBackend} `{!MultimodalBackend}.
Context `{!EmbeddingBackend} `{!ImageBackend} `{!ChatTemplates}.
Context {chan : Type -> Type} `{!UnboundedChannel chan}.
Context {sender receiver : Type} `{!WatchChannel sender receiver}.

Notation Scheduler := (ContinuousBatchScheduler (chan := chan) (sender := sender)).
Notation System := (SchedulerSystem (chan := chan) (sender := sender)).
Notation LoopState := (LoopState (chan := chan) (sender := sender)).

Variable c : LoopContext.
Hypothesis Hn_batch : n_batch (loop_parameters c) <= i32_max.

(** ** The abstract state *)

Definition is_embedding_command (command : ContinuousBatchSchedulerCommand) : bool :=
  match command with GenerateEmbeddingBatch _ _ => true | _ => false end.

Definition queued_embeddings (q : list ContinuousBatchSchedulerCommand) : nat :=
  length (List.filter is_embedding_command q).

Definition system_of (l : LoopState) : System :=
  {| scheduler := core l;
     submissions := omap submitted_channel (command_rx l);
     waiting_embeddings :=
       (queued_embeddings (command_rx l) + length (pending_embedding_requests l))%nat |}.

Lemma queued_embeddings_snoc (q : list ContinuousBatchSchedulerCommand)
    (command : ContinuousBatchSchedulerCommand) :
  queued_embeddings (q ++ [command])
  = (queued_embeddings q + if is_embedding_command command then 1 else 0)%nat.
Proof.
  unfold queued_embeddings. rewrite List.filter_app, length_app. simpl.
  by destruct (is_embedding_command command).
Qed.

(** ** Each phase is a step *)

Lemma system_of_phase (p : LoopPhase) (l : LoopState) : system_of (put_phase p l) = system_of l.
Proof. done. Qed.

Lemma deliver_simulates (l : LoopState) (command : ContinuousBatchSchedulerCommand) :
  (forall tx, submitted_channel command = Some tx -> client_channels (core l) !! tx = None) ->
  rtc (scheduler_step) (system_of l) (system_of (deliver command l)).
Proof.
  intros Hfresh. unfold deliver, system_of. simpl. rewrite omap_app, queued_embeddings_snoc.
  destruct command as [tx params|tx params|id request|]; simpl.
  1, 2: rewrite Nat.add_0_r; apply rtc_once, (step_submit (system_of l)), Hfresh; reflexivity.
  - rewrite app_nil_r.
    replace (queued_embeddings (command_rx l) + 1 + length (pending_embedding_requests l))%nat
      with (S (queued_embeddings (command_rx l) + length (pending_embedding_requests l))) by lia.
    apply rtc_once, (step_submit_embedding (system_of l)).
  - rewrite app_nil_r, Nat.add_0_r. apply rtc_refl.
Qed.

Lemma process_command_simulates (input : TurnInput) (l : LoopState)
    (command : ContinuousBatchSchedulerCommand) (rest : list ContinuousBatchSchedulerCommand) :
  command_rx l = command :: rest ->
  rtc scheduler_step (system_of l) (system_of (process_command c input command (put_commands rest l))).
Proof.
  intros Hq. destruct command as [tx params|tx params|id request|]; unfold system_of; simpl;
    rewrite Hq; simpl.
  - apply rtc_once. unfold queued_embeddings. simpl.
    exact (step_conversation {| scheduler := core l; submissions := tx :: omap submitted_channel rest;
             waiting_embeddings := _ |} (loop_conversation c) (turn_seed input) params (turn_stop_rx input)).
  - apply rtc_once. unfold queued_embeddings. simpl.
    exact (step_raw {| scheduler := core l; submissions := tx :: omap submitted_channel rest;
             waiting_embeddings := _ |} (scheduler_context (loop_conversation c)) (turn_seed input) params
             (turn_stop_rx input)).
  - rewrite length_app. unfold queued_embeddings. simpl.
    rewrite (Nat.add_comm (length (pending_embedding_requests l)) 1), Nat.add_succ_r. apply rtc_refl.
  - apply rtc_refl.
Qed.

Lemma embedding_simulates (l : LoopState) :
  rtc scheduler_step (system_of l) (system_of (try_process_embedding_request c l)).
Proof.
  unfold try_process_embedding_request.
  destruct (pending_embedding_requests l) as [|[id request] rest] eqn:Hpending; [apply rtc_refl|].
  simpl. apply rtc_once. destruct (has_active_requests (core l)) eqn:Hactive.
  - destruct (embedding_send _ _ _) as [y r].
    pose proof (step_reject_embedding (system_of l)) as Hstep.
    unfold finish_embedding, system_of in Hstep. simpl in Hstep.
    rewrite Hpending in Hstep. simpl in Hstep. rewrite Nat.add_succ_r in Hstep.
    unfold system_of. simpl. rewrite Hpending. simpl. by rewrite Nat.add_succ_r.
  - pose proof (process_embedding_batch_status (loop_embedding_context c) request
                  (processing_of (core l))) as Hstatus.
    destruct (process_embedding_batch _ _ _) as [y r]. simpl in Hstatus.
    pose proof (step_embedding (system_of l) (processing_context y) Hactive) as Hstep.
    unfold finish_embedding, system_of in Hstep. simpl in Hstep.
    rewrite Hpending in Hstep. simpl in Hstep. rewrite Nat.add_succ_r in Hstep.
    unfold system_of. simpl. rewrite Hpending. simpl. rewrite Nat.add_succ_r, Hstatus. exact Hstep.
Qed.

(** Dropping the scheduler abandons what still waits. *)
Lemma abandon_all (s : Scheduler) (open : list nat) (waiting : nat) :
  rtc scheduler_step {| scheduler := s; submissions := open; waiting_embeddings := waiting |}
    {| scheduler := Nat.iter (length open + waiting) drop_request s; submissions := [];
       waiting_embeddings := 0 |}.
Proof.
  revert s. induction open as [|tx open IH]; intros s; simpl.
  - revert s. induction waiting as [|waiting IHw]; intros s; simpl; [apply rtc_refl|].
    rewrite <- Nat.iter_succ, Nat.iter_succ_r. eapply rtc_l; [apply step_reject_embedding|apply IHw].
  - rewrite <- Nat.iter_succ, Nat.iter_succ_r. eapply rtc_l; [apply step_abandon|apply IH].
Qed.

Lemma command_guards_split (q : list ContinuousBatchSchedulerCommand) :
  command_guards q = (length (omap submitted_channel q) + queued_embeddings q)%nat.
Proof.
  unfold command_guards, queued_embeddings. induction q as [|[] q IH]; csimpl; lia.
Qed.

Lemma drop_simulates (l : LoopState) :
  rtc scheduler_step (system_of l) (system_of (drop_scheduler l)).
Proof.
  unfold drop_scheduler, system_of. simpl. rewrite command_guards_split, <- Nat.add_assoc.
  apply abandon_all.
Qed.

Lemma loop_head_simulates (l l' : LoopState) :
  rtc scheduler_step (system_of l) (system_of l') ->
  rtc scheduler_step (system_of l) (system_of (loop_head l')).
Proof. done. Qed.

Lemma own_turn_simulates (input : TurnInput) (l : LoopState) :
  rtc scheduler_step (system_of l) (system_of (own_turn c input l)).
Proof.
  unfold own_turn. destruct (loop_phase l).
  - apply rtc_once, (step_check_stop (system_of l)).
  - destruct (remove_completed_requests (core l)) as [s|] eqn:Hremove; [|apply rtc_refl].
    by apply rtc_once, (step_remove (system_of l)).
  - destruct (command_rx l) as [|command rest] eqn:Hq.
    + destruct (senders_alive l); apply rtc_refl.
    + by apply process_command_simulates.
  - apply embedding_simulates.
  - destruct (has_active_requests (core l)); [|apply rtc_refl]. apply loop_head_simulates.
    apply rtc_once, (step_iterate (system_of l)). unfold i32_max in *. lia.
  - apply loop_head_simulates. destruct (command_rx l) as [|command rest] eqn:Hq.
    + destruct (senders_alive l); apply rtc_refl.
    + by apply process_command_simulates.
  - destruct (active_requests (core l)) as [|r rs] eqn:Hactive; [apply rtc_refl|].
    apply rtc_once, (step_shut_down (system_of l)). simpl. by rewrite Hactive.
  - apply drop_simulates.
  - apply rtc_refl.
Qed.

Lemma loop_step_simulates (l l' : LoopState) :
  loop_step c l l' -> rtc scheduler_step (system_of l) (system_of l').
Proof.
  intros [l0 input|l0 command Halive Hfresh|l0 tx ch ch' Hch Hpending Hdead|l0 index x|l0].
  - apply own_turn_simulates.
  - by apply deliver_simulates.
  - by eapply rtc_once, (step_hang_up (system_of l0)).
  - apply rtc_once, (step_stop_signal (system_of l0)).
  - apply rtc_refl.
Qed.

Lemma loop_reaches (l l' : LoopState) :
  rtc (loop_step c) l l' -> rtc scheduler_step (system_of l) (system_of l').
Proof.
  induction 1 as [|l1 l2 l3 Hstep _ IH]; [apply rtc_refl|].
  etrans; [by apply loop_step_simulates|done].
Qed.

(** ** The answers to batches of embeddings *)

Hypothesis Hslots : loop_slots_total c <= i32_max.

Definition answers_end_last (l : LoopState) : Prop :=
  map_Forall (fun _ answer => answer_ends_last answer) (embedding_answers l).

Lemma put_answer_ends (id : nat) (answer : list EmbeddingResult) (l : LoopState) :
  answer_ends_last answer -> answers_end_last l -> answers_end_last (put_answer id answer l).
Proof. intros Hanswer Hl. by apply map_Forall_insert_2. Qed.

Lemma try_process_answers (l : LoopState) :
  answers_end_last l -> answers_end_last (try_process_embedding_request c l).
Proof.
  intros Hl. unfold try_process_embedding_request.
  destruct (pending_embedding_requests l) as [|[id request] rest]; [done|]. simpl.
  destruct (has_active_requests (core l)).
  - destruct (embedding_send _ _ _) as [y r] eqn:Hsend. apply put_answer_ends; [|done].
    by eapply rejection_ends_last; [|exact Hsend].
  - destruct (process_embedding_batch _ _ _) as [y r] eqn:Hrun. apply put_answer_ends; [|done].
    by eapply processed_ends_last; [| |exact Hrun].
Qed.

Lemma process_command_answers (input : TurnInput) (command : ContinuousBatchSchedulerCommand)
    (l : LoopState) : embedding_answers (process_command c input command l) = embedding_answers l.
Proof. by destruct command. Qed.

Lemma own_turn_answers (input : TurnInput) (l : LoopState) :
  answers_end_last l -> answers_end_last (own_turn c input l).
Proof.
  intros Hl. unfold own_turn. destruct (loop_phase l); try done.
  - by destruct (remove_completed_requests (core l)).
  - destruct (command_rx l) as [|command rest].
    + by destruct (senders_alive l).
    + unfold answers_end_last. by rewrite process_command_answers.
  - by apply (try_process_answers l).
  - by destruct (has_active_requests (core l)).
  - destruct (command_rx l) as [|command rest].
    + by destruct (senders_alive l).
    + unfold answers_end_last. simpl. by rewrite process_command_answers.
  - by destruct (active_requests (core l)).
Qed.

Lemma loop_step_answers (l l' : LoopState) :
  answers_end_last l -> loop_step c l l' -> answers_end_last l'.
Proof.
  intros Hl Hstep. destruct Hstep as [l0 input|l0 command _ _|l0 tx ch ch' _ _ _|l0 index x|l0]; try done.
  - by apply own_turn_answers.
  - by destruct command.
Qed.

(** ** Stopping *)

(** Phases of the loop alone, each with what the outside decides. *)
Fixpoint own_turns (inputs : nat -> TurnInput) (n : nat) (l : LoopState) : LoopState :=
  match n with
  | O => l
  | S n' => own_turns (fun k => inputs (S k)) n' (own_turn c (inputs 0%nat) l)
  end.

Definition stopping (l : LoopState) : Prop := running l = false \/ senders_alive l = false.

(** Whatever the outside decides, the loop gets to such a state. *)
Definition gets_to (P : LoopState -> Prop) (l : LoopState) : Prop :=
  forall inputs, exists n, P (own_turns inputs n l).

Lemma gets_now (P : LoopState -> Prop) (l : LoopState) : P l -> gets_to P l.
Proof. intros HP inputs. by exists 0%nat. Qed.

Lemma gets_next (P : LoopState -> Prop) (l : LoopState) :
  (forall input, gets_to P (own_turn c input l)) -> gets_to P l.
Proof.
  intros Hnext inputs. destruct (Hnext (inputs 0%nat) (fun k => inputs (S k))) as [n Hn].
  by exists (S n).
Qed.

(** The loop has returned with nothing active. *)
Definition returned (l : LoopState) : Prop :=
  loop_phase l = Returned /\ active_requests (core l) = [].

Lemma shut_down_returns (l : LoopState) : loop_phase l = AtShutDown -> gets_to returned l.
Proof.
  remember (length (active_requests (core l))) as n eqn:Hn. revert l Hn.
  induction n as [n IH] using lt_wf_ind. intros l Hn Hphase. apply gets_next. intros input.
  unfold own_turn. rewrite Hphase. destruct (active_requests (core l)) as [|r rs] eqn:Hactive.
  { by apply gets_now. }
  eapply IH; [|reflexivity|exact Hphase]. simpl.
  destruct (cleanup_spec 0 r (core l)) as (Hp & _); [by rewrite Hactive|].
  apply Permutation_length in Hp. rewrite Hactive in Hp. simpl in *. lia.
Qed.

Lemma process_command_stays (input : TurnInput) (command : ContinuousBatchSchedulerCommand)
    (l : LoopState) :
  loop_phase (process_command c input command l) = loop_phase l /\
  command_rx (process_command c input command l) = command_rx l /\
  senders_alive (process_command c input command l) = senders_alive l /\
  (running l = false -> running (process_command c input command l) = false).
Proof. by destruct command. Qed.

Lemma process_command_stopping (input : TurnInput) (command : ContinuousBatchSchedulerCommand)
    (l : LoopState) : stopping l -> stopping (process_command c input command l).
Proof.
  destruct (process_command_stays input command l) as (_ & _ & Halive & Hrunning).
  intros [Hl|Hl]; [left; by apply Hrunning|right; by rewrite Halive].
Qed.

Lemma try_process_stays (l : LoopState) :
  running (try_process_embedding_request c l) = running l /\
  senders_alive (try_process_embedding_request c l) = senders_alive l.
Proof.
  unfold try_process_embedding_request.
  destruct (pending_embedding_requests l) as [|[id request] rest]; [done|]. simpl.
  by destruct (has_active_requests (core l)); [destruct (embedding_send _ _ _)
    |destruct (process_embedding_batch _ _ _)].
Qed.

(** The head of the loop, when the loop does not go on. *)
Lemma loop_head_returns (l : LoopState) : running l = false -> gets_to returned (loop_head l).
Proof. intros Hl. apply shut_down_returns. unfold loop_head. by rewrite Hl. Qed.

Lemma late_phases_return (l : LoopState) :
  running l = false ->
  loop_phase l = AtEmbedding \/ loop_phase l = AtExecute \/ loop_phase l = AtWait ->
  gets_to returned l.
Proof.
  assert (Hwait : forall l, running l = false -> loop_phase l = AtWait -> gets_to returned l).
  { intros l0 Hrunning Hphase. apply gets_next. intros input. unfold own_turn. rewrite Hphase.
    destruct (command_rx l0) as [|command rest].
    - apply loop_head_returns. by destruct (senders_alive l0).
    - apply loop_head_returns. by apply process_command_stays. }
  assert (Hexecute : forall l, running l = false -> loop_phase l = AtExecute -> gets_to returned l).
  { intros l0 Hrunning Hphase. apply gets_next. intros input. unfold own_turn. rewrite Hphase.
    destruct (has_active_requests (core l0)); [by apply loop_head_returns|by apply Hwait]. }
  intros Hrunning [Hphase|[Hphase|Hphase]]; [|by apply Hexecute|by apply Hwait].
  apply gets_next. intros input. unfold own_turn. rewrite Hphase.
  apply Hexecute; [|done]. simpl. by rewrite (proj1 (try_process_stays l)).
Qed.

Lemma accept_returns (l : LoopState) : stopping l -> loop_phase l = AtAccept -> gets_to returned l.
Proof.
  remember (command_rx l) as q eqn:Hq. revert l Hq.
  induction q as [|command q IH]; intros l Hq Hstop Hphase; apply gets_next; intros input;
    unfold own_turn; rewrite Hphase, <- Hq.
  - apply late_phases_return; [|by left]. destruct (senders_alive l) eqn:Halive; [|done].
    by destruct Hstop as [Hl|Hl]; [|rewrite Halive in Hl].
  - destruct (process_command_stays input command (put_commands q l)) as (Hp & Hc & _ & _).
    apply IH; [by rewrite Hc|by apply process_command_stopping|by rewrite Hp].
Qed.

Lemma early_phases_return (l : LoopState) :
  stopping l -> loop_phase l = AtCheckStop \/ loop_phase l = AtRemove -> gets_to returned l.
Proof.
  assert (Hremove : forall l, stopping l -> loop_phase l = AtRemove -> gets_to returned l).
  { intros l0 Hstop Hphase. apply gets_next. intros input. unfold own_turn. rewrite Hphase.
    destruct (remove_completed_loop_total (S (length (active_requests (core l0)))) 0 (core l0))
      as [s Hs]; [lia..|].
    unfold remove_completed_requests. rewrite Hs. by apply accept_returns. }
  intros Hstop [Hphase|Hphase]; [|by apply Hremove].
  apply gets_next. intros input. unfold own_turn. rewrite Hphase. by apply Hremove.
Qed.

Lemma loop_head_stopping (l : LoopState) : stopping l -> gets_to returned (loop_head l).
Proof.
  intros Hstop. unfold loop_head. destruct (running l).
  - by apply early_phases_return; [|left].
  - by apply shut_down_returns.
Qed.

Lemma stopping_returns (l : LoopState) :
  stopping l -> loop_phase l <> Returned -> loop_phase l <> Dropped -> gets_to returned l.
Proof.
  assert (Hwait : forall l, stopping l -> loop_phase l = AtWait -> gets_to returned l).
  { intros l0 Hstop Hphase. apply gets_next. intros input. unfold own_turn. rewrite Hphase.
    destruct (command_rx l0) as [|command rest]; apply loop_head_stopping.
    - by destruct (senders_alive l0); [|left].
    - by apply process_command_stopping. }
  assert (Hexecute : forall l, stopping l -> loop_phase l = AtExecute -> gets_to returned l).
  { intros l0 Hstop Hphase. apply gets_next. intros input. unfold own_turn. rewrite Hphase.
    destruct (has_active_requests (core l0)); [by apply loop_head_stopping|by apply Hwait]. }
  intros Hstop Hreturned Hdropped. destruct (loop_phase l) eqn:Hphase; try done.
  - apply early_phases_return; auto.
  - apply early_phases_return; auto.
  - by apply accept_returns.
  - apply gets_next. intros input. unfold own_turn. rewrite Hphase. apply Hexecute; [|done].
    destruct (try_process_stays l) as [Hr Ha]. unfold stopping. simpl. by rewrite Hr, Ha.
  - by apply Hexecute.
  - by apply Hwait.
  - by apply shut_down_returns.
Qed.

Lemma own_turns_reach (inputs : nat -> TurnInput) (n : nat) (l : LoopState) :
  rtc (loop_step c) l (own_turns inputs n l).
Proof.
  revert inputs l. induction n as [|n IH]; intros inputs l; simpl; [apply rtc_refl|].
  eapply rtc_l; [apply loop_own|apply IH].
Qed.

End SchedulerLoopFacts.

(** C31. The thread's loop is an implementation of the scheduler's transition
    system: whatever commands, disconnections and stop signals arrive between
    its phases, and in whatever order, the scheduler it leaves behind is one
    the system reaches, so that everything proved of those holds for the loop;
    and every batch of embeddings it answered has at most one result that ends
    its stream, the last. *)
Theorem loop_refines_system `{JsonTypes} `{LlamaTypes} `{!ToolCallBackend} `{!LlamaBackend}
    `{!MultimodalBackend} `{!EmbeddingBackend} `{!ImageBackend} `{!ChatTemplates}
    {chan : Type -> Type} `{!UnboundedChannel chan} {sender receiver : Type}
    `{!WatchChannel sender receiver} (c : LoopContext) (ctx : LlamaContext) (max_sequences : Z)
    (x : SlotAggregatedStatus sender) (l : LoopState (chan := chan) (sender := sender))
    (Hn_batch : n_batch (loop_parameters c) <= i32_max)
    (Hslots : loop_slots_total c <= i32_max)
    (Hreach : rtc (loop_step c) (loop_new (scheduler_new ctx max_sequences x)) l) :
  rtc scheduler_step (system_new ctx max_sequences x) (system_of l) /\
  map_Forall (fun _ answer => answer_ends_last answer) (embedding_answers l).
Proof.
  split; [by apply (loop_reaches c Hn_batch) in Hreach|].
  eapply (rtc_invariant _ answers_end_last); [exact Hreach|by apply map_Forall_empty|].
  intros l1 l2 Hl1 Hstep. by eapply loop_step_answers.
Qed.

(** C32. The loop stops: once it is told to shut down, or nobody is left who
    could send it a command, it returns after finitely many phases, whatever
    the model, the clock and the stop signals do; then no request is active,
    and all sequence ids are free again. *)
Theorem scheduler_loop_stops `{JsonTypes} `{LlamaTypes} `{!ToolCallBackend} `{!LlamaBackend}
    `{!MultimodalBackend} `{!EmbeddingBackend} `{!ImageBackend} `{!ChatTemplates}
    {chan : Type -> Type} `{!UnboundedChannel chan} {sender receiver : Type}
    `{!WatchChannel sender receiver} (c : LoopContext) (ctx : LlamaContext) (max_sequences : Z)
    (x : SlotAggregatedStatus sender) (l : LoopState (chan := chan) (sender := sender))
    (inputs : nat -> TurnInput)
    (Hn_batch : n_batch (loop_parameters c) <= i32_max) (Hx : slots_processing x = 0)
    (Hreach : rtc (loop_step c) (loop_new (scheduler_new ctx max_sequences x)) l)
    (Hstop : stopping l)
    (Hreturned : loop_phase l <> Returned) (Hdropped : loop_phase l <> Dropped) :
  exists n, loop_phase (own_turns c inputs n l) = Returned /\
            active_requests (core (own_turns c inputs n l)) = [] /\
            sequence_id_pool (core (own_turns c inputs n l)) ≡ₚ seqZ 0 max_sequences.
Proof.
  destruct (stopping_returns c l Hstop Hreturned Hdropped inputs) as (n & Hphase & Hactive).
  exists n. split_and!; [done|done|].
  assert (Hl : rtc (loop_step c) (loop_new (scheduler_new ctx max_sequences x)) (own_turns c inputs n l))
    by (etrans; [exact Hreach|apply own_turns_reach]).
  apply (loop_reaches c Hn_batch) in Hl.
  destruct (reachable_inv _ _ _ _ Hx Hl) as [[Hids _ _ _] _]. simpl in Hids.
  by rewrite Hactive in Hids.
Qed.

(** ** Witnesses

    A prompt and a batch of embeddings wait together: the prompt is accepted
    first, so the batch is refused; then the loop is told to stop. *)

Definition sample_loop_context : LoopContext :=
  {| loop_conversation :=
       {| scheduler_context :=
            {| agent_name := None;
               context_inference_parameters := embedding_inference_parameters sample_embedding_context;
               multimodal_context := Some tt |};
          chat_template_renderer := Some tt;
          token_bos_str := "<s>"; token_eos_str := "</s>"; token_nl_str := "." |};
     loop_slots_total := 2 |}.

Definition sample_loop_start : LoopState (chan := QueueChannel) (sender := nat) :=
  loop_new (scheduler_new example_llama 2 (status_new 0 2)).

Definition sample_loop_commands : LoopState (chan := QueueChannel) (sender := nat) :=
  deliver Shutdown
    (deliver (GenerateEmbeddingBatch 3 sample_batch_request)
       (deliver (ContinueFromRawPrompt 7 example_prompt) sample_loop_start)).

Definition sample_input : TurnInput :=
  {| turn_seed := 1; turn_stop_rx := StopEmpty; turn_clock := fun _ => (0, 0) |}.

Lemma sample_commands_reached :
  rtc (loop_step sample_loop_context) sample_loop_start sample_loop_commands.
Proof.
  unfold sample_loop_commands.
  eapply rtc_l; [apply (loop_deliver _ _ (ContinueFromRawPrompt 7 example_prompt));
    [reflexivity|intros tx _; apply lookup_empty]|].
  eapply rtc_l; [apply (loop_deliver _ _ (GenerateEmbeddingBatch 3 sample_batch_request));
    [reflexivity|done]|].
  apply rtc_once, (loop_deliver _ _ Shutdown); [reflexivity|done].
Qed.

Lemma sample_loop_reached (n : nat) :
  rtc (loop_step sample_loop_context) sample_loop_start
    (own_turns sample_loop_context (fun _ => sample_input) n sample_loop_commands).
Proof. etrans; [exact sample_commands_reached|apply own_turns_reach]. Qed.

Lemma loop_refines_system_witness :
  let l := own_turns sample_loop_context (fun _ => sample_input) 7 sample_loop_commands in
  embedding_answers l !! 3%nat = Some [EmbeddingRejectedDueToActiveTokenGeneration] /\
  map_Forall (fun _ answer => answer_ends_last answer) (embedding_answers l) /\
  rtc scheduler_step (system_new example_llama 2 (status_new 0 2)) (system_of l).
Proof.
  intros l. split; [vm_compute; reflexivity|].
  destruct (loop_refines_system sample_loop_context example_llama 2 (status_new 0 2) l) as [Hr Ha];
    [vm_compute; discriminate|vm_compute; discriminate|apply sample_loop_reached|].
  split; [exact Ha|exact Hr].
Defined.

Lemma scheduler_loop_stops_witness :
  let l := own_turns sample_loop_context (fun _ => sample_input) 5 sample_loop_commands in
  running l = false /\ active_requests (core l) <> [] /\
  exists n, loop_phase (own_turns sample_loop_context (fun _ => sample_input) n l) = Returned.
Proof.
  intros l. split; [vm_compute; reflexivity|]. split; [vm_compute; discriminate|].
  destruct (scheduler_loop_stops sample_loop_context example_llama 2 (status_new 0 2) l
              (fun _ => sample_input)) as (n & Hphase & _);
    [vm_compute; discriminate|reflexivity|apply sample_loop_reached|left; vm_compute; reflexivity
    |vm_compute; discriminate|vm_compute; discriminate|].
  exists n. exact Hphase.
Defined.
