(* ===== verification/GuiForms.v ===== *)
(** * The forms of the graphical interface

    [paddler_gui]: what the two forms hold, what their fields accept, and what
    confirming them asks the application to do.  Socket addresses are parsed
    and bound by the operating system's network, the class [Network]; numbers
    are parsed by [Numbers]. *)

From Stdlib Require Import Strings.Ascii.
From S2P Require Import Prelude.
From S2P Require Import Numbers.
From S2P Require Import Messages.
Local Open Scope Z_scope.

(** ** Addresses *)

(** What binding a listener to an address shows. *)
Inductive PortCheck : Type :=
| Available
| InUse
| BindFailed (error : string).

Section Forms.
Context `{Network}.

(** [check_port]: what binding shows at this moment. *)
Variable check_port : SocketAddr -> PortCheck.

Definition validate_optional_address (raw : string) : result (option SocketAddr) string :=
  if decide (raw = ""%string) then Ok None
  else
    match parse_socket_addr raw with
    | Err error => Err ("Invalid address (" +:+ error +:+ "), expected format: IP:port")
    | Ok addr =>
        match check_port addr with
        | Available => Ok (Some addr)
        | InUse => Err ("Port " +:+ display_port addr +:+ " is already in use")
        | BindFailed error => Err ("Cannot bind to " +:+ display_addr addr +:+ ": " +:+ error)
        end
    end.

Definition validate_required_address (raw : string) : result SocketAddr string :=
  let? addr := validate_optional_address raw in
  match addr with
  | Some addr => Ok addr
  | None => Err "Address is required."%string
  end.

(** ** Joining a balancer *)

Record JoinBalancerFormData : Type := {
  form_agent_name : string;
  join_address : string;
  join_address_error : option string;
  slots_count : string;
  slots_error : option string;
}.

Definition join_form_default : JoinBalancerFormData :=
  {| form_agent_name := ""; join_address := ""; join_address_error := None; slots_count := "";
     slots_error := None |}.

Inductive JoinMessage : Type :=
| SetAgentName (new_name : string)
| SetJoinAddress (address : string)
| SetSlotsCount (slots : string)
| Connect
| CancelJoin.

Inductive JoinAction : Type :=
| JoinNothing
| JoinCancelled
| ConnectAgent (connected_name : option string) (management_address : string) (slots : Z).

(** The two errors that connecting shows. *)
Definition put_join_errors (address_error slots_error_ : option string) (d : JoinBalancerFormData)
    : JoinBalancerFormData :=
  {| form_agent_name := form_agent_name d; join_address := join_address d;
     join_address_error := address_error; slots_count := slots_count d; slots_error := slots_error_ |}.

Definition check_join_address (address : string) : option string :=
  if decide (address = ""%string) then Some "Cluster address is required."%string
  else if negb (is_ok (parse_socket_addr address))
  then Some "Invalid address, expected format: IP:port"%string
  else None.

Definition check_slots (slots_count_ : string) : option Z * option string :=
  if decide (slots_count_ = ""%string) then (None, Some "Number of slots is required."%string)
  else
    match parse_i32 slots_count_ with
    | Ok slots =>
        if 0 <? slots then (Some slots, None)
        else (None, Some "Invalid number of slots (the number should be greater than zero)."%string)
    | Err PosOverflow => (None, Some "Number of slots is too large."%string)
    | Err (IntEmpty | InvalidDigit | NegOverflow) => (None, Some "Invalid number of slots."%string)
    end.

Definition validate_and_connect (d : JoinBalancerFormData) : JoinBalancerFormData * JoinAction :=
  let address_error := check_join_address (join_address d) in
  let '(slots, slots_error_) := check_slots (slots_count d) in
  let d := put_join_errors address_error slots_error_ d in
  match address_error, slots_error_, slots with
  | None, None, Some slots =>
      (d, ConnectAgent
            (if decide (form_agent_name d = ""%string) then None else Some (form_agent_name d))
            (join_address d) slots)
  | _, _, _ => (d, JoinNothing)
  end.

Definition join_update (message : JoinMessage) (d : JoinBalancerFormData)
    : JoinBalancerFormData * JoinAction :=
  match message with
  | SetAgentName new_name =>
      ({| form_agent_name := new_name; join_address := join_address d;
          join_address_error := join_address_error d; slots_count := slots_count d;
          slots_error := slots_error d |}, JoinNothing)
  | SetJoinAddress address =>
      ({| form_agent_name := form_agent_name d; join_address := address; join_address_error := None;
          slots_count := slots_count d; slots_error := slots_error d |}, JoinNothing)
  | SetSlotsCount slots =>
      if bool_decide (slots = ""%string) || all_digits slots then
        ({| form_agent_name := form_agent_name d; join_address := join_address d;
            join_address_error := join_address_error d; slots_count := slots;
            slots_error := None |}, JoinNothing)
      else (d, JoinNothing)
  | Connect => validate_and_connect d
  | CancelJoin => (d, JoinCancelled)
  end.

(** ** Starting a balancer *)

Record ModelPreset : Type := {
  display_name : string;
  preset_model : HuggingFaceModelReference;
  preset_multimodal_projection : option HuggingFaceModelReference;
  preset_inference_parameters : InferenceParameters;
}.

Definition to_balancer_desired_state (p : ModelPreset) : BalancerDesiredState :=
  {| balancer_chat_template_override := None;
     balancer_inference_parameters := preset_inference_parameters p;
     balancer_model := HuggingFace (preset_model p);
     balancer_multimodal_projection :=
       match preset_multimodal_projection p with
       | None => NoModel
       | Some reference => HuggingFace reference
       end;
     use_chat_template_override := false |}.

Record StartBalancerFormData : Type := {
  add_model_later : bool;
  balancer_address : string;
  balancer_address_error : option string;
  inference_address : string;
  inference_address_error : option string;
  model_error : option string;
  selected_model : option ModelPreset;
  starting : bool;
  web_admin_panel_address : string;
  web_admin_panel_address_error : option string;
  web_admin_panel_address_placeholder : string;
}.

Inductive StartMessage : Type :=
| SetBalancerAddress (address : string)
| SetInferenceAddress (address : string)
| SetWebAdminPanelAddress (address : string)
| SelectModel (preset : ModelPreset)
| ToggleAddModelLater (add_later : bool)
| Confirm
| CancelStart.

Inductive StartAction : Type :=
| StartNothing
| StartCancelled
| StartBalancer (management_addr inference_addr : SocketAddr)
    (web_admin_panel_addr : option SocketAddr) (desired_state : BalancerDesiredState).

(** The four errors that confirming shows, and whether it starts. *)
Definition put_start_errors (address_error inference_error web_error model_error_ : option string)
    (starting_ : bool) (d : StartBalancerFormData) : StartBalancerFormData :=
  {| add_model_later := add_model_later d; balancer_address := balancer_address d;
     balancer_address_error := address_error; inference_address := inference_address d;
     inference_address_error := inference_error; model_error := model_error_;
     selected_model := selected_model d; starting := starting_;
     web_admin_panel_address := web_admin_panel_address d;
     web_admin_panel_address_error := web_error;
     web_admin_panel_address_placeholder := web_admin_panel_address_placeholder d |}.

Definition error_of {A : Type} (r : result A string) : option string :=
  match r with Ok _ => None | Err message => Some message end.

Definition check_model (d : StartBalancerFormData) : option string :=
  match add_model_later d, selected_model d with
  | false, None => Some "Please select a model."%string
  | _, _ => None
  end.

Definition chosen_desired_state (d : StartBalancerFormData) : BalancerDesiredState :=
  if add_model_later d then balancer_desired_state_default
  else
    match selected_model d with
    | Some preset => to_balancer_desired_state preset
    | None => balancer_desired_state_default
    end.

Definition validate_and_confirm (d : StartBalancerFormData) : StartBalancerFormData * StartAction :=
  let model_error_ := check_model d in
  let management_addr := validate_required_address (balancer_address d) in
  let inference_addr := validate_required_address (inference_address d) in
  let web_admin_panel_addr := validate_optional_address (web_admin_panel_address d) in
  let put := put_start_errors (error_of management_addr) (error_of inference_addr)
               (error_of web_admin_panel_addr) model_error_ in
  match model_error_, management_addr, inference_addr, web_admin_panel_addr with
  | None, Ok management, Ok inference, Ok web =>
      (put true d, StartBalancer management inference web (chosen_desired_state d))
  | _, _, _, _ => (put (starting d) d, StartNothing)
  end.

Definition start_update (message : StartMessage) (d : StartBalancerFormData)
    : StartBalancerFormData * StartAction :=
  match message with
  | SelectModel preset =>
      ({| add_model_later := add_model_later d; balancer_address := balancer_address d;
          balancer_address_error := balancer_address_error d;
          inference_address := inference_address d;
          inference_address_error := inference_address_error d; model_error := None;
          selected_model := Some preset; starting := starting d;
          web_admin_panel_address := web_admin_panel_address d;
          web_admin_panel_address_error := web_admin_panel_address_error d;
          web_admin_panel_address_placeholder := web_admin_panel_address_placeholder d |},
       StartNothing)
  | SetBalancerAddress address =>
      ({| add_model_later := add_model_later d; balancer_address := address;
          balancer_address_error := None; inference_address := inference_address d;
          inference_address_error := inference_address_error d; model_error := model_error d;
          selected_model := selected_model d; starting := starting d;
          web_admin_panel_address := web_admin_panel_address d;
          web_admin_panel_address_error := web_admin_panel_address_error d;
          web_admin_panel_address_placeholder := web_admin_panel_address_placeholder d |},
       StartNothing)
  | SetInferenceAddress address =>
      ({| add_model_later := add_model_later d; balancer_address := balancer_address d;
          balancer_address_error := balancer_address_error d; inference_address := address;
          inference_address_error := None; model_error := model_error d;
          selected_model := selected_model d; starting := starting d;
          web_admin_panel_address := web_admin_panel_address d;
          web_admin_panel_address_error := web_admin_panel_address_error d;
          web_admin_panel_address_placeholder := web_admin_panel_address_placeholder d |},
       StartNothing)
  | SetWebAdminPanelAddress address =>
      ({| add_model_later := add_model_later d; balancer_address := balancer_address d;
          balancer_address_error := balancer_address_error d;
          inference_address := inference_address d;
          inference_address_error := inference_address_error d; model_error := model_error d;
          selected_model := selected_model d; starting := starting d;
          web_admin_panel_address := address; web_admin_panel_address_error := None;
          web_admin_panel_address_placeholder := web_admin_panel_address_placeholder d |},
       StartNothing)
  | ToggleAddModelLater add_later =>
      ({| add_model_later := add_later; balancer_address := balancer_address d;
          balancer_address_error := balancer_address_error d;
          inference_address := inference_address d;
          inference_address_error := inference_address_error d;
          model_error := if add_later then None else model_error d;
          selected_model := selected_model d; starting := starting d;
          web_admin_panel_address := web_admin_panel_address d;
          web_admin_panel_address_error := web_admin_panel_address_error d;
          web_admin_panel_address_placeholder := web_admin_panel_address_placeholder d |},
       StartNothing)
  | Confirm => validate_and_confirm d
  | CancelStart => (d, StartCancelled)
  end.

End Forms.

(** ** What the forms accept *)

Section FormFacts.
Context `{Network}.

(** A form after some messages. *)
Definition join_run (messages : list JoinMessage) (d : JoinBalancerFormData) : JoinBalancerFormData :=
  fold_left (fun d message => fst (join_update message d)) messages d.

Lemma join_update_digits (message : JoinMessage) (d : JoinBalancerFormData) :
  all_digits (slots_count d) = true -> all_digits (slots_count (fst (join_update message d))) = true.
Proof.
  intros Hd. destruct message as [new_name|address|slots| |]; simpl; try done.
  - destruct (bool_decide (slots = ""%string)) eqn:Hempty; simpl.
    + apply bool_decide_eq_true in Hempty. by subst slots.
    + by destruct (all_digits slots) eqn:Hslots.
  - unfold validate_and_connect. destruct (check_slots _) as [slots error].
    by destruct (check_join_address _), error, slots.
Qed.

Lemma join_run_digits (messages : list JoinMessage) :
  all_digits (slots_count (join_run messages join_form_default)) = true.
Proof.
  assert (Hstart : all_digits (slots_count join_form_default) = true) by done. revert Hstart.
  generalize join_form_default. induction messages as [|message messages IH]; intros d Hd; simpl; [done|].
  by apply IH, join_update_digits.
Qed.

(** What connecting says about the number of slots. *)
Definition slots_message (slots_count_ : string) : option string :=
  if decide (slots_count_ = ""%string) then Some "Number of slots is required."%string
  else if decimal_value slots_count_ 0 =? 0
  then Some "Invalid number of slots (the number should be greater than zero)."%string
  else if i32_max <? decimal_value slots_count_ 0 then Some "Number of slots is too large."%string
  else None.

Lemma check_slots_digits (s : string) :
  all_digits s = true ->
  check_slots s
  = (match slots_message s with None => Some (decimal_value s 0) | Some _ => None end, slots_message s).
Proof.
  intros Hdigits. unfold check_slots, slots_message. destruct (decide (s = ""%string)); [done|].
  rewrite parse_i32_digits by done. pose proof (decimal_value_grows s 0 ltac:(lia)) as Hpos.
  destruct (Z.leb_spec (decimal_value s 0) i32_max) as [Hin|Hover].
  - destruct (Z.ltb_spec 0 (decimal_value s 0)).
    + by rewrite (proj2 (Z.eqb_neq _ _)), (proj2 (Z.ltb_ge _ _)) by lia.
    + by rewrite (proj2 (Z.eqb_eq _ _)) by lia.
  - by rewrite (proj2 (Z.eqb_neq _ _)), (proj2 (Z.ltb_lt _ _)) by (unfold i32_max in *; lia).
Qed.

(** Connecting an agent is exactly as strict as it says, whatever was typed
    before: the agent connects when the address can be parsed and the digits of
    the slots field stand for a number from one to the largest [i32], and then
    with that number, that address, and the name if there is one; otherwise the
    form stays and shows, for each of the two fields, what is wrong with it and
    nothing else.  No other error of parsing a number can happen. *)
Theorem join_form_connects (messages : list JoinMessage) :
  let d := join_run messages join_form_default in
  let '(d', action) := join_update Connect d in
  join_address_error d' = check_join_address (join_address d) /\
  slots_error d' = slots_message (slots_count d) /\
  action
  = match check_join_address (join_address d), slots_message (slots_count d) with
    | None, None =>
        ConnectAgent
          (if decide (form_agent_name d = ""%string) then None else Some (form_agent_name d))
          (join_address d) (decimal_value (slots_count d) 0)
    | _, _ => JoinNothing
    end /\
  (forall agent address slots, action = ConnectAgent agent address slots -> 1 <= slots <= i32_max).
Proof.
  intros d. pose proof (join_run_digits messages) as Hdigits. fold d in Hdigits.
  simpl. unfold validate_and_connect. rewrite check_slots_digits by done.
  destruct (check_join_address _) as [address_error|], (slots_message _) as [slots_error_|] eqn:Hslots;
    simpl; split_and!; try done.
  intros agent address slots [= <- <- <-].
  unfold slots_message in Hslots. destruct (decide (slots_count d = ""%string)); [done|].
  pose proof (decimal_value_grows (slots_count d) 0 ltac:(lia)).
  destruct (Z.eqb_spec (decimal_value (slots_count d) 0) 0); [done|].
  destruct (Z.ltb_spec i32_max (decimal_value (slots_count d) 0)); [done|]. lia.
Qed.

(** Confirming starts a balancer exactly when every field is acceptable; else
    it shows the errors of the fields that are not. *)
Lemma start_form_confirms (check_port : SocketAddr -> PortCheck) (d : StartBalancerFormData) :
  let '(d', action) := start_update check_port Confirm d in
  balancer_address_error d' = error_of (validate_required_address check_port (balancer_address d)) /\
  inference_address_error d' = error_of (validate_required_address check_port (inference_address d)) /\
  web_admin_panel_address_error d'
  = error_of (validate_optional_address check_port (web_admin_panel_address d)) /\
  model_error d' = check_model d /\
  (action = StartNothing <->
   is_Some (balancer_address_error d') \/ is_Some (inference_address_error d') \/
   is_Some (web_admin_panel_address_error d') \/ is_Some (model_error d')).
Proof.
  simpl. unfold validate_and_confirm.
  destruct (check_model d) as [e|], (validate_required_address _ (balancer_address d)) as [m|e1],
    (validate_required_address _ (inference_address d)) as [i|e2],
    (validate_optional_address _ _) as [w|e3]; simpl; split_and!; try done; split; try done; eauto 6.
  intros [[? [=]]|[[? [=]]|[[? [=]]|[? [=]]]]].
Qed.

End FormFacts.
