(* ===== verification/GuiApp.v ===== *)
(** * The graphical interface

    [app.rs], [screen.rs] and the handlers of [paddler_gui]: the screens and
    the transitions between them, [update] with every pair of screen and
    message, and the tasks it starts.  A task that runs an agent or a balancer
    is a runner that sends messages to the application as its code does; the
    messages wait in one queue with those of the user.

    A cancellation token is one of the class [CancellationTokens]; what starts
    a balancer or an agent is in [paddler_bootstrap]. *)

From S2P Require Import Prelude.
From S2P Require Import Numbers.
From S2P Require Import Tokio.
From S2P Require Import Messages.
From S2P Require Import AgentIssues.
From S2P Require Import TokenThroughput.
From S2P Require Import SlotStatus.
From S2P Require Import AgentController.
From S2P Require Import DesiredState.
From S2P Require Import GuiForms.
Local Open Scope Z_scope.

(** ** Screens *)

Record HomeData : Type := { error : option string }.

Record AgentRunningData : Type := {
  running_address : string;
  connected : bool;
  agent_snapshot : ControllerSnapshot.AgentControllerSnapshot;
}.

(** [RunningBalancerSnapshot::build] sorts the agents by the name they show. *)
Record RunningBalancerSnapshot : Type := {
  agent_snapshots : list ControllerSnapshot.AgentControllerSnapshot;
  snapshot_applicable_state : option BalancerApplicableState;
  snapshot_desired_state : BalancerDesiredState;
}.

Definition running_balancer_snapshot_default : RunningBalancerSnapshot :=
  {| agent_snapshots := []; snapshot_applicable_state := None;
     snapshot_desired_state := balancer_desired_state_default |}.

Record RunningBalancerData : Type := {
  running_balancer_address : string;
  balancer_snapshot : RunningBalancerSnapshot;
  stopping : bool;
  running_web_admin_panel_address : option string;
}.

Inductive CurrentScreen : Type :=
| AgentRunning (state_data : AgentRunningData)
| Home (state_data : HomeData)
| JoinBalancerForm (state_data : JoinBalancerFormData)
| StartBalancerForm (state_data : StartBalancerFormData)
| RunningBalancer (state_data : RunningBalancerData).

Definition current_screen_default : CurrentScreen := Home {| error := None |}.

(** The transitions of [screen.rs]. *)

Definition home_start_balancer (suggested_address : string) : StartBalancerFormData :=
  {| add_model_later := false; balancer_address := suggested_address +:+ ":8060";
     balancer_address_error := None; inference_address := suggested_address +:+ ":8061";
     inference_address_error := None; model_error := None; selected_model := None;
     starting := false; web_admin_panel_address := ""; web_admin_panel_address_error := None;
     web_admin_panel_address_placeholder := suggested_address +:+ ":8062" |}.

Definition join_connect (form_data : JoinBalancerFormData) : AgentRunningData :=
  {| running_address := join_address form_data;
     connected := false;
     agent_snapshot :=
       {| ControllerSnapshot.desired_slots_total := 0;
          ControllerSnapshot.download_current := 0;
          ControllerSnapshot.download_filename := None;
          ControllerSnapshot.download_indeterminate := true;
          ControllerSnapshot.download_total := 0;
          ControllerSnapshot.id := "";
          ControllerSnapshot.issues := ∅;
          ControllerSnapshot.model_path := None;
          ControllerSnapshot.name :=
            if decide (form_agent_name form_data = ""%string) then None
            else Some (form_agent_name form_data);
          ControllerSnapshot.slots_processing := 0;
          ControllerSnapshot.slots_total := 0;
          ControllerSnapshot.state_application_status := Fresh;
          ControllerSnapshot.tokens_per_second := f64_zero;
          ControllerSnapshot.uses_chat_template_override := false |} |}.

Definition form_balancer_started (form_data : StartBalancerFormData) : RunningBalancerData :=
  {| running_balancer_address := balancer_address form_data;
     balancer_snapshot := running_balancer_snapshot_default;
     stopping := false;
     running_web_admin_panel_address :=
       if decide (web_admin_panel_address form_data = ""%string) then None
       else Some (web_admin_panel_address form_data) |}.

(** ** Handlers of the running screens *)

Definition apply_status (status : Snapshot.SlotAggregatedStatusSnapshot) (d : AgentRunningData)
    : AgentRunningData :=
  {| running_address := running_address d;
     connected := true;
     agent_snapshot :=
       {| ControllerSnapshot.desired_slots_total := Snapshot.desired_slots_total status;
          ControllerSnapshot.download_current := Snapshot.download_current status;
          ControllerSnapshot.download_filename := Snapshot.download_filename status;
          ControllerSnapshot.download_indeterminate := Snapshot.download_indeterminate status;
          ControllerSnapshot.download_total := Snapshot.download_total status;
          ControllerSnapshot.id := "";
          ControllerSnapshot.issues := Snapshot.issues status;
          ControllerSnapshot.model_path := Snapshot.model_path status;
          ControllerSnapshot.name := ControllerSnapshot.name (agent_snapshot d);
          ControllerSnapshot.slots_processing := Snapshot.slots_processing status;
          ControllerSnapshot.slots_total := Snapshot.slots_total status;
          ControllerSnapshot.state_application_status := Snapshot.state_application_status status;
          ControllerSnapshot.tokens_per_second := Snapshot.tokens_per_second status;
          ControllerSnapshot.uses_chat_template_override :=
            Snapshot.uses_chat_template_override status |} |}.

Inductive AgentMessage : Type :=
| AgentStatusUpdated (status : Snapshot.SlotAggregatedStatusSnapshot)
| Disconnect.

Inductive BalancerMessage : Type :=
| SnapshotUpdated (new_snapshot : RunningBalancerSnapshot)
| Stop
| CopyToClipboard (content : string)
| OpenUrl (link : string).

Inductive HomeMessage : Type :=
| HomeStartBalancer
| HomeJoinBalancer.

Inductive Message : Type :=
| HomeMsg (msg : HomeMessage)
| StartBalancerFormMsg (msg : StartMessage)
| JoinBalancerFormMsg (msg : JoinMessage)
| RunningBalancerMsg (msg : BalancerMessage)
| AgentRunningMsg (msg : AgentMessage)
| BalancerStarted
| BalancerStopped
| BalancerFailed (reason : string)
| AgentStopped
| AgentFailed (reason : string)
| IcedEventLoopReady
| Quit
| TabPressed (shift : bool).

Section GuiApp.
Context `{Network}.
Context {registry token : Type} `{!CancellationTokens registry token}.

(** ** Tasks *)

Record AgentRunnerParams : Type := {
  runner_agent_name : option string;
  runner_management_address : string;
  runner_slots : Z;
}.

(** The parameters that depend on the form; [buffered_request_timeout] is in
    seconds. *)
Record BalancerRunnerParams : Type := {
  buffered_request_timeout : Z;
  max_buffered_requests : Z;
  inference_item_timeout : Z;
  inference_service_addr : SocketAddr;
  management_service_addr : SocketAddr;
  web_admin_panel_service_addr : option SocketAddr;
  memory_database : BalancerDesiredState;
  statsd_prefix : string;
}.

Inductive Task : Type :=
| TaskNone
| TaskDone (message : Message)
| TaskExit
| TaskFocusPrevious
| TaskFocusNext
| TaskWriteClipboard (content : string)
| TaskOpenUrl (link : string)
| TaskStreamAgent (params : AgentRunnerParams) (cancel : token)
| TaskStreamBalancer (params : BalancerRunnerParams) (cancel : token).

(** ** The application *)

Record App : Type := {
  agent_cancel : option token;
  shutdown : token;
  balancer_cancel : option token;
  screen : CurrentScreen;
}.

Definition app_new (shutdown_ : token) : App * Task :=
  ({| agent_cancel := None; shutdown := shutdown_; balancer_cancel := None;
      screen := current_screen_default |}, TaskDone IcedEventLoopReady).

Definition put_screen (s : CurrentScreen) (a : App) : App :=
  {| agent_cancel := agent_cancel a; shutdown := shutdown a; balancer_cancel := balancer_cancel a;
     screen := s |}.

Definition put_agent_cancel (x : option token) (a : App) : App :=
  {| agent_cancel := x; shutdown := shutdown a; balancer_cancel := balancer_cancel a;
     screen := screen a |}.

Definition put_balancer_cancel (x : option token) (a : App) : App :=
  {| agent_cancel := agent_cancel a; shutdown := shutdown a; balancer_cancel := x;
     screen := screen a |}.

(** [if let Some(cancel) = ... { cancel.cancel(); }] *)
Definition cancel_if_some (x : option token) (g : registry) : registry :=
  match x with Some cancel => token_cancel g cancel | None => g end.

Definition spawn_agent (state_data : AgentRunningData) (name : option string)
    (management_address : string) (slots : Z) (g : registry) (a : App) : registry * App * Task :=
  let '(g, cancel) := token_child g (shutdown a) in
  (g, put_screen (AgentRunning state_data) (put_agent_cancel (Some cancel) a),
   TaskStreamAgent
     {| runner_agent_name := name; runner_management_address := management_address;
        runner_slots := slots |} cancel).

Definition spawn_balancer (management_addr inference_addr : SocketAddr)
    (web_admin_panel_addr : option SocketAddr) (desired_state : BalancerDesiredState)
    (g : registry) (a : App) : registry * App * Task :=
  let '(g, cancel) := token_child g (shutdown a) in
  (g, put_balancer_cancel (Some cancel) a,
   TaskStreamBalancer
     {| buffered_request_timeout := 10;
        max_buffered_requests := 30;
        inference_item_timeout := 30;
        inference_service_addr := inference_addr;
        management_service_addr := management_addr;
        web_admin_panel_service_addr := web_admin_panel_addr;
        memory_database := desired_state;
        statsd_prefix := "paddler_" |} cancel).

(** What the machine shows at this moment. *)
Record Surroundings : Type := {
  suggested_address : string;
  check_port : SocketAddr -> PortCheck;
}.

Definition update_home (env : Surroundings) (msg : HomeMessage) (a : App) : App :=
  match msg with
  | HomeStartBalancer =>
      put_screen (StartBalancerForm (home_start_balancer (suggested_address env))) a
  | HomeJoinBalancer => put_screen (JoinBalancerForm join_form_default) a
  end.

Definition update_join_form (form : JoinBalancerFormData) (msg : JoinMessage) (g : registry)
    (a : App) : registry * App * Task :=
  match join_update msg form with
  | (form, JoinNothing) => (g, put_screen (JoinBalancerForm form) a, TaskNone)
  | (_, JoinCancelled) => (g, put_screen (Home {| error := None |}) a, TaskNone)
  | (form, ConnectAgent name management_address slots) =>
      spawn_agent (join_connect form) name management_address slots g a
  end.

Definition update_start_form (env : Surroundings) (form : StartBalancerFormData)
    (msg : StartMessage) (g : registry) (a : App) : registry * App * Task :=
  match start_update (check_port env) msg form with
  | (form, StartNothing) => (g, put_screen (StartBalancerForm form) a, TaskNone)
  | (_, StartCancelled) =>
      (cancel_if_some (balancer_cancel a) g, put_screen (Home {| error := None |}) a, TaskNone)
  | (form, StartBalancer management_addr inference_addr web_admin_panel_addr desired_state) =>
      spawn_balancer management_addr inference_addr web_admin_panel_addr desired_state g
        (put_screen (StartBalancerForm form) a)
  end.

Definition update_running_balancer (running : RunningBalancerData) (msg : BalancerMessage)
    (g : registry) (a : App) : registry * App * Task :=
  match msg with
  | SnapshotUpdated new_snapshot =>
      (g, put_screen
            (RunningBalancer
               {| running_balancer_address := running_balancer_address running;
                  balancer_snapshot := new_snapshot; stopping := stopping running;
                  running_web_admin_panel_address := running_web_admin_panel_address running |}) a,
       TaskNone)
  | Stop =>
      (cancel_if_some (balancer_cancel a) g,
       put_screen
         (RunningBalancer
            {| running_balancer_address := running_balancer_address running;
               balancer_snapshot := balancer_snapshot running; stopping := true;
               running_web_admin_panel_address := running_web_admin_panel_address running |}) a,
       TaskNone)
  | CopyToClipboard content => (g, put_screen (RunningBalancer running) a, TaskWriteClipboard content)
  | OpenUrl link => (g, put_screen (RunningBalancer running) a, TaskOpenUrl link)
  end.

Definition update_agent_running (running : AgentRunningData) (msg : AgentMessage) (g : registry)
    (a : App) : registry * App * Task :=
  match msg with
  | AgentStatusUpdated status =>
      (g, put_screen (AgentRunning (apply_status status running)) a, TaskNone)
  | Disconnect =>
      (cancel_if_some (agent_cancel a) g, put_screen (Home {| error := None |}) a, TaskNone)
  end.

(** The screen is taken out of the application first, which leaves the default
    one. *)
Definition update (env : Surroundings) (message : Message) (g : registry) (a : App)
    : registry * App * Task :=
  let taken := screen a in
  let a := put_screen current_screen_default a in
  match taken, message with
  | _, IcedEventLoopReady => (g, put_screen taken a, TaskNone)
  | _, Quit =>
      (token_cancel g (shutdown a), put_agent_cancel None (put_balancer_cancel None a), TaskExit)
  | Home _, HomeMsg msg => (g, update_home env msg a, TaskNone)
  | JoinBalancerForm form, JoinBalancerFormMsg msg => update_join_form form msg g a
  | StartBalancerForm form, StartBalancerFormMsg msg => update_start_form env form msg g a
  | StartBalancerForm form, BalancerStarted =>
      (g, put_screen (RunningBalancer (form_balancer_started form)) a, TaskNone)
  | StartBalancerForm _, BalancerFailed reason =>
      (g, put_screen (Home {| error := Some reason |}) (put_balancer_cancel None a), TaskNone)
  | RunningBalancer running, RunningBalancerMsg msg => update_running_balancer running msg g a
  | RunningBalancer _, BalancerStopped =>
      (g, put_screen (Home {| error := None |}) (put_balancer_cancel None a), TaskNone)
  | RunningBalancer _, BalancerFailed reason =>
      (g, put_screen (Home {| error := Some reason |}) (put_balancer_cancel None a), TaskNone)
  | AgentRunning running, AgentRunningMsg msg => update_agent_running running msg g a
  | AgentRunning _, AgentStopped =>
      (g, put_screen (Home {| error := None |}) (put_agent_cancel None a), TaskNone)
  | AgentRunning _, AgentFailed reason =>
      (g, put_screen (Home {| error := Some reason |}) (put_agent_cancel None a), TaskNone)
  | _, TabPressed shift =>
      (g, put_screen taken a, if shift then TaskFocusPrevious else TaskFocusNext)
  | _, _ => (g, put_screen taken a, TaskNone)
  end.

(** ** Runners

    The streams of [spawn_agent] and [spawn_balancer]. *)

Inductive RunnerKind : Type := AgentKind | BalancerKind.

(** A balancer starts first; an agent runs at once. *)
Inductive RunnerPhase : Type := RunnerStarting | RunnerRunning | RunnerFinished.

Record Runner : Type := {
  runner_kind : RunnerKind;
  runner_token : token;
  runner_phase : RunnerPhase;
}.

Definition put_runner_phase (p : RunnerPhase) (r : Runner) : Runner :=
  {| runner_kind := runner_kind r; runner_token := runner_token r; runner_phase := p |}.

(** A message a runner sends, and the phase it is in afterwards. *)
Inductive runner_sends : Runner -> Message -> RunnerPhase -> Prop :=
| agent_sends_status r status :
    runner_kind r = AgentKind -> runner_phase r = RunnerRunning ->
    runner_sends r (AgentRunningMsg (AgentStatusUpdated status)) RunnerRunning
| agent_sends_stopped r :
    runner_kind r = AgentKind -> runner_phase r = RunnerRunning ->
    runner_sends r AgentStopped RunnerFinished
| agent_sends_failed r reason :
    runner_kind r = AgentKind -> runner_phase r = RunnerRunning ->
    runner_sends r (AgentFailed reason) RunnerFinished
| balancer_sends_started r :
    runner_kind r = BalancerKind -> runner_phase r = RunnerStarting ->
    runner_sends r BalancerStarted RunnerRunning
| balancer_start_failed r reason :
    runner_kind r = BalancerKind -> runner_phase r = RunnerStarting ->
    runner_sends r (BalancerFailed reason) RunnerFinished
| balancer_sends_snapshot r new_snapshot :
    runner_kind r = BalancerKind -> runner_phase r = RunnerRunning ->
    runner_sends r (RunningBalancerMsg (SnapshotUpdated new_snapshot)) RunnerRunning
| balancer_sends_stopped r :
    runner_kind r = BalancerKind -> runner_phase r = RunnerRunning ->
    runner_sends r BalancerStopped RunnerFinished
| balancer_sends_failed r reason :
    runner_kind r = BalancerKind -> runner_phase r = RunnerRunning ->
    runner_sends r (BalancerFailed reason) RunnerFinished.

(** The messages the windows and the signals produce. *)
Definition from_user (message : Message) : bool :=
  match message with
  | HomeMsg _ | StartBalancerFormMsg _ | JoinBalancerFormMsg _ | AgentRunningMsg Disconnect
  | RunningBalancerMsg (Stop | CopyToClipboard _ | OpenUrl _) | IcedEventLoopReady | Quit
  | TabPressed _ => true
  | RunningBalancerMsg (SnapshotUpdated _) | AgentRunningMsg (AgentStatusUpdated _)
  | BalancerStarted | BalancerStopped | BalancerFailed _ | AgentStopped | AgentFailed _ => false
  end.

Record Gui : Type := {
  app : App;
  tokens_ : registry;
  runners : list Runner;
  queue : list Message;
}.

Definition gui_new (g : registry) (shutdown_ : token) : Gui :=
  {| app := fst (app_new shutdown_); tokens_ := g; runners := []; queue := [IcedEventLoopReady] |}.

(** The runtime starts the stream of a task. *)
Definition task_runner (task : Task) : list Runner :=
  match task with
  | TaskStreamAgent _ cancel =>
      [{| runner_kind := AgentKind; runner_token := cancel; runner_phase := RunnerRunning |}]
  | TaskStreamBalancer _ cancel =>
      [{| runner_kind := BalancerKind; runner_token := cancel; runner_phase := RunnerStarting |}]
  | _ => []
  end.

Definition gui_deliver (env : Surroundings) (message : Message) (rest : list Message) (y : Gui) : Gui :=
  let '(g, a, task) := update env message (tokens_ y) (app y) in
  {| app := a; tokens_ := g; runners := runners y ++ task_runner task; queue := rest |}.

Definition gui_send (message : Message) (y : Gui) : Gui :=
  {| app := app y; tokens_ := tokens_ y; runners := runners y; queue := queue y ++ [message] |}.

Definition gui_runner (i : nat) (p : RunnerPhase) (y : Gui) : Gui :=
  {| app := app y; tokens_ := tokens_ y;
     runners := alter (put_runner_phase p) i (runners y); queue := queue y |}.

(** Messages are delivered one after the other; a runner that cannot go on
    ends without a word. *)
Inductive gui_step : Gui -> Gui -> Prop :=
| step_user y message : from_user message = true -> gui_step y (gui_send message y)
| step_update env y message rest :
    queue y = message :: rest -> gui_step y (gui_deliver env message rest y)
| step_runner y i r message p :
    runners y !! i = Some r -> runner_sends r message p ->
    gui_step y (gui_send message (gui_runner i p y))
| step_runner_ends y i r :
    runners y !! i = Some r -> gui_step y (gui_runner i RunnerFinished y).

End GuiApp.
