(* ===== verification/GuiAppFacts.v ===== *)
(** * What the graphical interface guarantees, and what it does not

    Quitting cancels every agent and balancer that was ever started.  Every
    message does what it is for, on the screens it is for, and disconnecting
    stops the agent that is shown.  But the messages of a runner do not say
    which runner they are from: those of one that was left can take the
    application away from the one that runs. *)

From S2P Require Import Prelude.
From S2P Require Import Numbers.
From S2P Require Import Tokio.
From S2P Require Import Messages.
From S2P Require Import AgentIssues.
From S2P Require Import TokenThroughput.
From S2P Require Import SlotStatus.
From S2P Require Import AgentController.
From S2P Require Import DesiredState.
From S2P Require Import GuiForms.
From S2P Require Import GuiApp.
Local Open Scope Z_scope.

Section GuiAppFacts.
Context `{Network}.
Context {registry token : Type} `{!CancellationTokens registry token}.

Notation App := (App (token := token)).
Notation Gui := (Gui (registry := registry) (token := token)).
Notation Runner := (Runner (token := token)).

(** ** What an update does to the tokens *)

(** The tokens the application has. *)
Definition held (a : App) (t : token) : Prop :=
  t = shutdown a \/ agent_cancel a = Some t \/ balancer_cancel a = Some t.

Inductive token_effect (g : registry) (a : App) : registry -> App -> list Runner -> Prop :=
| effect_none a' :
    (forall t, held a' t -> held a t) -> token_effect g a g a' []
| effect_cancel a' t :
    held a t -> (forall u, held a' u -> held a u) -> token_effect g a (token_cancel g t) a' []
| effect_spawn a' g' r :
    token_child g (shutdown a) = (g', runner_token r) ->
    (forall t, held a' t -> held a t \/ t = runner_token r) -> token_effect g a g' a' [r].

Ltac solve_held :=
  let t := fresh in let Ht := fresh in
  intros t [Ht|[Ht|Ht]]; unfold held; simpl in *; solve [auto | discriminate Ht].

Lemma cancel_if_some_effect (x : option token) (g : registry) (a a' : App) :
  (forall t, x = Some t -> held a t) -> (forall t, held a' t -> held a t) ->
  token_effect g a (cancel_if_some x g) a' [].
Proof.
  intros Hx Ha. destruct x as [t|]; simpl; [|by constructor].
  by constructor; [apply Hx|].
Qed.

Lemma spawn_agent_effect (state_data : AgentRunningData) (name : option string)
    (management_address : string) (slots : Z) (g g' : registry) (a0 a a' : App) (task : Task) :
  (forall t, held a t -> held a0 t) -> shutdown a = shutdown a0 ->
  spawn_agent state_data name management_address slots g a = (g', a', task) ->
  token_effect g a0 g' a' (task_runner task) /\ shutdown a' = shutdown a0.
Proof.
  unfold spawn_agent. intros Hheld Hshut. destruct (token_child g (shutdown a)) as [g1 cancel] eqn:Hc.
  intros [= <- <- <-]. simpl. split; [|done]. rewrite Hshut in Hc. constructor; [exact Hc|].
  intros t [Ht|[Ht|Ht]]; simpl in Ht.
  - left. left. by rewrite Ht.
  - right. by injection Ht.
  - left. apply Hheld. right. by right.
Qed.

Lemma spawn_balancer_effect (management_addr inference_addr : SocketAddr)
    (web : option SocketAddr) (desired : BalancerDesiredState) (g g' : registry) (a0 a a' : App)
    (task : Task) :
  (forall t, held a t -> held a0 t) -> shutdown a = shutdown a0 ->
  spawn_balancer management_addr inference_addr web desired g a = (g', a', task) ->
  token_effect g a0 g' a' (task_runner task) /\ shutdown a' = shutdown a0.
Proof.
  unfold spawn_balancer. intros Hheld Hshut. destruct (token_child g (shutdown a)) as [g1 cancel] eqn:Hc.
  intros [= <- <- <-]. simpl. split; [|done]. rewrite Hshut in Hc. constructor; [exact Hc|].
  intros t [Ht|[Ht|Ht]]; simpl in Ht.
  - left. left. by rewrite Ht.
  - left. apply Hheld. right. by left.
  - right. by injection Ht.
Qed.

Ltac finish_effect :=
  intros [= <- <- <-]; split; [|done];
  first [apply effect_none; solve_held
        |apply effect_cancel; [by left|solve_held]
        |apply cancel_if_some_effect; [done|solve_held]].

Lemma update_effect (env : Surroundings) (message : Message) (g g' : registry) (a a' : App)
    (task : Task) :
  update env message g a = (g', a', task) ->
  token_effect g a g' a' (task_runner task) /\ shutdown a' = shutdown a.
Proof.
  assert (Hagent : forall t, agent_cancel a = Some t -> held a t) by (unfold held; auto).
  assert (Hbalancer : forall t, balancer_cancel a = Some t -> held a t) by (unfold held; auto).
  unfold update. destruct (screen a) as [running|home|form|form|running], message; simpl.
  all: try solve [finish_effect]. all: try solve [destruct shift; finish_effect].
  - destruct msg; simpl; finish_effect.
  - destruct msg; simpl; finish_effect.
  - unfold update_join_form. destruct (join_update msg form) as [d []]; simpl; [finish_effect..|].
    apply spawn_agent_effect; [solve_held|done].
  - unfold update_start_form. destruct (start_update _ msg form) as [d []]; simpl; [finish_effect..|].
    apply spawn_balancer_effect; [solve_held|done].
  - destruct msg; simpl; finish_effect.
Qed.

(** ** Quitting *)

(** Every token is known, and those of the runners are below the shutdown
    token. *)
Definition tokens_sound (shutdown_ : token) (y : Gui) : Prop :=
  shutdown (app y) = shutdown_ /\
  (forall t, held (app y) t -> token_known (tokens_ y) t = true) /\
  Forall (fun r => token_known (tokens_ y) (runner_token r) = true /\
                   token_below shutdown_ (runner_token r) = true) (runners y).

Lemma update_tokens_sound (shutdown_ : token) (env : Surroundings) (message : Message)
    (rest : list Message) (y : Gui) :
  tokens_sound shutdown_ y -> tokens_sound shutdown_ (gui_deliver env message rest y).
Proof.
  intros (Hshut & Hheld & Hrunners). unfold gui_deliver.
  destruct (update _ _ _ _) as [[g' a'] task] eqn:Hupdate.
  destruct (update_effect _ _ _ _ _ _ _ Hupdate) as [Heffect Hshut'].
  unfold tokens_sound. simpl. rewrite Hshut'. split; [done|].
  destruct Heffect as [a' Ha'|a' t Ht Ha'|a' g' r Hchild Ha'].
  - rewrite app_nil_r. split; [auto|done].
  - rewrite app_nil_r. split.
    + intros u Hu. rewrite token_cancel_known. auto.
    + eapply Forall_impl; [exact Hrunners|]. intros r [Hknown Hbelow]. by rewrite token_cancel_known.
  - assert (Hparent : token_known (tokens_ y) (shutdown (app y)) = true) by (apply Hheld; by left).
    destruct (token_child_fresh _ _ _ _ Hparent Hchild) as [_ Hfresh]. split.
    + intros t Ht. destruct (Ha' t Ht) as [Hold| ->]; [|done].
      by apply (token_child_known _ _ _ _ _ Hchild), Hheld.
    + apply Forall_app. split.
      * eapply Forall_impl; [exact Hrunners|]. intros r' [Hknown Hbelow]. split; [|done].
        by apply (token_child_known _ _ _ _ _ Hchild).
      * apply Forall_singleton. split; [done|].
        rewrite <- Hshut, (token_child_above _ _ _ _ _ Hchild Hparent Hparent). apply token_below_refl.
Qed.

Lemma runner_phase_tokens (P : Runner -> Prop) (i : nat) (p : RunnerPhase) (l : list Runner) :
  (forall r, P r -> P (put_runner_phase p r)) -> Forall P l -> Forall P (alter (put_runner_phase p) i l).
Proof.
  intros HP Hl. rewrite Forall_lookup in *. intros j r Hr. destruct (decide (i = j)) as [->|Hne].
  - rewrite list_lookup_alter_eq in Hr. destruct (l !! j) as [r'|] eqn:Hj; [|done].
    injection Hr as <-. apply HP. by eapply Hl.
  - rewrite list_lookup_alter_ne in Hr by done. by eapply Hl.
Qed.

Lemma gui_step_sound (shutdown_ : token) (x y : Gui) :
  tokens_sound shutdown_ x -> gui_step x y -> tokens_sound shutdown_ y.
Proof.
  intros Hx Hstep. destruct Hstep as [y0 message _|env y0 message rest _|y0 i r message p _ _|y0 i r _].
  - exact Hx.
  - by apply update_tokens_sound.
  - destruct Hx as (Hs & Hheld & Hr). split_and!; [done|done|]. by apply runner_phase_tokens.
  - destruct Hx as (Hs & Hheld & Hr). split_and!; [done|done|]. by apply runner_phase_tokens.
Qed.

Lemma reached_sound (g : registry) (shutdown_ : token) (y : Gui) :
  token_known g shutdown_ = true -> rtc gui_step (gui_new g shutdown_) y -> tokens_sound shutdown_ y.
Proof.
  intros Hknown Hreach.
  eapply (rtc_invariant _ (tokens_sound shutdown_)); [exact Hreach| |intros x1 x2; apply gui_step_sound].
  split_and!; [done| |constructor]. intros t [->|[[=]|[=]]]. done.
Qed.

(** The shutdown token is cancelled, and with it every runner. *)
Definition all_cancelled (shutdown_ : token) (y : Gui) : Prop :=
  tokens_sound shutdown_ y /\ token_cancelled (tokens_ y) shutdown_ = true /\
  Forall (fun r => token_cancelled (tokens_ y) (runner_token r) = true) (runners y).

Lemma update_all_cancelled (shutdown_ : token) (env : Surroundings) (message : Message)
    (rest : list Message) (y : Gui) :
  all_cancelled shutdown_ y -> all_cancelled shutdown_ (gui_deliver env message rest y).
Proof.
  intros (Hsound & Hshut & Hrunners). split; [by apply update_tokens_sound|].
  destruct Hsound as (Hs & Hheld & Hknown). unfold gui_deliver.
  destruct (update _ _ _ _) as [[g' a'] task] eqn:Hupdate.
  destruct (update_effect _ _ _ _ _ _ _ Hupdate) as [Heffect _]. simpl.
  destruct Heffect as [a' Ha'|a' t Ht Ha'|a' g' r Hchild Ha'].
  - rewrite app_nil_r. by split.
  - rewrite app_nil_r. split; [by rewrite token_cancel_state, Hshut by auto|].
    eapply Forall_impl; [exact Hrunners|]. intros r Hr. simpl in *.
    by rewrite token_cancel_state, Hr by auto.
  - assert (Hparent : token_known (tokens_ y) (shutdown (app y)) = true) by (apply Hheld; by left).
    split; [by rewrite (token_child_others _ _ _ _ _ Hchild) by (by rewrite <- Hs)|].
    apply Forall_app. split.
    + rewrite List.Forall_forall in *. intros r' Hr'.
      rewrite (token_child_others _ _ _ _ _ Hchild); [by apply Hrunners|]. by apply Hknown.
    + apply Forall_singleton. by rewrite (token_child_state _ _ _ _ Hparent Hchild), Hs.
Qed.

Lemma gui_step_cancelled (shutdown_ : token) (x y : Gui) :
  all_cancelled shutdown_ x -> gui_step x y -> all_cancelled shutdown_ y.
Proof.
  intros Hx Hstep. destruct Hstep as [y0 message Hm|env y0 message rest Hq|y0 i r message p Hr Hsends|y0 i r Hr].
  - exact Hx.
  - by apply update_all_cancelled.
  - destruct Hx as (Hsound & Hshut & Hall). split_and!; [|done|by apply runner_phase_tokens].
    eapply gui_step_sound; [exact Hsound|]. by eapply step_runner.
  - destruct Hx as (Hsound & Hshut & Hall). split_and!; [|done|by apply runner_phase_tokens].
    eapply gui_step_sound; [exact Hsound|]. by eapply step_runner_ends.
Qed.

Lemma quit_cancels (shutdown_ : token) (env : Surroundings) (rest : list Message) (y : Gui) :
  tokens_sound shutdown_ y -> all_cancelled shutdown_ (gui_deliver env Quit rest y).
Proof.
  intros Hsound. split; [by apply update_tokens_sound|].
  destruct Hsound as (Hs & Hheld & Hrunners).
  assert (Hparent : token_known (tokens_ y) (shutdown (app y)) = true) by (apply Hheld; by left).
  unfold gui_deliver, update. destruct (screen (app y)); simpl; rewrite app_nil_r, Hs in *;
    (split; [by rewrite token_cancel_state, token_below_refl, orb_true_r by done|]);
    (eapply Forall_impl; [exact Hrunners|]; intros r [_ Hbelow]; simpl;
     by rewrite token_cancel_state, Hbelow, orb_true_r by done).
Qed.

(** Quitting stops everything: from the moment the application handles a
    request to quit, the token of every agent and balancer it ever started is
    cancelled, also of those nothing on the screen leads to any more, and of
    any that is started later. *)
Theorem quit_cancels_every_runner (g : registry) (shutdown_ : token) (env : Surroundings)
    (rest : list Message) (y y' : Gui)
    (Hknown : token_known g shutdown_ = true)
    (Hreach : rtc gui_step (gui_new g shutdown_) y)
    (Hlater : rtc gui_step (gui_deliver env Quit rest y) y') :
  Forall (fun r => token_cancelled (tokens_ y') (runner_token r) = true) (runners y').
Proof.
  assert (Hsound : tokens_sound shutdown_ y) by (by eapply reached_sound).
  eapply (rtc_invariant _ (all_cancelled shutdown_)); [exact Hlater|by apply quit_cancels|].
  intros x1 x2. apply gui_step_cancelled.
Qed.

(** ** Screens

    What every message should do to the application, written without [update]:
    the screen with its data, the tokens the application has, the tokens that
    are cancelled or made, and the task that is started. *)

Inductive ScreenKind : Type :=
| AgentRunningKind | HomeKind | JoinBalancerFormKind | StartBalancerFormKind | RunningBalancerKind.

Definition kind_of (s : CurrentScreen) : ScreenKind :=
  match s with
  | AgentRunning _ => AgentRunningKind
  | Home _ => HomeKind
  | JoinBalancerForm _ => JoinBalancerFormKind
  | StartBalancerForm _ => StartBalancerFormKind
  | RunningBalancer _ => RunningBalancerKind
  end.

(** The screens a message is for; the others ignore it. *)
Definition listeners (message : Message) : list ScreenKind :=
  match message with
  | HomeMsg _ => [HomeKind]
  | JoinBalancerFormMsg _ => [JoinBalancerFormKind]
  | StartBalancerFormMsg _ | BalancerStarted => [StartBalancerFormKind]
  | RunningBalancerMsg _ | BalancerStopped => [RunningBalancerKind]
  | BalancerFailed _ => [StartBalancerFormKind; RunningBalancerKind]
  | AgentRunningMsg _ | AgentStopped | AgentFailed _ => [AgentRunningKind]
  | IcedEventLoopReady | Quit | TabPressed _ =>
      [AgentRunningKind; HomeKind; JoinBalancerFormKind; StartBalancerFormKind; RunningBalancerKind]
  end.

(** What was typed into the forms, and what a message types. *)
Definition join_typed (message : JoinMessage) (d : JoinBalancerFormData) : string * string * string :=
  match message with
  | SetAgentName name => (name, join_address d, slots_count d)
  | SetJoinAddress address => (form_agent_name d, address, slots_count d)
  | SetSlotsCount slots =>
      (form_agent_name d, join_address d,
       if bool_decide (slots = ""%string) || all_digits slots then slots else slots_count d)
  | Connect | CancelJoin => (form_agent_name d, join_address d, slots_count d)
  end.

Definition start_typed (message : StartMessage) (d : StartBalancerFormData)
    : (string * string * string) * (option ModelPreset * bool) :=
  match message with
  | SetBalancerAddress x =>
      (x, inference_address d, web_admin_panel_address d, (selected_model d, add_model_later d))
  | SetInferenceAddress x =>
      (balancer_address d, x, web_admin_panel_address d, (selected_model d, add_model_later d))
  | SetWebAdminPanelAddress x =>
      (balancer_address d, inference_address d, x, (selected_model d, add_model_later d))
  | SelectModel x =>
      (balancer_address d, inference_address d, web_admin_panel_address d,
       (Some x, add_model_later d))
  | ToggleAddModelLater x =>
      (balancer_address d, inference_address d, web_admin_panel_address d, (selected_model d, x))
  | Confirm | CancelStart =>
      (balancer_address d, inference_address d, web_admin_panel_address d,
       (selected_model d, add_model_later d))
  end.

Definition join_texts (d : JoinBalancerFormData) : string * string * string :=
  (form_agent_name d, join_address d, slots_count d).

Definition start_texts (d : StartBalancerFormData)
    : (string * string * string) * (option ModelPreset * bool) :=
  (balancer_address d, inference_address d, web_admin_panel_address d,
   (selected_model d, add_model_later d)).

Definition present (text : string) : option string :=
  match text with ""%string => None | _ => Some text end.

(** The agent of a form that connects: nothing is known of it yet. *)
Definition unknown_agent (name : option string) : ControllerSnapshot.AgentControllerSnapshot :=
  ControllerSnapshot.Build_AgentControllerSnapshot 0 0 None true 0 "" ∅ None name 0 0 Fresh f64_zero
    false.

(** What a status says of an agent, under the name it was given. *)
Definition reported_agent (name : option string) (status : Snapshot.SlotAggregatedStatusSnapshot)
    : ControllerSnapshot.AgentControllerSnapshot :=
  let '(Snapshot.Build_SlotAggregatedStatusSnapshot desired current file indeterminate total issues
          path processing slots applied rate override_ _) := status in
  ControllerSnapshot.Build_AgentControllerSnapshot desired current file indeterminate total "" issues
    path name processing slots applied rate override_.

(** The token is cancelled, if there is one. *)
Inductive stops (g : registry) : option token -> registry -> Prop :=
| stops_it t : stops g (Some t) (token_cancel g t)
| stops_nothing : stops g None g.

Definition goes_home (message : option string) (a : App) : App :=
  put_screen (Home {| error := message |}) a.

Inductive follows (env : Surroundings) (a : App) (g : registry)
    : Message -> App -> registry -> Task -> Prop :=
| follows_unlistened message :
    kind_of (screen a) ∉ listeners message -> follows env a g message a g TaskNone
| follows_ready : follows env a g IcedEventLoopReady a g TaskNone
| follows_tab_back : follows env a g (TabPressed true) a g TaskFocusPrevious
| follows_tab : follows env a g (TabPressed false) a g TaskFocusNext
| follows_quit :
    follows env a g Quit
      {| agent_cancel := None; shutdown := shutdown a; balancer_cancel := None;
         screen := Home {| error := None |} |} (token_cancel g (shutdown a)) TaskExit
| follows_open_join home :
    screen a = Home home ->
    follows env a g (HomeMsg HomeJoinBalancer)
      (put_screen (JoinBalancerForm (Build_JoinBalancerFormData "" "" None "" None)) a) g TaskNone
| follows_open_start home :
    screen a = Home home ->
    let host := suggested_address env in
    follows env a g (HomeMsg HomeStartBalancer)
      (put_screen (StartBalancerForm
         {| add_model_later := false; balancer_address := host +:+ ":8060";
            balancer_address_error := None; inference_address := host +:+ ":8061";
            inference_address_error := None; model_error := None; selected_model := None;
            starting := false; web_admin_panel_address := ""; web_admin_panel_address_error := None;
            web_admin_panel_address_placeholder := host +:+ ":8062" |}) a) g TaskNone
| follows_join_cancel form :
    screen a = JoinBalancerForm form ->
    follows env a g (JoinBalancerFormMsg CancelJoin) (goes_home None a) g TaskNone
| follows_join_typed form form' msg :
    screen a = JoinBalancerForm form -> msg <> CancelJoin ->
    join_texts form' = join_typed msg form ->
    (msg = Connect -> is_Some (join_address_error form') \/ is_Some (slots_error form')) ->
    follows env a g (JoinBalancerFormMsg msg) (put_screen (JoinBalancerForm form') a) g TaskNone
| follows_connect form slots g' cancel :
    screen a = JoinBalancerForm form ->
    check_join_address (join_address form) = None -> check_slots (slots_count form) = (Some slots, None) ->
    token_child g (shutdown a) = (g', cancel) ->
    follows env a g (JoinBalancerFormMsg Connect)
      {| agent_cancel := Some cancel; shutdown := shutdown a; balancer_cancel := balancer_cancel a;
         screen := AgentRunning
           {| running_address := join_address form; connected := false;
              agent_snapshot := unknown_agent (present (form_agent_name form)) |} |} g'
      (TaskStreamAgent {| runner_agent_name := present (form_agent_name form);
                          runner_management_address := join_address form; runner_slots := slots |} cancel)
| follows_start_cancel form g' :
    screen a = StartBalancerForm form -> stops g (balancer_cancel a) g' ->
    follows env a g (StartBalancerFormMsg CancelStart) (goes_home None a) g' TaskNone
| follows_start_typed form form' msg :
    screen a = StartBalancerForm form -> msg <> CancelStart ->
    start_texts form' = start_typed msg form -> starting form' = starting form ->
    web_admin_panel_address_placeholder form' = web_admin_panel_address_placeholder form ->
    (msg = Confirm ->
     is_Some (balancer_address_error form') \/ is_Some (inference_address_error form') \/
     is_Some (web_admin_panel_address_error form') \/ is_Some (model_error form')) ->
    follows env a g (StartBalancerFormMsg msg) (put_screen (StartBalancerForm form') a) g TaskNone
| follows_confirm form form' management inference web g' cancel :
    screen a = StartBalancerForm form ->
    start_texts form' = start_texts form -> starting form' = true ->
    web_admin_panel_address_placeholder form' = web_admin_panel_address_placeholder form ->
    validate_required_address (check_port env) (balancer_address form) = Ok management ->
    validate_required_address (check_port env) (inference_address form) = Ok inference ->
    validate_optional_address (check_port env) (web_admin_panel_address form) = Ok web ->
    (add_model_later form = false -> is_Some (selected_model form)) ->
    token_child g (shutdown a) = (g', cancel) ->
    follows env a g (StartBalancerFormMsg Confirm)
      {| agent_cancel := agent_cancel a; shutdown := shutdown a; balancer_cancel := Some cancel;
         screen := StartBalancerForm form' |} g'
      (TaskStreamBalancer
         {| buffered_request_timeout := 10; max_buffered_requests := 30;
            inference_item_timeout := 30; inference_service_addr := inference;
            management_service_addr := management; web_admin_panel_service_addr := web;
            memory_database := chosen_desired_state form; statsd_prefix := "paddler_" |} cancel)
| follows_started form :
    screen a = StartBalancerForm form ->
    follows env a g BalancerStarted
      (put_screen (RunningBalancer
         {| running_balancer_address := balancer_address form;
            balancer_snapshot := {| agent_snapshots := []; snapshot_applicable_state := None;
                                    snapshot_desired_state := balancer_desired_state_default |};
            stopping := false;
            running_web_admin_panel_address := present (web_admin_panel_address form) |}) a)
      g TaskNone
| follows_balancer_failed reason :
    kind_of (screen a) = StartBalancerFormKind \/ kind_of (screen a) = RunningBalancerKind ->
    follows env a g (BalancerFailed reason) (goes_home (Some reason) (put_balancer_cancel None a)) g
      TaskNone
| follows_snapshot address old stopping_ web new :
    screen a = RunningBalancer (Build_RunningBalancerData address old stopping_ web) ->
    follows env a g (RunningBalancerMsg (SnapshotUpdated new))
      (put_screen (RunningBalancer (Build_RunningBalancerData address new stopping_ web)) a) g TaskNone
| follows_stop address snap stopping_ web g' :
    screen a = RunningBalancer (Build_RunningBalancerData address snap stopping_ web) ->
    stops g (balancer_cancel a) g' ->
    follows env a g (RunningBalancerMsg Stop)
      (put_screen (RunningBalancer (Build_RunningBalancerData address snap true web)) a) g' TaskNone
| follows_copy content :
    kind_of (screen a) = RunningBalancerKind ->
    follows env a g (RunningBalancerMsg (CopyToClipboard content)) a g (TaskWriteClipboard content)
| follows_open_url link :
    kind_of (screen a) = RunningBalancerKind ->
    follows env a g (RunningBalancerMsg (OpenUrl link)) a g (TaskOpenUrl link)
| follows_balancer_stopped :
    kind_of (screen a) = RunningBalancerKind ->
    follows env a g BalancerStopped (goes_home None (put_balancer_cancel None a)) g TaskNone
| follows_status address connected_ snap status :
    screen a = AgentRunning (Build_AgentRunningData address connected_ snap) ->
    follows env a g (AgentRunningMsg (AgentStatusUpdated status))
      (put_screen (AgentRunning (Build_AgentRunningData address true
         (reported_agent (ControllerSnapshot.name snap) status))) a) g TaskNone
| follows_disconnect g' :
    kind_of (screen a) = AgentRunningKind -> stops g (agent_cancel a) g' ->
    follows env a g (AgentRunningMsg Disconnect) (goes_home None a) g' TaskNone
| follows_agent_stopped :
    kind_of (screen a) = AgentRunningKind ->
    follows env a g AgentStopped (goes_home None (put_agent_cancel None a)) g TaskNone
| follows_agent_failed reason :
    kind_of (screen a) = AgentRunningKind ->
    follows env a g (AgentFailed reason) (goes_home (Some reason) (put_agent_cancel None a)) g TaskNone.

Lemma cancel_if_some_stops (x : option token) (g : registry) : stops g x (cancel_if_some x g).
Proof. destruct x; constructor. Qed.

Lemma present_decide (text : string) :
  (if decide (text = ""%string) then None else Some text) = present text.
Proof. case_decide as E; [by rewrite E|]. by destruct text. Qed.

Lemma join_form_follows (env : Surroundings) (form : JoinBalancerFormData) (msg : JoinMessage)
    (g g' : registry) (a a' : App) (task : Task) :
  screen a = JoinBalancerForm form -> update_join_form form msg g a = (g', a', task) ->
  follows env a g (JoinBalancerFormMsg msg) a' g' task.
Proof.
  intros Hscreen. unfold update_join_form. destruct msg as [name|address|slots| |]; simpl.
  1, 2: intros [= <- <- <-]; by apply (follows_join_typed _ _ _ form).
  - destruct (bool_decide _ || _) eqn:Hdigits; intros [= <- <- <-];
      apply (follows_join_typed _ _ _ form); try done; unfold join_typed; by rewrite Hdigits.
  - unfold validate_and_connect. destruct (check_slots (slots_count form)) as [slots slots_error_] eqn:Hslots.
    destruct (check_join_address (join_address form)) as [address_error|] eqn:Haddress.
    { intros [= <- <- <-]. apply (follows_join_typed _ _ _ form); try done. intros _. left. by eexists. }
    destruct slots_error_ as [e|].
    { intros [= <- <- <-]. apply (follows_join_typed _ _ _ form); try done. intros _. right. by eexists. }
    destruct slots as [slots|].
    2: { exfalso. unfold check_slots in Hslots. repeat case_match; simplify_eq. }
    unfold spawn_agent. destruct (token_child g (shutdown a)) as [g1 cancel] eqn:Hchild.
    intros [= <- <- <-]. unfold join_connect. simpl. rewrite present_decide.
    by apply (follows_connect env a g form slots g1 cancel).
  - intros [= <- <- <-]. by apply (follows_join_cancel _ _ _ form).
Qed.

Lemma start_form_follows (env : Surroundings) (form : StartBalancerFormData) (msg : StartMessage)
    (g g' : registry) (a a' : App) (task : Task) :
  screen a = StartBalancerForm form -> update_start_form env form msg g a = (g', a', task) ->
  follows env a g (StartBalancerFormMsg msg) a' g' task.
Proof.
  intros Hscreen. unfold update_start_form. destruct msg as [x|x|x|x|x| |]; simpl.
  1-5: intros [= <- <- <-]; by apply (follows_start_typed _ _ _ form).
  - unfold validate_and_confirm.
    destruct (check_model form) as [e|] eqn:Hmodel.
    { intros [= <- <- <-]. apply (follows_start_typed _ _ _ form); try done. simpl. eauto 6. }
    destruct (validate_required_address _ (balancer_address form)) as [management|e] eqn:Hm.
    2: { intros [= <- <- <-]. apply (follows_start_typed _ _ _ form); try done. simpl. eauto. }
    destruct (validate_required_address _ (inference_address form)) as [inference|e] eqn:Hi.
    2: { intros [= <- <- <-]. apply (follows_start_typed _ _ _ form); try done. simpl. eauto. }
    destruct (validate_optional_address _ _) as [web|e] eqn:Hw.
    2: { intros [= <- <- <-]. apply (follows_start_typed _ _ _ form); try done. simpl. eauto 6. }
    unfold spawn_balancer. simpl. destruct (token_child g (shutdown a)) as [g1 cancel] eqn:Hchild.
    intros [= <- <- <-].
    apply (follows_confirm env a g form (put_start_errors None None None None true form) management
             inference web g1 cancel); try done.
    unfold check_model in Hmodel. intros Hlater. rewrite Hlater in Hmodel.
    destruct (selected_model form); [by eexists|done].
  - intros [= <- <- <-]. apply (follows_start_cancel _ _ _ form); [done|apply cancel_if_some_stops].
Qed.

(** The last runner of a kind that was started. *)
Definition last_runner_token (k : RunnerKind) (l : list Runner) : option token :=
  last (map runner_token
    (List.filter (fun r => match runner_kind r, k with
                           | AgentKind, AgentKind | BalancerKind, BalancerKind => true
                           | _, _ => false
                           end) l)).

Lemma last_runner_snoc (l : list Runner) (r : Runner) :
  runner_kind r = AgentKind -> last_runner_token AgentKind (l ++ [r]) = Some (runner_token r).
Proof.
  intros Hr. unfold last_runner_token. rewrite List.filter_app, map_app. simpl. rewrite Hr. simpl.
  by rewrite last_snoc.
Qed.

Lemma filter_tokens_alter (f : Runner -> bool) (i : nat) (p : RunnerPhase) (l : list Runner) :
  (forall r, f (put_runner_phase p r) = f r) ->
  map runner_token (List.filter f (alter (put_runner_phase p) i l))
  = map runner_token (List.filter f l).
Proof.
  intros Hf. revert i. induction l as [|r l IH]; intros [|i]; try done.
  - change (alter (put_runner_phase p) 0%nat (r :: l)) with (put_runner_phase p r :: l). simpl.
    rewrite Hf. by destruct (f r).
  - change (alter (put_runner_phase p) (S i) (r :: l)) with (r :: alter (put_runner_phase p) i l).
    simpl. destruct (f r); simpl; by rewrite IH.
Qed.

Lemma runner_tokens_alter (i : nat) (p : RunnerPhase) (l : list Runner) :
  map runner_token (alter (put_runner_phase p) i l) = map runner_token l.
Proof.
  revert i. induction l as [|r l IH]; intros [|i]; try done.
  change (alter (put_runner_phase p) (S i) (r :: l)) with (r :: alter (put_runner_phase p) i l).
  simpl. by rewrite IH.
Qed.

Lemma last_runner_alter (k : RunnerKind) (i : nat) (p : RunnerPhase) (l : list Runner) :
  last_runner_token k (alter (put_runner_phase p) i l) = last_runner_token k l.
Proof. unfold last_runner_token. by rewrite filter_tokens_alter. Qed.

Lemma put_screen_back (a : App) : put_screen (screen a) (put_screen current_screen_default a) = a.
Proof. by destruct a. Qed.

Lemma unlistened_follows (env : Surroundings) (message : Message) (g : registry) (a : App) :
  kind_of (screen a) ∉ listeners message ->
  follows env a g message (put_screen (screen a) (put_screen current_screen_default a)) g TaskNone.
Proof. intros Hout. rewrite put_screen_back. by apply follows_unlistened. Qed.

Ltac solve_unlistened :=
  match goal with
  | a : App, Hscreen : screen ?a = _ |- _ =>
      rewrite <- Hscreen; apply unlistened_follows; rewrite Hscreen; simpl;
      rewrite ?elem_of_cons, elem_of_nil; intuition discriminate
  end.

Lemma running_balancer_follows (env : Surroundings) (running : RunningBalancerData)
    (msg : BalancerMessage) (g g' : registry) (a a' : App) (task : Task) :
  screen a = RunningBalancer running ->
  update_running_balancer running msg g (put_screen current_screen_default a) = (g', a', task) ->
  follows env a g (RunningBalancerMsg msg) a' g' task.
Proof.
  intros Hscreen. assert (Hkind : kind_of (screen a) = RunningBalancerKind) by (by rewrite Hscreen).
  pose proof (put_screen_back a) as Hback. rewrite Hscreen in Hback.
  destruct running as [address snap stopping_ web].
  destruct msg as [new| |content|link]; simpl; intros [= <- <- <-].
  - by apply (follows_snapshot env a g address snap stopping_ web new).
  - apply (follows_stop env a g address snap stopping_ web); [done|apply cancel_if_some_stops].
  - rewrite Hback. by apply follows_copy.
  - rewrite Hback. by apply follows_open_url.
Qed.

Lemma agent_running_follows (env : Surroundings) (running : AgentRunningData) (msg : AgentMessage)
    (g g' : registry) (a a' : App) (task : Task) :
  screen a = AgentRunning running ->
  update_agent_running running msg g (put_screen current_screen_default a) = (g', a', task) ->
  follows env a g (AgentRunningMsg msg) a' g' task.
Proof.
  intros Hscreen. destruct running as [address connected_ snap].
  destruct msg as [status|]; simpl; intros [= <- <- <-].
  - destruct status. by eapply (follows_status env a g address connected_ snap).
  - apply (follows_disconnect env a g); [by rewrite Hscreen|apply cancel_if_some_stops].
Qed.

(** The forms do not look at the screen that was taken. *)
Lemma update_join_form_taken (form : JoinBalancerFormData) (msg : JoinMessage) (g : registry)
    (s : CurrentScreen) (a : App) :
  update_join_form form msg g (put_screen s a) = update_join_form form msg g a.
Proof. unfold update_join_form. by destruct (join_update msg form) as [d []]. Qed.

Lemma update_start_form_taken (env : Surroundings) (form : StartBalancerFormData)
    (msg : StartMessage) (g : registry) (s : CurrentScreen) (a : App) :
  update_start_form env form msg g (put_screen s a) = update_start_form env form msg g a.
Proof. unfold update_start_form. by destruct (start_update _ msg form) as [d []]. Qed.

Lemma update_follows (env : Surroundings) (message : Message) (g g' : registry) (a a' : App)
    (task : Task) :
  update env message g a = (g', a', task) -> follows env a g message a' g' task.
Proof.
  pose proof (put_screen_back a) as Hback.
  unfold update. destruct (screen a) as [running|home|form|form|running] eqn:Hscreen, message; simpl.
  all: try solve [intros [= <- <- <-]; solve_unlistened].
  all: try solve [intros [= <- <- <-]; rewrite Hback; apply follows_ready].
  all: try solve [destruct shift; intros [= <- <- <-]; rewrite Hback; constructor].
  all: try solve [intros [= <- <- <-]; apply (follows_quit env a g)].
  all: try solve [intros [= <- <- <-]; constructor; rewrite Hscreen; simpl; auto].
  - by apply agent_running_follows.
  - destruct msg; intros [= <- <- <-]; [by apply (follows_open_start env a g home)|].
    by apply (follows_open_join env a g home).
  - rewrite update_join_form_taken. by apply join_form_follows.
  - rewrite update_start_form_taken. by apply start_form_follows.
  - intros [= <- <- <-]. unfold form_balancer_started. rewrite present_decide.
    by apply (follows_started env a g form).
  - by apply running_balancer_follows.
Qed.

Lemma follows_agent_held (env : Surroundings) (message : Message) (g g' : registry) (a a' : App)
    (task : Task) :
  follows env a g message a' g' task -> kind_of (screen a') = AgentRunningKind ->
  (kind_of (screen a) = AgentRunningKind /\ agent_cancel a' = agent_cancel a /\ task_runner task = [])
  \/ exists r, task_runner task = [r] /\ runner_kind r = AgentKind /\
               agent_cancel a' = Some (runner_token r).
Proof.
  intros Hfollows Hkind. destruct Hfollows; simpl in *; try discriminate; eauto 6.
  left. by rewrite H0.
Qed.

(** While an agent is shown, the application can cancel the last one started. *)
Definition shown_agent_held (y : Gui) : Prop :=
  kind_of (screen (app y)) = AgentRunningKind ->
  exists cancel, last_runner_token AgentKind (runners y) = Some cancel /\
                 agent_cancel (app y) = Some cancel.

Lemma gui_step_agent_held (x y : Gui) : shown_agent_held x -> gui_step x y -> shown_agent_held y.
Proof.
  unfold shown_agent_held. intros Hx Hstep.
  destruct Hstep as [y0 message _|env y0 message rest _|y0 i r message p _ _|y0 i r _]; simpl;
    try rewrite last_runner_alter; try done.
  unfold gui_deliver. destruct (update _ _ _ _) as [[g' a'] task] eqn:Hupdate. simpl. intros Hkind.
  apply update_follows in Hupdate.
  destruct (follows_agent_held _ _ _ _ _ _ _ Hupdate Hkind)
    as [(Hold & Hcancel & Hnone)|(r & Hrunner & Hr & Hcancel)].
  - rewrite Hnone, app_nil_r, Hcancel. by apply Hx.
  - rewrite Hrunner, last_runner_snoc by done. by eexists.
Qed.

Lemma gui_step_follows (y y' : Gui) :
  gui_step y y' ->
  (app y' = app y /\ tokens_ y' = tokens_ y /\
   map runner_token (runners y') = map runner_token (runners y) /\
   exists sent, queue y' = queue y ++ sent) \/
  exists env message rest task,
    queue y = message :: rest /\ queue y' = rest /\
    follows env (app y) (tokens_ y) message (app y') (tokens_ y') task /\
    runners y' = runners y ++ task_runner task.
Proof.
  intros [y0 message _|env y0 message rest Hqueue|y0 i r message p _ _|y0 i r _].
  - left. split_and!; eauto.
  - right. unfold gui_deliver. destruct (update _ _ _ _) as [[g' a'] task] eqn:Hupdate.
    exists env, message, rest, task. split_and!; [done|done|by apply update_follows|done].
  - left. split_and!; [done|done|by apply runner_tokens_alter|by eexists].
  - left. split_and!; [done|done|by apply runner_tokens_alter|]. exists []. by rewrite app_nil_r.
Qed.

Lemma disconnect_cancels (env : Surroundings) (rest : list Message) (y : Gui) (cancel : token) :
  kind_of (screen (app y)) = AgentRunningKind -> agent_cancel (app y) = Some cancel ->
  token_known (tokens_ y) cancel = true ->
  let z := gui_deliver env (AgentRunningMsg Disconnect) rest y in
  token_cancelled (tokens_ z) cancel = true /\ screen (app z) = current_screen_default.
Proof.
  intros Hkind Hcancel Hknown. unfold gui_deliver, update.
  destruct (screen (app y)); simpl in *; try discriminate. rewrite Hcancel. simpl.
  by rewrite token_cancel_state, token_below_refl, orb_true_r by done.
Qed.

(** C39. Every step of the interface does what its message is for and nothing
    else.  A message taken from the queue changes the application, the tokens
    and the tasks as [follows] says, which is written without [update]: which
    screen is shown with which data, what is cancelled, what is started; a
    message its screen does not listen to changes nothing; only quitting,
    cancelling, disconnecting and what a runner reports of its own end go home.
    A step that delivers no message leaves all this as it is.  And while an
    agent is shown, the token of the agent started last is held, and
    disconnecting cancels that one.  What the two forms accept and which errors
    they show is stated with the forms. *)
Theorem screens_follow_transitions (g : registry) (shutdown_ : token) (y y' : Gui)
    (Hknown : token_known g shutdown_ = true)
    (Hreach : rtc gui_step (gui_new g shutdown_) y) (Hstep : gui_step y y') :
  ((app y' = app y /\ tokens_ y' = tokens_ y /\
    map runner_token (runners y') = map runner_token (runners y) /\
    exists sent, queue y' = queue y ++ sent) \/
   exists env message rest task,
     queue y = message :: rest /\ queue y' = rest /\
     follows env (app y) (tokens_ y) message (app y') (tokens_ y') task /\
     runners y' = runners y ++ task_runner task) /\
  (kind_of (screen (app y)) = AgentRunningKind ->
   exists cancel,
     last_runner_token AgentKind (runners y) = Some cancel /\ agent_cancel (app y) = Some cancel /\
     forall env rest,
       let z := gui_deliver env (AgentRunningMsg Disconnect) rest y in
       token_cancelled (tokens_ z) cancel = true /\ screen (app z) = current_screen_default).
Proof.
  split; [by apply gui_step_follows|]. intros Hkind.
  destruct (rtc_invariant _ shown_agent_held _ _ Hreach) as (cancel & Hlast & Hcancel);
    [intros [=]|intros x1 x2; apply gui_step_agent_held|exact Hkind|].
  exists cancel. split_and!; [done|done|]. intros env rest. apply disconnect_cancels; [done..|].
  apply (reached_sound _ _ _ Hknown Hreach). right. by left.
Qed.

End GuiAppFacts.

(** ** Stale messages

    A script of what the user does, what is delivered and what runners report,
    and the run it makes. *)

Section Script.
Context `{Network}.
Context {registry token : Type} `{!CancellationTokens registry token}.

Notation Gui := (Gui (registry := registry) (token := token)).

Inductive ScriptEvent : Type :=
| Says (message : Message)
| Delivered
| Reports (i : nat) (message : Message).

Definition runner_reply (r : Runner (token := token)) (message : Message) : option RunnerPhase :=
  match runner_kind r, runner_phase r, message with
  | AgentKind, RunnerRunning, AgentRunningMsg (AgentStatusUpdated _) => Some RunnerRunning
  | AgentKind, RunnerRunning, (AgentStopped | AgentFailed _) => Some RunnerFinished
  | BalancerKind, RunnerStarting, BalancerStarted => Some RunnerRunning
  | BalancerKind, RunnerStarting, BalancerFailed _ => Some RunnerFinished
  | BalancerKind, RunnerRunning, RunningBalancerMsg (SnapshotUpdated _) => Some RunnerRunning
  | BalancerKind, RunnerRunning, (BalancerStopped | BalancerFailed _) => Some RunnerFinished
  | _, _, _ => None
  end.

Definition play_event (env : Surroundings) (y : option Gui) (e : ScriptEvent) : option Gui :=
  y ← y;
  match e with
  | Says message => if from_user message then Some (gui_send message y) else None
  | Delivered =>
      match queue y with
      | message :: rest => Some (gui_deliver env message rest y)
      | [] => None
      end
  | Reports i message =>
      r ← runners y !! i;
      p ← runner_reply r message;
      Some (gui_send message (gui_runner i p y))
  end.

Definition play (env : Surroundings) (script : list ScriptEvent) (y : Gui) : option Gui :=
  fold_left (play_event env) script (Some y).

Lemma runner_reply_sends (r : Runner) (message : Message) (p : RunnerPhase) :
  runner_reply r message = Some p -> runner_sends r message p.
Proof.
  unfold runner_reply.
  destruct (runner_kind r) eqn:Hkind, (runner_phase r) eqn:Hphase, message as [| | |msg|msg| | |reason| |reason| | |];
    try done; try (destruct msg; try done); intros [= <-]; by constructor.
Qed.

Lemma play_event_none (env : Surroundings) (script : list ScriptEvent) :
  fold_left (play_event env) script None = None.
Proof. by induction script. Qed.

Lemma play_reaches (env : Surroundings) (script : list ScriptEvent) (y y' : Gui) :
  play env script y = Some y' -> rtc gui_step y y'.
Proof.
  unfold play. revert y. induction script as [|e script IH]; intros y Hplay; simpl in Hplay.
  { injection Hplay as <-. apply rtc_refl. }
  destruct (play_event env (Some y) e) as [y1|] eqn:He; simpl in He;
    [|by rewrite He, play_event_none in Hplay].
  rewrite He in Hplay. eapply rtc_l; [|by apply IH]. destruct e as [message| |i message].
  - destruct (from_user message) eqn:Hm; [|done]. injection He as <-. by constructor.
  - destruct (queue y) as [|message rest] eqn:Hq; [done|]. injection He as <-. by constructor.
  - destruct (runners y !! i) as [r|] eqn:Hr; [|done]. simpl in He.
    destruct (runner_reply r message) as [p|] eqn:Hp; [|done]. injection He as <-.
    by eapply step_runner; [|apply runner_reply_sends].
Qed.

End Script.

#[export] Instance plain_network : Network := {
  SocketAddr := string;
  parse_socket_addr s := if decide (s = ""%string) then Err "invalid socket address syntax"%string else Ok s;
  display_addr s := s;
  display_port s := s;
}.

Definition plain_surroundings : Surroundings :=
  {| suggested_address := "10.0.0.1"; check_port := fun _ => Available |}.

Definition user_does (messages : list Message) : list ScriptEvent :=
  flat_map (fun message => [Says message; Delivered]) messages.

Definition join_and_connect : list Message :=
  [HomeMsg HomeJoinBalancer; JoinBalancerFormMsg (SetJoinAddress "10.0.0.1:8060");
   JoinBalancerFormMsg (SetSlotsCount "4"); JoinBalancerFormMsg Connect].

(** The user disconnects an agent and connects another, and then the first one
    reports that it stopped. *)
Definition rejoin_script : list ScriptEvent :=
  [Delivered] ++ user_does (join_and_connect ++ [AgentRunningMsg Disconnect] ++ join_and_connect)
  ++ [Reports 0 AgentStopped; Delivered].

Definition start_and_confirm : list Message :=
  [HomeMsg HomeStartBalancer; StartBalancerFormMsg (ToggleAddModelLater true);
   StartBalancerFormMsg Confirm].

(** The user cancels a balancer that starts and starts another; the first one
    fails, and then the second one has started. *)
Definition restart_script : list ScriptEvent :=
  [Delivered] ++ user_does (start_and_confirm ++ [StartBalancerFormMsg CancelStart] ++ start_and_confirm)
  ++ [Reports 0 (BalancerFailed "cancelled"); Delivered]
  ++ user_does [HomeMsg HomeStartBalancer]
  ++ [Reports 1 BalancerStarted; Delivered].

Definition empty_forest : TokenForest :=
  {| next_label := 0; cancelled_paths := []; cancelled_known := eq_refl |}.

Definition plain_gui : Gui (registry := TokenForest) (token := list nat) := gui_new empty_forest [].

(** The messages of agents and balancers do not say which one they are from,
    so one that was left can take the application away from the one that runs.
    When an agent that was disconnected stops after the next one was connected,
    the interface goes home and forgets the token of the one that runs on.
    When a balancer whose start was cancelled fails after the next one was
    started, the interface forgets the token of the next one, and shows it as
    running without a way to stop it. *)
Theorem stale_messages_orphan_runners :
  (exists (y : Gui) r,
     rtc gui_step plain_gui y /\
     kind_of (screen (app y)) = HomeKind /\ agent_cancel (app y) = None /\
     In r (runners y) /\ runner_kind r = AgentKind /\ runner_phase r = RunnerRunning /\
     token_cancelled (tokens_ y) (runner_token r) = false) /\
  (exists (y : Gui) r,
     rtc gui_step plain_gui y /\
     kind_of (screen (app y)) = RunningBalancerKind /\ balancer_cancel (app y) = None /\
     In r (runners y) /\ runner_kind r = BalancerKind /\ runner_phase r = RunnerRunning /\
     token_cancelled (tokens_ y) (runner_token r) = false).
Proof.
  split.
  - destruct (play plain_surroundings rejoin_script plain_gui) as [y|] eqn:Hplay; [|vm_compute in Hplay; done].
    exists y. apply play_reaches in Hplay as Hreach.
    vm_compute in Hplay. injection Hplay as <-. eexists. split; [exact Hreach|].
    split; [reflexivity|]. split; [reflexivity|]. split; [right; left; reflexivity|]. by split_and!.
  - destruct (play plain_surroundings restart_script plain_gui) as [y|] eqn:Hplay; [|vm_compute in Hplay; done].
    exists y. apply play_reaches in Hplay as Hreach.
    vm_compute in Hplay. injection Hplay as <-. eexists. split; [exact Hreach|].
    split; [reflexivity|]. split; [reflexivity|]. split; [right; left; reflexivity|]. by split_and!.
Qed.

Definition connected_gui : Gui (registry := TokenForest) (token := list nat) :=
  default plain_gui (play plain_surroundings ([Delivered] ++ user_does join_and_connect) plain_gui).

Lemma connected_reached : rtc gui_step plain_gui connected_gui.
Proof. apply (play_reaches plain_surroundings ([Delivered] ++ user_does join_and_connect)). vm_compute. reflexivity. Qed.

Lemma quit_cancels_every_runner_witness :
  let y := gui_deliver plain_surroundings Quit [] connected_gui in
  length (runners y) = 1%nat /\
  Forall (fun r => token_cancelled (tokens_ y) (runner_token r) = true) (runners y).
Proof.
  intros y. split; [vm_compute; reflexivity|].
  apply (quit_cancels_every_runner empty_forest [] plain_surroundings [] connected_gui y);
    [reflexivity|exact connected_reached|apply rtc_refl].
Defined.

Lemma screens_follow_transitions_witness :
  exists cancel,
    last_runner_token AgentKind (runners connected_gui) = Some cancel /\
    token_cancelled (tokens_ connected_gui) cancel = false /\
    token_cancelled
      (tokens_ (gui_deliver plain_surroundings (AgentRunningMsg Disconnect) [] connected_gui)) cancel
    = true.
Proof.
  destruct (screens_follow_transitions empty_forest [] connected_gui (gui_send (TabPressed true) connected_gui))
    as [_ Hheld]; [reflexivity|exact connected_reached|constructor; reflexivity|].
  destruct Hheld as (cancel & Hlast & _ & Hcancels); [vm_compute; reflexivity|].
  exists cancel. split; [exact Hlast|]. split; [|apply (Hcancels plain_surroundings [])].
  vm_compute in Hlast. injection Hlast as <-. vm_compute. reflexivity.
Defined.
