(* ===== verification/GuiViews.v ===== *)
(** * What the graphical interface shows and offers

    The views of [paddler_gui/src/ui/] and [App::view] as trees of elements:
    the texts, the fields and the buttons, with the messages they produce.
    Sizes, spacing, fonts and colours are appearance and are left out; what a
    widget does when it is used is documented by the library and is [offers].
    Then what the views are fed with: [RunningBalancerSnapshot::build], the
    model presets and the network interfaces. *)

From Stdlib Require Import Strings.Ascii Floats.SpecFloat Sorting.Sorted Sorting.Permutation.
From stdpp Require Import pretty.
From S2P Require Import Prelude.
From S2P Require Import Numbers.
From S2P Require Import Tokio.
From S2P Require Import Messages.
From S2P Require Import Requests.
From S2P Require Import AgentIssues.
From S2P Require Import SlotStatus.
From S2P Require Import AgentController.
From S2P Require Import AgentPool.
From S2P Require Import DesiredState.
From S2P Require Import Normalization.
From S2P Require Import GuiForms.
From S2P Require Import GuiApp.
Local Open Scope Z_scope.

(** ** Numbers as text

    [{:.n}] of a float: its exact value, rounded to [n] decimals, a tie to the
    even digit. *)

Definition round_half_even (numerator denominator : Z) : Z :=
  let q := numerator / denominator in
  let twice := 2 * (numerator mod denominator) in
  if twice <? denominator then q
  else if denominator <? twice then q + 1
  else if Z.even q then q else q + 1.

(** The digits of [mantissa * 2 ^ exponent * 10 ^ decimals]. *)
Definition scaled_digits (decimals : Z) (mantissa : positive) (exponent : Z) : Z :=
  let scaled := Zpos mantissa * 10 ^ decimals in
  if 0 <=? exponent then scaled * 2 ^ exponent else round_half_even scaled (2 ^ (- exponent)).

Fixpoint zeros (n : nat) : string :=
  match n with O => "" | S n => String "0" (zeros n) end.

Definition pad_left (width : nat) (digits : string) : string :=
  zeros (width - String.length digits) +:+ digits.

Definition fixed_point (decimals : nat) (digits : Z) : string :=
  let unit_ := 10 ^ Z.of_nat decimals in
  pretty (digits / unit_)
  +:+ match decimals with
      | O => ""
      | S _ => "." +:+ pad_left decimals (pretty (digits mod unit_))
      end.

Definition display_float (decimals : nat) (x : spec_float) : string :=
  match x with
  | S754_nan => "NaN"
  | S754_infinity s => (if s then "-" else "") +:+ "inf"
  | S754_zero s => (if s then "-" else "") +:+ fixed_point decimals 0
  | S754_finite s m e =>
      (if s then "-" else "") +:+ fixed_point decimals (scaled_digits (Z.of_nat decimals) m e)
  end.

(** ** Elements *)

Inductive Element (M : Type) : Type :=
| Text (content : string)
| Picture (file : string)
| Button (label : list (Element M)) (on_press : option M)
| TextInput (placeholder value : string) (on_input : option (string -> M))
| PickList (options : list ModelPreset) (selected : option ModelPreset) (placeholder : string)
    (on_selected : ModelPreset -> M)
| Checkbox (is_checked : bool) (label : string) (on_toggle : bool -> M)
| ProgressBar (maximum value : f32)
| Container (content : Element M)
| Row (children : list (Element M))
| Column (children : list (Element M))
| Stack (children : list (Element M)).

Arguments Text {M} _.
Arguments Picture {M} _.
Arguments Button {M} _ _.
Arguments TextInput {M} _ _ _.
Arguments PickList {M} _ _ _ _.
Arguments Checkbox {M} _ _ _.
Arguments ProgressBar {M} _ _.
Arguments Container {M} _.
Arguments Row {M} _.
Arguments Column {M} _.
Arguments Stack {M} _.

(** [Element::map]. *)
Fixpoint element_map {A B : Type} (f : A -> B) (e : Element A) : Element B :=
  match e with
  | Text content => Text content
  | Picture file => Picture file
  | Button label on_press => Button (map (element_map f) label) (f <$> on_press)
  | TextInput placeholder value on_input =>
      TextInput placeholder value ((fun g s => f (g s)) <$> on_input)
  | PickList options selected placeholder on_selected =>
      PickList options selected placeholder (fun preset => f (on_selected preset))
  | Checkbox is_checked label on_toggle => Checkbox is_checked label (fun b => f (on_toggle b))
  | ProgressBar maximum value => ProgressBar maximum value
  | Container content => Container (element_map f content)
  | Row children => Row (map (element_map f) children)
  | Column children => Column (map (element_map f) children)
  | Stack children => Stack (map (element_map f) children)
  end.

(** What a widget lets the user do, and the messages that come of it: a button
    without [on_press] and an input without [on_input] are disabled, a pick
    list gives one of its options, a checkbox the other value. *)
Inductive Offer (M : Type) : Type :=
| Press (message : M)
| Types (on_input : string -> M)
| Picks (options : list ModelPreset) (on_selected : ModelPreset -> M)
| Toggles (is_checked : bool) (on_toggle : bool -> M).
Arguments Press {M} _.
Arguments Types {M} _.
Arguments Picks {M} _ _.
Arguments Toggles {M} _ _.

Fixpoint offers {M : Type} (e : Element M) : list (Offer M) :=
  match e with
  | Button _ (Some message) => [Press message]
  | TextInput _ _ (Some on_input) => [Types on_input]
  | PickList options _ _ on_selected => [Picks options on_selected]
  | Checkbox is_checked _ on_toggle => [Toggles is_checked on_toggle]
  | Container content => offers content
  | Row children | Column children | Stack children => flat_map offers children
  | _ => []
  end.

Definition gives {M : Type} (o : Offer M) (m : M) : Prop :=
  match o with
  | Press message => m = message
  | Types on_input => exists s, m = on_input s
  | Picks options on_selected => exists preset, preset ∈ options /\ m = on_selected preset
  | Toggles is_checked on_toggle => m = on_toggle (negb is_checked)
  end.

Definition emits {M : Type} (e : Element M) (m : M) : Prop :=
  exists o, o ∈ offers e /\ gives o m.

(** The texts that are on the screen. *)
Fixpoint texts {M : Type} (e : Element M) : list string :=
  match e with
  | Text content => [content]
  | Button label _ => flat_map texts label
  | TextInput placeholder value _ => [if decide (value = ""%string) then placeholder else value]
  | PickList _ selected placeholder _ =>
      [match selected with Some preset => display_name preset | None => placeholder end]
  | Checkbox _ label _ => [label]
  | Picture _ | ProgressBar _ _ => []
  | Container content => texts content
  | Row children | Column children | Stack children => flat_map texts children
  end.

(** ** Agents *)

(** The components of a path, as [Path] has them: without empty ones and
    without [.]. *)
Fixpoint path_components (path component : string) : list string :=
  let kept := if bool_decide (component = ""%string) || bool_decide (component = "."%string)
              then [] else [component] in
  match path with
  | EmptyString => kept
  | String c rest =>
      if Ascii.eqb c "/" then kept ++ path_components rest ""
      else path_components rest (component +:+ String c "")
  end.

Definition file_name (path : string) : option string :=
  match last (path_components path "") with
  | Some component => if decide (component = ".."%string) then None else Some component
  | None => None
  end.

Definition display_last_path_part (path : string) : string := default path (file_name path).

Definition is_downloading (snapshot : ControllerSnapshot.AgentControllerSnapshot) : bool :=
  (0 <? ControllerSnapshot.download_total snapshot)
  && (ControllerSnapshot.download_current snapshot <? ControllerSnapshot.download_total snapshot).

Definition download_percentage (snapshot : ControllerSnapshot.AgentControllerSnapshot) : f32 :=
  SFmul 24 128
    (f32_div (f32_of_Z (ControllerSnapshot.download_current snapshot))
             (f32_of_Z (ControllerSnapshot.download_total snapshot)))
    (f32_of_Z 100).

Definition status_label (snapshot : ControllerSnapshot.AgentControllerSnapshot) : string :=
  if is_downloading snapshot
  then "Downloading (" +:+ display_float 0 (download_percentage snapshot) +:+ "%)"
  else
    match ControllerSnapshot.model_path snapshot with
    | None => "Waiting for model..."
    | Some _ =>
        match ControllerSnapshot.state_application_status snapshot with
        | Applied => "OK"
        | Fresh => "Pending"
        | AttemptedAndRetrying => "Retrying"
        | Stuck => "Retrying, but seems stuck?"
        | AttemptedAndNotAppliable => "Needs your help"
        end
    end.

Definition slots_label (snapshot : ControllerSnapshot.AgentControllerSnapshot) : string :=
  pretty (ControllerSnapshot.slots_processing snapshot) +:+ "/"
  +:+ pretty (ControllerSnapshot.slots_total snapshot) +:+ "/"
  +:+ pretty (ControllerSnapshot.desired_slots_total snapshot).

Definition view_agent_card {M : Type} (snapshot : ControllerSnapshot.AgentControllerSnapshot)
    : Element M :=
  let name_row :=
    Row [Container (Text (default ""%string (ControllerSnapshot.name snapshot)));
         if is_downloading snapshot
         then ProgressBar (f32_of_Z (ControllerSnapshot.download_total snapshot))
                (f32_of_Z (ControllerSnapshot.download_current snapshot))
         else Text match ControllerSnapshot.model_path snapshot with
                   | None => "No model loaded"
                   | Some path => display_last_path_part path
                   end] in
  let status_row_left :=
    Column ([Text ("Status: " +:+ status_label snapshot)]
            ++ if decide (ControllerSnapshot.issues snapshot = ∅) then []
               else [Text (pretty (size (ControllerSnapshot.issues snapshot)) +:+ " issues")]) in
  let status_row_right :=
    Column ([Text ("Slots: " +:+ slots_label snapshot)]
            ++ if f64_gtb (ControllerSnapshot.tokens_per_second snapshot) f64_zero
               then [Text (display_float 1 (ControllerSnapshot.tokens_per_second snapshot) +:+ " tok/s")]
               else []) in
  Container (Column [name_row; Row [Container status_row_left; status_row_right]]).

Definition view_agent_running (data : AgentRunningData) : Element AgentMessage :=
  let disconnect_button := Button [Row [Picture "stop.svg"; Text "Disconnect"]] (Some Disconnect) in
  let connection_status :=
    Text (if connected data then "Connected to the cluster at " +:+ running_address data
          else "Connecting to the cluster...") in
  Column [Container (Text "Your agent"); Container (Text "Agent details");
          view_agent_card (agent_snapshot data);
          Container (Row [Container connection_status; disconnect_button])].

(** ** Forms *)

Definition view_form_field {M : Type} (label : string) (input : Element M) (error_ : option string)
    : Element M :=
  Column ([Container (Text label); Container input]
          ++ match error_ with Some error_ => [Container (Text error_)] | None => [] end).

Definition view_home (data : HomeData) : Element HomeMessage :=
  let start_button := Button [Text "Start a cluster"] (Some HomeStartBalancer) in
  let join_button := Button [Text "Join a cluster"] (Some HomeJoinBalancer) in
  let start_column := Column [Picture "create_a_cluster.png"; start_button] in
  let join_column := Column [Picture "join_a_cluster.png"; join_button] in
  Column ([Container (Text "Paddler App"); Container (Row [start_column; join_column])]
          ++ match error data with Some error_ => [Container (Text error_)] | None => [] end).

Definition view_join_balancer_form (data : JoinBalancerFormData) : Element JoinMessage :=
  let confirm_button := Button [Text "Connect"] (Some Connect) in
  let cancel_button := Button [Text "Cancel"] (Some CancelJoin) in
  Column [Container (Text "Join a cluster");
    Container (Column [
      view_form_field "Cluster address" (TextInput "IP:port" (join_address data) (Some SetJoinAddress))
        (join_address_error data);
      view_form_field "Agent name (optional)"
        (TextInput "my-agent" (form_agent_name data) (Some SetAgentName)) None;
      view_form_field "Slots" (TextInput "e.g. 1" (slots_count data) (Some SetSlotsCount))
        (slots_error data);
      Container (Row [cancel_button; confirm_button])])].

Definition preset (name repo_id_ filename_ : string) (projection : option string) : ModelPreset :=
  {| display_name := name;
     preset_model := {| repo_id := repo_id_; filename := filename_; revision := "main" |};
     preset_multimodal_projection :=
       (fun f => {| repo_id := repo_id_; filename := f; revision := "main"%string |}) <$> projection;
     preset_inference_parameters := inference_parameters_default |}.

Definition available_presets : list ModelPreset := [
  preset "Qwen 3 0.6B" "unsloth/Qwen3-0.6B-GGUF" "Qwen3-0.6B-Q8_0.gguf" None;
  preset "Qwen 3.5 0.8B" "unsloth/Qwen3.5-0.8B-GGUF" "Qwen3.5-0.8B-Q4_K_M.gguf"
    (Some "mmproj-F16.gguf"%string)].

Definition view_start_balancer_form (data : StartBalancerFormData) : Element StartMessage :=
  let confirm_button :=
    if starting data then Button [Text "Starting..."] None
    else Button [Text "Start a cluster"] (Some Confirm) in
  let cancel_button := Button [Text "Cancel"] (Some CancelStart) in
  let model_input :=
    if add_model_later data then TextInput "Model will be added later" "" None
    else PickList available_presets (selected_model data) "Choose a model" SelectModel in
  let model_field :=
    Column [view_form_field "Model" model_input (model_error data);
            Container (Checkbox (add_model_later data) "Add a model later" ToggleAddModelLater)] in
  Column [Container (Text "Start a cluster");
    Container (Column [
      view_form_field "Cluster address"
        (TextInput "IP:port" (balancer_address data) (Some SetBalancerAddress))
        (balancer_address_error data);
      view_form_field "Inference address"
        (TextInput "IP:port" (inference_address data) (Some SetInferenceAddress))
        (inference_address_error data);
      view_form_field "Web admin panel (optional)"
        (TextInput (web_admin_panel_address_placeholder data) (web_admin_panel_address data)
           (Some SetWebAdminPanelAddress))
        (web_admin_panel_address_error data);
      model_field;
      Row [cancel_button; confirm_button]])].

(** ** The running balancer *)

Definition format_desired_model (desired_model : AgentDesiredModel) : string :=
  match desired_model with
  | HuggingFace reference =>
      "HuggingFace " +:+ repo_id reference +:+ "/" +:+ filename reference +:+ " ("
      +:+ revision reference +:+ ")"
  | LocalToAgent path => "Local: " +:+ path
  | Url reference => "URL: " +:+ url reference
  | NoModel => "(not set)"
  end.

Definition applied_model_label (snapshot : RunningBalancerSnapshot) : string :=
  match snapshot_applicable_state snapshot with
  | None => "(reconciling...)"
  | Some applicable => format_desired_model (Messages.model (agent_desired_state applicable))
  end.

Definition view_running_balancer (data : RunningBalancerData) : Element BalancerMessage :=
  let snapshot := balancer_snapshot data in
  let address_row :=
    Container (Column [
      Row [Container (Text ("Cluster address: " +:+ running_balancer_address data));
           Button [Row [Picture "copy.svg"; Text "Copy address"]]
             (Some (CopyToClipboard (running_balancer_address data)))];
      Text ("Configured model: " +:+ format_desired_model (balancer_model (snapshot_desired_state snapshot)));
      Text ("Applied model: " +:+ applied_model_label snapshot)]) in
  let stop_button :=
    if stopping data then Button [Row [Picture "stop.svg"; Text "Stopping..."]] None
    else Button [Row [Picture "stop.svg"; Text "Stop cluster"]] (Some Stop) in
  let status_row :=
    Container (Row [Container (Row [Text "Cluster is running"; Container (Text "")]); stop_button]) in
  Column ([Container (Text "Your cluster"); address_row]
    ++ match running_web_admin_panel_address data with
       | Some address =>
           [Container (Row [Container (Text ("Web admin panel: " +:+ address));
              Button [Row [Picture "open_in_new.svg"; Text "Open in browser"]]
                (Some (OpenUrl ("http://" +:+ address)))])]
       | None => []
       end
    ++ [status_row; Container (Text "Connected agents")]
    ++ match agent_snapshots snapshot with
       | [] => [Container (Text "Waiting for agents to connect...")]
       | snapshots => map view_agent_card snapshots
       end).

(** ** The application *)

Definition screen_view (s : CurrentScreen) : Element Message :=
  match s with
  | AgentRunning data => element_map AgentRunningMsg (view_agent_running data)
  | Home data => element_map HomeMsg (view_home data)
  | JoinBalancerForm data => element_map JoinBalancerFormMsg (view_join_balancer_form data)
  | StartBalancerForm data => element_map StartBalancerFormMsg (view_start_balancer_form data)
  | RunningBalancer data => element_map RunningBalancerMsg (view_running_balancer data)
  end.

Definition app_view {token : Type} (a : App (token := token)) : Element Message :=
  let base_view := Container (Column [screen_view (screen a)]) in
  match screen a with
  | Home _ => Stack [base_view; Container (Picture "beta.png")]
  | _ => base_view
  end.

(** ** What the views are fed with *)

Definition agent_label (snapshot : ControllerSnapshot.AgentControllerSnapshot) : string :=
  default (ControllerSnapshot.id snapshot) (ControllerSnapshot.name snapshot).

(** [sort_by] is stable. *)
Fixpoint insert_by_label (x : ControllerSnapshot.AgentControllerSnapshot)
    (l : list ControllerSnapshot.AgentControllerSnapshot)
    : list ControllerSnapshot.AgentControllerSnapshot :=
  match l with
  | [] => [x]
  | y :: rest =>
      if String.leb (agent_label x) (agent_label y) then x :: y :: rest
      else y :: insert_by_label x rest
  end.

Definition sort_by_label (l : list ControllerSnapshot.AgentControllerSnapshot)
    : list ControllerSnapshot.AgentControllerSnapshot := foldr insert_by_label [] l.

Section Build.
Context `{JsonTypes} `{LlamaTypes} {chan : Type -> Type} `{!UnboundedChannel chan}.
Context {token sender receiver : Type} `{!WatchChannel sender receiver}.
Context (iteration : gmap string nat -> list (string * nat)).

(** [RunningBalancerSnapshot::build]. *)
Definition running_balancer_snapshot_build
    (agent_controller_pool : AgentControllerPool chan token sender)
    (holder : @BalancerApplicableStateHolder sender)
    (balancer_desired_state_ : BalancerDesiredState) : result RunningBalancerSnapshot (list string) :=
  match pool_make_snapshot iteration agent_controller_pool with
  | Err e => Err ["Failed to collect agent controller snapshots"%string; e]
  | Ok agents_ =>
      Ok {| agent_snapshots := sort_by_label agents_;
            snapshot_applicable_state := balancer_applicable_state holder;
            snapshot_desired_state := balancer_desired_state_ |}
  end.
End Build.

(** A network interface, as the library lists it. *)
Inductive IpAddr : Type :=
| V4 (a b c d : Z)
| V6 (segments : list Z).

Record Interface : Type := {
  interface_name : string;
  interface_ip : IpAddr;
  is_loopback : bool;
}.

Record NetworkInterfaceAddress : Type := {
  listed_interface_name : string;
  ip_address : IpAddr;
}.

Definition is_ipv4 (ip : IpAddr) : bool := match ip with V4 _ _ _ _ => true | V6 _ => false end.

Definition detect_network_interfaces (interfaces : result (list Interface) string)
    : list NetworkInterfaceAddress :=
  match interfaces with
  | Err _ => []
  | Ok interfaces =>
      map (fun i => {| listed_interface_name := interface_name i; ip_address := interface_ip i |})
        (filter (fun i => is_ipv4 (interface_ip i) = true)
           (filter (fun i => is_loopback i = false) interfaces))
  end.

(** The address the form that starts a balancer suggests; [display_v6] is what
    the standard library prints for an address of version 6. *)
Definition display_ip (display_v6 : list Z -> string) (ip : IpAddr) : string :=
  match ip with
  | V4 a b c d => pretty a +:+ "." +:+ pretty b +:+ "." +:+ pretty c +:+ "." +:+ pretty d
  | V6 segments => display_v6 segments
  end.

Definition suggest_address (display_v6 : list Z -> string) (interfaces : result (list Interface) string)
    : string :=
  match detect_network_interfaces interfaces with
  | [] => ""
  | i :: _ => display_ip display_v6 (ip_address i)
  end.

(** ** What a screen is meant to offer, and the errors it has *)

Definition offered (s : CurrentScreen) (m : Message) : Prop :=
  match s, m with
  | Home _, HomeMsg _ => True
  | JoinBalancerForm _, JoinBalancerFormMsg _ => True
  | StartBalancerForm data, StartBalancerFormMsg msg =>
      match msg with
      | Confirm => starting data = false
      | SelectModel p => add_model_later data = false /\ p ∈ available_presets
      | ToggleAddModelLater b => b = negb (add_model_later data)
      | _ => True
      end
  | RunningBalancer data, RunningBalancerMsg msg =>
      match msg with
      | Stop => stopping data = false
      | CopyToClipboard content => content = running_balancer_address data
      | OpenUrl link =>
          exists address, running_web_admin_panel_address data = Some address /\
            link = "http://" +:+ address
      | SnapshotUpdated _ => False
      end
  | AgentRunning _, AgentRunningMsg Disconnect => True
  | _, _ => False
  end.

Definition screen_errors (s : CurrentScreen) : list string :=
  match s with
  | Home data => option_list (error data)
  | JoinBalancerForm data => option_list (join_address_error data) ++ option_list (slots_error data)
  | StartBalancerForm data =>
      option_list (balancer_address_error data) ++ option_list (inference_address_error data)
      ++ option_list (web_admin_panel_address_error data) ++ option_list (model_error data)
  | RunningBalancer _ | AgentRunning _ => []
  end.

(** ** Elements *)

(** Induction that also reaches the children of a layout. *)
Section ElementInduction.
Context {M : Type} (P : Element M -> Prop).
Hypothesis Hleaf : forall e, match e with
  | Button _ _ | Container _ | Row _ | Column _ | Stack _ => True
  | _ => P e
  end.
Hypothesis Hbutton : forall label on_press, Forall P label -> P (Button label on_press).
Hypothesis Hcontainer : forall content, P content -> P (Container content).
Hypothesis Hlayout : forall children, Forall P children ->
  P (Row children) /\ P (Column children) /\ P (Stack children).

Fixpoint element_ind' (e : Element M) : P e :=
  let fix all (l : list (Element M)) : Forall P l :=
    match l with
    | [] => Forall_nil_2 P
    | x :: l => Forall_cons_2 P x l (element_ind' x) (all l)
    end in
  match e with
  | Button label on_press => Hbutton label on_press (all label)
  | Container content => Hcontainer content (element_ind' content)
  | Row children => proj1 (Hlayout children (all children))
  | Column children => proj1 (proj2 (Hlayout children (all children)))
  | Stack children => proj2 (proj2 (Hlayout children (all children)))
  | e => Hleaf e
  end.
End ElementInduction.

(** *** Mapping *)

Definition offer_map {A B : Type} (f : A -> B) (o : Offer A) : Offer B :=
  match o with
  | Press message => Press (f message)
  | Types on_input => Types (fun s => f (on_input s))
  | Picks options on_selected => Picks options (fun p => f (on_selected p))
  | Toggles is_checked on_toggle => Toggles is_checked (fun b => f (on_toggle b))
  end.

Lemma flat_map_map_ext {A B C D : Type} (f : A -> list C) (g : B -> list D) (h : A -> B) (k : C -> D)
    (l : list A) (Hl : Forall (fun x => g (h x) = k <$> f x) l) :
  flat_map g (map h l) = k <$> flat_map f l.
Proof. induction Hl as [|x l Hx _ IH]; simpl; [done|]. by rewrite fmap_app, Hx, IH. Qed.

Lemma offers_map {A B : Type} (f : A -> B) (e : Element A) :
  offers (element_map f e) = offer_map f <$> offers e.
Proof.
  pattern e. apply element_ind'; clear e; [intros e|intros label on_press _|intros content IH|intros children IH]; simpl.
  - destruct e as [| | |placeholder value [on_input|]| | | | | | |]; done.
  - by destruct on_press.
  - done.
  - split_and!; by apply flat_map_map_ext.
Qed.

Lemma flat_map_texts {A B : Type} (f : A -> B) (l : list (Element A))
    (Hl : Forall (fun e => texts (element_map f e) = texts e) l) :
  flat_map texts (map (element_map f) l) = flat_map texts l.
Proof. induction Hl as [|e l He _ IH]; simpl; [done|]. by rewrite He, IH. Qed.

Lemma texts_map {A B : Type} (f : A -> B) (e : Element A) : texts (element_map f e) = texts e.
Proof.
  pattern e. apply element_ind'; clear e; [intros e|intros label on_press IH|intros content IH|intros children IH]; simpl.
  - by destruct e.
  - by apply flat_map_texts.
  - done.
  - split_and!; by apply flat_map_texts.
Qed.

Lemma emits_map {A B : Type} (f : A -> B) (e : Element A) (m : B) :
  emits (element_map f e) m <-> exists m', emits e m' /\ m = f m'.
Proof.
  unfold emits. rewrite offers_map. setoid_rewrite list_elem_of_fmap. split.
  - intros (? & (o & -> & Ho) & Hg). destruct o as [message|on_input|options on_selected|c on_toggle];
      simpl in Hg.
    + exists message. split; [|done]. by exists (Press message).
    + destruct Hg as [s ->]. exists (on_input s). split; [|done]. exists (Types on_input). split; [done|]. by exists s.
    + destruct Hg as (p & Hp & ->). exists (on_selected p). split; [|done].
      exists (Picks options on_selected). split; [done|]. by exists p.
    + exists (on_toggle (negb c)). split; [|done]. by exists (Toggles c on_toggle).
  - intros (m' & (o & Ho & Hg) & ->). exists (offer_map f o). split; [by exists o|].
    destruct o as [message|on_input|options on_selected|c on_toggle]; simpl in *; naive_solver.
Qed.

(** *** Cards *)

Lemma agent_card_offers {M : Type} (snapshot : ControllerSnapshot.AgentControllerSnapshot) :
  offers (view_agent_card (M := M) snapshot) = [].
Proof. unfold view_agent_card. simpl. by repeat case_match. Qed.

Lemma agent_cards_offers {M : Type} (l : list ControllerSnapshot.AgentControllerSnapshot) :
  flat_map offers (map (view_agent_card (M := M)) l) = [].
Proof. induction l as [|x l IH]; [done|]. simpl map. cbn [flat_map]. by rewrite agent_card_offers, IH. Qed.

Lemma offers_app {M : Type} (l1 l2 : list (Element M)) :
  flat_map offers (l1 ++ l2) = flat_map offers l1 ++ flat_map offers l2.
Proof. by rewrite flat_map_app. Qed.

(** *** Screens *)

Lemma emits_listed {M : Type} (e : Element M) (os : list (Offer M)) (m : M) (Hoffers : offers e = os) :
  emits e m <-> Exists (fun o => gives o m) os.
Proof. unfold emits. by rewrite Hoffers, Exists_exists. Qed.

Ltac listed := rewrite !Exists_cons, Exists_nil; simpl.

Lemma home_emits (data : HomeData) (m : HomeMessage) : emits (view_home data) m.
Proof.
  apply (emits_listed _ [Press HomeStartBalancer; Press HomeJoinBalancer]).
  - unfold view_home. simpl. by case_match.
  - listed. destruct m; auto.
Qed.

Lemma join_form_emits (data : JoinBalancerFormData) (m : JoinMessage) :
  emits (view_join_balancer_form data) m.
Proof.
  apply (emits_listed _ [Types SetJoinAddress; Types SetAgentName; Types SetSlotsCount;
                         Press CancelJoin; Press Connect]).
  - unfold view_join_balancer_form, view_form_field. simpl. by repeat case_match.
  - listed. destruct m; eauto 10.
Qed.

Lemma start_form_emits (data : StartBalancerFormData) (m : StartMessage) :
  emits (view_start_balancer_form data) m <->
  offered (StartBalancerForm data) (StartBalancerFormMsg m).
Proof.
  rewrite (emits_listed _ ([Types SetBalancerAddress; Types SetInferenceAddress;
    Types SetWebAdminPanelAddress]
    ++ (if add_model_later data then [] else [Picks available_presets SelectModel])
    ++ [Toggles (add_model_later data) ToggleAddModelLater; Press CancelStart]
    ++ (if starting data then [] else [Press Confirm]))).
  2: { unfold view_start_balancer_form, view_form_field. simpl. by repeat case_match. }
  rewrite !Exists_app. destruct (add_model_later data) eqn:Hlater, (starting data) eqn:Hstarting; listed;
    destruct m; cbn [offered]; rewrite ?Hlater, ?Hstarting; naive_solver.
Qed.

Lemma running_balancer_emits (data : RunningBalancerData) (m : BalancerMessage) :
  emits (view_running_balancer data) m <->
  offered (RunningBalancer data) (RunningBalancerMsg m).
Proof.
  rewrite (emits_listed _ ([Press (CopyToClipboard (running_balancer_address data))]
    ++ match running_web_admin_panel_address data with
       | Some address => [Press (OpenUrl ("http://" +:+ address))]
       | None => []
       end
    ++ (if stopping data then [] else [Press Stop]))).
  2: { unfold view_running_balancer. cbn [offers flat_map]. rewrite !offers_app.
       assert (Hagents : flat_map offers
         match agent_snapshots (balancer_snapshot data) with
         | [] => [Container (Text "Waiting for agents to connect...")]
         | snapshots => map (view_agent_card (M := BalancerMessage)) snapshots
         end = []) by (destruct (agent_snapshots _) as [|x l]; [done|apply agent_cards_offers]).
       rewrite Hagents. destruct (running_web_admin_panel_address data), (stopping data); done. }
  rewrite !Exists_app.
  destruct (running_web_admin_panel_address data) eqn:Hpanel, (stopping data) eqn:Hstopping; listed;
    destruct m; cbn [offered]; rewrite ?Hpanel, ?Hstopping; naive_solver.
Qed.

Lemma agent_running_emits (data : AgentRunningData) (m : AgentMessage) :
  emits (view_agent_running data) m <-> m = Disconnect.
Proof.
  rewrite (emits_listed _ [Press Disconnect]).
  - listed. naive_solver.
  - unfold view_agent_running. cbn [offers flat_map app].
    by rewrite agent_card_offers.
Qed.

Lemma screen_emits (s : CurrentScreen) (m : Message) : emits (screen_view s) m <-> offered s m.
Proof.
  destruct s as [data|data|data|data|data]; unfold screen_view; rewrite emits_map.
  - setoid_rewrite agent_running_emits. split; [by intros (? & -> & ->)|].
    destruct m as [| | | |[]| | | | | | | |]; simpl; try done. eauto.
  - split; [intros (m' & _ & ->); done|]. destruct m; simpl; try done. intros _. eauto using home_emits.
  - split; [intros (m' & _ & ->); done|]. destruct m; simpl; try done. intros _. eauto using join_form_emits.
  - setoid_rewrite start_form_emits. split; [by intros (m' & Hm & ->)|].
    destruct m; simpl; try done. eauto.
  - setoid_rewrite running_balancer_emits. split; [by intros (m' & Hm & ->)|].
    destruct m; simpl; try done. eauto.
Qed.

Lemma app_view_emits {token : Type} (a : App (token := token)) (m : Message) :
  emits (app_view a) m <-> emits (screen_view (screen a)) m.
Proof.
  unfold emits, app_view. destruct (screen a); cbn [offers flat_map]; rewrite ?app_nil_r; done.
Qed.

Lemma field_error_shown {M : Type} (label : string) (input : Element M) (e : string) :
  e ∈ texts (view_form_field label input (Some e)).
Proof. unfold view_form_field. cbn [texts flat_map app]. set_solver. Qed.

Lemma screen_errors_shown (s : CurrentScreen) (e : string) :
  e ∈ screen_errors s -> e ∈ texts (screen_view s).
Proof.
  intros He. destruct s as [data|data|data|data|data]; simpl in He; try by apply not_elem_of_nil in He.
  all: unfold screen_view; rewrite texts_map.
  - unfold view_home. destruct (error data); simpl in *; set_solver.
  - unfold view_join_balancer_form, view_form_field.
    destruct (join_address_error data), (slots_error data); cbn -[decide] in *; set_solver.
  - unfold view_start_balancer_form, view_form_field.
    destruct (balancer_address_error data), (inference_address_error data),
      (web_admin_panel_address_error data), (model_error data); cbn -[decide] in *; set_solver.
Qed.

(** C40. The interface offers exactly what its screen is meant to offer, and
    hides no error.  Whatever the application holds, the messages its view
    can produce are those of the screen it is on: the fields, Cancel and the
    confirmation of a form, but no confirmation while a cluster starts and only
    the listed models; Stop unless the cluster is stopping; the copy of the
    address and the link to the panel that are shown; Disconnect.  All of them
    are messages of the user, and every error the screen holds is among the
    texts that are shown. *)
Theorem views_offer_operations {token : Type} (a : App (token := token)) :
  (forall m, emits (app_view a) m <-> offered (screen a) m) /\
  (forall m, emits (app_view a) m -> from_user m = true) /\
  (forall e, e ∈ screen_errors (screen a) -> e ∈ texts (app_view a)).
Proof.
  split_and!.
  - intros m. by rewrite app_view_emits, screen_emits.
  - intros m. rewrite app_view_emits, screen_emits.
    destruct (screen a), m as [| | |[]|[]| | | | | | | |]; simpl; done.
  - intros e He. apply screen_errors_shown in He. unfold app_view.
    destruct (screen a); cbn [texts flat_map]; rewrite ?app_nil_r; set_solver.
Qed.

(** ** The agents in the order of their labels *)

Definition label_le (x y : ControllerSnapshot.AgentControllerSnapshot) : Prop :=
  String.leb (agent_label x) (agent_label y) = true.

Lemma insert_by_label_perm (x : ControllerSnapshot.AgentControllerSnapshot)
    (l : list ControllerSnapshot.AgentControllerSnapshot) : insert_by_label x l ≡ₚ x :: l.
Proof.
  induction l as [|y l IH]; simpl; [done|]. destruct (String.leb _ _); [done|].
  rewrite IH. apply Permutation_swap.
Qed.

Lemma insert_by_label_sorted (x : ControllerSnapshot.AgentControllerSnapshot)
    (l : list ControllerSnapshot.AgentControllerSnapshot) :
  Sorted label_le l -> Sorted label_le (insert_by_label x l).
Proof.
  induction 1 as [|y l Hl IH Hy]; simpl; [by repeat constructor|].
  destruct (String.leb (agent_label x) (agent_label y)) eqn:Hxy; [by repeat constructor|].
  constructor; [done|]. assert (Hyx : label_le y x).
  { unfold label_le. destruct (String.leb_total (agent_label x) (agent_label y)); congruence. }
  destruct l as [|z l]; simpl; [by constructor|].
  inversion Hy. by destruct (String.leb (agent_label x) (agent_label z)); constructor.
Qed.

Lemma insert_by_label_stable (x : ControllerSnapshot.AgentControllerSnapshot)
    (l : list ControllerSnapshot.AgentControllerSnapshot) (label : string) :
  filter (fun y => agent_label y = label) (insert_by_label x l)
  = filter (fun y => agent_label y = label) (x :: l).
Proof.
  induction l as [|y l IH]; simpl; [done|]. destruct (String.leb _ _) eqn:Hxy; [done|].
  rewrite filter_cons, IH, !filter_cons. repeat case_decide; try done.
  assert (Heq : agent_label x = agent_label y) by congruence. rewrite Heq in Hxy.
  by destruct (String.leb_total (agent_label y) (agent_label y)); congruence.
Qed.

Lemma sort_by_label_spec (l : list ControllerSnapshot.AgentControllerSnapshot) :
  sort_by_label l ≡ₚ l /\ Sorted label_le (sort_by_label l) /\
  forall label, filter (fun y => agent_label y = label) (sort_by_label l)
                = filter (fun y => agent_label y = label) l.
Proof.
  induction l as [|x l (Hp & Hs & Hf)]; [by repeat constructor|]. simpl. split_and!.
  - by rewrite insert_by_label_perm, Hp.
  - by apply insert_by_label_sorted.
  - intros label. rewrite insert_by_label_stable, !filter_cons. by rewrite Hf.
Qed.

(** The agents that are shown are those of the pool, in the order of their
    labels; agents with one label stay in the order of the pool. *)
Theorem snapshot_shows_pool `{JsonTypes} `{LlamaTypes} {chan : Type -> Type} `{!UnboundedChannel chan}
    {token sender receiver : Type} `{!WatchChannel sender receiver}
    (iteration : gmap string nat -> list (string * nat))
    (pool : AgentControllerPool chan token sender) (holder : @BalancerApplicableStateHolder sender)
    (d : BalancerDesiredState) :
  match running_balancer_snapshot_build iteration pool holder d with
  | Ok s =>
      exists l, pool_make_snapshot iteration pool = Ok l /\
        agent_snapshots s ≡ₚ l /\ Sorted label_le (agent_snapshots s) /\
        (forall label, filter (fun y => agent_label y = label) (agent_snapshots s)
                       = filter (fun y => agent_label y = label) l) /\
        snapshot_applicable_state s = balancer_applicable_state holder /\ snapshot_desired_state s = d
  | Err _ => exists e, pool_make_snapshot iteration pool = Err e
  end.
Proof.
  unfold running_balancer_snapshot_build. destruct (pool_make_snapshot iteration pool) as [l|e]; [|eauto].
  destruct (sort_by_label_spec l) as (Hp & Hs & Hf). exists l. by split_and!.
Qed.

(** A float is shown with the closest number that has so many decimals. *)
Lemma round_half_even_closest (n d : Z) (Hd : 0 < d) :
  2 * Z.abs (round_half_even n d * d - n) <= d.
Proof.
  unfold round_half_even. pose proof (Z.div_mod n d ltac:(lia)). pose proof (Z.mod_pos_bound n d Hd).
  destruct (Z.ltb_spec (2 * (n mod d)) d); [nia|].
  destruct (Z.ltb_spec d (2 * (n mod d))); [nia|]. destruct (Z.even _); nia.
Qed.

Lemma scaled_digits_closest (decimals : Z) (m : positive) (e : Z) (He : e < 0) :
  2 * Z.abs (scaled_digits decimals m e * 2 ^ (- e) - Zpos m * 10 ^ decimals) <= 2 ^ (- e).
Proof.
  unfold scaled_digits. rewrite (proj2 (Z.leb_gt 0 e)) by lia. apply round_half_even_closest. lia.
Qed.

(** The suggested address is empty, or that of an interface of the machine that
    is neither a loopback nor of version 6. *)
Lemma suggested_address_usable (display_v6 : list Z -> string) (interfaces : result (list Interface) string) :
  suggest_address display_v6 interfaces = ""%string \/
  exists l i, interfaces = Ok l /\ i ∈ l /\ is_loopback i = false /\
    is_ipv4 (interface_ip i) = true /\
    suggest_address display_v6 interfaces = display_ip display_v6 (interface_ip i).
Proof.
  unfold suggest_address, detect_network_interfaces. destruct interfaces as [l|]; [|by left].
  destruct (filter _ (filter _ l)) as [|i rest] eqn:Hl; [by left|]. right. exists l, i.
  assert (Hi : i ∈ filter (fun i => is_ipv4 (interface_ip i) = true) (filter (fun i => is_loopback i = false) l))
    by (rewrite Hl; left). apply list_elem_of_filter in Hi as [Hv4 Hi].
  apply list_elem_of_filter in Hi as [Hloop Hi]. done.
Qed.

(** ** Samples *)

Definition sample_app (s : CurrentScreen) : App (token := nat) :=
  {| agent_cancel := None; shutdown := 0%nat; balancer_cancel := None; screen := s |}.

Lemma views_offer_operations_witness :
  let s := StartBalancerForm
    {| add_model_later := false; balancer_address := "10.0.0.1:8060";
       balancer_address_error := Some "Port 8060 is already in use"%string;
       inference_address := "10.0.0.1:8061"; inference_address_error := None; model_error := None;
       selected_model := None; starting := false; web_admin_panel_address := "";
       web_admin_panel_address_error := None; web_admin_panel_address_placeholder := "10.0.0.1:8062" |} in
  emits (app_view (sample_app s)) (StartBalancerFormMsg Confirm) /\
  "Port 8060 is already in use"%string ∈ texts (app_view (sample_app s)) /\
  ~ emits (app_view (sample_app (Home {| error := None |}))) Quit.
Proof.
  intros s.
  destruct (views_offer_operations (sample_app s)) as (Hoffers & _ & Hshown).
  destruct (views_offer_operations (sample_app (Home {| error := None |}))) as (Hhome & _ & _).
  split_and!.
  - by apply Hoffers.
  - apply Hshown. by left.
  - intros Hquit. by apply Hhome in Hquit.
Defined.

Example display_examples :
  display_float 1 (binary_normalize 53 1024 25 (-2) false) = "6.2"%string /\
  display_float 0 (binary_normalize 24 128 5 (-1) false) = "2"%string /\
  display_float 1 (binary_normalize 53 1024 (-1) 0 false) = "-1.0"%string /\
  file_name "/models/./qwen.gguf/" = Some "qwen.gguf"%string /\ file_name "models/.." = None.
Proof. by vm_compute. Qed.
