(* ===== verification/ClientHttp.v ===== *)
(** * The clients over HTTP

    [http_client.rs], [send_checked_request.rs], [reports_health.rs],
    [client_health.rs], [client_management.rs] and [client_inference.rs].

    What a server answers is the argument [network] of the definitions: a
    request goes in with the state of the world, and the outcome of [send] and
    the next state come out; [None] is a request that its token cancelled.  A
    body that could not be written is in the request as its error. *)

From Stdlib Require Import Strings.Ascii.
From S2P Require Import Prelude.
From S2P Require Import Bytes.
From S2P Require Import Messages.
From S2P Require Import Requests.
From S2P Require Import ClientStreams.
From S2P Require Import InferenceSocket.
Local Open Scope Z_scope.

(** ** Requests and answers *)

Inductive Method : Type := GET | POST | PUT.

Record HttpRequest : Type := {
  method : Method;
  request_url : string;
  request_body : option (result string string);
}.

(** [response_text] is what reading the body to its end gives. *)
Record HttpResponse : Type := {
  status : Z;
  response_text : result string string;
}.

Inductive SendOutcome : Type :=
| Responded (response : HttpResponse)
| ConnectFailed (source : string)
| SendFailed (source : string).

(** [paddler_client::error::Error], as far as HTTP goes. *)
Inductive HttpError : Type :=
| Http (source : string)
| Connect (url source : string)
| ServiceUnavailable (message url : string)
| UnexpectedResponseStatus (message : string) (status : Z) (url : string)
| ErrorBodyUnreadable (status : Z) (url source : string)
| RequestCancelled (url : string).

(** What a type of the messages offers: [serde_json]. *)
Class Json (A : Type) : Type := {
  json_to_string : A -> result string string;
  json_from_str : string -> result A string;
}.

(** Texts that read back as what they were written from. *)
Definition json_faithful {A : Type} `{!Json A} (value : A) : Prop :=
  exists text, json_to_string value = Ok text /\ json_from_str text = Ok value.

(** ** URLs *)

(** [trim_end_matches('/')] *)
Fixpoint trim_end_slashes (s : string) : string :=
  match s with
  | EmptyString => EmptyString
  | String a rest =>
      match trim_end_slashes rest with
      | EmptyString => if bool_decide (a = "/"%char) then EmptyString else String a EmptyString
      | trimmed => String a trimmed
      end
  end.

Definition format_api_url (base_url path : string) : string := trim_end_slashes base_url +:+ path.

(** ** One request *)

Definition SERVICE_UNAVAILABLE : Z := 503.

Definition is_success (status : Z) : bool := (200 <=? status) && (status <? 300).

Definition read_error_body (response : HttpResponse) (url : string) : HttpError :=
  match response_text response with
  | Ok message =>
      if status response =? SERVICE_UNAVAILABLE then ServiceUnavailable message url
      else UnexpectedResponseStatus message (status response) url
  | Err source => ErrorBodyUnreadable (status response) url source
  end.

Definition checked (url : string) (send_result : option SendOutcome)
    : result HttpResponse HttpError :=
  match send_result with
  | None => Err (RequestCancelled url)
  | Some (Responded response) =>
      if is_success (status response) then Ok response else Err (read_error_body response url)
  | Some (ConnectFailed source) => Err (Connect url source)
  | Some (SendFailed source) => Err (Http source)
  end.

Section Client.
Context {W : Type} (network : HttpRequest -> W -> W * option SendOutcome).

Definition send_checked_request (request : HttpRequest) (w : W)
    : W * result HttpResponse HttpError :=
  let '(w, send_result) := network request w in (w, checked (request_url request) send_result).

(** ** [HttpClient] *)

Record HttpClient : Type := { base_url : string }.

Definition http_get (client : HttpClient) (path : string) : W -> W * result HttpResponse HttpError :=
  send_checked_request
    {| method := GET; request_url := format_api_url (base_url client) path; request_body := None |}.

Definition get_json {A : Type} `{!Json A} (client : HttpClient) (path : string) (w : W)
    : W * result A HttpError :=
  let '(w, response) := http_get client path w in
  (w, let? response := response in
      match response_text response with
      | Ok text =>
          match json_from_str text with Ok value => Ok value | Err source => Err (Http source) end
      | Err source => Err (Http source)
      end).

Definition get_text (client : HttpClient) (path : string) (w : W) : W * result string HttpError :=
  let '(w, response) := http_get client path w in
  (w, let? response := response in
      match response_text response with Ok text => Ok text | Err source => Err (Http source) end).

Definition send_json {A : Type} `{!Json A} (client : HttpClient) (m : Method) (path : string)
    (body : A) : W -> W * result HttpResponse HttpError :=
  send_checked_request
    {| method := m; request_url := format_api_url (base_url client) path;
       request_body := Some (json_to_string body) |}.

Definition post_json {A : Type} `{!Json A} (client : HttpClient) : string -> A -> W ->
    W * result HttpResponse HttpError := send_json client POST.

Definition put_json {A : Type} `{!Json A} (client : HttpClient) : string -> A -> W ->
    W * result HttpResponse HttpError := send_json client PUT.

(** ** Health *)

Definition get_health (client : HttpClient) : W -> W * result string HttpError :=
  get_text client "/health".

(** The loop of [wait_until_healthy], over the attempts made so far; [None]
    while it sleeps before the next. *)
Definition probe_again (e : HttpError) : bool :=
  match e with Connect _ _ | ServiceUnavailable _ _ => true | _ => false end.

Fixpoint wait_until_healthy (probes : nat) (client : HttpClient) (w : W)
    : W * option (result unit HttpError) :=
  match probes with
  | O => (w, None)
  | S probes =>
      match get_health client w with
      | (w, Ok _) => (w, Some (Ok tt))
      | (w, Err e) => if probe_again e then wait_until_healthy probes client w else (w, Some (Err e))
      end
  end.

(** ** [ClientManagement] *)

Section Management.
Context {AgentsSnapshot BufferedSnapshot Applicable Template Metadata : Type}.
Context `{!Json AgentsSnapshot} `{!Json BufferedSnapshot} `{!Json Applicable} `{!Json Template}
  `{!Json Metadata} `{!Json BalancerDesiredState}.

Definition get_agents (client : HttpClient) : W -> W * result AgentsSnapshot HttpError :=
  get_json client "/api/v1/agents".

Definition get_balancer_desired_state (client : HttpClient)
    : W -> W * result BalancerDesiredState HttpError :=
  get_json client "/api/v1/balancer_desired_state".

Definition get_balancer_applicable_state (client : HttpClient)
    : W -> W * result Applicable HttpError :=
  get_json client "/api/v1/balancer_applicable_state".

Definition put_balancer_desired_state (client : HttpClient) (state : BalancerDesiredState) (w : W)
    : W * result unit HttpError :=
  let '(w, response) := put_json client "/api/v1/balancer_desired_state" state w in
  (w, let? _ := response in Ok tt).

Definition get_buffered_requests (client : HttpClient) : W -> W * result BufferedSnapshot HttpError :=
  get_json client "/api/v1/buffered_requests".

(** The responses of the two streams, read by [snapshots_of_response]. *)
Definition get_agents_stream (client : HttpClient) : W -> W * result HttpResponse HttpError :=
  http_get client "/api/v1/agents/stream".

Definition get_buffered_requests_stream (client : HttpClient)
    : W -> W * result HttpResponse HttpError :=
  http_get client "/api/v1/buffered_requests/stream".

Definition get_chat_template_override (client : HttpClient) (agent_id : string)
    : W -> W * result Template HttpError :=
  get_json client ("/api/v1/agent/" +:+ agent_id +:+ "/chat_template_override").

Definition get_model_metadata (client : HttpClient) (agent_id : string)
    : W -> W * result Metadata HttpError :=
  get_json client ("/api/v1/agent/" +:+ agent_id +:+ "/model_metadata").

Definition get_metrics (client : HttpClient) : W -> W * result string HttpError :=
  get_text client "/metrics".
End Management.

(** ** [ClientInference] over HTTP

    The answer is decoded as it arrives ([ClientStreams]). *)

Definition post_streaming {A : Type} `{!Json A} (client : HttpClient) : string -> A -> W ->
    W * result HttpResponse HttpError := post_json client.

Definition post_continue_from_conversation_history
    `{!Json (ContinueFromConversationHistoryParams ValidatedParametersSchema)}
    (client : HttpClient) (params : ContinueFromConversationHistoryParams ValidatedParametersSchema)
    : W -> W * result HttpResponse HttpError :=
  post_streaming client "/api/v1/continue_from_conversation_history" params.

Definition post_continue_from_raw_prompt `{!Json ContinueFromRawPromptParams}
    (client : HttpClient) (params : ContinueFromRawPromptParams)
    : W -> W * result HttpResponse HttpError :=
  post_streaming client "/api/v1/continue_from_raw_prompt" params.

Definition post_generate_embedding_batch `{!Json GenerateEmbeddingBatchParams}
    (client : HttpClient) (params : GenerateEmbeddingBatchParams)
    : W -> W * result HttpResponse HttpError :=
  post_streaming client "/api/v1/generate_embedding_batch" params.
End Client.

(** ** Streams of snapshots *)

Section SnapshotStreams.
Context {Snapshot ParseError TransportError : Type} (from_str : bytes -> result Snapshot ParseError).

Inductive SnapshotError : Type :=
| StreamFailed (e : StreamError ParseError TransportError)
| SnapshotJson (e : ParseError).

Definition parse_snapshot (item : result bytes (StreamError ParseError TransportError))
    : result Snapshot SnapshotError :=
  match item with
  | Ok data => match from_str data with Ok snapshot => Ok snapshot | Err e => Err (SnapshotJson e) end
  | Err e => Err (StreamFailed e)
  end.

(** [get_agents_stream] and [get_buffered_requests_stream], polled to the end. *)
Definition snapshots_of_response (turns : list (@Turn TransportError))
    : list (result Snapshot SnapshotError) :=
  map parse_snapshot (fst (poll_to_end sse None stream_new turns)).
End SnapshotStreams.

(** ** The URL of the inference socket

    [inference_socket/url.rs], over the URLs of the library. *)

Class UrlLibrary : Type := {
  Url : Type;
  url_scheme : Url -> string;
  url_path : Url -> string;
  url_as_str : Url -> string;
  url_set_scheme : string -> Url -> option Url;
  url_set_path : string -> Url -> Url;
  url_scheme_set (scheme : string) (u u' : Url) :
    url_set_scheme scheme u = Some u' -> url_scheme u' = scheme;
  url_path_set (path : string) (u : Url) :
    String.prefix "/" path = true -> url_path (url_set_path path u) = path;
  url_scheme_kept (path : string) (u : Url) : url_scheme (url_set_path path u) = url_scheme u;
}.

Inductive UrlError : Type := InferenceSocketUrlSchemeRejected (scheme url : string).

Definition inference_socket_url `{UrlLibrary} (input : Url) : result Url UrlError :=
  let scheme :=
    if decide (url_scheme input = "http"%string) then "ws"%string
    else if decide (url_scheme input = "https"%string) then "wss"%string
    else url_scheme input in
  match url_set_scheme scheme input with
  | Some url => Ok (url_set_path "/api/v1/inference_socket" url)
  | None => Err (InferenceSocketUrlSchemeRejected scheme (url_as_str input))
  end.

(** ** [ClientInference] over the socket *)

Section Socket.
Context `{LlamaTypes}.

Record ClientInference : Type := {
  inference_http_client : HttpClient;
  inference_socket_pool : InferenceSocket.Pool;
}.

Definition client_inference_new (url : string) (pool_size : nat) : ClientInference :=
  {| inference_http_client := {| base_url := url |};
     inference_socket_pool := pool_new pool_size |}.

Inductive SocketRequest : Type :=
| SocketConversation (params : ContinueFromConversationHistoryParams ValidatedParametersSchema)
| SocketRawPrompt (params : ContinueFromRawPromptParams).

(** [request_id] is the fresh [nanoid!()]; the other arguments are those of
    [send_request]. *)
Definition send_over_inference_socket (request_to_string : string -> SocketRequest -> result string string)
    (is_cancelled : bool) (first second : InferenceSocket.Pool -> InferenceSocket.Pool)
    (connected reconnected : result unit string) (request_id : string) (request : SocketRequest)
    (client : ClientInference) : ClientInference * result (nat * ResponseStream) SocketError :=
  let '(pool, sent) :=
    send_request is_cancelled first second connected reconnected
      (request_to_string request_id request) request_id (inference_socket_pool client) in
  ({| inference_http_client := inference_http_client client; inference_socket_pool := pool |}, sent).

Definition continue_from_conversation_history request_to_string is_cancelled first second connected
    reconnected request_id params :=
  send_over_inference_socket request_to_string is_cancelled first second connected reconnected
    request_id (SocketConversation params).

Definition continue_from_raw_prompt request_to_string is_cancelled first second connected
    reconnected request_id params :=
  send_over_inference_socket request_to_string is_cancelled first second connected reconnected
    request_id (SocketRawPrompt params).
End Socket.
