(* ===== verification/SnapshotsStream.v ===== *)
(** * Streams of snapshots

    [snapshots_stream.rs] with the two producers it is used with, the pool
    ([agent_controller_pool.rs]) and the buffered requests
    ([buffered_request_manager.rs]), and the events [get_agents_stream.rs] and
    [get_buffered_requests_stream.rs] make of the snapshots.  The framing of
    server-sent events belongs to a library and is the class [SseEncoding]. *)

From S2P Require Import Prelude.
From S2P Require Import Tokio.
From S2P Require Import Messages.
From S2P Require Import Bytes.
From S2P Require Import Requests.
From S2P Require Import Senders.
From S2P Require Import SlotStatus.
From S2P Require Import AgentController.
From S2P Require Import AgentPool.
From S2P Require Import BufferedRequests.
From S2P Require Import ClientStreams.
From S2P Require Import AtomicValue.
From S2P Require Import ClientDecoding.
From S2P Require Import ClientHttp.
Import Controller.
Local Open Scope Z_scope.

(** ** Producers

    [ProducesSnapshot] and [SubscribesToUpdates]: what a stream asks of the
    component it watches. *)

Class WatchedProducer (P Snapshot sender : Type) : Type := {
  make_snapshot : P -> result Snapshot string;
  update_tx : P -> sender;
}.

(** What the component promises: an operation changes it and then announces
    the change with [announce], or it is quiet and changes nothing a snapshot
    shows.  What it does not announce although a snapshot may show it is
    [unannounced]. *)
Class AnnouncesChanges (P Snapshot sender receiver : Type) `{!WatchChannel sender receiver}
    `{!WatchedProducer P Snapshot sender} : Type := {
  announce : P -> P;
  changes : relation P;
  quiet : relation P;
  unannounced : relation P;
  announce_tx p : update_tx (announce p) = watch_send_replace (update_tx p);
  announce_snapshot p : make_snapshot (announce p) = make_snapshot p;
  changes_tx p p' : changes p p' -> update_tx p' = update_tx p;
  quiet_tx p p' : quiet p p' -> update_tx p' = update_tx p;
  quiet_snapshot p p' : quiet p p' -> make_snapshot p' = make_snapshot p;
  unannounced_tx p p' : unannounced p p' -> update_tx p' = update_tx p;
}.

(** ** The stream *)

Section SnapshotsStream.
Context {P Snapshot sender receiver : Type} `{!WatchChannel sender receiver}
  `{!WatchedProducer P Snapshot sender}.

(** Where the generator is: the receiver is made when it is first polled. *)
Inductive StreamPhase : Type :=
| NotPolled
| Producing (update_rx : receiver)
| Selecting (update_rx : receiver)
| StreamEnded.

(** [produced] are the results of [make_snapshot] so far; the successful ones
    are yielded, the others only logged. *)
Record SnapshotsStream : Type := {
  phase : StreamPhase;
  produced : list (result Snapshot string);
}.

Definition snapshots_stream : SnapshotsStream := {| phase := NotPolled; produced := [] |}.

Definition yielded (s : SnapshotsStream) : list Snapshot :=
  omap (fun r => match r with Ok snapshot => Some snapshot | Err _ => None end) (produced s).

(** The branch of the [select!] that is taken. *)
Inductive StreamWake : Type := ShutdownCancelled | UpdateChanged | UpdateSenderGone.

Definition stream_subscribe (p : P) (s : SnapshotsStream) : SnapshotsStream :=
  match phase s with
  | NotPolled => {| phase := Producing (watch_subscribe (update_tx p)); produced := produced s |}
  | _ => s
  end.

Definition stream_produce (p : P) (s : SnapshotsStream) : SnapshotsStream :=
  match phase s with
  | Producing update_rx =>
      {| phase := Selecting update_rx; produced := produced s ++ [make_snapshot p] |}
  | _ => s
  end.

Definition stream_select (wake : StreamWake) (p : P) (s : SnapshotsStream) : SnapshotsStream :=
  match phase s with
  | Selecting update_rx =>
      match wake with
      | ShutdownCancelled | UpdateSenderGone => {| phase := StreamEnded; produced := produced s |}
      | UpdateChanged =>
          {| phase := Producing (watch_mark_seen (update_tx p) update_rx); produced := produced s |}
      end
  | _ => s
  end.

(** ** The stream beside its producer

    The announcements still to be made are those of operations that are
    between their change and their [send_replace]; [missed] says that something
    changed unannounced since the last announcement. *)

Record Watched : Type := {
  producer : P;
  to_announce : nat;
  missed : bool;
  shutdown : bool;
  stream : SnapshotsStream;
}.

Definition watched_initial (p : P) : Watched :=
  {| producer := p; to_announce := 0; missed := false; shutdown := false;
     stream := snapshots_stream |}.

Context {receiver_announces : AnnouncesChanges P Snapshot sender receiver}.

Inductive watched_step : relation Watched :=
| watched_change y p :
    changes (producer y) p ->
    watched_step y {| producer := p; to_announce := S (to_announce y); missed := missed y;
                      shutdown := shutdown y;
                      stream := stream y |}
| watched_quiet y p :
    quiet (producer y) p ->
    watched_step y {| producer := p; to_announce := to_announce y; missed := missed y;
                      shutdown := shutdown y;
                      stream := stream y |}
| watched_unannounced y p :
    unannounced (producer y) p ->
    watched_step y {| producer := p; to_announce := to_announce y; missed := true;
                      shutdown := shutdown y;
                      stream := stream y |}
| watched_announce y n :
    to_announce y = S n ->
    watched_step y {| producer := announce (producer y); to_announce := n; missed := false;
                      shutdown := shutdown y;
                      stream := stream y |}
| watched_shutdown y :
    watched_step y {| producer := producer y; to_announce := to_announce y; missed := missed y;
                      shutdown := true;
                      stream := stream y |}
| watched_subscribe_step y :
    watched_step y {| producer := producer y; to_announce := to_announce y; missed := missed y;
                      shutdown := shutdown y;
                      stream := stream_subscribe (producer y) (stream y) |}
| watched_produce y :
    watched_step y {| producer := producer y; to_announce := to_announce y; missed := missed y;
                      shutdown := shutdown y;
                      stream := stream_produce (producer y) (stream y) |}
| watched_changed y update_rx :
    phase (stream y) = Selecting update_rx ->
    watch_has_changed (update_tx (producer y)) update_rx = true ->
    watched_step y {| producer := producer y; to_announce := to_announce y; missed := missed y;
                      shutdown := shutdown y;
                      stream := stream_select UpdateChanged (producer y) (stream y) |}
| watched_ends y :
    shutdown y = true ->
    watched_step y {| producer := producer y; to_announce := to_announce y; missed := missed y;
                      shutdown := shutdown y;
                      stream := stream_select ShutdownCancelled (producer y) (stream y) |}.
End SnapshotsStream.
Arguments SnapshotsStream : clear implicits.
Arguments Watched : clear implicits.

(** ** The pool *)

Section PoolProducer.
Context `{JsonTypes} `{LlamaTypes} {chan : Type -> Type} `{!UnboundedChannel chan} {token : Type}.
Context {sender receiver : Type} `{!WatchChannel sender receiver}.
Context (iteration : gmap string nat -> list (string * nat)).
Local Abbreviation AgentController := (AgentController chan token).
Local Abbreviation Pool := (AgentControllerPool chan token sender).
Local Abbreviation AgentsSnapshot := (list ControllerSnapshot.AgentControllerSnapshot).

#[local] Instance pool_producer : WatchedProducer Pool AgentsSnapshot sender :=
  {| make_snapshot := pool_make_snapshot iteration; update_tx := pool_update_tx |}.

(** The operations of the pool that announce: [p'] is the pool they leave
    before [send_replace]. *)
Inductive pool_changes (p p' : Pool) : Prop :=
| changes_claim c d :
    pool_update_tx p' = pool_update_tx p -> try_claim c p = (signal_update p', Ok d) ->
    pool_changes p p'
| changes_finish g :
    pool_update_tx p' = pool_update_tx p -> drop_slot_guard g p = signal_update p' ->
    pool_changes p p'
| changes_register agent_id loc a :
    get_agent_controller agent_id p = None -> controllers p !! loc = None ->
    p' = store_agents (<[agent_id := loc]> (agents p))
           (store_controllers (<[loc := a]> (controllers p)) p) ->
    pool_changes p p'
| changes_remove agent_id :
    is_Some (get_agent_controller agent_id p) ->
    p' = store_agents (delete agent_id (agents p)) p -> pool_changes p p'
| changes_report loc a snap a' :
    controllers p !! loc = Some a ->
    update_from_slot_aggregated_status_snapshot snap a = (a', Updated) ->
    p' = store_controllers (<[loc := a']> (controllers p)) p -> pool_changes p p'.

(** Those that do not: a claim that lost, the removal of an agent that is not
    there, a report without news, and whatever is sent to or answered by an
    agent. *)
Inductive pool_quiet (p p' : Pool) : Prop :=
| quiet_claim c c' : try_claim c p = (p', Err c') -> pool_quiet p p'
| quiet_remove agent_id :
    get_agent_controller agent_id p = None -> fst (remove_agent_controller agent_id p) = p' ->
    pool_quiet p p'
| quiet_report loc a snap a' :
    controllers p !! loc = Some a ->
    update_from_slot_aggregated_status_snapshot snap a = (a', NoMeaningfulChanges) ->
    p' = store_controllers (<[loc := a']> (controllers p)) p -> pool_quiet p p'
| quiet_message loc a a' :
    controllers p !! loc = Some a -> controller_make_snapshot a' = controller_make_snapshot a ->
    p' = store_controllers (<[loc := a']> (controllers p)) p -> pool_quiet p p'.

(** And what changes the pool all the same: a registration under a taken id
    is an error, and puts its controller in the place of the old one. *)
Inductive pool_unannounced (p p' : Pool) : Prop :=
| unannounced_register agent_id loc a e :
    controllers p !! loc = None ->
    register_agent_controller agent_id loc
      (store_controllers (<[loc := a]> (controllers p)) p) = (p', Err e) ->
    pool_unannounced p p'.
End PoolProducer.

(** ** The buffered requests *)

Record BufferedRequestManagerSnapshot : Type := { buffered_requests_current : Z }.

Section BufferProducer.
Context `{JsonTypes} `{LlamaTypes} {chan : Type -> Type} `{!UnboundedChannel chan} {token : Type}.
Context {sender receiver : Type} `{!WatchChannel sender receiver}.
Local Abbreviation Manager := (BufferedRequestManager chan token sender).

Definition manager_make_snapshot (m : Manager) : result BufferedRequestManagerSnapshot string :=
  Ok {| buffered_requests_current := count (buffered_request_counter m) |}.

#[local] Instance buffer_producer : WatchedProducer Manager BufferedRequestManagerSnapshot sender :=
  {| make_snapshot := manager_make_snapshot;
     update_tx := fun m => counter_update_tx (buffered_request_counter m) |}.

Definition announce_count (m : Manager) : Manager :=
  store_counter {| count := count (buffered_request_counter m);
                   counter_update_tx := watch_send_replace
                     (counter_update_tx (buffered_request_counter m)) |} m.

(** Counting a request in or out. *)
Inductive count_changes (m m' : Manager) : Prop :=
| changes_increment :
    counter_update_tx (buffered_request_counter m')
      = counter_update_tx (buffered_request_counter m) ->
    increment_with_guard m = announce_count m' -> count_changes m m'
| changes_decrement :
    counter_update_tx (buffered_request_counter m')
      = counter_update_tx (buffered_request_counter m) ->
    drop_count_guard m = announce_count m' -> count_changes m m'.

Definition count_quiet (m m' : Manager) : Prop :=
  exists p, m' = store_pool p m.
End BufferProducer.

(** ** Events *)

Class SseEncoding : Type := {
  event_bytes : string -> bytes;
  keep_alive_bytes : bytes;
  (** a data field and an empty line *)
  event_bytes_line (text : string) :
    newline ∉ String.list_byte_of_string text ->
    event_bytes text = DATA_FIELD_PREFIX ++ String.list_byte_of_string text ++ [newline; newline];
  (** a comment and an empty line *)
  keep_alive_comment : exists comment,
    (newline ∉ comment) /\ valid_utf8 comment = true /\
    keep_alive_bytes = String.list_byte_of_string ":" ++ comment ++ [newline; newline];
}.

Section Events.
Context `{SseEncoding} {Snapshot : Type} (to_string : Snapshot -> result string string).

(** [filter_map]: a snapshot that cannot be written is logged and skipped. *)
Definition serialize_snapshot_event (snapshot : Snapshot) : option string :=
  match to_string snapshot with Ok json => Some json | Err _ => None end.

(** What the body carries: the events of the snapshots, and the comments
    [with_keep_alive] puts between them. *)
Inductive Frame : Type := Event (snapshot : Snapshot) | KeepAlive.

Definition frame_bytes (f : Frame) : bytes :=
  match f with
  | Event snapshot =>
      match serialize_snapshot_event snapshot with Some json => event_bytes json | None => [] end
  | KeepAlive => keep_alive_bytes
  end.

Definition event_stream_bytes (frames : list Frame) : bytes := concat (map frame_bytes frames).

Definition framed (frames : list Frame) : list Snapshot :=
  omap (fun f => match f with Event snapshot => Some snapshot | KeepAlive => None end) frames.
End Events.

(** ** A stream of snapshots shows the present

    An idle stream has yielded the state its producer is in, for every
    producer that announces its changes, as the pool and the buffered requests
    do; and the snapshots arrive at the client as they were yielded. *)

(** ** Any producer *)

Section Watching.
Context {P Snapshot sender receiver : Type} `{!WatchChannel sender receiver}
  `{!WatchedProducer P Snapshot sender} {A : AnnouncesChanges P Snapshot sender receiver}.
Local Abbreviation Watched := (Watched P Snapshot receiver).

(** A waiting stream that has nothing to see, while nothing is about to be
    announced, is up to date. *)
Definition watched_ok (y : Watched) : Prop :=
  match phase (stream y) with
  | NotPolled | StreamEnded => True
  | Producing update_rx => watch_valid (update_tx (producer y)) update_rx
  | Selecting update_rx =>
      watch_valid (update_tx (producer y)) update_rx /\
      (watch_has_changed (update_tx (producer y)) update_rx = false -> to_announce y = 0%nat ->
       missed y = false ->
       last (produced (stream y)) = Some (make_snapshot (producer y)))
  end.

Lemma watched_step_ok (y y' : Watched) : watched_step y y' -> watched_ok y -> watched_ok y'.
Proof.
  unfold watched_ok. intros Hstep Hok. destruct Hstep; simpl.
  - rewrite (changes_tx _ _ H). destruct (phase (stream y)); try done. by destruct Hok.
  - by rewrite (quiet_tx _ _ H), (quiet_snapshot _ _ H).
  - rewrite (unannounced_tx _ _ H). destruct (phase (stream y)); try done. by destruct Hok.
  - rewrite announce_tx, announce_snapshot. destruct (phase (stream y)); try done.
    + by apply watch_send_valid.
    + destruct Hok as [Hv _]. split; [by apply watch_send_valid|]. by rewrite watch_send_changed.
  - done.
  - unfold stream_subscribe. destruct (phase (stream y)) eqn:Hphase; simpl; rewrite ?Hphase; try done.
    apply watch_subscribe_valid.
  - unfold stream_produce. destruct (phase (stream y)) eqn:Hphase; simpl; rewrite ?Hphase; try done.
    split; [done|]. intros _ _ _. by rewrite last_snoc.
  - unfold stream_select. rewrite H in *. simpl. apply watch_mark_seen_valid. by destruct Hok.
  - unfold stream_select. by destruct (phase (stream y)) eqn:Hphase; simpl; rewrite ?Hphase.
Qed.

Lemma watched_reachable_ok (p : P) (y : Watched) :
  rtc watched_step (watched_initial p) y -> watched_ok y.
Proof.
  intros Hreach. apply (rtc_invariant _ watched_ok _ _ Hreach); [done|].
  intros y1 y2 Hok Hstep. by eapply watched_step_ok.
Qed.

(** C34. A client that watches is never left with an old state.  However the
    operations of a component, their announcements and the stream of its
    snapshots interleave, once every change has been announced (and nothing
    changed unannounced since the last announcement: the pool does not announce
    a registration that replaces the controller of a taken id) a waiting stream has produced the snapshot of the present as its last one, or it has
    a change to see and then produces that snapshot next. *)
Theorem idle_stream_is_current (p : P) (y : Watched) (update_rx : receiver)
    (Hreach : rtc watched_step (watched_initial p) y)
    (Hwaiting : phase (stream y) = Selecting update_rx) (Hannounced : to_announce y = 0%nat)
    (Hmissed : missed y = false) :
  let now := make_snapshot (producer y) in
  last (produced (stream y)) = Some now \/
  (watch_has_changed (update_tx (producer y)) update_rx = true /\
   last (produced (stream_produce (producer y)
                     (stream_select UpdateChanged (producer y) (stream y)))) = Some now).
Proof.
  pose proof (watched_reachable_ok p y Hreach) as Hok. unfold watched_ok in Hok.
  rewrite Hwaiting in Hok. destruct Hok as [_ Hcurrent].
  destruct (watch_has_changed (update_tx (producer y)) update_rx) eqn:Hchanged; [right | left; by apply Hcurrent].
  split; [done|]. unfold stream_select. rewrite Hwaiting. simpl. by rewrite last_snoc.
Qed.
End Watching.

(** ** The pool announces its changes *)

Section PoolAnnounces.
Context `{JsonTypes} `{LlamaTypes} {chan : Type -> Type} `{!UnboundedChannel chan} {token : Type}.
Context {sender receiver : Type} `{!WatchChannel sender receiver}.
Context (iteration : gmap string nat -> list (string * nat)).
Local Abbreviation Pool := (AgentControllerPool chan token sender).

Lemma snapshot_entries_same (h h' : gmap nat (AgentController chan token))
    (entries : list (string * nat)) :
  (forall loc, controller_make_snapshot <$> h !! loc = controller_make_snapshot <$> h' !! loc) ->
  snapshot_entries h entries = snapshot_entries h' entries.
Proof.
  intros Hsame. induction entries as [|[k loc] entries IH]; simpl; [done|].
  specialize (Hsame loc). rewrite IH.
  destruct (h !! loc), (h' !! loc); simplify_eq/=; [|done]. by rewrite Hsame.
Qed.

Lemma store_quiet_snapshot (p : Pool) (loc : nat) (a a' : AgentController chan token) :
  controllers p !! loc = Some a -> controller_make_snapshot a' = controller_make_snapshot a ->
  pool_make_snapshot iteration (store_controllers (<[loc := a']> (controllers p)) p)
  = pool_make_snapshot iteration p.
Proof.
  intros Ha Hsame. unfold pool_make_snapshot. simpl. apply snapshot_entries_same. intros l.
  destruct (decide (l = loc)) as [->|Hne].
  - rewrite lookup_insert_eq, Ha. simpl. by rewrite Hsame.
  - by rewrite lookup_insert_ne.
Qed.

Lemma report_without_news (snap : Snapshot.SlotAggregatedStatusSnapshot)
    (a a' : AgentController chan token) :
  update_from_slot_aggregated_status_snapshot snap a = (a', NoMeaningfulChanges) ->
  controller_make_snapshot a' = controller_make_snapshot a.
Proof.
  intros Hupdate. destruct (Z.ltb_spec (Snapshot.version snap) (newest_update_version a)) as [Hv|Hv].
  { rewrite update_stale in Hupdate by done. by simplify_eq. }
  destruct (update_fresh snap a Hv) as [Ha Hc]. rewrite Hupdate in Ha, Hc. simpl in *.
  destruct (proj1 Hc eq_refl) as [Hm Hrate]. subst a'. unfold rate_close in Hrate.
  unfold controller_make_snapshot, updated_controller, mirrored, mirrored_snapshot in *. simpl.
  rewrite Hrate. clear Hc Hupdate. injection Hm as -> -> -> -> -> -> -> -> -> ->. done.
Qed.

#[local] Instance pool_watched : WatchedProducer Pool _ sender := pool_producer iteration.

#[local] Obligation Tactic := idtac.
Program Definition pool_announces : AnnouncesChanges Pool _ sender receiver :=
  {| announce := signal_update; changes := pool_changes; quiet := pool_quiet;
     unannounced := pool_unannounced |}.
Next Obligation. done. Qed.
Next Obligation. done. Qed.
Next Obligation. intros p p' []; by subst. Qed.
Next Obligation.
  intros p p' [c c' Hclaim|agent_id Hid <-|loc a snap a' _ _ ->|loc a a' _ _ ->]; try done.
  - unfold try_claim in Hclaim. destruct (controllers p !! _) as [a|]; [|by simplify_eq].
    destruct (compare_and_swap _ _ _) as [[] slots]; by simplify_eq.
  - unfold remove_agent_controller, get_agent_controller in *. by rewrite Hid.
Qed.
Next Obligation.
  intros p p' [c c' Hclaim|agent_id Hid <-|loc a snap a' Ha Hupdate ->|loc a a' Ha Hsame ->].
  - unfold try_claim in Hclaim. destruct (controllers p !! _) as [a|]; [|by simplify_eq].
    destruct (compare_and_swap _ _ _) as [[] slots]; by simplify_eq.
  - unfold remove_agent_controller, get_agent_controller in *. rewrite Hid. simpl.
    unfold pool_make_snapshot. simpl. by rewrite delete_id.
  - by eapply store_quiet_snapshot, report_without_news.
  - by eapply store_quiet_snapshot.
Qed.
Next Obligation.
  intros p p' [agent_id loc a e _ Hregister]. unfold register_agent_controller in Hregister.
  simpl in Hregister. destruct (agents p !! agent_id); by simplify_eq.
Qed.
End PoolAnnounces.

(** ** So do the buffered requests *)

Section BufferAnnounces.
Context `{JsonTypes} `{LlamaTypes} {chan : Type -> Type} `{!UnboundedChannel chan} {token : Type}.
Context {sender receiver : Type} `{!WatchChannel sender receiver}.
Local Abbreviation Manager := (BufferedRequestManager chan token sender).

#[local] Instance buffer_watched : WatchedProducer Manager _ sender := buffer_producer.

#[local] Obligation Tactic := idtac.
Program Definition buffer_announces : AnnouncesChanges Manager _ sender receiver :=
  {| announce := announce_count; changes := count_changes; quiet := count_quiet;
     unannounced _ _ := False |}.
Next Obligation. done. Qed.
Next Obligation. done. Qed.
Next Obligation. by intros p p' []. Qed.
Next Obligation. by intros p p' [q ->]. Qed.
Next Obligation. by intros p p' [q ->]. Qed.
Next Obligation. done. Qed.
End BufferAnnounces.

(** ** The trip to the client *)

Section Events.
Context `{SseEncoding} {Snapshot ParseError TransportError : Type}.
Context (to_string : Snapshot -> result string string) (from_str : bytes -> result Snapshot ParseError).

(** [serde_json] writes one line of UTF-8 that does not end in a carriage
    return, and reads back what it wrote. *)
Record SnapshotText (text : string) (snapshot : Snapshot) : Prop := {
  text_one_line : (newline ∉ String.list_byte_of_string text);
  text_utf8 : valid_utf8 (String.list_byte_of_string text) = true;
  text_trimmed :
    trim_end_matches carriage_return (DATA_FIELD_PREFIX ++ String.list_byte_of_string text)
    = DATA_FIELD_PREFIX ++ String.list_byte_of_string text;
  text_parses : from_str (String.list_byte_of_string text) = Ok snapshot;
}.

Definition snapshot_written (snapshot : Snapshot) : Prop :=
  exists text, to_string snapshot = Ok text /\ SnapshotText text snapshot.

Local Abbreviation sse_line :=
  (on_line (sse (ParseError := ParseError) (TransportError := TransportError))).

(** The lines of a frame, and what the decoder makes of them. *)
Definition snapshot_items (f : Frame (Snapshot := Snapshot))
    : list (result Snapshot (SnapshotError (ParseError := ParseError)
                               (TransportError := TransportError))) :=
  match f with Event snapshot => [Ok snapshot] | KeepAlive => [] end.

Lemma strip_data_prefix (data : bytes) :
  strip_prefix DATA_FIELD_PREFIX (DATA_FIELD_PREFIX ++ data) = Some data.
Proof. reflexivity. Qed.

Lemma valid_utf8_data (s : bytes) :
  valid_utf8 s = true -> valid_utf8 (DATA_FIELD_PREFIX ++ s) = true.
Proof. unfold valid_utf8. by rewrite utf8_run_app. Qed.

Lemma valid_utf8_comment (s : bytes) :
  valid_utf8 s = true -> valid_utf8 (String.list_byte_of_string ":" ++ s) = true.
Proof. unfold valid_utf8. by rewrite utf8_run_app. Qed.

Lemma data_line (text : string) (snapshot : Snapshot) (Htext : SnapshotText text snapshot) :
  sse_line (from_utf8 (DATA_FIELD_PREFIX ++ String.list_byte_of_string text))
  = Some (Ok (String.list_byte_of_string text)).
Proof.
  destruct Htext as [_ Hutf8 Htrim _]. unfold from_utf8. rewrite valid_utf8_data by done.
  cbn [on_line sse]. by rewrite Htrim, strip_data_prefix.
Qed.

Lemma drop_leading_suffix (b : byte) (s : bytes) : exists dropped, s = dropped ++ drop_leading b s.
Proof.
  induction s as [|a s [dropped IH]]; [by exists []|]. simpl. case_bool_decide.
  - exists (a :: dropped). simpl. by rewrite <- IH.
  - by exists [].
Qed.

Lemma trim_end_matches_prefix (b : byte) (s : bytes) : exists rest, s = trim_end_matches b s ++ rest.
Proof.
  unfold trim_end_matches. destruct (drop_leading_suffix b (rev s)) as [dropped Hs].
  exists (rev dropped). rewrite <- (rev_involutive s) at 1. rewrite Hs at 1. apply rev_app_distr.
Qed.

Lemma comment_line (comment : bytes) :
  valid_utf8 comment = true ->
  sse_line (from_utf8 (String.list_byte_of_string ":" ++ comment)) = None.
Proof.
  intros Hutf8. unfold from_utf8. rewrite valid_utf8_comment by done. cbn [on_line sse].
  destruct (trim_end_matches_prefix carriage_return (String.list_byte_of_string ":" ++ comment))
    as [rest Hs].
  destruct (trim_end_matches carriage_return _) as [|b trimmed]; [done|].
  simpl in Hs. by injection Hs as <- _.
Qed.

(** A line and the empty line after it. *)
Lemma frame_line (line : bytes) :
  map (parse_snapshot from_str) (omap sse_line (map from_utf8 [line; []]))
  = match sse_line (from_utf8 line) with Some item => [parse_snapshot from_str item] | None => [] end.
Proof. cbn -[sse]. by destruct (on_line sse (from_utf8 line)). Qed.

Lemma frame_decodes (f : Frame (Snapshot := Snapshot)) :
  match f with Event snapshot => snapshot_written snapshot | KeepAlive => True end ->
  exists lines, frame_bytes to_string f = concat (map ended lines) /\
    Forall (fun line => (newline ∉ line)) lines /\
    map (parse_snapshot from_str) (omap sse_line (map from_utf8 lines)) = snapshot_items f.
Proof.
  destruct f as [snapshot|].
  - intros (text & Hwrite & Htext). pose proof (text_one_line _ _ Htext) as Hline.
    exists [DATA_FIELD_PREFIX ++ String.list_byte_of_string text; []]. split_and!.
    + simpl. unfold serialize_snapshot_event. rewrite Hwrite, event_bytes_line by done.
      simpl. unfold ended. by rewrite <- !app_assoc.
    + repeat constructor; [|apply not_elem_of_nil]. rewrite not_elem_of_app. split; [|done].
      apply (bool_decide_unpack _). by vm_compute.
    + rewrite frame_line, (data_line text snapshot Htext). simpl. by rewrite (text_parses _ _ Htext).
  - intros _. destruct keep_alive_comment as (comment & Hline & Hutf8 & Hbytes).
    exists [String.list_byte_of_string ":" ++ comment; []]. split_and!.
    + simpl. rewrite Hbytes. unfold ended. by rewrite <- !app_assoc.
    + repeat constructor; [|apply not_elem_of_nil]. rewrite not_elem_of_app. split; [|done].
      apply (bool_decide_unpack _). by vm_compute.
    + by rewrite frame_line, comment_line.
Qed.

Lemma frames_decode (frames : list (Frame (Snapshot := Snapshot))) :
  Forall snapshot_written (framed frames) ->
  exists lines, event_stream_bytes to_string frames = concat (map ended lines) /\
    Forall (fun line => (newline ∉ line)) lines /\
    map (parse_snapshot from_str) (omap sse_line (map from_utf8 lines)) = map Ok (framed frames).
Proof.
  induction frames as [|f frames IH]; intros Hwritten; [by exists []|].
  destruct (frame_decodes f) as (lines & Hbytes & Hlines & Hitems).
  { destruct f; [|done]. by inversion Hwritten. }
  destruct IH as (more & Hmore & Hmore_lines & Hmore_items).
  { destruct f; [|done]. by inversion Hwritten. }
  exists (lines ++ more). split_and!.
  - unfold event_stream_bytes in *. simpl. by rewrite Hbytes, Hmore, map_app, concat_app.
  - by apply Forall_app.
  - rewrite map_app, omap_app, map_app, Hitems, Hmore_items. by destruct f.
Qed.

(** A client that watches sees what the balancer yields: the stream of
    snapshots it decodes is the snapshots of the events, in order, whatever
    comments keep the connection alive between them and however the network
    cuts the body into chunks. *)
Theorem snapshots_reach_client (frames : list (Frame (Snapshot := Snapshot))) (chunks : list bytes)
    (rest : list (@Turn TransportError)) (Hwritten : Forall snapshot_written (framed frames))
    (Hnetwork : concat chunks = event_stream_bytes to_string frames) :
  snapshots_of_response from_str (map NextChunk chunks ++ EndOfBody :: rest)
  = map Ok (framed frames).
Proof.
  destruct (frames_decode frames Hwritten) as (lines & Hbytes & Hlines & Hitems).
  unfold snapshots_of_response. rewrite poll_body by apply sse_end_shrinks.
  rewrite Hnetwork, Hbytes. pose proof (split_lines_prefix lines [] Hlines) as Hsplit.
  rewrite app_nil_r in Hsplit. unfold complete_items. rewrite Hsplit. simpl.
  by rewrite app_nil_r, app_nil_r.
Qed.
End Events.

(** ** Witnesses *)

(** An agent of a pool is claimed after the stream showed it idle; the claim
    has been announced and the stream has not looked yet. *)
Section PoolWitness.
Local Abbreviation iteration := (map_to_list (M := gmap string nat)).
#[local] Instance sample_producer : WatchedProducer (AgentControllerPool QueueChannel nat nat) _ nat :=
  pool_producer iteration.
#[local] Instance sample_announces :
  AnnouncesChanges (AgentControllerPool QueueChannel nat nat) _ nat nat := pool_announces iteration.

Definition sample_candidate : DispatchCandidate := {| candidate_controller := 1; snapshot := 1 |}.

Definition claimed_pool : AgentControllerPool QueueChannel nat nat :=
  store_controllers (<[1%nat := put_slots_processing 2 (sample_agent 1 4)]> (controllers sample_pool))
    sample_pool.

Definition claimed_watched :=
  {| producer := signal_update claimed_pool; to_announce := 0; missed := false; shutdown := false;
     stream := stream_produce sample_pool (stream_subscribe sample_pool snapshots_stream) |}.

Lemma claimed_reachable : rtc watched_step (watched_initial sample_pool) claimed_watched.
Proof.
  eapply rtc_l; [apply watched_subscribe_step|]. eapply rtc_l; [apply watched_produce|].
  eapply rtc_l; [apply (watched_change _ claimed_pool)|].
  { apply (changes_claim _ _ sample_candidate
             {| dispatched_controller := 1; slot_guard := {| guarded_controller := 1 |} |});
      vm_compute; reflexivity. }
  eapply rtc_l; [by apply (watched_announce _ 0%nat)|]. apply rtc_refl.
Qed.

Lemma idle_stream_is_current_witness :
  phase (stream claimed_watched) = Selecting 0%nat /\
  (last (produced (stream claimed_watched)) = Some (make_snapshot (producer claimed_watched)) \/
   watch_has_changed (update_tx (producer claimed_watched)) 0%nat = true).
Proof.
  split; [reflexivity|].
  destruct (idle_stream_is_current sample_pool claimed_watched 0%nat claimed_reachable eq_refl eq_refl
                eq_refl)
    as [Hnow|[Hchanged _]]; [by left | by right].
Defined.
End PoolWitness.

(** Two counts, with a comment between them, cut in the middle of a line. *)
Definition count_to_string (s : BufferedRequestManagerSnapshot) : result string string :=
  if decide (buffered_requests_current s = 1) then Ok "{1}"%string
  else if decide (buffered_requests_current s = 0) then Ok "{0}"%string else Err "unknown"%string.

Definition count_from_str (text : bytes) : result BufferedRequestManagerSnapshot unit :=
  if bool_decide (text = String.list_byte_of_string "{1}") then Ok {| buffered_requests_current := 1 |}
  else if bool_decide (text = String.list_byte_of_string "{0}")
  then Ok {| buffered_requests_current := 0 |} else Err tt.

#[local] Instance plain_encoding : SseEncoding.
Proof.
  refine {| event_bytes text :=
              DATA_FIELD_PREFIX ++ String.list_byte_of_string text ++ [newline; newline];
            keep_alive_bytes := String.list_byte_of_string ": keep-alive" ++ [newline; newline] |}.
  - done.
  - exists (String.list_byte_of_string " keep-alive"). split_and!; try done.
    apply (bool_decide_unpack _). by vm_compute.
Defined.

Definition count_frames : list (Frame (Snapshot := BufferedRequestManagerSnapshot)) :=
  [Event {| buffered_requests_current := 1 |}; KeepAlive; Event {| buffered_requests_current := 0 |}].

Definition count_body : bytes := event_stream_bytes count_to_string count_frames.

Lemma snapshots_reach_client_witness :
  snapshots_of_response (ParseError := unit) (TransportError := unit) count_from_str
    (map NextChunk [take 8 count_body; drop 8 count_body] ++ [EndOfBody])
  = [Ok {| buffered_requests_current := 1 |}; Ok {| buffered_requests_current := 0 |}].
Proof.
  apply (snapshots_reach_client count_to_string count_from_str count_frames).
  - repeat constructor.
    + exists "{1}"%string. split; [done|]. split; try done. apply (bool_decide_unpack _). by vm_compute.
    + exists "{0}"%string. split; [done|]. split; try done. apply (bool_decide_unpack _). by vm_compute.
  - reflexivity.
Defined.
