(* ===== verification/ManagementRoutes.v ===== *)
(** * The management service over HTTP

    The routes of [management_service]: agents, buffered requests, the desired
    and the applicable state, health and metrics, and the questions to one
    agent of [controls_manages_senders_endpoint.rs]
    ([get_model_metadata.rs], [get_chat_template_override.rs]).

    [serde_json] is the class [Json]; extracting a JSON body from a request
    and printing numbers belong to libraries and are arguments. *)

From Stdlib Require Import Strings.Ascii.
From Stdlib Require Import Floats.SpecFloat.
From S2P Require Import Prelude.
From S2P Require Import Tokio.
From S2P Require Import Bytes.
From S2P Require Import Messages.
From S2P Require Import Requests.
From S2P Require Import Senders.
From S2P Require Import SlotStatus.
From S2P Require Import AgentController.
From S2P Require Import AgentPool.
From S2P Require Import DesiredState.
From S2P Require Import StateDatabase.
From S2P Require Import BufferedRequests.
From S2P Require Import ClientHttp.
From S2P Require Import SnapshotsStream.
Import Controller.
Local Open Scope Z_scope.

(** ** Answers *)

Definition answer (status : Z) (text : string) : HttpResponse :=
  {| status := status; response_text := Ok text |}.

(** [HttpResponse::Ok().json(value)] *)
Definition ok_json {A : Type} `{!Json A} (value : A) : HttpResponse :=
  match json_to_string value with Ok text => answer 200 text | Err e => answer 500 e end.

Definition line_feed : string := String (ascii_of_nat 10) EmptyString.

(** ** The state database behind its trait *)

Inductive StateDatabase : Type :=
| InMemory (m : Memory)
| InFile (f : File).

(** What the file system does during an operation. *)
Record DatabaseIo : Type := {
  io_read : ReadOutcome;
  io_default_write : WriteOutcome;
  io_write : WriteOutcome;
}.

(** [StateDatabaseType] and the database made for it, on a disk. *)
Inductive StateDatabaseType : Type :=
| DatabaseFile (path : string)
| DatabaseMemory (initial_desired_state : BalancerDesiredState).

Definition database_of_type (disk : string -> option string) (t : StateDatabaseType)
    (notify_tx : Broadcast) : StateDatabase :=
  match t with
  | DatabaseFile path => InFile {| contents := disk path; file_notify_tx := notify_tx |}
  | DatabaseMemory initial_desired_state =>
      InMemory {| memory_state := initial_desired_state; memory_notify_tx := notify_tx |}
  end.

(** The URL of a database: [parse_scheme] is [Url::parse], [expand] the
    absolute path that the message suggests. *)
Fixpoint strip_text (prefix s : string) : option string :=
  match prefix, s with
  | EmptyString, _ => Some s
  | String a prefix', String b s' => if decide (a = b) then strip_text prefix' s' else None
  | String _ _, EmptyString => None
  end.

Definition trim_text (s : string) : string :=
  String.string_of_list_byte (trim (String.list_byte_of_string s)).

Definition is_absolute (path : string) : bool := bool_decide (is_Some (strip_text "/" path)).

Definition state_database_from_str (parse_scheme : string -> result string string)
    (expand : string -> result string string) (input : string) : result StateDatabaseType string :=
  let? scheme := parse_scheme input in
  if decide (scheme = "file"%string) then
    match strip_text "file://" input with
    | None => Err ("Invalid file URL: " +:+ input)
    | Some rest =>
        let path := trim_text rest in
        if decide (path = ""%string) then Err "File path cannot be empty"%string
        else if negb (is_absolute path) then
          let? expanded_path := expand path in
          Err ("To avoid ambiguity, needing to guess the full file path (and to stay safe overall), "
               +:+ "Paddler requires absolute paths." +:+ line_feed
               +:+ "The path you wanted is *probably* '" +:+ expanded_path
               +:+ "'. If that is so, pass it as '--state-database file://" +:+ expanded_path +:+ "'."
               +:+ line_feed)
        else Ok (DatabaseFile path)
    end
  else if decide (scheme = "memory"%string) then Ok (DatabaseMemory balancer_desired_state_default)
  else Err ("Unsupported scheme '" +:+ scheme +:+ "'").

Section Database.
Context (print_schema : Schema -> string) (parse_schema : string -> result Schema string).

Definition database_read (io : DatabaseIo) (db : StateDatabase)
    : StateDatabase * result BalancerDesiredState string :=
  match db with
  | InMemory m => (db, memory_read m)
  | InFile f =>
      let '(f, r) := file_read print_schema parse_schema (io_read io) (io_default_write io) f in
      (InFile f, r)
  end.

Definition database_store (io : DatabaseIo) (state : BalancerDesiredState) (db : StateDatabase)
    : StateDatabase * result unit string :=
  match db with
  | InMemory m => let '(m, r) := memory_store state m in (InMemory m, r)
  | InFile f =>
      let '(f, r) :=
        file_store print_schema parse_schema (io_read io) (io_default_write io) (io_write io) state f in
      (InFile f, r)
  end.
End Database.

Section ManagementRoutes.
Context `{JsonTypes} `{LlamaTypes} {chan : Type -> Type} `{!UnboundedChannel chan} {token : Type}.
Context {sender receiver : Type} `{!WatchChannel sender receiver}.
Context (iteration : gmap string nat -> list (string * nat)).
Context (print_schema : Schema -> string) (parse_schema : string -> result Schema string).
Context `{!Json (list ControllerSnapshot.AgentControllerSnapshot)}
  `{!Json BufferedRequestManagerSnapshot} `{!Json (option AgentDesiredState)}
  `{!Json BalancerDesiredState}.
(** [web::Json]: the value, or the answer of the library. *)
Context (json_body : option (result string string) -> result BalancerDesiredState HttpResponse).
Context (display_i32 : Z -> string) (display_f64 : f64 -> string).

Local Abbreviation AgentController := (AgentController chan token).
Local Abbreviation Pool := (AgentControllerPool chan token sender).
Local Abbreviation Manager := (BufferedRequestManager chan token sender).
Local Abbreviation Holder := (@BalancerApplicableStateHolder sender).

(** ** The state the routes share

    The pool of [AppData] is the one of its manager. *)
Record AppData : Type := {
  balancer_applicable_state_holder : Holder;
  buffered_request_manager : Manager;
  state_database : StateDatabase;
  statsd_prefix : string;
}.

Definition agent_controller_pool (d : AppData) : Pool := manager_pool (buffered_request_manager d).

Definition put_database (db : StateDatabase) (d : AppData) : AppData :=
  {| balancer_applicable_state_holder := balancer_applicable_state_holder d;
     buffered_request_manager := buffered_request_manager d; state_database := db;
     statsd_prefix := statsd_prefix d |}.

(** ** Routes *)

Definition respond_health : HttpResponse := answer 200 "OK".

Definition respond_agents (d : AppData) : HttpResponse :=
  match pool_make_snapshot iteration (agent_controller_pool d) with
  | Ok snapshot => ok_json snapshot
  | Err e => answer 500 e
  end.

Definition respond_applicable_state (d : AppData) : HttpResponse :=
  ok_json (get_agent_desired_state (balancer_applicable_state_holder d)).

Definition respond_desired_state (io : DatabaseIo) (d : AppData) : AppData * HttpResponse :=
  let '(db, r) := database_read print_schema parse_schema io (state_database d) in
  (put_database db d, match r with Ok state => ok_json state | Err e => answer 500 e end).

Definition respond_buffered_requests (d : AppData) : HttpResponse :=
  match manager_make_snapshot (buffered_request_manager d) with
  | Ok snapshot => ok_json snapshot
  | Err e => answer 500 e
  end.

Definition respond_put_desired_state (io : DatabaseIo) (body : option (result string string))
    (d : AppData) : AppData * HttpResponse :=
  match json_body body with
  | Err rejected => (d, rejected)
  | Ok state =>
      match validate_inference_parameters (balancer_inference_parameters state) with
      | Err e => (d, answer 400 e)
      | Ok _ =>
          let '(db, r) := database_store print_schema parse_schema io state (state_database d) in
          (put_database db d, match r with Ok _ => answer 204 "" | Err e => answer 500 e end)
      end
  end.

(** *** Metrics *)

(** The sum of no rates is the neutral element of [Sum], minus zero. *)
Definition total_tokens_per_second (p : Pool) : f64 :=
  fold_left
    (fun total entry =>
       match controllers p !! snd entry with
       | None => total
       | Some a => f64_add total (tokens_per_second a)
       end)
    (iteration (agents p)) (S754_zero true).

Definition gauge (prefix name help value : string) : string :=
  "# HELP " +:+ prefix +:+ name +:+ " " +:+ help +:+ line_feed
  +:+ "# TYPE " +:+ prefix +:+ name +:+ " gauge" +:+ line_feed
  +:+ prefix +:+ name +:+ " " +:+ value +:+ line_feed.

Definition respond_metrics (d : AppData) : HttpResponse :=
  let slots := total_slots iteration (agent_controller_pool d) in
  let prefix := statsd_prefix d in
  answer 200
    (gauge prefix "slots_processing" "Number of processing slots"
       (display_i32 (total_processing slots)) +:+ line_feed
     +:+ gauge prefix "slots_total" "Number of total slots"
           (display_i32 (total_total slots)) +:+ line_feed
     +:+ gauge prefix "requests_buffered" "Number of buffered requests"
           (display_i32 (count (buffered_request_counter (buffered_request_manager d)))) +:+ line_feed
     +:+ gauge prefix "tokens_per_second" "Combined generation throughput across all agents"
           (display_f64 (total_tokens_per_second (agent_controller_pool d)))).

(** [round() as u64]: half away from zero, saturated; a NaN is zero. *)
Definition f64_round_u64 (x : f64) : Z :=
  match x with
  | S754_finite false m e =>
      let n := if 0 <=? e then Z.shiftl (Zpos m) e
               else Z.shiftr (Zpos m + Z.shiftl 1 (- e - 1)) (- e) in
      Z.min u64_max n
  | S754_infinity false => u64_max
  | S754_finite true _ _ | S754_infinity true | S754_zero _ | S754_nan => 0
  end.

(** [StatsdService::report_metrics]: the gauges it hands to the client, or the
    conversion that failed before any of them. *)
Definition report_metrics (d : AppData) : result (list (string * Z)) string :=
  let slots := total_slots iteration (agent_controller_pool d) in
  match try_u64 (total_processing slots) with
  | None => Err "slots_processing count is negative"%string
  | Some slots_processing =>
      match try_u64 (total_total slots) with
      | None => Err "slots_total count is negative"%string
      | Some slots_total =>
          match try_u64 (count (buffered_request_counter (buffered_request_manager d))) with
          | None => Err "requests_buffered count is negative"%string
          | Some requests_buffered =>
              Ok [("slots_processing", slots_processing); ("slots_total", slots_total);
                  ("requests_buffered", requests_buffered);
                  ("tokens_per_second",
                   f64_round_u64 (total_tokens_per_second (agent_controller_pool d)))]%string
          end
      end
  end.

(** The routes [configure] registers, but the sockets, the streams and the
    questions to one agent; the library answers 404 for the rest. *)
Definition management_respond (io : DatabaseIo) (m : Method) (path : string)
    (body : option (result string string)) (d : AppData) : AppData * HttpResponse :=
  match m with
  | GET =>
      if decide (path = "/health"%string) then (d, respond_health)
      else if decide (path = "/api/v1/agents"%string) then (d, respond_agents d)
      else if decide (path = "/api/v1/balancer_applicable_state"%string)
      then (d, respond_applicable_state d)
      else if decide (path = "/api/v1/balancer_desired_state"%string) then respond_desired_state io d
      else if decide (path = "/api/v1/buffered_requests"%string) then (d, respond_buffered_requests d)
      else if decide (path = "/metrics"%string) then (d, respond_metrics d)
      else (d, answer 404 "")
  | PUT =>
      if decide (path = "/api/v1/balancer_desired_state"%string)
      then respond_put_desired_state io body d
      else (d, answer 404 "")
  | POST => (d, answer 404 "")
  end.

(** ** Questions to one agent *)

Section Question.
Context {V : Type} `{!Json V} (collection : CollectionOf (chan := chan) (token := token) V)
  (request_ : AgentRequest) (question_id : string).

Inductive QuestionPhase : Type :=
| QuestionSent
| QuestionWaiting (controller : ManagesSendersController)
| QuestionAnswered (response : HttpResponse).

(** The agent the question is for. *)
Definition find_agent (agent_id : string) (p : Pool) : result AgentController HttpResponse :=
  match get_agent_controller agent_id p ≫= fun loc => controllers p !! loc with
  | Some a => Ok a
  | None => Err (answer 404 "")
  end.

Definition question_send (a : AgentController) : AgentController * QuestionPhase :=
  match oneshot_send question_id request_ a with
  | Ok a => (a, QuestionSent)
  | Err e => (a, QuestionAnswered (answer 500 e))
  end.

Definition question_register (a : AgentController) : AgentController * QuestionPhase :=
  match oneshot_register question_id collection a with
  | (a, Ok controller) => (a, QuestionWaiting controller)
  | (a, Err e) => (a, QuestionAnswered (answer 500 e))
  end.

(** The branch of the [select!]: the agent's connection closes, [TIMEOUT] (3
    seconds) passes, or [recv] returns. *)
Inductive QuestionWake : Type := ConnectionClosed | TimeoutElapsed | ResponseReady.

Definition close_question (controller : ManagesSendersController) (a : AgentController) : AgentController :=
  put_collection V collection (drop_controller controller (read_collection V collection a)) a.

(** [recv] returns [None] once the sender is gone. *)
Definition sender_gone (controller : ManagesSendersController) (a : AgentController) : bool :=
  negb (bool_decide (senders (read_collection V collection a) !! request_id controller
                     = Some (response_rx controller))).

Definition question_select (wake : QuestionWake) (controller : ManagesSendersController)
    (a : AgentController) : AgentController * QuestionPhase :=
  match wake with
  | ConnectionClosed => (close_question controller a, QuestionAnswered (answer 502 ""))
  | TimeoutElapsed => (close_question controller a, QuestionAnswered (answer 504 ""))
  | ResponseReady =>
      match recv_response controller (read_collection V collection a) with
      | Some (existing_response, s) =>
          (close_question controller (put_collection V collection s a),
           QuestionAnswered (ok_json existing_response))
      | None =>
          if sender_gone controller a
          then (close_question controller a, QuestionAnswered (answer 404 ""))
          else (a, QuestionWaiting controller)
      end
  end.
End Question.
End ManagementRoutes.
