(* ===== verification/ManagementRoutesFacts.v ===== *)
(** * The management service and its client

    A question to an agent leaves nothing behind and answers with what the
    agent said; the state a client puts is the state it gets. *)

From Stdlib Require Import Floats.SpecFloat.
From S2P Require Import Prelude.
From S2P Require Import Tokio.
From S2P Require Import Messages.
From S2P Require Import Requests.
From S2P Require Import Senders.
From S2P Require Import SlotStatus.
From S2P Require Import AgentController.
From S2P Require Import AgentPool.
From S2P Require Import DesiredState.
From S2P Require Import StateDatabase.
From S2P Require Import BufferedRequests.
From S2P Require Import ClientHttp.
From S2P Require Import SnapshotsStream.
From S2P Require Import ManagementRoutes.
Import Controller.
Local Open Scope Z_scope.

(** ** Questions *)

Section Questions.
Context `{JsonTypes} `{LlamaTypes} {chan : Type -> Type} `{!UnboundedChannel chan} {token : Type}.
Context {V : Type} `{!Json V} (collection : CollectionOf (chan := chan) (token := token) V)
  `{!CollectionLaws collection} (request_ : AgentRequest) (question_id : string).
Local Abbreviation AgentController := (AgentController chan token).

(** [delivered] are the answers that came while the question was waiting. *)
Record Question : Type := {
  asked : AgentController;
  question_phase : QuestionPhase;
  delivered : list V;
}.

Definition question_start (a : AgentController) : Question :=
  let '(a, phase) := question_send request_ question_id a in
  {| asked := a; question_phase := phase; delivered := [] |}.

(** The agent answers at any time; other requests leave the entry and the
    channel of this one alone. *)
Inductive question_step : relation Question :=
| question_registers y a w :
    question_phase y = QuestionSent ->
    question_register collection question_id (asked y) = (a, w) ->
    question_step y {| asked := a; question_phase := w; delivered := delivered y |}
| question_agent_answers y v :
    question_step y
      {| asked := put_collection V collection
                    (forward_response_safe question_id v (read_collection V collection (asked y))) (asked y);
         question_phase := question_phase y;
         delivered := match question_phase y with
                      | QuestionWaiting _ => delivered y ++ [v]
                      | _ => delivered y
                      end |}
| question_others y a :
    senders (read_collection V collection a) !! question_id
      = senders (read_collection V collection (asked y)) !! question_id ->
    (forall k, question_phase y = QuestionWaiting k ->
      channels (read_collection V collection a) !! response_rx k
      = channels (read_collection V collection (asked y)) !! response_rx k) ->
    question_step y {| asked := a; question_phase := question_phase y; delivered := delivered y |}
| question_wakes y wake k a w :
    question_phase y = QuestionWaiting k ->
    question_select collection wake k (asked y) = (a, w) ->
    question_step y {| asked := a; question_phase := w; delivered := delivered y |}.

(** What the question may answer. *)
Definition question_outcome (delivered : list V) (response : HttpResponse) : Prop :=
  match delivered with
  | [] => response = answer 502 "" \/ response = answer 504 "" \/
          exists e, response = answer 500 e
  | v :: _ => response = answer 502 "" \/ response = answer 504 "" \/ response = ok_json v
  end.

Definition question_ok (y : Question) : Prop :=
  let s := read_collection V collection (asked y) in
  match question_phase y with
  | QuestionSent => senders s !! question_id = None /\ delivered y = []
  | QuestionWaiting k =>
      request_id k = question_id /\ senders s !! question_id = Some (response_rx k) /\
      exists ch, channels s !! response_rx k = Some ch /\ chan_receiver_alive ch = true /\
        chan_pending ch = delivered y
  | QuestionAnswered response =>
      senders s !! question_id = None /\ question_outcome (delivered y) response
  end.

Lemma forward_refused (v : V) (s : SenderCollection chan V) :
  senders s !! question_id = None -> forward_response_safe question_id v s = s.
Proof. intros Hnone. unfold forward_response_safe, forward_response. by rewrite Hnone. Qed.

Lemma close_question_deregisters (k : ManagesSendersController) (a : AgentController) :
  request_id k = question_id ->
  senders (read_collection V collection (close_question collection k a)) !! question_id = None.
Proof.
  intros Hid. unfold close_question. rewrite read_put. unfold drop_controller, deregister_sender.
  rewrite Hid. simpl. destruct (senders (read_collection V collection a) !! question_id) eqn:Hs; simpl;
    [by rewrite lookup_delete_eq | done].
Qed.

Lemma question_start_ok (a : AgentController) :
  senders (read_collection V collection a) !! question_id = None -> question_ok (question_start a).
Proof.
  intros Hnone. unfold question_start, question_send, oneshot_send, send_rpc_message.
  destruct (chan_send _ _); unfold question_ok; simpl.
  - by rewrite read_send.
  - split; [done|]. right. right. by eexists.
Qed.

Lemma question_step_ok (y y' : Question) : question_step y y' -> question_ok y -> question_ok y'.
Proof.
  unfold question_ok. intros Hstep Hok.
  destruct Hstep as [y a w Hp Hreg|y v|y a Hs Hc|y wake k a w Hp Hsel]; cbn [asked question_phase delivered].
  - rewrite Hp in Hok. destruct Hok as [Hnone Hempty]. unfold question_register, oneshot_register in Hreg.
    destruct (from_request_id _ _) as [[s k]|e] eqn:Hfrom.
    + simplify_eq. rewrite read_put, Hempty. apply from_request_id_ok in Hfrom as (_ & -> & ->). simpl.
      rewrite !lookup_insert_eq. split_and!; [done|done|]. exists chan_new.
      split_and!; [done|apply chan_new_alive|apply chan_new_pending].
    + unfold from_request_id, register_sender in Hfrom. simpl in Hfrom. by rewrite Hnone in Hfrom.
  - rewrite read_put. destruct (question_phase y) as [|k|response] eqn:Hp.
    + destruct Hok as [Hnone Hempty]. by rewrite forward_refused.
    + destruct Hok as (Hid & Hreg & ch & Hch & Halive & Hpend). split; [done|].
      unfold forward_response_safe, forward_response. rewrite Hreg, Hch. simpl.
      destruct (chan_send ch v) as [ch'|] eqn:Hsend.
      * simpl. split; [done|]. exists ch'. rewrite lookup_insert_eq.
        apply chan_send_some in Hsend as [-> Ha]. by rewrite Hpend.
      * apply chan_send_none in Hsend. congruence.
    + destruct Hok as [Hnone Hout]. by rewrite forward_refused.
  - rewrite Hs. destruct (question_phase y) as [|k|response]; [done| |done]. by rewrite (Hc k eq_refl).
  - rewrite Hp in Hok. destruct Hok as (Hid & Hreg & ch & Hch & Halive & Hpend).
    unfold question_select in Hsel. destruct wake.
    + injection Hsel as <- <-. split; [by apply close_question_deregisters|].
      destruct (delivered y); simpl; auto.
    + injection Hsel as <- <-. split; [by apply close_question_deregisters|].
      destruct (delivered y); simpl; auto.
    + unfold recv_response in Hsel. rewrite Hch in Hsel. simpl in Hsel.
      destruct (chan_try_recv ch) as [[v ch']|] eqn:Hrecv.
      * injection Hsel as <- <-. split; [by apply close_question_deregisters|].
        apply chan_recv_some in Hrecv as [Hv _]. rewrite Hv in Hpend. rewrite <- Hpend. simpl. auto.
      * unfold sender_gone in Hsel. rewrite Hid, Hreg, bool_decide_true in Hsel by done.
        simpl in Hsel. injection Hsel as <- <-. split_and!; [done|done|]. by exists ch.
Qed.

(** C35. A question to an agent cleans up after itself and is answered with
    what the agent said.  Whatever the agent and other requests do meanwhile,
    once the endpoint has responded the request is no longer registered; the
    body of a 200 is the first answer that came while the question was
    registered, and without one the status is 500, 502 or 504: an answer that
    came before the registration is lost. *)
Theorem question_answered (a : AgentController) (y : Question) (response : HttpResponse)
    (Hfresh : senders (read_collection V collection a) !! question_id = None)
    (Hreach : rtc question_step (question_start a) y)
    (Hdone : question_phase y = QuestionAnswered response) :
  senders (read_collection V collection (asked y)) !! question_id = None /\
  match delivered y with
  | [] => response = answer 502 "" \/ response = answer 504 "" \/ exists e, response = answer 500 e
  | v :: _ => response = answer 502 "" \/ response = answer 504 "" \/ response = ok_json v
  end.
Proof.
  assert (Hok : question_ok y).
  { apply (rtc_invariant _ question_ok _ _ Hreach); [by apply question_start_ok|].
    intros y1 y2 Hok Hstep. by eapply question_step_ok. }
  unfold question_ok in Hok. by rewrite Hdone in Hok.
Qed.
End Questions.

(** ** The desired state over HTTP *)

Section RoundTrip.
Context `{JsonTypes} `{LlamaTypes} {chan : Type -> Type} `{!UnboundedChannel chan} {token : Type}.
Context {sender receiver : Type} `{!WatchChannel sender receiver}.
Context (iteration : gmap string nat -> list (string * nat)).
Context (print_schema : Schema -> string) (parse_schema : string -> result Schema string).
Context `{!Json (list ControllerSnapshot.AgentControllerSnapshot)}
  `{!Json BufferedRequestManagerSnapshot} `{!Json (option AgentDesiredState)}
  `{!Json BalancerDesiredState}.
Context (json_body : option (result string string) -> result BalancerDesiredState HttpResponse).
Context (display_i32 : Z -> string) (display_f64 : f64 -> string).
Local Abbreviation AppData := (@AppData _ _ chan token sender).

(** [serde_json] reads back the schemas it writes, which are not empty. *)
Hypothesis parse_print : forall s, parse_schema (print_schema s) = Ok s.
Hypothesis print_nonempty : forall s, print_schema s <> ""%string.

(** A network that only knows the management service at [base]: a body that
    could not be written is not sent. *)
Definition management_network (io : DatabaseIo) (base : string) (request : HttpRequest) (d : AppData)
    : AppData * option SendOutcome :=
  match request_body request with
  | Some (Err e) => (d, Some (SendFailed e))
  | body =>
      match strip_text (trim_end_slashes base) (request_url request) with
      | None => (d, Some (ConnectFailed "unknown host"))
      | Some path =>
          let '(d, response) :=
            management_respond iteration print_schema parse_schema json_body display_i32 display_f64 io
              (method request) path body d in
          (d, Some (Responded response))
      end
  end.

(** The disk works, and a file has a schema. *)
Definition io_works : DatabaseIo :=
  {| io_read := ReadWorks; io_default_write := WriteWorks; io_write := WriteWorks |}.

Definition database_readable (db : StateDatabase) : Prop :=
  match db with
  | InMemory _ => True
  | InFile f => exists schema, contents f = Some (print_schema schema)
  end.

Definition database_listeners (db : StateDatabase) : nat :=
  match db with InMemory m => receivers (memory_notify_tx m) | InFile f => receivers (file_notify_tx f) end.

Lemma strip_text_app (base path : string) : strip_text base (base +:+ path) = Some path.
Proof. induction base as [|a base IH]; simpl; [done|]. by rewrite decide_True. Qed.

Lemma broadcast_outcome (state : BalancerDesiredState) (b : Broadcast) :
  snd (broadcast_send state b)
  = if decide (receivers b = 0%nat) then Err "channel closed"%string else Ok tt.
Proof. unfold broadcast_send. by destruct (Nat.eqb_spec (receivers b) 0); case_decide. Qed.

(** Why a store is refused: nobody listens, or the file cannot be read, does
    not have a schema, or cannot be created, written or synced. *)
Definition write_failure (w : WriteOutcome) (e : string) : Prop :=
  w = CreateFails e \/ exists written, w = WriteFails written e.

Inductive store_refused (io : DatabaseIo) (db : StateDatabase) : string -> Prop :=
| nobody_listens : database_listeners db = 0%nat -> store_refused io db "channel closed"
| file_unreadable f e : db = InFile f -> io_read io = ReadFails e -> store_refused io db e
| file_not_parsed f c e :
    db = InFile f -> contents f = Some c -> c <> ""%string -> parse_schema c = Err e ->
    store_refused io db e
| default_not_written f e :
    db = InFile f -> contents f = None \/ contents f = Some ""%string ->
    write_failure (io_default_write io) e -> store_refused io db e
| state_not_written f e : db = InFile f -> write_failure (io_write io) e -> store_refused io db e.

(** One store, whatever the disk does: the listeners stay, and it succeeds or
    is refused for a reason. *)
Lemma store_schema_outcome (w : WriteOutcome) (schema : Schema) (f : File) :
  let '(f', r) := store_schema print_schema w schema f in
  receivers (file_notify_tx f') = receivers (file_notify_tx f) /\
  (w = WriteWorks -> contents f' = Some (print_schema schema) /\
     r = if decide (receivers (file_notify_tx f) = 0%nat) then Err "channel closed"%string
         else Ok tt) /\
  match r with
  | Ok _ => w = WriteWorks
  | Err e => write_failure w e \/ receivers (file_notify_tx f) = 0%nat /\ e = "channel closed"%string
  end.
Proof.
  unfold store_schema. destruct w as [e|written e|].
  - split_and!; [done|done|]. left; by left.
  - split_and!; [done|done|]. left; right. by exists written.
  - unfold notify_stored. simpl. unfold broadcast_send.
    destruct (Nat.eqb_spec (receivers (file_notify_tx f)) 0); case_decide; simpl; try done.
    split_and!; [done|done|]. by right.
Qed.

Lemma file_store_outcome (io : DatabaseIo) (state : BalancerDesiredState) (f : File) :
  let '(f', r) := file_store print_schema parse_schema (io_read io) (io_default_write io)
                    (io_write io) state f in
  match r with
  | Ok _ => exists schema, contents f' = Some (print_schema schema) /\ schema_state schema = state
  | Err e => store_refused io (InFile f) e
  end.
Proof.
  unfold file_store, update_schema, read_schema_from_file.
  destruct (io_read io) as [|e] eqn:Hread; [|by eapply file_unreadable].
  assert (Hstore : forall schema f1, receivers (file_notify_tx f1) = receivers (file_notify_tx f) ->
    let '(f', r) := store_schema print_schema (io_write io)
      {| schema_state := state; schema_version := schema_version schema |} f1 in
    match r with
    | Ok _ => exists schema, contents f' = Some (print_schema schema) /\ schema_state schema = state
    | Err e => store_refused io (InFile f) e
    end).
  { intros schema f1 Hlisteners.
    pose proof (store_schema_outcome (io_write io)
      {| schema_state := state; schema_version := schema_version schema |} f1) as Hs.
    destruct (store_schema _ _ _ f1) as [f' [[]|e]]; destruct Hs as (_ & Hworks & Hr).
    - destruct (Hworks Hr) as [Hc _]. by eexists.
    - destruct Hr as [Hw|[Hz ->]]; [by eapply state_not_written|].
      apply nobody_listens. simpl. congruence. }
  assert (Hdefault : contents f = None \/ contents f = Some ""%string ->
    let '(f', r) := match store_default_schema print_schema (io_default_write io) f with
                    | (f1, Ok schema) => store_schema print_schema (io_write io)
                        {| schema_state := state; schema_version := schema_version schema |} f1
                    | (f1, Err e) => (f1, Err e)
                    end in
    match r with
    | Ok _ => exists schema, contents f' = Some (print_schema schema) /\ schema_state schema = state
    | Err e => store_refused io (InFile f) e
    end).
  { intros Hempty. unfold store_default_schema.
    pose proof (store_schema_outcome (io_default_write io) schema_default f) as Hs.
    destruct (store_schema _ _ _ f) as [f1 [[]|e]]; destruct Hs as (Hl & _ & Hr).
    - by apply Hstore.
    - destruct Hr as [Hw|[Hz ->]]; [by eapply default_not_written|]. by apply nobody_listens. }
  destruct (contents f) as [c|] eqn:Hc; [case_decide as Hce|].
  - apply Hdefault. right. by rewrite Hce.
  - destruct (parse_schema c) as [schema|e] eqn:Hp; [by apply Hstore|].
    by eapply file_not_parsed.
  - apply Hdefault. by left.
Qed.

(** Storing in either database: a store that succeeds is read back. *)
Lemma database_store_outcome (io io' : DatabaseIo) (state : BalancerDesiredState)
    (db : StateDatabase) :
  io_read io' = ReadWorks ->
  let '(db', r) := database_store print_schema parse_schema io state db in
  match r with
  | Ok _ => database_read print_schema parse_schema io' db' = (db', Ok state)
  | Err e => store_refused io db e
  end.
Proof.
  intros Hread. destruct db as [m|f]; simpl.
  - unfold memory_store. pose proof (broadcast_outcome state (memory_notify_tx m)) as Hout.
    destruct (broadcast_send _ _) as [b r]. simpl in Hout. subst r. case_decide; [|done].
    by apply nobody_listens.
  - pose proof (file_store_outcome io state f) as Hf.
    destruct (file_store _ _ _ _ _ _ f) as [f' [[]|e]]; [|done].
    destruct Hf as (schema & Hc & Hs). simpl. unfold file_read, read_schema_from_file.
    rewrite Hread, Hc, decide_False, parse_print by apply print_nonempty. by rewrite Hs.
Qed.

(** On a disk that works it fails only when nobody listens, and keeps the state
    all the same. *)
Lemma database_store_read (io io' : DatabaseIo) (state : BalancerDesiredState)
    (db : StateDatabase) :
  io_read io = ReadWorks -> io_write io = WriteWorks -> io_read io' = ReadWorks ->
  database_readable db ->
  exists db', database_store print_schema parse_schema io state db
    = (db', if decide (database_listeners db = 0%nat) then Err "channel closed"%string else Ok tt) /\
    database_read print_schema parse_schema io' db' = (db', Ok state).
Proof.
  intros Hread Hwrite Hread'. destruct db as [m|f]; simpl.
  - intros _. unfold memory_store. pose proof (broadcast_outcome state (memory_notify_tx m)) as Hout.
    destruct (broadcast_send _ _) as [b r]. simpl in Hout. subst r. by eexists.
  - intros [schema Hcontents]. unfold file_store, update_schema, read_schema_from_file.
    rewrite Hread, Hcontents, decide_False, parse_print by apply print_nonempty.
    match goal with |- context [store_schema _ _ ?schema' f] =>
      pose proof (store_schema_outcome (io_write io) schema' f) as Hs end.
    destruct (store_schema _ _ _ f) as [f' r]. destruct Hs as (_ & Hworks & _).
    destruct (Hworks Hwrite) as [Hc ->]. eexists. split; [done|].
    simpl. unfold file_read, read_schema_from_file.
    by rewrite Hread', Hc, decide_False, parse_print by apply print_nonempty.
Qed.

(** The two requests over the network. *)
Lemma put_over_http (client : HttpClient) (io : DatabaseIo) (state : BalancerDesiredState)
    (text : string) (d : AppData) :
  json_to_string state = Ok text -> json_body (Some (Ok text)) = Ok state ->
  let url := format_api_url (base_url client) "/api/v1/balancer_desired_state" in
  put_balancer_desired_state (management_network io (base_url client)) client state d
  = match validate_inference_parameters (balancer_inference_parameters state) with
    | Err e => (d, Err (UnexpectedResponseStatus e 400 url))
    | Ok _ =>
        let '(db, r) := database_store print_schema parse_schema io state (state_database d) in
        (put_database db d,
         match r with
         | Ok _ => Ok tt
         | Err e => Err (UnexpectedResponseStatus e 500 url)
         end)
    end.
Proof.
  intros Hwritten Hextracted url.
  unfold put_balancer_desired_state, put_json, send_json, send_checked_request, management_network.
  cbn [request_body method request_url]. rewrite Hwritten. unfold format_api_url at 1.
  rewrite strip_text_app. simpl. unfold respond_put_desired_state. rewrite Hextracted.
  destruct (validate_inference_parameters _); [|done].
  by destruct (database_store _ _ io state _) as [db [[]|e]].
Qed.

Lemma get_over_http (client : HttpClient) (io : DatabaseIo) (state : BalancerDesiredState)
    (text : string) (d : AppData) (db : StateDatabase) :
  json_to_string state = Ok text -> json_from_str text = Ok state ->
  database_read print_schema parse_schema io db = (db, Ok state) ->
  get_balancer_desired_state (management_network io (base_url client)) client (put_database db d)
  = (put_database db d, Ok state).
Proof.
  intros Hwritten Hread Hdb.
  unfold get_balancer_desired_state, get_json, http_get, send_checked_request, management_network.
  cbn [request_body method request_url]. unfold format_api_url at 1. rewrite strip_text_app.
  cbn [management_respond]. unfold respond_desired_state. simpl. rewrite Hdb. unfold ok_json.
  rewrite Hwritten. simpl. by rewrite Hread.
Qed.

(** C33. The state a client puts is the state a client gets, when requests reach
    the database one at a time (a concurrent one can discard a state just
    stored, a finding).  Whatever the disk does during the put: a state whose
    parameters are invalid is refused with status 400 and changes nothing; a
    put that succeeds is followed by a get, from a file that can be read, that
    returns exactly that state and changes nothing; a put that fails otherwise
    has status 500 and a reason: nobody listens to the database any more, or
    the file cannot be read, holds something else than a schema, or cannot be
    created, written or synced.  On a disk that works, with a file that has a
    schema, only the first can be the reason, and the state is stored
    nevertheless. *)
Theorem desired_state_round_trip (client : HttpClient) (state : BalancerDesiredState) (text : string)
    (io io' : DatabaseIo) (d : AppData)
    (Hwritten : json_to_string state = Ok text) (Hread : json_from_str text = Ok state)
    (Hextracted : json_body (Some (Ok text)) = Ok state) (Hreadable : io_read io' = ReadWorks) :
  let url := format_api_url (base_url client) "/api/v1/balancer_desired_state" in
  let '(d1, put) :=
    put_balancer_desired_state (management_network io (base_url client)) client state d in
  let '(d2, got) :=
    get_balancer_desired_state (management_network io' (base_url client)) client d1 in
  match validate_inference_parameters (balancer_inference_parameters state) with
  | Err e => d1 = d /\ put = Err (UnexpectedResponseStatus e 400 url)
  | Ok _ =>
      match put with
      | Ok _ => got = Ok state /\ d2 = d1
      | Err error =>
          exists e, error = UnexpectedResponseStatus e 500 url /\
            store_refused io (state_database d) e
      end /\
      (io_read io = ReadWorks -> io_write io = WriteWorks -> database_readable (state_database d) ->
       got = Ok state /\ d2 = d1 /\
       put = if decide (database_listeners (state_database d) = 0%nat)
             then Err (UnexpectedResponseStatus "channel closed" 500 url) else Ok tt)
  end.
Proof.
  intros url. rewrite (put_over_http client io state text d Hwritten Hextracted).
  destruct (validate_inference_parameters (balancer_inference_parameters state)) as [p|e] eqn:Hvalid.
  2: { by destruct (get_balancer_desired_state _ client d). }
  pose proof (database_store_outcome io io' state (state_database d) Hreadable) as Hstore.
  pose proof (database_store_read io io' state (state_database d)) as Hworks.
  destruct (database_store _ _ io state (state_database d)) as [db r].
  assert (Hget : database_read print_schema parse_schema io' db = (db, Ok state) ->
    get_balancer_desired_state (management_network io' (base_url client)) client (put_database db d)
    = (put_database db d, Ok state)) by (intros Hdb; by eapply get_over_http).
  assert (Hfound : io_read io = ReadWorks -> io_write io = WriteWorks ->
    database_readable (state_database d) ->
    database_read print_schema parse_schema io' db = (db, Ok state) /\
    r = if decide (database_listeners (state_database d) = 0%nat) then Err "channel closed"%string
        else Ok tt).
  { intros H1 H2 H3. destruct (Hworks H1 H2 Hreadable H3) as (db' & Heq & Hdb). by simplify_eq. }
  destruct (get_balancer_desired_state _ client (put_database db d)) as [d2 got]. split.
  - destruct r as [[]|e]; [|by exists e]. by injection (Hget Hstore) as -> ->.
  - intros H1 H2 H3. destruct (Hfound H1 H2 H3) as [Hdb ->].
    injection (Hget Hdb) as -> ->. split_and!; [done|done|]. by case_decide.
Qed.
End RoundTrip.

(** ** Parsing the URL, and reporting *)

(** A file database has an absolute path. *)
Lemma state_database_file_absolute (parse_scheme expand : string -> result string string)
    (input path : string) :
  state_database_from_str parse_scheme expand input = Ok (DatabaseFile path) ->
  is_absolute path = true /\ exists rest, strip_text "file://" input = Some rest /\ path = trim_text rest.
Proof.
  unfold state_database_from_str. destruct (parse_scheme input) as [scheme|e];
    cbn -[strip_text]; [|done].
  repeat case_decide; try done.
  destruct (strip_text "file://" input) as [rest|]; [|done]. case_decide; [done|].
  destruct (is_absolute (trim_text rest)) eqn:Habs; cbn [negb].
  - intros [= <-]. split; [done|]. by exists rest.
  - by destruct (expand _).
Qed.

Example state_database_examples :
  state_database_from_str (fun _ => Ok "file"%string) (fun p => Ok p) "file:///db "
    = Ok (DatabaseFile "/db") /\
  is_ok (state_database_from_str (fun _ => Ok "file"%string) (fun p => Ok p) "file://db") = false /\
  is_ok (state_database_from_str (fun _ => Ok "file"%string) (fun p => Ok p) "file:relative") = false.
Proof. split_and!; vm_compute; reflexivity. Qed.

(** A rate and a half rounds up, and no rate is no rate. *)
Example f64_round_examples :
  f64_round_u64 (S754_finite false 6755399441055744 (-52)) = 2 /\ f64_round_u64 (S754_zero true) = 0 /\
  f64_round_u64 S754_nan = 0.
Proof. split_and!; reflexivity. Qed.

(** ** Witnesses *)

#[local] Instance no_json {A : Type} : Json A | 100 :=
  {| json_to_string _ := Err "unsupported"%string; json_from_str _ := Err "unsupported"%string |}.

#[local] Instance metadata_json : Json (option ModelMetadata) :=
  {| json_to_string m := Ok (match m with Some _ => "{}" | None => "null" end)%string;
     json_from_str _ := Err "unsupported"%string |}.

(** The agent answers after the question was registered. *)
Definition metadata_question : Question (chan := QueueChannel) (token := nat) (V := option ModelMetadata) :=
  let '(a, w) := question_register model_metadata_collection "q"
                   (asked (V := option ModelMetadata)
                      (question_start RequestGetModelMetadata "q" sample_controller)) in
  let a := put_collection _ model_metadata_collection
             (forward_response_safe "q" (None : option ModelMetadata) (read_collection _ model_metadata_collection a)) a in
  let '(a, w) := question_select model_metadata_collection ResponseReady
                   {| request_id := "q"; response_rx := 0 |} a in
  {| asked := a; question_phase := w; delivered := [None] |}.

Lemma question_answered_witness :
  question_phase metadata_question = QuestionAnswered (answer 200 "null") /\
  senders (read_collection _ model_metadata_collection (asked metadata_question)) !! "q" = None.
Proof.
  split; [reflexivity|].
  refine (proj1 (question_answered model_metadata_collection RequestGetModelMetadata "q"
                   sample_controller metadata_question (answer 200 "null") _ _ _)).
  - reflexivity.
  - eapply rtc_l; [by eapply question_registers|].
    eapply rtc_l; [apply (question_agent_answers _ _ _ None)|].
    eapply rtc_l; [by eapply (question_wakes _ _ _ ResponseReady)|]. apply rtc_refl.
  - reflexivity.
Defined.

#[local] Instance state_json : Json BalancerDesiredState :=
  {| json_to_string _ := Ok "{}"%string; json_from_str _ := Ok balancer_desired_state_default |}.

Definition listened_data : AppData (chan := QueueChannel) (token := nat) (sender := nat) :=
  {| balancer_applicable_state_holder := holder_default;
     buffered_request_manager :=
       {| manager_pool := sample_pool;
          buffered_request_counter := {| count := 0; counter_update_tx := 0%nat |};
          max_buffered_requests := 1 |};
     state_database :=
       database_of_type (fun _ => None) (DatabaseMemory balancer_desired_state_default)
         {| receivers := 1; broadcast_sent := [] |};
     statsd_prefix := "paddler_" |}.

Lemma desired_state_round_trip_witness :
  snd (get_balancer_desired_state
         (management_network map_to_list digits_print digits_parse
            (fun _ => Ok balancer_desired_state_default) (fun _ => "") (fun _ => "") io_works
            "http://host/") {| base_url := "http://host/" |}
         (fst (put_balancer_desired_state
                 (management_network map_to_list digits_print digits_parse
                    (fun _ => Ok balancer_desired_state_default) (fun _ => "") (fun _ => "") io_works
                    "http://host/") {| base_url := "http://host/" |} balancer_desired_state_default
                 listened_data)))
  = Ok balancer_desired_state_default.
Proof.
  pose proof (desired_state_round_trip map_to_list digits_print digits_parse
    (fun _ => Ok balancer_desired_state_default) (fun _ => ""%string) (fun _ => ""%string)
    digits_parse_print digits_nonempty {| base_url := "http://host/" |}
    balancer_desired_state_default "{}" io_works io_works listened_data eq_refl eq_refl eq_refl
    eq_refl) as Htrip.
  cbv zeta in Htrip.
  destruct (put_balancer_desired_state _ _ _ _) as [d1 put].
  destruct (get_balancer_desired_state _ _ d1) as [d2 got] eqn:Hgot. simpl in *.
  rewrite Hgot. exact (proj1 (proj2 Htrip eq_refl eq_refl I)).
Defined.
