(* ===== verification/Services.v ===== *)
(** * The HTTP services of the balancer

    What the [run] of each service gives to [run_http_service]: the address,
    the workers, the origins its CORS middleware allows and the routes it
    registers, in their order; serving until the shutdown; the pages of the web
    admin panel; and the loop of the statsd service.  What the web framework
    does with a request is its own; which registered pattern matches a path is
    the class [PathRouter].

    Files of [paddler_balancer]: [inference_service/], [management_service/],
    [compatibility/openai_service/], [web_admin_panel_service/],
    [statsd_service/], [run_http_service.rs], [serve_http_until_shutdown.rs],
    [create_cors_middleware.rs]. *)

From Stdlib Require Import Strings.Ascii.
From S2P Require Import Prelude.
From S2P Require Import Numbers.
From S2P Require Import ClientHttp.
Local Open Scope Z_scope.

(** ** Configurations

    A [Duration] is its milliseconds. *)
Section Configurations.
Context `{Network}.

Record InferenceServiceConfiguration : Type := {
  inference_addr : SocketAddr;
  inference_cors_allowed_hosts : list string;
  inference_item_timeout : Z;
}.

Record ManagementServiceConfiguration : Type := {
  management_addr : SocketAddr;
  management_cors_allowed_hosts : list string;
}.

Record OpenAIServiceConfiguration : Type := { openai_addr : SocketAddr }.

Record StatsdServiceConfiguration : Type := {
  statsd_addr : SocketAddr;
  configured_statsd_prefix : string;
  statsd_reporting_interval : Z;
}.

Record TemplateData : Type := {
  template_buffered_request_timeout : Z;
  template_compat_openai_addr : option ResolvedSocketAddr;
  template_inference_addr : ResolvedSocketAddr;
  template_management_addr : ResolvedSocketAddr;
  template_max_buffered_requests : Z;
  template_statsd_addr : option ResolvedSocketAddr;
  template_statsd_prefix : string;
  template_statsd_reporting_interval : Z;
}.

Record WebAdminPanelServiceConfiguration : Type := {
  web_admin_panel_addr : SocketAddr;
  template_data : TemplateData;
}.
End Configurations.

(** ** CORS *)

Record Cors : Type := {
  allowed_methods : list string;
  allowed_headers : list string;
  max_age : Z;
  allowed_origins : list string;
}.

Definition allowed_origin (cors : Cors) (host : string) : Cors :=
  {| allowed_methods := allowed_methods cors; allowed_headers := allowed_headers cors;
     max_age := max_age cors; allowed_origins := allowed_origins cors ++ [host] |}.

Definition create_cors_middleware (allowed_hosts : list string) : Cors :=
  fold_left allowed_origin allowed_hosts
    {| allowed_methods := ["DELETE"; "GET"; "POST"; "PUT"; "OPTIONS"]%string;
       allowed_headers := ["accept"; "authorization"; "content-type"]%string;
       max_age := 3600; allowed_origins := [] |}.

(** ** Routes *)

(** The [respond] a route leads to. *)
Inductive Handler : Type :=
| GetHealth | GetAgents | GetAgentsStream | GetBalancerApplicableState | GetBalancerDesiredState
| GetBufferedRequests | GetBufferedRequestsStream | GetChatTemplateOverride | GetModelMetadata
| PutBalancerDesiredState | WsAgentSocket | GetMetrics
| PostContinueFromConversationHistory | PostContinueFromRawPrompt | PostGenerateEmbeddingBatch
| WsInferenceSocket | PostChatCompletions | PostResponses | Favicon | StaticFile | AdminHome.

Record Route : Type := {
  route_method : Method;
  route_pattern : string;
  route_handler : Handler;
}.

Definition route (m : Method) (pattern : string) (handler : Handler) : Route :=
  {| route_method := m; route_pattern := pattern; route_handler := handler |}.

Definition get_health_route : Route := route GET "/health" GetHealth.

Definition management_routes : list Route := [
  get_health_route;
  route GET "/api/v1/agents" GetAgents;
  route GET "/api/v1/agents/stream" GetAgentsStream;
  route GET "/api/v1/balancer_applicable_state" GetBalancerApplicableState;
  route GET "/api/v1/balancer_desired_state" GetBalancerDesiredState;
  route GET "/api/v1/buffered_requests" GetBufferedRequests;
  route GET "/api/v1/buffered_requests/stream" GetBufferedRequestsStream;
  route GET "/api/v1/agent/{agent_id}/chat_template_override" GetChatTemplateOverride;
  route GET "/api/v1/agent/{agent_id}/model_metadata" GetModelMetadata;
  route PUT "/api/v1/balancer_desired_state" PutBalancerDesiredState;
  route GET "/api/v1/agent_socket/{agent_id}" WsAgentSocket;
  route GET "/metrics" GetMetrics].

Definition inference_routes : list Route := [
  get_health_route;
  route POST "/api/v1/continue_from_conversation_history" PostContinueFromConversationHistory;
  route POST "/api/v1/continue_from_raw_prompt" PostContinueFromRawPrompt;
  route POST "/api/v1/generate_embedding_batch" PostGenerateEmbeddingBatch;
  route GET "/api/v1/inference_socket" WsInferenceSocket].

Definition openai_routes : list Route := [
  get_health_route;
  route POST "/v1/chat/completions" PostChatCompletions;
  route POST "/v1/responses" PostResponses].

Definition web_admin_panel_routes : list Route := [
  route GET "/favicon.ico" Favicon;
  route GET "/static/{path:.*}" StaticFile;
  route GET "/{_:.*}" AdminHome].

Fixpoint string_all (p : ascii -> bool) (s : string) : bool :=
  match s with
  | EmptyString => true
  | String a rest => p a && string_all p rest
  end.

(** A piece of a path that a dynamic segment takes, the text of a pattern
    around it and the name in it. *)
Definition is_segment (s : string) : bool :=
  bool_decide (s <> ""%string) && string_all (fun a => negb (Ascii.eqb a "/"%char)) s.

Definition is_literal (s : string) : bool := string_all (fun a => negb (Ascii.eqb a "{"%char)) s.

Definition is_segment_name (s : string) : bool :=
  string_all (fun a => negb (Ascii.eqb a "}"%char || Ascii.eqb a ":"%char)) s.

Definition starts_segment (s : string) : bool :=
  match s with EmptyString => true | String a _ => Ascii.eqb a "/"%char end.

(** The router of the framework: a pattern without a dynamic segment matches
    itself; one with a single dynamic segment [{name}] matches every path that
    has some segment in its place. *)
Class PathRouter : Type := {
  path_matches : string -> string -> bool;
  literal_matches (pattern path : string) :
    is_literal pattern = true -> path_matches pattern path = true <-> path = pattern;
  dynamic_matches (before name after path : string) :
    is_literal before = true -> is_segment_name name = true -> is_literal after = true ->
    starts_segment after = true ->
    path_matches (before +:+ "{" +:+ name +:+ "}" +:+ after) path = true <->
    exists segment, is_segment segment = true /\ path = before +:+ segment +:+ after;
}.

#[export] Instance Method_eq_dec : EqDecision Method.
Proof. solve_decision. Defined.

Section Routing.
Context `{PathRouter}.

(** The first registered route that matches, of those for the method. *)
Definition routed (routes : list Route) (m : Method) (path : string) : option Handler :=
  route_handler <$>
    head (filter (fun r => route_method r = m /\ path_matches (route_pattern r) path = true) routes).
End Routing.

(** ** Servers *)

Section Servers.
Context `{Network}.

(** [RunHttpServiceParameters], with what the app factory builds. *)
Record HttpServiceParameters : Type := {
  bind_addr : SocketAddr;
  service_name : string;
  worker_count : nat;
  service_cors : option Cors;
  service_routes : list Route;
}.

Definition collect_web_admin_panel_cors_allowed_hosts
    (web_admin_panel : option WebAdminPanelServiceConfiguration) : list string :=
  match web_admin_panel with
  | Some config => ["http://" +:+ display_addr (web_admin_panel_addr config)]
  | None => []
  end.

Definition management_service_run (configuration : ManagementServiceConfiguration)
    (web_admin_panel : option WebAdminPanelServiceConfiguration) : HttpServiceParameters :=
  {| bind_addr := management_addr configuration;
     service_name := "balancer::management_service";
     worker_count := 2;
     service_cors := Some (create_cors_middleware
       (management_cors_allowed_hosts configuration
        ++ collect_web_admin_panel_cors_allowed_hosts web_admin_panel));
     service_routes := management_routes |}.

Definition inference_service_run (configuration : InferenceServiceConfiguration)
    (web_admin_panel : option WebAdminPanelServiceConfiguration) : HttpServiceParameters :=
  {| bind_addr := inference_addr configuration;
     service_name := "balancer::inference_service";
     worker_count := 16;
     service_cors := Some (create_cors_middleware
       (inference_cors_allowed_hosts configuration
        ++ match web_admin_panel with
           | Some config => ["http://" +:+ display_addr (web_admin_panel_addr config)]
           | None => []
           end));
     service_routes := inference_routes |}.

Definition openai_service_run (inference : InferenceServiceConfiguration)
    (configuration : OpenAIServiceConfiguration) : HttpServiceParameters :=
  {| bind_addr := openai_addr configuration;
     service_name := "balancer::compatibility::openai_service";
     worker_count := 16;
     service_cors := Some (create_cors_middleware (inference_cors_allowed_hosts inference));
     service_routes := openai_routes |}.

Definition web_admin_panel_service_run (configuration : WebAdminPanelServiceConfiguration)
    : HttpServiceParameters :=
  {| bind_addr := web_admin_panel_addr configuration;
     service_name := "balancer::web_admin_panel_service";
     worker_count := 2;
     service_cors := None;
     service_routes := web_admin_panel_routes |}.

(** *** Serving until the shutdown

    [serve_http_until_shutdown]: the server is polled with the shutdown, and
    after it together with the graceful stop, until both are done. *)
Inductive ServePhase : Type :=
| Serving
| Stopping (server_result : option (result unit string)) (stopped : bool)
| Served (server_result : result unit string).

Inductive ServeEvent : Type :=
| ServerEnds (server_result : result unit string)
| SeesCancelled
| StopCompletes.

Definition serve_step (event : ServeEvent) (p : ServePhase) : ServePhase :=
  match p, event with
  | Serving, ServerEnds r => Served r
  | Serving, SeesCancelled => Stopping None false
  | Stopping None stopped, ServerEnds r => if stopped then Served r else Stopping (Some r) false
  | Stopping (Some r) false, StopCompletes => Served r
  | Stopping None false, StopCompletes => Stopping None true
  | _, _ => p
  end.

Definition serve_http_until_shutdown (events : list ServeEvent) : ServePhase :=
  fold_left (fun p event => serve_step event p) events Serving.

(** An error with the contexts around it, the last one first. *)
Definition with_context {A : Type} (context : string) (r : result A (list string))
    : result A (list string) :=
  match r with Ok a => Ok a | Err causes => Err (context :: causes) end.

Definition io_error {A : Type} (r : result A string) : result A (list string) :=
  match r with Ok a => Ok a | Err e => Err [e] end.

(** [run_http_service]; [None] while it serves. *)
Definition run_http_service (bind : SocketAddr -> result unit string) (events : list ServeEvent)
    (p : HttpServiceParameters) : option (result unit (list string)) :=
  let target := display_addr (bind_addr p) in
  match bind (bind_addr p) with
  | Err e => Some (Err ["Unable to bind " +:+ service_name p +:+ " to " +:+ target; e])
  | Ok _ =>
      match serve_http_until_shutdown events with
      | Served r =>
          Some (with_context ("Unable to serve " +:+ service_name p +:+ " on " +:+ target) (io_error r))
      | _ => None
      end
  end.

(** ** The web admin panel *)

(** [WebAdminPanelTemplate], without the preloads of the library. *)
Record WebAdminPanelTemplate : Type := {
  buffered_request_timeout_millis : Z;
  panel_compat_openai_addr : string;
  panel_inference_addr : string;
  panel_management_addr : string;
  panel_max_buffered_requests : Z;
  panel_statsd_addr : string;
  panel_statsd_prefix : string;
  statsd_reporting_interval_millis : Z;
}.

Definition resolved_input (addr : option ResolvedSocketAddr) : string :=
  match addr with Some addr => input_addr addr | None => "" end.

Definition admin_home_template (t : TemplateData) : WebAdminPanelTemplate :=
  {| buffered_request_timeout_millis := template_buffered_request_timeout t;
     panel_compat_openai_addr := resolved_input (template_compat_openai_addr t);
     panel_inference_addr := input_addr (template_inference_addr t);
     panel_management_addr := input_addr (template_management_addr t);
     panel_max_buffered_requests := template_max_buffered_requests t;
     panel_statsd_addr := resolved_input (template_statsd_addr t);
     panel_statsd_prefix := template_statsd_prefix t;
     statsd_reporting_interval_millis := template_statsd_reporting_interval t |}.

(** A page: its status, type and body. *)
Record Page : Type := {
  page_status : Z;
  page_type : option string;
  page_body : string;
}.

(** [view_from_http_response_builder] with [Ok]; rendering is the template
    library's. *)
Definition view (render : WebAdminPanelTemplate -> result string string)
    (template : WebAdminPanelTemplate) : Page :=
  match render template with
  | Ok rendered => {| page_status := 200; page_type := Some "text/html; charset=utf-8"%string;
                      page_body := rendered |}
  | Err e => {| page_status := 500; page_type := None; page_body := e |}
  end.

Definition respond_admin_home (render : WebAdminPanelTemplate -> result string string)
    (t : TemplateData) : Page := view render (admin_home_template t).

Definition respond_favicon (favicon : string) : Page :=
  {| page_status := 200; page_type := Some "image/svg+xml"%string; page_body := favicon |}.

(** [files] are the embedded files, [mime_type] the guess of the library. *)
Definition respond_static_file (files : string -> option string) (mime_type : string -> string)
    (path : string) : Page :=
  match files path with
  | Some content => {| page_status := 200; page_type := Some (mime_type path); page_body := content |}
  | None => {| page_status := 404; page_type := None; page_body := "File not found" |}
  end.
End Servers.

(** ** The statsd service

    [report] is [report_metrics] at the time of a tick ([ManagementRoutes]):
    the gauges to send. *)
Section Statsd.
Context {Gauges : Type}.

Inductive StatsdEvent : Type :=
| StatsdTick (report : result Gauges string)
| StatsdShutdown.

(** The gauges sent, oldest first, and whether the loop was left. *)
Fixpoint statsd_loop (events : list StatsdEvent) : list Gauges * bool :=
  match events with
  | [] => ([], false)
  | StatsdShutdown :: _ => ([], true)
  | StatsdTick report :: events =>
      let '(sent, left_) := statsd_loop events in
      (match report with Ok gauges => gauges :: sent | Err _ => sent end, left_)
  end.

Definition statsd_service_run (bind_sink : result unit string) (events : list StatsdEvent)
    : list Gauges * option (result unit string) :=
  match bind_sink with
  | Err e => ([], Some (Err e))
  | Ok _ =>
      let '(sent, left_) := statsd_loop events in (sent, if left_ then Some (Ok tt) else None)
  end.
End Statsd.
