(* ===== verification/Bootstrap.v ===== *)
(** * Starting the services

    [paddler_bootstrap]: the thread a service runs on ([service_thread.rs]),
    what the bundles of the agent and of the balancer build
    ([agent_service_bundle.rs], [balancer_service_bundle.rs]) and the runners
    that start them.  The manager that runs the services of a bundle is a
    library. *)

From S2P Require Import Prelude.
From S2P Require Import Numbers.
From S2P Require Import Tokio.
From S2P Require Import Messages.
From S2P Require Import AgentIssues.
From S2P Require Import Requests.
From S2P Require Import Senders.
From S2P Require Import SlotStatus.
From S2P Require Import AgentController.
From S2P Require Import AgentPool.
From S2P Require Import DesiredState.
From S2P Require Import StateDatabase.
From S2P Require Import BufferedRequests.
From S2P Require Import AgentStartup.
From S2P Require Import AgentArbiter.
From S2P Require Import ClientHttp.
From S2P Require Import SnapshotsStream.
From S2P Require Import ManagementRoutes.
From S2P Require Import Services.
From S2P Require Import ManagementRoutesFacts.
Local Open Scope Z_scope.

(** ** A service on its thread *)

(** How [run] ends on the thread. *)
Inductive RunOutcome : Type :=
| RunReturned (r : result unit string)
| RunPanicked.

(** Who has the receiving half of the completion channel. *)
Inductive CompletionReceiver : Type := HeldByThread | HeldByFuture | ReceiverDropped.

(** The thread handle of the owner; dropping joins. *)
Inductive Ownership : Type := Owned | Joining | Joined.

Record ServiceThread : Type := {
  token_cancelled : bool;
  run_outcome : option RunOutcome;
  completion_sent : option (result unit string);
  completion_rx : CompletionReceiver;
  ownership : Ownership;
}.

Definition service_thread_spawn (cancelled : bool) : ServiceThread :=
  {| token_cancelled := cancelled; run_outcome := None; completion_sent := None;
     completion_rx := HeldByThread; ownership := Owned |}.

(** The end of the thread's closure: a result that nobody receives is logged,
    a panic drops the sender. *)
Definition thread_ends (o : RunOutcome) (t : ServiceThread) : ServiceThread :=
  {| token_cancelled := token_cancelled t; run_outcome := Some o;
     completion_sent :=
       match o, completion_rx t with
       | RunReturned r, (HeldByThread | HeldByFuture) => Some r
       | _, _ => None
       end;
     completion_rx := completion_rx t; ownership := ownership t |}.

(** The future [wait_for_completion] returns: with the receiver, if the thread
    still had it. *)
Inductive CompletionFuture : Type := AwaitsCompletion | AlreadyConsumed.

Definition put_completion_rx (rx : CompletionReceiver) (t : ServiceThread) : ServiceThread :=
  {| token_cancelled := token_cancelled t; run_outcome := run_outcome t;
     completion_sent := completion_sent t; completion_rx := rx; ownership := ownership t |}.

Definition wait_for_completion (t : ServiceThread) : ServiceThread * CompletionFuture :=
  match completion_rx t with
  | HeldByThread => (put_completion_rx HeldByFuture t, AwaitsCompletion)
  | HeldByFuture | ReceiverDropped => (t, AlreadyConsumed)
  end.

(** Polling it; [None] is pending. *)
Definition poll_completion (f : CompletionFuture) (t : ServiceThread) : option (result unit string) :=
  match f with
  | AlreadyConsumed => Some (Err "service thread completion already consumed"%string)
  | AwaitsCompletion =>
      match completion_sent t with
      | Some r => Some r
      | None =>
          match run_outcome t with
          | None => None
          | Some _ =>
              Some (Err "service thread dropped before reporting completion: channel closed"%string)
          end
      end
  end.

Definition thread_cancel (t : ServiceThread) : ServiceThread :=
  {| token_cancelled := true; run_outcome := run_outcome t; completion_sent := completion_sent t;
     completion_rx := completion_rx t; ownership := ownership t |}.

(** [Drop]: cancel, join, and then the fields go. *)
Definition drop_begins (t : ServiceThread) : ServiceThread :=
  match ownership t with
  | Owned =>
      {| token_cancelled := true; run_outcome := run_outcome t; completion_sent := completion_sent t;
         completion_rx := completion_rx t; ownership := Joining |}
  | Joining | Joined => t
  end.

Definition drop_joins (t : ServiceThread) : ServiceThread :=
  match ownership t, run_outcome t with
  | Joining, Some _ =>
      {| token_cancelled := token_cancelled t; run_outcome := run_outcome t;
         completion_sent := completion_sent t;
         completion_rx := match completion_rx t with HeldByThread => ReceiverDropped | rx => rx end;
         ownership := Joined |}
  | _, _ => t
  end.

(** The owner, the futures it got and the thread, in any order. *)
Record ThreadSystem : Type := {
  thread : ServiceThread;
  futures : list CompletionFuture;
}.

Definition thread_started (cancelled : bool) : ThreadSystem :=
  {| thread := service_thread_spawn cancelled; futures := [] |}.

Inductive service_step : relation ThreadSystem :=
| step_thread_ends y o :
    run_outcome (thread y) = None ->
    service_step y {| thread := thread_ends o (thread y); futures := futures y |}
| step_wait y t f :
    ownership (thread y) = Owned -> wait_for_completion (thread y) = (t, f) ->
    service_step y {| thread := t; futures := futures y ++ [f] |}
| step_drop_future y :
    completion_rx (thread y) = HeldByFuture ->
    service_step y {| thread := put_completion_rx ReceiverDropped (thread y); futures := futures y |}
| step_cancel y :
    ownership (thread y) = Owned ->
    service_step y {| thread := thread_cancel (thread y); futures := futures y |}
| step_drop y : service_step y {| thread := drop_begins (thread y); futures := futures y |}
| step_join y : service_step y {| thread := drop_joins (thread y); futures := futures y |}.

(** ** The bundle of the agent *)

Section AgentBundle.
Context {sender receiver : Type} `{!WatchChannel sender receiver}.
Context {chan : Type -> Type} `{!UnboundedChannel chan}.
Context {vsender vreceiver : Type} `{!ValueWatch (option AgentApplicableState) vsender vreceiver}.
Context {Conversation Prompt Embeddings : Type}.
Local Abbreviation Process := (@AgentProcess sender chan vsender vreceiver Conversation Prompt Embeddings).

(** The arbiter and the reconciliation share the process state; the socket
    client has the URL. *)
Record AgentServiceBundle : Type := {
  agent_process : Process;
  agent_name : option string;
  gpu_devices : list Z;
  socket_url : string;
}.

Inductive AgentServiceName : Type :=
| LlamaCppArbiterService | ManagementSocketClientService | AgentReconciliationService.

(** [id] is the fresh [nanoid!()]. *)
Definition agent_service_bundle_new (name : option string) (management_address : string) (slots : Z)
    (devices : list Z) (id : string) (now : Z) : AgentServiceBundle :=
  {| agent_process := agent_process_new slots now; agent_name := name; gpu_devices := devices;
     socket_url := "ws://" +:+ management_address +:+ "/api/v1/agent_socket/" +:+ id |}.

Definition agent_services (b : AgentServiceBundle) : list AgentServiceName :=
  [LlamaCppArbiterService; ManagementSocketClientService; AgentReconciliationService].

(** What [AgentRunner::start] keeps: the shared status and the thread. *)
Record AgentRunner : Type := {
  runner_bundle : AgentServiceBundle;
  agent_thread : ServiceThread;
}.

Definition agent_runner_start (name : option string) (management_address : string) (slots : Z)
    (devices : list Z) (id : string) (now : Z) (cancelled : bool) : AgentRunner :=
  {| runner_bundle := agent_service_bundle_new name management_address slots devices id now;
     agent_thread := service_thread_spawn cancelled |}.
End AgentBundle.

(** ** The bundle of the balancer *)

Section BalancerBundle.
Context `{Network} `{JsonTypes} `{LlamaTypes} {chan : Type -> Type} `{!UnboundedChannel chan} {token : Type}.
Context {sender receiver : Type} `{!WatchChannel sender receiver}.
Context (print_schema : Schema -> string) (parse_schema : string -> result Schema string).
Context (disk : string -> option string).

Record BalancerBootstrapConfig : Type := {
  config_buffered_request_timeout : Z;
  inference_service_configuration : InferenceServiceConfiguration;
  management_service_configuration : ManagementServiceConfiguration;
  config_max_buffered_requests : Z;
  openai_service_configuration : option OpenAIServiceConfiguration;
  state_database_type : StateDatabaseType;
  config_statsd_prefix : string;
  statsd_service_configuration : option StatsdServiceConfiguration;
  web_admin_panel_service_configuration : option WebAdminPanelServiceConfiguration;
}.

(** The services with what is their own; the pool, the holder, the manager and
    the database are those of the bundle. *)
Inductive BalancerService : Type :=
| InferenceService (configuration : InferenceServiceConfiguration)
    (web_admin_panel : option WebAdminPanelServiceConfiguration)
| ManagementService (configuration : ManagementServiceConfiguration)
    (web_admin_panel : option WebAdminPanelServiceConfiguration)
| BalancerReconciliationService
| OpenAIService (inference : InferenceServiceConfiguration) (configuration : OpenAIServiceConfiguration)
| StatsdService (configuration : StatsdServiceConfiguration)
| WebAdminPanelService (configuration : WebAdminPanelServiceConfiguration).

(** The address and the app of a service that serves HTTP. *)
Definition http_parameters (service : BalancerService) : option HttpServiceParameters :=
  match service with
  | InferenceService configuration panel => Some (inference_service_run configuration panel)
  | ManagementService configuration panel => Some (management_service_run configuration panel)
  | OpenAIService inference configuration => Some (openai_service_run inference configuration)
  | WebAdminPanelService configuration => Some (web_admin_panel_service_run configuration)
  | BalancerReconciliationService | StatsdService _ => None
  end.

Record BalancerServiceBundle : Type := {
  initial_desired_state : BalancerDesiredState;
  app_data : AppData (chan := chan) (token := token) (sender := sender);
  manager_timeout : Z;
  reconciliation_service : ReconciliationService chan token sender;
  balancer_services : list BalancerService;
}.

(** The channel of desired states is made with the one receiver that the
    reconciliation keeps. *)
Definition desired_state_channel : Broadcast := {| receivers := 1; broadcast_sent := [] |}.

Definition services_of (config : BalancerBootstrapConfig) : list BalancerService :=
  let panel := web_admin_panel_service_configuration config in
  [InferenceService (inference_service_configuration config) panel;
   ManagementService (management_service_configuration config) panel;
   BalancerReconciliationService]
  ++ (match openai_service_configuration config with
      | Some openai => [OpenAIService (inference_service_configuration config) openai]
      | None => []
      end)
  ++ (match statsd_service_configuration config with
      | Some statsd => [StatsdService statsd]
      | None => []
      end)
  ++ (match panel with Some panel => [WebAdminPanelService panel] | None => [] end).

Definition balancer_service_bundle_new (io : DatabaseIo) (config : BalancerBootstrapConfig)
    : result BalancerServiceBundle string :=
  let db := database_of_type disk (state_database_type config) desired_state_channel in
  let '(db, r) := database_read print_schema parse_schema io db in
  let? initial := r in
  let manager := {| manager_pool := pool_default;
                    buffered_request_counter := {| count := 0; counter_update_tx := watch_new |};
                    max_buffered_requests := config_max_buffered_requests config |} in
  Ok {| initial_desired_state := initial;
        app_data := {| ManagementRoutes.balancer_applicable_state_holder := holder_default;
                       ManagementRoutes.buffered_request_manager := manager;
                       ManagementRoutes.state_database := db;
                       ManagementRoutes.statsd_prefix := config_statsd_prefix config |};
        manager_timeout := config_buffered_request_timeout config;
        reconciliation_service :=
          {| DesiredState.agent_controller_pool := pool_default;
             DesiredState.balancer_applicable_state_holder := holder_default;
             DesiredState.balancer_desired_state := initial;
             DesiredState.is_converted_to_applicable_state := false |};
        balancer_services := services_of config |}.

Record BalancerRunner : Type := {
  balancer_bundle : BalancerServiceBundle;
  balancer_thread : ServiceThread;
}.

(** [BalancerRunner::start]: no thread without a bundle. *)
Definition balancer_runner_start (io : DatabaseIo) (config : BalancerBootstrapConfig) (cancelled : bool)
    : result BalancerRunner string :=
  let? bundle := balancer_service_bundle_new io config in
  Ok {| balancer_bundle := bundle; balancer_thread := service_thread_spawn cancelled |}.
End BalancerBundle.

(** ** What starting guarantees

    The result of a service is reported once and to whoever asked first, a
    dropped service has stopped, and the balancer starts from what its
    database holds. *)

(** ** The thread *)

(** What the first future gives, once the thread ended. *)
Definition reported (o : RunOutcome) : result unit string :=
  match o with
  | RunReturned r => r
  | RunPanicked => Err "service thread dropped before reporting completion: channel closed"%string
  end.

Record thread_ok (y : ThreadSystem) : Prop := {
  nobody_waits : completion_rx (thread y) = HeldByThread -> futures y = [];
  first_waits : completion_rx (thread y) = HeldByFuture ->
    exists rest, futures y = AwaitsCompletion :: rest;
  others_consumed : Forall (fun f => f = AlreadyConsumed) (tail (futures y));
  nothing_sent : run_outcome (thread y) = None -> completion_sent (thread y) = None;
  outcome_sent o : run_outcome (thread y) = Some o -> completion_rx (thread y) <> ReceiverDropped ->
    completion_sent (thread y) = match o with RunReturned r => Some r | RunPanicked => None end;
  dropped_cancelled : ownership (thread y) <> Owned -> token_cancelled (thread y) = true;
  joined_ended : ownership (thread y) = Joined -> is_Some (run_outcome (thread y));
}.

Lemma thread_step_ok (y y' : ThreadSystem) : service_step y y' -> thread_ok y -> thread_ok y'.
Proof.
  intros Hstep [I1 I2 I3 I4 I5 I6 I7].
  destruct Hstep as [y o Hrun|y t f Hown Hwait|y Hrx|y Hown|y|y]; destruct y as [[c o' s rx w] fs];
    simpl in *.
  - split; simpl; try done. intros o0 [= <-]. by destruct o, rx.
  - unfold wait_for_completion in Hwait. simpl in Hwait. subst w.
    destruct rx; simplify_eq; simpl in *.
    + rewrite I1 by done. split; simpl; try done; [by eexists|intros; by apply I5].
    + destruct (I2 eq_refl) as [rest ->]. split; simpl; try done; [by eexists|].
      apply Forall_app. split; [done|]. by repeat constructor.
    + split; simpl; try done. destruct fs; simpl in *; [constructor|]. apply Forall_app.
      split; [done|]. by repeat constructor.
  - split; simpl; try done.
  - split; simpl; try done.
  - destruct w; simpl; split; simpl; try done.
  - unfold drop_joins. destruct w, o'; simpl; split; simpl; try done; destruct rx; try done.
    all: intros; first [by apply I5 | by apply I6 | by eexists].
Qed.

Lemma thread_reachable_ok (cancelled : bool) (y : ThreadSystem) :
  rtc service_step (thread_started cancelled) y -> thread_ok y.
Proof.
  intros Hreach. apply (rtc_invariant _ thread_ok _ _ Hreach).
  - by split.
  - intros y1 y2 Hok Hstep. by eapply thread_step_ok.
Qed.

(** The end of a service is reported exactly once.  Whatever the owner
    does while the thread runs, the first future it asked for is pending until
    the thread ends and then gives the result of the service, or an error if
    the service panicked; every later one says that the completion was
    consumed; and once dropping the service returned, its token is cancelled
    and its thread has ended. *)
Theorem completion_reported_once (cancelled : bool) (y : ThreadSystem)
    (Hreach : rtc service_step (thread_started cancelled) y) :
  (completion_rx (thread y) = HeldByFuture ->
   exists rest, futures y = AwaitsCompletion :: rest /\
     poll_completion AwaitsCompletion (thread y) = reported <$> run_outcome (thread y)) /\
  Forall (fun f => poll_completion f (thread y)
                   = Some (Err "service thread completion already consumed"%string)) (tail (futures y)) /\
  (ownership (thread y) = Joined ->
   token_cancelled (thread y) = true /\ is_Some (run_outcome (thread y))).
Proof.
  destruct (thread_reachable_ok cancelled y Hreach) as [_ I2 I3 I4 I5 I6 I7]. split_and!.
  - intros Hrx. destruct (I2 Hrx) as [rest Hfutures]. exists rest. split; [done|]. simpl.
    destruct (run_outcome (thread y)) as [o|] eqn:Ho.
    + rewrite (I5 o eq_refl) by congruence. by destruct o.
    + by rewrite I4.
  - eapply Forall_impl; [exact I3|]. intros f ->. done.
  - intros Hjoined. split; [apply I6; congruence | by apply I7].
Qed.

(** ** The balancer *)

Section BalancerStarts.
Context `{Network} `{JsonTypes} `{LlamaTypes} {chan : Type -> Type} `{!UnboundedChannel chan} {token : Type}.
Context {sender receiver : Type} `{!WatchChannel sender receiver}.
Context (iteration : gmap string nat -> list (string * nat)).
Context (iteration_entries : forall m, iteration m ≡ₚ map_to_list m).
Context (print_schema : Schema -> string) (parse_schema : string -> result Schema string).
Context (disk : string -> option string).
Local Abbreviation bundle_new :=
  (balancer_service_bundle_new (chan := chan) (token := token) (sender := sender)
     print_schema parse_schema disk).

Lemma broadcast_to_nobody (d : AgentDesiredState) :
  pool_set_desired_state iteration d (pool_default (chan := chan) (token := token) (sender := sender))
  = (pool_default, Ok tt).
Proof.
  unfold pool_set_desired_state. simpl.
  assert (iteration ∅ = []) as ->; [|done].
  apply Permutation_nil_r. by rewrite iteration_entries, map_to_list_empty.
Qed.

Lemma broadcast_receivers (state : BalancerDesiredState) (b : Broadcast) :
  receivers (fst (broadcast_send state b)) = receivers b.
Proof. unfold broadcast_send. by case_match. Qed.

Lemma store_schema_listeners (w : WriteOutcome) (schema : Schema) (f : File) :
  receivers (file_notify_tx (fst (store_schema print_schema w schema f)))
  = receivers (file_notify_tx f).
Proof.
  unfold store_schema, notify_stored. destruct w; simpl; try done.
  pose proof (broadcast_receivers (schema_state schema) (file_notify_tx f)) as Hb.
  by destruct (broadcast_send _ _).
Qed.

(** Reading a file may store the default, and keeps the listeners. *)
Lemma database_read_listeners (io : DatabaseIo) (db : StateDatabase) :
  database_listeners (fst (database_read print_schema parse_schema io db)) = database_listeners db.
Proof.
  destruct db as [m|f]; [done|]. simpl. unfold file_read, read_schema_from_file, store_default_schema.
  pose proof (store_schema_listeners (io_default_write io) schema_default f) as Hstore.
  destruct (io_read io); [|done].
  destruct (store_schema print_schema (io_default_write io) schema_default f) as [f' []];
    destruct (contents f) as [c|]; simpl in *; try done; case_decide; try done;
    by destruct (parse_schema c).
Qed.

(** The balancer starts from what its database holds.  Starting fails
    exactly when the database cannot be read; otherwise the services share the
    state that was read, the first tick of the reconciliation applies it, and
    somebody listens for the states that are stored later. *)
Theorem balancer_starts_from_database (io : DatabaseIo) (config : BalancerBootstrapConfig) :
  let '(db, stored) := database_read print_schema parse_schema io
    (database_of_type disk (state_database_type config) desired_state_channel) in
  match bundle_new io config with
  | Err e => stored = Err e
  | Ok b =>
      stored = Ok (initial_desired_state b) /\
      state_database (app_data b) = db /\ database_listeners db = 1%nat /\
      exists s, handle_reconciliation_event iteration Tick (reconciliation_service b) = Continue s /\
        is_converted_to_applicable_state s = true /\
        get_agent_desired_state (DesiredState.balancer_applicable_state_holder s)
        = Some (to_desired_state (initial_desired_state b))
  end.
Proof.
  unfold balancer_service_bundle_new.
  destruct (database_read _ _ io _) as [db stored] eqn:Hread. destruct stored as [initial|e]; [|done].
  simpl. split_and!; [done|done| |].
  - pose proof (database_read_listeners io
      (database_of_type disk (state_database_type config) desired_state_channel)) as Hlisteners.
    rewrite Hread in Hlisteners. simpl in Hlisteners. rewrite Hlisteners.
    by destruct (state_database_type config).
  - unfold handle_reconciliation_event. simpl. eexists. split; [reflexivity|].
    unfold DesiredState.try_convert_to_applicable_state, DesiredState.convert_to_applicable_state,
      broadcast_applicable_state.
    simpl. rewrite broadcast_to_nobody. simpl. done.
Qed.
End BalancerStarts.

(** ** Witnesses *)

(** A service that fails after its owner asked twice. *)
Definition failed_thread : ThreadSystem :=
  {| thread := thread_ends (RunReturned (Err "bind"%string)) (fst (wait_for_completion (service_thread_spawn false)));
     futures := [AwaitsCompletion; AlreadyConsumed] |}.

Lemma completion_reported_once_witness :
  exists rest, futures failed_thread = AwaitsCompletion :: rest /\
    poll_completion AwaitsCompletion (thread failed_thread) = Some (Err "bind"%string).
Proof.
  assert (Hreach : rtc service_step (thread_started false) failed_thread).
  { eapply rtc_l; [by eapply step_wait|]. eapply rtc_l; [by eapply step_wait|].
    eapply rtc_l; [by apply (step_thread_ends _ (RunReturned (Err "bind"%string)))|]. apply rtc_refl. }
  exact (proj1 (completion_reported_once false failed_thread Hreach) eq_refl).
Defined.

(** Addresses that are their own text. *)
#[local] Instance text_network : Network :=
  {| SocketAddr := string; parse_socket_addr := Ok; display_addr := id; display_port := id |}.

Definition memory_config : BalancerBootstrapConfig :=
  {| config_buffered_request_timeout := 10000;
     inference_service_configuration :=
       {| inference_addr := "127.0.0.1:8061"%string; inference_cors_allowed_hosts := [];
          inference_item_timeout := 30000 |};
     management_service_configuration :=
       {| management_addr := "127.0.0.1:8060"%string; management_cors_allowed_hosts := [] |};
     config_max_buffered_requests := 30;
     openai_service_configuration := Some {| openai_addr := "127.0.0.1:8062"%string |};
     state_database_type := DatabaseMemory balancer_desired_state_default;
     config_statsd_prefix := "paddler_"; statsd_service_configuration := None;
     web_admin_panel_service_configuration := None |}.

Lemma balancer_starts_from_database_witness :
  exists b : BalancerServiceBundle (chan := QueueChannel) (token := nat) (sender := nat),
    balancer_service_bundle_new digits_print digits_parse (fun _ => None) io_works memory_config = Ok b /\
    database_listeners (state_database (app_data b)) = 1%nat.
Proof.
  pose proof (balancer_starts_from_database (chan := QueueChannel) (token := nat) (sender := nat)
    (receiver := nat) map_to_list (fun _ => reflexivity _) digits_print digits_parse (fun _ => None) io_works
    memory_config) as Hstart.
  destruct (balancer_service_bundle_new _ _ _ _ _) as [b|e] eqn:Hb; simpl in Hstart; [|done].
  exists b. destruct Hstart as (_ & Hdb & Hone & _). split; [done|]. by rewrite Hdb.
Defined.
