(* ===== verification/CommandLine.v ===== *)
(** * The command line

    [paddler_cli]: the arguments of the commands with their defaults and value
    parsers, the configurations they become, the listing of the devices and
    the choice of the command.  Cutting the command line into arguments is a
    library, and so are resolving an address and the service manager; the
    devices are those llama.cpp detects. *)

From stdpp Require Import pretty.
From S2P Require Import Prelude.
From S2P Require Import Numbers.
From S2P Require Import Tokio.
From S2P Require Import Messages.
From S2P Require Import Requests.
From S2P Require Import StateDatabase.
From S2P Require Import ClientHttp.
From S2P Require Import ManagementRoutes.
From S2P Require Import Services.
From S2P Require Import Bootstrap.
Local Open Scope Z_scope.

(** ** Value parsers *)

Definition int_error (e : IntErrorKind) : string :=
  match e with
  | IntEmpty => "cannot parse integer from empty string"
  | InvalidDigit => "invalid digit found in string"
  | PosOverflow => "number too large to fit in target type"
  | NegOverflow => "number too small to fit in target type"
  end.

(** [parse_duration]: the milliseconds. *)
Definition parse_duration (arg : string) : result Z string :=
  match parse_u64 arg with Ok milliseconds => Ok milliseconds | Err e => Err (int_error e) end.

Definition parse_usize (arg : string) : result Z string :=
  match parse_u64 arg with Ok n => Ok n | Err e => Err (int_error e) end.

Definition parse_int (arg : string) : result Z string :=
  match parse_i32 arg with Ok n => Ok n | Err e => Err (int_error e) end.

Section CommandLine.
Context `{Network}.
Context (resolve_socket_addr : string -> result SocketAddr string).
Context (parse_database : string -> result StateDatabaseType string).

Definition parse_resolved_addr (input_addr_ : string) : result ResolvedSocketAddr string :=
  let? addr := resolve_socket_addr input_addr_ in
  Ok {| input_addr := input_addr_; socket_addr := addr |}.

(** An argument that was not given has its default. *)
Definition arg_or_default {A : Type} (parse : string -> result A string) (default_value : string)
    (given : option string) : result A string :=
  parse (default default_value given).

Definition arg_optional {A : Type} (parse : string -> result A string) (given : option string)
    : result (option A) string :=
  match given with
  | Some arg => let? value := parse arg in Ok (Some value)
  | None => Ok None
  end.

(** ** The balancer *)

(** The arguments as given. *)
Record BalancerFlags : Type := {
  flag_buffered_request_timeout : option string;
  flag_compat_openai_addr : option string;
  flag_inference_addr : option string;
  flag_inference_item_timeout : option string;
  flag_inference_cors_allowed_host : list string;
  flag_management_addr : option string;
  flag_management_cors_allowed_host : list string;
  flag_max_buffered_requests : option string;
  flag_state_database : option string;
  flag_statsd_addr : option string;
  flag_statsd_prefix : option string;
  flag_statsd_reporting_interval : option string;
  flag_web_admin_panel_addr : option string;
}.

Record Balancer : Type := {
  buffered_request_timeout : Z;
  compat_openai_addr : option ResolvedSocketAddr;
  balancer_inference_addr : ResolvedSocketAddr;
  balancer_inference_item_timeout : Z;
  balancer_inference_cors_allowed_hosts : list string;
  balancer_management_addr : ResolvedSocketAddr;
  balancer_management_cors_allowed_hosts : list string;
  max_buffered_requests : Z;
  state_database : StateDatabaseType;
  balancer_statsd_addr : option ResolvedSocketAddr;
  statsd_prefix : string;
  balancer_statsd_reporting_interval : Z;
  balancer_web_admin_panel_addr : option ResolvedSocketAddr;
}.

Definition balancer_parse (f : BalancerFlags) : result Balancer string :=
  let? timeout := arg_or_default parse_duration "10000" (flag_buffered_request_timeout f) in
  let? openai := arg_optional parse_resolved_addr (flag_compat_openai_addr f) in
  let? inference := arg_or_default parse_resolved_addr "127.0.0.1:8061" (flag_inference_addr f) in
  let? item_timeout := arg_or_default parse_duration "30000" (flag_inference_item_timeout f) in
  let? management := arg_or_default parse_resolved_addr "127.0.0.1:8060" (flag_management_addr f) in
  let? max_buffered := arg_or_default parse_int "30" (flag_max_buffered_requests f) in
  let? database := arg_or_default parse_database "memory://" (flag_state_database f) in
  let? statsd := arg_optional parse_resolved_addr (flag_statsd_addr f) in
  let? interval := arg_or_default parse_duration "10000" (flag_statsd_reporting_interval f) in
  let? panel := arg_optional parse_resolved_addr (flag_web_admin_panel_addr f) in
  Ok {| buffered_request_timeout := timeout; compat_openai_addr := openai;
        balancer_inference_addr := inference; balancer_inference_item_timeout := item_timeout;
        balancer_inference_cors_allowed_hosts := flag_inference_cors_allowed_host f;
        balancer_management_addr := management;
        balancer_management_cors_allowed_hosts := flag_management_cors_allowed_host f;
        max_buffered_requests := max_buffered; state_database := database;
        balancer_statsd_addr := statsd;
        statsd_prefix := default "paddler_"%string (flag_statsd_prefix f);
        balancer_statsd_reporting_interval := interval; balancer_web_admin_panel_addr := panel |}.

Definition get_web_admin_panel_service_configuration (b : Balancer)
    : option WebAdminPanelServiceConfiguration :=
  (fun addr : ResolvedSocketAddr =>
     {| web_admin_panel_addr := socket_addr addr;
        template_data :=
          {| template_buffered_request_timeout := buffered_request_timeout b;
             template_compat_openai_addr := compat_openai_addr b;
             template_inference_addr := balancer_inference_addr b;
             template_management_addr := balancer_management_addr b;
             template_max_buffered_requests := max_buffered_requests b;
             template_statsd_addr := balancer_statsd_addr b;
             template_statsd_prefix := statsd_prefix b;
             template_statsd_reporting_interval := balancer_statsd_reporting_interval b |} |})
  <$> balancer_web_admin_panel_addr b.

(** What [Balancer::handle] configures. *)
Definition balancer_bootstrap_config (b : Balancer) : BalancerBootstrapConfig :=
  {| config_buffered_request_timeout := buffered_request_timeout b;
     inference_service_configuration :=
       {| inference_addr := socket_addr (balancer_inference_addr b);
          inference_cors_allowed_hosts := balancer_inference_cors_allowed_hosts b;
          inference_item_timeout := balancer_inference_item_timeout b |};
     management_service_configuration :=
       {| management_addr := socket_addr (balancer_management_addr b);
          management_cors_allowed_hosts := balancer_management_cors_allowed_hosts b |};
     config_max_buffered_requests := max_buffered_requests b;
     openai_service_configuration :=
       (fun addr : ResolvedSocketAddr => {| openai_addr := socket_addr addr |}) <$> compat_openai_addr b;
     state_database_type := state_database b;
     config_statsd_prefix := statsd_prefix b;
     statsd_service_configuration :=
       (fun addr : ResolvedSocketAddr =>
          {| statsd_addr := socket_addr addr; configured_statsd_prefix := statsd_prefix b;
             statsd_reporting_interval := balancer_statsd_reporting_interval b |})
       <$> balancer_statsd_addr b;
     web_admin_panel_service_configuration := get_web_admin_panel_service_configuration b |}.

(** [Balancer::handle]: [start] is making the bundle, [run] the service manager
    with its services. *)
Definition balancer_handle {Bundle : Type} (start : BalancerBootstrapConfig -> result Bundle string)
    (run : Bundle -> result unit string) (b : Balancer) : result unit string :=
  let? bundle := start (balancer_bootstrap_config b) in
  run bundle.

(** ** The agent *)

Record AgentFlags : Type := {
  flag_gpu_devices : list string;
  flag_agent_management_addr : string;
  flag_name : option string;
  flag_slots : string;
}.

Record Agent : Type := {
  agent_gpu_devices : list Z;
  agent_management_addr : ResolvedSocketAddr;
  agent_name_ : option string;
  slots : Z;
}.

Fixpoint parse_devices (args : list string) : result (list Z) string :=
  match args with
  | [] => Ok []
  | arg :: args =>
      let? device := parse_usize arg in
      let? devices := parse_devices args in
      Ok (device :: devices)
  end.

(** [--gpu-devices] is cut at its commas. *)
Definition agent_parse (f : AgentFlags) : result Agent string :=
  let? devices := parse_devices (flag_gpu_devices f) in
  let? management := parse_resolved_addr (flag_agent_management_addr f) in
  let? slots_ := parse_int (flag_slots f) in
  Ok {| agent_gpu_devices := devices; agent_management_addr := management;
        agent_name_ := flag_name f; slots := slots_ |}.

(** [Agent::handle]: [start] takes the arguments of [AgentServiceBundle::new]. *)
Definition agent_handle {Bundle : Type}
    (start : option string -> string -> Z -> list Z -> Bundle) (run : Bundle -> result unit string)
    (a : Agent) : result unit string :=
  run (start (agent_name_ a) (display_addr (socket_addr (agent_management_addr a))) (slots a)
         (agent_gpu_devices a)).

(** ** The devices *)

Inductive LlamaBackendDeviceType : Type :=
| Accelerator | Cpu | Gpu | IntegratedGpu | UnknownDevice.

Record LlamaBackendDevice : Type := {
  device_index : N;
  device_name : string;
  device_description : string;
  device_backend : string;
  memory_free : N;
  memory_total : N;
  device_type : LlamaBackendDeviceType;
}.

(** [list_gpu_devices]: the backend is initialized first. *)
Definition list_gpu_devices (init : result unit string) (devices : list LlamaBackendDevice)
    : result (list LlamaBackendDevice) (list string) :=
  match init with
  | Ok _ => Ok devices
  | Err e => Err ["Unable to initialize llama.cpp backend"%string; e]
  end.

Definition device_type_name (t : LlamaBackendDeviceType) : string :=
  match t with
  | Accelerator => "accelerator"
  | Cpu => "cpu"
  | Gpu => "gpu"
  | IntegratedGpu => "integrated gpu"
  | UnknownDevice => "unknown"
  end.

Definition mebibytes (bytes_ : N) : N := (bytes_ / 1024 / 1024)%N.

Definition device_line (d : LlamaBackendDevice) : string :=
  pretty (device_index d) +:+ ": " +:+ device_name d +:+ " (" +:+ device_type_name (device_type d)
  +:+ ", " +:+ device_backend d +:+ " backend, " +:+ pretty (mebibytes (memory_free d))
  +:+ " MiB free / " +:+ pretty (mebibytes (memory_total d)) +:+ " MiB total) - "
  +:+ device_description d.

(** The lines [ListGpuDevices::handle] prints, the empty one before the hint
    included. *)
Definition list_gpu_devices_lines (devices : list LlamaBackendDevice) : list string :=
  match devices with
  | [] => ["No backend devices detected."%string]
  | _ =>
      map device_line devices
      ++ [""; "Pass one or more of the indices above to `paddler agent --gpu-devices` to restrict inference to those devices, e.g. --gpu-devices 0 or --gpu-devices 0,1."]%string
  end.

Definition list_gpu_devices_handle (init : result unit string) (devices : list LlamaBackendDevice)
    : result (list string) (list string) :=
  match list_gpu_devices init devices with
  | Ok devices => Ok (list_gpu_devices_lines devices)
  | Err causes => Err causes
  end.

(** ** The command *)

Inductive Commands : Type :=
| AgentCommand (handler : Agent)
| BalancerCommand (handler : Balancer)
| ListGpuDevicesCommand.

(** What a command does, and how it ends; [signals] is registering the
    handlers of the shutdown signals. *)
Definition run_command {A : Type} (signals : result unit string)
    (agent_ : Agent -> result A string) (balancer_ : Balancer -> result A string)
    (list_ : result A string) (nothing : A) (command : option Commands) : result A string :=
  let? _ := signals in
  match command with
  | Some (AgentCommand handler) => agent_ handler
  | Some (BalancerCommand handler) => balancer_ handler
  | Some ListGpuDevicesCommand => list_
  | None => Ok nothing
  end.
End CommandLine.
