(* ===== verification/ServicesFacts.v ===== *)
(** * What the HTTP services promise

    The clients and the agent ask for paths that the services route to the
    handler they mean; a service that serves returns what its server returned;
    every origin that is configured, and the web admin panel's own, may call. *)

From Stdlib Require Import Strings.Ascii.
From S2P Require Import Prelude.
From S2P Require Import Numbers.
From S2P Require Import Tokio.
From S2P Require Import Messages.
From S2P Require Import Requests.
From S2P Require Import AgentController.
From S2P Require Import AgentStartup.
From S2P Require Import AgentArbiter.
From S2P Require Import StateDatabase.
From S2P Require Import ClientHttp.
From S2P Require Import ManagementRoutes.
From S2P Require Import ManagementRoutesFacts.
From S2P Require Import Services.
From S2P Require Import Bootstrap.
From S2P Require Import CommandLine.
Local Open Scope Z_scope.

(** ** Texts *)

Lemma string_app_cons (a : ascii) (s t : string) : String a s +:+ t = String a (s +:+ t).
Proof. done. Qed.

(** Two texts without slashes, each before a part of a path. *)
Lemma segment_split (x y s t : string)
    (Hx : string_all (fun a => negb (Ascii.eqb a "/")) x = true)
    (Hy : string_all (fun a => negb (Ascii.eqb a "/")) y = true)
    (Hs : starts_segment s = true) (Ht : starts_segment t = true) :
  x +:+ s = y +:+ t -> x = y /\ s = t.
Proof.
  revert y Hy. induction x as [|a x IH]; intros [|b y] Hy Heq; simpl in *.
  - done.
  - change ("" +:+ s) with s in Heq. rewrite Heq in Hs. simpl in Hs. by rewrite Hs in Hy.
  - change ("" +:+ t) with t in Heq. rewrite <- Heq in Ht. simpl in Ht. by rewrite Ht in Hx.
  - apply andb_prop in Hx as [_ Hx], Hy as [_ Hy]. injection Heq as -> Heq.
    destruct (IH Hx y Hy Heq) as [-> ->]. done.
Qed.

Lemma app_inv_head_string (x s t : string) : x +:+ s = x +:+ t -> s = t.
Proof. induction x as [|a x IH]; [done|]. intros [= ?]. auto. Qed.

(** ** Routing *)
Section Routing.
Context `{PathRouter}.

Definition agent_pattern (after : string) : string :=
  "/api/v1/agent/" +:+ "{" +:+ "agent_id" +:+ "}" +:+ after.

Lemma agent_path_matches (after : string) (id : string) (rest : string)
    (Hafter : is_literal after = true) (Hs : starts_segment after = true)
    (Hid : is_segment id = true) (Hrest : starts_segment rest = true) :
  path_matches (agent_pattern after) ("/api/v1/agent/" +:+ id +:+ rest) = bool_decide (rest = after).
Proof.
  apply eq_true_iff_eq. rewrite bool_decide_eq_true.
  rewrite (dynamic_matches "/api/v1/agent/" "agent_id" after) by done. split.
  - intros (segment & Hsegment & Heq%app_inv_head_string).
    apply andb_prop in Hid as [_ Hid], Hsegment as [_ Hsegment].
    by destruct (segment_split _ _ _ _ Hid Hsegment Hrest Hs Heq).
  - intros ->. by exists id.
Qed.

Lemma literal_path_matches (pattern path : string) (Hliteral : is_literal pattern = true) :
  path_matches pattern path = bool_decide (path = pattern).
Proof. apply eq_true_iff_eq. rewrite bool_decide_eq_true. by apply literal_matches. Qed.

(** A path that does not start as the pattern does is not matched. *)
Lemma other_path_matches (before name after path : string)
    (Hbefore : is_literal before = true) (Hname : is_segment_name name = true)
    (Hafter : is_literal after = true) (Hs : starts_segment after = true)
    (Hother : strip_text before path = None) :
  path_matches (before +:+ "{" +:+ name +:+ "}" +:+ after) path = false.
Proof.
  apply not_true_iff_false. rewrite dynamic_matches by done. intros (segment & _ & ->).
  by rewrite strip_text_app in Hother.
Qed.

Lemma routed_cons (r : Route) (routes : list Route) (m : Method) (path : string) :
  routed (r :: routes) m path
  = if bool_decide (route_method r = m) && path_matches (route_pattern r) path
    then Some (route_handler r) else routed routes m path.
Proof.
  unfold routed. rewrite filter_cons. case_bool_decide as Hm; simpl.
  - destruct (path_matches (route_pattern r) path) eqn:Hp.
    + by rewrite decide_True.
    + rewrite decide_False by (intros [_ ?]; congruence). done.
  - rewrite decide_False by tauto. done.
Qed.
End Routing.

(** ** The clients and the services agree *)

(** The pieces of a pattern with a dynamic segment. *)
Ltac split_pattern :=
  match goal with
  | |- context [path_matches "/api/v1/agent/{agent_id}/chat_template_override" _] =>
      change "/api/v1/agent/{agent_id}/chat_template_override"%string
        with (agent_pattern "/chat_template_override")
  | |- context [path_matches "/api/v1/agent/{agent_id}/model_metadata" _] =>
      change "/api/v1/agent/{agent_id}/model_metadata"%string with (agent_pattern "/model_metadata")
  | |- context [path_matches "/api/v1/agent_socket/{agent_id}" _] =>
      change "/api/v1/agent_socket/{agent_id}"%string
        with ("/api/v1/agent_socket/" +:+ "{" +:+ "agent_id" +:+ "}" +:+ "")
  end.

(** One route further: it is for another method, it matches, or it does not. *)
Ltac route_step :=
  rewrite routed_cons; cbn [route_method route_pattern route_handler route get_health_route];
  first
    [ rewrite (bool_decide_eq_false_2 (_ = _)) by discriminate; cbn [andb]
    | rewrite (bool_decide_eq_true_2 (_ = _)) by reflexivity; cbn [andb];
      first
        [ rewrite literal_path_matches by reflexivity; case_bool_decide; [reflexivity|done]
        | rewrite literal_path_matches by reflexivity; case_bool_decide; [discriminate|]
        | split_pattern;
          first [ rewrite agent_path_matches by done; case_bool_decide; [reflexivity|done]
                | rewrite agent_path_matches by done; case_bool_decide; [discriminate|]
                | unfold agent_pattern; rewrite other_path_matches by reflexivity ] ] ].

(** A network that remembers what it was asked. *)
Definition recorder (outcome : option SendOutcome) (request : HttpRequest) (w : list HttpRequest)
    : list HttpRequest * option SendOutcome := (w ++ [request], outcome).

Definition Call (A : Type) : Type :=
  (HttpRequest -> list HttpRequest -> list HttpRequest * option SendOutcome) -> HttpClient ->
  list HttpRequest -> list HttpRequest * A.

Section Agreement.
Context `{PathRouter}.

(** The one request of a call is routed to the handler. *)
Definition calls {A : Type} (routes : list Route) (handler : Handler) (call : Call A) : Prop :=
  forall client outcome, exists request path,
    fst (call (recorder outcome) client []) = [request] /\
    request_url request = format_api_url (base_url client) path /\
    routed routes (method request) path = Some handler.

Lemma routed_agent (after id : string) (handler : Handler) (Hid : is_segment id = true)
    (Hafter : (after, handler) = ("/chat_template_override"%string, GetChatTemplateOverride) \/
              (after, handler) = ("/model_metadata"%string, GetModelMetadata)) :
  routed management_routes GET ("/api/v1/agent/" +:+ id +:+ after) = Some handler.
Proof. destruct Hafter as [[= -> ->]|[= -> ->]]; unfold management_routes; repeat route_step. Qed.

Lemma routed_agent_socket (id : string) (Hid : is_segment id = true) :
  routed management_routes GET ("/api/v1/agent_socket/" +:+ id) = Some WsAgentSocket.
Proof.
  rewrite <- (string_app_nil_r id). unfold management_routes. repeat route_step.
  rewrite routed_cons. cbn [route_method route_pattern route_handler route].
  rewrite (bool_decide_eq_true_2 (_ = _)) by reflexivity. cbn [andb]. split_pattern.
  rewrite (proj2 (dynamic_matches "/api/v1/agent_socket/" "agent_id" "" _ eq_refl eq_refl eq_refl eq_refl));
    [reflexivity|by exists id].
Qed.

Lemma calls_at {A : Type} (routes : list Route) (handler : Handler) (m : Method) (path : string)
    (body : option (result string string)) (call : Call A)
    (Hcall : forall client outcome, fst (call (recorder outcome) client [])
       = [{| method := m; request_url := format_api_url (base_url client) path; request_body := body |}])
    (Hrouted : routed routes m path = Some handler) :
  calls routes handler call.
Proof. intros client outcome. eexists _, path. by split. Qed.

Context `{UrlLibrary}.
Context {Agents Buffered Applicable Template Metadata : Type}.
Context `{!Json Agents} `{!Json Buffered} `{!Json Applicable} `{!Json Template} `{!Json Metadata}
  `{!Json BalancerDesiredState}
  `{!Json (ContinueFromConversationHistoryParams ValidatedParametersSchema)}
  `{!Json ContinueFromRawPromptParams} `{!Json GenerateEmbeddingBatchParams}.
Context {sender receiver : Type} `{!WatchChannel sender receiver}.
Context {chan : Type -> Type} `{!UnboundedChannel chan}.
Context {vsender vreceiver : Type} `{!ValueWatch (option AgentApplicableState) vsender vreceiver}.
Context {Conversation Prompt Embeddings : Type}.
Local Abbreviation agent_bundle :=
  (agent_service_bundle_new (sender := sender) (chan := chan) (vsender := vsender)
     (Conversation := Conversation) (Prompt := Prompt) (Embeddings := Embeddings)).

Local Ltac routes_to := eapply calls_at; [intros; reflexivity|];
  unfold management_routes, inference_routes; repeat route_step.

(** C36. The programs agree on their endpoints: every request the management
    client, the inference client and a probe of their health make, the socket
    of the inference client and the socket of an agent lead, over the routes
    the services register, to the handler that was meant for them, whatever
    agent a question is for. *)
Theorem endpoints_agree (id : string) (Hid : is_segment id = true) :
  (calls management_routes GetHealth get_health /\
   calls management_routes GetAgents (fun net => get_agents (AgentsSnapshot := Agents) net) /\
   calls management_routes GetAgentsStream get_agents_stream /\
   calls management_routes GetBalancerDesiredState (fun net => get_balancer_desired_state net) /\
   calls management_routes GetBalancerApplicableState
     (fun net => get_balancer_applicable_state (Applicable := Applicable) net) /\
   calls management_routes GetBufferedRequests (fun net => get_buffered_requests (BufferedSnapshot := Buffered) net) /\
   calls management_routes GetBufferedRequestsStream get_buffered_requests_stream /\
   calls management_routes GetMetrics get_metrics /\
   (forall state, calls management_routes PutBalancerDesiredState
                    (fun net client => put_balancer_desired_state net client state)) /\
   calls management_routes GetChatTemplateOverride
     (fun net client => get_chat_template_override (Template := Template) net client id) /\
   calls management_routes GetModelMetadata
     (fun net client => get_model_metadata (Metadata := Metadata) net client id)) /\
  (calls inference_routes GetHealth get_health /\
   (forall params, calls inference_routes PostContinueFromConversationHistory
                     (fun net client => post_continue_from_conversation_history net client params)) /\
   (forall params, calls inference_routes PostContinueFromRawPrompt
                     (fun net client => post_continue_from_raw_prompt net client params)) /\
   (forall params, calls inference_routes PostGenerateEmbeddingBatch
                     (fun net client => post_generate_embedding_batch net client params))) /\
  (forall input url, inference_socket_url input = Ok url ->
     routed inference_routes GET (url_path url) = Some WsInferenceSocket) /\
  (forall name_ address slots_ devices now, exists path,
     socket_url (agent_bundle name_ address slots_ devices id now) = "ws://" +:+ address +:+ path /\
     routed management_routes GET path = Some WsAgentSocket).
Proof.
  split_and!; try (intros; routes_to).
  - intros input url Hurl. unfold inference_socket_url in Hurl.
    destruct (url_set_scheme _ input) as [u|]; [|done]. injection Hurl as <-.
    rewrite url_path_set by done. unfold inference_routes. repeat route_step.
  - intros. exists ("/api/v1/agent_socket/" +:+ id +:+ ""). rewrite string_app_nil_r.
    split; [done|]. by apply routed_agent_socket.
Qed.
End Agreement.

(** ** Serving *)

(** A service has the result of its server, and after the shutdown only once
    the graceful stop is done as well. *)
Lemma served_by_server (events : list ServeEvent) (r : result unit string) :
  serve_http_until_shutdown events = Served r -> In (ServerEnds r) events.
Proof.
  assert (Hinv : forall p, (forall r', p = Served r' -> In (ServerEnds r') events) ->
    (forall r' stopped, p = Stopping (Some r') stopped -> In (ServerEnds r') events) ->
    forall later, (forall r', In (ServerEnds r') later -> In (ServerEnds r') events) ->
    fold_left (fun p event => serve_step event p) later p = Served r -> In (ServerEnds r) events).
  { intros p Hserved Hstopping later. revert p Hserved Hstopping.
    induction later as [|event later IH]; intros p Hserved Hstopping Hlater Hend; simpl in *; [auto|].
    apply (IH (serve_step event p)); [| |auto|done].
    - intros r' Hp. destruct p as [|[r0|] []|r0], event; simplify_eq/=; eauto.
    - intros r' stopped Hp. destruct p as [|[r0|] []|r0], event; simplify_eq/=; eauto. }
  by apply (Hinv Serving).
Qed.

(** ** The command line *)
Section CommandLineFacts.
Context `{Network}.
Context (resolve_socket_addr : string -> result SocketAddr string).
Context (parse_database : string -> result StateDatabaseType string).

(** The HTTP servers of a configuration, with the origins they allow. *)
Definition served (config : BalancerBootstrapConfig) : list (string * SocketAddr * option (list string)) :=
  omap (fun service => p ← http_parameters service;
          Some (service_name p, bind_addr p, allowed_origins <$> service_cors p)) (services_of config).

Lemma cors_origins (hosts : list string) : allowed_origins (create_cors_middleware hosts) = hosts.
Proof.
  unfold create_cors_middleware.
  assert (Hfold : forall c, allowed_origins (fold_left allowed_origin hosts c) = allowed_origins c ++ hosts).
  { induction hosts as [|host hosts IH]; intros c; simpl; [by rewrite app_nil_r|].
    rewrite IH. simpl. by rewrite <- app_assoc. }
  by rewrite Hfold.
Qed.

Lemma parse_duration_range (arg : string) (ms : Z) : parse_duration arg = Ok ms -> in_u64 ms.
Proof.
  unfold parse_duration. destruct (parse_u64 arg) as [n|] eqn:Hn; [|done]. intros [= <-].
  by apply parse_u64_range in Hn.
Qed.

Lemma parse_int_range (arg : string) (n : Z) : parse_int arg = Ok n -> in_i32 n.
Proof.
  unfold parse_int. destruct (parse_i32 arg) as [m|] eqn:Hm; [|done]. intros [= <-].
  by apply parse_i32_range in Hm.
Qed.

Lemma optional_resolved (given : option string) (addr : option ResolvedSocketAddr) :
  arg_optional (parse_resolved_addr resolve_socket_addr) given = Ok addr ->
  match given, addr with
  | None, None => True
  | Some text, Some r => input_addr r = text /\ resolve_socket_addr text = Ok (socket_addr r)
  | _, _ => False
  end.
Proof.
  unfold arg_optional, parse_resolved_addr. destruct given as [text|]; [|by intros [= <-]].
  destruct (resolve_socket_addr text) as [a|] eqn:Ha; simpl; [|done]. by intros [= <-].
Qed.

Lemma defaulted_resolved (text : string) (given : option string) (r : ResolvedSocketAddr) :
  arg_or_default (parse_resolved_addr resolve_socket_addr) text given = Ok r ->
  resolve_socket_addr (default text given) = Ok (socket_addr r).
Proof.
  unfold arg_or_default, parse_resolved_addr.
  destruct (resolve_socket_addr (default text given)) as [a|]; simpl; [|done]. by intros [= <-].
Qed.

Definition resolved_flag (given : option string) : option SocketAddr :=
  text ← given; match resolve_socket_addr text with Ok addr => Some addr | Err _ => None end.

Lemma optional_resolved_flag (given : option string) (addr : option ResolvedSocketAddr) :
  arg_optional (parse_resolved_addr resolve_socket_addr) given = Ok addr ->
  resolved_flag given = socket_addr <$> addr.
Proof.
  intros Hr%optional_resolved. unfold resolved_flag. destruct given as [text|], addr as [r|]; try done.
  destruct Hr as [_ Hr]. simpl. by rewrite Hr.
Qed.

(** C37. The balancer the command line asks for: when its arguments parse, the
    HTTP servers that are configured are the inference and the management
    server, on the addresses that were given or on their defaults, and the
    OpenAI server and the admin panel exactly when an address was given for
    them; the inference and management servers allow the hosts that were given
    and the origin of the panel; metrics are reported exactly when a statsd
    address was given; and every number is one of its type. *)
Theorem balancer_command_configures (f : BalancerFlags) (b : Balancer)
    (Hparse : balancer_parse resolve_socket_addr parse_database f = Ok b) :
  let config := balancer_bootstrap_config b in
  let panel := resolved_flag (flag_web_admin_panel_addr f) in
  let panel_origin := option_list ((fun addr => "http://" +:+ display_addr addr) <$> panel) in
  (exists inference management,
     resolve_socket_addr (default "127.0.0.1:8061"%string (flag_inference_addr f)) = Ok inference /\
     resolve_socket_addr (default "127.0.0.1:8060"%string (flag_management_addr f)) = Ok management /\
     served config =
       [("balancer::inference_service"%string, inference,
         Some (flag_inference_cors_allowed_host f ++ panel_origin));
        ("balancer::management_service"%string, management,
         Some (flag_management_cors_allowed_host f ++ panel_origin))]
       ++ option_list ((fun addr => ("balancer::compatibility::openai_service"%string, addr,
            Some (flag_inference_cors_allowed_host f))) <$> resolved_flag (flag_compat_openai_addr f))
       ++ option_list ((fun addr => ("balancer::web_admin_panel_service"%string, addr, None)) <$> panel)) /\
  (statsd_addr <$> statsd_service_configuration config = resolved_flag (flag_statsd_addr f)) /\
  in_u64 (config_buffered_request_timeout config) /\
  in_u64 (inference_item_timeout (inference_service_configuration config)) /\
  in_i32 (config_max_buffered_requests config).
Proof.
  intros config panel panel_origin. unfold balancer_parse in Hparse.
  destruct (arg_or_default parse_duration _ _) as [timeout|] eqn:Htimeout; simpl in Hparse; [|done].
  destruct (arg_optional _ (flag_compat_openai_addr f)) as [openai|] eqn:Hopenai; simpl in Hparse; [|done].
  destruct (arg_or_default _ _ (flag_inference_addr f)) as [inference|] eqn:Hinference;
    simpl in Hparse; [|done].
  destruct (arg_or_default parse_duration _ (flag_inference_item_timeout f)) as [item|] eqn:Hitem;
    simpl in Hparse; [|done].
  destruct (arg_or_default _ _ (flag_management_addr f)) as [management|] eqn:Hmanagement;
    simpl in Hparse; [|done].
  destruct (arg_or_default parse_int _ _) as [buffered|] eqn:Hbuffered; simpl in Hparse; [|done].
  destruct (arg_or_default parse_database _ _) as [database|]; simpl in Hparse; [|done].
  destruct (arg_optional _ (flag_statsd_addr f)) as [statsd|] eqn:Hstatsd; simpl in Hparse; [|done].
  destruct (arg_or_default parse_duration _ (flag_statsd_reporting_interval f)) as [interval|];
    simpl in Hparse; [|done].
  destruct (arg_optional _ (flag_web_admin_panel_addr f)) as [admin|] eqn:Hadmin; simpl in Hparse; [|done].
  apply optional_resolved_flag in Hopenai, Hstatsd, Hadmin.
  apply defaulted_resolved in Hinference, Hmanagement.
  injection Hparse as <-. subst panel_origin panel. rewrite Hopenai, Hstatsd, Hadmin. split_and!.
  - exists (socket_addr inference), (socket_addr management). split_and!; [done|done|].
    unfold served, services_of, config, balancer_bootstrap_config. simpl.
    rewrite !cors_origins. destruct openai, statsd, admin; simpl; rewrite ?cors_origins, ?app_nil_r; done.
  - by destruct statsd.
  - by apply parse_duration_range in Htimeout.
  - by apply parse_duration_range in Hitem.
  - by apply parse_int_range in Hbuffered.
Qed.
End CommandLineFacts.

(** ** A router *)

Fixpoint cut_segment (path : string) : string * string :=
  match path with
  | EmptyString => ("", "")%string
  | String a rest =>
      if Ascii.eqb a "/" then (""%string, path)
      else let '(segment, after) := cut_segment rest in (String a segment, after)
  end.

(** The pattern letter by letter; [in_name] inside a dynamic segment. *)
Fixpoint match_pattern (in_name : bool) (pattern path : string) : bool :=
  match pattern with
  | EmptyString => negb in_name && bool_decide (path = ""%string)
  | String a rest =>
      if in_name then
        if Ascii.eqb a "}" then
          let '(segment, after) := cut_segment path in
          bool_decide (segment <> ""%string) && match_pattern false rest after
        else match_pattern true rest path
      else if Ascii.eqb a "{" then match_pattern true rest path
      else match path with
           | String b path => Ascii.eqb a b && match_pattern false rest path
           | EmptyString => false
           end
  end.

Lemma cut_segment_app (segment after : string)
    (Hsegment : string_all (fun a => negb (Ascii.eqb a "/")) segment = true)
    (Hafter : starts_segment after = true) :
  cut_segment (segment +:+ after) = (segment, after).
Proof.
  induction segment as [|a segment IH]; simpl in *.
  - change ("" +:+ after) with after. destruct after as [|b after]; simpl in *; [done|]. by rewrite Hafter.
  - apply andb_prop in Hsegment as [Ha Hsegment]. apply negb_true_iff in Ha. rewrite Ha.
    change (String.append segment after) with (segment +:+ after). by rewrite IH.
Qed.

Lemma cut_segment_spec (path segment after : string) :
  cut_segment path = (segment, after) ->
  path = segment +:+ after /\ string_all (fun a => negb (Ascii.eqb a "/")) segment = true.
Proof.
  revert segment after. induction path as [|a path IH]; intros segment after Hcut; simpl in *.
  - by simplify_eq.
  - destruct (Ascii.eqb a "/") eqn:Ha; [by simplify_eq|].
    destruct (cut_segment path) as [s t]. simplify_eq. destruct (IH s after eq_refl) as [-> Hs].
    split; [done|]. simpl. by rewrite Ha.
Qed.

Lemma match_literal (pattern path : string) (Hliteral : is_literal pattern = true) :
  match_pattern false pattern path = true <-> path = pattern.
Proof.
  revert path. induction pattern as [|a pattern IH]; intros path; simpl in *.
  - by rewrite bool_decide_eq_true.
  - apply andb_prop in Hliteral as [Ha Hp]. apply negb_true_iff in Ha. rewrite Ha.
    destruct path as [|b path]; [done|]. rewrite andb_true_iff, Ascii.eqb_eq, IH by done. naive_solver.
Qed.

Lemma match_name (name after path : string) (Hname : is_segment_name name = true) :
  match_pattern true (name +:+ "}" +:+ after) path
  = (let '(segment, rest) := cut_segment path in
     bool_decide (segment <> ""%string) && match_pattern false after rest).
Proof.
  induction name as [|a name IH]; [done|].
  apply andb_prop in Hname as [Ha Hname]. apply negb_true_iff, orb_false_iff in Ha as [Ha _].
  rewrite string_app_cons. cbn [match_pattern]. rewrite Ha. by apply IH.
Qed.

Lemma match_dynamic (before name after path : string)
    (Hbefore : is_literal before = true) (Hname : is_segment_name name = true)
    (Hafter : is_literal after = true) (Hs : starts_segment after = true) :
  match_pattern false (before +:+ "{" +:+ name +:+ "}" +:+ after) path = true <->
  exists segment, is_segment segment = true /\ path = before +:+ segment +:+ after.
Proof.
  revert path. induction before as [|a before IH]; intros path.
  - change (match_pattern false ("" +:+ "{" +:+ name +:+ "}" +:+ after) path)
      with (match_pattern true (name +:+ "}" +:+ after) path).
    rewrite match_name by done. split.
    + destruct (cut_segment path) as [segment rest] eqn:Hcut.
      apply cut_segment_spec in Hcut as [-> Hsegment]. intros [Hne Hm]%andb_prop.
      apply match_literal in Hm; [|done]. subst rest. exists segment. split; [|done].
      unfold is_segment. by rewrite Hne.
    + intros (segment & [Hne Hsegment]%andb_prop & ->).
      change ("" +:+ segment +:+ after) with (segment +:+ after). rewrite cut_segment_app by done.
      rewrite Hne. by apply match_literal.
  - apply andb_prop in Hbefore as [Ha Hbefore]. apply negb_true_iff in Ha.
    rewrite string_app_cons. cbn [match_pattern]. rewrite Ha.
    destruct path as [|b path]; [split; [done|]; by intros (? & _ & ?)|].
    rewrite andb_true_iff, Ascii.eqb_eq, IH by done. split.
    + intros [-> (segment & Hsegment & ->)]. by exists segment.
    + intros (segment & Hsegment & Heq). rewrite string_app_cons in Heq. injection Heq as -> Heq.
      split; [done|]. by exists segment.
Qed.

Definition pattern_router : PathRouter := {|
  path_matches := match_pattern false;
  literal_matches := match_literal;
  dynamic_matches := match_dynamic;
|}.

(** ** Witnesses *)

#[local] Instance any_json (A : Type) : Json A :=
  {| json_to_string := fun _ => Err "unprintable"%string; json_from_str := fun _ => Err "unreadable"%string |}.

(** URLs as their scheme and path. *)
#[local] Program Instance pair_urls : UrlLibrary := {|
  Url := string * string; url_scheme := fst; url_path := snd;
  url_as_str := fun u => u.1 +:+ "://" +:+ u.2;
  url_set_scheme := fun scheme u => Some (scheme, u.2); url_set_path := fun path u => (u.1, path);
|}.
Solve Obligations with naive_solver.

Lemma endpoints_agree_witness :
  routed (H := pattern_router) management_routes GET "/api/v1/agent_socket/V1StGXR8_Z5" = Some WsAgentSocket /\
  routed (H := pattern_router) inference_routes GET "/api/v1/inference_socket" = Some WsInferenceSocket.
Proof.
  destruct (endpoints_agree (H := pattern_router) (Agents := unit) (Buffered := unit) (Applicable := unit)
    (Template := unit) (Metadata := unit) (sender := nat) (receiver := nat) (chan := QueueChannel)
    (vsender := WatchedValue (option AgentApplicableState)) (vreceiver := nat)
    (Conversation := unit) (Prompt := unit) (Embeddings := unit)
    "V1StGXR8_Z5" eq_refl) as (_ & _ & Hsocket & Hagent).
  split.
  - destruct (Hagent None "127.0.0.1:8060"%string 4 [] 0) as (path & Hurl & Hrouted).
    apply (app_inv_head_string "ws://"), (app_inv_head_string "127.0.0.1:8060") in Hurl.
    rewrite <- Hurl in Hrouted. exact Hrouted.
  - exact (Hsocket ("http", "/")%string ("ws", "/api/v1/inference_socket")%string eq_refl).
Defined.

(** Addresses that are their own text. *)
#[local] Instance text_network : Network :=
  {| SocketAddr := string; parse_socket_addr := Ok; display_addr := id; display_port := id |}.

Definition panel_flags : BalancerFlags :=
  {| flag_buffered_request_timeout := Some "500"%string; flag_compat_openai_addr := None;
     flag_inference_addr := None; flag_inference_item_timeout := None;
     flag_inference_cors_allowed_host := ["http://app"%string]; flag_management_addr := None;
     flag_management_cors_allowed_host := []; flag_max_buffered_requests := None;
     flag_state_database := None; flag_statsd_addr := None; flag_statsd_prefix := None;
     flag_statsd_reporting_interval := None; flag_web_admin_panel_addr := Some "127.0.0.1:8062"%string |}.

Lemma balancer_command_configures_witness :
  exists b, balancer_parse parse_socket_addr (fun _ => Ok (DatabaseMemory balancer_desired_state_default)) panel_flags = Ok b /\
    served (balancer_bootstrap_config b) =
      [("balancer::inference_service", "127.0.0.1:8061", Some ["http://app"; "http://127.0.0.1:8062"]);
       ("balancer::management_service", "127.0.0.1:8060", Some ["http://127.0.0.1:8062"]);
       ("balancer::web_admin_panel_service", "127.0.0.1:8062", None)]%string.
Proof.
  destruct (balancer_parse parse_socket_addr (fun _ => Ok (DatabaseMemory balancer_desired_state_default)) panel_flags)
    as [b|e] eqn:Hparse; [|by vm_compute in Hparse].
  exists b. split; [done|].
  destruct (balancer_command_configures parse_socket_addr _ panel_flags b Hparse)
    as ((inference & management & Hi & Hm & ->) & _).
  vm_compute in Hi, Hm. injection Hi as <-. injection Hm as <-. vm_compute. reflexivity.
Defined.
