(* ===== verification/ResponseFormat.v ===== *)
(** * The strict schemas of the OpenAI responses

    [paddler_openai_response_format_validator]: the OpenAPI document of OpenAI
    is turned from YAML into JSON, the components a root refers to are
    collected, rewritten for the dialect the validator understands, and closed
    where the answers of the program must have no other properties.

    A JSON object is the list of its entries in the order its map iterates
    over them.  The YAML parser, the text of numbers and values, and the
    validator of schemas are packages: they are the class [SchemaTools]. *)

From Stdlib Require Import Strings.Ascii.
From stdpp Require Import sorting.
From S2P Require Import Prelude.
Local Open Scope Z_scope.

(** ** JSON *)

Inductive Value : Type :=
| Null
| Bool (b : bool)
| Number (text : string)
| Text (s : string)
| Array (items : list Value)
| Object (entries : list (string * Value)).

(** [Map::get] and [Map::insert] *)
Fixpoint entry_get (key : string) (entries : list (string * Value)) : option Value :=
  match entries with
  | [] => None
  | (k, v) :: rest => if decide (k = key) then Some v else entry_get key rest
  end.

Fixpoint entry_insert (key : string) (value : Value) (entries : list (string * Value))
    : list (string * Value) :=
  match entries with
  | [] => [(key, value)]
  | (k, v) :: rest => if decide (k = key) then (k, value) :: rest else (k, v) :: entry_insert key value rest
  end.

Definition value_get (key : string) (v : Value) : option Value :=
  match v with Object entries => entry_get key entries | _ => None end.

Fixpoint strip_ref_prefix (prefix s : string) : option string :=
  match prefix, s with
  | EmptyString, _ => Some s
  | String a prefix', String b s' =>
      if bool_decide (a = b) then strip_ref_prefix prefix' s' else None
  | String _ _, EmptyString => None
  end.

Inductive Yaml : Type :=
| YamlNull
| YamlBoolean (b : bool)
| YamlInteger (n : Z)
| YamlReal (text : string)
| YamlString (s : string)
| YamlArray (items : list Yaml)
| YamlHash (entries : list (Yaml * Yaml))
| YamlAlias (index : nat)
| YamlBadValue.

Class SchemaTools : Type := {
  load_yaml : string -> result (list Yaml) string;
  number_of_integer : Z -> string;
  (** the number of a finite real *)
  number_of_real : string -> result string string;
  debug_yaml : Yaml -> string;
  value_to_string : Value -> string;
  debug_string : string -> string;
  Validator : Type;
  validator_for : Value -> result Validator string;
  iter_errors : Validator -> Value -> list string;
}.

Section ResponseFormat.
Context `{SchemaTools}.

(** ** From YAML *)

Fixpoint yaml_to_json_value (yaml : Yaml) : result Value string :=
  match yaml with
  | YamlNull => Ok Null
  | YamlBoolean b => Ok (Bool b)
  | YamlInteger n => Ok (Number (number_of_integer n))
  | YamlReal text => let? number := number_of_real text in Ok (Number number)
  | YamlString s => Ok (Text s)
  | YamlArray items =>
      let? values :=
        (fix go (items : list Yaml) : result (list Value) string :=
           match items with
           | [] => Ok []
           | item :: rest =>
               let? v := yaml_to_json_value item in
               let? vs := go rest in
               Ok (v :: vs)
           end) items in
      Ok (Array values)
  | YamlHash entries =>
      let? object :=
        (fix go (entries : list (Yaml * Yaml)) (object : list (string * Value))
            : result (list (string * Value)) string :=
           match entries with
           | [] => Ok object
           | (YamlString key, value) :: rest =>
               let? v := yaml_to_json_value value in
               go rest (entry_insert key v object)
           | (key, _) :: _ =>
               Err ("YAML mapping keys must be strings, found " +:+ debug_yaml key)
           end) entries [] in
      Ok (Object object)
  | YamlAlias index =>
      Err ("YAML aliases are not supported (alias #" +:+ number_of_integer (Z.of_nat index) +:+ ")")
  | YamlBadValue => Err "encountered an invalid YAML node"%string
  end.

Definition parse_components (openapi_yaml : string) : result Value string :=
  match load_yaml openapi_yaml with
  | Err _ => Err "the OpenAI OpenAPI document is not valid YAML"%string
  | Ok [] => Err "the OpenAI OpenAPI document is empty"%string
  | Ok (document :: _) =>
      let? specification := yaml_to_json_value document in
      match value_get "components" specification ≫= value_get "schemas" with
      | Some components => Ok components
      | None => Err "the OpenAI OpenAPI document has no components.schemas object"%string
      end
  end.

(** ** Rewriting a component *)

Definition COMPONENT_REF_PREFIX : string := "#/components/schemas/".
Definition DIALECT : string := "https://json-schema.org/draft/2020-12/schema".
Definition DEFS_PREFIX : string := "#/$defs/".

(** [unique_strings]: the first of those with the same text. *)
Fixpoint unique_loop (values : list Value) (seen : gset string) : list Value :=
  match values with
  | [] => []
  | value :: rest =>
      let key := value_to_string value in
      if decide (key ∈ seen) then unique_loop rest seen
      else value :: unique_loop rest ({[key]} ∪ seen)
  end.

Definition unique_strings (values : list Value) : list Value := unique_loop values ∅.

Definition rewrite_text (reference : string) : string :=
  match strip_ref_prefix COMPONENT_REF_PREFIX reference with
  | Some name => DEFS_PREFIX +:+ name
  | None => reference
  end.

Definition is_boolean (v : Value) : bool := match v with Bool _ => true | _ => false end.

(** What becomes of an entry, given its transformed value; [None] drops it. *)
Definition transform_entry (key : string) (value transformed : Value) : option (string * Value) :=
  if decide (key = "nullable") then None
  else if decide (key = "$recursiveAnchor") then None
  else if decide (key = "$recursiveRef") then None
  else if decide (key = "exclusiveMinimum") then if is_boolean value then None else Some (key, transformed)
  else if decide (key = "exclusiveMaximum") then if is_boolean value then None else Some (key, transformed)
  else if decide (key = "required") then
    match value with
    | Array entries => Some (key, Array (unique_strings entries))
    | _ => Some (key, transformed)
    end
  else if decide (key = "$ref") then
    match value with
    | Text reference => Some ("$ref"%string, Text (rewrite_text reference))
    | _ => Some ("$ref"%string, transformed)
    end
  else Some (key, transformed).

Definition wrap_nullable (nullable : bool) (transformed : list (string * Value)) : Value :=
  if nullable then
    Object [("anyOf"%string, Array [Object transformed; Object [("type"%string, Text "null")]])]
  else Object transformed.

(** [transform_node] with [transform_object], the loop over the entries. *)
Fixpoint transform_node (node : Value) : Value :=
  match node with
  | Array items => Array (map transform_node items)
  | Object entries =>
      let '(transformed, nullable) :=
        (fix go (entries transformed : list (string * Value)) (nullable : bool)
            : list (string * Value) * bool :=
           match entries with
           | [] => (transformed, nullable)
           | (key, value) :: rest =>
               let nullable' :=
                 if decide (key = "nullable"%string)
                 then match value with Bool true => true | _ => false end else nullable in
               match transform_entry key value (transform_node value) with
               | Some (k, v) => go rest (entry_insert k v transformed) nullable'
               | None => go rest transformed nullable'
               end
           end) entries [] false in
      wrap_nullable nullable transformed
  | Null | Bool _ | Number _ | Text _ => node
  end.

(** ** The components a component refers to *)

Definition component_ref (key : string) (value : Value) : option string :=
  if decide (key = "$ref"%string) then
    match value with
    | Text reference => strip_ref_prefix COMPONENT_REF_PREFIX reference
    | _ => None
    end
  else None.

Fixpoint collect_component_refs (node : Value) : gset string :=
  match node with
  | Array items =>
      (fix go (items : list Value) : gset string :=
         match items with
         | [] => ∅
         | item :: rest => collect_component_refs item ∪ go rest
         end) items
  | Object entries =>
      (fix go (entries : list (string * Value)) : gset string :=
         match entries with
         | [] => ∅
         | (key, value) :: rest =>
             match component_ref key value with
             | Some name => {[name]}
             | None => collect_component_refs value
             end ∪ go rest
         end) entries
  | Null | Bool _ | Number _ | Text _ => ∅
  end.

(** A set in the order of its strings. *)
Definition string_le (s t : string) : Prop := String.leb s t = true.

#[global] Instance string_le_dec : RelDecision string_le.
Proof. intros s t. unfold string_le. apply _. Defined.

Definition ascending (names : gset string) : list string := merge_sort string_le (elements names).

(** [pending] is a stack: its end is the end of the list. *)
Fixpoint closure_loop (components : Value) (fuel : nat) (pending : list string)
    (reachable : gmap string Value) : option (result (gmap string Value) string) :=
  match fuel with
  | O => None
  | S fuel =>
      match last pending with
      | None => Some (Ok reachable)
      | Some name =>
          let pending := removelast pending in
          match reachable !! name with
          | Some _ => closure_loop components fuel pending reachable
          | None =>
              match value_get name components with
              | None => Some (Err ("schema references unknown component " +:+ debug_string name))
              | Some component =>
                  closure_loop components fuel (pending ++ ascending (collect_component_refs component))
                    (<[name := component]> reachable)
              end
          end
      end
  end.

(** As many turns as there are references in all components. *)
Definition component_entries (components : Value) : list (string * Value) :=
  match components with Object entries => entries | _ => [] end.

Definition closure_fuel (components : Value) : nat :=
  (2 + sum_list (map (fun e => size (collect_component_refs (snd e))) (component_entries components)))%nat.

Definition transitive_closure (components : Value) (root_name : string)
    : option (result (gmap string Value) string) :=
  closure_loop components (closure_fuel components) [root_name] ∅.

(** ** The schema *)

(** The tokens of a JSON pointer, with their escapes. *)
Fixpoint split_slash (s : string) : list string :=
  match s with
  | EmptyString => [EmptyString]
  | String a rest =>
      if bool_decide (a = "/"%char) then EmptyString :: split_slash rest
      else
        match split_slash rest with
        | token :: tokens => String a token :: tokens
        | [] => [String a EmptyString]
        end
  end.

Fixpoint unescape (s : string) : string :=
  match s with
  | EmptyString => EmptyString
  | String a rest =>
      if bool_decide (a = "~"%char) then
        match rest with
        | String "1"%char rest' => String "/"%char (unescape rest')
        | String "0"%char rest' => String "~"%char (unescape rest')
        | _ => String a (unescape rest)
        end
      else String a (unescape rest)
  end.

(** A pointer is empty or starts with a slash. *)
Definition pointer_tokens (pointer : string) : option (list string) :=
  match pointer with
  | EmptyString => Some []
  | String a _ =>
      if bool_decide (a = "/"%char) then Some (map unescape (tl (split_slash pointer))) else None
  end.

Definition is_digit (a : ascii) : bool :=
  let n := nat_of_ascii a in ((48 <=? n) && (n <=? 57))%nat.

Fixpoint digits_value (s : string) (acc : nat) : option nat :=
  match s with
  | EmptyString => Some acc
  | String a rest => if is_digit a then digits_value rest (acc * 10 + (nat_of_ascii a - 48)) else None
  end.

(** An index has no sign and no leading zero. *)
Definition parse_index (token : string) : option nat :=
  match token with
  | EmptyString => None
  | String "0"%char (String _ _) => None
  | String _ _ => digits_value token 0
  end.

Inductive Closed : Type :=
| ClosedValue (v : Value)
| NotAnObject (other : Value)
| NotFound.

(** [pointer_mut] followed by the insertion. *)
Fixpoint close_at (tokens : list string) (v : Value) : Closed :=
  match tokens with
  | [] =>
      match v with
      | Object target => ClosedValue (Object (entry_insert "unevaluatedProperties" (Bool false) target))
      | other => NotAnObject other
      end
  | token :: rest =>
      match v with
      | Object entries =>
          match entry_get token entries with
          | None => NotFound
          | Some inner =>
              match close_at rest inner with
              | ClosedValue inner => ClosedValue (Object (entry_insert token inner entries))
              | NotAnObject other => NotAnObject other
              | NotFound => NotFound
              end
          end
      | Array items =>
          match parse_index token with
          | None => NotFound
          | Some i =>
              match items !! i with
              | None => NotFound
              | Some inner =>
                  match close_at rest inner with
                  | ClosedValue inner => ClosedValue (Array (<[i := inner]> items))
                  | NotAnObject other => NotAnObject other
                  | NotFound => NotFound
                  end
              end
          end
      | Null | Bool _ | Number _ | Text _ => NotFound
      end
  end.

Fixpoint close_all (strict_pointers : list string) (schema : Value) : result Value string :=
  match strict_pointers with
  | [] => Ok schema
  | pointer :: rest =>
      match pointer_tokens pointer with
      | None => Err ("strict target " +:+ debug_string pointer +:+ " was not found in the assembled schema")
      | Some tokens =>
          match close_at tokens schema with
          | ClosedValue schema => close_all rest schema
          | NotAnObject other =>
              Err ("strict target " +:+ debug_string pointer +:+ " is not an object: "
                   +:+ value_to_string other)
          | NotFound =>
              Err ("strict target " +:+ debug_string pointer +:+ " was not found in the assembled schema")
          end
      end
  end.

(** The definitions, in the order of the [BTreeMap]. *)
Definition definitions_of (closure : gmap string Value) : list (string * Value) :=
  omap (fun name => component ← closure !! name; Some (name, transform_node component))
    (ascending (dom closure)).

Definition assembled (root_name : string) (closure : gmap string Value) : Value :=
  Object [("$schema"%string, Text DIALECT);
          ("$ref"%string, Text (DEFS_PREFIX +:+ root_name));
          ("$defs"%string, Object (definitions_of closure))].

Definition strict_chat_completion_schema (components : Value) (root_name : string)
    (strict_pointers : list string) : option (result Value string) :=
  closure ← transitive_closure components root_name;
  Some (let? closure := closure in close_all strict_pointers (assembled root_name closure)).


(** ** The validators *)

Inductive OpenAIValidatorError : Type :=
| RequestDoesNotConform (violations : list string)
| ResponseDoesNotConform (violations : list string)
| StreamChunkDoesNotConform (violations : list string)
| ResponsesRequestDoesNotConform (violations : list string)
| ResponsesResponseDoesNotConform (violations : list string)
| ResponsesStreamEventDoesNotConform (violations : list string)
| ErrorResponseDoesNotConform (violations : list string).

Record OpenAIValidator : Type := {
  request : Validator;
  response : Validator;
  stream_chunk : Validator;
  responses_request : Validator;
  responses_response : Validator;
  responses_stream_event : Validator;
  error_response : Validator;
}.

Definition REQUEST_STRICT_POINTERS : list string := ["/$defs/CreateChatCompletionRequest"%string].

Definition RESPONSE_STRICT_POINTERS : list string :=
  ["/$defs/CreateChatCompletionResponse"; "/$defs/ChatCompletionResponseMessage";
   "/$defs/CompletionUsage"; "/$defs/CompletionUsage/properties/prompt_tokens_details";
   "/$defs/CompletionUsage/properties/completion_tokens_details"]%string.

Definition STREAM_STRICT_POINTERS : list string :=
  ["/$defs/CreateChatCompletionStreamResponse"; "/$defs/ChatCompletionStreamResponseDelta";
   "/$defs/CompletionUsage"; "/$defs/CompletionUsage/properties/prompt_tokens_details";
   "/$defs/CompletionUsage/properties/completion_tokens_details"]%string.

Definition RESPONSES_SHARED_OUTPUT_STRICT_POINTERS : list string :=
  ["/$defs/Response"; "/$defs/OutputMessage"; "/$defs/OutputTextContent"; "/$defs/ReasoningItem";
   "/$defs/FunctionToolCall"; "/$defs/ResponseUsage";
   "/$defs/ResponseUsage/properties/input_tokens_details";
   "/$defs/ResponseUsage/properties/output_tokens_details"]%string.

Definition RESPONSES_EMITTED_EVENT_STRICT_POINTERS : list string :=
  ["/$defs/ResponseCreatedEvent"; "/$defs/ResponseInProgressEvent"; "/$defs/ResponseCompletedEvent";
   "/$defs/ResponseFailedEvent"; "/$defs/ResponseOutputItemAddedEvent";
   "/$defs/ResponseOutputItemDoneEvent"; "/$defs/ResponseContentPartAddedEvent";
   "/$defs/ResponseContentPartDoneEvent"; "/$defs/ResponseTextDeltaEvent";
   "/$defs/ResponseTextDoneEvent"; "/$defs/ResponseReasoningTextDeltaEvent";
   "/$defs/ResponseReasoningTextDoneEvent"; "/$defs/ResponseFunctionCallArgumentsDeltaEvent";
   "/$defs/ResponseFunctionCallArgumentsDoneEvent"]%string.

Definition ERROR_RESPONSE_STRICT_POINTERS : list string :=
  ["/$defs/ErrorResponse"; "/$defs/Error"]%string.

Definition responses_stream_event_strict_pointers : list string :=
  RESPONSES_EMITTED_EVENT_STRICT_POINTERS ++ RESPONSES_SHARED_OUTPUT_STRICT_POINTERS.

Definition compile_strict_schema (components : Value) (root_name : string)
    (strict_pointers : list string) : option (result Validator string) :=
  schema ← strict_chat_completion_schema components root_name strict_pointers;
  Some (let? schema := schema in
        match validator_for schema with
        | Ok validator => Ok validator
        | Err err => Err ("compiling the strict " +:+ debug_string root_name +:+ " schema: " +:+ err)
        end).

Definition schema_violations (validator : Validator) (instance : Value) : list string :=
  iter_errors validator instance.

(** The seven schemas are compiled in this order. *)
Definition from_components (components : Value) : option (result OpenAIValidator string) :=
  request_ ← compile_strict_schema components "CreateChatCompletionRequest" REQUEST_STRICT_POINTERS;
  response_ ← compile_strict_schema components "CreateChatCompletionResponse" RESPONSE_STRICT_POINTERS;
  stream_ ← compile_strict_schema components "CreateChatCompletionStreamResponse" STREAM_STRICT_POINTERS;
  responses_request_ ← compile_strict_schema components "CreateResponse" [];
  responses_response_ ← compile_strict_schema components "Response" RESPONSES_SHARED_OUTPUT_STRICT_POINTERS;
  responses_event_ ← compile_strict_schema components "ResponseStreamEvent"
                       responses_stream_event_strict_pointers;
  error_ ← compile_strict_schema components "ErrorResponse" ERROR_RESPONSE_STRICT_POINTERS;
  Some (let? v1 := request_ in let? v2 := response_ in let? v3 := stream_ in
        let? v4 := responses_request_ in let? v5 := responses_response_ in
        let? v6 := responses_event_ in let? v7 := error_ in
        Ok {| request := v1; response := v2; stream_chunk := v3; responses_request := v4;
              responses_response := v5; responses_stream_event := v6; error_response := v7 |}).

Definition from_openapi_yaml (openapi_yaml : string) : option (result OpenAIValidator string) :=
  match parse_components openapi_yaml with
  | Err e => Some (Err e)
  | Ok components => from_components components
  end.

Definition conforms (violations : list string) (e : list string -> OpenAIValidatorError)
    : result unit OpenAIValidatorError :=
  match violations with [] => Ok tt | _ :: _ => Err (e violations) end.

Definition validate_chat_completion_request (v : OpenAIValidator) (instance : Value) :=
  conforms (schema_violations (request v) instance) RequestDoesNotConform.
Definition validate_chat_completion_response (v : OpenAIValidator) (instance : Value) :=
  conforms (schema_violations (response v) instance) ResponseDoesNotConform.
Definition validate_chat_completion_stream_chunk (v : OpenAIValidator) (instance : Value) :=
  conforms (schema_violations (stream_chunk v) instance) StreamChunkDoesNotConform.
Definition validate_responses_request (v : OpenAIValidator) (instance : Value) :=
  conforms (schema_violations (responses_request v) instance) ResponsesRequestDoesNotConform.
Definition validate_responses_response (v : OpenAIValidator) (instance : Value) :=
  conforms (schema_violations (responses_response v) instance) ResponsesResponseDoesNotConform.
Definition validate_responses_stream_event (v : OpenAIValidator) (instance : Value) :=
  conforms (schema_violations (responses_stream_event v) instance) ResponsesStreamEventDoesNotConform.
Definition validate_error_response (v : OpenAIValidator) (instance : Value) :=
  conforms (schema_violations (error_response v) instance) ErrorResponseDoesNotConform.

End ResponseFormat.
