(* ===== verification/ResponseFormatFacts.v ===== *)
(** * The components of a strict schema

    The worklist that collects components ends and collects exactly those the
    root refers to, directly or not. *)

From Stdlib Require Import Strings.Ascii.
From stdpp Require Import sorting.
From S2P Require Import Prelude.
From S2P Require Import ResponseFormat.
Local Open Scope Z_scope.

Section ResponseFormatFacts.
Context `{SchemaTools}.

(** ** The closure *)

(** One component refers to another. *)
Definition refers_to (components : Value) (a b : string) : Prop :=
  exists component, value_get a components = Some component /\ b ∈ collect_component_refs component.

Lemma elem_ascending (b : string) (names : gset string) : b ∈ ascending names <-> b ∈ names.
Proof. unfold ascending. by rewrite (merge_sort_Permutation string_le), elem_of_elements. Qed.

Lemma length_ascending (names : gset string) : length (ascending names) = size names.
Proof. unfold ascending. by rewrite (Permutation_length (merge_sort_Permutation string_le _)). Qed.

(** The references of the components that were not visited yet. *)
Definition references_left (components : Value) (reachable : gmap string Value) : nat :=
  sum_list (map (fun e => match reachable !! fst e with
                          | Some _ => 0
                          | None => size (collect_component_refs (snd e))
                          end) (component_entries components))%nat.

Lemma references_left_insert (name : string) (component : Value) (components : Value)
    (reachable : gmap string Value) :
  value_get name components = Some component -> reachable !! name = None ->
  (size (collect_component_refs component)
   + references_left components (<[name := component]> reachable)
   <= references_left components reachable)%nat.
Proof.
  intros Hget Hnew. unfold references_left. destruct components as [| | | | |entries]; try done.
  simpl in *.
  assert (Hless : forall l : list (string * Value),
    (sum_list (map (fun e => match <[name := component]> reachable !! fst e with
                             | Some _ => 0 | None => size (collect_component_refs (snd e)) end) l)
     <= sum_list (map (fun e => match reachable !! fst e with
                                | Some _ => 0 | None => size (collect_component_refs (snd e)) end) l))%nat).
  { intros l. induction l as [|[k v] l IH]; simpl; [done|].
    destruct (decide (k = name)) as [->|Hne].
    - rewrite lookup_insert_eq. destruct (reachable !! name); simpl; lia.
    - rewrite lookup_insert_ne by done. destruct (reachable !! k); simpl; lia. }
  induction entries as [|[k v] entries IH]; simpl in *; [done|].
  destruct (decide (k = name)) as [->|Hne].
  - injection Hget as ->. rewrite lookup_insert_eq, Hnew. simpl. specialize (Hless entries). lia.
  - rewrite lookup_insert_ne by done. specialize (IH Hget). destruct (reachable !! k); simpl; lia.
Qed.

(** What the worklist knows. *)
Record closure_inv (components : Value) (root_name : string) (pending : list string)
    (reachable : gmap string Value) : Prop := {
  pending_reached : forall n, n ∈ pending -> rtc (refers_to components) root_name n;
  visited_reached : forall n component, reachable !! n = Some component ->
    rtc (refers_to components) root_name n /\ value_get n components = Some component;
  root_seen : root_name ∈ pending \/ is_Some (reachable !! root_name);
  references_seen : forall n component b, reachable !! n = Some component ->
    b ∈ collect_component_refs component -> b ∈ pending \/ is_Some (reachable !! b);
}.

Lemma elem_removelast (n name : string) (pending : list string) :
  last pending = Some name -> n ∈ pending -> n ∈ removelast pending \/ n = name.
Proof.
  intros Hlast Hn. apply last_Some in Hlast as [l ->]. rewrite removelast_last.
  apply elem_of_app in Hn as [Hn|Hn]; [by left|]. apply list_elem_of_singleton in Hn. by right.
Qed.

Lemma removelast_elem (n name : string) (pending : list string) :
  last pending = Some name -> n ∈ removelast pending -> n ∈ pending.
Proof.
  intros Hlast Hn. apply last_Some in Hlast as [l ->]. rewrite removelast_last in Hn.
  apply elem_of_app. by left.
Qed.

Lemma closure_inv_skip (components : Value) (root_name name : string) (pending : list string)
    (reachable : gmap string Value) :
  last pending = Some name -> is_Some (reachable !! name) ->
  closure_inv components root_name pending reachable ->
  closure_inv components root_name (removelast pending) reachable.
Proof.
  intros Hlast Hseen [I1 I2 I3 I4]. split.
  - intros n Hn. by eapply I1, removelast_elem.
  - done.
  - destruct I3 as [Hr|Hr]; [|by right].
    destruct (elem_removelast _ _ _ Hlast Hr) as [?| ->]; auto.
  - intros n component b Hn Hb. destruct (I4 n component b Hn Hb) as [Hp|Hs]; [|by right].
    destruct (elem_removelast _ _ _ Hlast Hp) as [?| ->]; auto.
Qed.

Lemma closure_inv_visit (components : Value) (root_name name : string) (component : Value)
    (pending : list string) (reachable : gmap string Value) :
  last pending = Some name -> reachable !! name = None ->
  value_get name components = Some component ->
  closure_inv components root_name pending reachable ->
  closure_inv components root_name
    (removelast pending ++ ascending (collect_component_refs component))
    (<[name := component]> reachable).
Proof.
  intros Hlast Hnew Hget [I1 I2 I3 I4].
  assert (Hname : rtc (refers_to components) root_name name).
  { apply I1. apply last_Some in Hlast as [l ->]. apply elem_of_app. right. by apply list_elem_of_singleton. }
  split.
  - intros n Hn. apply elem_of_app in Hn as [Hn|Hn]; [by eapply I1, removelast_elem|].
    apply elem_ascending in Hn. eapply rtc_r; [exact Hname|]. by exists component.
  - intros n c0. destruct (decide (n = name)) as [->|Hne].
    + rewrite lookup_insert_eq. by intros [= <-].
    + rewrite lookup_insert_ne by done. apply I2.
  - destruct (decide (root_name = name)) as [->|Hne]; [right; by rewrite lookup_insert_eq|].
    rewrite lookup_insert_ne by done. destruct I3 as [Hr|Hr]; [left|by right].
    apply elem_of_app. left. by destruct (elem_removelast _ _ _ Hlast Hr).
  - assert (Hold : forall b, b ∈ pending \/ is_Some (reachable !! b) ->
      b ∈ removelast pending ++ ascending (collect_component_refs component)
      \/ is_Some (<[name := component]> reachable !! b)).
    { intros b Hb. destruct (decide (b = name)) as [->|Hne]; [right; by rewrite lookup_insert_eq|].
      rewrite lookup_insert_ne by done. destruct Hb as [Hb|Hb]; [left|by right].
      apply elem_of_app. left. by destruct (elem_removelast _ _ _ Hlast Hb). }
    intros n c0 b. destruct (decide (n = name)) as [->|Hne].
    + rewrite lookup_insert_eq. intros [= <-] Hb. left. apply elem_of_app. right. by apply elem_ascending.
    + rewrite lookup_insert_ne by done. intros Hn Hb. apply Hold. by eapply I4.
Qed.

Lemma length_removelast (name : string) (pending : list string) :
  last pending = Some name -> length pending = S (length (removelast pending)).
Proof.
  intros Hlast. apply last_Some in Hlast as [l ->]. rewrite removelast_last, length_app. simpl. lia.
Qed.

(** What the worklist answers. *)
Definition closure_answer (components : Value) (root_name : string)
    (r : result (gmap string Value) string) : Prop :=
  match r with
  | Ok reachable =>
      forall n, (is_Some (reachable !! n) <-> rtc (refers_to components) root_name n) /\
        (forall component, reachable !! n = Some component -> value_get n components = Some component)
  | Err _ => exists n, rtc (refers_to components) root_name n /\ value_get n components = None
  end.

Lemma closure_inv_done (components : Value) (root_name : string) (reachable : gmap string Value) :
  closure_inv components root_name [] reachable -> closure_answer components root_name (Ok reachable).
Proof.
  intros [_ I2 I3 I4] n. split_and!.
  - split; [intros [component Hn]; by destruct (I2 _ _ Hn)|].
    intros Hreach. apply (rtc_invariant _ (fun n => is_Some (reachable !! n)) _ _ Hreach).
    + by destruct I3 as [Hr|Hr]; [apply not_elem_of_nil in Hr|].
    + intros a b [ca Ha] (component & Hget & Hb). pose proof (proj2 (I2 _ _ Ha)) as Hca.
      rewrite Hget in Hca. injection Hca as ->.
      by destruct (I4 _ _ _ Ha Hb) as [Hp|Hs]; [apply not_elem_of_nil in Hp|].
  - intros component Hn. by apply I2.
Qed.

Lemma closure_loop_spec (components : Value) (root_name : string) (fuel : nat)
    (pending : list string) (reachable : gmap string Value) :
  (length pending + references_left components reachable < fuel)%nat ->
  closure_inv components root_name pending reachable ->
  exists r, closure_loop components fuel pending reachable = Some r /\
            closure_answer components root_name r.
Proof.
  revert pending reachable. induction fuel as [|fuel IH]; intros pending reachable Hfuel Hinv; [lia|].
  simpl. destruct (last pending) as [name|] eqn:Hlast.
  2: { apply last_None in Hlast. subst pending. eexists. split; [done|]. by apply closure_inv_done. }
  pose proof (length_removelast _ _ Hlast) as Hlen.
  destruct (reachable !! name) as [seen|] eqn:Hname.
  { apply IH; [lia|]. by eapply closure_inv_skip. }
  destruct (value_get name components) as [component|] eqn:Hget.
  - pose proof (references_left_insert _ _ _ _ Hget Hname) as Hleft.
    apply IH; [rewrite length_app, length_ascending; lia|]. by eapply closure_inv_visit.
  - eexists. split; [done|]. exists name. split; [|done].
    apply (pending_reached _ _ _ _ Hinv). apply last_Some in Hlast as [l ->].
    apply elem_of_app. right. by apply list_elem_of_singleton.
Qed.

Lemma transitive_closure_spec (components : Value) (root_name : string) :
  exists r, transitive_closure components root_name = Some r /\ closure_answer components root_name r.
Proof.
  unfold transitive_closure. apply closure_loop_spec.
  - unfold closure_fuel, references_left. simpl.
    assert (Hle : forall l : list (string * Value),
      (sum_list (map (fun e => match (∅ : gmap string Value) !! fst e with
                               | Some _ => 0 | None => size (collect_component_refs (snd e)) end) l)
       <= sum_list (map (fun e => size (collect_component_refs (snd e))) l))%nat).
    { intros l. induction l as [|e l IH]; simpl; [done|]. rewrite lookup_empty. lia. }
    specialize (Hle (component_entries components)). lia.
  - split.
    + intros n Hn. apply list_elem_of_singleton in Hn as ->. apply rtc_refl.
    + intros n component Hn. by rewrite lookup_empty in Hn.
    + left. by apply list_elem_of_singleton.
    + intros n component b Hn. by rewrite lookup_empty in Hn.
Qed.

(** Collecting components ends, although they refer to each other in
    cycles, and is exact: it succeeds with precisely the components the root
    refers to, directly or through others, each as the document has it, and
    fails only when one of those is not in the document. *)
Theorem component_closure_exact (components : Value) (root_name : string) :
  exists r, transitive_closure components root_name = Some r /\
  match r with
  | Ok reachable =>
      forall n, (is_Some (reachable !! n) <-> rtc (refers_to components) root_name n) /\
                (forall component, reachable !! n = Some component ->
                 value_get n components = Some component)
  | Err _ => exists n, rtc (refers_to components) root_name n /\ value_get n components = None
  end.
Proof.
  destruct (transitive_closure_spec components root_name) as (r & Hr & Hanswer).
  by exists r.
Qed.

End ResponseFormatFacts.
