(* ===== verification/DesiredStateJourney.v ===== *)
(** * A desired state, from the client that puts it to an agent's scheduler

    The parts a desired state goes through, composed over the state they share:
    the management routes and the state database ([ManagementRoutes]), the
    reconciliation service ([DesiredState]), the pool and the connections of
    agents ([BalancerSocket]), and on one agent its end of the management
    socket ([AgentSocket]) and the tasks of its process ([AgentArbiter]). *)

From S2P Require Import Prelude.
From S2P Require Import Tokio.
From S2P Require Import Messages.
From S2P Require Import Requests.
From S2P Require Import AgentIssues.
From S2P Require Import SlotStatus.
From S2P Require Import AgentController.
From S2P Require Import AgentPool.
From S2P Require Import DesiredState.
From S2P Require Import StateDatabase.
From S2P Require Import BufferedRequests.
From S2P Require Import AgentStartup.
From S2P Require Import AgentArbiter.
From S2P Require Import AgentArbiterFacts.
From S2P Require Import AgentSocket.
From S2P Require Import WebSocketEndpoint.
From S2P Require Import BalancerSocket.
From S2P Require Import BalancerSocketFacts.
From S2P Require Import ClientHttp.
From S2P Require Import SnapshotsStream.
From S2P Require Import ManagementRoutes.
From S2P Require Import ManagementRoutesFacts.
Local Open Scope Z_scope.

(** ** The balancer's half of the link *)

Section Carried.
Context `{JsonTypes} `{LlamaTypes} {chan : Type -> Type} `{!UnboundedChannel chan} {token : Type}.
Context {sender receiver : Type} `{!WatchChannel sender receiver}.
Context (from_str : string -> result ManagementMessage string) (print_size : Z -> string).
Context (VERSION : string).
Local Abbreviation Agents := (@BalancerAgents _ _ chan token sender).
Local Abbreviation Connection := (@AgentConnection _ _ token).
Local Abbreviation Pool := (AgentControllerPool chan token sender).
Local Abbreviation step := (balancer_step from_str print_size VERSION).
Local Abbreviation Event := (@BalancerEvent token).
Local Abbreviation pool := BalancerSocket.agent_controller_pool.

(** Controllers are new when they are registered, and each has one forwarding
    task at most. *)
Record controllers_fresh (y : Agents) : Prop := {
  fresh_agents (id : string) (loc : nat) : pooled y id = Some loc -> (loc < next_controller y)%nat;
  fresh_distinct : agents_distinct (pool y);
  fresh_forwarders (n : nat) (c : Connection) (loc : nat) :
    connections y !! n = Some c -> forwarder c = Some loc -> (loc < next_controller y)%nat;
  fresh_unshared (n m : nat) (c d : Connection) (loc : nat) :
    connections y !! n = Some c -> connections y !! m = Some d ->
    forwarder c = Some loc -> forwarder d = Some loc -> n = m;
}.

Lemma no_agents_fresh (y : Agents) : no_agents y -> controllers_fresh y.
Proof.
  intros [Hagents Hconns]. split; unfold pooled, agents_distinct; rewrite ?Hagents, ?Hconns; by intros *; rewrite lookup_empty.
Qed.

(** A connection changes, but not what it forwards. *)
Lemma put_connection_fresh (n : nat) (c : Connection) (y : Agents)
    (Hforwarder : forall loc, forwarder c = Some loc ->
       exists c0, connections y !! n = Some c0 /\ forwarder c0 = Some loc)
    (Hfresh : controllers_fresh y) :
  controllers_fresh (put_connection n c y).
Proof.
  destruct Hfresh as [Ha Hd Hf Hu]. split; [done|done| |]; simpl.
  - intros m d loc [[<- <-]|[_ Hm]]%lookup_insert_Some Hloc; [|by eapply Hf].
    destruct (Hforwarder loc Hloc) as (c0 & Hc0 & ?). by eapply Hf.
  - intros m k d e loc [[<- <-]|[Hnm Hm]]%lookup_insert_Some [[<- <-]|[Hnk Hk]]%lookup_insert_Some Hd1 He1;
      [done| | |by eapply Hu].
    + destruct (Hforwarder loc Hd1) as (c0 & Hc0 & ?). by eapply (Hu n k).
    + destruct (Hforwarder loc He1) as (c0 & Hc0 & ?). by eapply (Hu m n).
Qed.

Lemma put_pool_fresh (p : Pool) (y : Agents)
    (Hagents : agents p ⊆ agents (pool y)) (Hfresh : controllers_fresh y) :
  controllers_fresh (put_pool p y).
Proof.
  destruct Hfresh as [Ha Hd Hf Hu]. unfold pooled, agents_distinct in *.
  split; unfold pooled, agents_distinct; simpl; [| |done|done].
  - intros id loc Hid. apply (Ha id). by eapply lookup_weaken.
  - intros id1 id2 loc H1 H2. apply (Hd id1 id2 loc); by eapply lookup_weaken.
Qed.

(** What a handler does to the agents, the forwarding tasks and the channels of
    the controllers: a registration uses the next controller. *)
Record handled_fresh (n : nat) (c : Connection) (y y' : Agents) : Prop := {
  handled_next : (next_controller y <= next_controller y')%nat;
  handled_agents (id : string) (loc : nat) : pooled y' id = Some loc ->
    pooled y id = Some loc \/ (id = agent_id c /\ loc = next_controller y /\ (loc < next_controller y')%nat);
  handled_connections (m : nat) : connections y' !! m = connections y !! m \/
    (m = n /\ connections y' !! m = Some (put_forwarder (Some (next_controller y)) c) /\
     (next_controller y < next_controller y')%nat);
  handled_channels (loc : nat) : (loc < next_controller y)%nat ->
    Controller.agent_message_tx <$> controllers (pool y') !! loc
    = Controller.agent_message_tx <$> controllers (pool y) !! loc;
}.

Lemma update_keeps_channel (snapshot : Snapshot.SlotAggregatedStatusSnapshot)
    (a : Controller.AgentController chan token) :
  Controller.agent_message_tx (Controller.update_from_slot_aggregated_status_snapshot snapshot a).1
  = Controller.agent_message_tx a.
Proof.
  destruct (Z.lt_ge_cases (Snapshot.version snapshot) (Controller.newest_update_version a)).
  - by rewrite Controller.update_stale.
  - by rewrite (proj1 (Controller.update_fresh snapshot a ltac:(lia))).
Qed.

Lemma handle_update_channels (c : Connection) (snapshot : Snapshot.SlotAggregatedStatusSnapshot)
    (p : Pool) (loc : nat) :
  Controller.agent_message_tx <$> controllers (handle_update c snapshot p) !! loc
  = Controller.agent_message_tx <$> controllers p !! loc.
Proof.
  unfold handle_update. destruct (get_agent_controller _ p) as [l|]; [|done].
  destruct (controllers p !! l) as [a|] eqn:Ha; [|done].
  pose proof (update_keeps_channel snapshot a) as Hkeeps.
  destruct (Controller.update_from_slot_aggregated_status_snapshot snapshot a) as [a' []]; simpl in *;
    (destruct (decide (l = loc)) as [->|];
      [by rewrite lookup_insert_eq, Ha; simpl; rewrite Hkeeps|by rewrite lookup_insert_ne]).
Qed.

Lemma register_insert_controllers (id : string) (new loc : nat)
    (a : Controller.AgentController chan token) (p : Pool) (Hne : loc <> new) :
  controllers (register_insert id new a p).1 !! loc = controllers p !! loc.
Proof.
  unfold register_insert, register_agent_controller. simpl.
  destruct (agents p !! id); simpl; by rewrite lookup_insert_ne.
Qed.

Lemma register_send_controllers (new loc : nat) (h : @BalancerApplicableStateHolder sender) (p : Pool)
    (Hne : loc <> new) :
  controllers (register_send_state new h p).1 !! loc = controllers p !! loc.
Proof.
  unfold register_send_state. repeat case_match; simpl; try done. by rewrite lookup_insert_ne.
Qed.

Lemma drop_rx_controllers (new loc : nat) (p : Pool) (Hne : loc <> new) :
  controllers (drop_agent_message_rx new p) !! loc = controllers p !! loc.
Proof. simpl. by rewrite lookup_alter_ne. Qed.

Lemma handle_message_fresh (n : nat) (c : Connection) (message : ManagementMessage) (y : Agents)
    (Hc : connections y !! n = Some c) :
  handled_fresh n c y (handle_agent_message n c message y).1.
Proof.
  destruct message as [e|[|name_ snapshot|snapshot]|e]; simpl.
  - split; auto.
  - split; auto.
  - unfold handle_register_agent. simpl.
    match goal with |- context [register_insert ?i ?l ?a ?p] =>
      pose proof (register_insert_agents i l a p) as Hins;
      pose proof (fun loc => register_insert_controllers i l loc a p) as Hinsc;
      destruct (register_insert i l a p) as [p1 [u|e]]
    end; simpl in *.
    + match goal with |- context [register_send_state ?l ?h ?p] =>
        pose proof (register_send_agents l h p) as Hsend;
        pose proof (fun loc => register_send_controllers l loc h p) as Hsendc;
        destruct (register_send_state l h p) as [p2 [v|e]]
      end; simpl in *; split; unfold pooled; simpl; rewrite ?Hsend, ?Hins; try lia.
      * intros id loc [[<- <-]|[? ?]]%lookup_insert_Some; auto with lia.
      * intros m. destruct (decide (n = m)) as [->|]; [|by left; rewrite lookup_insert_ne].
        right. rewrite lookup_insert_eq. auto with lia.
      * intros loc Hloc. rewrite Hsendc, Hinsc by lia. done.
      * intros id loc [[<- <-]|[? ?]]%lookup_insert_Some; auto with lia.
      * auto.
      * intros loc Hloc. rewrite lookup_alter_ne, Hsendc, Hinsc by lia. done.
    + split; unfold pooled; simpl; rewrite ?Hins; try lia; auto.
      * intros id loc [[<- <-]|[? ?]]%lookup_insert_Some; auto with lia.
      * intros loc Hloc. rewrite lookup_alter_ne, Hinsc by lia. done.
  - split; unfold pooled; simpl; auto.
    + intros id loc. rewrite handle_update_agents. auto.
    + intros loc _. apply handle_update_channels.
  - unfold handle_response. destruct (Messages.response e); split; auto.
Qed.

Lemma handled_fresh_fresh (n : nat) (c : Connection) (y y' : Agents)
    (Hc : connections y !! n = Some c) (Hhandled : handled_fresh n c y y')
    (Hfresh : controllers_fresh y) :
  controllers_fresh y'.
Proof.
  destruct Hhandled as [Hnext Hagents Hconns _], Hfresh as [Ha Hd Hf Hu]. split.
  - intros id loc [Hold|(_ & -> & ?)]%Hagents; [|done]. specialize (Ha id loc Hold). lia.
  - intros id1 id2 loc H1 H2.
    destruct (Hagents id1 loc H1) as [H1'|(-> & E1 & _)], (Hagents id2 loc H2) as [H2'|(-> & E2 & _)]; try done.
    + by eapply Hd.
    + apply Ha in H1'. lia.
    + apply Ha in H2'. lia.
  - intros m d loc Hm Hloc. destruct (Hconns m) as [E|(-> & E & ?)]; rewrite E in Hm.
    + specialize (Hf m d loc Hm Hloc). lia.
    + by simplify_eq/=.
  - intros m k d e loc Hm Hk Hdl Hel.
    destruct (Hconns m) as [E1|(-> & E1 & ?)], (Hconns k) as [E2|(-> & E2 & ?)];
      rewrite E1 in Hm; rewrite E2 in Hk; simplify_eq/=; try done.
    + by eapply Hu.
    + specialize (Hf m d _ Hm Hdl). lia.
    + specialize (Hf k e _ Hk Hel). lia.
Qed.

Lemma run_handler_handled (n index : nat) (y : Agents) :
  run_handler n index y = y \/
  exists c s1 s2 message, connections y !! n = Some c /\
    let y1 := put_connection n (put_session s1 c) y in
    let y2 := (handle_agent_message n (put_session s1 c) message y1).1 in
    exists c2, connections y2 !! n = Some c2 /\
      run_handler n index y = put_connection n (put_session s2 c2) y2.
Proof.
  unfold run_handler. destruct (connections y !! n) as [c|] eqn:Hc; [|by left].
  destruct (take_spawned index (session c)) as [[message s1]|]; [right|by left].
  pose proof (handle_message_connections n (put_session s1 c) message
    (put_connection n (put_session s1 c) y) n) as Hconn.
  destruct (handle_agent_message _ _ _ _) as [y2 decision] eqn:Hhandle. simpl in Hconn.
  rewrite lookup_insert_eq in Hconn.
  assert (exists c2, connections y2 !! n = Some c2) as [c2 Hc2]
    by (destruct Hconn as [->|(_ & loc & ->)]; eauto).
  rewrite Hc2. exists c, s1, (handled decision (session c2)), message. split; [done|].
  simpl. rewrite Hhandle. by exists c2.
Qed.

Lemma run_forwarder_forwards (n : nat) (written : bool) (y : Agents) :
  run_forwarder n written y = y \/
  exists c loc, connections y !! n = Some c /\ forwarder c = Some loc /\
    (run_forwarder n written y
     = put_connection n (put_forwarder None c) (put_pool (drop_agent_message_rx loc (pool y)) y) \/
     exists a message tx c', controllers (pool y) !! loc = Some a /\
       chan_try_recv (Controller.agent_message_tx a) = Some (message, tx) /\
       forwarder c' = Some loc /\ agent_id c' = agent_id c /\
       sent c' = (if written then sent c ++ [message] else sent c) /\
       run_forwarder n written y
       = put_connection n c' (put_pool (store_controllers
           (<[loc := Controller.put_agent_message_tx tx a]> (controllers (pool y))) (pool y)) y)).
Proof.
  unfold run_forwarder. destruct (connections y !! n) as [c|] eqn:Hc; [|by left].
  destruct (forwarder c) as [loc|] eqn:Hf; [|by left].
  destruct (session_close (session c)); [right; by eauto 10|].
  destruct (controllers (pool y) !! loc) as [a|] eqn:Ha; [|by left].
  destruct (chan_try_recv _) as [[message tx]|] eqn:Hrecv; [|by left].
  right. exists c, loc. split_and!; [done|done|]. right.
  eexists a, message, tx, _. split_and!; [done|done| | | |reflexivity]; done.
Qed.

Lemma balancer_step_fresh (event : Event) (y : Agents) (Hfresh : controllers_fresh y) :
  controllers_fresh (step event y).
Proof.
  destruct event as [n id close version_written|n turn|n index|n written|n]; simpl.
  - destruct (connections y !! n); [done|]. by apply put_connection_fresh; simpl.
  - destruct (connections y !! n) as [c|] eqn:Hc; [|done]. apply put_connection_fresh; eauto.
  - destruct (run_handler_handled n index y) as [->|(c & s1 & s2 & message & Hc & c2 & Hc2 & ->)]; [done|].
    apply put_connection_fresh; [eauto|].
    eapply handled_fresh_fresh; [|apply handle_message_fresh|]; try apply lookup_insert_eq.
    apply put_connection_fresh; eauto.
  - destruct (run_forwarder_forwards n written y)
      as [->|(c & loc & Hc & Hf & [->|(a & message & tx & c' & Ha & Hrecv & Hf' & _ & _ & ->)])]; [done| |].
    + apply put_connection_fresh; [done|]. by apply put_pool_fresh.
    + apply put_connection_fresh; simpl; [|by apply put_pool_fresh]. intros l Hl. exists c. split; congruence.
  - unfold drop_context. destruct (connections y !! n) as [c|] eqn:Hc; [|done].
    repeat case_match; try done. apply put_connection_fresh; [done|].
    apply put_pool_fresh; [|done]. rewrite remove_agents. apply delete_subseteq.
Qed.

(** The agent of connection [n] is in the pool with controller [loc], whose
    messages its connection forwards. *)
Definition attached (n loc : nat) (y : Agents) : Prop :=
  exists c a, connections y !! n = Some c /\ forwarder c = Some loc /\
    pooled y (agent_id c) = Some loc /\ controllers (pool y) !! loc = Some a.

Definition sent_to (n : nat) (y : Agents) : list AgentMessage :=
  match connections y !! n with Some c => sent c | None => [] end.

Definition waiting_for (loc : nat) (y : Agents) : list AgentMessage :=
  match controllers (pool y) !! loc with
  | Some a => chan_pending (Controller.agent_message_tx a)
  | None => []
  end.

(** Nothing that was put in the channel is lost, reordered or repeated. *)
Definition carries (n loc : nat) (y y' : Agents) : Prop :=
  sent_to n y `prefix_of` sent_to n y' /\
  sent_to n y' ++ waiting_for loc y' = sent_to n y ++ waiting_for loc y.

Lemma carries_same (n loc : nat) (y y' : Agents) (Hsent : sent_to n y' = sent_to n y)
    (Hwaiting : waiting_for loc y' = waiting_for loc y) :
  carries n loc y y'.
Proof. unfold carries. by rewrite Hsent, Hwaiting. Qed.

Lemma sent_to_put (n m : nat) (c c' : Connection) (y : Agents) (Hc : connections y !! m = Some c)
    (Hsent : sent c' = sent c) :
  sent_to n (put_connection m c' y) = sent_to n y.
Proof.
  unfold sent_to. simpl. destruct (decide (m = n)) as [->|].
  - by rewrite lookup_insert_eq, Hc.
  - by rewrite lookup_insert_ne.
Qed.

Lemma waiting_channels (loc : nat) (y y' : Agents)
    (Hchannels : Controller.agent_message_tx <$> controllers (pool y') !! loc
                 = Controller.agent_message_tx <$> controllers (pool y) !! loc) :
  waiting_for loc y' = waiting_for loc y.
Proof. unfold waiting_for. by repeat case_match; simplify_eq/=; congruence. Qed.

Lemma run_handler_sent (n m index : nat) (y : Agents) :
  sent_to n (run_handler m index y) = sent_to n y.
Proof.
  destruct (run_handler_handled m index y) as [->|(c & s1 & s2 & message & Hc & c2 & Hc2 & ->)]; [done|].
  pose proof (handle_message_fresh m (put_session s1 c) message (put_connection m (put_session s1 c) y)
    (lookup_insert_eq _ _ _)) as [_ _ Hconns _].
  rewrite (sent_to_put n m c2) by done. unfold sent_to.
  destruct (Hconns n) as [->|(-> & -> & _)]; simpl; [|by rewrite Hc].
  destruct (decide (m = n)) as [->|]; [by rewrite lookup_insert_eq, Hc|by rewrite lookup_insert_ne].
Qed.

Lemma run_handler_carries (n loc m index : nat) (y : Agents) (Hloc : (loc < next_controller y)%nat) :
  carries n loc y (run_handler m index y).
Proof.
  apply carries_same; [apply run_handler_sent|].
  destruct (run_handler_handled m index y) as [->|(c & s1 & s2 & message & Hc & c2 & Hc2 & ->)]; [done|].
  pose proof (handle_message_fresh m (put_session s1 c) message (put_connection m (put_session s1 c) y)
    (lookup_insert_eq _ _ _)) as [_ _ _ Hchannels].
  apply waiting_channels. simpl. by rewrite Hchannels.
Qed.

Lemma run_forwarder_carries (n loc m : nat) (written : bool) (y : Agents)
    (Hfresh : controllers_fresh y) (Hattached : attached n loc y)
    (Hafter : attached n loc (run_forwarder m written y)) (Hwritten : m = n -> written = true) :
  carries n loc y (run_forwarder m written y).
Proof.
  destruct Hattached as (cn & an & Hn & Hfn & Hpooled & Han).
  destruct (run_forwarder_forwards m written y)
    as [->|(c & l & Hc & Hf & [E|(a & message & tx & c' & Ha & Hrecv & Hf' & _ & Hsent & E)])];
    [by apply carries_same| |]; rewrite E in Hafter |- *.
  - assert (m <> n) as Hmn.
    { intros ->. destruct Hafter as (d & ? & Hd & Hfd & _). simpl in Hd.
      rewrite lookup_insert_eq in Hd. by simplify_eq. }
    assert (loc <> l) as Hl by (intros ->; by destruct Hmn; eapply fresh_unshared).
    apply carries_same; unfold sent_to, waiting_for; simpl; by rewrite ?lookup_insert_ne, ?lookup_alter_ne.
  - destruct (decide (m = n)) as [->|Hmn].
    + rewrite Hn in Hc. injection Hc as <-. rewrite Hfn in Hf. injection Hf as <-.
      rewrite Han in Ha. injection Ha as <-. rewrite Hwritten in Hsent by done. unfold carries, sent_to, waiting_for. simpl.
      rewrite !lookup_insert_eq, Hn, Hsent, Han. simpl.
      apply chan_recv_some in Hrecv as [-> _]. split; [by eexists|]. by rewrite <- app_assoc.
    + assert (loc <> l) as Hl by (intros ->; by destruct Hmn; eapply fresh_unshared).
      apply carries_same; unfold sent_to, waiting_for; simpl; by rewrite lookup_insert_ne.
Qed.

(** What was written stays written. *)
Lemma balancer_step_sent (n : nat) (event : Event) (y : Agents) :
  sent_to n y `prefix_of` sent_to n (step event y).
Proof.
  assert (Hput : forall m c c' p, connections y !! m = Some c -> sent c `prefix_of` sent c' ->
    sent_to n y `prefix_of` sent_to n (put_connection m c' (put_pool p y))).
  { intros m c c' p Hc Hsent. unfold sent_to. simpl. destruct (decide (m = n)) as [->|].
    - by rewrite lookup_insert_eq, Hc.
    - by rewrite lookup_insert_ne. }
  destruct event as [m id close version_written|m turn|m index|m written|m]; simpl.
  - destruct (connections y !! m) eqn:Hm; [done|]. unfold sent_to. simpl.
    destruct (decide (m = n)) as [->|]; [rewrite Hm; apply prefix_nil|by rewrite lookup_insert_ne].
  - destruct (connections y !! m) as [c|] eqn:Hm; [|done]. by apply (Hput m c _ (pool y)).
  - by rewrite run_handler_sent.
  - destruct (run_forwarder_forwards m written y)
      as [->|(c & l & Hc & _ & [->|(a & message & tx & c' & _ & _ & _ & _ & Hsent & ->)])]; [done| |].
    + by apply (Hput m c).
    + apply (Hput m c); [done|]. rewrite Hsent. destruct written; [by eexists|done].
  - unfold drop_context. destruct (connections y !! m) as [c|] eqn:Hm; [|done].
    repeat case_match; try done. by apply (Hput m c).
Qed.

(** What a step of the balancer's sockets must do for the messages of
    connection [n] to be written. *)
Definition writes (n : nat) (event : Event) : Prop :=
  match event with ForwarderRuns m written => m = n -> written = true | _ => True end.

Lemma balancer_step_carries (n loc : nat) (event : Event) (y : Agents) (Hfresh : controllers_fresh y)
    (Hattached : attached n loc y) (Hafter : attached n loc (step event y)) (Hwrites : writes n event) :
  carries n loc y (step event y).
Proof.
  pose proof Hattached as (cn & an & Hn & Hfn & Hpooled & Han).
  destruct event as [m id close version_written|m turn|m index|m written|m]; simpl in *.
  - destruct (connections y !! m) eqn:Hm; [by apply carries_same|].
    apply carries_same; [|done]. unfold sent_to. simpl. by rewrite lookup_insert_ne by (intros ->; congruence).
  - destruct (connections y !! m) as [c|] eqn:Hm; [|by apply carries_same].
    apply carries_same; [by apply (sent_to_put n m c)|done].
  - apply run_handler_carries. by eapply fresh_agents.
  - by apply run_forwarder_carries.
  - unfold drop_context in *. destruct (connections y !! m) as [c|] eqn:Hm; [|by apply carries_same].
    repeat case_match; try by apply carries_same.
    apply carries_same; [by apply (sent_to_put n m c _ (put_pool _ y))|].
    unfold waiting_for. simpl. unfold remove_agent_controller.
    by destruct (agents (pool y) !! agent_id c).
Qed.
End Carried.

(** ** The balancer and one of its agents *)

Definition state_notification `{JsonTypes} (message : AgentMessage) : option AgentDesiredState :=
  match message with
  | AgentMessageNotification (SetState desired) => Some desired
  | _ => None
  end.

Section Fleet.
Context `{JsonTypes} `{LlamaTypes}.
Context {bchan achan : Type -> Type} `{!UnboundedChannel bchan} `{!UnboundedChannel achan} {token : Type}.
Context {bsender breceiver : Type} `{!WatchChannel bsender breceiver}.
Context {asender areceiver : Type} `{!WatchChannel asender areceiver}.
Context {vsender vreceiver : Type} `{!ValueWatch (option AgentApplicableState) vsender vreceiver}.
Context {Conversation Prompt Embeddings : Type}.
Context (slots : Z) (devices : list Z).
Context (iteration : gmap string nat -> list (string * nat)).
Context (iteration_entries : forall m, iteration m ≡ₚ map_to_list m).
Context (print_schema : Schema -> string) (parse_schema : string -> result Schema string).
Context `{!Json (list ControllerSnapshot.AgentControllerSnapshot)}
  `{!Json BufferedRequestManagerSnapshot} `{!Json (option AgentDesiredState)}
  `{!Json BalancerDesiredState}.
Context (json_body : option (result string string) -> result BalancerDesiredState HttpResponse).
Context (display_i32 : Z -> string) (display_f64 : f64 -> string).
Context (balancer_from_str : string -> result ManagementMessage string) (print_size : Z -> string).
Context (VERSION : string) (agent_from_str : string -> result AgentMessage string).
Local Abbreviation Agents := (@BalancerAgents _ _ bchan token bsender).
Local Abbreviation Socket := (@AgentSocket _ _ achan asender).
Local Abbreviation Process :=
  (@AgentProcess asender achan vsender vreceiver Conversation Prompt Embeddings).
Local Abbreviation AgentEvent := (@AgentEvent Conversation Prompt Embeddings).
Local Abbreviation AppData := (@AppData _ _ bchan token bsender).
Local Abbreviation pool := BalancerSocket.agent_controller_pool.
Local Abbreviation balancer_steps := (balancer_step balancer_from_str print_size VERSION).
Local Abbreviation respond :=
  (management_respond iteration print_schema parse_schema json_body display_i32 display_f64).

(** [announcements_taken] is how much of what the database announced the
    reconciliation service took, [messages_read] how much of what the
    balancer wrote on the agent's connection the agent read. *)
Record Fleet : Type := {
  database : StateDatabase;
  waiting_requests : @BufferedRequestCounter bsender;
  waiting_limit : Z;
  metrics_prefix : string;
  announcements_taken : nat;
  balancer_desired : BalancerDesiredState;
  balancer_converted : bool;
  reconciliation_stopped : bool;
  balancer : Agents;
  messages_read : nat;
  socket : Socket;
  process : Process;
}.

Definition put_balancer (b : Agents) (f : Fleet) : Fleet := {|
  database := database f; waiting_requests := waiting_requests f; waiting_limit := waiting_limit f;
  metrics_prefix := metrics_prefix f; announcements_taken := announcements_taken f;
  balancer_desired := balancer_desired f; balancer_converted := balancer_converted f;
  reconciliation_stopped := reconciliation_stopped f; balancer := b;
  messages_read := messages_read f; socket := socket f; process := process f |}.

Definition put_agent (read : nat) (y : Socket) (p : Process) (f : Fleet) : Fleet := {|
  database := database f; waiting_requests := waiting_requests f; waiting_limit := waiting_limit f;
  metrics_prefix := metrics_prefix f; announcements_taken := announcements_taken f;
  balancer_desired := balancer_desired f; balancer_converted := balancer_converted f;
  reconciliation_stopped := reconciliation_stopped f; balancer := balancer f;
  messages_read := read; socket := y; process := p |}.

(** *** The management service *)

(** The routes see the pool and the holder of the sockets. *)
Definition app_data (f : Fleet) : AppData := {|
  balancer_applicable_state_holder := BalancerSocket.balancer_applicable_state_holder (balancer f);
  buffered_request_manager :=
    {| manager_pool := pool (balancer f); buffered_request_counter := waiting_requests f;
       max_buffered_requests := waiting_limit f |};
  state_database := database f; statsd_prefix := metrics_prefix f |}.

(** A route of [management_respond] changes the database at most. *)
Definition put_database (db : StateDatabase) (f : Fleet) : Fleet := {|
  database := db; waiting_requests := waiting_requests f; waiting_limit := waiting_limit f;
  metrics_prefix := metrics_prefix f; announcements_taken := announcements_taken f;
  balancer_desired := balancer_desired f; balancer_converted := balancer_converted f;
  reconciliation_stopped := reconciliation_stopped f; balancer := balancer f;
  messages_read := messages_read f; socket := socket f; process := process f |}.

Definition manages (io : DatabaseIo) (m : Method) (path : string)
    (body : option (result string string)) (f : Fleet) : Fleet * HttpResponse :=
  let '(d, response) := respond io m path body (app_data f) in
  (put_database (state_database d) f, response).

(** *** The reconciliation service of the balancer *)

Definition announced (db : StateDatabase) : list BalancerDesiredState :=
  match db with
  | InMemory m => broadcast_sent (memory_notify_tx m)
  | InFile f => broadcast_sent (file_notify_tx f)
  end.

Definition service (f : Fleet) : ReconciliationService bchan token bsender := {|
  DesiredState.agent_controller_pool := pool (balancer f);
  DesiredState.balancer_applicable_state_holder :=
    BalancerSocket.balancer_applicable_state_holder (balancer f);
  DesiredState.balancer_desired_state := balancer_desired f;
  is_converted_to_applicable_state := balancer_converted f |}.

Definition put_service (taken : nat) (stopped : bool) (s : ReconciliationService bchan token bsender)
    (f : Fleet) : Fleet := {|
  database := database f; waiting_requests := waiting_requests f; waiting_limit := waiting_limit f;
  metrics_prefix := metrics_prefix f; announcements_taken := taken;
  balancer_desired := DesiredState.balancer_desired_state s;
  balancer_converted := is_converted_to_applicable_state s; reconciliation_stopped := stopped;
  balancer := {|
    BalancerSocket.agent_controller_pool := DesiredState.agent_controller_pool s;
    BalancerSocket.balancer_applicable_state_holder := DesiredState.balancer_applicable_state_holder s;
    chat_template_overrides := chat_template_overrides (balancer f);
    embeddings := embeddings (balancer f); generated_tokens := generated_tokens (balancer f);
    model_metadatas := model_metadatas (balancer f); connections := connections (balancer f);
    next_controller := next_controller (balancer f) |};
  messages_read := messages_read f; socket := socket f; process := process f |}.

Definition reconciles (taken : nat) (event : ReconciliationEvent) (f : Fleet) : Fleet :=
  if reconciliation_stopped f then f
  else
    match handle_reconciliation_event iteration event (service f) with
    | Continue s => put_service taken false s f
    | Break s _ => put_service taken true s f
    end.

(** *** The agent *)

(** The socket sees the status, the applied state and the metadata of its
    process. *)
Definition socket_view (f : Fleet) : Socket :=
  let y := socket f in
  Build_AgentSocket (receive_stoppers y) (streams y) (next_stream y)
    (continue_from_conversation_history_request_tx y) (continue_from_raw_prompt_request_tx y)
    (generate_embedding_batch_request_tx y) (agent_desired_state_tx y) (message_tx y) (pong_tx y)
    (written y) (connection_close y) (slot_status (process f))
    (held_state (applicable_holder (process f))) (metadata_held (process f)) (loop_phase y).

Definition socket_moves (read : nat) (event : SocketEvent) (f : Fleet) : Fleet :=
  let y := socket_step agent_from_str event (socket_view f) in
  put_agent read y (set_status (socket_status y) (process f)) f.

(** The receiver of desired states goes with the reconciliation task. *)
Definition process_moves (event : AgentEvent) (f : Fleet) : Fleet :=
  let p := agent_step slots devices event (process f) in
  let y := match reconciliation_phase (reconciliation p) with
           | TaskStopped =>
               put_desired_state_tx (chan_drop_receiver (agent_desired_state_tx (socket f))) (socket f)
           | _ => socket f
           end in
  put_agent (messages_read f) y p f.

(** The reconciliation task takes a desired state from the socket. *)
Definition agent_takes (env : ConversionEnvironment) (f : Fleet) : Fleet :=
  if reconciliation_runs (process f) then
    match chan_try_recv (agent_desired_state_tx (socket f)) with
    | None => f
    | Some (desired, rx) =>
        process_moves (AgentArbiter.DesiredStateReceived env (Some desired))
          (put_agent (messages_read f) (put_desired_state_tx rx (socket f)) (process f) f)
    end
  else f.

(** *** What happens next *)

(** [PeersSend] is a request or a stop that another task of the balancer sends
    to an agent. *)
Inductive FleetEvent : Type :=
| ManagementRequest (io : DatabaseIo) (m : Method) (path : string) (body : option (result string string))
| ServiceTicks
| ServiceTakes
| ServiceFails (error : string)
| ServiceSeesShutdown
| PeersSend (loc : nat) (message : AgentMessage)
| BalancerMoves (event : @BalancerEvent token)
| AgentReads (text : string)
| SocketMoves (event : SocketEvent)
| AgentTakes (env : ConversionEnvironment)
| ProcessMoves (event : AgentEvent).

Definition peers_send (loc : nat) (message : AgentMessage) (b : Agents) : Agents :=
  match controllers (pool b) !! loc with
  | None => b
  | Some a =>
      match Controller.send_rpc_message message a with
      | Ok a => put_pool (store_controllers (<[loc := a]> (controllers (pool b))) (pool b)) b
      | Err _ => b
      end
  end.

(** Agent [n] is the one observed. *)
Definition fleet_step (n : nat) (event : FleetEvent) (f : Fleet) : Fleet :=
  match event with
  | ManagementRequest io m path body => fst (manages io m path body f)
  | ServiceTicks => reconciles (announcements_taken f) DesiredState.Tick f
  | ServiceTakes =>
      match announced (database f) !! announcements_taken f with
      | None => f
      | Some state => reconciles (S (announcements_taken f)) (DesiredState.DesiredStateReceived (Ok state)) f
      end
  | ServiceFails error => reconciles (announcements_taken f) (DesiredState.DesiredStateReceived (Err error)) f
  | ServiceSeesShutdown => reconciles (announcements_taken f) DesiredState.ShutdownCancelled f
  | PeersSend loc message => put_balancer (peers_send loc message (balancer f)) f
  | BalancerMoves event => put_balancer (balancer_steps event (balancer f)) f
  | AgentReads text =>
      match sent_to n (balancer f) !! messages_read f with
      | None => f
      | Some _ => socket_moves (S (messages_read f)) (Reads (WsText text)) f
      end
  | SocketMoves event => socket_moves (messages_read f) event f
  | AgentTakes env => agent_takes env f
  | ProcessMoves event => process_moves event f
  end.

Definition fleet_run (n : nat) (events : list FleetEvent) (f : Fleet) : Fleet :=
  fold_left (fun f event => fleet_step n event f) events f.

(** ** Facts: what the agent's parts keep *)

Local Abbreviation code := (@state_application_status_code asender).

(** What the rest of the agent does to its status. *)
Definition event_calm (event : FleetEvent) : Prop :=
  match event with
  | SocketMoves (StatusRuns ops) => Forall (fun op => keeps_code op = true) ops
  | ProcessMoves event => event_keeps_status event
  | _ => True
  end.

Definition reads_text (event : SocketEvent) : bool :=
  match event with Reads (WsText _) => true | _ => false end.

(** Nothing but a message gives the agent a desired state, and nothing on the
    socket applies one. *)
Record socket_keeps (y y' : Socket) : Prop := {
  keeps_status : code (socket_status y') = code (socket_status y);
  keeps_desired : agent_desired_state_tx y' = agent_desired_state_tx y;
}.

Lemma socket_keeps_trans (y1 y2 y3 : Socket) :
  socket_keeps y1 y2 -> socket_keeps y2 y3 -> socket_keeps y1 y3.
Proof. intros [] []. split; congruence. Qed.

Lemma stop_keeps (id : string) (y : Socket) : socket_keeps y (fst (stop id y)).
Proof. unfold stop. by repeat case_match. Qed.

Lemma generate_keeps {Params : Type} (id : string) (params : Params)
    (rx : @ResponseChannel _ achan)
    (request_tx : Socket -> achan (@SchedulerRequest Params))
    (put_tx : achan (@SchedulerRequest Params) -> Socket -> Socket) (y : Socket)
    (Hput : forall tx y, socket_keeps y (put_tx tx y)) :
  socket_keeps y (fst (generate_responses id params rx request_tx put_tx y)).
Proof.
  unfold generate_responses, register_stopper. destruct (receive_stoppers y !! id); [done|].
  cbn zeta. case_match; simpl.
  - match goal with |- context [put_tx ?tx ?y0] => destruct (Hput tx y0) as [E1 E2] end.
    by split; simpl; rewrite ?E1, ?E2.
  - unfold drop_stopper_guard, deregister_stopper. by case_match.
Qed.

Lemma send_message_keeps (message : ManagementMessage) (y : Socket) :
  socket_keeps y (fst (send_message message y)).
Proof. unfold send_message. by case_match. Qed.

(** A message of the balancer; a state for the agent is put in the channel. *)
Lemma handle_deserialized_keeps (message : AgentMessage) (y : Socket) :
  let y' := fst (handle_deserialized_message message y) in
  code (socket_status y') = code (socket_status y) /\
  match state_notification message with
  | None => agent_desired_state_tx y' = agent_desired_state_tx y
  | Some desired =>
      chan_receiver_alive (agent_desired_state_tx y) = true ->
      chan_pending (agent_desired_state_tx y') = chan_pending (agent_desired_state_tx y) ++ [desired]
  end.
Proof.
  assert (Hkeeps : forall y1 y2, socket_keeps y1 y2 ->
    code (socket_status y2) = code (socket_status y1) /\
    agent_desired_state_tx y2 = agent_desired_state_tx y1) by (intros ? ? []; done).
  destruct message as [e|[desired|id|v]|envelope]; simpl; try by apply Hkeeps.
  - destruct (chan_send _ desired) as [tx|] eqn:Hsend; simpl; (split; [done|]).
    + intros _. by apply chan_send_some in Hsend as [-> _].
    + apply chan_send_none in Hsend. congruence.
  - pose proof (stop_keeps id y) as Hstop. destruct (stop id y) as [y' []]; by apply Hkeeps.
  - destruct (request envelope); apply Hkeeps; try apply generate_keeps; try apply send_message_keeps; done.
Qed.

Lemma flush_keeps (fuel : nat) (outcomes : nat -> AgentSocket.WriteOutcome) (y : Socket) :
  socket_keeps y (flush_messages fuel outcomes y).
Proof.
  assert (Hturn : forall outcome y, socket_keeps y (write_turn outcome y))
    by (intros ? z; unfold write_turn; by repeat case_match).
  revert y. induction fuel as [|fuel IH]; intros y; simpl; [done|].
  destruct (outcomes fuel); [| |apply Hturn];
    (eapply socket_keeps_trans; [apply Hturn|apply IH]).
Qed.

Lemma end_forwarding_keeps (n : nat) (s : @ResponseStream _ achan) (y : Socket) :
  socket_keeps y (end_forwarding n s y).
Proof. unfold end_forwarding, drop_stopper_guard, deregister_stopper. by case_match. Qed.

Lemma forward_turn_keeps (n : nat) (turn : ForwardTurn) (y : Socket) :
  socket_keeps y (forward_response_turn n turn y).
Proof.
  unfold forward_response_turn. destruct (streams y !! n) as [s|]; [|done].
  destruct (forwarding s); [|done]. destruct turn.
  - case_match; [apply end_forwarding_keeps|done].
  - destruct (response_recv (response_rx s)) as [[response rx]|].
    + match goal with |- context [send_message ?m ?y1] =>
        pose proof (send_message_keeps m y1) as Hsend; destruct (send_message m y1) as [y2 r]
      end.
      assert (socket_keeps y y2) as Hy2 by (by destruct Hsend).
      destruct r; [done|]. eapply socket_keeps_trans; [exact Hy2|apply end_forwarding_keeps].
    + case_match; [done|apply end_forwarding_keeps].
Qed.

Lemma socket_step_keeps (event : SocketEvent) (y : Socket)
    (Hcalm : event_calm (SocketMoves event)) (Htext : reads_text event = false) :
  socket_keeps y (socket_step agent_from_str event y).
Proof.
  destruct event as [message| | |now|now| |n turn|n response|n|outcome| |outcomes|ops]; simpl in *;
    try match goal with |- context [in_loop] => unfold in_loop; destruct (loop_phase y) end; try done.
  - destruct message; simpl; try done. by repeat case_match.
  - unfold do_send_status_update. case_match; [apply send_message_keeps|done].
  - unfold do_send_status_update. case_match; [apply send_message_keeps|done].
  - unfold leave_connection. case_match; [done| |done].
    pose proof (send_message_keeps (ManagementNotificationMessage DeregisterAgent) y) as [? ?]. done.
  - apply forward_turn_keeps.
  - unfold scheduler_sends. by repeat case_match.
  - unfold scheduler_drops. by repeat case_match.
  - unfold write_turn. by repeat case_match.
  - unfold pong_turn. by repeat case_match.
  - unfold writer_sees_close. case_match; [apply flush_keeps|done].
  - split; [by apply run_status_ops_code|done].
Qed.

(** *** The process *)

Lemma try_convert_desired (env : ConversionEnvironment) (p : Process) :
  desired_state (reconciliation (AgentArbiter.try_convert_to_applicable_state env p))
  = desired_state (reconciliation p).
Proof.
  assert (Hpublish : forall state (q : Process),
    desired_state (reconciliation (fst (publish_applicable_state state q))) = desired_state (reconciliation q))
    by (intros state q; unfold publish_applicable_state; by case_match).
  assert (Hconvert : desired_state (reconciliation (fst (AgentArbiter.convert_to_applicable_state env p)))
                     = desired_state (reconciliation p)).
  { unfold AgentArbiter.convert_to_applicable_state. destruct (desired_state (reconciliation p)) as [d|] eqn:E.
    - destruct (AgentArbiter.to_applicable_state env d (slot_status p)) as [s [[state|e]|]]; simpl; try done.
      pose proof (Hpublish (Some state) (set_status s p)) as Hp.
      destruct (publish_applicable_state _ _). simpl in *. congruence.
    - pose proof (Hpublish None p) as Hp. destruct (publish_applicable_state _ _). simpl in *. congruence. }
  unfold AgentArbiter.try_convert_to_applicable_state.
  by destruct (AgentArbiter.convert_to_applicable_state env p) as [q [r|]].
Qed.

Lemma try_to_apply_desired (env : ApplyEnvironment) (p : Process) (Henv : apply_keeps_code env) :
  reconciliation (try_to_apply_state slots devices env p) = reconciliation p.
Proof.
  unfold try_to_apply_state. destruct (apply_state slots devices env p) as [p' r] eqn:Happly.
  apply (apply_state_spec slots devices) in Happly as [[_ Hr _ _ _] _]; [|done].
  by destruct r.
Qed.

(** Only a desired state that is received changes what is desired. *)
Lemma agent_step_desired (event : AgentEvent) (p : Process) (Hcalm : event_keeps_status event) :
  desired_state (reconciliation (agent_step slots devices event p))
  = match event with
    | AgentArbiter.DesiredStateReceived _ (Some desired) =>
        if reconciliation_runs p then Some desired else desired_state (reconciliation p)
    | _ => desired_state (reconciliation p)
    end.
Proof.
  destruct event as [env|env [next|]| |env|env|command| | |env|ops]; simpl in *.
  - case_match; [apply try_convert_desired|done].
  - case_match; [by rewrite try_convert_desired|done].
  - by case_match.
  - unfold arbiter_starts. destruct (reconciled_state (arbiter p)); [done|]. by destruct (Tokio.watched_subscribe _).
  - case_match; [|done]. unfold arbiter_tick.
    destruct (get_state_application_status (slot_status p)) as [status|]; [|done].
    destruct (should_try_to_apply status); [|done]. by rewrite try_to_apply_desired.
  - case_match; [|done]. unfold arbiter_changed. destruct (reconciled_state (arbiter p)) as [rx|]; [|done].
    destruct (Tokio.watched_changed _ rx); [|done]. destruct (Tokio.watched_borrow_and_update _ rx) as [rx' state].
    by rewrite try_to_apply_desired.
  - case_match; [|done]. unfold forward_command. by repeat case_match.
  - done.
  - by case_match.
  - case_match; [|done..]. case_match; [|done]. unfold arbiter_stops, shutdown_arbiter_handle. by case_match.
  - done.
Qed.

(** *** The database *)

Lemma broadcast_send_prefix (state : BalancerDesiredState) (b : Broadcast) :
  broadcast_sent b `prefix_of` broadcast_sent (fst (broadcast_send state b)) /\
  (is_ok (snd (broadcast_send state b)) = true ->
   broadcast_sent (fst (broadcast_send state b)) = broadcast_sent b ++ [state]).
Proof. unfold broadcast_send. case_match; simpl; [done|]. split; [by eexists|done]. Qed.

Lemma store_schema_announces (w : StateDatabase.WriteOutcome) (schema : Schema) (f : File) :
  let '(f', r) := store_schema print_schema w schema f in
  broadcast_sent (file_notify_tx f) `prefix_of` broadcast_sent (file_notify_tx f') /\
  (is_ok r = true -> broadcast_sent (file_notify_tx f') = broadcast_sent (file_notify_tx f) ++ [schema_state schema]).
Proof.
  unfold store_schema, notify_stored. destruct w as [e|written e|]; simpl; [done..|].
  destruct (broadcast_send_prefix (schema_state schema) (file_notify_tx f)) as [Hprefix Hsent].
  destruct (broadcast_send _ _) as [b r]. by simpl in *.
Qed.

Lemma read_schema_announces (rd : ReadOutcome) (w : StateDatabase.WriteOutcome) (f : File) :
  broadcast_sent (file_notify_tx f) `prefix_of`
  broadcast_sent (file_notify_tx (fst (read_schema_from_file print_schema parse_schema rd w f))).
Proof.
  unfold read_schema_from_file, store_default_schema.
  pose proof (store_schema_announces w schema_default f) as Hstore.
  destruct (store_schema print_schema w schema_default f) as [f' r].
  destruct rd; [|done]. by destruct (contents f); [case_decide|]; destruct r; simpl; try apply Hstore.
Qed.

Lemma database_read_announces (io : DatabaseIo) (db : StateDatabase) :
  announced db `prefix_of` announced (fst (database_read print_schema parse_schema io db)).
Proof.
  destruct db as [m|f]; simpl; [done|]. unfold file_read.
  pose proof (read_schema_announces (io_read io) (io_default_write io) f) as Hread.
  by destruct (read_schema_from_file _ _ _ _ f) as [f' []].
Qed.

Lemma database_store_announces (io : DatabaseIo) (state : BalancerDesiredState) (db : StateDatabase) :
  let '(db', r) := database_store print_schema parse_schema io state db in
  announced db `prefix_of` announced db' /\
  (is_ok r = true -> exists earlier, announced db `prefix_of` earlier /\ announced db' = earlier ++ [state]).
Proof.
  destruct db as [m|f]; simpl.
  - unfold memory_store. destruct (broadcast_send_prefix state (memory_notify_tx m)) as [Hprefix Hsent].
    destruct (broadcast_send _ _) as [b r]. simpl in *. split; [done|]. intros Hok. eauto.
  - unfold file_store, update_schema.
    pose proof (read_schema_announces (io_read io) (io_default_write io) f) as Hread.
    destruct (read_schema_from_file _ _ _ _ f) as [f1 [schema|e]]; simpl in *; [|done].
    match goal with |- context [store_schema _ ?w ?schema f1] =>
      pose proof (store_schema_announces w schema f1) as Hstore;
      destruct (store_schema print_schema w schema f1) as [f2 r]
    end.
    destruct Hstore as [Hprefix Hsent]. split; [by etrans|]. intros Hok. eauto.
Qed.

(** Requests to the management service only add announcements; a state that
    is accepted is announced last. *)
Lemma manages_announces (io : DatabaseIo) (m : Method) (path : string)
    (body : option (result string string)) (f : Fleet) :
  exists db, fst (manages io m path body f) = put_database db f /\
    announced (database f) `prefix_of` announced db.
Proof.
  assert (Hdb : announced (database f) `prefix_of`
    announced (state_database (fst (respond io m path body (app_data f))))).
  { unfold management_respond, respond_desired_state, respond_put_desired_state.
    destruct m; repeat case_decide; try done.
    - pose proof (database_read_announces io (database f)) as Hread. simpl.
      by destruct (database_read _ _ io (database f)).
    - destruct (json_body body) as [state|]; [|done].
      destruct (validate_inference_parameters _); [|done].
      pose proof (database_store_announces io state (database f)) as Hstore. simpl.
      destruct (database_store _ _ io state (database f)). by destruct Hstore. }
  unfold manages. destruct (respond io m path body (app_data f)) as [d response]. by eexists.
Qed.

Lemma put_announces (io : DatabaseIo) (body : option (result string string))
    (state : BalancerDesiredState) (f f' : Fleet) (response : HttpResponse) :
  json_body body = Ok state ->
  manages io PUT "/api/v1/balancer_desired_state" body f = (f', response) -> ClientHttp.status response = 204 ->
  exists db earlier, f' = put_database db f /\ announced (database f) `prefix_of` earlier /\
    announced db = earlier ++ [state].
Proof.
  unfold manages, management_respond, respond_put_desired_state. intros ->. simpl.
  destruct (validate_inference_parameters _); [|by intros [= _ <-]].
  pose proof (database_store_announces io state (database f)) as Hstore.
  destruct (database_store _ _ io state (database f)) as [db [u|e]]; simpl; [|by intros [= _ <-]].
  intros [= <- _] _. destruct Hstore as [_ (earlier & ? & ?)]; [done|]. by exists db, earlier.
Qed.

(** ** Facts: what every run keeps *)

Record fleet_ok (n : nat) (f : Fleet) : Prop := {
  ok_fresh : controllers_fresh (balancer f);
  ok_agent : agent_inv slots devices (process f);
  ok_read : (messages_read f <= length (sent_to n (balancer f)))%nat;
  ok_taken : (announcements_taken f <= length (announced (database f)))%nat;
}.

Lemma fresh_same (b b' : Agents) (Hagents : agents (pool b') = agents (pool b))
    (Hconns : connections b' = connections b) (Hnext : next_controller b' = next_controller b)
    (Hfresh : controllers_fresh b) :
  controllers_fresh b'.
Proof.
  destruct Hfresh as [Ha Hd Hf Hu]. unfold pooled, agents_distinct in *.
  split; unfold pooled, agents_distinct; rewrite ?Hagents, ?Hconns, ?Hnext; done.
Qed.

Lemma try_convert_agents (s : ReconciliationService bchan token bsender) :
  agents (DesiredState.agent_controller_pool
            (DesiredState.try_convert_to_applicable_state iteration s))
  = agents (DesiredState.agent_controller_pool s).
Proof.
  pose proof (convert_spec iteration s) as Hspec. unfold DesiredState.try_convert_to_applicable_state.
  destruct (DesiredState.convert_to_applicable_state iteration s) as [s' r]. simpl.
  unfold pool_set_desired_state in Hspec. destruct (set_desired_state_entries _ _ _) as [h sent].
  by destruct Hspec as [-> _].
Qed.

Lemma reconciles_cases (taken : nat) (event : ReconciliationEvent) (f : Fleet) :
  reconciles taken event f = f \/
  exists s stopped, reconciles taken event f = put_service taken stopped s f /\
    s = outcome_state (handle_reconciliation_event iteration event (service f)) /\
    agents (DesiredState.agent_controller_pool s) = agents (pool (balancer f)).
Proof.
  unfold reconciles. destruct (reconciliation_stopped f); [by left|right].
  assert (Hagents : agents (DesiredState.agent_controller_pool
      (outcome_state (handle_reconciliation_event iteration event (service f))))
    = agents (pool (balancer f))).
  { destruct event as [| |[state|e]]; simpl; [done| | |done].
    - destruct (balancer_converted f); simpl; [done|]. by rewrite try_convert_agents.
    - by rewrite try_convert_agents. }
  destruct (handle_reconciliation_event iteration event (service f)) as [s|s r]; eauto.
Qed.

Lemma reads_text_spec (text : string) (y : Socket) :
  let y' := socket_step agent_from_str (Reads (WsText text)) y in
  code (socket_status y') = code (socket_status y) /\
  match loop_phase y, agent_from_str text with
  | InLoop, Ok message =>
      match state_notification message with
      | None => agent_desired_state_tx y' = agent_desired_state_tx y
      | Some desired =>
          chan_receiver_alive (agent_desired_state_tx y) = true ->
          chan_pending (agent_desired_state_tx y') = chan_pending (agent_desired_state_tx y) ++ [desired]
      end
  | _, _ => agent_desired_state_tx y' = agent_desired_state_tx y
  end.
Proof.
  simpl. unfold in_loop. destruct (loop_phase y); [|done..]. simpl.
  destruct (agent_from_str text) as [message|e]; simpl; [|done]. apply handle_deserialized_keeps.
Qed.

Lemma socket_moves_inv (read : nat) (event : SocketEvent) (f : Fleet)
    (Hcalm : event_calm (SocketMoves event)) (Hinv : agent_inv slots devices (process f)) :
  agent_inv slots devices (process (socket_moves read event f)).
Proof.
  apply agent_inv_status; [|done]. destruct (reads_text event) eqn:Htext.
  - destruct event as [[]| | | | | | | | | | | |]; try done. by apply (reads_text_spec text (socket_view f)).
  - by destruct (socket_step_keeps event (socket_view f) Hcalm Htext) as [-> _].
Qed.

Lemma process_moves_inv (event : AgentEvent) (f : Fleet) (Hcalm : event_keeps_status event)
    (Hinv : agent_inv slots devices (process f)) :
  agent_inv slots devices (process (process_moves event f)).
Proof. by apply agent_step_inv. Qed.

Lemma peers_send_fresh (loc : nat) (message : AgentMessage) (b : Agents) :
  controllers_fresh b -> controllers_fresh (peers_send loc message b).
Proof.
  intros Hfresh. unfold peers_send. repeat case_match; try done. by apply put_pool_fresh.
Qed.

Lemma peers_send_sent (n loc : nat) (message : AgentMessage) (b : Agents) :
  sent_to n (peers_send loc message b) = sent_to n b.
Proof. unfold peers_send. by repeat case_match. Qed.

Lemma fleet_step_ok (n : nat) (event : FleetEvent) (f : Fleet) (Hcalm : event_calm event)
    (Hok : fleet_ok n f) :
  fleet_ok n (fleet_step n event f).
Proof.
  assert (Hreconciles : forall taken event, (taken <= length (announced (database f)))%nat ->
    fleet_ok n (reconciles taken event f)).
  { intros taken e Htaken. destruct (reconciles_cases taken e f) as [->|(s & stopped & -> & _ & Hs)]; [done|].
    destruct Hok as [Hfresh Hagent Hread _]. split; simpl; [|done..].
    by apply (fresh_same (balancer f)). }
  pose proof Hok as [Hfresh Hagent Hread Htaken].
  destruct event as [io m path body| | |e| |loc message|event|text|event|env|event]; simpl in *;
    try by apply Hreconciles.
  - destruct (manages_announces io m path body f) as (db & -> & Hprefix%prefix_length).
    split; simpl; try done. lia.
  - destruct (announced (database f) !! announcements_taken f) eqn:Hlook; [|done].
    apply Hreconciles. by apply lookup_lt_Some in Hlook.
  - split; simpl; [by apply peers_send_fresh|done|by rewrite peers_send_sent|done].
  - pose proof (balancer_step_sent balancer_from_str print_size VERSION n event (balancer f)) as Hsent.
    apply prefix_length in Hsent. split; simpl; [by apply balancer_step_fresh|done|lia|done].
  - destruct (sent_to n (balancer f) !! messages_read f) eqn:Hlook; [|done].
    apply lookup_lt_Some in Hlook. split; [done|by apply socket_moves_inv|simpl; lia|done].
  - split; [done|by apply socket_moves_inv|done|done].
  - unfold agent_takes. destruct (reconciliation_runs (process f)); [|done].
    destruct (chan_try_recv _) as [[desired rx]|]; [|done].
    split; [done|by apply process_moves_inv|done|done].
  - split; [done|by apply process_moves_inv|done|done].
Qed.

Lemma fleet_run_ok (n : nat) (events : list FleetEvent) (f : Fleet) (Hcalm : Forall event_calm events)
    (Hok : fleet_ok n f) :
  fleet_ok n (fleet_run n events f).
Proof.
  revert f Hok. induction Hcalm as [|event events Hevent _ IH]; intros f Hok; [done|].
  apply IH. by apply fleet_step_ok.
Qed.

(** ** The way of a state *)

(** The connection of the observed agent is up: the agent is in the pool, its
    loop reads, and its reconciliation task takes what was read. *)
Definition agent_attached (n loc : nat) (f : Fleet) : Prop :=
  attached n loc (balancer f) /\ loop_phase (socket f) = InLoop /\
  chan_receiver_alive (agent_desired_state_tx (socket f)) = true.

(** The connection carries what the balancer writes: writes succeed, and what
    was written is what is read. *)
Definition event_carried (n : nat) (event : FleetEvent) (f : Fleet) : Prop :=
  match event with
  | PeersSend _ message => state_notification message = None
  | BalancerMoves event => writes n event
  | AgentReads text =>
      forall message, sent_to n (balancer f) !! messages_read f = Some message ->
        agent_from_str text = Ok message
  | SocketMoves event => reads_text event = false
  | ProcessMoves event =>
      match event with AgentArbiter.DesiredStateReceived _ (Some _) => False | _ => True end
  | _ => True
  end.

Fixpoint attached_run (n loc : nat) (events : list FleetEvent) (f : Fleet) : Prop :=
  agent_attached n loc f /\
  match events with
  | [] => True
  | event :: events => event_carried n event f /\ attached_run n loc events (fleet_step n event f)
  end.

(** The states the agent has and is going to have, the last one last. *)
Definition journey (n loc : nat) (f : Fleet) : list AgentDesiredState :=
  option_list (desired_state (reconciliation (process f)))
  ++ chan_pending (agent_desired_state_tx (socket f))
  ++ omap state_notification
       (drop (messages_read f) (sent_to n (balancer f)) ++ waiting_for loc (balancer f)).

Definition arriving (n loc : nat) (f : Fleet) : list AgentDesiredState :=
  chan_pending (agent_desired_state_tx (socket f))
  ++ omap state_notification
       (drop (messages_read f) (sent_to n (balancer f)) ++ waiting_for loc (balancer f)).

(** What was announced last is still to be taken, or is what the balancer
    desires; and once the balancer is done with it, the agent gets it last. *)
Definition synced (n loc : nat) (f : Fleet) : Prop :=
  exists state, last (announced (database f)) = Some state /\
    ((announcements_taken f < length (announced (database f)))%nat \/
     (balancer_desired f = state /\
      (balancer_converted f = true -> last (journey n loc f) = Some (to_desired_state state)))).

Lemma synced_same (n loc : nat) (f f' : Fleet) (Hdb : database f' = database f)
    (Htaken : announcements_taken f' = announcements_taken f)
    (Hdesired : balancer_desired f' = balancer_desired f)
    (Hconverted : balancer_converted f' = balancer_converted f)
    (Hjourney : last (journey n loc f') = last (journey n loc f)) :
  synced n loc f -> synced n loc f'.
Proof.
  intros (state & Hlast & Hcase). exists state. by rewrite Hdb, Htaken, Hdesired, Hconverted, Hjourney.
Qed.

(** A state that is broadcast is the last on its way. *)
Lemma try_convert_journey (n loc taken : nat) (stopped : bool)
    (s : ReconciliationService bchan token bsender) (f : Fleet)
    (Hpool : DesiredState.agent_controller_pool s = pool (balancer f))
    (Hdistinct : agents_distinct (pool (balancer f))) (Hattached : attached n loc (balancer f))
    (Hunconverted : is_converted_to_applicable_state s = false) :
  let s' := DesiredState.try_convert_to_applicable_state iteration s in
  DesiredState.balancer_desired_state s' = DesiredState.balancer_desired_state s /\
  (is_converted_to_applicable_state s' = true ->
   last (journey n loc (put_service taken stopped s' f))
   = Some (to_desired_state (DesiredState.balancer_desired_state s))).
Proof.
  pose proof (convert_spec iteration s) as Hspec. unfold DesiredState.try_convert_to_applicable_state.
  destruct (DesiredState.convert_to_applicable_state iteration s) as [s' r]. simpl.
  destruct (pool_set_desired_state iteration _ _) as [p [u|e]] eqn:Hbroadcast;
    destruct Hspec as (Hp & Hd & _ & Hc & _); (split; [done|]); [|congruence]. intros _.
  destruct Hattached as (c & a & Hc' & Hf & Hpooled & Ha). rewrite Hpool in Hbroadcast.
  destruct (broadcast_reaches_all iteration iteration_entries _ _ _ u Hdistinct Hbroadcast loc a)
    as (a' & [_ Ha'] & Hreceived & _); [by split; [eexists|]|].
  assert (Hwaiting : waiting_for loc (balancer (put_service taken stopped s' f))
    = waiting_for loc (balancer f)
      ++ [AgentMessageNotification (SetState (to_desired_state (DesiredState.balancer_desired_state s)))]).
  { unfold waiting_for. simpl. by rewrite Hp, Ha', Ha, Hreceived. }
  unfold journey. rewrite Hwaiting, !omap_app, !app_assoc. simpl. by rewrite last_snoc.
Qed.

(** A step of the service that takes nothing, and one that takes a state. *)
Lemma reconciles_synced (n loc : nat) (event : ReconciliationEvent) (f : Fleet)
    (Hdistinct : agents_distinct (pool (balancer f))) (Hattached : attached n loc (balancer f))
    (Hevent : forall d, event <> DesiredState.DesiredStateReceived (Ok d)) (Hsynced : synced n loc f) :
  synced n loc (reconciles (announcements_taken f) event f).
Proof.
  unfold reconciles. destruct (reconciliation_stopped f); [done|].
  destruct event as [| |[d|e]]; simpl; [by apply (synced_same n loc f)| |by destruct (Hevent d)|].
  - destruct (balancer_converted f) eqn:Hconverted; [by apply (synced_same n loc f)|].
    destruct (try_convert_journey n loc (announcements_taken f) false (service f) f)
      as [Hdesired Hjourney]; [done..|].
    destruct Hsynced as (state & Hlast & Hcase). exists state. split; [done|].
    destruct Hcase as [?|[<- _]]; [by left|right; done].
  - destruct Hsynced as (state & Hlast & [?|[<- _]]); 
      (eexists; split; [exact Hlast|]); [by left|by right].
Qed.

Lemma takes_synced (n loc : nat) (f : Fleet) (d : BalancerDesiredState)
    (Hdistinct : agents_distinct (pool (balancer f))) (Hattached : attached n loc (balancer f))
    (Htaken : announced (database f) !! announcements_taken f = Some d) (Hsynced : synced n loc f) :
  synced n loc (reconciles (S (announcements_taken f)) (DesiredState.DesiredStateReceived (Ok d)) f).
Proof.
  unfold reconciles. destruct (reconciliation_stopped f); [done|]. simpl.
  match goal with |- synced _ _ (put_service ?t ?st (_ _ ?s) f) =>
    destruct (try_convert_journey n loc t st s f) as [Hdesired Hjourney]; [done..|]
  end.
  destruct Hsynced as (state & Hlast & _). exists state. split; [done|]. simpl.
  destruct (decide (S (announcements_taken f) < length (announced (database f)))%nat) as [?|Hend]; [by left|right].
  pose proof (lookup_lt_Some _ _ _ Htaken) as Hlt. rewrite last_lookup in Hlast.
  replace (pred (length (announced (database f)))) with (announcements_taken f) in Hlast by lia.
  rewrite Htaken in Hlast. injection Hlast as <-. done.
Qed.

(** *** The agent's part *)

Lemma last_dropped {A : Type} (o : option A) (x : A) (l : list A) :
  last (option_list o ++ x :: l) = last (option_list (Some x) ++ l).
Proof. destruct o; [|done]. simpl. by destruct l. Qed.

Lemma reads_journey (n loc : nat) (text : string) (f : Fleet) (message : AgentMessage)
    (Hattached : agent_attached n loc f)
    (Hmessage : sent_to n (balancer f) !! messages_read f = Some message)
    (Htext : agent_from_str text = Ok message) :
  journey n loc (socket_moves (S (messages_read f)) (Reads (WsText text)) f) = journey n loc f.
Proof.
  destruct Hattached as (_ & Hphase & Halive).
  destruct (reads_text_spec text (socket_view f)) as [_ Hspec].
  change (loop_phase (socket_view f)) with (loop_phase (socket f)) in Hspec.
  rewrite Hphase, Htext in Hspec. unfold journey.
  rewrite (drop_S _ _ _ Hmessage). cbn [app omap list_omap].
  change (balancer (socket_moves (S (messages_read f)) (Reads (WsText text)) f)) with (balancer f).
  change (messages_read (socket_moves (S (messages_read f)) (Reads (WsText text)) f)) with (S (messages_read f)).
  change (socket (socket_moves (S (messages_read f)) (Reads (WsText text)) f))
    with (socket_step agent_from_str (Reads (WsText text)) (socket_view f)).
  change (reconciliation (process (socket_moves (S (messages_read f)) (Reads (WsText text)) f)))
    with (reconciliation (process f)).
  destruct (state_notification message) as [desired|].
  - rewrite Hspec by done. by rewrite <- !app_assoc.
  - by rewrite Hspec.
Qed.

Lemma process_moves_tx (n loc : nat) (event : AgentEvent) (f : Fleet)
    (Hafter : agent_attached n loc (process_moves event f)) :
  agent_desired_state_tx (socket (process_moves event f)) = agent_desired_state_tx (socket f).
Proof.
  destruct Hafter as (_ & _ & Halive). revert Halive. unfold process_moves. simpl.
  case_match; try done. simpl. by rewrite chan_drop_alive.
Qed.

Lemma process_moves_journey (n loc : nat) (event : AgentEvent) (f : Fleet)
    (Hcalm : event_keeps_status event) (Hcarried : event_carried n (ProcessMoves event) f)
    (Hafter : agent_attached n loc (process_moves event f)) :
  journey n loc (process_moves event f) = journey n loc f.
Proof.
  unfold journey. rewrite (process_moves_tx n loc event f Hafter).
  change (process (process_moves event f)) with (agent_step slots devices event (process f)).
  rewrite agent_step_desired by done. by destruct event as [|env [d|]| | | | | | | |].
Qed.

Lemma takes_journey (n loc : nat) (env : ConversionEnvironment) (f : Fleet)
    (Hafter : agent_attached n loc (agent_takes env f)) :
  last (journey n loc (agent_takes env f)) = last (journey n loc f).
Proof.
  revert Hafter. unfold agent_takes. destruct (reconciliation_runs (process f)) eqn:Hruns; [|done].
  destruct (chan_try_recv (agent_desired_state_tx (socket f))) as [[desired rx]|] eqn:Hrecv; [|done].
  intros Hafter. unfold journey. rewrite (process_moves_tx _ _ _ _ Hafter).
  match goal with |- context [process (process_moves ?e ?f0)] =>
    change (process (process_moves e f0)) with (agent_step slots devices e (process f))
  end.
  rewrite agent_step_desired, Hruns by done. simpl.
  apply chan_recv_some in Hrecv as [-> _]. symmetry. apply last_dropped.
Qed.

Lemma peers_send_waiting (n loc loc' : nat) (message : AgentMessage) (b : Agents)
    (Hmessage : state_notification message = None) :
  omap state_notification (waiting_for loc (peers_send loc' message b))
  = omap state_notification (waiting_for loc b).
Proof.
  unfold peers_send. destruct (controllers (pool b) !! loc') as [a|] eqn:Ha; [|done].
  pose proof (Controller.send_rpc_message_ok message a) as Hsend.
  destruct (Controller.send_rpc_message message a) as [a'|]; [|done].
  destruct Hsend as (tx & -> & Hpending). unfold waiting_for. simpl.
  destruct (decide (loc' = loc)) as [->|]; [|by rewrite lookup_insert_ne].
  rewrite lookup_insert_eq, Ha. simpl. rewrite Hpending, omap_app. simpl.
  by rewrite Hmessage, app_nil_r.
Qed.

(** *** The whole way *)

Lemma balancer_moves_journey (n loc : nat) (event : @BalancerEvent token) (f : Fleet)
    (Hok : fleet_ok n f) (Hattached : attached n loc (balancer f))
    (Hafter : attached n loc (balancer_steps event (balancer f))) (Hwrites : writes n event) :
  journey n loc (put_balancer (balancer_steps event (balancer f)) f) = journey n loc f.
Proof.
  destruct (balancer_step_carries balancer_from_str print_size VERSION n loc event (balancer f)
    (ok_fresh _ _ Hok) Hattached Hafter Hwrites) as [Hprefix Heq].
  pose proof (ok_read _ _ Hok) as Hread. pose proof (prefix_length _ _ Hprefix) as Hlength.
  unfold journey. simpl. do 3 f_equal.
  rewrite <- !drop_app_le by lia. by rewrite Heq.
Qed.

Lemma fleet_step_synced (n loc : nat) (event : FleetEvent) (f : Fleet) (Hcalm : event_calm event)
    (Hok : fleet_ok n f) (Hbefore : agent_attached n loc f) (Hcarried : event_carried n event f)
    (Hafter : agent_attached n loc (fleet_step n event f)) (Hsynced : synced n loc f) :
  synced n loc (fleet_step n event f).
Proof.
  pose proof (fresh_distinct _ (ok_fresh _ _ Hok)) as Hdistinct. pose proof Hbefore as [Hattached _].
  destruct event as [io m path body| | |e| |loc' message|event|text|event|env|event];
    cbn [fleet_step event_calm event_carried] in *.
  - destruct (manages_announces io m path body f) as (db & -> & [more Hmore]).
    destruct Hsynced as (state & Hlast & Hcase). destruct (decide (more = [])) as [->|Hne].
    + rewrite app_nil_r in Hmore. exists state. simpl. by rewrite Hmore.
    + destruct (last more) as [latest|] eqn:Hlatest; [|by apply last_None in Hlatest].
      exists latest. simpl. rewrite Hmore, last_app, Hlatest. split; [done|left].
      pose proof (ok_taken _ _ Hok). rewrite length_app. destruct more; simpl; [done|lia].
  - by apply reconciles_synced.
  - destruct (announced (database f) !! announcements_taken f) eqn:Htaken; [|done]. by apply takes_synced.
  - by apply reconciles_synced.
  - by apply reconciles_synced.
  - apply (synced_same n loc f); try done. unfold journey. simpl.
    by rewrite peers_send_sent, !omap_app, peers_send_waiting.
  - apply (synced_same n loc f); try done. destruct Hafter as [Hafter _].
    by rewrite balancer_moves_journey.
  - destruct (sent_to n (balancer f) !! messages_read f) as [message|] eqn:Hmessage; [|done].
    apply (synced_same n loc f); try done. rewrite (reads_journey n loc text f message); auto.
  - apply (synced_same n loc f); try done.
    destruct (socket_step_keeps event (socket_view f) Hcalm Hcarried) as [_ Htx].
    unfold journey. simpl. by rewrite Htx.
  - unfold agent_takes in *. pose proof (takes_journey n loc env f Hafter) as Hjourney.
    unfold agent_takes in Hjourney.
    destruct (reconciliation_runs (process f)); [|done].
    destruct (chan_try_recv _) as [[desired rx]|]; [|done]. by apply (synced_same n loc f).
  - apply (synced_same n loc f); try done. by rewrite process_moves_journey.
Qed.

Lemma attached_run_synced (n loc : nat) (events : list FleetEvent) (f : Fleet)
    (Hcalm : Forall event_calm events) (Hok : fleet_ok n f) (Hrun : attached_run n loc events f)
    (Hsynced : synced n loc f) :
  synced n loc (fleet_run n events f).
Proof.
  revert f Hok Hrun Hsynced. induction Hcalm as [|event events Hevent _ IH]; intros f Hok Hrun Hsynced; [done|].
  destruct Hrun as (Hattached & Hcarried & Hrun). apply IH; [by apply fleet_step_ok|done|].
  apply fleet_step_synced; try done. by destruct events; destruct Hrun.
Qed.

(** Nothing has happened yet: no agent is connected, the agent's process is
    new, and nothing was taken or read. *)
Definition fleet_starts (now : Z) (f : Fleet) : Prop :=
  no_agents (balancer f) /\ process f = agent_process_new slots now /\
  messages_read f = 0%nat /\ announcements_taken f = 0%nat.

Lemma fleet_starts_ok (n : nat) (now : Z) (f : Fleet) : fleet_starts now f -> fleet_ok n f.
Proof.
  intros (Hnone & Hprocess & Hread & Htaken).
  split; [by apply no_agents_fresh|rewrite Hprocess; apply agent_inv_new|lia|lia].
Qed.

(** Nothing of what was announced is left to do on the way to the agent. *)
Definition delivered (n loc : nat) (f : Fleet) : Prop :=
  announcements_taken f = length (announced (database f)) /\ balancer_converted f = true /\
  arriving n loc f = [].

(** The agent has applied what it was given. *)
Definition settled (p : Process) : Prop :=
  is_converted (reconciliation p) = true /\
  (exists rx, reconciled_state (arbiter p) = Some rx /\
     Tokio.watched_changed (change_notifier (applicable_holder p)) rx = false) /\
  get_state_application_status (slot_status p) = Ok Applied /\ shutdown_cancelled p = false.

(** C2. What a client puts is what the agents run.  Whatever happened before,
    once a PUT of a desired state is answered with 204 and an agent stays
    connected, in every interleaving of clients, of the reconciliation service,
    of the connections of this and other agents, and of the agent's tasks (a
    request of a client reaches the database as one step: concurrent ones can
    discard each other's states, a finding): when
    nothing else was announced and nothing is left on the way, the agent
    desires exactly that state; and when it is settled, its scheduler serves an
    applicable state of it. *)
Theorem put_state_reaches_scheduler (n loc : nat) (now : Z) (f0 f2 : Fleet) (before after : list FleetEvent)
    (io : DatabaseIo) (body : option (result string string)) (state : BalancerDesiredState)
    (response : HttpResponse) (Hstart : fleet_starts now f0)
    (Hbefore : Forall event_calm before) (Hafter : Forall event_calm after)
    (Hbody : json_body body = Ok state)
    (Hput : manages io PUT "/api/v1/balancer_desired_state" body (fleet_run n before f0) = (f2, response))
    (Haccepted : ClientHttp.status response = 204) (Hattached : attached_run n loc after f2) :
  let f3 := fleet_run n after f2 in
  announced (database f3) = announced (database f2) -> delivered n loc f3 ->
  desired_state (reconciliation (process f3)) = Some (to_desired_state state) /\
  (settled (process f3) ->
   exists applicable, state_for (Some (to_desired_state state)) (Some applicable) /\
     serves slots devices (Some applicable) (continuous_batch_arbiter_handle (arbiter (process f3)))).
Proof.
  intros f3 Hsame (Htaken & Hconverted & Harriving).
  pose proof (fleet_run_ok n before f0 Hbefore (fleet_starts_ok n now f0 Hstart)) as Hok1.
  destruct (put_announces io body state _ _ _ Hbody Hput Haccepted) as (db & earlier & -> & Hearlier & Hdb).
  assert (Hok2 : fleet_ok n (put_database db (fleet_run n before f0))).
  { destruct Hok1 as [? ? ? Hle]. apply prefix_length in Hearlier. split; simpl; try done.
    rewrite Hdb, length_app. lia. }
  assert (Hsynced : synced n loc (put_database db (fleet_run n before f0))).
  { exists state. simpl. rewrite Hdb, last_snoc. split; [done|left].
    pose proof (ok_taken _ _ Hok1). apply prefix_length in Hearlier. rewrite length_app. simpl. lia. }
  pose proof (fleet_run_ok n after _ Hafter Hok2) as Hok3.
  destruct (attached_run_synced n loc after _ Hafter Hok2 Hattached Hsynced) as (latest & Hlast & Hcase).
  fold f3 in Hok3, Hlast, Hcase. rewrite Hsame in Hlast. simpl in Hlast. rewrite Hdb, last_snoc in Hlast.
  injection Hlast as <-. destruct Hcase as [?|[_ Hjourney]]; [lia|]. specialize (Hjourney Hconverted).
  unfold arriving in Harriving. unfold journey in Hjourney. rewrite Harriving, app_nil_r in Hjourney.
  assert (Hdesired : desired_state (reconciliation (process f3)) = Some (to_desired_state state))
    by by destruct (desired_state (reconciliation (process f3))).
  split; [done|]. intros (Hconv & (rx & Hrx & Hseen) & Happlied & Hshutdown).
  destruct (settled_serves slots devices _ rx (ok_agent _ _ Hok3)) as ([applicable|] & Hfor & Hserves);
    try done; rewrite Hdesired in Hfor; [by exists applicable|done].
Qed.
End Fleet.

(** ** A state is put, broadcast, read and applied *)

Local Existing Instance BalancerSocketFacts.sample_json.
Local Existing Instance BalancerSocketFacts.sample_llama.

#[local] Instance no_json {A : Type} : Json A | 100 :=
  {| json_to_string _ := Err "unsupported"%string; json_from_str _ := Err "unsupported"%string |}.

Definition sample_state : BalancerDesiredState := {|
  balancer_chat_template_override := None;
  balancer_inference_parameters := inference_parameters_default;
  balancer_model := LocalToAgent "model.gguf"; balancer_multimodal_projection := NoModel;
  use_chat_template_override := false |}.

(** What the balancer writes: its version, the state it started with, and the
    one that was put. *)
Definition sample_parse (text : string) : result AgentMessage string :=
  if bool_decide (text = "version"%string) then Ok (AgentMessageNotification (Version "1.0"))
  else Ok (AgentMessageNotification (SetState (to_desired_state
             (if bool_decide (text = "put"%string) then sample_state else balancer_desired_state_default)))).

Definition sample_fleet : @Fleet _ _ QueueChannel QueueChannel unit nat nat
    (WatchedValue (option AgentApplicableState)) nat unit unit unit := {|
  database := InMemory {| memory_state := balancer_desired_state_default;
                          memory_notify_tx := {| receivers := 1; broadcast_sent := [] |} |};
  waiting_requests := {| count := 0; counter_update_tx := 0%nat |};
  waiting_limit := 1; metrics_prefix := "paddler_";
  announcements_taken := 0; balancer_desired := balancer_desired_state_default;
  balancer_converted := false; reconciliation_stopped := false;
  balancer := BalancerSocketFacts.sample_agents; messages_read := 0;
  socket := AgentSocketFacts.sample_socket; process := agent_process_new 2 0 |}.

Definition sample_before : list (@FleetEvent _ _ unit unit unit unit) :=
  ServiceTicks :: map BalancerMoves (registers 0)
  ++ [BalancerMoves (ForwarderRuns 0 true); AgentReads "version"; ProcessMoves ArbiterStarts].

Definition sample_after : list (@FleetEvent _ _ unit unit unit unit) :=
  [AgentReads "default"; ServiceTakes; BalancerMoves (ForwarderRuns 0 true); AgentTakes sample_conversion;
   AgentReads "put"; AgentTakes sample_conversion; ProcessMoves (ArbiterChanged sample_apply)].

Local Abbreviation sample_fleet_run :=
  (fleet_run (breceiver := nat) (areceiver := nat) (vreceiver := nat) 2 [] map_to_list
     (fun _ => "") (fun _ => Err "unsupported"%string)
     (fun _ => Ok sample_state) (fun _ => "") (fun _ => "") BalancerSocketFacts.sample_incoming
     (fun _ => "") "1.0" sample_parse 0).

Local Abbreviation sample_put :=
  (manages map_to_list (fun _ => "") (fun _ => Err "unsupported"%string)
     (fun _ => Ok sample_state) (fun _ => "") (fun _ => "") io_works PUT
     "/api/v1/balancer_desired_state" (Some (Ok "{}"%string))
     (sample_fleet_run sample_before sample_fleet)).

Local Abbreviation sample_final := (sample_fleet_run sample_after (fst sample_put)).

(** The connection, computed. *)
Definition attached_check (f : @Fleet _ _ QueueChannel QueueChannel unit nat nat
    (WatchedValue (option AgentApplicableState)) nat unit unit unit) : bool :=
  match connections (balancer f) !! 0%nat with
  | None => false
  | Some c =>
      bool_decide (forwarder c = Some 0%nat) && bool_decide (pooled (balancer f) (agent_id c) = Some 0%nat)
      && bool_decide (is_Some (controllers (BalancerSocket.agent_controller_pool (balancer f)) !! 0%nat))
      && match loop_phase (socket f) with InLoop => true | _ => false end
      && chan_receiver_alive (agent_desired_state_tx (socket f))
  end.

Lemma attached_check_sound f : attached_check f = true -> agent_attached 0 0 f.
Proof.
  unfold attached_check. destruct (connections (balancer f) !! 0%nat) as [c|] eqn:Hc; [|done].
  intros [[[[H1%bool_decide_eq_true H2%bool_decide_eq_true]%andb_prop [a Ha]%bool_decide_eq_true]%andb_prop
    H4]%andb_prop H5]%andb_prop.
  split; [by exists c, a|]. split; [|done]. by destruct (loop_phase (socket f)).
Qed.

Lemma sample_attached :
  attached_run (breceiver := nat) (areceiver := nat) (vreceiver := nat) 2 [] map_to_list
    (fun _ => "") (fun _ => Err "unsupported"%string)
    (fun _ => Ok sample_state) (fun _ => "") (fun _ => "") BalancerSocketFacts.sample_incoming
    (fun _ => "") "1.0" sample_parse 0 0 sample_after (fst sample_put).
Proof.
  repeat match goal with
         | |- agent_attached _ _ _ => apply attached_check_sound; vm_compute; reflexivity
         | |- event_carried _ _ (AgentReads _) _ =>
             intros message Hmessage; vm_compute in Hmessage; injection Hmessage as <-; reflexivity
         | |- event_carried _ _ _ _ => done
         | |- _ => split
         end.
Qed.

Lemma sample_delivered :
  ClientHttp.status (snd sample_put) = 204 /\
  announced (database sample_final) = announced (database (fst sample_put)) /\
  delivered 0 0 sample_final /\ settled (process sample_final).
Proof.
  unfold delivered, settled. split_and!; try (vm_compute; reflexivity).
  eexists. split; vm_compute; reflexivity.
Qed.

Lemma put_state_reaches_scheduler_witness :
  desired_state (reconciliation (process sample_final)) = Some (to_desired_state sample_state) /\
  exists applicable, state_for (Some (to_desired_state sample_state)) (Some applicable) /\
    serves 2 [] (Some applicable) (continuous_batch_arbiter_handle (arbiter (process sample_final))).
Proof.
  destruct sample_delivered as (Haccepted & Hsame & Hdelivered & Hsettled).
  destruct (put_state_reaches_scheduler 2 [] map_to_list (fun _ => reflexivity _)
    (fun _ => ""%string) (fun _ => Err "unsupported"%string) (fun _ => Ok sample_state)
    (fun _ => ""%string) (fun _ => ""%string) BalancerSocketFacts.sample_incoming (fun _ => ""%string)
    "1.0" sample_parse 0 0 0 sample_fleet (fst sample_put) sample_before sample_after io_works
    (Some (Ok "{}"%string)) sample_state (snd sample_put)) as [Hdesired Hserves];
    [| | |reflexivity|apply surjective_pairing|exact Haccepted|exact sample_attached|exact Hsame|exact Hdelivered|].
  - repeat split.
  - repeat constructor.
  - repeat constructor.
  - split; [exact Hdesired|exact (Hserves Hsettled)].
Defined.
